(* ===== verification/_CoqProject ===== *)
-Q . S2P
Prelude.v
GoStrings.v
GoNet.v
Config.v
Framing.v
ProxyInfo.v
NatTable.v
Tunnel.v
Heartbeat.v
Base64.v
Allocator.v
KubeApi.v
Dhcp.v
Cleaner.v
ControlPlane.v
Watcher.v
Envoy.v
Daemon.v
Hosts.v
GoPath.v
IPText.v
Url.v
Resolv.v
ForwardDNS.v
PortForward.v
Clone.v
Copy.v
Cidr.v
Node.v
Sidecar.v
Outbound.v
Connect.v
Webhook.v
Workloads.v
Handlers.v
Routes.v
ServiceHosts.v
SetupDns.v
Docker.v
Dev.v
DevRun.v
DevMain.v
Ssh.v
Rollout.v
ClientDevice.v
Endpoint.v
ServerDevice.v
DaemonProc.v
Upgrade.v
Relay.v
Gvisor.v
Wiring.v
Streams.v
DevWait.v
SshServer.v
RemoteInstall.v
ImageTransfer.v
Utils.v
Host.v
Platforms.v
Commands.v
