(* ===== verification/Prelude.v ===== *)
(** * KubeVPN: a verification library

    KubeVPN connects a developer's machine to the network of a Kubernetes cluster.
    A client rents an inner address pair from a pool kept in a ConfigMap, finds out
    which networks the cluster uses, starts a tunnel device, and exchanges IP packets
    with a traffic manager in the cluster over a TCP connection that carries framed
    datagrams.  Workloads can be proxied: side-cars are added to their pods, and an
    Envoy control plane routes requests by header to the clients that asked for them.
    A user daemon and a root daemon on the machine keep the connections.

    This library models these parts in Gallina, operation by operation, and proves
    the properties that make them work together, and where the code deviates from
    what it means to do, what it does instead.

    ** Conventions

    Go values are modelled as the code has them: a byte string is [list byte] or
    [string], a slice updated by index is a list with the out-of-range panic written
    out, a map is a [gmap], a nil map or pointer that the code can tell from an empty
    one is an [option], an [int] is a [Z] with its wrap-around where it can overflow.
    A call returns an [outcome]: [Ret], [Fail] with an error value, or [Panic].
    Code outside the repository is an interface: a class of operations and a class of
    laws ([KubeApi.ConfigMapInterface]/[ConfigMapLaws] for the API server's ConfigMaps
    with optimistic concurrency, [Envoy.YamlCodec]/[YamlLaws], [Sidecar.JsonCodec]/
    [JsonLaws], [Sidecar.WorkloadInterface]/[WorkloadLaws], [Webhook.AdmissionCodec]/
    [AdmissionCodecLaws], [Workloads.Factory]/[FactoryLaws] for kubectl's resource
    queries, [Handlers.Target]/[TargetLaws], [DevRun.Engine]/[Answers] for a container
    engine, [RemoteInstall.RemoteHost]/[RemoteLaws] for the programs of an SSH server,
    [Rollout.VersionOrder] for versions); each has an executable instance, at which
    the theorems' examples are evaluated.  What a handler gets from
    the outside (the answers of a cluster, the results of steps that only do I/O) is a
    record of inputs.  The cilium address allocator, go-control-plane's consistency
    check, client-go's [retry.OnError], the parser of resolver files and the helpers of
    Kubernetes' machinery the code calls are vendored with the program and modelled from
    their sources.

    ** Files

    - [Prelude]: errors, outcomes, bytes and big-endian integers, machine integers,
      the in-place removal loop the source uses in many places ([remove_loop], proved
      to be a filter).
    - [GoStrings], [GoNet], [Base64]: the parts of [strings], [strconv], [net] and
      [encoding/base64] the program uses, executable, with their round-trip lemmas.
    - [IPText]: IPv6 addresses and networks survive printing and parsing.
    - [Config]: constants of [pkg/config/config.go].
    - [Framing]: datagrams over TCP, [pkg/core/udpovertcp.go] and the copy loops of
      [gvisorudphandler.go] and [tcphandler.go].
    - [ProxyInfo]: the header the gvisor forwarders write and the handlers read.
    - [NatTable]: the route table of [pkg/core/tunhandler.go], sequentially and under
      interleaving of its goroutines.
    - [Tunnel]: the packet goroutines of the server ([parseHeader], [routePeer],
      [routeTUN]), the TCP handler, and the split of a client's packets between the
      tunnel and the gvisor stack ([tunendpoint.go]).
    - [Heartbeat]: the packets a client sends to be learnt, [pkg/util/net.go] and
      [heartbeats] of [pkg/handler/connect.go], checksums included.
    - [Allocator]: bitmap and range of the cilium allocator.
    - [KubeApi]: ConfigMaps and an in-memory server.
    - [Dhcp]: [pkg/handler/dhcp.go], and concurrent renting as interleaved API calls.
    - [Cleaner]: the reference count and the clean-up, [pkg/handler/cleaner.go].
    - [ControlPlane], [Watcher]: [pkg/controlplane/cache.go] and [processor.go]; the watch
      of the rules, [watcher.go] and [main.go].
    - [Envoy]: the stored proxy rules, [pkg/handler/envoy.go] and [reset.go].
    - [Sidecar]: injection and removal of side-cars, [pkg/mesh], [pkg/exchange],
      [pkg/handler/envoy.go] and [remote.go].
    - [Daemon]: the two daemons, [pkg/daemon/action].
    - [Hosts]: the hosts file, [pkg/dns/dns.go].
    - [GoPath], [Url]: the parts of [path/filepath] and [net/url] the program uses.
    - [Resolv], [ForwardDNS]: resolver files and the DNS forwarder, [pkg/dns]; a query's
      goroutines are an event machine.
    - [PortForward]: [pkg/util/portforward.go] and [portForward] of
      [pkg/handler/connect.go].
    - [Clone]: what a clone of a workload is made of, [pkg/handler/clone.go].
    - [Copy]: copying files to and from pods, [pkg/cp].
    - [Cidr]: discovery of the cluster's networks, [pkg/util/getcidr.go], [cidr.go] and
      [getCIDR] of [pkg/handler/connect.go].
    - [Node]: nodes, chains and listeners of [pkg/core], and the tunnel a client starts.
    - [Outbound]: reuse or creation of the traffic manager, [createOutboundPod] of
      [pkg/handler/remote.go].
    - [Connect]: [RentInnerIP], [InitDHCP] and [DoConnect] of [pkg/handler/connect.go],
      and the clean-up of a caller whose connection failed.
    - [Webhook]: the admission webhook, [pkg/webhook], and renting in a pod,
      [pkg/handler/serve.go].
    - [Workloads]: the workloads a request names and their controllers,
      [PreCheckResource] and [pkg/util/unstructure.go].
    - [Handlers]: the daemon's handlers over the other components ([Proxy], [Leave],
      [List], [Clone], [Remove]).
    - [Routes]: routes of a connection, added while it lasts and for extra domains,
      [addRouteDynamic] and [addExtraRoute] of [pkg/handler/connect.go].
    - [ServiceHosts], [SetupDns]: the names of services in the hosts file and the DNS
      configuration of a connection, [pkg/dns/dns.go] and [pkg/util/dns.go].
    - [Docker]: the options of a container, [pkg/dev/dockeropts.go].
    - [Dev], [DevRun], [DevMain]: development mode, [pkg/dev]: the containers of a pod as
      local ones, starting and removing them, the command.
    - [Ssh]: jump hosts and the kubeconfig of a jump, [pkg/util/ssh.go].
    - [Rollout]: the update of the traffic manager's image, waiting for roll-outs and
      pods, [pkg/handler/connect.go], [pkg/util/util.go], [pod.go].
    - [ClientDevice], [ServerDevice]: the goroutines and channels of the device of a
      client and of the server, [pkg/core/tunhandlerclient.go], [tunhandler.go] and
      [pkg/tun/tun.go], with reconnections and failures.
    - [Endpoint]: the endpoint of a client between the tun device, the user-space stack
      and the transport, [pkg/core/tunendpoint.go], over [ClientDevice].
    - [Relay], [Gvisor]: two goroutines that copy between two sockets, and the flows
      through the gvisor stack that use them on both sides,
      [pkg/core/gvisortcpforwarder.go], [gvisortcphandler.go], [gvisorudpforwarder.go],
      [gvisorudphandler.go].
    - [Wiring]: the three local ports of a connection, over [PortForward], [Node],
      [Gvisor] and [Outbound].
    - [Streams]: the other relays: connections of a port forwarder, SSH tunnels, terminals
      attached to containers ([pkg/util/portforward.go], [ssh.go], [pkg/dev/hijack.go]).
    - [DaemonProc]: the processes of the daemons, their sockets and pid files,
      [pkg/daemon/client.go], [daemon.go].
    - [Upgrade]: the upgrade command, [pkg/upgrade], [pkg/util/upgarde.go].
    - [SshServer]: tunnels over SSH and resource queries, [pkg/daemon/handler/ssh.go],
      [pkg/daemon/action/sshdaemon.go], [get.go].
    - [RemoteInstall]: the installation of kubevpn on an SSH server, the SCP protocol byte
      by byte, the mapped port and the terminal, [pkg/daemon/handler/ssh.go],
      [pkg/util/scp.go].
    - [ImageTransfer]: copying an image to a registry or a server, [pkg/util/image.go].
    - [DevWait]: waiters, log readers and parallel operations of development mode,
      [pkg/dev/utils.go], [main.go].
    - [Utils]: accept loops, permissions, the pod that reads the network configuration,
      commands in a pod, kubeconfig files ([connect.go], [util.go], [getcidr.go], [pod.go]).
    - [Host]: elevated commands, firewall, driver files, downloads, ports ([pkg/util],
      [pkg/driver]).
    - [Platforms]: tun devices of macOS and Windows against that of Linux, DNS of Windows,
      the daemon's log ([pkg/tun], [pkg/dns/dns_windows.go], [pkg/daemon/action/logs.go]).
    - [Commands]: commands of the user, [cmd/kubevpn/cmds].

    ** Theorems

    - Packets: which streams the TCP handler survives and which frames crash it, that
      replies find the connection or the UDP address their peer was learnt from, what
      remains after a connection ends, what is learnt and when learning stops ([Tunnel]);
      one turn of heartbeats teaches the server both addresses of a client ([Heartbeat]);
      the tunnel a client starts has the rented addresses and the meant routes, dialling
      succeeds if an attempt does ([Node]); lossless transport of datagrams and its limit
      ([Framing]); the proxy header ([ProxyInfo]); table invariants and the lost update of
      concurrent learners ([NatTable]).  Over all interleavings of goroutines, failures
      and reconnections no packet is duplicated, a client loses at most one packet per
      connection and keeps their order, and the server sends each packet on, drops it or
      holds it in a bounded channel; without failures its goroutines neither block nor run
      for ever ([ClientDevice], [ServerDevice]); the packets of the tun device are split
      between the stack and the transport exactly by the engine, and what is written back
      is what was enqueued ([Endpoint]).
    - Flows: a TCP connection through the user-space stack reaches the address the
      application asked for, delivers prefixes in both directions, stops by itself and has
      then delivered everything; a UDP flow keeps its datagrams whole and in order
      ([Gvisor], over the invariants and the progress of [Relay] and an interface for what
      carries the pieces, [Gvisor.Wire]/[WireLaws]); the tunnel and the stack dial ports
      that lead to the servers of the manager that speak their protocol ([Wiring]);
      forwarded connections, tunnels and
      terminals end and what they lose then ([Streams]).
    - Addresses: no two clients ever hold the same address, however their API calls
      interleave; renting, releasing, termination, the shape of the pools ([Dhcp]); the
      root daemon connects with the addresses the user daemon rented ([Connect]); the
      lease of a pod lives as long as the pod ([Webhook]).
    - Reference count: its arithmetic, that a conflict is never retried, when the
      traffic manager is deleted ([Cleaner]), and that two daemons count one
      disconnect twice ([Daemon]).
    - Connecting: the traffic manager is created whole, or what is left of it is known
      (the secret, the label, what could not be deleted), what the webhook trusts after a
      second creation ([Outbound]); a connection that fails before it was counted is
      uncounted all the same ([Connect]); while it lasts only addresses of the cluster are
      routed ([Routes]), clients leave the newest of the images they can compare behind,
      and a roll-out is waited for exactly ([Rollout]); jump hosts are dialled when their
      chain is finite ([Ssh]).
    - Proxying: rules are added and removed exactly ([Envoy]), the generated routes
      implement first-match header routing ([ControlPlane]), and the proxies are served
      them once the tick after the last change of the rules is processed, whatever
      happened before ([Watcher], a refinement); leaving restores the pod template after
      proxying with headers and cannot after proxying without ([Sidecar]).  A request's
      workloads resolve to objects without a controller, and following controllers ends
      exactly when the chain is finite ([Workloads]); a proxy request leaves both daemons
      connected for it ([Handlers]).
    - Cloning: a clone for another cluster is well formed, keeps the environment of its
      source, and which objects of the source it still refers to is known ([Clone]);
      removing deletes every clone and only clones ([Handlers]).
    - Names: resolver files are set up and restored, every query is answered once its
      goroutines are done, with what a cluster server said ([Resolv], [ForwardDNS]); the
      hosts file follows the services ([ServiceHosts]), and the first server of the host
      stays in use ([SetupDns]).
    - Development: the local containers rebuild the pod, and each is created only when
      those after it, the owner of the network among them, are running ([Dev], [DevRun]);
      options that parse are consistent ([Docker]); when the command disconnects and which
      error it reports ([DevMain]); exit codes and parallel operations ([DevWait]).
    - Processes: starting the daemons leaves both serving, with the exceptions stated
      there, and kills only what pid files name ([DaemonProc]); after an upgrade both are
      up to date ([Upgrade]); the tunnel of an SSH client ([SshServer]); an installation
      without an error has put exactly the binary of the release in its place
      ([RemoteInstall]), a transferred image is the one pulled ([ImageTransfer]); what
      commands send and report ([Commands]).
    - Helpers: servers handle what they accept, a positive answer about permissions is
      right, kubeconfig files hold what was flattened and disturb no other file ([Utils]);
      the driver file is replaced or removed, ports and outputs are waited for exactly
      ([Host]); the platforms give a device the same addresses and routes ([Platforms]).
    - Files and ports: no archive writes outside the destination, however far its
      extraction gets and unless links of the machine lead out of it; a broken transfer
      resumes exactly ([Copy]); the grammar of ports, and the sockets of a forwarder
      ([PortForward]).
    - Machine state: the lists of the two daemons agree while requests reach both,
      identifiers mean what the status shows ([Daemon]); the hosts file survives
      ([Hosts]); the API server stays outside the tunnel, the cached networks route the
      same addresses ([Cidr]).

    ** Fuel

    Loops that are not structural take fuel at a bound proved or evidently enough: the
    removal loops the length of the list (each step shortens what is left), the
    allocation loop of [Dhcp] one more than the free addresses ([alloc_fuel_enough]),
    stream readers the length of the stream, [retry.OnError] its number of steps,
    IPv6 parsing its eight groups, a checksum its two carries, the creation of a clone
    five attempts.  Where the loop of the source has no bound, the function takes any
    fuel and [None] is running out of it: following controllers
    ([Workloads.GetTopOwnerReference_returns] says when it ends), jump hosts
    ([Ssh.jumpRecursion_chain]), following links while copying ([Copy]) and waiting for a
    container ([DevRun]).  Goroutines are step relations or events without fuel; where they
    must end, a measure bounds every schedule ([ServerDevice.server_drains],
    [ForwardDNS.serve_dns_replies], [Gvisor.flow_work]).

    ** Not modelled

    The gvisor network stack itself (a library; [gvisorstack.go] sets its options), the SSH
    protocol, docker, gRPC and the Kubernetes client are third-party code and appear as
    parameters.  Generated gRPC code, the tables of flags and the help and completion of the
    commands, the tool that renders the index of kubectl plugins ([pkg/util/krew]), the
    installer of the TAP driver and the embedded driver files have no logic of their own.
    [tun_bsd.go] does not compile and has no behaviour to model; the [networksetup] variant
    of [dns_unix.go] is called by nothing.  Of [DoConnect] the steps after the traffic
    manager are inputs in [Connect]; [PortForward], [Node], [Routes] and [SetupDns] model
    them by themselves and [Wiring] composes the ports with the tunnel; that the routes and
    the DNS of one connection fit together is not stated. *)
From Stdlib Require Import ZArith Lia.
From Stdlib Require Import Strings.Byte.
From stdpp Require Import base gmap strings list numbers pretty.

#[global] Set Default Goal Selector "!".

(** ** Errors and outcomes of Go code *)

(** The error values the code distinguishes.  [Errorf] is an error made by
    [fmt.Errorf]/[errors.New] without a cause; [ErrorfV] is one made with the
    [%v] verb around a cause, which [errors.Is]/[errors.As] cannot see through. *)
Inductive error : Type :=
  | EOF
  | UnexpectedEOF
  | NotFound
  | Conflict
  | AlreadyExists
  | Forbidden
  | Errorf (msg : string)
  | ErrorfV (msg : string) (cause : error).

#[export] Instance error_eq_dec : EqDecision error.
Proof. solve_decision. Defined.

(** The outcome of a Go call: it returns, it returns a non-nil error, or the
    goroutine panics (index out of range, write to a nil map, ...). *)
Inductive outcome (A : Type) : Type :=
  | Ret (a : A)
  | Fail (e : error)
  | Panic.
Arguments Ret {A} a.
Arguments Fail {A} e.
Arguments Panic {A}.

#[export] Instance outcome_eq_dec `{EqDecision A} : EqDecision (outcome A).
Proof. solve_decision. Defined.

#[export] Instance outcome_ret : MRet outcome := λ A a, Ret a.
#[export] Instance outcome_bind : MBind outcome := λ A B f o,
  match o with Ret a => f a | Fail e => Fail e | Panic => Panic end.
#[export] Instance outcome_fmap : FMap outcome := λ A B f o,
  match o with Ret a => Ret (f a) | Fail e => Fail e | Panic => Panic end.

Lemma outcome_bind_Ret {A B} (o : outcome A) (f : A → outcome B) b :
  (o ≫= f) = Ret b → ∃ a, o = Ret a ∧ f a = Ret b.
Proof. destruct o; cbn; naive_solver. Qed.

Lemma outcome_bind_not_Fail {A B} (o : outcome A) (f : A → outcome B) e :
  o ≠ Fail e → (∀ a, f a ≠ Fail e) → (o ≫= f) ≠ Fail e.
Proof. destruct o; cbn; naive_solver. Qed.

Definition returns {A} (o : outcome A) : bool :=
  match o with Ret _ => true | _ => false end.

(** ** Bytes *)

Definition b2z (b : byte) : Z := Z.of_N (Byte.to_N b).
Definition z2b (z : Z) : byte :=
  match Byte.of_N (Z.to_N (z `mod` 256)) with Some b => b | None => x00 end.

Lemma b2z_range b : (0 ≤ b2z b < 256)%Z.
Proof. unfold b2z. pose proof (Byte.to_N_bounded b). lia. Qed.

Lemma b2z_z2b z : b2z (z2b z) = (z `mod` 256)%Z.
Proof.
  unfold z2b, b2z. pose proof (Z.mod_pos_bound z 256 ltac:(lia)).
  destruct (Byte.of_N _) as [b|] eqn:E.
  - apply Byte.to_of_N in E. rewrite E. lia.
  - apply Byte.of_N_None_iff in E. lia.
Qed.

Lemma b2z_inj b c : b2z b = b2z c → b = c.
Proof.
  unfold b2z. intros H%N2Z.inj.
  pose proof (Byte.of_to_N b). pose proof (Byte.of_to_N c). congruence.
Qed.

Lemma z2b_b2z b : z2b (b2z b) = b.
Proof.
  apply b2z_inj. rewrite b2z_z2b. apply Z.mod_small, b2z_range.
Qed.

#[export] Instance byte_eq_dec : EqDecision byte := Byte.byte_eq_dec.

(** ** Big-endian integers *)

(** [be_val bs] is the value of the big-endian byte string [bs]
    ([big.Int.SetBytes], [binary.BigEndian.Uint16]). *)
Definition be_val (bs : list byte) : Z :=
  fold_left (λ acc b, acc * 256 + b2z b)%Z bs 0%Z.

(** [be_fixed n z]: the [n] low bytes of [z], most significant first. *)
Fixpoint be_fixed (n : nat) (z : Z) : list byte :=
  match n with
  | O => []
  | S n => be_fixed n (z `div` 256) ++ [z2b z]
  end.

Lemma length_be_fixed n z : length (be_fixed n z) = n.
Proof. revert z; induction n; intros; cbn; [done|]. rewrite length_app, IHn; cbn; lia. Qed.

Lemma be_val_snoc bs b : be_val (bs ++ [b]) = (be_val bs * 256 + b2z b)%Z.
Proof. unfold be_val. by rewrite fold_left_app. Qed.

Lemma be_val_nonneg bs : (0 ≤ be_val bs)%Z.
Proof.
  induction bs using rev_ind; [done|]. rewrite be_val_snoc.
  pose proof (b2z_range x). lia.
Qed.

Lemma be_val_bound bs : (be_val bs < 256 ^ Z.of_nat (length bs))%Z.
Proof.
  induction bs as [|b bs IH] using rev_ind; [done|].
  rewrite be_val_snoc, length_app; cbn [length].
  pose proof (b2z_range b).
  rewrite Nat2Z.inj_add, Z.pow_add_r by lia. lia.
Qed.

Lemma be_val_fixed n z : be_val (be_fixed n z) = (z `mod` 256 ^ Z.of_nat n)%Z.
Proof.
  revert z; induction n as [|n IH]; intros z; [by rewrite Z.mod_1_r|].
  cbn [be_fixed]. rewrite be_val_snoc, IH, b2z_z2b, Nat2Z.inj_succ, Z.pow_succ_r by lia.
  rewrite Z.rem_mul_r by lia. lia.
Qed.

Lemma be_fixed_val bs : be_fixed (length bs) (be_val bs) = bs.
Proof.
  induction bs as [|b bs IH] using rev_ind; [done|].
  rewrite length_app; cbn [length]. rewrite Nat.add_1_r. cbn [be_fixed].
  rewrite be_val_snoc. pose proof (b2z_range b).
  replace ((be_val bs * 256 + b2z b) `div` 256)%Z with (be_val bs)
    by (rewrite Z.div_add_l, (Z.div_small (b2z b)); lia).
  rewrite IH. f_equal. f_equal. apply b2z_inj.
  rewrite b2z_z2b, Z.add_comm, Z.mod_add, Z.mod_small; lia.
Qed.

Lemma be_val_inj bs bs' :
  length bs = length bs' → be_val bs = be_val bs' → bs = bs'.
Proof. intros Hl Hv. by rewrite <-(be_fixed_val bs), <-(be_fixed_val bs'), Hl, Hv. Qed.

(** ** Machine integers *)

(** The value of an integer expression at type [int] or [int64]. *)
Definition wrap64 (z : Z) : Z := (z + 2 ^ 63) `mod` 2 ^ 64 - 2 ^ 63.

Lemma wrap64_small z : (- 2 ^ 63 ≤ z < 2 ^ 63)%Z → wrap64 z = z.
Proof. intros. unfold wrap64. rewrite Z.mod_small by lia. lia. Qed.

Lemma wrap64_range z : (- 2 ^ 63 ≤ wrap64 z < 2 ^ 63)%Z.
Proof. unfold wrap64. pose proof (Z.mod_pos_bound (z + 2 ^ 63) (2 ^ 64)). lia. Qed.

(** ** The in-place removal loop

    The source removes elements from a slice with one idiom:
    [for i := 0; i < len(v); i++ { if p(v[i]) { v = append(v[:i], v[i+1:]...); i-- } }].
    [remove_loop] is that loop, from index [i], with fuel; the loop's measure is
    [len(v) - i], so [length v] iterations are enough. *)
Section remove_loop.
Context {A : Type} (p : A → bool).

Definition remove_at (i : nat) (v : list A) : list A := take i v ++ drop (S i) v.

Lemma remove_at_app pre x post : remove_at (length pre) (pre ++ x :: post) = pre ++ post.
Proof.
  unfold remove_at. rewrite take_app_length, drop_app_ge by lia.
  by rewrite Nat.sub_succ_l, Nat.sub_diag by lia.
Qed.

Fixpoint remove_from (fuel : nat) (v : list A) (i : nat) : list A :=
  match fuel with
  | O => v
  | S fuel =>
      match v !! i with
      | None => v
      | Some x => if p x then remove_from fuel (remove_at i v) i
                  else remove_from fuel v (S i)
      end
  end.

Definition remove_loop (v : list A) : list A := remove_from (length v) v 0.

Lemma remove_from_spec fuel pre v :
  length v ≤ fuel →
  remove_from fuel (pre ++ v) (length pre) = pre ++ List.filter (λ x, negb (p x)) v.
Proof.
  revert pre v. induction fuel as [|fuel IH]; intros pre v Hf.
  { destruct v; [done|cbn in Hf; lia]. }
  cbn. destruct v as [|x v]; cbn in *.
  { by rewrite app_nil_r, lookup_ge_None_2. }
  rewrite lookup_app_r, Nat.sub_diag by lia; cbn.
  destruct (p x); cbn.
  - rewrite remove_at_app. apply IH; lia.
  - specialize (IH (pre ++ [x]) v). rewrite length_app in IH; cbn in IH.
    rewrite Nat.add_1_r, <-!app_assoc in IH. apply IH; lia.
Qed.

(** The loop is a filter. *)
Lemma remove_loop_filter v : remove_loop v = List.filter (λ x, negb (p x)) v.
Proof. apply (remove_from_spec (length v) [] v). lia. Qed.

Lemma remove_loop_In x v : In x (remove_loop v) ↔ In x v ∧ p x = false.
Proof. rewrite remove_loop_filter, filter_In, negb_true_iff. done. Qed.

Lemma remove_loop_id v : (∀ x, In x v → p x = false) → remove_loop v = v.
Proof.
  rewrite remove_loop_filter. induction v as [|x v IH]; intros H; [done|]; cbn.
  rewrite (H x) by (by left); cbn. f_equal. apply IH. intros; apply H. by right.
Qed.

Lemma remove_loop_app v w : remove_loop (v ++ w) = remove_loop v ++ remove_loop w.
Proof. rewrite !remove_loop_filter. apply List.filter_app. Qed.

Lemma remove_loop_idem v : remove_loop (remove_loop v) = remove_loop v.
Proof. apply remove_loop_id. intros x [_ ?]%remove_loop_In. done. Qed.
End remove_loop.

Create HintDb kubevpn.
Create Rewrite HintDb kubevpn.
#[export] Hint Rewrite @remove_loop_filter @length_be_fixed b2z_z2b z2b_b2z : kubevpn.
#[export] Hint Resolve b2z_range be_val_nonneg be_val_bound : kubevpn.
