(* ===== verification/GoStrings.v ===== *)
(** * The parts of Go's [strings] and [strconv] the program uses

    Go strings are byte strings; they are modelled by [string] (a list of
    8-bit characters).  Separators are single characters in every call of the
    source, so [Split] takes a character.  [TrimSpace] trims the ASCII white
    space; the multi-byte Unicode spaces do not occur in the texts the program
    handles.  [Itoa] is stdpp's decimal printer; [Atoi] and [ParseUint] are the
    parsers with Go's range checks. *)
From Stdlib Require Import ZArith Lia Ascii.
From stdpp Require Import base strings list numbers pretty.
From S2P Require Import Prelude.


(** ** Searching *)

Definition HasPrefix (s p : string) : bool := String.prefix p s.

Fixpoint Contains (s sub : string) : bool :=
  String.prefix sub s ||
  match s with EmptyString => false | String _ s => Contains s sub end.

Fixpoint Count (c : ascii) (s : string) : nat :=
  match s with
  | EmptyString => 0
  | String a s => (if Ascii.eqb a c then 1 else 0) + Count c s
  end.

(** Index of the last occurrence of [c] ([strings.LastIndex] with a
    one-character needle; [None] is the source's [-1]). *)
Fixpoint LastIndex (s : string) (c : ascii) : option nat :=
  match s with
  | EmptyString => None
  | String a s =>
      match LastIndex s c with
      | Some i => Some (S i)
      | None => if Ascii.eqb a c then Some 0 else None
      end
  end.

(** [s[:n]] and [s[n:]]; the callers keep [n] within the length. *)
Fixpoint str_take (n : nat) (s : string) : string :=
  match n, s with
  | S n, String a s => String a (str_take n s)
  | _, _ => EmptyString
  end.
Fixpoint str_drop (n : nat) (s : string) : string :=
  match n, s with
  | S n, String _ s => str_drop n s
  | _, _ => s
  end.

(** ** Trimming *)

Fixpoint TrimLeftFunc (p : ascii → bool) (s : string) : string :=
  match s with
  | EmptyString => EmptyString
  | String a s' => if p a then TrimLeftFunc p s' else s
  end.
Fixpoint TrimRightFunc (p : ascii → bool) (s : string) : string :=
  match s with
  | EmptyString => EmptyString
  | String a s =>
      match TrimRightFunc p s with
      | EmptyString => if p a then EmptyString else String a EmptyString
      | s' => String a s'
      end
  end.

Definition is_space (a : ascii) : bool :=
  let n := Ascii.nat_of_ascii a in
  ((9 <=? n) && (n <=? 13)) || (n =? 32).
Definition TrimSpace (s : string) : string :=
  TrimRightFunc is_space (TrimLeftFunc is_space s).

Definition TrimPrefix (s p : string) : string :=
  if HasPrefix s p then str_drop (String.length p) s else s.

Definition HasSuffix (s suf : string) : bool :=
  (String.length suf <=? String.length s) &&
  String.eqb (str_drop (String.length s - String.length suf) s) suf.
Definition TrimSuffix (s suf : string) : string :=
  if HasSuffix s suf then str_take (String.length s - String.length suf) s else s.

(** ** Splitting and joining *)

Fixpoint Split (c : ascii) (s : string) : list string :=
  match s with
  | EmptyString => [EmptyString]
  | String a s =>
      if Ascii.eqb a c then EmptyString :: Split c s
      else match Split c s with
           | w :: ws => String a w :: ws
           | [] => [String a EmptyString]
           end
  end.

Fixpoint Join (sep : string) (l : list string) : string :=
  match l with
  | [] => EmptyString
  | [w] => w
  | w :: l => w +:+ sep +:+ Join sep l
  end.

Lemma Split_nonempty c s : Split c s ≠ [].
Proof. destruct s; cbn; [done|]. by repeat case_match. Qed.

Lemma Join_cons sep w l : l ≠ [] → Join sep (w :: l) = w +:+ sep +:+ Join sep l.
Proof. by destruct l. Qed.

Lemma str_app_cons a s t : String a s +:+ t = String a (s +:+ t).
Proof. done. Qed.

(** Splitting and joining on the same separator is the identity. *)
Lemma Join_Split c s : Join (String c EmptyString) (Split c s) = s.
Proof.
  induction s as [|a s IH]; [done|]. cbn [Split].
  pose proof (Split_nonempty c s) as Hne.
  destruct (Ascii.eqb_spec a c) as [->|Hac].
  - rewrite Join_cons, IH by done. done.
  - destruct (Split c s) as [|w ws] eqn:E; [done|].
    destruct ws as [|w' ws].
    + cbn in IH |- *. congruence.
    + rewrite Join_cons in IH |- * by done. rewrite str_app_cons. congruence.
Qed.

Lemma str_app_nil_r s : s +:+ EmptyString = s.
Proof. induction s as [|a s IH]; [done|]. rewrite str_app_cons. by rewrite IH. Qed.

Lemma str_app_assoc s t u : (s +:+ t) +:+ u = s +:+ (t +:+ u).
Proof. induction s as [|a s IH]; [done|]. rewrite !str_app_cons. by rewrite IH. Qed.

Lemma Count_app c s t : Count c (s +:+ t) = Count c s + Count c t.
Proof. induction s as [|a s IH]; [done|]. rewrite str_app_cons; cbn. rewrite IH. lia. Qed.

(** Words without the separator are recovered by splitting what joins them. *)
Lemma Split_word c w : Count c w = 0 → Split c w = [w].
Proof.
  induction w as [|a w IH]; cbn; [done|].
  destruct (Ascii.eqb a c); [lia|]. intros H. by rewrite IH.
Qed.

Lemma Split_app c w s :
  Count c w = 0 → Split c (w +:+ String c s) = w :: Split c s.
Proof.
  induction w as [|a w IH]; intros H.
  - change (Split c (String c s) = EmptyString :: Split c s). cbn [Split].
    by rewrite Ascii.eqb_refl.
  - rewrite str_app_cons. cbn in H |- *. destruct (Ascii.eqb a c); [lia|].
    by rewrite IH.
Qed.

Lemma Split_Join c l :
  l ≠ [] → Forall (λ w, Count c w = 0) l → Split c (Join (String c EmptyString) l) = l.
Proof.
  induction l as [|w l IH]; [done|]. intros _ [Hw Hl]%Forall_cons.
  destruct l as [|w' l]; [by apply Split_word|].
  rewrite Join_cons by done.
  change (String c EmptyString +:+ Join (String c EmptyString) (w' :: l))
    with (String c (Join (String c EmptyString) (w' :: l))).
  rewrite Split_app by done. by rewrite IH.
Qed.

Lemma Split_sep c s t : Split c (s +:+ String c t) = Split c s ++ Split c t.
Proof.
  induction s as [|a s IH].
  - change (EmptyString +:+ String c t) with (String c t). cbn. by rewrite Ascii.eqb_refl.
  - rewrite str_app_cons. cbn [Split]. destruct (Ascii.eqb a c); [by rewrite IH|].
    rewrite IH. pose proof (Split_nonempty c s). by destruct (Split c s).
Qed.

(** Characters: what a substring contains the string contains, and trimming to
    nothing means there was nothing but space. *)
Lemma Contains_Count s a k : Contains s (String a k) = true → 0 < Count a s.
Proof.
  induction s as [|b s IH]; [done|]. intros [H|H]%orb_true_iff.
  - cbn in H. destruct (ascii_dec a b) as [->|]; [|done]. cbn. rewrite Ascii.eqb_refl. lia.
  - cbn. specialize (IH H). lia.
Qed.

Lemma TrimLeft_Count p s a : p a = false → Count a (TrimLeftFunc p s) = Count a s.
Proof.
  intros Ha. induction s as [|b s IH]; [done|]. cbn. destruct (p b) eqn:E; [|done].
  destruct (Ascii.eqb_spec b a) as [->|]; [congruence|]. by rewrite IH.
Qed.

Lemma TrimRight_Count p s a : p a = false → Count a (TrimRightFunc p s) = Count a s.
Proof.
  intros Ha. induction s as [|b s IH]; [done|]. cbn. rewrite <-IH.
  destruct (TrimRightFunc p s); [|done]. destruct (p b) eqn:E; [|done]. cbn.
  destruct (Ascii.eqb_spec b a) as [->|]; [congruence|done].
Qed.

Lemma TrimSpace_Count s a : is_space a = false → Count a (TrimSpace s) = Count a s.
Proof. intros. unfold TrimSpace. by rewrite TrimRight_Count, TrimLeft_Count. Qed.

Lemma TrimRight_snoc p s a :
  TrimRightFunc p (s +:+ String a EmptyString) =
    if p a then TrimRightFunc p s else s +:+ String a EmptyString.
Proof.
  induction s as [|b s IH].
  - change (EmptyString +:+ String a EmptyString) with (String a EmptyString). cbn.
    by destruct (p a).
  - rewrite str_app_cons. cbn [TrimRightFunc]. rewrite IH. destruct (p a); [done|].
    by destruct s.
Qed.

(** A suffix that has something to keep is all that trimming looks at. *)
Lemma TrimRight_app p s t :
  TrimRightFunc p t ≠ EmptyString → TrimRightFunc p (s +:+ t) = s +:+ TrimRightFunc p t.
Proof.
  intros Ht. induction s as [|b s IH]; [done|]. rewrite !str_app_cons. cbn [TrimRightFunc].
  rewrite IH. destruct s; [|done]. change (EmptyString +:+ TrimRightFunc p t) with (TrimRightFunc p t).
  by destruct (TrimRightFunc p t).
Qed.

(** A string without a character to trim is not changed. *)
Lemma TrimRight_id c s : Count c s = 0 → TrimRightFunc (Ascii.eqb c) s = s.
Proof.
  induction s as [|b s IH]; [done|]. cbn. rewrite (Ascii.eqb_sym b c).
  destruct (Ascii.eqb c b); [lia|]. intros H. rewrite IH by done. by destruct s.
Qed.

Lemma LastIndex_none s c : Count c s = 0 → LastIndex s c = None.
Proof.
  induction s as [|a s IH]; [done|]. cbn. destruct (Ascii.eqb a c); [lia|]. intros H. by rewrite IH.
Qed.

Lemma LastIndex_app s c t : Count c t = 0 → LastIndex (s +:+ String c t) c = Some (String.length s).
Proof.
  intros H. induction s as [|a s IH].
  - change (EmptyString +:+ String c t)%string with (String c t). cbn. by rewrite LastIndex_none, Ascii.eqb_refl.
  - rewrite str_app_cons. cbn [LastIndex String.length]. by rewrite IH.
Qed.

Lemma length_str_app s t : String.length (s +:+ t) = String.length s + String.length t.
Proof. induction s as [|a s IH]; [done|]. rewrite str_app_cons. cbn [String.length]. by rewrite IH. Qed.

Lemma HasPrefix_app p s : HasPrefix (p +:+ s) p = true.
Proof.
  unfold HasPrefix. induction p as [|a p IH]; [by destruct s|]. rewrite str_app_cons. cbn.
  destruct (Ascii.ascii_dec a a); [exact IH|done].
Qed.

Lemma str_drop_app p s : str_drop (String.length p) (p +:+ s) = s.
Proof. induction p as [|a p IH]; [by destruct s|]. exact IH. Qed.

Lemma str_take_app p s : str_take (String.length p) (p +:+ s) = p.
Proof. induction p as [|a p IH]; [by destruct s|]. rewrite str_app_cons. cbn [String.length str_take]. by rewrite IH. Qed.

(** ** Decimal numbers *)

Definition Itoa (z : Z) : string := pretty z.

Definition digit (a : ascii) : option Z :=
  let n := Z.of_nat (Ascii.nat_of_ascii a) in
  if (48 <=? n)%Z && (n <=? 57)%Z then Some (n - 48)%Z else None.

Fixpoint digits (acc : Z) (s : string) : option Z :=
  match s with
  | EmptyString => Some acc
  | String a s => d ← digit a; digits (acc * 10 + d)%Z s
  end.

(** An unsigned decimal: at least one digit, nothing else. *)
Definition undecimal (s : string) : option Z :=
  match s with EmptyString => None | _ => digits 0 s end.

(** [strconv.ParseUint(s, 10, bits)]: [None] is the syntax or range error. *)
Definition ParseUint (bits : Z) (s : string) : option Z :=
  n ← undecimal s; if (n <? 2 ^ bits)%Z then Some n else None.

(** A decimal with an optional sign. *)
Definition signed_decimal (s : string) : option Z :=
  match s with
  | String "-"%char s => n ← undecimal s; Some (- n)%Z
  | String "+"%char s => undecimal s
  | _ => undecimal s
  end.

Definition int_range (z : Z) : bool := (- 2 ^ 63 <=? z)%Z && (z <? 2 ^ 63)%Z.

(** [strconv.Atoi]: a signed decimal in the range of [int]; [None] is the error. *)
Definition Atoi (s : string) : option Z :=
  z ← signed_decimal s; if int_range z then Some z else None.

(** The value [strconv.Atoi] returns next to its error: 0 on a syntax error, the
    nearest [int] on a range error. *)
Definition Atoi_value (s : string) : Z :=
  match signed_decimal s with
  | None => 0
  | Some z => Z.max (- 2 ^ 63) (Z.min (2 ^ 63 - 1) z)
  end.

Lemma Atoi_value_Atoi s z : Atoi s = Some z → Atoi_value s = z.
Proof.
  unfold Atoi, Atoi_value, int_range. destruct (signed_decimal s) as [y|]; cbn -[Z.pow]; [|done].
  destruct (_ && _) eqn:E; [|done]. intros [= ->].
  apply andb_true_iff in E as [H1%Z.leb_le H2%Z.ltb_lt]. lia.
Qed.

Lemma Atoi_value_range s : (- 2 ^ 63 ≤ Atoi_value s < 2 ^ 63)%Z.
Proof. unfold Atoi_value. destruct (signed_decimal s); lia. Qed.

Lemma digits_app acc s t :
  digits acc (s +:+ t) = (n ← digits acc s; digits n t).
Proof.
  revert acc; induction s as [|a s IH]; intros acc; [done|].
  rewrite str_app_cons; cbn [digits]. destruct (digit a); cbn; [apply IH|done].
Qed.

Lemma digit_pretty_char n : (n < 10)%N → digit (pretty_N_char n) = Some (Z.of_N n).
Proof.
  intros H. assert (n = 0 ∨ n = 1 ∨ n = 2 ∨ n = 3 ∨ n = 4 ∨ n = 5 ∨ n = 6 ∨ n = 7 ∨
    n = 8 ∨ n = 9)%N as Hn by lia.
  destruct_or!; subst; reflexivity.
Qed.

Lemma digits_pretty_N_go x s : digits 0 (pretty_N_go x s) = digits (Z.of_N x) s.
Proof.
  revert s. induction (N.lt_wf_0 x) as [x _ IH]; intros s.
  destruct (decide (x = 0%N)) as [->|Hx]; [by rewrite pretty_N_go_0|].
  rewrite pretty_N_go_step, IH by (try apply N.div_lt; lia). cbn [digits].
  rewrite digit_pretty_char by (apply N.mod_upper_bound; lia). cbn.
  f_equal. pose proof (N.div_mod x 10). lia.
Qed.

Lemma digits_pretty_N (n : N) : digits 0 (pretty n) = Some (Z.of_N n).
Proof.
  unfold pretty, pretty_N. case_decide as H; [by subst|].
  by rewrite digits_pretty_N_go.
Qed.

Lemma pretty_N_nonempty (n : N) : pretty n ≠ EmptyString.
Proof.
  unfold pretty, pretty_N. case_decide as H; [done|]. intros E.
  pose proof (digits_pretty_N_go n EmptyString) as D. rewrite E in D. cbn in D.
  simplify_eq. lia.
Qed.

Lemma undecimal_pretty_N (n : N) : undecimal (pretty n) = Some (Z.of_N n).
Proof.
  pose proof (pretty_N_nonempty n) as Hne. pose proof (digits_pretty_N n) as D.
  unfold undecimal. by destruct (pretty n).
Qed.

(** A decimal number never starts with a sign. *)
Lemma pretty_N_no_sign (n : N) a s : pretty n = String a s → a ≠ "-"%char ∧ a ≠ "+"%char.
Proof.
  intros E. pose proof (digits_pretty_N n) as D. rewrite E in D.
  split; intros ->; discriminate.
Qed.

Lemma Itoa_nonneg z : (0 ≤ z)%Z → Itoa z = pretty (Z.to_N z).
Proof. intros. unfold Itoa. destruct z; done. Qed.

Lemma ParseUint_Itoa bits z :
  (0 ≤ z < 2 ^ bits)%Z → ParseUint bits (Itoa z) = Some z.
Proof.
  intros [H1 H2]. rewrite Itoa_nonneg by done. unfold ParseUint.
  rewrite undecimal_pretty_N; cbn. rewrite Z2N.id by done.
  by apply Z.ltb_lt in H2 as ->.
Qed.

(** Printing an [int] and parsing it back gives it back. *)
Lemma Atoi_Itoa z : (- 2 ^ 63 ≤ z < 2 ^ 63)%Z → Atoi (Itoa z) = Some z.
Proof.
  intros Hr. assert (int_range z = true) as Hb by (unfold int_range; lia).
  destruct (decide (0 ≤ z)%Z) as [Hz|Hz].
  - rewrite Itoa_nonneg by done. unfold Atoi, signed_decimal.
    pose proof (undecimal_pretty_N (Z.to_N z)) as U.
    destruct (pretty (Z.to_N z)) as [|a s] eqn:E; [done|].
    apply pretty_N_no_sign in E as [H1 H2]. rewrite Z2N.id in U by done.
    destruct a as [[] [] [] [] [] [] [] []]; try done;
      rewrite U; cbn -[Z.pow int_range]; by rewrite Hb.
  - destruct z as [|p|p]; [lia|lia|]. unfold Itoa, pretty, pretty_Z, Atoi, signed_decimal.
    change ("-" +:+ pretty p)%string with (String "-" (pretty (N.pos p))).
    cbv iota beta. change (pretty_N (N.pos p)) with (pretty (N.pos p)).
    rewrite undecimal_pretty_N; cbn [mbind option_bind].
    change (- Z.of_N (N.pos p))%Z with (Z.neg p). by rewrite Hb.
Qed.
