(* ===== verification/GoNet.v ===== *)
(** * Go's [net.IP], [net.IPMask] and [net.IPNet]

    The part of package [net] the program relies on: addresses are byte slices of
    length 4 or 16 (anything else is an invalid address, the empty slice is
    [nil]), an IPv4 address may be held in its 4-byte or its IPv4-in-IPv6 16-byte
    form, and [Equal], [Contains], [To4] treat the two forms alike.  Text forms
    ([String], [ParseIP], [ParseCIDR]) are executable; IPv6 text is the RFC 5952
    form (longest run of zero groups compressed). *)
From Stdlib Require Import ZArith Lia Ascii.
From Stdlib Require Import Strings.Byte.
From stdpp Require Import base strings list numbers pretty.
From S2P Require Import Prelude GoStrings.

Abbreviation IP := (list byte).
Abbreviation IPMask := (list byte).

Record IPNet := MkIPNet { net_IP : list byte; net_Mask : list byte }.

#[export] Instance IPNet_eq_dec : EqDecision IPNet.
Proof. solve_decision. Defined.

Definition v4InV6Prefix : list byte :=
  [x00; x00; x00; x00; x00; x00; x00; x00; x00; x00; xff; xff].

Definition IPv4 (a b c d : byte) : IP := v4InV6Prefix ++ [a; b; c; d].

(** [To4]: [None] is the nil result. *)
Definition To4 (ip : IP) : option IP :=
  if bool_decide (length ip = 4) then Some ip
  else if bool_decide (length ip = 16 ∧ take 12 ip = v4InV6Prefix) then Some (drop 12 ip)
  else None.

(** [To16]: the empty slice is the nil result. *)
Definition To16 (ip : IP) : IP :=
  if bool_decide (length ip = 4) then v4InV6Prefix ++ ip
  else if bool_decide (length ip = 16) then ip
  else [].

Definition IP_Equal (ip x : IP) : bool :=
  if bool_decide (length ip = length x) then bool_decide (ip = x)
  else if bool_decide (length ip = 4 ∧ length x = 16) then
    bool_decide (take 12 x = v4InV6Prefix ∧ ip = drop 12 x)
  else if bool_decide (length ip = 16 ∧ length x = 4) then
    bool_decide (take 12 ip = v4InV6Prefix ∧ drop 12 ip = x)
  else false.

(** ** Masks *)

Definition byte_and (a b : byte) : byte := z2b (Z.land (b2z a) (b2z b)).

(** [net.CIDRMask(ones, bits)] for [bits] = 32 or 128 and [0 <= ones <= bits]. *)
Definition CIDRMask (ones bits : nat) : IPMask :=
  be_fixed (bits / 8) (Z.shiftl (Z.ones (Z.of_nat ones)) (Z.of_nat bits - Z.of_nat ones)).

(** [simpleMaskLength]: the number of leading ones, [None] if the mask is not
    ones followed by zeros. *)
Definition simpleMaskLength (m : IPMask) : option nat :=
  find (λ n, bool_decide (m = CIDRMask n (8 * length m))) (seq 0 (S (8 * length m))).

(** [IPMask.Size]. *)
Definition MaskSize (m : IPMask) : nat * nat :=
  match simpleMaskLength m with Some n => (n, 8 * length m) | None => (0, 0) end.

Definition and_bytes (a b : list byte) : list byte := zip_with byte_and a b.

(** [ip.Mask(mask)]; the empty slice is the nil result. *)
Definition IP_Mask (ip : IP) (mask : IPMask) : IP :=
  let mask := if bool_decide (length mask = 16 ∧ length ip = 4 ∧ take 12 mask = replicate 12 xff)
              then drop 12 mask else mask in
  let ip := if bool_decide (length mask = 4 ∧ length ip = 16 ∧ take 12 ip = v4InV6Prefix)
            then drop 12 ip else ip in
  if bool_decide (length ip = length mask) then and_bytes ip mask else [].

Definition networkNumberAndMask (n : IPNet) : option (list byte * list byte) :=
  let ip := match To4 (net_IP n) with
            | Some ip => Some ip
            | None => if bool_decide (length (net_IP n) = 16) then Some (net_IP n) else None
            end in
  match ip with
  | None => None
  | Some ip =>
      if bool_decide (length (net_Mask n) = 4) then
        if bool_decide (length ip = 4) then Some (ip, net_Mask n) else None
      else if bool_decide (length (net_Mask n) = 16) then
        if bool_decide (length ip = 4) then Some (ip, drop 12 (net_Mask n))
        else Some (ip, net_Mask n)
      else None
  end.

Definition IPNet_Contains (n : IPNet) (ip : IP) : bool :=
  match networkNumberAndMask n with
  | None => bool_decide (default ip (To4 ip) = [])
  | Some (nn, m) =>
      let ip := default ip (To4 ip) in
      bool_decide (length ip = length nn) &&
      bool_decide (and_bytes nn m = and_bytes ip m)
  end.

(** ** Text *)

Definition dotted (ip : IP) : string :=
  Join "." (map (λ b, Itoa (b2z b)) ip).

Definition hex_char (z : Z) : ascii :=
  Ascii.ascii_of_nat (Z.to_nat (if z <? 10 then 48 + z else 87 + z)%Z).
Fixpoint hex_go (fuel : nat) (z : Z) (acc : string) : string :=
  match fuel with
  | O => acc
  | S fuel =>
      let acc := String (hex_char (z `mod` 16)) acc in
      if (z <? 16)%Z then acc else hex_go fuel (z `div` 16) acc
  end.
(** A 16-bit group in lower-case hexadecimal, no leading zeros. *)
Definition hex16 (z : Z) : string := hex_go 4 z EmptyString.

Fixpoint groups (ip : list byte) : list Z :=
  match ip with a :: b :: ip => (b2z a * 256 + b2z b)%Z :: groups ip | _ => [] end.

(** Length of the run of zero groups starting here. *)
Fixpoint zero_run (g : list Z) : nat :=
  match g with z :: g => if (z =? 0)%Z then S (zero_run g) else 0 | [] => 0 end.

(** The first longest run of at least two zero groups: start and length. *)
Fixpoint longest_run (i : nat) (g : list Z) (best : nat * nat) : nat * nat :=
  match g with
  | [] => best
  | _ :: g' =>
      let l := zero_run g in
      longest_run (S i) g' (if (2 <=? l) && (snd best <? l) then (i, l) else best)
  end.

Definition v6_text (ip : IP) : string :=
  let g := groups ip in
  match longest_run 0 g (0, 0) with
  | (_, 0) => Join ":" (map hex16 g)
  | (i, l) => (Join ":" (map hex16 (take i g)) +:+ "::" +:+
               Join ":" (map hex16 (drop (i + l) g)))%string
  end.

Definition hex_byte (b : byte) : string :=
  String (hex_char (b2z b `div` 16)) (String (hex_char (b2z b `mod` 16)) EmptyString).
Definition hexString (bs : list byte) : string := String.concat "" (map hex_byte bs).

Definition IP_String (ip : IP) : string :=
  if bool_decide (length ip = 0) then "<nil>"
  else if negb (bool_decide (length ip = 4) || bool_decide (length ip = 16)) then
    ("?" +:+ hexString ip)%string
  else match To4 ip with Some p4 => dotted p4 | None => v6_text ip end.

Definition IPNet_String (n : IPNet) : string :=
  match networkNumberAndMask n with
  | None => "<nil>"
  | Some (nn, m) =>
      match simpleMaskLength m with
      | None => (IP_String nn +:+ "/" +:+ hexString m)%string
      | Some l => (IP_String nn +:+ "/" +:+ Itoa (Z.of_nat l))%string
      end
  end.

(** ** Parsing *)

Definition parse_octet (s : string) : option byte :=
  match s with
  | String "0"%char (String _ _) => None
  | _ => n ← undecimal s; if (n <=? 255)%Z then Some (z2b n) else None
  end.

Definition parseIPv4 (s : string) : option IP :=
  match Split "." s with
  | [a; b; c; d] =>
      a ← parse_octet a; b ← parse_octet b; c ← parse_octet c; d ← parse_octet d;
      Some (IPv4 a b c d)
  | _ => None
  end.

Definition hex_digit (a : ascii) : option Z :=
  let n := Z.of_nat (Ascii.nat_of_ascii a) in
  if (48 <=? n)%Z && (n <=? 57)%Z then Some (n - 48)%Z
  else if (97 <=? n)%Z && (n <=? 102)%Z then Some (n - 87)%Z
  else if (65 <=? n)%Z && (n <=? 70)%Z then Some (n - 55)%Z
  else None.

(** The hexadecimal digits at the front of [s]: their number, their value
    ([None] above 0xffff) and the rest. *)
Fixpoint take_hex (s : string) (n : nat) (acc : Z) : option (nat * Z * string) :=
  match s with
  | String a s' =>
      match hex_digit a with
      | Some d => let acc := (acc * 16 + d)%Z in
                  if (65535 <? acc)%Z then None else take_hex s' (S n) acc
      | None => Some (n, acc, s)
      end
  | EmptyString => Some (n, acc, s)
  end.

(** The loop of [parseIPv6]: [out] holds the bytes parsed so far, [ell] where
    the [::] was seen.  At most eight groups are read, the fuel of the callers. *)
Fixpoint v6_loop (fuel : nat) (s : string) (out : list byte) (ell : option nat)
  : option (list byte * option nat * string) :=
  match fuel with
  | O => Some (out, ell, s)
  | S fuel =>
      '(n, acc, rest) ← take_hex s 0 0;
      if (n =? 0) then None
      else match rest with
      | String "."%char _ =>
          if bool_decide (ell = None) && negb (length out =? 12) then None
          else if 16 <? length out + 4 then None
          else ip4 ← parseIPv4 s; Some (out ++ drop 12 ip4, ell, EmptyString)
      | EmptyString => Some (out ++ be_fixed 2 acc, ell, EmptyString)
      | String ":"%char (String a rest') =>
          let out := out ++ be_fixed 2 acc in
          if Ascii.eqb a ":" then
            match ell with
            | Some _ => None
            | None => match rest' with
                      | EmptyString => Some (out, Some (length out), EmptyString)
                      | _ => v6_loop fuel rest' out (Some (length out))
                      end
            end
          else v6_loop fuel (String a rest') out ell
      | _ => None
      end
  end.

Definition parseIPv6 (s : string) : option IP :=
  let '(s, ell) := match s with
                   | String ":"%char (String ":"%char s) => (s, Some 0)
                   | _ => (s, None)
                   end in
  if bool_decide (s = EmptyString ∧ ell = Some 0) then Some (replicate 16 x00)
  else
    '(out, ell, s) ← v6_loop 8 s [] ell;
    if bool_decide (s ≠ EmptyString) then None
    else if length out <? 16 then
      e ← ell; Some (take e out ++ replicate (16 - length out) x00 ++ drop e out)
    else match ell with Some _ => None | None => Some out end.

(** [net.ParseIP]; [None] is nil.  A zone ([%]) is refused. *)
Fixpoint ParseIP_go (s rest : string) : option IP :=
  match rest with
  | EmptyString => None
  | String a rest =>
      if Ascii.eqb a "." then parseIPv4 s
      else if Ascii.eqb a ":" then parseIPv6 s
      else if Ascii.eqb a "%" then None
      else ParseIP_go s rest
  end.
Definition ParseIP (s : string) : option IP := ParseIP_go s s.

(** [net.ParseCIDR]: the address and its network, [None] the parse error. *)
Fixpoint cut_slash (s : string) : option (string * string) :=
  match s with
  | EmptyString => None
  | String a s =>
      if Ascii.eqb a "/" then Some (EmptyString, s)
      else '(l, r) ← cut_slash s; Some (String a l, r)
  end.
Definition ParseCIDR (s : string) : option (list byte * IPNet) :=
  '(addr, mask) ← cut_slash s;
  let '(ip, bits) := match parseIPv4 addr with
                     | Some ip => (Some ip, 32)
                     | None => (parseIPv6 addr, 128)
                     end in
  ip ← ip;
  n ← undecimal mask;
  if (n <=? Z.of_nat bits)%Z then
    let m := CIDRMask (Z.to_nat n) bits in
    Some (ip, MkIPNet (IP_Mask ip m) m)
  else None.

(** The text forms on the program's own addresses. *)
Example pool_text :
  (λ p, (IP_String (fst p), IPNet_String (snd p))) <$>
    [ParseCIDR "223.254.0.100/16"; ParseCIDR "efff:ffff:ffff:ffff:ffff:ffff:ffff:9999/64"]
    ≫= (λ o, match o with Some x => [x] | None => [] end)
  = [("223.254.0.100", "223.254.0.0/16");
     ("efff:ffff:ffff:ffff:ffff:ffff:ffff:9999", "efff:ffff:ffff:ffff::/64")]%string.
Proof. vm_compute. reflexivity. Qed.

Example v6_text_cases :
  (λ s, IP_String <$> ParseIP s) <$>
    ["::1"; "1::"; "::ffff:1.2.3.4"; "1::2:0:0:3:4"; "1:2:3:4:5:6:7:8:9"; "01.2.3.4"; ":::"]%string
  = [Some "::1"; Some "1::"; Some "1.2.3.4"; Some "1::2:0:0:3:4"; None; None; None]%string.
Proof. vm_compute. reflexivity. Qed.

(** ** Facts *)

Lemma digits_Count c acc s z : digit c = None → digits acc s = Some z → Count c s = 0.
Proof.
  intros Hc. revert acc. induction s as [|a s IH]; intros acc; [done|]. cbn.
  destruct (digit a) as [d|] eqn:Ha; [|done]. cbn. intros Hd.
  destruct (Ascii.eqb_spec a c); [congruence|]. eauto.
Qed.

Lemma Count_Itoa c z : digit c = None → (0 ≤ z)%Z → Count c (Itoa z) = 0.
Proof.
  intros Hc Hz. rewrite Itoa_nonneg by done. eapply digits_Count; [done|].
  apply digits_pretty_N.
Qed.

Lemma parse_octet_Itoa b : parse_octet (Itoa (b2z b)) = Some b.
Proof. destruct b; vm_compute; reflexivity. Qed.

Lemma dotted_Count c ip : digit c = None → c ≠ "."%char → Count c (dotted ip) = 0.
Proof.
  intros Hc Hd. unfold dotted. induction ip as [|b ip IH]; [done|]. cbn [map].
  assert (Count c (Itoa (b2z b)) = 0) as Hb
    by (apply Count_Itoa; [done|apply b2z_range]).
  destruct (decide (ip = [])) as [->|Hne]; [exact Hb|].
  rewrite Join_cons by (by destruct ip). rewrite !Count_app, IH, Hb. cbn [Count].
  apply not_eq_sym, Ascii.eqb_neq in Hd. by rewrite Hd.
Qed.

Lemma parseIPv4_dotted a b c d : parseIPv4 (dotted [a; b; c; d]) = Some (IPv4 a b c d).
Proof.
  unfold parseIPv4, dotted. rewrite Split_Join; cbn [map].
  - by rewrite !parse_octet_Itoa.
  - done.
  - repeat constructor; (apply Count_Itoa; [done|apply b2z_range]).
Qed.

Lemma cut_slash_app l r : Count "/" l = 0 → cut_slash (l +:+ String "/" r) = Some (l, r).
Proof.
  induction l as [|a l IH]; [done|]. intros H. rewrite str_app_cons. cbn in H |- *.
  destruct (Ascii.eqb a "/"); [lia|]. by rewrite IH.
Qed.

Lemma length_CIDRMask n bits : length (CIDRMask n bits) = bits / 8.
Proof. apply length_be_fixed. Qed.

Lemma simpleMaskLength_32 n : n ≤ 32 → simpleMaskLength (CIDRMask n 32) = Some n.
Proof.
  intros Hn. do 33 (destruct n as [|n]; [vm_compute; reflexivity|]). lia.
Qed.

(** An IPv4 address printed with its prefix length parses back to the address and
    its network. *)
Lemma ParseCIDR_String4 a b c d n :
  n ≤ 32 →
  ParseCIDR (IPNet_String (MkIPNet (IPv4 a b c d) (CIDRMask n 32)))
  = Some (IPv4 a b c d, MkIPNet (IP_Mask (IPv4 a b c d) (CIDRMask n 32)) (CIDRMask n 32)).
Proof.
  intros Hn. unfold IPNet_String, networkNumberAndMask. cbn [net_IP net_Mask].
  change (To4 (IPv4 a b c d)) with (Some [a; b; c; d]). cbv iota.
  rewrite length_CIDRMask. change (32 / 8) with 4.
  rewrite !bool_decide_true by done. rewrite simpleMaskLength_32 by done.
  change (IP_String [a; b; c; d]) with (dotted [a; b; c; d]).
  unfold ParseCIDR. change ("/" +:+ Itoa (Z.of_nat n))%string with (String "/" (Itoa (Z.of_nat n))).
  rewrite cut_slash_app by (by apply dotted_Count). cbn [mbind option_bind].
  rewrite parseIPv4_dotted. cbn [mbind option_bind].
  rewrite Itoa_nonneg, undecimal_pretty_N by lia. cbn [mbind option_bind].
  rewrite Z2N.id, Nat2Z.id by lia.
  assert ((Z.of_nat n <=? Z.of_nat 32)%Z = true) as ->
    by (apply Z.leb_le, Nat2Z.inj_le; exact Hn).
  done.
Qed.
