(* ===== verification/Config.v ===== *)
(** * Names and addresses of the deployment

    [pkg/config/config.go]: the keys of the traffic manager's ConfigMap, the names
    of the injected containers, and the inner address pools, computed from their
    text as [init] does. *)
From Stdlib Require Import ZArith Lia.
From Stdlib Require Import Strings.Byte.
From stdpp Require Import base strings list numbers.
From S2P Require Import Prelude GoStrings GoNet.

Definition ConfigMapPodTrafficManager : string := "kubevpn-traffic-manager".
Definition KeyDHCP : string := "DHCP".
Definition KeyDHCP6 : string := "DHCP6".
Definition KeyEnvoy : string := "ENVOY_CONFIG".
Definition KeyClusterIPv4POOLS : string := "IPv4_POOLS".
Definition KeyRefCount : string := "REF_COUNT".
Definition TLSCertKey : string := "tls_crt".
Definition TLSPrivateKeyKey : string := "tls_key".
Definition ContainerSidecarEnvoyProxy : string := "envoy-proxy".
Definition ContainerSidecarControlPlane : string := "control-plane".
Definition ContainerSidecarVPN : string := "vpn".
Definition VolumeEnvoyConfig : string := "envoy-config".
Definition EnvInboundPodTunIPv4 : string := "TunIPv4".
Definition EnvInboundPodTunIPv6 : string := "TunIPv6".
Definition EnvPodName : string := "POD_NAME".
Definition EnvPodNamespace : string := "POD_NAMESPACE".
Definition HeaderPodName : string := "POD_NAME".
Definition HeaderPodNamespace : string := "POD_NAMESPACE".
Definition HeaderIPv4 : string := "IPv4".
Definition HeaderIPv6 : string := "IPv6".
Definition APIRentIP : string := "/rent/ip".
Definition APIReleaseIP : string := "/release/ip".
Definition ConfigKubeVPNTransportEngine : string := "transport-engine".
Definition HostsKeyWord : string := "# Add by KubeVPN".

Definition innerIPv4Pool : string := "223.254.0.100/16".
Definition innerIPv6Pool : string := "efff:ffff:ffff:ffff:ffff:ffff:ffff:9999/64".

(** [init]: [net.ParseCIDR] of a pool; the nil results of a failure are the empty
    address and network. *)
Definition parse_pool (pool : string) : list byte * IPNet :=
  default ([], MkIPNet [] []) (ParseCIDR pool).

Definition RouterIP : list byte := Eval vm_compute in fst (parse_pool innerIPv4Pool).
Definition CIDR : IPNet := Eval vm_compute in snd (parse_pool innerIPv4Pool).
Definition RouterIP6 : list byte := Eval vm_compute in fst (parse_pool innerIPv6Pool).
Definition CIDR6 : IPNet := Eval vm_compute in snd (parse_pool innerIPv6Pool).

Example RouterIP_eq : RouterIP = IPv4 xdf xfe x00 x64.
Proof. reflexivity. Qed.
Example CIDR_eq : CIDR = MkIPNet [xdf; xfe; x00; x00] [xff; xff; x00; x00].
Proof. reflexivity. Qed.
Example CIDR6_text : IPNet_String CIDR6 = "efff:ffff:ffff:ffff::/64"%string.
Proof. vm_compute. reflexivity. Qed.

Definition DefaultMTU : Z := 1500 - 20 - 8 - 21.

Lemma byte_and_ff a : byte_and a xff = a.
Proof. by destruct a; vm_compute. Qed.
Lemma byte_and_00 a : byte_and a x00 = x00.
Proof. by destruct a; vm_compute. Qed.

Lemma To4_v4 a b c d : To4 (IPv4 a b c d) = Some [a; b; c; d].
Proof. done. Qed.

(** Membership of an IPv4 address in the inner pools. *)
Lemma CIDR_Contains_v4 a b c d :
  IPNet_Contains CIDR (IPv4 a b c d) = bool_decide (a = xdf ∧ b = xfe).
Proof.
  unfold IPNet_Contains. rewrite To4_v4.
  change (networkNumberAndMask CIDR) with (Some ([xdf; xfe; x00; x00], [xff; xff; x00; x00])).
  cbn [default length id]. unfold and_bytes. cbn [zip_with].
  rewrite !byte_and_ff, !byte_and_00. cbn [andb]. rewrite bool_decide_eq_true_2 by done.
  cbn [andb]. apply bool_decide_ext. split.
  - intros E. by inversion E.
  - by intros [-> ->].
Qed.

Lemma CIDR6_Contains_v4 a b c d : IPNet_Contains CIDR6 (IPv4 a b c d) = false.
Proof. unfold IPNet_Contains. rewrite To4_v4. done. Qed.
