(* ===== verification/Framing.v ===== *)
(** * Datagrams over a TCP stream

    [pkg/core/udpovertcp.go]: a datagram travels on a TCP connection as a two-byte
    big-endian length and the payload.  The reader fills a caller-owned buffer (a
    65535-byte buffer of [config.LPool] in every caller), the writer builds the
    frame in such a buffer.  The file also models the adapters that present such
    a connection as a packet connection ([fakeUDPTunnelConn],
    [gvisorFakeUDPTunnelConn]) and the two copy loops of
    [gvisorudphandler.go:handle]. *)
From Stdlib Require Import ZArith Lia.
From Stdlib Require Import Strings.Byte.
From stdpp Require Import base strings list numbers.
From S2P Require Import Prelude.

(** [config.LargeBufferSize]: the size of the pool's buffers. *)
Definition LargeBufferSize : Z := Z.shiftl 1 16 - 1.

(** ** Streams and slices *)

(** [io.ReadFull(r, b[:n])] on a stream that holds the bytes [r] and then ends:
    the rest of the stream, the buffer afterwards, the error. *)
Definition ReadFull (r b : list byte) (n : nat) : list byte * list byte * option error :=
  if n <=? length r then (drop n r, take n r ++ drop n b, None)
  else ([], r ++ drop (length r) b,
        Some (if length r =? 0 then EOF else UnexpectedEOF)).

(** What the operating system did with a [Write]: all of it, or a prefix and an
    error. *)
Inductive write_result := Written | Broken (n : nat) (e : error).

Definition conn_write (w : list byte) (bs : list byte) (res : write_result)
  : list byte * option error :=
  match res with
  | Written => (w ++ bs, None)
  | Broken n e => (w ++ take n bs, Some e)
  end.

(** ** [datagramPacket] *)

Record datagramPacket := MkDatagram { DataLength : Z; Data : list byte }.

(** [uint16(len(data))] *)
Definition newDatagramPacket (data : list byte) : datagramPacket :=
  MkDatagram (Z.of_nat (length data) `mod` 65536) data.

(** The common part of the two readers: read the length, then that many bytes to
    the front of the buffer.  [b[:2]] and [b[:dataLength]] panic when the buffer is
    shorter. *)
Definition read_frame (r b : list byte)
  : list byte * list byte * outcome Z :=
  if length b <? 2 then (r, b, Panic)
  else match ReadFull r b 2 with
  | (r, b, Some e) => (r, b, Fail e)
  | (r, b, None) =>
      let dataLength := be_val (take 2 b) in
      if length b <? Z.to_nat dataLength then (r, b, Panic)
      else match ReadFull r b (Z.to_nat dataLength) with
      | (r, b, Some e) => (r, b, Fail e)
      | (r, b, None) => (r, b, Ret dataLength)
      end
  end.

Definition readDatagramPacket (r b : list byte)
  : list byte * list byte * outcome datagramPacket :=
  let '(r, b, o) := read_frame r b in
  (r, b, (λ n, MkDatagram n (take (Z.to_nat n) b)) <$> o).

(** The server's reader hands out the whole buffer as [Data]. *)
Definition readDatagramPacketServer (r b : list byte)
  : list byte * list byte * outcome datagramPacket :=
  let '(r, b, o) := read_frame r b in
  (r, b, (λ n, MkDatagram n b) <$> o).

(** The bytes [datagramPacket.Write] hands to [w.Write]: [pool] is the content of
    the pool buffer, [binary.BigEndian.PutUint16] fills its first two bytes and
    [copy(b[2:], addr.Data)] as much of the rest as there is room for. *)
Definition frame_bytes (pool : list byte) (d : datagramPacket) : list byte :=
  let n := Nat.min (length pool - 2) (length (Data d)) in
  let b := be_fixed 2 (Z.of_nat (length (Data d)) `mod` 65536) ++
           take n (Data d) ++ drop (2 + n) pool in
  take (n + 2) b.

Definition datagram_Write (pool : list byte) (d : datagramPacket) (w : list byte)
    (res : write_result) : list byte * option error :=
  conn_write w (frame_bytes pool d) res.

(** ** Packet connections over TCP *)

(** [fakeUDPTunnelConn.ReadFrom] (and [gvisorFakeUDPTunnelConn.Read]): [done] is
    whether the connection's context is cancelled, and then [ctx.Err()]. *)
Definition ctx_err : error := Errorf "context canceled".

Definition fakeUDPTunnelConn_ReadFrom (done : bool) (r b : list byte)
  : list byte * list byte * outcome Z :=
  if done then (r, b, Fail ctx_err)
  else let '(r, b, o) := readDatagramPacket r b in (r, b, DataLength <$> o).

Definition gvisorFakeUDPTunnelConn_Read (done : bool) (r b : list byte)
  : list byte * list byte * outcome Z :=
  if done then (r, b, Fail ctx_err)
  else let '(r, b, o) := readDatagramPacket r b in (r, b, DataLength <$> o).

(** [WriteTo] / [Write]: on success the length of the caller's slice. *)
Definition fakeUDPTunnelConn_WriteTo (pool b w : list byte) (res : write_result)
  : list byte * outcome Z :=
  let dgram := newDatagramPacket b in
  match datagram_Write pool dgram w res with
  | (w, Some e) => (w, Fail e)
  | (w, None) => (w, Ret (Z.of_nat (length b)))
  end.

Definition gvisorFakeUDPTunnelConn_Write (pool b w : list byte) (res : write_result)
  : list byte * outcome Z :=
  let dgram := newDatagramPacket b in
  match datagram_Write pool dgram w res with
  | (w, Some e) => (w, Fail e)
  | (w, None) => (w, Ret (Z.of_nat (length b)))
  end.

(** ** The copy loops of [handle]

    The first goroutine moves frames from the tunnel to the UDP socket until the
    stream ends, a frame is empty, or a write fails; [udp_ok i] is the result of
    the [i]-th [udpConn.Write].  Every turn consumes the two bytes of a length, so
    [length r] turns are enough ([None] is running out of fuel).  The result is the
    datagrams written and the error sent to [errChan]. *)
Definition zero_length : error := Errorf "length of read packet is zero".

Fixpoint handle_tcp_to_udp (fuel : nat) (udp_err : nat → option error) (i : nat)
    (r b : list byte) (sent : list (list byte))
  : list (list byte) * option (outcome error) :=
  match fuel with
  | O => (sent, None)
  | S fuel =>
      match readDatagramPacket r b with
      | (_, _, Fail e) => (sent, Some (Ret e))
      | (_, _, Panic) => (sent, Some Panic)
      | (r, b, Ret dgram) =>
          if (DataLength dgram =? 0)%Z then (sent, Some (Ret zero_length))
          else match udp_err i with
          | Some e => (sent, Some (Ret e))
          | None => handle_tcp_to_udp fuel udp_err (S i) r b (sent ++ [Data dgram])
          end
      end
  end.

(** The second goroutine frames what the UDP socket receives: [inbox] is what
    [udpConn.ReadFrom] returns, one datagram per call and then its error. *)
Fixpoint handle_udp_to_tcp (pool : list byte) (inbox : list (list byte)) (last : error)
    (tcp_res : nat → write_result) (i : nat) (w : list byte) : list byte * error :=
  match inbox with
  | [] => (w, last)
  | d :: inbox =>
      if length d =? 0 then (w, zero_length)
      else match datagram_Write pool (newDatagramPacket d) w (tcp_res i) with
      | (w, Some e) => (w, e)
      | (w, None) => handle_udp_to_tcp pool inbox last tcp_res (S i) w
      end
  end.

(** ** Lemmas *)

Ltac lbs := change LargeBufferSize with 65535%Z in *.

Lemma ReadFull_app x rest b :
  ReadFull (x ++ rest) b (length x) = (rest, x ++ drop (length x) b, None).
Proof.
  unfold ReadFull. rewrite length_app.
  assert ((length x <=? length x + length rest) = true) as -> by (apply Nat.leb_le; lia).
  by rewrite drop_app_length, take_app_length.
Qed.

Lemma ReadFull_short r b n :
  length r < n →
  ReadFull r b n =
    ([], r ++ drop (length r) b, Some (if length r =? 0 then EOF else UnexpectedEOF)).
Proof. intros H. unfold ReadFull. by apply Nat.leb_gt in H as ->. Qed.

Lemma be_val_u16 z (b : list byte) : be_val (take 2 (be_fixed 2 z ++ b)) = (z `mod` 65536)%Z.
Proof.
  rewrite (take_app_length' (be_fixed 2 z)) by (by rewrite length_be_fixed).
  by rewrite be_val_fixed.
Qed.

(** Reading a length [z] followed by the stream [r]. *)
Lemma read_frame_header z r b :
  2 ≤ length b →
  read_frame (be_fixed 2 z ++ r) b =
    let b := be_fixed 2 z ++ drop 2 b in
    let n := (z `mod` 65536)%Z in
    if length b <? Z.to_nat n then (r, b, Panic)
    else match ReadFull r b (Z.to_nat n) with
         | (r, b, Some e) => (r, b, Fail e)
         | (r, b, None) => (r, b, Ret n)
         end.
Proof.
  intros Hb. unfold read_frame.
  assert ((length b <? 2) = false) as -> by (apply Nat.ltb_ge; lia).
  pose proof (ReadFull_app (be_fixed 2 z) r b) as E. rewrite length_be_fixed in E.
  rewrite E, be_val_u16. done.
Qed.

Lemma frame_bytes_eq pool d :
  2 ≤ length pool →
  frame_bytes pool d =
    be_fixed 2 (Z.of_nat (length (Data d)) `mod` 65536) ++ take (length pool - 2) (Data d).
Proof.
  intros Hp. unfold frame_bytes. rewrite app_assoc.
  assert (take (length pool - 2) (Data d) =
          take (Nat.min (length pool - 2) (length (Data d))) (Data d)) as ->.
  { destruct (Nat.min_spec (length pool - 2) (length (Data d))) as [[? ->]|[? ->]]; [done|].
    by rewrite !take_ge by lia. }
  apply take_app_length'.
  rewrite length_app, length_be_fixed, length_take. lia.
Qed.

Lemma frame_bytes_small pool data :
  2 ≤ length pool → length data ≤ length pool - 2 →
  frame_bytes pool (newDatagramPacket data) =
    be_fixed 2 (Z.of_nat (length data) `mod` 65536) ++ data.
Proof. intros. rewrite frame_bytes_eq by done. cbn. by rewrite take_ge. Qed.

(** A frame that fits the pool buffer is read back, whatever follows it. *)
Lemma read_frame_small data rest b :
  2 ≤ length b → length data ≤ length b → (Z.of_nat (length data) < 65536)%Z →
  read_frame (be_fixed 2 (Z.of_nat (length data) `mod` 65536) ++ data ++ rest) b =
    (rest, data ++ drop (length data) (be_fixed 2 (Z.of_nat (length data)) ++ drop 2 b),
     Ret (Z.of_nat (length data))).
Proof.
  intros Hb Hd Hs. rewrite (Z.mod_small (Z.of_nat _)) by lia.
  rewrite read_frame_header by done. cbv zeta.
  rewrite Z.mod_small, Nat2Z.id by lia.
  rewrite length_app, length_be_fixed, length_drop.
  assert ((2 + (length b - 2) <? length data) = false) as -> by (apply Nat.ltb_ge; lia).
  by rewrite ReadFull_app.
Qed.

Lemma readDatagramPacket_small data rest b :
  2 ≤ length b → length data ≤ length b → (Z.of_nat (length data) < 65536)%Z →
  readDatagramPacket (be_fixed 2 (Z.of_nat (length data) `mod` 65536) ++ data ++ rest) b =
    (rest, data ++ drop (length data) (be_fixed 2 (Z.of_nat (length data)) ++ drop 2 b),
     Ret (newDatagramPacket data)).
Proof.
  intros. unfold readDatagramPacket. rewrite read_frame_small by done. cbn.
  unfold newDatagramPacket. rewrite Nat2Z.id, take_app_length, Z.mod_small by lia. done.
Qed.

(** A datagram the tunnel can carry: not empty, and it fits the frame buffer. *)
Definition carried (d : list byte) : Prop :=
  d ≠ [] ∧ (Z.of_nat (length d) ≤ LargeBufferSize - 2)%Z.

Definition frame (d : list byte) : list byte :=
  be_fixed 2 (Z.of_nat (length d) `mod` 65536) ++ d.

Lemma handle_udp_to_tcp_frames pool inbox last i w :
  Z.of_nat (length pool) = LargeBufferSize → Forall carried inbox →
  handle_udp_to_tcp pool inbox last (λ _, Written) i w = (w ++ concat (frame <$> inbox), last).
Proof.
  intros Hp. lbs.
  revert i w; induction inbox as [|d inbox IH]; intros i w Hf.
  { cbn. by rewrite app_nil_r. }
  apply Forall_cons_1 in Hf as [[Hne Hl] Hf]. cbn [handle_udp_to_tcp].
  lbs.
  destruct d as [|c d]; [done|]. cbn [length Nat.eqb].
  unfold datagram_Write, conn_write.
  rewrite frame_bytes_small by (cbn [length] in *; lia).
  rewrite IH by done. unfold frame at 2. cbn. by rewrite <-!app_assoc.
Qed.

Lemma length_frame_buffer d b : 2 ≤ length b → length d ≤ length b →
  length (d ++ drop (length d) (be_fixed 2 (Z.of_nat (length d)) ++ drop 2 b)) = length b.
Proof. intros. rewrite !length_app, length_drop, length_app, length_be_fixed, length_drop. lia. Qed.

Lemma handle_tcp_to_udp_frames fuel inbox i b sent :
  Z.of_nat (length b) = LargeBufferSize → Forall carried inbox → length inbox < fuel →
  handle_tcp_to_udp fuel (λ _, None) i (concat (frame <$> inbox)) b sent =
    (sent ++ inbox, Some (Ret EOF)).
Proof.
  lbs. revert i b sent inbox.
  induction fuel as [|fuel IH]; [lia|]. intros i b sent inbox Hb Hf Hfuel.
  cbn [handle_tcp_to_udp]. destruct inbox as [|d inbox]; cbn [fmap list_fmap concat].
  - unfold readDatagramPacket, read_frame.
    assert ((length b <? 2) = false) as -> by (apply Nat.ltb_ge; lia).
    rewrite ReadFull_short by (cbn; lia). cbn. by rewrite app_nil_r.
  - apply Forall_cons_1 in Hf as [[Hne Hl] Hf]. lbs.
    unfold frame at 1. rewrite <-app_assoc.
    rewrite readDatagramPacket_small by lia. cbn [newDatagramPacket DataLength Data].
    assert ((Z.of_nat (length d) `mod` 65536 =? 0)%Z = false) as ->.
    { rewrite Z.mod_small by lia. apply Z.eqb_neq. destruct d; [done|]. cbn [length]. lia. }
    rewrite IH; [by rewrite <-app_assoc| |done|cbn [length] in Hfuel; lia].
    rewrite length_frame_buffer by lia. lia.
Qed.

Lemma length_concat_frames inbox : length inbox ≤ length (concat (frame <$> inbox)).
Proof.
  induction inbox as [|d inbox IH]; [done|]; cbn [fmap list_fmap concat length].
  unfold frame at 1. rewrite !length_app, length_be_fixed. lia.
Qed.

(** ** Properties *)

(** Frame round trip: a datagram of at most 65533 bytes, written by
    [datagramPacket.Write] from a pool buffer with any stale content, is read back
    exactly by [readDatagramPacket] from a stream in which anything follows it; the
    rest of the stream is untouched and the buffer keeps its length. *)
Theorem frame_roundtrip pool data rest b
  (Hpool : Z.of_nat (length pool) = LargeBufferSize)
  (Hb : Z.of_nat (length b) = LargeBufferSize)
  (Hdata : (Z.of_nat (length data) ≤ LargeBufferSize - 2)%Z) :
  ∃ b', length b' = length b ∧
    readDatagramPacket (frame_bytes pool (newDatagramPacket data) ++ rest) b =
      (rest, b', Ret (newDatagramPacket data)).
Proof.
  lbs. eexists; split; cycle 1.
  - rewrite frame_bytes_small by lia. rewrite <-app_assoc.
    apply readDatagramPacket_small; lia.
  - apply length_frame_buffer; lia.
Qed.

Lemma frame_roundtrip_witness :
  let pool := replicate (Z.to_nat LargeBufferSize) x41 in
  ∃ b', length b' = length pool ∧
    readDatagramPacket (frame_bytes pool (newDatagramPacket [x01; x02]) ++ [x03]) pool =
      ([x03], b', Ret (MkDatagram 2 [x01; x02])).
Proof.
  exact (frame_roundtrip (replicate (Z.to_nat LargeBufferSize) x41) [x01; x02] [x03]
    (replicate (Z.to_nat LargeBufferSize) x41)
    ltac:(vm_compute; reflexivity) ltac:(vm_compute; reflexivity)
    ltac:(vm_compute; discriminate)).
Defined.

(** The bound is exact: a frame read back on its own gives the datagram that
    was written if and only if the datagram has at most 65533 bytes.  A longer one
    is announced with its full length (modulo 2^16) but truncated by [copy]. *)
Theorem frame_lossless_iff pool data b
  (Hpool : Z.of_nat (length pool) = LargeBufferSize)
  (Hb : Z.of_nat (length b) = LargeBufferSize) :
  (∃ r b' d, readDatagramPacket (frame_bytes pool (newDatagramPacket data)) b = (r, b', Ret d)
             ∧ Data d = data)
  ↔ (Z.of_nat (length data) ≤ LargeBufferSize - 2)%Z.
Proof.
  split.
  - intros (r & b' & d & Hr & Hd). lbs.
    destruct (decide (Z.of_nat (length data) ≤ 65533)%Z) as [|Hgt]; [done|]. exfalso.
    rewrite frame_bytes_eq in Hr by lia. cbn [newDatagramPacket Data] in Hr.
    unfold readDatagramPacket in Hr. rewrite read_frame_header in Hr by lia. cbv zeta in Hr.
    rewrite Z.mod_mod in Hr by lia.
    set (n := (Z.of_nat (length data) `mod` 65536)%Z) in *.
    assert (0 ≤ n < 65536)%Z by (apply Z.mod_pos_bound; lia).
    destruct (_ <? _) eqn:?; [cbn in Hr; simplify_eq|].
    destruct (decide (Z.to_nat n ≤ length pool - 2)) as [Hn|Hn].
    + unfold ReadFull in Hr. rewrite length_take in Hr.
      assert ((Z.to_nat n <=? (length pool - 2) `min` length data) = true) as E
        by (apply Nat.leb_le; lia).
      rewrite E in Hr. cbn in Hr. injection Hr as _ _ <-. cbn in Hd.
      apply (f_equal length) in Hd. rewrite length_take in Hd. lia.
    + rewrite ReadFull_short in Hr by (rewrite length_take; lia).
      cbn in Hr. simplify_eq.
  - intros Hl. lbs. do 3 eexists. split.
    + rewrite frame_bytes_small by lia. rewrite <-(app_nil_r data) at 2.
      apply readDatagramPacket_small; lia.
    + done.
Qed.

Lemma frame_lossless_iff_witness :
  let pool := replicate (Z.to_nat LargeBufferSize) x00 in
  (∃ r b' d, readDatagramPacket (frame_bytes pool (newDatagramPacket [x45])) pool = (r, b', Ret d)
             ∧ Data d = [x45]).
Proof.
  apply (frame_lossless_iff (replicate (Z.to_nat LargeBufferSize) x00) [x45]
    (replicate (Z.to_nat LargeBufferSize) x00)); vm_compute; [reflexivity|reflexivity|discriminate].
Defined.

(** UDP over TCP is lossless end to end: the datagrams one side's
    UDP-to-TCP loop frames (all non-empty, at most 65533 bytes, no write error) are
    exactly the datagrams the other side's TCP-to-UDP loop delivers, in order, and
    that loop then ends with [io.EOF]; [length stream + 1] turns suffice. *)
Theorem udp_over_tcp_pipeline pool b inbox last
  (Hpool : Z.of_nat (length pool) = LargeBufferSize)
  (Hb : Z.of_nat (length b) = LargeBufferSize)
  (Hin : Forall carried inbox) :
  let stream := fst (handle_udp_to_tcp pool inbox last (λ _, Written) 0 []) in
  handle_tcp_to_udp (S (length stream)) (λ _, None) 0 stream b [] =
    (inbox, Some (Ret EOF)).
Proof.
  cbv zeta. rewrite handle_udp_to_tcp_frames by done. cbn [fst app].
  rewrite handle_tcp_to_udp_frames; [done..|].
  pose proof (length_concat_frames inbox). lia.
Qed.

Lemma udp_over_tcp_pipeline_witness :
  let pool := replicate (Z.to_nat LargeBufferSize) x00 in
  let stream := fst (handle_udp_to_tcp pool [[x01]; [x02; x03]] EOF (λ _, Written) 0 []) in
  handle_tcp_to_udp (S (length stream)) (λ _, None) 0 stream pool [] =
    ([[x01]; [x02; x03]], Some (Ret EOF)).
Proof.
  apply (udp_over_tcp_pipeline (replicate (Z.to_nat LargeBufferSize) x00)
    (replicate (Z.to_nat LargeBufferSize) x00) [[x01]; [x02; x03]] EOF).
  - vm_compute; reflexivity.
  - vm_compute; reflexivity.
  - repeat constructor; vm_compute; discriminate.
Defined.
