(* ===== verification/ProxyInfo.v ===== *)
(** * The proxy header of the gvisor tunnels

    [pkg/core/gvisortcpforwarder.go]: before the payload, the client sends the
    endpoint identity of the connection its user-space stack accepted (ports, and
    addresses with a length byte), [WriteProxyInfo]; the server reads it back,
    [ParseProxyInfo], and dials the local address and port of it
    ([gvisortcphandler.go], [gvisorudphandler.go]).  [tcpip.Address] is gvisor's
    16-byte array with a length. *)
From Stdlib Require Import ZArith Lia.
From Stdlib Require Import Strings.Byte.
From stdpp Require Import base strings list numbers.
From S2P Require Import Prelude GoStrings GoNet Framing.

(** [tcpip.Address]: a 16-byte array and the number of bytes in use. *)
Record Address := MkAddress { addr_bytes : list byte; addr_len : nat }.

Definition zeroAddress : Address := MkAddress (replicate 16 x00) 0.
Definition AsSlice (a : Address) : list byte := take (addr_len a) (addr_bytes a).

(** [tcpip.AddrFromSlice]: the zero address unless the slice has 4 or 16 bytes. *)
Definition AddrFromSlice (bs : list byte) : Address :=
  if length bs =? 4 then MkAddress (bs ++ replicate 12 x00) 4
  else if length bs =? 16 then MkAddress bs 16
  else zeroAddress.

(** [stack.TransportEndpointID]. *)
Record TransportEndpointID := MkID {
  LocalPort : Z; LocalAddress : Address; RemotePort : Z; RemoteAddress : Address }.

Definition zeroID : TransportEndpointID := MkID 0 zeroAddress 0 zeroAddress.

(** [WriteProxyInfo]: the bytes handed to [conn]; [i] is the two-byte pool buffer
    that [PutUint16] overwrites. *)
Definition WriteProxyInfo (w : list byte) (id : TransportEndpointID) (res : write_result)
  : list byte * option error :=
  let b := be_fixed 2 (LocalPort id) ++
           be_fixed 2 (RemotePort id) ++
           [z2b (Z.of_nat (addr_len (LocalAddress id)))] ++ AsSlice (LocalAddress id) ++
           [z2b (Z.of_nat (addr_len (RemoteAddress id)))] ++ AsSlice (RemoteAddress id) in
  conn_write w b res.

(** One address of [ParseProxyInfo]: its length byte, read to [port[:1]], and that
    many bytes. *)
Definition parse_address (r port : list byte)
  : list byte * list byte * (Address + error) :=
  match ReadFull r port 1 with
  | (r, port, Some e) => (r, port, inr e)
  | (r, port, None) =>
      let n := match port with l :: _ => Z.to_nat (b2z l) | [] => 0 end in
      match ReadFull r (replicate n x00) n with
      | (r, _, Some e) => (r, port, inr e)
      | (r, address, None) => (r, port, inl (AddrFromSlice address))
      end
  end.

(** [ParseProxyInfo]: the rest of the stream, the identity as far as it was filled
    in, the error. *)
Definition ParseProxyInfo (r : list byte)
  : list byte * TransportEndpointID * option error :=
  let id := zeroID in
  let port := replicate 2 x00 in
  match ReadFull r port 2 with
  | (r, port, Some e) => (r, id, Some e)
  | (r, port, None) =>
      let id := MkID (be_val port) (LocalAddress id) (RemotePort id) (RemoteAddress id) in
      match ReadFull r port 2 with
      | (r, port, Some e) => (r, id, Some e)
      | (r, port, None) =>
          let id := MkID (LocalPort id) (LocalAddress id) (be_val port) (RemoteAddress id) in
          match parse_address r port with
          | (r, port, inr e) => (r, id, Some e)
          | (r, port, inl a) =>
              let id := MkID (LocalPort id) a (RemotePort id) (RemoteAddress id) in
              match parse_address r port with
              | (r, port, inr e) => (r, id, Some e)
              | (r, port, inl a) =>
                  (r, MkID (LocalPort id) (LocalAddress id) (RemotePort id) a, None)
              end
          end
      end
  end.

(** ** The server side: what a connection makes the proxy dial

    [gvisorTCPHandler.Handle] dials [JoinHostPort(LocalAddress.String(), LocalPort)]
    over TCP, [gvisorUDPHandler.Handle] dials [LocalAddress.AsSlice():LocalPort]
    over UDP; both give up (closing the tunnel connection) when the header cannot
    be parsed.  The rest of the stream is the payload to copy. *)
Inductive dial_step :=
  | GiveUp (e : error)
  | DialTarget (ip : list byte) (port : Z) (payload : list byte).

Definition gvisorUDPHandler_Handle (conn : list byte) : dial_step :=
  match ParseProxyInfo conn with
  | (_, _, Some e) => GiveUp e
  | (payload, endpointID, None) =>
      DialTarget (AsSlice (LocalAddress endpointID)) (LocalPort endpointID) payload
  end.

(** ** Lemmas *)

(** The addresses gvisor hands out: 4 bytes, 16 bytes or none. *)
Definition address_wf (a : Address) : Prop := ∃ bs, a = AddrFromSlice bs.
Definition id_wf (id : TransportEndpointID) : Prop :=
  (0 ≤ LocalPort id < 65536)%Z ∧ (0 ≤ RemotePort id < 65536)%Z ∧
  address_wf (LocalAddress id) ∧ address_wf (RemoteAddress id).

Lemma address_wf_spec a : address_wf a →
  length (AsSlice a) = addr_len a ∧ addr_len a ≤ 16 ∧ AddrFromSlice (AsSlice a) = a.
Proof.
  intros [bs ->]. unfold AddrFromSlice.
  destruct (Nat.eqb_spec (length bs) 4) as [H4|H4].
  { unfold AsSlice; cbn [addr_len addr_bytes].
    rewrite take_app_length' by lia. rewrite H4. cbn. split_and!; [done|lia|done]. }
  destruct (Nat.eqb_spec (length bs) 16) as [H16|H16].
  { unfold AsSlice; cbn [addr_len addr_bytes].
    rewrite take_ge by lia. rewrite H16. cbn. split_and!; [done|lia|done]. }
  split_and!; [done|cbn; lia|done].
Qed.

Lemma parse_address_app a rest port :
  address_wf a → length port = 2 →
  ∃ port', length port' = 2 ∧
    parse_address ([z2b (Z.of_nat (addr_len a))] ++ AsSlice a ++ rest) port
    = (rest, port', inl a).
Proof.
  intros (Hlen & H16 & Hback)%address_wf_spec Hp. unfold parse_address.
  pose proof (ReadFull_app [z2b (Z.of_nat (addr_len a))] (AsSlice a ++ rest) port) as E.
  change (length [_]) with 1 in E. rewrite E. cbn [app].
  assert (Z.to_nat (b2z (z2b (Z.of_nat (addr_len a)))) = length (AsSlice a)) as ->.
  { rewrite b2z_z2b, Z.mod_small, Nat2Z.id by lia. done. }
  rewrite ReadFull_app, (drop_ge (replicate _ _)), app_nil_r, Hback
    by (rewrite ?length_replicate; lia).
  eexists; split; [|done]. cbn. rewrite length_drop. lia.
Qed.

Lemma ReadFull_u16 z rest port :
  length port = 2 → ReadFull (be_fixed 2 z ++ rest) port 2 = (rest, be_fixed 2 z, None).
Proof.
  intros Hp. pose proof (ReadFull_app (be_fixed 2 z) rest port) as E.
  rewrite length_be_fixed in E. by rewrite E, drop_ge, app_nil_r by lia.
Qed.

Lemma be_val_port z : (0 ≤ z < 65536)%Z → be_val (be_fixed 2 z) = z.
Proof. intros. rewrite be_val_fixed. by apply Z.mod_small. Qed.

Lemma ParseProxyInfo_app id rest :
  id_wf id →
  ParseProxyInfo (fst (WriteProxyInfo [] id Written) ++ rest) = (rest, id, None).
Proof.
  intros (Hl & Hr & Hla & Hra). destruct id as [lp la rp ra].
  cbn [LocalPort RemotePort LocalAddress RemoteAddress] in *.
  unfold WriteProxyInfo, conn_write, ParseProxyInfo.
  cbn [fst LocalPort RemotePort LocalAddress RemoteAddress].
  rewrite app_nil_l, <-!app_assoc, ReadFull_u16 by done.
  rewrite ReadFull_u16 by done. rewrite !be_val_port by done.
  edestruct (parse_address_app la) as (port' & Hp' & E);
    [done|apply length_be_fixed|rewrite E; clear E].
  edestruct (parse_address_app ra) as (port'' & _ & E);
    [done|exact Hp'|rewrite E]. done.
Qed.

Lemma ReadFull_ext r b n r' b' x :
  ReadFull r b n = (r', b', None) → ReadFull (r ++ x) b n = (r' ++ x, b', None).
Proof.
  unfold ReadFull. rewrite length_app. destruct (Nat.leb_spec n (length r)); [|done].
  intros; simplify_eq. destruct (Nat.leb_spec n (length r + length x)); [|lia].
  by rewrite drop_app_le, take_app_le.
Qed.

Lemma parse_address_ext r port r' port' a x :
  parse_address r port = (r', port', inl a) →
  parse_address (r ++ x) port = (r' ++ x, port', inl a).
Proof.
  unfold parse_address. destruct (ReadFull r port 1) as [[r1 p1] [|]] eqn:E1; [done|].
  rewrite (ReadFull_ext _ _ _ _ _ x E1).
  destruct (ReadFull r1 _ _) as [[r2 p2] [|]] eqn:E2; [done|].
  rewrite (ReadFull_ext _ _ _ _ _ x E2). naive_solver.
Qed.

(** A successful parse does not look beyond what it consumed. *)
Lemma ParseProxyInfo_ext r r' id x :
  ParseProxyInfo r = (r', id, None) → ParseProxyInfo (r ++ x) = (r' ++ x, id, None).
Proof.
  unfold ParseProxyInfo.
  destruct (ReadFull r _ _) as [[r1 p1] [|]] eqn:E1; [done|]. rewrite (ReadFull_ext _ _ _ _ _ x E1).
  destruct (ReadFull r1 _ _) as [[r2 p2] [|]] eqn:E2; [done|]. rewrite (ReadFull_ext _ _ _ _ _ x E2).
  destruct (parse_address r2 _) as [[r3 p3] [|]] eqn:E3; [|done]. rewrite (parse_address_ext _ _ _ _ _ x E3).
  destruct (parse_address r3 _) as [[r4 p4] [|]] eqn:E4; [|done]. rewrite (parse_address_ext _ _ _ _ _ x E4).
  naive_solver.
Qed.

(** A header cut short does not parse. *)
Lemma ParseProxyInfo_cut id n :
  id_wf id → n < length (fst (WriteProxyInfo [] id Written)) →
  ∃ r id' e, ParseProxyInfo (take n (fst (WriteProxyInfo [] id Written))) = (r, id', Some e).
Proof.
  intros Hid Hn. set (h := fst _) in *.
  destruct (ParseProxyInfo (take n h)) as [[r id'] [e|]] eqn:E; [by eauto|exfalso].
  apply (ParseProxyInfo_ext _ _ _ (drop n h)) in E. rewrite take_drop in E.
  pose proof (ParseProxyInfo_app id [] Hid) as E'. fold h in E'. rewrite app_nil_r, E in E'.
  injection E' as E' _. apply (f_equal length) in E'. rewrite length_app, length_drop in E'.
  change (length (@nil byte)) with 0 in E'. lia.
Qed.

(** ** Properties *)

(** The proxy header round trips: for every endpoint identity whose ports are
    16-bit and whose addresses are gvisor addresses (4, 16 or no bytes), parsing
    what [WriteProxyInfo] wrote gives the identity back and leaves exactly the
    payload that follows in the stream. *)
Theorem proxy_info_roundtrip id payload (Hid : id_wf id) :
  ParseProxyInfo (fst (WriteProxyInfo [] id Written) ++ payload) = (payload, id, None).
Proof. by apply ParseProxyInfo_app. Qed.

Definition example_id : TransportEndpointID :=
  MkID 9080 (AddrFromSlice [x0a; xe9; x00; x01]) 51234 (AddrFromSlice (replicate 16 xfe)).

Lemma example_id_wf : id_wf example_id.
Proof. split_and!; try (cbn; lia); eexists; reflexivity. Qed.

Lemma proxy_info_roundtrip_witness :
  ParseProxyInfo (fst (WriteProxyInfo [] example_id Written) ++ [x47; x45; x54])
  = ([x47; x45; x54], example_id, None).
Proof. apply (proxy_info_roundtrip example_id [x47; x45; x54]). exact example_id_wf. Defined.

(** The gvisor UDP proxy dials what the client's stack accepted: fed with the
    header [WriteProxyInfo] produces for [id], the handler dials the address bytes
    and the port of [id]'s local side, with the payload still unread; a stream cut
    anywhere inside the header makes it give up and dial nothing. *)
Theorem gvisor_udp_dials_local id payload
  (Hid : id_wf id) :
  let header := fst (WriteProxyInfo [] id Written) in
  gvisorUDPHandler_Handle (header ++ payload) =
    DialTarget (AsSlice (LocalAddress id)) (LocalPort id) payload ∧
  ∀ n, n < length header → ∃ e, gvisorUDPHandler_Handle (take n header) = GiveUp e.
Proof.
  cbv zeta. unfold gvisorUDPHandler_Handle. split.
  - by rewrite ParseProxyInfo_app.
  - intros n (r & id' & e & ->)%ParseProxyInfo_cut; eauto.
Qed.

Lemma gvisor_udp_dials_local_witness :
  gvisorUDPHandler_Handle (fst (WriteProxyInfo [] example_id Written) ++ [x01]) =
    DialTarget [x0a; xe9; x00; x01] 9080 [x01] ∧
  ∀ n, n < length (fst (WriteProxyInfo [] example_id Written)) →
    ∃ e, gvisorUDPHandler_Handle (take n (fst (WriteProxyInfo [] example_id Written))) = GiveUp e.
Proof. exact (gvisor_udp_dials_local example_id [x01] example_id_wf). Defined.
