(* ===== verification/NatTable.v ===== *)
(** * The route table of the traffic manager

    [pkg/core/tunhandler.go], type [NAT]: for every inner IP (its text form is the
    key) the UDP addresses it was seen from.  [LoadOrStore] reads under the read
    lock, decides outside any lock, and writes under the write lock: it is modelled
    both as a sequential function and as the two atomic steps the goroutines of
    [Peer.parseHeader] interleave.  A [net.Addr] is identified by its [String()],
    the only thing the table uses of it; a nil slice is an absent key. *)
From Stdlib Require Import ZArith Lia.
From Stdlib Require Import Strings.Byte.
From stdpp Require Import base gmap strings list numbers relations.
From S2P Require Import Prelude GoStrings GoNet.

Abbreviation Addr := string.

Record NAT := MkNAT { routes : gmap string (list Addr) }.

Definition NewNAT : NAT := MkNAT ∅.

(** ** Operations *)

Definition same_addr (addr x : Addr) : bool := String.eqb x addr.

(** The inner loop of [RemoveAddr], with its count. *)
Fixpoint remove_addr_from (fuel : nat) (addr : Addr) (v : list Addr) (i count : nat)
  : list Addr * nat :=
  match fuel with
  | O => (v, count)
  | S fuel =>
      match v !! i with
      | None => (v, count)
      | Some x => if same_addr addr x
                  then remove_addr_from fuel addr (remove_at i v) i (S count)
                  else remove_addr_from fuel addr v (S i) count
      end
  end.

(** [RemoveAddr]: every list loses the address; [count] adds up over the keys (in
    any order). *)
Definition RemoveAddr (n : NAT) (addr : Addr) : NAT * nat :=
  let step v := remove_addr_from (length v) addr v 0 0 in
  (MkNAT ((λ v, fst (step v)) <$> routes n),
   map_fold (λ _ v acc, snd (step v) + acc) 0 (routes n)).

(** The two halves of [LoadOrStore]: what it does with the list [addrList] it read
    under the read lock, ... *)
Definition lookup_addr (addrList : option (list Addr)) (addr : Addr) : bool :=
  existsb (same_addr addr) (default [] addrList).

(** ... and the write under the write lock, which still looks at the list that was
    read before. *)
Definition store_addr (n : NAT) (to : string) (addr : Addr) (addrList : option (list Addr)) : NAT :=
  match addrList with
  | None => MkNAT (<[to := [addr]]> (routes n))
  | Some _ => MkNAT (<[to := default [] (routes n !! to) ++ [addr]]> (routes n))
  end.

(** [LoadOrStore] run without interference: the table, the result and [load]. *)
Definition LoadOrStore (n : NAT) (to : list byte) (addr : Addr) : NAT * (Addr * bool) :=
  let addrList := routes n !! IP_String to in
  if lookup_addr addrList addr then (n, (addr, true))
  else (store_addr n (IP_String to) addr addrList, (addr, false)).

(** [RouteTo]: [rnd] stands for the random number, [rand.Intn(len)] its remainder. *)
Definition RouteTo (n : NAT) (ip : list byte) (rnd : nat) : option Addr :=
  let addrList := default [] (routes n !! IP_String ip) in
  if length addrList =? 0 then None
  else addrList !! (rnd `mod` length addrList).

Definition Remove (n : NAT) (ip : list byte) (addr : Addr) : NAT :=
  match routes n !! IP_String ip with
  | None => n
  | Some addrList =>
      MkNAT (<[IP_String ip := remove_loop (same_addr addr) addrList]> (routes n))
  end.

(** [Range f]: the entries [f] is called on (the order is the map's). *)
Definition Range (n : NAT) : list (string * list Addr) := map_to_list (routes n).

(** ** Sequential behaviour *)

Lemma same_addr_spec addr x : same_addr addr x = true ↔ x = addr.
Proof. apply String.eqb_eq. Qed.

Lemma remove_addr_from_spec fuel addr pre v count :
  length v ≤ fuel →
  remove_addr_from fuel addr (pre ++ v) (length pre) count =
    (pre ++ List.filter (λ x, negb (same_addr addr x)) v,
     count + length (List.filter (same_addr addr) v)).
Proof.
  revert pre v count. induction fuel as [|fuel IH]; intros pre v count Hf.
  { destruct v; cbn in *; [f_equal; lia|lia]. }
  destruct v as [|x v]; cbn [remove_addr_from].
  { rewrite lookup_ge_None_2 by (rewrite length_app; cbn; lia).
    cbn. by rewrite Nat.add_0_r. }
  rewrite lookup_app_r, Nat.sub_diag by lia. cbn [lookup list_lookup].
  cbn [length] in Hf. cbn [List.filter]. destruct (same_addr addr x) eqn:E; cbn [negb].
  - replace (remove_at (length pre) (pre ++ x :: v)) with (pre ++ v).
    + rewrite IH by lia. f_equal. cbn [length]. lia.
    + unfold remove_at. rewrite take_app_length, drop_app_ge by lia.
      by rewrite Nat.sub_succ_l, Nat.sub_diag by lia.
  - specialize (IH (pre ++ [x]) v count). rewrite length_app, <-!app_assoc in IH.
    cbn in IH. rewrite Nat.add_1_r in IH. apply IH. lia.
Qed.

Lemma remove_addr_loop addr v :
  remove_addr_from (length v) addr v 0 0 =
    (List.filter (λ x, negb (same_addr addr x)) v, length (List.filter (same_addr addr) v)).
Proof. apply (remove_addr_from_spec (length v) addr [] v 0). lia. Qed.

Lemma lookup_addr_spec l addr : lookup_addr l addr = true ↔ addr ∈ default [] l.
Proof.
  unfold lookup_addr. rewrite existsb_exists, list_elem_of_In.
  split; [intros (x & Hx & ->%same_addr_spec); done|].
  intros. exists addr. split; [done|]. by apply same_addr_spec.
Qed.

Lemma store_addr_lookup n to addr l :
  addr ∈ default [] (routes (store_addr n to addr l) !! to).
Proof. destruct l; cbn; rewrite lookup_insert_eq; cbn; set_solver. Qed.

Lemma store_addr_other n to to' addr l :
  to ≠ to' → routes (store_addr n to addr l) !! to' = routes n !! to'.
Proof. intros. destruct l; cbn; by rewrite lookup_insert_ne. Qed.

(** No address is twice in a list. *)
Definition nat_wf (n : NAT) : Prop := ∀ k l, routes n !! k = Some l → NoDup l.

Lemma NoDup_List_filter {A} (p : A → bool) (l : list A) : NoDup l → NoDup (List.filter p l).
Proof.
  induction 1 as [|x l Hx Hl IH]; cbn; [constructor|].
  destruct (p x); [|done]. constructor; [|done].
  rewrite list_elem_of_In, filter_In, <-list_elem_of_In. tauto.
Qed.

Inductive nat_op :=
  | OpLoadOrStore (to : list byte) (addr : Addr)
  | OpRemove (ip : list byte) (addr : Addr)
  | OpRemoveAddr (addr : Addr).

Definition run_op (n : NAT) (o : nat_op) : NAT :=
  match o with
  | OpLoadOrStore to addr => fst (LoadOrStore n to addr)
  | OpRemove ip addr => Remove n ip addr
  | OpRemoveAddr addr => fst (RemoveAddr n addr)
  end.

Lemma RemoveAddr_lookup n addr k :
  routes (fst (RemoveAddr n addr)) !! k =
    (λ v, List.filter (λ x, negb (same_addr addr x)) v) <$> (routes n !! k).
Proof.
  cbn. rewrite lookup_fmap. destruct (routes n !! k) as [v|]; [|done]. cbn. f_equal.
  by rewrite remove_addr_loop.
Qed.

Lemma Remove_lookup n ip addr k :
  routes (Remove n ip addr) !! k =
    if bool_decide (k = IP_String ip)
    then remove_loop (same_addr addr) <$> (routes n !! k) else routes n !! k.
Proof.
  unfold Remove. case_bool_decide as Hk; [subst|];
    destruct (routes n !! IP_String ip) as [v|] eqn:E; cbn; rewrite ?E; try done.
  - by rewrite lookup_insert_eq.
  - by rewrite lookup_insert_ne.
Qed.

Lemma LoadOrStore_wf n to addr : nat_wf n → nat_wf (fst (LoadOrStore n to addr)).
Proof.
  intros Hwf k l. unfold LoadOrStore. destruct (lookup_addr _ _) eqn:E; [apply Hwf|].
  destruct (decide (IP_String to = k)) as [<-|Hne]; cbn [fst];
    [|rewrite store_addr_other by done; apply Hwf].
  assert (addr ∉ default [] (routes n !! IP_String to)) as Hni.
  { rewrite <-lookup_addr_spec, E. done. }
  destruct (routes n !! IP_String to) as [v|] eqn:Ev; cbn; rewrite lookup_insert_eq;
    intros; simplify_eq; cbn in *.
  - rewrite Ev. cbn. apply NoDup_app. split_and!; [by eapply Hwf| |apply NoDup_singleton].
    set_solver.
  - apply NoDup_singleton.
Qed.

Lemma run_op_wf n o : nat_wf n → nat_wf (run_op n o).
Proof.
  intros Hwf. destruct o as [to addr|ip addr|addr]; cbn [run_op].
  - by apply LoadOrStore_wf.
  - intros k l. rewrite Remove_lookup. case_bool_decide; [|apply Hwf].
    rewrite fmap_Some. intros (v & Hv & ->). rewrite remove_loop_filter.
    eapply NoDup_List_filter, Hwf, Hv.
  - intros k l. rewrite RemoveAddr_lookup, fmap_Some. intros (v & Hv & ->).
    eapply NoDup_List_filter, Hwf, Hv.
Qed.

Lemma RouteTo_elem n ip rnd addr :
  RouteTo n ip rnd = Some addr → addr ∈ default [] (routes n !! IP_String ip).
Proof. unfold RouteTo. case_match; [done|]. apply list_elem_of_lookup_2. Qed.

Lemma RouteTo_is_Some n ip rnd addr :
  addr ∈ default [] (routes n !! IP_String ip) → is_Some (RouteTo n ip rnd).
Proof.
  unfold RouteTo. intros Hin. destruct (default [] _) as [|x v]; [set_solver|].
  cbn [length Nat.eqb]. apply lookup_lt_is_Some. apply Nat.mod_upper_bound. cbn. lia.
Qed.

(** ** Properties *)

(** Sequential use keeps the table free of duplicates: after any sequence of
    [LoadOrStore], [Remove] and [RemoveAddr] on a new table, no address occurs
    twice for an inner IP, so the random choice of [RouteTo] is fair per peer. *)
Theorem nat_no_duplicates ops : nat_wf (fold_left run_op ops NewNAT).
Proof.
  assert (∀ n, nat_wf n → nat_wf (fold_left run_op ops n)) as H.
  { induction ops as [|o ops IH]; intros n Hn; [done|]. apply IH. by apply run_op_wf. }
  apply H. intros k l. cbn. by rewrite lookup_empty.
Qed.

(** [LoadOrStore] learns a route: afterwards the inner IP routes to some
    address for every random number, to the learnt one if it is the only one; the
    flag says whether the address was known; routes of other IPs are unchanged. *)
Theorem LoadOrStore_learns n to addr ip rnd
  (Hne : IP_String ip ≠ IP_String to) :
  let '(n', (result, load)) := LoadOrStore n to addr in
  result = addr ∧
  (load = true ↔ addr ∈ default [] (routes n !! IP_String to)) ∧
  is_Some (RouteTo n' to rnd) ∧
  (routes n !! IP_String to = None → RouteTo n' to rnd = Some addr) ∧
  RouteTo n' ip rnd = RouteTo n ip rnd.
Proof.
  unfold LoadOrStore. destruct (lookup_addr _ _) eqn:E; split_and!; try done.
  - rewrite <-lookup_addr_spec. by rewrite E.
  - eapply RouteTo_is_Some. by apply lookup_addr_spec.
  - intros En. by rewrite En in E.
  - rewrite <-lookup_addr_spec. by rewrite E.
  - eapply RouteTo_is_Some, store_addr_lookup.
  - intros En. rewrite En. unfold RouteTo. cbn. rewrite lookup_insert_eq. cbn.
    done.
  - unfold RouteTo. by rewrite store_addr_other.
Qed.

Lemma LoadOrStore_learns_witness :
  RouteTo (fst (LoadOrStore NewNAT (IPv4 xdf xfe x00 x65) "10.0.0.1:5000"))
    (IPv4 xdf xfe x00 x65) 7 = Some "10.0.0.1:5000"%string.
Proof.
  refine (proj1 (proj2 (proj2 (proj2
    (LoadOrStore_learns NewNAT (IPv4 xdf xfe x00 x65) "10.0.0.1:5000"
       (IPv4 xdf xfe x00 x66) 7 _)))) _).
  - vm_compute. discriminate.
  - vm_compute. reflexivity.
Defined.

(** [RemoveAddr] forgets a peer completely: no inner IP routes to the address
    any more, every other route survives, and the count is the number of entries
    removed. *)
Theorem RemoveAddr_forgets n addr :
  let '(n', count) := RemoveAddr n addr in
  (∀ ip rnd, RouteTo n' ip rnd ≠ Some addr) ∧
  (∀ k b, b ≠ addr →
     (b ∈ default [] (routes n' !! k) ↔ b ∈ default [] (routes n !! k))) ∧
  count = map_fold (λ _ v acc, length (List.filter (same_addr addr) v) + acc) 0 (routes n).
Proof.
  cbv beta iota delta [RemoveAddr]. change (MkNAT _) with (fst (RemoveAddr n addr)).
  assert (∀ k b, b ∈ default [] (routes (fst (RemoveAddr n addr)) !! k) ↔
                 b ∈ default [] (routes n !! k) ∧ b ≠ addr) as Hk.
  { intros k b. rewrite RemoveAddr_lookup. destruct (routes n !! k) as [v|]; cbn; [|set_solver].
    rewrite !list_elem_of_In, filter_In, negb_true_iff.
    rewrite <-not_true_iff_false, same_addr_spec. done. }
  split_and!.
  - intros ip rnd [_ ?]%RouteTo_elem%Hk. done.
  - intros k b Hb. rewrite Hk. tauto.
  - rewrite !map_fold_foldr. induction (map_to_list (routes n)) as [|[k v] l IH]; [done|].
    cbn. by rewrite IH, remove_addr_loop.
Qed.

(** ** Interleaved [LoadOrStore]

    Each goroutine is idle or between the two locked regions of [LoadOrStore],
    holding the list it read.  [seen] is a ghost: the (inner IP, address) pairs
    [LoadOrStore] was called with. *)
Inductive thread :=
  | TIdle
  | TLoaded (to : string) (addr : Addr) (addrList : option (list Addr)).

Record sys := MkSys { table : NAT; threads : list thread; seen : list (string * Addr) }.

Definition init_sys (k : nat) : sys := MkSys NewNAT (replicate k TIdle) [].

Inductive nat_step : sys → sys → Prop :=
  | step_load s i to addr :
      threads s !! i = Some TIdle →
      nat_step s (MkSys (table s)
                        (<[i := TLoaded to addr (routes (table s) !! to)]> (threads s))
                        ((to, addr) :: seen s))
  | step_found s i to addr l :
      threads s !! i = Some (TLoaded to addr l) → lookup_addr l addr = true →
      nat_step s (MkSys (table s) (<[i := TIdle]> (threads s)) (seen s))
  | step_store s i to addr l :
      threads s !! i = Some (TLoaded to addr l) → lookup_addr l addr = false →
      nat_step s (MkSys (store_addr (table s) to addr l) (<[i := TIdle]> (threads s)) (seen s))
  | step_remove s addr :
      nat_step s (MkSys (fst (RemoveAddr (table s) addr)) (threads s) (seen s)).

(** Everything in the table, and everything about to be stored, was asked for. *)
Definition sound (s : sys) : Prop :=
  (∀ k a, a ∈ default [] (routes (table s) !! k) → (k, a) ∈ seen s) ∧
  (∀ i to addr l, threads s !! i = Some (TLoaded to addr l) → (to, addr) ∈ seen s).

Lemma store_addr_elem n to addr l k a :
  a ∈ default [] (routes (store_addr n to addr l) !! k) →
  a ∈ default [] (routes n !! k) ∨ (k = to ∧ a = addr).
Proof.
  destruct (decide (to = k)) as [->|]; [|rewrite store_addr_other by done; tauto].
  destruct l; cbn; rewrite lookup_insert_eq; cbn; set_solver.
Qed.

Lemma sound_step s s' : nat_step s s' → sound s → sound s'.
Proof.
  intros Hs [Ht Hp]. inv Hs as [? i to addr Hi|? i to addr l Hi _|? i to addr l Hi _|? addr];
    (split; cbn [table threads seen]; [intros k a Ha|intros j to' addr' l' Hj]).
  - apply list_elem_of_further. by apply Ht.
  - destruct (decide (i = j)) as [<-|Hne].
    + rewrite list_lookup_insert_eq in Hj by (by eapply lookup_lt_Some). simplify_eq. left.
    + rewrite list_lookup_insert_ne in Hj by done. apply list_elem_of_further. by eapply Hp.
  - by apply Ht.
  - apply list_lookup_insert_Some in Hj as [(_ & ? & _)|[_ Hj]]; [done|by eapply Hp].
  - apply store_addr_elem in Ha as [Ha|[-> ->]]; [by apply Ht|by eapply Hp].
  - apply list_lookup_insert_Some in Hj as [(_ & ? & _)|[_ Hj]]; [done|by eapply Hp].
  - apply Ht. rewrite RemoveAddr_lookup in Ha.
    destruct (routes (table s) !! k); cbn in *; [|set_solver].
    apply list_elem_of_In, filter_In in Ha as [Ha _]. by apply list_elem_of_In.
  - by eapply Hp.
Qed.

(** Under every interleaving of any number of goroutines, the table only holds
    routes that some packet announced: if [a] is listed for [k], then
    [LoadOrStore(k, a)] was called. *)
Theorem nat_interleaving_sound t s
  (Hr : rtc nat_step (init_sys t) s) :
  ∀ k a, a ∈ default [] (routes (table s) !! k) → (k, a) ∈ seen s.
Proof.
  cut (sound s); [by intros []|].
  assert (sound (init_sys t)) as H0.
  { split; cbn.
    - intros k a. rewrite lookup_empty. cbn. set_solver.
    - intros i to addr l H%lookup_replicate_1. naive_solver. }
  induction Hr; eauto using sound_step.
Qed.

Lemma nat_interleaving_sound_witness :
  ("223.254.0.101", "10.0.0.1:5000")%string ∈ [("223.254.0.101", "10.0.0.1:5000")]%string.
Proof.
  refine (nat_interleaving_sound 2
    (MkSys (store_addr NewNAT "223.254.0.101" "10.0.0.1:5000" None) [TIdle; TIdle]
       [("223.254.0.101", "10.0.0.1:5000")]%string) _ "223.254.0.101" "10.0.0.1:5000" _).
  - eapply rtc_l; [apply (step_load _ 0 "223.254.0.101"%string "10.0.0.1:5000"%string); reflexivity|].
    eapply rtc_l; [eapply (step_store _ 0); reflexivity|].
    apply rtc_refl.
  - apply store_addr_lookup.
Defined.

(** [LoadOrStore] is not atomic: two goroutines that both find no entry for the
    same inner IP overwrite each other, and the route of the first is lost although
    its [LoadOrStore] completed.  With no interference between its two steps the
    operation is exactly the sequential one. *)
Theorem LoadOrStore_lost_update k a b
  (Hab : a ≠ b) :
  (∃ s, rtc nat_step (init_sys 2) s ∧
        threads s = [TIdle; TIdle] ∧ seen s = [(k, b); (k, a)] ∧
        routes (table s) !! k = Some [b] ∧ a ∉ default [] (routes (table s) !! k)) ∧
  (∀ n to addr,
     let l := routes n !! IP_String to in
     fst (LoadOrStore n to addr) =
       if lookup_addr l addr then n else store_addr n (IP_String to) addr l).
Proof.
  split.
  - exists (MkSys (store_addr (store_addr NewNAT k a None) k b None)
                  [TIdle; TIdle] [(k, b); (k, a)]).
    assert (routes (store_addr (store_addr NewNAT k a None) k b None) !! k = Some [b]) as Hk
      by apply (lookup_insert_eq (M := gmap string)).
    split_and!; [|done|done|done|cbn [table]; rewrite Hk; set_solver].
    eapply rtc_l; [apply (step_load _ 0 k a); done|].
    eapply rtc_l; [apply (step_load _ 1 k b); done|].
    eapply rtc_l; [eapply (step_store _ 0 k a); done|].
    eapply rtc_l; [eapply (step_store _ 1 k b); done|].
    apply rtc_refl.
  - intros n to addr. unfold LoadOrStore. by destruct (lookup_addr _ _).
Qed.

Lemma LoadOrStore_lost_update_witness :
  ∃ s, rtc nat_step (init_sys 2) s ∧
       threads s = [TIdle; TIdle] ∧
       seen s = [("223.254.0.101", "10.0.0.2:2"); ("223.254.0.101", "10.0.0.1:1")]%string ∧
       routes (table s) !! "223.254.0.101"%string = Some ["10.0.0.2:2"]%string ∧
       "10.0.0.1:1"%string ∉ default [] (routes (table s) !! "223.254.0.101"%string).
Proof.
  refine (proj1 (LoadOrStore_lost_update "223.254.0.101" "10.0.0.1:1" "10.0.0.2:2" _)).
  discriminate.
Defined.
