(* ===== verification/Tunnel.v ===== *)
(** * The tunnel's data plane

    [pkg/core/tunhandler.go], [tcphandler.go], [tunhandlerclient.go] and
    [tunendpoint.go]: packets read from the TUN device, from UDP peers or from TCP
    peers are parsed for their addresses and sent on to a UDP peer, a TCP peer or
    the TUN device.  Each goroutine is the fold of a step function over what its
    channel delivers; a packet is a pool buffer ([data], 65535 bytes) and a length.
    Slicing a slice is checked against its capacity (the whole buffer), indexing
    against its length: both are modelled. *)
From Stdlib Require Import ZArith Lia.
From Stdlib Require Import Strings.Byte.
From stdpp Require Import base gmap strings list numbers.
From S2P Require Import Prelude GoStrings GoNet Config Framing NatTable.

(** [DataElem] and [udpElem] ([from] is the UDP source, empty for packets that did
    not come from a UDP socket). *)
Record DataElem := MkElem {
  el_from : Addr; el_data : list byte; el_length : nat; el_src : list byte; el_dst : list byte }.

Definition payload (e : DataElem) : list byte := take (el_length e) (el_data e).
Definition with_ips (e : DataElem) (src dst : list byte) : DataElem :=
  MkElem (el_from e) (el_data e) (el_length e) src dst.

(** ** Headers *)

Definition version (b : byte) : Z := Z.shiftr (b2z b) 4.

(** [util.IsIPv4] / [util.IsIPv6]: [packet[0]] panics on an empty packet. *)
Definition IsIPv4 (packet : list byte) : outcome bool :=
  match packet with [] => Panic | b :: _ => Ret (4 =? version b)%Z end.
Definition IsIPv6 (packet : list byte) : outcome bool :=
  match packet with [] => Panic | b :: _ => Ret (6 =? version b)%Z end.

(** [net.IPv4(b[i], b[i+1], b[i+2], b[i+3])]. *)
Definition ipv4_at (b : list byte) (i : nat) : outcome (list byte) :=
  match b !! i, b !! (i + 1), b !! (i + 2), b !! (i + 3) with
  | Some w, Some x, Some y, Some z => Ret (IPv4 w x y z)
  | _, _, _, _ => Panic
  end.

(** [b[lo:hi]] where [b] is the front of the buffer [data]: the bound is the
    capacity. *)
Definition slice (data : list byte) (lo hi : nat) : outcome (list byte) :=
  if hi <=? length data then Ret (drop lo (take hi data)) else Panic.

(** The header parsing shared by [Device.parseIPHeader], [Peer.parseHeader] and
    [Peer.readFromTCPConn]: source and destination, [None] for an unknown packet. *)
Definition parse_ips (data : list byte) (len : nat) : outcome (option (list byte * list byte)) :=
  let b := take len data in
  v4 ← IsIPv4 b;
  if (v4 : bool) then
    src ← ipv4_at b 12; dst ← ipv4_at b 16; Ret (Some (src, dst))
  else
    v6 ← IsIPv6 b;
    if (v6 : bool) then
      src ← slice data 8 24; dst ← slice data 24 40; Ret (Some (src, dst))
    else Ret None.

(** [Device.parseIPHeader], one packet of [tunInboundRaw]: what goes to
    [tunInbound] ([None]: unknown packet, dropped). *)
Definition parseIPHeader (e : DataElem) : outcome (option DataElem) :=
  o ← parse_ips (el_data e) (el_length e);
  Ret (option_map (λ ips, with_ips e (fst ips) (snd ips)) o).

(** [Peer.readFromTCPConn], one frame of [Chan]: the frame's [Data] is the whole
    buffer, and the addresses are read from it. *)
Definition readFromTCPConn (packet : datagramPacket) : outcome (option DataElem) :=
  let u := MkElem "" (Data packet) (Z.to_nat (DataLength packet)) [] [] in
  o ← parse_ips (Data packet) (length (Data packet));
  Ret (option_map (λ ips, with_ips u (fst ips) (snd ips)) o).

(** [Peer.parseHeader], one packet: each goroutine keeps the flags [firstIPv4] and
    [firstIPv6] and teaches the route table the packet's origin while one is set. *)
Definition parseHeader (flags : bool * bool) (n : NAT) (e : DataElem)
  : outcome (bool * bool * NAT * option DataElem) :=
  o ← parse_ips (el_data e) (el_length e);
  match o with
  | None => Ret (flags, n, None)
  | Some (src, dst) =>
      let e := with_ips e src dst in
      let '(firstIPv4, firstIPv6) := flags in
      if firstIPv4 || firstIPv6 then
        v4 ← IsIPv4 (payload e);
        let flags := if (v4 : bool) then (false, firstIPv6) else (firstIPv4, false) in
        Ret (flags, fst (LoadOrStore n (el_src e) (el_from e)), Some e)
      else Ret (flags, n, Some e)
  end.

(** ** Routing *)

(** Connections are compared by identity. *)
Abbreviation Conn := nat.
Abbreviation ConnNAT := (gmap string nat).

Inductive action :=
  | SendUDP (addr : Addr) (bytes : list byte)
  | SendConn (c : Conn) (d : datagramPacket)
  | ToTun (e : DataElem)
  | NoRoute.

(** What one iteration did: the action, whether the buffer went back to the pool,
    and the error that ends the goroutine, if any. *)
Record routed := MkRouted { r_action : action; r_put : bool; r_stop : option error }.

(** [Peer.routePeer], one packet; [werr] is the error of the write, if it fails. *)
Definition routePeer (n : NAT) (conns : ConnNAT) (rnd : nat) (werr : option error)
    (e : DataElem) : routed :=
  match RouteTo n (el_dst e) rnd with
  | Some addr => MkRouted (SendUDP addr (payload e)) true werr
  | None =>
      match conns !! IP_String (el_dst e) with
      | Some conn =>
          let dgram := newDatagramPacket (payload e) in
          match werr with
          | Some err => MkRouted (SendConn conn dgram) false (Some err)
          | None => MkRouted (SendConn conn dgram) true None
          end
      | None =>
          MkRouted (ToTun (MkElem "" (el_data e) (el_length e) (el_src e) (el_dst e))) false None
      end
  end.

(** [Peer.routeTUN], one packet. *)
Definition routeTUN (n : NAT) (conns : ConnNAT) (rnd : nat) (werr : option error)
    (e : DataElem) : routed :=
  match RouteTo n (el_dst e) rnd with
  | Some addr => MkRouted (SendUDP addr (payload e)) true werr
  | None =>
      match conns !! IP_String (el_dst e) with
      | Some conn => MkRouted (SendConn conn (newDatagramPacket (payload e))) true werr
      | None => MkRouted NoRoute true None
      end
  end.

(** [transportTunClient], first goroutine: a packet addressed to its own source is
    looped back to the device, any other goes to the server as one datagram. *)
Inductive client_action := LoopBack (e : DataElem) | ToServer (bytes : list byte) (put : bool).

Definition transportTunClient_out (e : DataElem) : client_action :=
  if IP_Equal (el_src e) (el_dst e) then LoopBack e
  else ToServer (payload e) true.

(** ** The TCP server side, [fakeUdpHandler.Handle] *)

(** [connNAT.LoadOrStore(src.String(), tcpConn)] and the replacement that follows. *)
Definition learn_conn (conns : ConnNAT) (src : string) (conn : Conn) : ConnNAT :=
  match conns !! src with
  | Some value => if conn =? value then conns else <[src := conn]> conns
  | None => <[src := conn]> conns
  end.

(** The source of a frame: [bb] is [dgram.Data[:dgram.DataLength]], and [bb[8:24]]
    is checked against the whole buffer. *)
Definition frame_src (dgram : datagramPacket) : outcome (option (list byte)) :=
  let bb := take (Z.to_nat (DataLength dgram)) (Data dgram) in
  v4 ← IsIPv4 bb;
  if (v4 : bool) then src ← ipv4_at bb 12; Ret (Some src)
  else
    v6 ← IsIPv6 bb;
    if (v6 : bool) then src ← slice (Data dgram) 8 24; Ret (Some src) else Ret None.

(** The loop: frames are read until the stream ends ([ctx] is not cancelled);
    [pool i] is the content of the buffer the [i]-th [LPool.Get] returns.  Every
    turn consumes at least the two bytes of a length, so [length r + 1] turns are
    enough; [None] is running out of fuel.  The result is the table, the frames
    sent to [Chan] and how the loop ended. *)
Fixpoint handle_loop (fuel : nat) (pool : nat → list byte) (i : nat) (conn : Conn)
    (r : list byte) (conns : ConnNAT) (ch : list datagramPacket)
  : ConnNAT * list datagramPacket * option (outcome error) :=
  match fuel with
  | O => (conns, ch, None)
  | S fuel =>
      match readDatagramPacketServer r (pool i) with
      | (_, _, Fail e) => (conns, ch, Some (Ret e))
      | (_, _, Panic) => (conns, ch, Some Panic)
      | (r, _, Ret dgram) =>
          match frame_src dgram with
          | Panic => (conns, ch, Some Panic)
          | Fail e => (conns, ch, Some (Fail e))
          | Ret None => handle_loop fuel pool (S i) conn r conns ch
          | Ret (Some src) =>
              handle_loop fuel pool (S i) conn r (learn_conn conns (IP_String src) conn)
                (ch ++ [dgram])
          end
      end
  end.

(** The deferred cleanup: [Range] collects the keys of this connection, then each is
    [Delete]d.  Here the two follow each other at once; the code gives other handlers the
    chance to store between them, and then deletes what they stored
    ([cleanup_deletes_newcomer]). *)
Definition conn_keys (conns : ConnNAT) (conn : Conn) : list string :=
  fst <$> List.filter (λ kv : string * Conn, snd kv =? conn) (map_to_list conns).
Definition delete_keys (keys : list string) (conns : ConnNAT) : ConnNAT := fold_left (λ m key, delete key m) keys conns.
Definition forget_conn (conns : ConnNAT) (conn : Conn) : ConnNAT := delete_keys (conn_keys conns conn) conns.

Definition fakeUdpHandler_Handle (pool : nat → list byte) (conn : Conn) (r : list byte)
    (conns : ConnNAT) : ConnNAT * list datagramPacket * option (outcome error) :=
  let '(conns, ch, o) := handle_loop (S (length r)) pool 0 conn r conns [] in
  (forget_conn conns conn, ch, o).

(** ** The client's TUN endpoint, [tunEndpoint.Attach]

    [ipv4.ParseHeader] and [ipv6.ParseHeader] are those of [golang.org/x/net]:
    protocol, source and destination, [None] when the header is too short. *)
Definition parse_v4_header (b : list byte) : option (Z * list byte * list byte) :=
  if length b <? 20 then None
  else match b with
  | b0 :: _ =>
      if (Z.of_nat (length b) <? Z.shiftl (Z.land (b2z b0) 15) 2)%Z then None
      else match b !! 9, ipv4_at b 12, ipv4_at b 16 with
      | Some p, Ret src, Ret dst => Some (b2z p, src, dst)
      | _, _, _ => None
      end
  | [] => None
  end.

Definition parse_v6_header (b : list byte) : option (Z * list byte * list byte) :=
  if length b <? 40 then None
  else match b !! 6 with
  | Some p => Some (b2z p, drop 8 (take 24 b), drop 24 (take 40 b))
  | None => None
  end.

(** [config.Engine] is a string; any other value than these two behaves as raw. *)
Abbreviation Engine := string.
Definition EngineGvisor : Engine := "gvisor".
Definition EngineMix : Engine := "mix".

Inductive endpoint_action :=
  | InjectInbound (bytes : list byte)
  | ToInbound (bytes src dst : list byte)
  | Skip.

Definition IPProtocolTCP : Z := 6.
Definition IPProtocolUDP : Z := 17.
Definition IPProtocolUDPLite : Z := 136.

(** One packet read from the TUN device, [read] bytes at the front of [bytes];
    [cidr] and [cidr6] are [config.CIDR] and [config.CIDR6]. *)
Definition endpoint_read (engine : Engine) (cidr cidr6 : IPNet) (bytes : list byte) : endpoint_action :=
  match bytes with
  | [] => Skip
  | b0 :: _ =>
      let parsed := if (version b0 =? 4)%Z then parse_v4_header bytes
                    else if (version b0 =? 6)%Z then parse_v6_header bytes
                    else None in
      match parsed with
      | None => Skip
      | Some (proto, src, dst) =>
          if ((proto =? IPProtocolUDP)%Z || (proto =? IPProtocolUDPLite)%Z ||
              (proto =? IPProtocolTCP)%Z) &&
             (String.eqb engine EngineGvisor ||
              (String.eqb engine EngineMix &&
               (negb (IPNet_Contains cidr dst) && negb (IPNet_Contains cidr6 dst))))
          then InjectInbound bytes
          else ToInbound bytes src dst
      end
  end.

(** ** Lemmas on headers *)

Lemma IsIPv4_cons b bs : IsIPv4 (b :: bs) = Ret (4 =? version b)%Z.
Proof. done. Qed.

Lemma ipv4_at_panic b i : ipv4_at b i = Panic ↔ length b < i + 4.
Proof.
  unfold ipv4_at. split.
  - intros H. destruct (decide (length b < i + 4)) as [|Hge]; [done|exfalso].
    destruct (lookup_lt_is_Some_2 b i) as [? E0]; [lia|].
    destruct (lookup_lt_is_Some_2 b (i + 1)) as [? E1]; [lia|].
    destruct (lookup_lt_is_Some_2 b (i + 2)) as [? E2]; [lia|].
    destruct (lookup_lt_is_Some_2 b (i + 3)) as [? E3]; [lia|].
    by rewrite E0, E1, E2, E3 in H.
  - intros Hlt. rewrite (lookup_ge_None_2 b (i + 3)) by lia. by repeat case_match.
Qed.

Lemma ipv4_at_not_Fail b i e : ipv4_at b i ≠ Fail e.
Proof. unfold ipv4_at. by repeat case_match. Qed.

Lemma ipv4_at_Ret b i : i + 4 ≤ length b → ipv4_at b i = Ret (v4InV6Prefix ++ take 4 (drop i b)).
Proof.
  intros Hl. unfold ipv4_at.
  destruct (lookup_lt_is_Some_2 b i) as [w E0]; [lia|].
  destruct (lookup_lt_is_Some_2 b (i + 1)) as [x E1]; [lia|].
  destruct (lookup_lt_is_Some_2 b (i + 2)) as [y E2]; [lia|].
  destruct (lookup_lt_is_Some_2 b (i + 3)) as [z E3]; [lia|].
  rewrite E0, E1, E2, E3. unfold IPv4. f_equal. f_equal.
  rewrite (drop_S b w i), (drop_S b x (S i)), (drop_S b y (S (S i))),
    (drop_S b z (S (S (S i)))) by (rewrite <-?E0, <-?E1, <-?E2, <-?E3; f_equal; lia).
  done.
Qed.

(** When the header parsing of a pool buffer panics: the packet is empty, or it is
    an IPv4 packet shorter than its fixed header. *)
Definition header_crashes (packet : list byte) : bool :=
  match packet with
  | [] => true
  | b :: _ => (4 =? version b)%Z && (length packet <? 20)
  end.

Lemma slice_Ret data lo hi : hi ≤ length data → slice data lo hi = Ret (drop lo (take hi data)).
Proof. intros H%Nat.leb_le. unfold slice. by rewrite H. Qed.

Lemma parse_ips_crash data len :
  Z.of_nat (length data) = LargeBufferSize →
  (parse_ips data len = Panic ↔ header_crashes (take len data) = true).
Proof.
  intros Hd. change LargeBufferSize with 65535%Z in Hd. unfold parse_ips, header_crashes.
  destruct (take len data) as [|b0 b] eqn:Eb; [done|]. rewrite IsIPv4_cons. cbn [mbind outcome_bind].
  destruct (4 =? version b0)%Z; cbn [andb].
  - rewrite Nat.ltb_lt.
    destruct (ipv4_at (b0 :: b) 12) as [src|e|] eqn:E1; cbn [mbind outcome_bind].
    + destruct (ipv4_at (b0 :: b) 16) as [dst|e|] eqn:E2; cbn [mbind outcome_bind].
      * split; [done|]. intros H. by rewrite (proj2 (ipv4_at_panic _ 16)) in E2.
      * by apply ipv4_at_not_Fail in E2.
      * apply ipv4_at_panic in E2. split; [lia|done].
    + by apply ipv4_at_not_Fail in E1.
    + apply ipv4_at_panic in E1. split; [lia|done].
  - change (IsIPv6 (b0 :: b)) with (Ret (6 =? version b0)%Z). cbn [mbind outcome_bind].
    destruct (6 =? version b0)%Z; [rewrite !slice_Ret by lia|]; done.
Qed.

(** ** Lemmas on connections *)

Lemma learn_conn_insert conns src conn : learn_conn conns src conn = <[src := conn]> conns.
Proof.
  unfold learn_conn. destruct (conns !! src) as [v|] eqn:E; [|done].
  destruct (Nat.eqb_spec conn v) as [->|]; [|done]. by rewrite insert_id.
Qed.

Lemma fold_delete_lookup (keys : list string) (m : ConnNAT) k :
  fold_left (λ m key, delete key m) keys m !! k = if decide (k ∈ keys) then None else m !! k.
Proof.
  revert m. induction keys as [|key keys IH]; intros m; cbn [fold_left].
  { by rewrite decide_False by set_solver. }
  rewrite IH. destruct (decide (k ∈ keys)) as [Hk|Hk].
  { by rewrite decide_True by set_solver. }
  destruct (decide (key = k)) as [->|Hne].
  - rewrite lookup_delete_eq, decide_True by set_solver. done.
  - rewrite lookup_delete_ne, decide_False by set_solver. done.
Qed.

Lemma forget_conn_lookup conns conn k :
  forget_conn conns conn !! k =
    if decide (conns !! k = Some conn) then None else conns !! k.
Proof.
  unfold forget_conn, delete_keys, conn_keys. rewrite fold_delete_lookup.
  assert (k ∈ fst <$> List.filter (λ kv : string * Conn, snd kv =? conn) (map_to_list conns)
          ↔ conns !! k = Some conn) as Hk.
  { rewrite list_elem_of_fmap. split.
    - intros ([k' c] & -> & Hin%list_elem_of_In). apply filter_In in Hin as [Hin Hc%Nat.eqb_eq].
      cbn in *. subst. by apply elem_of_map_to_list, list_elem_of_In.
    - intros Hl. exists (k, conn). split; [done|]. apply list_elem_of_In, filter_In.
      rewrite <-list_elem_of_In, elem_of_map_to_list. cbn. by rewrite Nat.eqb_refl. }
  repeat case_decide; tauto.
Qed.

(** When a frame makes [fakeUdpHandler.Handle] panic: it is empty, or it is an IPv4
    packet too short to hold the source address. *)
Definition frame_crashes (d : list byte) : bool :=
  match d with
  | [] => true
  | b :: _ => (4 =? version b)%Z && (length d <? 16)
  end.

Lemma read_server_frame d rest b :
  Z.of_nat (length b) = LargeBufferSize → (Z.of_nat (length d) < 65536)%Z →
  ∃ b', Z.of_nat (length b') = LargeBufferSize ∧ take (length d) b' = d ∧
    readDatagramPacketServer (frame d ++ rest) b =
      (rest, b', Ret (MkDatagram (Z.of_nat (length d)) b')).
Proof.
  intros Hb Hd. change LargeBufferSize with 65535%Z in *.
  eexists. split_and!; cycle 2.
  - unfold readDatagramPacketServer, frame. rewrite <-app_assoc, read_frame_small by lia. done.
  - rewrite length_frame_buffer by lia. done.
  - apply take_app_length.
Qed.

Lemma frame_src_frame d b :
  Z.of_nat (length b) = LargeBufferSize → take (length d) b = d →
  if frame_crashes d then frame_src (MkDatagram (Z.of_nat (length d)) b) = Panic
  else ∃ o, frame_src (MkDatagram (Z.of_nat (length d)) b) = Ret o.
Proof.
  intros Hb Hd. change LargeBufferSize with 65535%Z in Hb.
  unfold frame_src, frame_crashes. cbn [DataLength Data]. rewrite Nat2Z.id, Hd.
  destruct d as [|b0 d]; [done|]. rewrite IsIPv4_cons. cbn [mbind outcome_bind].
  destruct (4 =? version b0)%Z; cbn [andb].
  - destruct (Nat.ltb_spec (length (b0 :: d)) 16) as [Hl|Hl].
    + by rewrite (proj2 (ipv4_at_panic _ 12)) by lia.
    + rewrite ipv4_at_Ret by lia. cbn [mbind outcome_bind]. eauto.
  - change (IsIPv6 (b0 :: d)) with (Ret (6 =? version b0)%Z). cbn [mbind outcome_bind].
    destruct (6 =? version b0)%Z; [rewrite slice_Ret by lia; cbn [mbind outcome_bind]|]; eauto.
Qed.

Definition pool_ok (pool : nat → list byte) : Prop :=
  ∀ i, Z.of_nat (length (pool i)) = LargeBufferSize.

Lemma handle_loop_outcome fuel pool i conn ds conns ch :
  pool_ok pool → Forall (λ d, Z.of_nat (length d) < 65536)%Z ds → length ds < fuel →
  snd (handle_loop fuel pool i conn (concat (frame <$> ds)) conns ch) =
    Some (if existsb frame_crashes ds then Panic else Ret EOF).
Proof.
  intros Hp. revert i ds conns ch. induction fuel as [|fuel IH]; [lia|].
  intros i ds conns ch Hf Hfuel. cbn [handle_loop]. destruct ds as [|d ds].
  - cbn [fmap list_fmap concat]. unfold readDatagramPacketServer, read_frame.
    pose proof (Hp i) as Hi. change LargeBufferSize with 65535%Z in Hi.
    destruct (Nat.ltb_spec (length (pool i)) 2); [lia|].
    by rewrite ReadFull_short by (cbn; lia).
  - apply Forall_cons_1 in Hf as [Hd Hf]. cbn [existsb].
    change (concat (frame <$> d :: ds)) with (frame d ++ concat (frame <$> ds)).
    destruct (read_server_frame d (concat (frame <$> ds)) (pool i) (Hp i) Hd)
      as (b' & Hb' & Ht & ->).
    pose proof (frame_src_frame d b' Hb' Ht) as Hs.
    destruct (frame_crashes d); [by rewrite Hs|]. destruct Hs as [[src|] ->];
      (rewrite IH; [done|done|cbn [length] in Hfuel; lia]).
Qed.

(** What the loop does to the table, for any stream: it only maps keys to this
    connection, the keys are the sources of the frames it forwards, and all of these
    sources are mapped to it. *)
Lemma handle_loop_table fuel pool i conn r conns ch conns' ch' o :
  handle_loop fuel pool i conn r conns ch = (conns', ch', o) →
  (∀ k, conns' !! k = conns !! k ∨ conns' !! k = Some conn) ∧
  (∀ k, conns !! k = Some conn → conns' !! k = Some conn) ∧
  ∃ new, ch' = ch ++ new ∧
    (∀ k, conns' !! k ≠ conns !! k →
       ∃ d src, d ∈ new ∧ frame_src d = Ret (Some src) ∧ IP_String src = k) ∧
    (∀ d src, d ∈ new → frame_src d = Ret (Some src) → conns' !! IP_String src = Some conn).
Proof.
  revert i r conns ch. induction fuel as [|fuel IH]; intros i r conns ch; cbn [handle_loop].
  { intros; simplify_eq. split_and!; [auto|auto|]. exists []. rewrite app_nil_r. set_solver. }
  destruct (readDatagramPacketServer r (pool i)) as [[r' b'] [dgram|e|]];
    [|intros; simplify_eq; split_and!; [auto|auto|]; exists []; rewrite app_nil_r; set_solver..].
  destruct (frame_src dgram) as [[src|]|e|] eqn:Es;
    [|eauto|intros; simplify_eq; split_and!; [auto|auto|]; exists []; rewrite app_nil_r; set_solver..].
  rewrite learn_conn_insert. intros (Hk & Hkeep & new & -> & Hnew & Hsrc)%IH.
  assert (conns' !! IP_String src = Some conn) as Hhere
    by (apply Hkeep, lookup_insert_eq).
  split_and!.
  - intros k. destruct (Hk k) as [E|]; [|auto].
    destruct (decide (IP_String src = k)) as [<-|]; [auto|].
    rewrite lookup_insert_ne in E by done. auto.
  - intros k E. apply Hkeep. destruct (decide (IP_String src = k)) as [<-|].
    + apply lookup_insert_eq.
    + by rewrite lookup_insert_ne.
  - exists (dgram :: new). rewrite <-app_assoc. split; [done|]. split.
    + intros k Hne. destruct (decide (IP_String src = k)) as [<-|Hks].
      { exists dgram, src. split; [left|done]. }
      destruct (Hnew k) as (d & s & Hd & ? & ?); [by rewrite lookup_insert_ne|].
      exists d, s. split; [by right|done].
    + intros d s [->|Hd]%elem_of_cons Hds; [congruence|eauto].
Qed.

(** The packets one goroutine of [parseHeader] handles, in order: the table it
    leaves, the packets it passes on to [routePeer] and its flags; a panic ends it. *)
Fixpoint parseHeader_run (flags : bool * bool) (n : NAT) (es : list DataElem)
  : outcome (bool * bool * NAT * list DataElem) :=
  match es with
  | [] => Ret (flags, n, [])
  | e :: es =>
      '(flags, n, o) ← parseHeader flags n e;
      '(flags, n, out) ← parseHeader_run flags n es;
      Ret (flags, n, match o with Some e => e :: out | None => out end)
  end.

Lemma parseHeader_Ret flags n e flags' n' o :
  parseHeader flags n e = Ret (flags', n', o) →
  match o with
  | None => flags' = flags ∧ n' = n
  | Some e' =>
      el_from e' = el_from e ∧
      if fst flags || snd flags then n' = fst (LoadOrStore n (el_src e') (el_from e))
      else flags' = flags ∧ n' = n
  end.
Proof.
  unfold parseHeader. destruct (parse_ips _ _) as [[[src dst]|]|err|]; cbn [mbind outcome_bind];
    [|naive_solver..]. destruct flags as [f4 f6]. cbn [fst snd].
  destruct (f4 || f6) eqn:Ef.
  - destruct (IsIPv4 _) as [v4| |]; cbn [mbind outcome_bind]; [|done..]. intros; simplify_eq. done.
  - intros; simplify_eq. done.
Qed.

Lemma LoadOrStore_mono n to addr k a :
  a ∈ default [] (routes n !! k) → a ∈ default [] (routes (fst (LoadOrStore n to addr)) !! k).
Proof.
  unfold LoadOrStore. destruct (lookup_addr _ _); cbn [fst]; [done|]. intros Ha.
  destruct (decide (IP_String to = k)) as [<-|]; [|by rewrite store_addr_other].
  destruct (routes n !! IP_String to) as [v|] eqn:E; cbn; rewrite ?lookup_insert_eq, ?E;
    cbn in *; set_solver.
Qed.

Lemma LoadOrStore_elem n to addr :
  addr ∈ default [] (routes (fst (LoadOrStore n to addr)) !! IP_String to).
Proof.
  unfold LoadOrStore. destruct (lookup_addr _ _) eqn:El; cbn [fst].
  - by apply lookup_addr_spec.
  - apply store_addr_lookup.
Qed.

Lemma parseHeader_flags flags n e flags' n' o :
  parseHeader flags n e = Ret (flags', n', o) →
  (fst flags' || snd flags' = true → fst flags || snd flags = true) ∧
  (∀ k a, a ∈ default [] (routes n !! k) → a ∈ default [] (routes n' !! k)) ∧
  (fst flags || snd flags = true → ∀ e', o = Some e' →
     el_from e' ∈ default [] (routes n' !! IP_String (el_src e'))).
Proof.
  intros H%parseHeader_Ret. destruct o as [e'|].
  - destruct H as [Hf H]. destruct (fst flags || snd flags) eqn:Ef.
    + subst n'. split_and!; [done|intros; by apply LoadOrStore_mono|].
      intros _ ? [= <-]. rewrite Hf. apply LoadOrStore_elem.
    + destruct H as [-> ->]. split_and!; [by rewrite Ef|done|done].
  - destruct H as [-> ->]. done.
Qed.

Lemma parseHeader_run_flags flags n es flags' n' out :
  parseHeader_run flags n es = Ret (flags', n', out) →
  (fst flags' || snd flags' = true → fst flags || snd flags = true) ∧
  (∀ k a, a ∈ default [] (routes n !! k) → a ∈ default [] (routes n' !! k)) ∧
  (fst flags' || snd flags' = true → ∀ e', e' ∈ out →
     el_from e' ∈ default [] (routes n' !! IP_String (el_src e'))).
Proof.
  revert flags n flags' n' out.
  induction es as [|e es IH]; intros flags n flags' n' out; cbn [parseHeader_run].
  { intros [= <- <- <-]. split_and!; [done..|set_solver]. }
  intros [[[flags1 n1] o] [E1 H]]%outcome_bind_Ret.
  apply outcome_bind_Ret in H as [[[flags2 n2] out1] [E2 H]]. injection H as <- <- <-.
  apply parseHeader_flags in E1 as (Hf1 & Hm1 & Hl1).
  destruct (IH _ _ _ _ _ E2) as (Hf2 & Hm2 & Hl2). split_and!; [auto|auto|].
  intros Hfl e' He'. destruct o as [e0|]; [|by apply Hl2].
  apply elem_of_cons in He' as [->|He']; [|by apply Hl2].
  apply Hm2, Hl1; auto.
Qed.

(** ** Properties *)

(** Which packets crash a packet goroutine.  [Device.parseIPHeader] and
    [Peer.parseHeader] panic on a packet held in a pool buffer exactly when it is
    empty or is an IPv4 packet of fewer than 20 bytes; a truncated IPv6 packet is
    not rejected, its addresses are read from the stale bytes of the buffer. *)
Theorem header_parsing_panics e flags n
  (Hbuf : Z.of_nat (length (el_data e)) = LargeBufferSize) :
  (parseIPHeader e = Panic ↔ header_crashes (payload e) = true) ∧
  (parseHeader flags n e = Panic ↔ header_crashes (payload e) = true) ∧
  (∀ b rest, payload e = b :: rest → version b = 6%Z →
     parseIPHeader e = Ret (Some (with_ips e (drop 8 (take 24 (el_data e)))
                                             (drop 24 (take 40 (el_data e)))))).
Proof.
  pose proof (parse_ips_crash (el_data e) (el_length e) Hbuf) as Hc. split_and!.
  - rewrite <-Hc. unfold parseIPHeader. destruct (parse_ips _ _); naive_solver.
  - rewrite <-Hc. unfold parseHeader.
    destruct (parse_ips _ _) as [[[src dst]|]|err|] eqn:E; cbn [mbind outcome_bind]; try done.
    destruct flags as [f4 f6]. destruct (f4 || f6); [|done].
    change (payload (with_ips e src dst)) with (payload e). unfold payload.
    unfold parse_ips in E. destruct (take (el_length e) (el_data e)) as [|b0 b]; [done|].
    rewrite IsIPv4_cons. done.
  - intros b rest Hp Hv. unfold parseIPHeader, parse_ips.
    change (take (el_length e) (el_data e)) with (payload e). rewrite Hp, IsIPv4_cons.
    change (IsIPv6 (b :: rest)) with (Ret (6 =? version b)%Z). rewrite Hv.
    change LargeBufferSize with 65535%Z in Hbuf. cbn [mbind outcome_bind Z.eqb Pos.eqb].
    by rewrite !slice_Ret by lia.
Qed.

Definition example_elem (bytes : list byte) : DataElem :=
  MkElem "10.0.0.9:1" (bytes ++ replicate (Z.to_nat LargeBufferSize - length bytes) x00)
    (length bytes) [] [].

Lemma header_parsing_panics_witness :
  header_crashes (payload (example_elem [x45; x00])) = true ∧
  parseIPHeader (example_elem [x45; x00]) = Panic.
Proof.
  split; [vm_compute; reflexivity|].
  apply (header_parsing_panics (example_elem [x45; x00]) (true, true) NewNAT);
    vm_compute; reflexivity.
Defined.

(** The cleanup interleaved with another handler: a client that came back over a new
    connection after [Range] and before [Delete] loses its mapping until it sends again. *)
Lemma cleanup_deletes_newcomer conns conn conn' ip :
  conns !! ip = Some conn → delete_keys (conn_keys conns conn) (<[ip := conn']> conns) !! ip = None.
Proof.
  intros Hc. unfold delete_keys. rewrite fold_delete_lookup. rewrite decide_True; [done|].
  apply list_elem_of_fmap. exists (ip, conn). split; [done|]. apply list_elem_of_In, filter_In.
  split; [by apply list_elem_of_In, elem_of_map_to_list|]. apply Nat.eqb_refl.
Qed.

(** C1. How the server's TCP handler ends: on a stream of frames, whatever they
    hold, [fakeUdpHandler.Handle] returns with [io.EOF] (its fuel suffices) unless
    some frame is empty or is an IPv4 packet shorter than 16 bytes, in which case
    indexing it panics, which ends the whole server process. *)
Theorem tcp_handler_outcome pool conn conns ds
  (Hpool : pool_ok pool) (Hds : Forall (λ d, Z.of_nat (length d) < 65536)%Z ds) :
  snd (fakeUdpHandler_Handle pool conn (concat (frame <$> ds)) conns) =
    Some (if existsb frame_crashes ds then Panic else Ret EOF).
Proof.
  unfold fakeUdpHandler_Handle.
  pose proof (handle_loop_outcome (S (length (concat (frame <$> ds)))) pool 0 conn ds conns []
    Hpool Hds) as H.
  pose proof (length_concat_frames ds).
  destruct (handle_loop _ _ _ _ _ _ _) as [[c ch] o]. cbn [snd] in *. apply H. lia.
Qed.

Definition zero_pool : nat → list byte := λ _, replicate (Z.to_nat LargeBufferSize) x00.

Lemma tcp_handler_outcome_witness :
  snd (fakeUdpHandler_Handle zero_pool 1 (concat (frame <$> [[x60]; []])) ∅) = Some Panic.
Proof.
  apply (tcp_handler_outcome zero_pool 1 ∅ [[x60]; []]).
  - intros i. vm_compute. reflexivity.
  - repeat constructor.
Defined.

(** C5. What a TCP peer leaves behind: when its handler ends, no inner IP is mapped
    to its connection any more, an IP that is still mapped keeps the connection it
    had, and the only mappings lost are this connection's own and those of the
    source addresses it sent packets from (which it had taken over).  No other handler
    stores a mapping in the meantime. *)
Theorem tcp_handler_cleanup pool conn r conns conns' ch o
  (H : fakeUdpHandler_Handle pool conn r conns = (conns', ch, o)) :
  (∀ k, conns' !! k ≠ Some conn) ∧
  (∀ k c, conns' !! k = Some c → conns !! k = Some c) ∧
  (∀ k c, conns !! k = Some c → c ≠ conn →
     (∀ d src, d ∈ ch → frame_src d = Ret (Some src) → IP_String src ≠ k) →
     conns' !! k = Some c).
Proof.
  unfold fakeUdpHandler_Handle in H.
  destruct (handle_loop _ _ _ _ _ _ _) as [[c1 ch1] o1] eqn:E. simplify_eq.
  apply handle_loop_table in E as (Hk & Hkeep & new & Ech & Hnew & _).
  cbn in Ech. subst ch. split_and!.
  - intros k. rewrite forget_conn_lookup. by case_decide.
  - intros k c. rewrite forget_conn_lookup. case_decide; [done|]. destruct (Hk k); congruence.
  - intros k c Hc Hne Hno. rewrite forget_conn_lookup.
    assert (c1 !! k = Some c) as ->; [|by case_decide; simplify_eq].
    destruct (decide (c1 !! k = conns !! k)) as [|Hd]; [congruence|].
    destruct (Hnew k Hd) as (d & src & Hd' & Hs & He). destruct (Hno d src); done.
Qed.

Lemma tcp_handler_cleanup_witness :
  ∃ c ch o, fakeUdpHandler_Handle zero_pool 1 (frame [x60]) {["10.0.0.1" := 1]} = (c, ch, o) ∧
    c !! "10.0.0.1"%string ≠ Some 1.
Proof.
  destruct (fakeUdpHandler_Handle zero_pool 1 (frame [x60]) {["10.0.0.1" := 1]})
    as [[c ch] o] eqn:E.
  exists c, ch, o. split; [reflexivity|].
  exact (proj1 (tcp_handler_cleanup zero_pool 1 (frame [x60]) {["10.0.0.1" := 1]} c ch o E) _).
Defined.

(** The UDP return path: once [parseHeader] has accepted a packet while one of
    its flags is set, a packet for that packet's source is sent back over UDP, to an
    address of the route table and never to the TUN device or a TCP peer; to the
    very address the packet came from when the table had none for that source. *)
Theorem udp_return_path flags n e flags' n' e' conns rnd reply
  (Hflag : fst flags || snd flags = true)
  (Hparse : parseHeader flags n e = Ret (flags', n', Some e'))
  (Hreply : el_dst reply = el_src e') :
  (∃ a, r_action (routePeer n' conns rnd None reply) = SendUDP a (payload reply) ∧
        r_action (routeTUN n' conns rnd None reply) = SendUDP a (payload reply) ∧
        a ∈ default [] (routes n' !! IP_String (el_src e'))) ∧
  (routes n !! IP_String (el_src e') = None →
   routePeer n' conns rnd None reply = MkRouted (SendUDP (el_from e) (payload reply)) true None).
Proof.
  apply parseHeader_Ret in Hparse as [Hfrom Hn]. rewrite Hflag in Hn. subst n'.
  set (n' := fst (LoadOrStore n (el_src e') (el_from e))).
  assert (el_from e ∈ default [] (routes n' !! IP_String (el_src e'))) as Hin.
  { apply LoadOrStore_elem. }
  destruct (RouteTo_is_Some n' (el_src e') rnd _ Hin) as [a Ha].
  unfold routePeer, routeTUN. rewrite Hreply, Ha. split.
  - exists a. split_and!; [done..|]. by eapply RouteTo_elem.
  - intros Hnone. do 2 f_equal. apply RouteTo_elem in Ha. revert Ha. subst n'.
    unfold LoadOrStore, lookup_addr. rewrite Hnone. cbn. rewrite lookup_insert_eq. cbn.
    set_solver.
Qed.

Definition example_v4 : list byte :=
  [x45; x00; x00; x14; x00; x00; x00; x00; x40; x01; x00; x00;
   xdf; xfe; x00; x67; xdf; xfe; x00; x64].

Definition example_reply : DataElem :=
  MkElem "" [x01] 1 [] (IPv4 xdf xfe x00 x67).

Lemma udp_return_path_witness :
  ∃ flags' n' e', parseHeader (true, true) NewNAT (example_elem example_v4) = Ret (flags', n', Some e') ∧
    routePeer n' ∅ 0 None example_reply = MkRouted (SendUDP "10.0.0.9:1" [x01]) true None.
Proof.
  assert (match parseHeader (true, true) NewNAT (example_elem example_v4) with
          | Ret (_, _, Some e') => el_dst example_reply = el_src e' | _ => False end) as Hd
    by (vm_compute; reflexivity).
  destruct (parseHeader (true, true) NewNAT (example_elem example_v4))
    as [[[flags' n'] [e'|]]|err|] eqn:E; [|contradiction..].
  exists flags', n', e'. split; [reflexivity|].
  refine (proj2 (udp_return_path (true, true) NewNAT (example_elem example_v4) flags' n' e'
    ∅ 0 example_reply _ E Hd) _); reflexivity.
Defined.

(** C4. The TCP return path: while a TCP peer's handler runs, a packet for the
    source of any frame it has forwarded is written back to that connection as one
    frame, by [routeTUN] and by [routePeer], unless the UDP route table knows that
    IP, which takes precedence. *)
Theorem tcp_return_path fuel pool conn r conns conns' ch o n rnd d src reply
  (Hrun : handle_loop fuel pool 0 conn r conns [] = (conns', ch, o))
  (Hd : d ∈ ch) (Hsrc : frame_src d = Ret (Some src)) (Hreply : el_dst reply = src) :
  let expected := match RouteTo n src rnd with
                  | Some addr => SendUDP addr (payload reply)
                  | None => SendConn conn (newDatagramPacket (payload reply))
                  end in
  routeTUN n conns' rnd None reply = MkRouted expected true None ∧
  routePeer n conns' rnd None reply = MkRouted expected true None.
Proof.
  apply handle_loop_table in Hrun as (_ & _ & new & Ech & _ & Hmap). cbn in Ech. subst ch.
  specialize (Hmap d src Hd Hsrc). unfold routeTUN, routePeer. rewrite Hreply, Hmap.
  by destruct (RouteTo n src rnd).
Qed.

Lemma tcp_return_path_witness :
  ∃ conns' ch o, handle_loop 9 zero_pool 0 7 (frame example_v4) ∅ [] = (conns', ch, o) ∧
    routeTUN NewNAT conns' 0 None example_reply =
      MkRouted (SendConn 7 (newDatagramPacket [x01])) true None.
Proof.
  assert (match handle_loop 9 zero_pool 0 7 (frame example_v4) ∅ [] with
          | (_, d :: _, _) => frame_src d = Ret (Some (el_dst example_reply)) | _ => False end) as Hd
    by (vm_compute; reflexivity).
  destruct (handle_loop 9 zero_pool 0 7 (frame example_v4) ∅ []) as [[conns' ch] o] eqn:E.
  destruct ch as [|d ch]; [contradiction|]. exists conns', (d :: ch), o. split; [reflexivity|].
  refine (proj1 (tcp_return_path 9 zero_pool 7 (frame example_v4) ∅ conns' (d :: ch) o NewNAT 0 d
    (el_dst example_reply) example_reply E _ Hd _)); [left|reflexivity].
Defined.

(** What a [parseHeader] goroutine teaches the route table.  As long as it has
    seen packets of one IP family only (one of its flags is still set), the origin
    of every packet it passed on is in the table; once it has seen both families it
    never changes the table again, whoever the packets come from. *)
Theorem parseHeader_learning n es flags' n' out
  (Hrun : parseHeader_run (true, true) n es = Ret (flags', n', out)) :
  (fst flags' || snd flags' = true → ∀ e, e ∈ out →
     el_from e ∈ default [] (routes n' !! IP_String (el_src e))) ∧
  (flags' = (false, false) → ∀ es2 flags2 n2 out2,
     parseHeader_run flags' n' es2 = Ret (flags2, n2, out2) → n2 = n' ∧ flags2 = (false, false)).
Proof.
  split; [by apply (parseHeader_run_flags _ _ _ _ _ _ Hrun)|].
  intros -> es2. clear Hrun. revert n'.
  induction es2 as [|e es2 IH]; intros n1 flags2 n2 out2; cbn [parseHeader_run].
  { intros [= <- <- <-]. done. }
  intros [[[flags3 n3] o] [E1 H]]%outcome_bind_Ret.
  apply outcome_bind_Ret in H as [[[flags4 n4] out4] [E2 H]]. injection H as <- <- <-.
  apply parseHeader_Ret in E1. assert (flags3 = (false, false) ∧ n3 = n1) as [-> ->].
  { destruct o as [e'|]; cbn [fst snd orb] in E1; tauto. }
  by eapply IH.
Qed.

Lemma parseHeader_learning_witness :
  ∃ flags' n' out, parseHeader_run (true, true) NewNAT [example_elem example_v4] =
      Ret (flags', n', out) ∧
    ∀ e, e ∈ out → el_from e ∈ default [] (routes n' !! IP_String (el_src e)).
Proof.
  assert (match parseHeader_run (true, true) NewNAT [example_elem example_v4] with
          | Ret (f, _, _) => fst f || snd f = true | _ => False end) as Hf
    by (vm_compute; reflexivity).
  destruct (parseHeader_run (true, true) NewNAT [example_elem example_v4])
    as [[[flags' n'] out]|err|] eqn:E; [|contradiction..].
  exists flags', n', out. split; [reflexivity|].
  exact (proj1 (parseHeader_learning NewNAT [example_elem example_v4] flags' n' out E) Hf).
Defined.

(** Buffer accounting of the two routing goroutines: a packet buffer goes back
    to the pool exactly once, except that [routePeer] hands it over to the TUN
    device when there is no route, and drops it when the write to a TCP peer fails
    ([routeTUN] returns it there too); a write error ends either goroutine. *)
Theorem routing_buffers n conns rnd werr e :
  (r_put (routePeer n conns rnd werr e) = false ↔
     RouteTo n (el_dst e) rnd = None ∧
     (conns !! IP_String (el_dst e) = None ∨ is_Some werr)) ∧
  r_put (routeTUN n conns rnd werr e) = true ∧
  (r_stop (routePeer n conns rnd werr e) = r_stop (routeTUN n conns rnd werr e)) ∧
  (∀ e', r_action (routePeer n conns rnd werr e) = ToTun e' →
     r_action (routeTUN n conns rnd werr e) = NoRoute ∧ payload e' = payload e ∧
     el_src e' = el_src e ∧ el_dst e' = el_dst e).
Proof.
  unfold routePeer, routeTUN, is_Some.
  destruct (RouteTo n (el_dst e) rnd); cbn; [naive_solver|].
  destruct (conns !! IP_String (el_dst e)); [destruct werr|]; cbn; naive_solver.
Qed.

(** Protocols the endpoint may hand to the user-space stack. *)
Definition is_transport (p : byte) : bool :=
  (b2z p =? IPProtocolUDP)%Z || (b2z p =? IPProtocolUDPLite)%Z || (b2z p =? IPProtocolTCP)%Z.

(** The engine split of the client's TUN endpoint, byte by byte: an IPv4 packet
    with a complete header goes to the user-space (gvisor) stack if and only if it
    is TCP, UDP or UDP-Lite and the engine is "gvisor", or the engine is "mix" and
    the destination does not start with 223.254; every other such packet goes to
    the tunnel unchanged with the addresses of its header, and none is dropped. *)
Theorem endpoint_engine_split engine b p s0 s1 s2 s3 d0 d1 d2 d3
  (Hlen : 20 ≤ length b)
  (Hver : ∀ b0, b !! 0 = Some b0 → version b0 = 4%Z ∧
            (Z.shiftl (Z.land (b2z b0) 15) 2 ≤ Z.of_nat (length b))%Z)
  (Hproto : b !! 9 = Some p)
  (Hsrc : take 4 (drop 12 b) = [s0; s1; s2; s3])
  (Hdst : take 4 (drop 16 b) = [d0; d1; d2; d3]) :
  endpoint_read engine CIDR CIDR6 b =
    if is_transport p &&
       (String.eqb engine EngineGvisor ||
        (String.eqb engine EngineMix && negb (bool_decide (d0 = xdf ∧ d1 = xfe))))
    then InjectInbound b
    else ToInbound b (IPv4 s0 s1 s2 s3) (IPv4 d0 d1 d2 d3).
Proof.
  destruct b as [|b0 b]; [cbn in Hlen; lia|]. destruct (Hver b0 eq_refl) as [Hv Hihl].
  unfold endpoint_read. rewrite Hv. cbn [Z.eqb Pos.eqb].
  unfold parse_v4_header. rewrite Hproto, !ipv4_at_Ret, Hsrc, Hdst by lia.
  destruct (Nat.ltb_spec (length (b0 :: b)) 20); [lia|].
  destruct (Z.ltb_spec (Z.of_nat (length (b0 :: b))) (Z.shiftl (Z.land (b2z b0) 15) 2)); [lia|].
  change (v4InV6Prefix ++ [d0; d1; d2; d3]) with (IPv4 d0 d1 d2 d3).
  rewrite CIDR_Contains_v4, CIDR6_Contains_v4. cbn [negb]. rewrite andb_true_r. done.
Qed.

Lemma endpoint_engine_split_witness :
  endpoint_read EngineMix CIDR CIDR6 (take 9 example_v4 ++ [x06] ++ drop 10 example_v4) =
    ToInbound (take 9 example_v4 ++ [x06] ++ drop 10 example_v4)
      (IPv4 xdf xfe x00 x67) (IPv4 xdf xfe x00 x64).
Proof.
  apply (endpoint_engine_split EngineMix (take 9 example_v4 ++ [x06] ++ drop 10 example_v4) x06
    xdf xfe x00 x67 xdf xfe x00 x64).
  - cbn. lia.
  - intros b0 [= <-]. vm_compute. split; [reflexivity|discriminate].
  - reflexivity.
  - reflexivity.
  - reflexivity.
Defined.
