(* ===== verification/Heartbeat.v ===== *)
(** * Heartbeats

    [heartbeats], [genICMPPacket] and [genICMPPacketIPv6] of [pkg/core/tunhandler.go],
    [GetTunDevice], [GetTunDeviceByConn] of [pkg/util/net.go] and [GetLocalTunIP] of
    [pkg/util/cidr.go], with the serialisers of [gopacket] they call: a client sends an
    echo request to the router every second, so that the server learns, or learns again
    after a restart, which connection its addresses are behind. *)
From Stdlib Require Import ZArith Lia.
From Stdlib Require Import Strings.Byte.
From stdpp Require Import base gmap strings list numbers.
From S2P Require Import Prelude GoStrings GoNet Config Framing NatTable Tunnel.

(** ** Checksums *)

Open Scope Z_scope.

(** The sum of the 16-bit words; an odd last byte is the high one of its word. *)
Fixpoint sum16 (bs : list byte) : Z :=
  match bs with
  | a :: b :: bs => b2z a * 256 + b2z b + sum16 bs
  | [a] => b2z a * 256
  | [] => 0
  end.

(** [for csum > 0xffff { csum = (csum >> 16) + (csum & 0xffff) }] on a [uint32]: two
    turns are enough. *)
Fixpoint fold_carry (fuel : nat) (csum : Z) : Z :=
  match fuel with
  | O => csum
  | S fuel => if 65535 <? csum then fold_carry fuel (Z.shiftr csum 16 + Z.land csum 65535) else csum
  end.

(** [tcpipChecksum(data, 0)], and [checksum] of an IPv4 header whose checksum bytes are
    zero: the sum is a [uint32]. *)
Definition tcpipChecksum (data : list byte) : Z :=
  Z.lxor (fold_carry 2 (sum16 data mod 2 ^ 32)) 65535.

(** ** Packets *)

Definition ICMPv4TypeEchoRequest : Z := 8.
Definition ICMPv6TypeEchoRequest : Z := 128.
Definition IPProtocolICMPv4 : Z := 1.
Definition IPProtocolICMPv6 : Z := 58.
Definition IPv4DontFragment : Z := 2.

(** The ICMP layer of the echo request, with checksum [c]. *)
Definition icmp4_layer (c : Z) : list byte :=
  [z2b ICMPv4TypeEchoRequest; z2b 0] ++ be_fixed 2 c ++ be_fixed 2 3842 ++ be_fixed 2 1.

(** The IPv4 layer in front of [len] bytes, with checksum [c]. *)
Definition ip4_layer (len : Z) (src4 dst4 : list byte) (c : Z) : list byte :=
  [z2b (Z.lor (Z.shiftl 4 4) 5); z2b 0] ++ be_fixed 2 (20 + len) ++ be_fixed 2 55664 ++
  be_fixed 2 (Z.shiftl IPv4DontFragment 13) ++ [z2b 64; z2b IPProtocolICMPv4] ++
  be_fixed 2 c ++ src4 ++ dst4.

Definition genICMPPacket (src dst : IP) : outcome (list byte) :=
  let icmp := icmp4_layer (tcpipChecksum (icmp4_layer 0)) in
  let len := Z.of_nat (length icmp) in
  match To4 src, To4 dst with
  | Some src4, Some dst4 => Ret (ip4_layer len src4 dst4 (tcpipChecksum (ip4_layer len src4 dst4 0)) ++ icmp)
  | _, _ => Fail (Errorf "failed to serialize icmp packet")
  end.

(** Without [ComputeChecksums] the checksum stays zero. *)
Definition genICMPPacketIPv6 (src dst : IP) : outcome (list byte) :=
  let icmp := [z2b ICMPv6TypeEchoRequest; z2b 0; z2b 0; z2b 0] in
  if bool_decide (length src = 16%nat) && bool_decide (length dst = 16%nat) then
    Ret ([z2b (Z.shiftl 6 4); z2b 0; z2b 0; z2b 0] ++ be_fixed 2 (Z.of_nat (length icmp)) ++
         [z2b IPProtocolICMPv6; z2b 255] ++ src ++ dst ++ icmp)
  else Fail (Errorf "failed to serialize icmp6 packet").

(** ** The client's addresses *)

(** The interfaces of the host: a name and the texts of its addresses. *)
Definition Interfaces : Type := list (string * list string).

(** [GetTunDevice]: the first interface with an address whose text contains the text of
    one of the addresses. *)
Definition GetTunDevice (ifs : Interfaces) (ips : list IP) : outcome string :=
  match List.find (λ i, existsb (λ a, existsb (λ ip, Contains a (IP_String ip)) ips) i.2) ifs with
  | Some i => Ret i.1
  | None => Fail (Errorf "can not found any interface")
  end.

(** [GetTunDeviceByConn], by the text of the connection's local address. *)
Definition GetTunDeviceByConn (ifs : Interfaces) (local : string) : outcome string :=
  match List.find (λ i, existsb (λ a, Contains a local) i.2) ifs with
  | Some i => Ret i.1
  | None => Fail (Errorf "can not found any interface")
  end.

(** [GetLocalTunIP]: the last IPv4 and the last IPv6 address of the interface; both
    are needed. *)
Definition tun_ips (addrs : list string) : option IP * option IP :=
  fold_left (λ acc a, match ParseCIDR a with
                      | None => acc
                      | Some (ip, _) => match To4 ip with
                                        | Some _ => (Some ip, acc.2)
                                        | None => (acc.1, Some ip)
                                        end
                      end) addrs (None, None).

Definition GetLocalTunIP (ifs : Interfaces) (tunName : string) : outcome (IP * IP) :=
  match List.find (λ i, String.eqb i.1 tunName) ifs with
  | None => Fail (Errorf "no such network interface")
  | Some i => match tun_ips i.2 with
              | (Some v4, Some v6) => Ret (v4, v6)
              | _ => Fail (Errorf "not found all ip")
              end
  end.

(** ** [heartbeats] *)

(** [copy(data, bytes)] into a buffer of the pool. *)
Definition beat (pool bytes : list byte) (src dst : IP) : DataElem :=
  let n := Nat.min (length pool) (length bytes) in
  MkElem "" (take n bytes ++ drop n pool) n src dst.

(** One turn of the inner loop: the elements put on the device's channel.  A packet that
    cannot be made skips the turn. *)
Definition heartbeat_turn (pool : list byte) (src4 src6 : IP) : list DataElem :=
  match genICMPPacket src4 RouterIP with
  | Ret bytes =>
      match genICMPPacketIPv6 src6 RouterIP6 with
      | Ret bytes6 => [beat pool bytes src4 RouterIP; beat pool bytes6 src6 RouterIP6]
      | _ => []
      end
  | _ => []
  end.

(** The checks before the loop: [None] when there will be no heartbeat. *)
Definition heartbeat_sources (ifs : Interfaces) (local : string) : option (IP * IP) :=
  match GetTunDeviceByConn ifs local with
  | Ret name =>
      match GetLocalTunIP ifs name with
      | Ret (src4, src6) =>
          if IP_Equal (default [] (To4 RouterIP)) src4 then None
          else if IP_Equal (default [] (To4 RouterIP6)) src6 then None
          else Some (src4, src6)
      | _ => None
      end
  | _ => None
  end.

(** What [heartbeats] sends in [turns] turns. *)
Definition heartbeats (ifs : Interfaces) (local : string) (pool : list byte) (turns : nat) : list DataElem :=
  match heartbeat_sources ifs local with
  | None => []
  | Some (src4, src6) => mjoin (replicate turns (heartbeat_turn pool src4 src6))
  end.

(** ** Checksums verify *)

Lemma sum16_bound bs : 0 ≤ sum16 bs ≤ 65535 * Z.of_nat (length bs).
Proof.
  induction bs as [[|a [|b bs]] IH] using (induction_ltof1 _ (@length byte)); unfold ltof in IH.
  - cbn. lia.
  - cbn. pose proof (b2z_range a). lia.
  - pose proof (b2z_range a). pose proof (b2z_range b).
    specialize (IH bs ltac:(cbn; lia)). cbn [sum16 length]. lia.
Qed.

Lemma sum16_app x y : Nat.Even (length x) → sum16 (x ++ y) = sum16 x + sum16 y.
Proof.
  induction x as [[|a [|b x]] IH] using (induction_ltof1 _ (@length byte)); unfold ltof in IH; intros H.
  - done.
  - destruct H as [k H]. cbn in H. lia.
  - cbn [app sum16]. rewrite IH; [lia|cbn; lia|]. destruct H as [k H]. exists (k - 1)%nat. cbn in H. lia.
Qed.

Lemma carry_step z : Z.shiftr z 16 + Z.land z 65535 = z / 65536 + z mod 65536.
Proof. rewrite Z.shiftr_div_pow2 by lia. change 65535 with (Z.ones 16). by rewrite Z.land_ones. Qed.

(** The folded sum is the sum modulo 65535, and is zero only for zero. *)
Lemma fold_carry_spec z : 0 ≤ z < 2 ^ 32 →
  let f := fold_carry 2 z in
  0 ≤ f ≤ 65535 ∧ f mod 65535 = z mod 65535 ∧ (0 < z → 0 < f).
Proof.
  assert (S : ∀ z, 0 ≤ z → let z' := Z.shiftr z 16 + Z.land z 65535 in
    z' mod 65535 = z mod 65535 ∧ 0 ≤ z' ∧ (0 < z → 0 < z') ∧ (z < 2 ^ 32 → z' ≤ 131070) ∧
    (z ≤ 131070 → z' ≤ 65535)).
  { intros w Hw. cbn zeta. rewrite carry_step.
    pose proof (Z.div_mod w 65536 ltac:(lia)). pose proof (Z.mod_pos_bound w 65536 ltac:(lia)).
    pose proof (Z.div_pos w 65536 ltac:(lia) ltac:(lia)).
    split_and!; [|lia|intros; lia|intros; lia|intros; lia].
    replace w with (w / 65536 + w mod 65536 + w / 65536 * 65535) at 3 by lia.
    by rewrite Z.mod_add. }
  intros Hz. cbn [fold_carry]. destruct (Z.ltb_spec 65535 z); [|split_and!; lia].
  destruct (S z) as (M1 & P1 & Q1 & B1 & _); [lia|]. cbn zeta in *.
  destruct (Z.ltb_spec 65535 (Z.shiftr z 16 + Z.land z 65535)); [|split_and!; [lia|lia|done|auto]].
  destruct (S (Z.shiftr z 16 + Z.land z 65535)) as (M2 & P2 & Q2 & _ & B2); [lia|]. cbn zeta in *.
  split_and!; [lia|apply B2, B1; lia|congruence|auto].
Qed.

Lemma lxor_complement f : 0 ≤ f ≤ 65535 → Z.lxor f 65535 = 65535 - f.
Proof.
  intros H. rewrite Z.sub_nocarry_ldiff.
  - apply Z.bits_inj'. intros n Hn. rewrite Z.lxor_spec, Z.ldiff_spec.
    change 65535 with (Z.ones 16). destruct (Z.lt_ge_cases n 16).
    + rewrite Z.ones_spec_low by lia. by destruct (Z.testbit f n).
    + rewrite Z.ones_spec_high by lia. rewrite (Z.bits_above_log2 f n); [done|lia|].
      destruct (Z.eq_dec f 0) as [->|]; [cbn; lia|]. apply Z.log2_lt_pow2; [lia|].
      assert (65536 = 2 ^ 16) by done. assert (2 ^ 16 ≤ 2 ^ n) by (apply Z.pow_le_mono_r; lia). lia.
  - change 65535 with (Z.ones 16). apply Z.bits_inj'. intros n Hn. rewrite Z.ldiff_spec, Z.bits_0.
    destruct (Z.lt_ge_cases n 16).
    + rewrite Z.ones_spec_low by lia. by rewrite andb_false_r.
    + rewrite (Z.bits_above_log2 f n); [done|lia|].
      destruct (Z.eq_dec f 0) as [->|]; [cbn; lia|]. apply Z.log2_lt_pow2; [lia|].
      assert (65536 = 2 ^ 16) by done. assert (2 ^ 16 ≤ 2 ^ n) by (apply Z.pow_le_mono_r; lia). lia.
Qed.

(** The receiver's check: the folded sum of the whole is all ones. *)
Definition verifies (data : list byte) : Prop := fold_carry 2 (sum16 data mod 2 ^ 32) = 65535.

(** A checksum put where zeros were makes the data verify. *)
Lemma checksum_verifies (pre post : list byte) :
  Nat.Even (length pre) → Z.of_nat (length (pre ++ post)) ≤ 65000 → 0 < sum16 (pre ++ post) →
  verifies (pre ++ be_fixed 2 (tcpipChecksum (pre ++ be_fixed 2 0 ++ post)) ++ post).
Proof.
  intros He Hl Hpos. set (S := sum16 (pre ++ post)).
  assert (E : ∀ c, 0 ≤ c ≤ 65535 → sum16 (pre ++ be_fixed 2 c ++ post) = S + c).
  { intros c Hc. unfold S. rewrite (sum16_app pre post), (sum16_app pre (be_fixed 2 c ++ post)) by done.
    rewrite (sum16_app (be_fixed 2 c)) by (rewrite length_be_fixed; by exists 1%nat).
    assert (sum16 (be_fixed 2 c) = c) as ->; [|lia].
    change (sum16 (be_fixed 2 c)) with (b2z (z2b (c / 256)) * 256 + b2z (z2b c) + 0).
    rewrite !b2z_z2b, Z.add_0_r. rewrite (Z.mod_small (c / 256)).
    - rewrite (Z.div_mod c 256) at 3 by lia. lia.
    - split; [apply Z.div_pos; lia|]. apply Z.div_lt_upper_bound; lia. }
  assert (HS : 0 < S ≤ 65535 * 65000) by (pose proof (sum16_bound (pre ++ post)); unfold S; lia).
  unfold verifies, tcpipChecksum. rewrite (E 0), Z.add_0_r, (Z.mod_small S) by lia.
  destruct (fold_carry_spec S) as (B & M & P); [lia|]. cbn zeta in *.
  rewrite lxor_complement by lia. set (f := fold_carry 2 S) in *. rewrite E, Z.mod_small by lia.
  destruct (fold_carry_spec (S + (65535 - f))) as (B' & M' & P'); [lia|]. cbn zeta in *.
  assert ((S + (65535 - f)) mod 65535 = 0) as Z0.
  { apply Z.mod_divide; [lia|]. pose proof (Z.div_mod S 65535 ltac:(lia)).
    pose proof (Z.div_mod f 65535 ltac:(lia)). exists (S / 65535 - f / 65535 + 1). lia. }
  rewrite Z0 in M'. apply Z.mod_divide in M' as [k Hk]; [|lia]. lia.
Qed.

Close Scope Z_scope.

(** ** The packets *)

Definition icmp4 : list byte := icmp4_layer (tcpipChecksum (icmp4_layer 0)).

Lemma icmp4_verifies : verifies icmp4.
Proof. vm_compute. reflexivity. Qed.

Definition ip4_front : list byte := take 10 (ip4_layer 8 [] [] 0).

Lemma ip4_layer_eq src4 dst4 c : ip4_layer 8 src4 dst4 c = ip4_front ++ be_fixed 2 c ++ src4 ++ dst4.
Proof. reflexivity. Qed.

Definition echo4 (src4 dst4 : list byte) : list byte :=
  ip4_layer 8 src4 dst4 (tcpipChecksum (ip4_layer 8 src4 dst4 0)) ++ icmp4.

Lemma genICMPPacket_eq a b c d e f g h :
  genICMPPacket (IPv4 a b c d) (IPv4 e f g h) = Ret (echo4 [a; b; c; d] [e; f; g; h]).
Proof. unfold genICMPPacket. by rewrite !To4_v4. Qed.

Lemma ip4_header_verifies src4 dst4 :
  length src4 = 4 → length dst4 = 4 →
  verifies (ip4_layer 8 src4 dst4 (tcpipChecksum (ip4_layer 8 src4 dst4 0))).
Proof.
  intros Hs Hd. rewrite ip4_layer_eq. rewrite (ip4_layer_eq _ _ 0). apply checksum_verifies.
  - by exists 5.
  - rewrite !length_app, Hs, Hd. vm_compute. discriminate.
  - rewrite sum16_app by (by exists 5). pose proof (sum16_bound (src4 ++ dst4)).
    assert (0 < sum16 ip4_front)%Z by (vm_compute; reflexivity). lia.
Qed.

(** The IPv4 heartbeat is a well-formed echo request from the client to the router:
    28 bytes, version 4 with a 20-byte header, its length field right, don't-fragment set,
    the addresses in place, and both its header checksum and its ICMP checksum verify. *)
Theorem heartbeat_packet_valid a b c d e f g h :
  ∃ packet, genICMPPacket (IPv4 a b c d) (IPv4 e f g h) = Ret packet ∧
    length packet = 28 ∧
    verifies (take 20 packet) ∧ verifies (drop 20 packet) ∧
    take 2 packet = [x45; x00] ∧
    be_val (take 2 (drop 2 packet)) = 28%Z ∧
    take 4 (drop 6 packet) = [x40; x00; x40; x01] ∧
    parse_ips packet (length packet) = Ret (Some (IPv4 a b c d, IPv4 e f g h)).
Proof.
  exists (echo4 [a; b; c; d] [e; f; g; h]). split; [apply genICMPPacket_eq|].
  assert (L : length (echo4 [a; b; c; d] [e; f; g; h]) = 28) by reflexivity.
  split; [exact L|]. split_and!; [|exact icmp4_verifies|reflexivity..].
  change (take 20 (echo4 [a; b; c; d] [e; f; g; h])) 
    with (ip4_layer 8 [a; b; c; d] [e; f; g; h] (tcpipChecksum (ip4_layer 8 [a; b; c; d] [e; f; g; h] 0))).
  by apply ip4_header_verifies.
Qed.

Lemma genICMPPacketIPv6_eq src dst : length src = 16 → length dst = 16 →
  genICMPPacketIPv6 src dst = Ret ([x60; x00; x00; x00; x00; x04; x3a; xff] ++ src ++ dst ++ [x80; x00; x00; x00]).
Proof. intros Hs Hd. unfold genICMPPacketIPv6. rewrite Hs, Hd. reflexivity. Qed.

(** ** What the server learns *)

Lemma beat_payload pool bytes src dst :
  length bytes ≤ length pool → payload (beat pool bytes src dst) = bytes.
Proof.
  intros H. unfold payload, beat. rewrite (Nat.min_r _ _ H). cbn [el_data el_length].
  rewrite take_app_le by (rewrite length_take; lia). by rewrite take_take, Nat.min_id, firstn_all.
Qed.

Lemma IP_Equal_ne x y : length x = length y → x ≠ y → IP_Equal x y = false.
Proof. intros Hl Hn. unfold IP_Equal. by rewrite bool_decide_true, bool_decide_false. Qed.

(** A frame whose source the server can read is learnt and passed on. *)
Lemma handle_loop_frame fuel pool i conn d rest conns ch src :
  pool_ok pool → (Z.of_nat (length d) < 65536)%Z →
  (∀ b', Z.of_nat (length b') = LargeBufferSize → take (length d) b' = d →
     frame_src (MkDatagram (Z.of_nat (length d)) b') = Ret (Some src)) →
  ∃ dgram, handle_loop (S fuel) pool i conn (frame d ++ rest) conns ch =
    handle_loop fuel pool (S i) conn rest (<[IP_String src := conn]> conns) (ch ++ [dgram]).
Proof.
  intros Hp Hd Hs. cbn [handle_loop].
  destruct (read_server_frame d rest (pool i) (Hp i) Hd) as (b' & Hb' & Ht & ->).
  rewrite Hs by done. rewrite learn_conn_insert. by eexists.
Qed.

Lemma frame_src_v4 b' a b c d e f g h :
  let p := echo4 [a; b; c; d] [e; f; g; h] in
  take (length p) b' = p → frame_src (MkDatagram (Z.of_nat (length p)) b') = Ret (Some (IPv4 a b c d)).
Proof. cbn zeta. intros H. unfold frame_src. cbn [DataLength Data]. rewrite Nat2Z.id, H. reflexivity. Qed.

Lemma frame_src_v6 b' src dst rest :
  length src = 16 → length dst = 16 →
  let p := [x60; x00; x00; x00; x00; x04; x3a; xff] ++ src ++ dst ++ rest in
  take (length p) b' = p → frame_src (MkDatagram (Z.of_nat (length p)) b') = Ret (Some src).
Proof.
  cbn zeta. intros Hs Hd H. unfold frame_src. cbn [DataLength Data]. rewrite Nat2Z.id, H.
  cbn [app]. rewrite IsIPv4_cons. cbn [mbind outcome_bind]. change (4 =? version x60)%Z with false.
  cbn iota. change (IsIPv6 (x60 :: _)) with (Ret true). cbn [mbind outcome_bind].
  assert (Hl : 24 ≤ length b').
  { apply (f_equal length) in H. rewrite length_take in H. rewrite !length_app in H. cbn [length] in H. lia. }
  rewrite slice_Ret by done. cbn [mbind outcome_bind]. do 2 f_equal.
  assert (E : take 24 b' = [x60; x00; x00; x00; x00; x04; x3a; xff] ++ src).
  { transitivity (take 24 (take (length ([x60; x00; x00; x00; x00; x04; x3a; xff] ++ src ++ dst ++ rest)) b')).
    - rewrite take_take. f_equal. rewrite !length_app. cbn [length]. lia.
    - rewrite H, app_assoc. apply take_app_length'. rewrite length_app, Hs. done. }
  rewrite E. by apply drop_app_length'.
Qed.

(** The two packets of a turn. *)
Definition echo6 (src6 : list byte) : list byte :=
  [x60; x00; x00; x00; x00; x04; x3a; xff] ++ src6 ++ RouterIP6 ++ [x80; x00; x00; x00].
Definition echo_router (a b c d : byte) : list byte := echo4 [a; b; c; d] [xdf; xfe; x00; x64].

Lemma length_echo6 src6 : length src6 = 16 → length (echo6 src6) = 44.
Proof. intros H. unfold echo6. rewrite !length_app, H. reflexivity. Qed.

Lemma heartbeat_turn_eq buf a b c d src6 : length src6 = 16 →
  heartbeat_turn buf (IPv4 a b c d) src6 =
    [beat buf (echo_router a b c d) (IPv4 a b c d) RouterIP; beat buf (echo6 src6) src6 RouterIP6].
Proof.
  intros H. unfold heartbeat_turn.
  by rewrite RouterIP_eq, genICMPPacket_eq, genICMPPacketIPv6_eq by done.
Qed.

(** The server's handler on the stream of one turn. *)
Lemma handle_heartbeat pool conn conns a b c d src6 :
  pool_ok pool → length src6 = 16 →
  ∃ ch, handle_loop 3 pool 0 conn (concat (frame <$> [echo_router a b c d; echo6 src6])) conns [] =
    (<[IP_String src6 := conn]> (<[IP_String (IPv4 a b c d) := conn]> conns), ch, Some (Ret EOF)).
Proof.
  intros Hpool H6. cbn [fmap list_fmap concat].
  destruct (handle_loop_frame 2 pool 0 conn (echo_router a b c d) (frame (echo6 src6) ++ []) conns []
    (IPv4 a b c d) Hpool) as (g1 & ->); [done|intros; by apply frame_src_v4|].
  destruct (handle_loop_frame 1 pool 1 conn (echo6 src6) [] (<[IP_String (IPv4 a b c d):=conn]> conns)
    ([] ++ [g1]) src6 Hpool) as (g2 & ->);
    [rewrite length_echo6 by done; lia|intros; by apply frame_src_v6|].
  eexists. cbn [handle_loop]. unfold readDatagramPacketServer, read_frame.
  pose proof (Hpool 2) as Hi. change LargeBufferSize with 65535%Z in Hi.
  destruct (Nat.ltb_spec (length (pool 2)) 2); [lia|]. rewrite ReadFull_short by (cbn; lia). reflexivity.
Qed.

(** C8. A turn of heartbeats teaches the server where the client is: the two packets are
    not looped back; and when the client's stream carries their frames, the server's handler
    ends with the stream, every address of the client is mapped to its connection, and a
    packet for one of them with no UDP route goes to that connection. *)
Theorem heartbeat_teaches_server buf pool conn conns n rnd a b c d src6 reply
  (Hbuf : Z.of_nat (length buf) = LargeBufferSize) (Hpool : pool_ok pool)
  (H6 : length src6 = 16) (H4 : IPv4 a b c d ≠ RouterIP) (Hr6 : src6 ≠ RouterIP6)
  (Hreply : el_dst reply = IPv4 a b c d ∨ el_dst reply = src6)
  (Hudp : RouteTo n (el_dst reply) rnd = None) :
  let elems := heartbeat_turn buf (IPv4 a b c d) src6 in
  ∃ sent conns' ch,
    transportTunClient_out <$> elems = (λ bytes, ToServer bytes true) <$> sent ∧
    length sent = 2 ∧
    handle_loop 3 pool 0 conn (concat (frame <$> sent)) conns [] = (conns', ch, Some (Ret EOF)) ∧
    conns' = <[IP_String src6 := conn]> (<[IP_String (IPv4 a b c d) := conn]> conns) ∧
    routeTUN n conns' rnd None reply = MkRouted (SendConn conn (newDatagramPacket (payload reply))) true None.
Proof.
  cbn zeta. rewrite heartbeat_turn_eq by done.
  destruct (handle_heartbeat pool conn conns a b c d src6 Hpool H6) as (ch & Hch).
  exists [echo_router a b c d; echo6 src6]. do 2 eexists. split_and!; [|done|exact Hch|done|].
  - change LargeBufferSize with 65535%Z in Hbuf. unfold transportTunClient_out.
    cbn [fmap list_fmap el_src el_dst beat].
    rewrite !beat_payload by (rewrite ?length_echo6 by done; change (length (echo_router a b c d)) with 28; lia).
    by rewrite !IP_Equal_ne by (done || by rewrite H6).
  - unfold routeTUN. rewrite Hudp. destruct Hreply as [-> | ->].
    + destruct (decide (IP_String src6 = IP_String (IPv4 a b c d))) as [->|];
        [by rewrite lookup_insert_eq|]. by rewrite lookup_insert_ne, lookup_insert_eq.
    + by rewrite lookup_insert_eq.
Qed.

(** ** Examples *)

(** The text of one address is part of the text of another: the wrong device is found. *)
Example tun_device_by_text :
  GetTunDevice [("utun4", ["223.254.0.104/32"]); ("utun5", ["223.254.0.10/32"])]%string [IPv4 xdf xfe x00 x0a]
  = Ret "utun4"%string.
Proof. vm_compute. reflexivity. Qed.

(** A client sends two packets a turn; the router, and a device without an IPv6 address,
    send none. *)
Definition example_device (v4 : string) (v6 : list string) : Interfaces :=
  [("lo", ["127.0.0.1/8"; "::1/128"]); ("utun4", (v4 +:+ "/16") :: v6)]%string.

Example heartbeats_of :
  ((λ p, length (heartbeats (example_device p.1 p.2) p.1 (replicate 100 x00) 3)) <$>
    [("223.254.0.103", ["efff:ffff:ffff:ffff:ffff:ffff:ffff:9990/64"]);
     ("223.254.0.100", ["efff:ffff:ffff:ffff:ffff:ffff:ffff:9999/64"]);
     ("223.254.0.103", [])])%string
  = [6; 0; 0].
Proof. vm_compute. reflexivity. Qed.

Definition example_src6 : list byte := replicate 14 xef ++ [x99; x90].

Lemma heartbeat_teaches_server_witness :
  let elems := heartbeat_turn (replicate (Z.to_nat LargeBufferSize) x00) (IPv4 xdf xfe x00 x67) example_src6 in
  ∃ sent conns' ch,
    transportTunClient_out <$> elems = (λ bytes, ToServer bytes true) <$> sent ∧
    length sent = 2 ∧
    handle_loop 3 zero_pool 0 7 (concat (frame <$> sent)) ∅ [] = (conns', ch, Some (Ret EOF)) ∧
    conns' = <[IP_String example_src6 := 7]> (<[IP_String (IPv4 xdf xfe x00 x67) := 7]> ∅) ∧
    routeTUN NewNAT conns' 0 None (MkElem "" [x45] 1 (IPv4 x0a x00 x00 x01) example_src6) =
      MkRouted (SendConn 7 (newDatagramPacket [x45])) true None.
Proof.
  apply (heartbeat_teaches_server (replicate (Z.to_nat LargeBufferSize) x00) zero_pool 7 ∅ NewNAT 0
    xdf xfe x00 x67 example_src6 (MkElem "" [x45] 1 (IPv4 x0a x00 x00 x01) example_src6)).
  - vm_compute. reflexivity.
  - intros i. vm_compute. reflexivity.
  - reflexivity.
  - vm_compute. discriminate.
  - vm_compute. discriminate.
  - right. reflexivity.
  - reflexivity.
Defined.
