(* ===== verification/Base64.v ===== *)
(** * [encoding/base64], the standard encoding

    The DHCP bitmaps are stored in the ConfigMap as [base64.StdEncoding] text: three
    bytes become four characters, the last group is padded with [=].  The decoder
    skips carriage returns and line feeds, requires the padding, and does not check
    the unused bits of the last group. *)
From Stdlib Require Import ZArith Lia Ascii.
From Stdlib Require Import Strings.Byte.
From stdpp Require Import base strings list numbers.
From S2P Require Import Prelude GoStrings.

(** ** The alphabet *)

Definition encodeStd : string :=
  "ABCDEFGHIJKLMNOPQRSTUVWXYZabcdefghijklmnopqrstuvwxyz0123456789+/".

Definition enc_char (z : Z) : ascii :=
  default "A"%char (String.get (Z.to_nat z) encodeStd).

Fixpoint index_of (a : ascii) (s : string) (i : Z) : option Z :=
  match s with
  | EmptyString => None
  | String c s => if Ascii.eqb c a then Some i else index_of a s (i + 1)
  end.
Definition dec_char (a : ascii) : option Z := index_of a encodeStd 0.

Definition sextet (v : Z) (shift : Z) : Z := Z.land (Z.shiftr v shift) 63.

(** ** Encoding *)

Fixpoint EncodeToString (src : list byte) : string :=
  match src with
  | [] => EmptyString
  | [a] =>
      let v := Z.shiftl (b2z a) 16 in
      String (enc_char (sextet v 18)) (String (enc_char (sextet v 12)) "==")
  | [a; b] =>
      let v := (Z.shiftl (b2z a) 16 + Z.shiftl (b2z b) 8)%Z in
      String (enc_char (sextet v 18)) (String (enc_char (sextet v 12))
        (String (enc_char (sextet v 6)) "="))
  | a :: b :: c :: src =>
      let v := (Z.shiftl (b2z a) 16 + Z.shiftl (b2z b) 8 + b2z c)%Z in
      String (enc_char (sextet v 18)) (String (enc_char (sextet v 12))
        (String (enc_char (sextet v 6)) (String (enc_char (sextet v 0)) (EncodeToString src))))
  end.

(** ** Decoding *)

Definition is_newline (a : ascii) : bool := Ascii.eqb a "010" || Ascii.eqb a "013".

Fixpoint drop_newlines (s : string) : string :=
  match s with
  | EmptyString => EmptyString
  | String a s => if is_newline a then drop_newlines s else String a (drop_newlines s)
  end.

(** One group of four characters; [None] is [CorruptInputError]. *)
Fixpoint decode_quads (s : string) : option (list byte) :=
  match s with
  | EmptyString => Some []
  | String c0 (String c1 (String c2 (String c3 s))) =>
      x0 ← dec_char c0; x1 ← dec_char c1;
      let hi := (Z.shiftl x0 18 + Z.shiftl x1 12)%Z in
      if Ascii.eqb c2 "=" then
        if Ascii.eqb c3 "=" && String.eqb s "" then Some [z2b (Z.shiftr hi 16)] else None
      else
        x2 ← dec_char c2;
        let v := (hi + Z.shiftl x2 6)%Z in
        if Ascii.eqb c3 "=" then
          if String.eqb s "" then Some [z2b (Z.shiftr v 16); z2b (Z.shiftr v 8)] else None
        else
          x3 ← dec_char c3;
          let v := (v + x3)%Z in
          rest ← decode_quads s;
          Some (z2b (Z.shiftr v 16) :: z2b (Z.shiftr v 8) :: z2b v :: rest)
  | _ => None
  end.

Definition DecodeString (s : string) : option (list byte) := decode_quads (drop_newlines s).

Example encode_man : EncodeToString [x4d; x61; x6e; x01] = "TWFuAQ=="%string.
Proof. vm_compute. reflexivity. Qed.
Example decode_man : DecodeString "TWF
uAQ==" = Some [x4d; x61; x6e; x01].
Proof. vm_compute. reflexivity. Qed.
Example decode_corrupt : DecodeString "TWFuA" = None ∧ DecodeString "TW=u" = None ∧ DecodeString "" = Some [].
Proof. vm_compute. auto. Qed.

(** ** Round trip *)

Lemma enc_char_ok z : (0 ≤ z < 64)%Z →
  dec_char (enc_char z) = Some z ∧ Ascii.eqb (enc_char z) "=" = false ∧ is_newline (enc_char z) = false.
Proof.
  intros Hz. assert (z = Z.of_nat (Z.to_nat z)) as -> by lia.
  assert (Z.to_nat z < 64) as Hn by lia. revert Hn. generalize (Z.to_nat z) as n.
  intros n Hn. do 64 (destruct n as [|n]; [vm_compute; auto|]). lia.
Qed.

Lemma sextet_range v s : (0 ≤ sextet v s < 64)%Z.
Proof.
  unfold sextet. change 63%Z with (Z.ones 6). rewrite Z.land_ones by lia.
  apply Z.mod_pos_bound. lia.
Qed.

Lemma sextet_div v s : (0 ≤ s)%Z → sextet v s = ((v `div` 2 ^ s) `mod` 64)%Z.
Proof.
  intros. unfold sextet. change 63%Z with (Z.ones 6).
  by rewrite Z.land_ones, Z.shiftr_div_pow2 by lia.
Qed.

Lemma dec_sextet v s : dec_char (enc_char (sextet v s)) = Some (sextet v s).
Proof. apply enc_char_ok, sextet_range. Qed.
Lemma sextet_not_pad v s : Ascii.eqb (enc_char (sextet v s)) "=" = false.
Proof. apply enc_char_ok, sextet_range. Qed.
Lemma sextet_not_newline v s : is_newline (enc_char (sextet v s)) = false.
Proof. apply enc_char_ok, sextet_range. Qed.

Lemma z2b_eq z b : (z `mod` 256 = b2z b)%Z → z2b z = b.
Proof. intros H. apply b2z_inj. by rewrite b2z_z2b. Qed.

(** The bytes of a 24-bit group come back from its sextets. *)
Ltac sextets :=
  rewrite ?sextet_div, ?Z.shiftl_mul_pow2, ?Z.shiftr_div_pow2 by lia;
  repeat match goal with |- context [b2z ?b] =>
    lazymatch goal with _ : (0 ≤ b2z b < 256)%Z |- _ => fail | _ => pose proof (b2z_range b) end
  end; Z.to_euclidean_division_equations; lia.

Lemma list_ind3 {A} (P : list A → Prop) :
  P [] → (∀ a, P [a]) → (∀ a b, P [a; b]) → (∀ a b c l, P l → P (a :: b :: c :: l)) → ∀ l, P l.
Proof. intros H0 H1 H2 H3. fix IH 1. intros [|a [|b [|c l]]]; [apply H0|apply H1|apply H2|apply H3, IH]. Qed.

Lemma drop_newlines_Encode src : drop_newlines (EncodeToString src) = EncodeToString src.
Proof.
  induction src as [| | |a b c src IH] using list_ind3;
    cbn -[enc_char sextet is_newline]; rewrite ?sextet_not_newline; cbn; [done..|].
  by rewrite IH.
Qed.

Lemma DecodeString_Encode src : DecodeString (EncodeToString src) = Some src.
Proof.
  unfold DecodeString. rewrite drop_newlines_Encode.
  induction src as [|a|a b|a b c src IH] using list_ind3; [done|..];
    cbn -[enc_char sextet dec_char Z.shiftl Z.shiftr Z.add z2b];
    rewrite ?dec_sextet, ?sextet_not_pad; cbn [mbind option_bind];
    rewrite ?dec_sextet, ?sextet_not_pad; cbn [mbind option_bind];
    rewrite ?dec_sextet, ?sextet_not_pad; cbn [mbind option_bind];
    rewrite ?IH; cbn -[sextet Z.shiftl Z.shiftr Z.add z2b]; repeat f_equal; apply z2b_eq; sextets.
Qed.

#[export] Hint Rewrite DecodeString_Encode : kubevpn.
