(* ===== verification/Allocator.v ===== *)
(** * The address allocator behind the DHCP manager

    The vendored [github.com/cilium/ipam]: [allocator.AllocationBitmap] with the
    contiguous strategy (a [big.Int] bitmap and a count) and [ipallocator.Range],
    which maps offsets to addresses.  Only the parts [pkg/handler/dhcp.go] calls are
    modelled.  A [big.Int] is a [Z], never negative here. *)
From Stdlib Require Import ZArith Lia.
From Stdlib Require Import Strings.Byte.
From stdpp Require Import base strings list numbers.
From S2P Require Import Prelude GoStrings GoNet Config.

Local Open Scope Z_scope.

(** ** Bit counting *)

Fixpoint popcount (p : positive) : Z :=
  match p with xH => 1 | xO p => popcount p | xI p => 1 + popcount p end.

Definition countBits (z : Z) : Z := match z with Zpos p => popcount p | _ => 0 end.

Lemma countBits_nonneg z : 0 ≤ countBits z.
Proof. destruct z as [|p|p]; cbn; [lia| |lia]. induction p; cbn; lia. Qed.

Lemma countBits_double z (b : bool) : 0 ≤ z →
  countBits (2 * z + Z.b2z b) = Z.b2z b + countBits z.
Proof. destruct z as [|p|p], b; cbn; try done; lia. Qed.

Lemma bits_split z : 0 ≤ z → z = 2 * (z `div` 2) + Z.b2z (Z.testbit z 0).
Proof. intros. rewrite Z.bit0_mod. pose proof (Z.div_mod z 2). lia. Qed.

Lemma setbit_succ z i : 0 ≤ i →
  Z.setbit z (Z.succ i) = 2 * Z.setbit (z `div` 2) i + Z.b2z (Z.testbit z 0).
Proof.
  intros Hi. apply Z.bits_inj'. intros n Hn. rewrite Z.setbit_eqb by lia.
  destruct (decide (n = 0)) as [->|Hne].
  - rewrite Z.testbit_0_r. by destruct (Z.eqb_spec (Z.succ i) 0); [lia|].
  - replace n with (Z.succ (n - 1)) at 3 by lia. rewrite Z.testbit_succ_r by lia.
    rewrite Z.setbit_eqb, Z.div2_bits by lia. f_equal.
    + destruct (Z.eqb_spec (Z.succ i) n), (Z.eqb_spec i (n - 1)); lia.
    + f_equal. lia.
Qed.

Lemma setbit_nonneg z i : 0 ≤ z → 0 ≤ Z.setbit z i.
Proof. intros. unfold Z.setbit. apply Z.lor_nonneg. split; [done|]. by apply Z.shiftl_nonneg. Qed.
Lemma clearbit_nonneg z i : 0 ≤ z → 0 ≤ Z.clearbit z i.
Proof. intros. unfold Z.clearbit. apply Z.ldiff_nonneg. lia. Qed.

Lemma setbit_0 z : 0 ≤ z → Z.testbit z 0 = false → Z.setbit z 0 = 2 * (z `div` 2) + Z.b2z true.
Proof.
  intros Hz Hb. rewrite (bits_split z Hz) at 1. rewrite Hb. apply Z.bits_inj'. intros n Hn.
  rewrite Z.setbit_eqb, Z.add_0_r by lia. destruct (decide (n = 0)) as [->|Hne].
  - by rewrite Z.testbit_0_r.
  - replace n with (Z.succ (n - 1)) by lia.
    rewrite Z.testbit_succ_r, Z.testbit_even_succ by lia.
    by destruct (Z.eqb_spec 0 (Z.succ (n - 1))); [lia|].
Qed.

(** Setting a clear bit adds one to the count, clearing a set bit removes one. *)
Lemma countBits_setbit z i : 0 ≤ z → 0 ≤ i → Z.testbit z i = false →
  countBits (Z.setbit z i) = countBits z + 1.
Proof.
  intros Hz Hi. revert z Hz. pattern i. apply natlike_ind; [..|done]; clear i Hi.
  - intros z Hz Hb. rewrite setbit_0 by done.
    rewrite countBits_double by (apply Z.div_pos; lia).
    rewrite (bits_split z Hz) at 2. rewrite Hb, countBits_double by (apply Z.div_pos; lia). cbn. lia.
  - intros i Hi IH z Hz Hb. rewrite setbit_succ by done.
    rewrite countBits_double by (apply setbit_nonneg, Z.div_pos; lia).
    rewrite IH; [|apply Z.div_pos; lia|rewrite Z.div2_bits by lia; done].
    rewrite (bits_split z Hz) at 3. rewrite countBits_double by (apply Z.div_pos; lia). lia.
Qed.

Lemma setbit_clearbit z i : 0 ≤ i → Z.testbit z i = true → Z.setbit (Z.clearbit z i) i = z.
Proof.
  intros Hi Hb. apply Z.bits_inj'. intros n Hn. rewrite Z.setbit_eqb, Z.clearbit_eqb by lia.
  destruct (Z.eqb_spec i n) as [<-|]; cbn; [done|]. by rewrite andb_true_r.
Qed.

Lemma clearbit_setbit z i : 0 ≤ i → Z.testbit z i = false → Z.clearbit (Z.setbit z i) i = z.
Proof.
  intros Hi Hb. apply Z.bits_inj'. intros n Hn. rewrite Z.clearbit_eqb, Z.setbit_eqb by lia.
  destruct (Z.eqb_spec i n) as [<-|]; cbn; [done|]. by rewrite andb_true_r.
Qed.

Lemma countBits_clearbit z i : 0 ≤ z → 0 ≤ i → Z.testbit z i = true →
  countBits (Z.clearbit z i) = countBits z - 1.
Proof.
  intros Hz Hi Hb. rewrite <-(setbit_clearbit z i Hi Hb) at 2.
  rewrite countBits_setbit; [lia|by apply clearbit_nonneg|done|].
  rewrite Z.clearbit_eqb, Z.eqb_refl by lia. cbn. apply andb_false_r.
Qed.

(** ** [AllocationBitmap] *)

Record AllocationBitmap := MkBitmap {
  bm_max : Z; bm_rangeSpec : string; bm_count : Z; bm_allocated : Z }.

Definition NewContiguousAllocationMap (max : Z) (rangeSpec : string) : AllocationBitmap :=
  MkBitmap max rangeSpec 0 0.

(** The loop of [contiguousScanStrategy.AllocateBit] from [i]; [fuel] bounds the
    remaining iterations, [max - i] are enough. *)
Fixpoint scan (fuel : nat) (allocated max i : Z) : option Z :=
  match fuel with
  | O => None
  | S fuel =>
      if i <? max then
        if negb (Z.testbit allocated i) then Some i else scan fuel allocated max (i + 1)
      else None
  end.

Definition AllocateBit (allocated max count : Z) : option Z :=
  if max <=? count then None else scan (Z.to_nat max) allocated max 0.

Definition bm_AllocateNext (r : AllocationBitmap) : AllocationBitmap * option Z :=
  match AllocateBit (bm_allocated r) (bm_max r) (bm_count r) with
  | None => (r, None)
  | Some next =>
      (MkBitmap (bm_max r) (bm_rangeSpec r) (bm_count r + 1) (Z.setbit (bm_allocated r) next),
       Some next)
  end.

Definition bm_Allocate (r : AllocationBitmap) (offset : Z) : AllocationBitmap * bool :=
  if Z.testbit (bm_allocated r) offset then (r, false)
  else (MkBitmap (bm_max r) (bm_rangeSpec r) (bm_count r + 1) (Z.setbit (bm_allocated r) offset),
        true).

Definition bm_Release (r : AllocationBitmap) (offset : Z) : AllocationBitmap :=
  if negb (Z.testbit (bm_allocated r) offset) then r
  else MkBitmap (bm_max r) (bm_rangeSpec r) (bm_count r - 1) (Z.clearbit (bm_allocated r) offset).

Definition bm_Has (r : AllocationBitmap) (offset : Z) : bool := Z.testbit (bm_allocated r) offset.
Definition bm_Free (r : AllocationBitmap) : Z := bm_max r - bm_count r.

(** [ForEach]: the offsets, in the order the callback sees them. *)
Fixpoint set_bits (p : positive) (i : Z) : list Z :=
  match p with
  | xH => [i]
  | xO p => set_bits p (i + 1)
  | xI p => i :: set_bits p (i + 1)
  end.
Definition bm_ForEach (r : AllocationBitmap) : list Z :=
  match bm_allocated r with Zpos p => set_bits p 0 | _ => [] end.

(** [big.Int.Bytes]: big-endian, no leading zero byte. *)
Definition big_bytes (z : Z) : list byte :=
  if z <=? 0 then [] else be_fixed (S (Z.to_nat (Z.log2 z / 8))) z.

Definition bm_Snapshot (r : AllocationBitmap) : string * list byte :=
  (bm_rangeSpec r, big_bytes (bm_allocated r)).

Definition bm_Restore (r : AllocationBitmap) (rangeSpec : string) (data : list byte)
  : outcome AllocationBitmap :=
  if String.eqb (bm_rangeSpec r) rangeSpec then
    let allocated := be_val data in
    Ret (MkBitmap (bm_max r) (bm_rangeSpec r) (countBits allocated) allocated)
  else Fail (Errorf "the provided range does not match the current range").

(** ** [Range] *)

Record Range := MkRange { r_net : IPNet; r_base : Z; r_max : Z; r_alloc : AllocationBitmap }.

Definition with_alloc (r : Range) (a : AllocationBitmap) : Range :=
  MkRange (r_net r) (r_base r) (r_max r) a.

Definition bigForIP (ip : list byte) : Z := be_val (To16 ip).

(** [addIPOffset]: the last sixteen bytes of the sum. *)
Definition addIPOffset (base offset : Z) : list byte := be_fixed 16 (base + offset).

(** [big.Int.Int64]: the low 64 bits with the sign, as two's complement. *)
Definition calculateIPOffset (base : Z) (ip : list byte) : Z := wrap64 (bigForIP ip - base).

Definition RangeSize (subnet : IPNet) : Z :=
  let '(ones, bits) := MaskSize (net_Mask subnet) in
  let host := Z.of_nat bits - Z.of_nat ones in
  if (Nat.eqb bits 32 && (31 <=? host)) || (Nat.eqb bits 128 && (127 <=? host)) then 0
  else if Nat.eqb bits 128 && (16 <=? host) then Z.shiftl 1 16
  else Z.shiftl 1 host.

(** [NewAllocatorCIDRRange] with the factory of the DHCP manager. *)
Definition NewAllocatorCIDRRange (cidr : IPNet) : Range :=
  let max := RangeSize cidr in
  let base := bigForIP (net_IP cidr) + 1 in
  let max := Z.max 0 (max - 2) in
  MkRange cidr base max (NewContiguousAllocationMap max (IPNet_String cidr)).

Definition contains (r : Range) (ip : list byte) : option Z :=
  if negb (IPNet_Contains (r_net r) ip) then None
  else
    let offset := calculateIPOffset (r_base r) ip in
    if (offset <? 0) || (r_max r <=? offset) then None else Some offset.

Definition ErrFull : error := Errorf "range is full".
Definition ErrAllocated : error := Errorf "provided IP is already allocated".
Definition ErrNotInRange : error := Errorf "provided IP is not in the valid range".
Definition ErrMismatchedNetwork : error :=
  Errorf "the provided network does not match the current range".

Definition AllocateNext (r : Range) : Range * outcome (list byte) :=
  match bm_AllocateNext (r_alloc r) with
  | (a, None) => (with_alloc r a, Fail ErrFull)
  | (a, Some offset) => (with_alloc r a, Ret (addIPOffset (r_base r) offset))
  end.

Definition Allocate (r : Range) (ip : list byte) : Range * outcome unit :=
  match contains r ip with
  | None => (r, Fail ErrNotInRange)
  | Some offset =>
      let '(a, ok) := bm_Allocate (r_alloc r) offset in
      (with_alloc r a, if (ok : bool) then Ret tt else Fail ErrAllocated)
  end.

Definition Release (r : Range) (ip : list byte) : Range :=
  match contains r ip with
  | None => r
  | Some offset => with_alloc r (bm_Release (r_alloc r) offset)
  end.

Definition Has (r : Range) (ip : list byte) : bool :=
  match contains r ip with None => false | Some offset => bm_Has (r_alloc r) offset end.

Definition GetIndexedIP (subnet : IPNet) (index : Z) : outcome (list byte) :=
  let ip := addIPOffset (bigForIP (net_IP subnet)) index in
  if IPNet_Contains subnet ip then Ret ip else Fail (Errorf "can't generate IP with index").

(** [ForEach]: the addresses handed to the callback; the error is discarded and the
    address is then nil. *)
Definition ForEach (r : Range) : list (list byte) :=
  (λ offset, match GetIndexedIP (r_net r) (offset + 1) with Ret ip => ip | _ => [] end)
    <$> bm_ForEach (r_alloc r).

Definition Snapshot (r : Range) : string * list byte := bm_Snapshot (r_alloc r).

(** [Restore]; masks are compared by their text, which is injective on bytes. *)
Definition Restore (r : Range) (net : IPNet) (data : list byte) : outcome Range :=
  if negb (IP_Equal (net_IP net) (net_IP (r_net r))) ||
     negb (String.eqb (hexString (net_Mask net)) (hexString (net_Mask (r_net r))))
  then Fail ErrMismatchedNetwork
  else match bm_Restore (r_alloc r) (IPNet_String net) data with
  | Ret a => Ret (with_alloc r a)
  | Fail e => Fail (ErrorfV "restoring snapshot encountered" e)
  | Panic => Panic
  end.

(** ** Lemmas: the bitmap *)

Lemma scan_Some fuel z max i o :
  scan fuel z max i = Some o →
  i ≤ o < max ∧ Z.testbit z o = false ∧ ∀ j, i ≤ j < o → Z.testbit z j = true.
Proof.
  revert i. induction fuel as [|fuel IH]; intros i; cbn; [done|].
  destruct (Z.ltb_spec i max); [|done]. destruct (Z.testbit z i) eqn:E; cbn.
  - intros (? & ? & Hlow)%IH. split_and!; [lia|lia|done|].
    intros j Hj. destruct (decide (j = i)) as [->|]; [done|]. apply Hlow. lia.
  - intros [= <-]. split_and!; [lia|lia|done|]. intros; lia.
Qed.

Lemma scan_None fuel z max i :
  max - i ≤ Z.of_nat fuel → scan fuel z max i = None → ∀ j, i ≤ j < max → Z.testbit z j = true.
Proof.
  revert i. induction fuel as [|fuel IH]; intros i Hf; cbn [scan].
  { intros _ j Hj. lia. }
  destruct (Z.ltb_spec i max); [|intros; lia]. destruct (Z.testbit z i) eqn:E; cbn [negb]; [|done].
  intros Hs j Hj. destruct (decide (j = i)) as [->|]; [done|]. apply (IH (i + 1)); [lia|done|lia].
Qed.

(** The count is the number of set bits. *)
Definition bm_wf (r : AllocationBitmap) : Prop :=
  0 ≤ bm_allocated r ∧ bm_count r = countBits (bm_allocated r).

(** Only offsets below [max] are allocated. *)
Definition bm_bounded (r : AllocationBitmap) : Prop :=
  bm_wf r ∧ ∀ i, bm_max r ≤ i → Z.testbit (bm_allocated r) i = false.

Lemma countBits_lt n z : 0 ≤ z → (∀ i, Z.of_nat n ≤ i → Z.testbit z i = false) →
  countBits z ≤ Z.of_nat n ∧
  ∀ i, 0 ≤ i < Z.of_nat n → Z.testbit z i = false → countBits z < Z.of_nat n.
Proof.
  revert z. induction n as [|n IH]; intros z Hz Hb.
  { assert (z = 0) as ->; [|cbn; split; [lia|intros; lia]].
    apply Z.bits_inj'. intros i Hi. rewrite Z.bits_0. apply Hb. lia. }
  assert (0 ≤ z `div` 2) as Hd by (apply Z.div_pos; lia).
  destruct (IH (z `div` 2) Hd) as [H1 H2].
  { intros i Hi. rewrite Z.div2_bits by lia. apply Hb. lia. }
  rewrite (bits_split z Hz), countBits_double, <-(bits_split z Hz) by done. split.
  - destruct (Z.testbit z 0); cbn [Z.b2z]; lia.
  - intros i Hi Hf. destruct (decide (i = 0)) as [->|]; [rewrite Hf; cbn [Z.b2z]; lia|].
    specialize (H2 (i - 1)). rewrite Z.div2_bits, Z.sub_1_r, Z.succ_pred in H2 by lia.
    specialize (H2 ltac:(lia) Hf). destruct (Z.testbit z 0); cbn [Z.b2z]; lia.
Qed.

Lemma bm_AllocateNext_Some r a o :
  bm_AllocateNext r = (a, Some o) →
  0 ≤ o < bm_max r ∧ bm_Has r o = false ∧ (∀ j, 0 ≤ j < o → bm_Has r j = true) ∧
  a = MkBitmap (bm_max r) (bm_rangeSpec r) (bm_count r + 1) (Z.setbit (bm_allocated r) o).
Proof.
  unfold bm_AllocateNext, AllocateBit, bm_Has. destruct (_ <=? _); [done|].
  destruct (scan _ _ _ _) as [o'|] eqn:E; [|done]. intros [= <- <-].
  apply scan_Some in E. tauto.
Qed.

Lemma bm_AllocateNext_None r a :
  bm_bounded r → bm_AllocateNext r = (a, None) → ∀ j, 0 ≤ j < bm_max r → bm_Has r j = true.
Proof.
  intros [[Hz Hc] Hb]. unfold bm_AllocateNext, AllocateBit, bm_Has.
  destruct (Z.leb_spec (bm_max r) (bm_count r)) as [Hfull|_].
  - intros _ j Hj. destruct (Z.testbit (bm_allocated r) j) eqn:E; [done|exfalso].
    destruct (countBits_lt (Z.to_nat (bm_max r)) (bm_allocated r) Hz) as [_ Hlt].
    { intros i Hi. apply Hb. lia. }
    specialize (Hlt j ltac:(lia) E). lia.
  - destruct (scan _ _ _ _) eqn:E; [done|]. intros _ j Hj.
    eapply scan_None; [|done|lia]. lia.
Qed.

Lemma setbit_has z o j : 0 ≤ o → Z.testbit (Z.setbit z o) j = (o =? j) || Z.testbit z j.
Proof. intros. by apply Z.setbit_eqb. Qed.

Lemma bm_AllocateNext_bounded r : bm_bounded r → bm_bounded (fst (bm_AllocateNext r)).
Proof.
  intros [[Hz Hc] Hb]. destruct (bm_AllocateNext r) as [a [o|]] eqn:E; cbn [fst].
  - apply bm_AllocateNext_Some in E as (Ho & Hf & _ & ->). split; [split|]; cbn.
    + by apply setbit_nonneg.
    + rewrite countBits_setbit; [lia|done|lia|done].
    + intros i Hi. rewrite setbit_has, Hb by lia. rewrite orb_false_r. apply Z.eqb_neq. lia.
  - unfold bm_AllocateNext in E. destruct (AllocateBit _ _ _); [done|].
    injection E as <-. done.
Qed.

Lemma bm_Release_has r o j : 0 ≤ o →
  bm_Has (bm_Release r o) j = bm_Has r j && negb (o =? j).
Proof.
  intros Ho. unfold bm_Release, bm_Has. destruct (Z.testbit (bm_allocated r) o) eqn:E; cbn.
  - by apply Z.clearbit_eqb.
  - destruct (Z.eqb_spec o j) as [<-|]; [by rewrite E|]. cbn. by rewrite andb_true_r.
Qed.

Lemma bm_Release_bounded r o : 0 ≤ o → bm_bounded r → bm_bounded (bm_Release r o).
Proof.
  intros Ho [[Hz Hc] Hb]. unfold bm_Release. destruct (Z.testbit _ o) eqn:E; cbn; [|done].
  split; [split|]; cbn.
  - by apply clearbit_nonneg.
  - by rewrite countBits_clearbit, Hc.
  - intros i Hi. rewrite Z.clearbit_eqb, Hb by lia. done.
Qed.

Lemma be_val_big_bytes z : 0 ≤ z → be_val (big_bytes z) = z.
Proof.
  intros Hz. unfold big_bytes. destruct (Z.leb_spec z 0); [cbn; lia|].
  rewrite be_val_fixed. apply Z.mod_small. split; [done|].
  pose proof (Z.log2_nonneg z). destruct (Z.log2_spec z) as [_ Hl]; [lia|].
  eapply Z.lt_le_trans; [done|]. change 256 with (2 ^ 8). rewrite <-Z.pow_mul_r by lia.
  apply Z.pow_le_mono_r; [lia|]. Z.to_euclidean_division_equations. lia.
Qed.

(** Saving and restoring a bitmap gives it back. *)
Lemma bm_snapshot_restore r a : bm_wf r → bm_max a = bm_max r → bm_rangeSpec a = bm_rangeSpec r →
  bm_Restore a (bm_rangeSpec r) (snd (bm_Snapshot r)) = Ret r.
Proof.
  intros [Hz Hc] Hm Hs. unfold bm_Restore, bm_Snapshot. cbn [snd].
  rewrite Hs, String.eqb_refl, be_val_big_bytes by done. rewrite Hm, <-Hc. by destruct r.
Qed.

(** ** Lemmas: ranges *)

Lemma be_fixed_app n m z : be_fixed (n + m) z = be_fixed n (z `div` 256 ^ Z.of_nat m) ++ be_fixed m z.
Proof.
  revert z. induction m as [|m IH]; intros z.
  { rewrite Nat.add_0_r. cbn [be_fixed]. by rewrite Z.div_1_r, app_nil_r. }
  rewrite Nat.add_succ_r. cbn [be_fixed]. rewrite IH, <-app_assoc. do 2 f_equal.
  rewrite Zdiv_Zdiv by lia. f_equal. rewrite Nat2Z.inj_succ, Z.pow_succ_r by lia. done.
Qed.

Lemma bigForIP_addIPOffset base o : 0 ≤ base + o < 2 ^ 128 → bigForIP (addIPOffset base o) = base + o.
Proof.
  intros H. unfold bigForIP, addIPOffset, To16.
  rewrite length_be_fixed. cbn [bool_decide]. rewrite bool_decide_eq_false_2 by lia.
  rewrite bool_decide_eq_true_2 by done. rewrite be_val_fixed. by apply Z.mod_small.
Qed.

Lemma contains_addIPOffset r o :
  IPNet_Contains (r_net r) (addIPOffset (r_base r) o) = true →
  0 ≤ r_base r → r_base r + o < 2 ^ 128 → 0 ≤ o < r_max r → r_max r ≤ 2 ^ 63 →
  contains r (addIPOffset (r_base r) o) = Some o.
Proof.
  intros Hc Hb Hlt Ho Hm. unfold contains. rewrite Hc. cbn [negb]. unfold calculateIPOffset.
  rewrite bigForIP_addIPOffset by lia.
  replace (r_base r + o - r_base r) with o by lia. rewrite wrap64_small by lia.
  destruct (Z.ltb_spec o 0), (Z.leb_spec (r_max r) o); try lia. done.
Qed.

Lemma contains_range r ip o : contains r ip = Some o → 0 ≤ o < r_max r.
Proof.
  unfold contains. destruct (negb _); [done|].
  destruct (Z.ltb_spec (calculateIPOffset (r_base r) ip) 0); [done|].
  destruct (Z.leb_spec (r_max r) (calculateIPOffset (r_base r) ip)); [done|].
  intros [= <-]. lia.
Qed.

Lemma addIPOffset_inj base o o' :
  0 ≤ o < 2 ^ 128 → 0 ≤ o' < 2 ^ 128 → addIPOffset base o = addIPOffset base o' → o = o'.
Proof.
  intros H H' E. unfold addIPOffset in E. apply (f_equal be_val) in E. rewrite !be_val_fixed in E.
  change (256 ^ Z.of_nat 16) with (2 ^ 128) in E.
  Z.to_euclidean_division_equations. nia.
Qed.
