(* ===== verification/KubeApi.v ===== *)
(** * The ConfigMap API the program calls

    [corev1.ConfigMapInterface] is a service: it is a class of operations over an
    abstract server state, with the documented behaviour the code relies on as its
    laws (a successful write is what the next read returns; an update carries the
    resource version it was based on and is refused with a conflict when that is
    not the current one; versions grow).  [mem] is an instance, a map with a
    version counter, so the laws can hold. *)
From Stdlib Require Import ZArith Lia.
From stdpp Require Import base gmap strings list numbers.
From S2P Require Import Prelude.

(** [v1.ConfigMap]; [Data] may be a nil map. *)
Record ConfigMap := MkConfigMap {
  cm_Name : string;
  cm_Version : nat;
  cm_Data : option (gmap string string) }.

Definition with_data (cm : ConfigMap) (d : gmap string string) : ConfigMap :=
  MkConfigMap (cm_Name cm) (cm_Version cm) (Some d).

(** Reading [cm.Data[key]]: the empty string when absent, also on a nil map. *)
Definition data_map (cm : ConfigMap) : gmap string string := default ∅ (cm_Data cm).
Definition data_get (cm : ConfigMap) (key : string) : string := default "" (data_map cm !! key).

Class ConfigMapInterface (S : Type) := {
  cmGet : S → string → outcome ConfigMap;
  cmUpdate : S → ConfigMap → S * outcome ConfigMap;
  cmCreate : S → ConfigMap → S * outcome ConfigMap;
  (** a merge patch of [data] *)
  cmPatch : S → string → gmap string string → S * outcome ConfigMap;
  (** a JSON patch that removes keys of [data] *)
  cmRemoveKeys : S → string → list string → S * outcome ConfigMap;
  cmDelete : S → string → S * outcome unit;
}.

Class ConfigMapLaws (S : Type) `{ConfigMapInterface S} : Prop := {
  get_name s n cm : cmGet s n = Ret cm → cm_Name cm = n;
  get_no_panic s n : cmGet s n ≠ Panic;
  update_no_panic s cm : snd (cmUpdate s cm) ≠ Panic;
  update_ok s cm s' cm' :
    cmUpdate s cm = (s', Ret cm') →
    cmGet s' (cm_Name cm) = Ret cm' ∧ cm_Data cm' = cm_Data cm ∧ cm_Version cm < cm_Version cm' ∧
    (∃ cur, cmGet s (cm_Name cm) = Ret cur ∧ cm_Version cur = cm_Version cm);
  update_conflict s cm s' :
    cmUpdate s cm = (s', Fail Conflict) → cmGet s' (cm_Name cm) = cmGet s (cm_Name cm);
  patch_ok s n d s' cm' :
    cmPatch s n d = (s', Ret cm') →
    cmGet s' n = Ret cm' ∧
    (∃ cur, cmGet s n = Ret cur ∧ cm_Data cm' = Some (d ∪ data_map cur) ∧
            cm_Version cur < cm_Version cm');
  remove_keys_ok s n keys s' cm' :
    cmRemoveKeys s n keys = (s', Ret cm') →
    cmGet s' n = Ret cm' ∧
    (∃ cur, cmGet s n = Ret cur ∧
            (∀ k, k ∈ keys → is_Some (data_map cur !! k)) ∧
            ∀ k, data_map cm' !! k = if decide (k ∈ keys) then None else data_map cur !! k);
  delete_ok s n s' u : cmDelete s n = (s', Ret u) → cmGet s' n = Fail NotFound;
  create_ok s cm s' cm' :
    cmCreate s cm = (s', Ret cm') →
    cmGet s (cm_Name cm) = Fail NotFound ∧
    cmGet s' (cm_Name cm) = Ret cm' ∧ cm_Data cm' = cm_Data cm;
}.

(** ** An in-memory server *)

Record mem := MkMem { objs : gmap string ConfigMap; clock : nat }.

(** Names agree with keys, and no object is from the future. *)
Definition mem_get (s : mem) (n : string) : outcome ConfigMap :=
  match objs s !! n with
  | Some cm => Ret (MkConfigMap n (cm_Version cm) (cm_Data cm))
  | None => Fail NotFound
  end.

Definition mem_put (s : mem) (n : string) (old : nat) (d : option (gmap string string))
  : mem * outcome ConfigMap :=
  let v := S (Nat.max old (clock s)) in
  let cm := MkConfigMap n v d in
  (MkMem (<[n := cm]> (objs s)) v, Ret cm).

Definition mem_update (s : mem) (cm : ConfigMap) : mem * outcome ConfigMap :=
  match mem_get s (cm_Name cm) with
  | Ret cur =>
      if cm_Version cur =? cm_Version cm
      then mem_put s (cm_Name cm) (cm_Version cur) (cm_Data cm)
      else (s, Fail Conflict)
  | Fail e => (s, Fail e)
  | Panic => (s, Fail NotFound)
  end.

Definition mem_create (s : mem) (cm : ConfigMap) : mem * outcome ConfigMap :=
  match objs s !! cm_Name cm with
  | Some _ => (s, Fail AlreadyExists)
  | None => mem_put s (cm_Name cm) 0 (cm_Data cm)
  end.

Definition mem_patch (s : mem) (n : string) (d : gmap string string) : mem * outcome ConfigMap :=
  match mem_get s n with
  | Ret cur => mem_put s n (cm_Version cur) (Some (d ∪ data_map cur))
  | Fail e => (s, Fail e)
  | Panic => (s, Fail NotFound)
  end.

(** A JSON patch is refused as a whole when one of its keys is absent. *)
Definition mem_remove_keys (s : mem) (n : string) (keys : list string) : mem * outcome ConfigMap :=
  match mem_get s n with
  | Ret cur =>
      if forallb (λ k, bool_decide (is_Some (data_map cur !! k))) keys
      then mem_put s n (cm_Version cur) (Some (foldr delete (data_map cur) keys))
      else (s, Fail (Errorf "the server rejected our request due to an error in our request"))
  | Fail e => (s, Fail e)
  | Panic => (s, Fail NotFound)
  end.

Definition mem_delete (s : mem) (n : string) : mem * outcome unit :=
  match objs s !! n with
  | Some _ => (MkMem (delete n (objs s)) (clock s), Ret tt)
  | None => (s, Fail NotFound)
  end.

#[export] Instance mem_interface : ConfigMapInterface mem := {
  cmGet := mem_get; cmUpdate := mem_update; cmCreate := mem_create; cmPatch := mem_patch;
  cmRemoveKeys := mem_remove_keys; cmDelete := mem_delete }.

Lemma lookup_foldr_delete (keys : list string) (m : gmap string string) k :
  foldr delete m keys !! k = if decide (k ∈ keys) then None else m !! k.
Proof.
  induction keys as [|k0 keys IH]; cbn.
  { by rewrite decide_False by set_solver. }
  destruct (decide (k0 = k)) as [->|Hne].
  - rewrite lookup_delete_eq, decide_True by set_solver. done.
  - rewrite lookup_delete_ne, IH by done. by repeat case_decide; set_solver.
Qed.

Lemma mem_get_put s n old d s' cm :
  mem_put s n old d = (s', Ret cm) →
  mem_get s' n = Ret cm ∧ cm_Data cm = d ∧ old < cm_Version cm.
Proof.
  intros [= <- <-]. unfold mem_get. cbn.
  rewrite (lookup_insert_eq (M := gmap string)). cbn. split_and!; [done|done|lia].
Qed.

#[export] Instance mem_laws : ConfigMapLaws mem.
Proof.
  split; cbn.
  - intros s n cm. unfold mem_get. destruct (objs s !! n); intros; by simplify_eq.
  - intros s n. unfold mem_get. by destruct (objs s !! n).
  - intros s cm. unfold mem_update, mem_put.
    destruct (mem_get s _); [destruct (_ =? _)|..]; done.
  - intros s cm s' cm'. unfold mem_update.
    destruct (mem_get s (cm_Name cm)) as [cur| |]; [|done..].
    destruct (Nat.eqb_spec (cm_Version cur) (cm_Version cm)) as [E|]; [|done].
    intros (? & ? & ?)%mem_get_put. split_and!; [done|done|lia|eauto].
  - intros s cm s'. unfold mem_update, mem_put.
    destruct (mem_get s (cm_Name cm)) as [cur| |] eqn:E; [destruct (_ =? _)|..];
      intros [= <-]; done.
  - intros s n d s' cm'. unfold mem_patch. destruct (mem_get s n) as [cur| |]; [|done..].
    intros (? & ? & ?)%mem_get_put. split; [done|]. eauto.
  - intros s n keys s' cm'. unfold mem_remove_keys.
    destruct (mem_get s n) as [cur| |]; [|done..].
    destruct (forallb _ _) eqn:Ef; [|done]. intros (? & Hd & ?)%mem_get_put. split; [done|].
    exists cur. split; [done|]. split.
    + intros k Hk. rewrite forallb_forall in Ef. apply list_elem_of_In, Ef in Hk.
      by apply bool_decide_eq_true in Hk.
    + intros k. unfold data_map at 1. rewrite Hd. cbn. apply lookup_foldr_delete.
  - intros s n s' u. unfold mem_delete. destruct (objs s !! n); [|done]. intros [= <- <-].
    unfold mem_get. cbn. by rewrite (lookup_delete_eq (M := gmap string)).
  - intros s cm s' cm'. unfold mem_create. destruct (objs s !! cm_Name cm) eqn:E; [done|].
    intros (? & ? & ?)%mem_get_put. unfold mem_get at 1. by rewrite E.
Qed.
