(* ===== verification/Dhcp.v ===== *)
(** * The DHCP manager

    [pkg/handler/dhcp.go] and its HTTP face [pkg/webhook/dhcp.go]: leases of the
    inner IPv4 and IPv6 pools are two bitmaps, base64 text under two keys of one
    ConfigMap.  Every operation reads the object, changes the bitmaps and writes the
    object back, relying on the API server's conflict detection.  The operations are
    defined over the interface of [KubeApi]; the properties are proved against its
    laws, and used at the in-memory server by the witnesses. *)
From Stdlib Require Import ZArith Lia.
From Stdlib Require Import Strings.Byte.
From stdpp Require Import base gmap strings list numbers relations.
From S2P Require Import Prelude GoStrings GoNet Config Base64 Allocator KubeApi.

Record DHCPManager := MkDHCP { d_cidr : IPNet; d_cidr6 : IPNet }.

(** [NewDHCPManager]: the networks are based at the router's address, not at the
    pool's. *)
Definition NewDHCPManager : DHCPManager :=
  MkDHCP (MkIPNet RouterIP (net_Mask CIDR)) (MkIPNet RouterIP6 (net_Mask CIDR6)).

(** What [net.InterfaceAddrs] lists: only [*net.IPNet] values are looked at. *)
Inductive net_addr := AddrIPNet (n : IPNet) | AddrOther.

Definition isAlreadyExisted (addrs : list net_addr) (ip : list byte) : bool :=
  existsb (λ a, match a with AddrIPNet n => IP_Equal (net_IP n) ip | AddrOther => false end) addrs.

(** The [for] loop around [AllocateNext]; [None] is running out of fuel, [max + 1]
    turns are enough because every turn takes one address. *)
Fixpoint alloc_loop (fuel : nat) (existed : list byte → bool) (r : Range)
  : option (outcome (Range * list byte)) :=
  match fuel with
  | O => None
  | S fuel =>
      match AllocateNext r with
      | (_, Fail e) => Some (Fail e)
      | (_, Panic) => Some Panic
      | (r, Ret ip) => if existed ip then alloc_loop fuel existed r else Some (Ret (r, ip))
      end
  end.

Definition alloc_fuel (r : Range) : nat := S (Z.to_nat (Z.max 0 (bm_Free (r_alloc r)))).

(** The closure of [RentIPBaseNICAddress] and [RentIPRandom]. *)
Definition rent_closure (addrs : list net_addr) (ipv4 ipv6 : Range)
  : option (outcome (Range * Range * (list byte * list byte))) :=
  match alloc_loop (alloc_fuel ipv4) (isAlreadyExisted addrs) ipv4 with
  | Some (Ret (ipv4, v4)) =>
      match alloc_loop (alloc_fuel ipv6) (isAlreadyExisted addrs) ipv6 with
      | Some (Ret (ipv6, v6)) => Some (Ret (ipv4, ipv6, (v4, v6)))
      | Some (Fail e) => Some (Fail e)
      | Some Panic => Some Panic
      | None => None
      end
  | Some (Fail e) => Some (Fail e)
  | Some Panic => Some Panic
  | None => None
  end.

(** The closure of [ReleaseIP]; [Range.Release] never fails. *)
Definition release_closure (ips : list (list byte)) (ipv4 ipv6 : Range)
  : option (outcome (Range * Range * unit)) :=
  let '(ipv4, ipv6) :=
    fold_left (λ '(ipv4, ipv6) ip,
      match To4 ip with
      | Some _ => (Release ipv4 ip, ipv6)
      | None => (ipv4, Release ipv6 ip)
      end) ips (ipv4, ipv6) in
  Some (Ret (ipv4, ipv6, tt)).

(** A pool as [updateDHCPConfigMap] loads it: a text that is not base64 leaves the
    fresh, empty pool. *)
Definition load_range (cidr : IPNet) (text : string) : outcome Range :=
  let r := NewAllocatorCIDRRange cidr in
  match DecodeString text with
  | Some str => Restore r cidr str
  | None => Ret r
  end.

Definition save_range (r : Range) : string := EncodeToString (snd (Snapshot r)).

Section Manager.
Context {S : Type} `{API : ConfigMapInterface S} (d : DHCPManager).

Definition updateDHCPConfigMap {A : Type} (s : S)
    (f : Range → Range → option (outcome (Range * Range * A))) : S * option (outcome A) :=
  match cmGet s ConfigMapPodTrafficManager with
  | Fail e => (s, Some (Fail (ErrorfV "failed to get cm DHCP server" e)))
  | Panic => (s, Some Panic)
  | Ret cm =>
      match load_range (d_cidr d) (data_get cm KeyDHCP) with
      | Fail e => (s, Some (Fail e))
      | Panic => (s, Some Panic)
      | Ret dhcp =>
          match load_range (d_cidr6 d) (data_get cm KeyDHCP6) with
          | Fail e => (s, Some (Fail e))
          | Panic => (s, Some Panic)
          | Ret dhcp6 =>
              match f dhcp dhcp6 with
              | None => (s, None)
              | Some (Fail e) => (s, Some (Fail e))
              | Some Panic => (s, Some Panic)
              | Some (Ret (dhcp, dhcp6, a)) =>
                  let cm := with_data cm (<[KeyDHCP6 := save_range dhcp6]>
                                            (<[KeyDHCP := save_range dhcp]> (data_map cm))) in
                  match cmUpdate s cm with
                  | (s, Ret _) => (s, Some (Ret a))
                  | (s, Fail e) => (s, Some (Fail (ErrorfV "update dhcp failed" e)))
                  | (s, Panic) => (s, Some Panic)
                  end
              end
          end
      end
  end.

(** [RentIPBaseNICAddress]; [RentIPRandom] is the same code (and also logs). *)
Definition RentIPBaseNICAddress (s : S) (addrs : outcome (list net_addr))
  : S * option (outcome (IPNet * IPNet)) :=
  match addrs with
  | Fail e => (s, Some (Fail e))
  | Panic => (s, Some Panic)
  | Ret addrs =>
      match updateDHCPConfigMap s (rent_closure addrs) with
      | (s, Some (Ret (v4, v6))) =>
          (s, Some (Ret (MkIPNet v4 (net_Mask (d_cidr d)), MkIPNet v6 (net_Mask (d_cidr6 d)))))
      | (s, Some (Fail e)) => (s, Some (Fail e))
      | (s, Some Panic) => (s, Some Panic)
      | (s, None) => (s, None)
      end
  end.

Definition RentIPRandom (s : S) (addrs : outcome (list net_addr))
  : S * option (outcome (IPNet * IPNet)) :=
  match addrs with
  | Fail e => (s, Some (Fail e))
  | Panic => (s, Some Panic)
  | Ret addrs =>
      match updateDHCPConfigMap s (rent_closure addrs) with
      | (s, Some (Ret (v4, v6))) =>
          (s, Some (Ret (MkIPNet v4 (net_Mask (d_cidr d)), MkIPNet v6 (net_Mask (d_cidr6 d)))))
      | (s, Some (Fail e)) => (s, Some (Fail e))
      | (s, Some Panic) => (s, Some Panic)
      | (s, None) => (s, None)
      end
  end.

Definition ReleaseIP (s : S) (ips : list (list byte)) : S * option (outcome unit) :=
  if length ips =? 0 then (s, Some (Ret tt))
  else updateDHCPConfigMap s (release_closure ips).

(** [initDHCP]: the error built after the patch is returned whether or not the patch
    failed. *)
Definition initDHCP (s : S) : S * outcome unit :=
  match cmGet s ConfigMapPodTrafficManager with
  | Fail NotFound =>
      let cm := MkConfigMap ConfigMapPodTrafficManager 0
                  (Some {[KeyEnvoy := ""; KeyRefCount := "0"]}) in
      match cmCreate s cm with
      | (s, Ret _) => (s, Ret tt)
      | (s, Fail e) => (s, Fail (ErrorfV "create dhcp error" e))
      | (s, Panic) => (s, Panic)
      end
  | Fail e => (s, Fail (ErrorfV "failed to get configmap" e))
  | Panic => (s, Panic)
  | Ret cm =>
      match data_map cm !! KeyEnvoy with
      | Some _ => (s, Ret tt)
      | None =>
          match cmPatch s (cm_Name cm) {[KeyEnvoy := ""]} with
          | (s, Ret _) => (s, Fail (Errorf "failed to patch configmap, err: <nil>"))
          | (s, Fail e) => (s, Fail (ErrorfV "failed to patch configmap" e))
          | (s, Panic) => (s, Panic)
          end
      end
  end.

Definition Set_ (s : S) (key value : string) : S * outcome unit :=
  match cmGet s ConfigMapPodTrafficManager with
  | Fail e => (s, Fail e)
  | Panic => (s, Panic)
  | Ret cm =>
      match cmUpdate s (with_data cm (<[key := value]> (data_map cm))) with
      | (s, Ret _) => (s, Ret tt)
      | (s, Fail e) => (s, Fail e)
      | (s, Panic) => (s, Panic)
      end
  end.

Definition Get_ (s : S) (key : string) : outcome string :=
  match cmGet s ConfigMapPodTrafficManager with
  | Fail e => Fail e
  | Panic => Panic
  | Ret cm =>
      match data_map cm !! key with
      | Some v => Ret v
      | None => Fail (Errorf "can not get data")
      end
  end.

(** [ForEach]: the addresses the callback sees; unlike the update, a text that is
    not base64 is an error here. *)
Definition DHCP_ForEach (s : S) : outcome (list (list byte)) :=
  cm ← cmGet s ConfigMapPodTrafficManager;
  match DecodeString (data_get cm KeyDHCP) with
  | None => Fail (Errorf "illegal base64 data")
  | Some str => r ← Restore (NewAllocatorCIDRRange (d_cidr d)) (d_cidr d) str; Ret (ForEach r)
  end.
End Manager.

(** ** Lemmas: pools and their text *)

Lemma IP_Equal_refl ip : IP_Equal ip ip = true.
Proof. unfold IP_Equal. by rewrite !bool_decide_eq_true_2. Qed.

(** The abstract content of a pool: the set of leased offsets, as a bitmap. *)
Definition stored_bits (text : string) : Z := be_val (default [] (DecodeString text)).

Definition range_at (cidr : IPNet) (z : Z) : Range :=
  let r := NewAllocatorCIDRRange cidr in
  with_alloc r (MkBitmap (r_max r) (IPNet_String cidr) (countBits z) z).

Definition leases (cm : ConfigMap) (key : string) : Z := stored_bits (data_get cm key).

Lemma stored_bits_nonneg text : (0 ≤ stored_bits text)%Z.
Proof. apply be_val_nonneg. Qed.

Lemma load_range_eq cidr text : load_range cidr text = Ret (range_at cidr (stored_bits text)).
Proof.
  unfold load_range, stored_bits. destruct (DecodeString text) as [str|]; [|done].
  unfold Restore, bm_Restore. cbn [NewAllocatorCIDRRange r_net r_alloc bm_rangeSpec].
  rewrite IP_Equal_refl, !String.eqb_refl. done.
Qed.

Lemma stored_bits_save r : bm_wf (r_alloc r) → stored_bits (save_range r) = bm_allocated (r_alloc r).
Proof.
  intros [Hz _]. unfold stored_bits, save_range. rewrite DecodeString_Encode. cbn.
  by apply be_val_big_bytes.
Qed.

Lemma range_at_wf cidr z : (0 ≤ z)%Z → bm_wf (r_alloc (range_at cidr z)).
Proof. by split. Qed.

(** Two ranges that differ in their bitmap's content only. *)
Definition same_range (r r' : Range) : Prop :=
  r_net r' = r_net r ∧ r_base r' = r_base r ∧ r_max r' = r_max r ∧
  bm_max (r_alloc r') = bm_max (r_alloc r).

#[export] Instance same_range_equiv : Equivalence same_range.
Proof. unfold same_range. split; red; intuition congruence. Qed.

(** ** Lemmas: the allocation loop *)

(** What taking the address [ip] does to the bitmap [z]: its offset was free and is
    leased now, leases are kept, and the only other new leases are addresses in use
    on this machine. *)
Definition lease_taken (r : Range) (existed : list byte → bool) (z z' : Z) (ip : list byte) : Prop :=
  ∃ o, (0 ≤ o < bm_max (r_alloc r))%Z ∧ ip = addIPOffset (r_base r) o ∧
    Z.testbit z o = false ∧ Z.testbit z' o = true ∧ existed ip = false ∧
    (∀ j, Z.testbit z j = true → Z.testbit z' j = true) ∧
    (∀ j, Z.testbit z' j = true → Z.testbit z j = true ∨ j = o ∨
            existed (addIPOffset (r_base r) j) = true).

Lemma AllocateNext_Ret r r' ip :
  AllocateNext r = (r', Ret ip) → bm_wf (r_alloc r) →
  same_range r r' ∧ bm_wf (r_alloc r') ∧ bm_Free (r_alloc r') = (bm_Free (r_alloc r) - 1)%Z ∧
  ∃ o, (0 ≤ o < bm_max (r_alloc r))%Z ∧ ip = addIPOffset (r_base r) o ∧
       bm_Has (r_alloc r) o = false ∧
       bm_allocated (r_alloc r') = Z.setbit (bm_allocated (r_alloc r)) o.
Proof.
  unfold AllocateNext. destruct (bm_AllocateNext (r_alloc r)) as [a [o|]] eqn:E; [|done].
  intros [= <- <-] [Hz Hc]. apply bm_AllocateNext_Some in E as (Ho & Hf & _ & ->).
  split; [done|]. split; [|split; [unfold bm_Free; cbn; lia|eauto]].
  split; cbn; [by apply setbit_nonneg|]. rewrite countBits_setbit; [lia|done|lia|done].
Qed.

Lemma alloc_loop_Ret fuel existed r r' ip :
  alloc_loop fuel existed r = Some (Ret (r', ip)) → bm_wf (r_alloc r) →
  same_range r r' ∧ bm_wf (r_alloc r') ∧
  lease_taken r existed (bm_allocated (r_alloc r)) (bm_allocated (r_alloc r')) ip.
Proof.
  revert r. induction fuel as [|fuel IH]; intros r; cbn [alloc_loop]; [done|].
  destruct (AllocateNext r) as [r1 [ip1| |]] eqn:E; [|done..].
  intros Hl Hwf. destruct (AllocateNext_Ret _ _ _ E Hwf) as (Hs & Hwf1 & _ & o & Ho & -> & Hf & Ha).
  destruct (existed _) eqn:Ex.
  - destruct (IH _ Hl Hwf1) as (Hs2 & Hwf2 & o' & Ho' & -> & Hf' & Ht' & Hn' & Hk' & Hnew').
    destruct Hs as (Hn1 & Hb & Hm & Hmb). rewrite Hb, Hmb in *.
    split; [by transitivity r1|]. split; [done|]. rewrite Ha in *.
    rewrite setbit_has in Hf' by lia. apply orb_false_iff in Hf' as [_ Hf'].
    exists o'. split_and!; [lia|lia|done|done|done|done|..].
    + intros j Hj. apply Hk'. rewrite setbit_has, Hj by lia. apply orb_true_r.
    + intros j Hj. destruct (Hnew' j Hj) as [H|[H|H]]; [|auto..].
      rewrite setbit_has in H by lia. apply orb_true_iff in H as [<-%Z.eqb_eq|H]; auto.
  - injection Hl as <- <-. split; [done|]. split; [done|].
    exists o. rewrite Ha. split_and!; [lia|lia|done|done| |done|..].
    + by rewrite setbit_has, Z.eqb_refl by lia.
    + intros j Hj. rewrite setbit_has, Hj by lia. apply orb_true_r.
    + intros j. rewrite setbit_has by lia. intros [<-%Z.eqb_eq|H]%orb_true_iff; auto.
Qed.

(** The loop ends: every turn takes an address. *)
Lemma alloc_loop_total fuel existed r :
  bm_wf (r_alloc r) → (bm_Free (r_alloc r) < Z.of_nat fuel)%Z → 0 < fuel →
  alloc_loop fuel existed r ≠ None.
Proof.
  revert r. induction fuel as [|fuel IH]; intros r Hwf Hf Hpos; [lia|]. cbn [alloc_loop].
  destruct (AllocateNext r) as [r1 [ip1| |]] eqn:E; [|done..].
  destruct (AllocateNext_Ret _ _ _ E Hwf) as (_ & Hwf1 & Hfree & _).
  destruct (existed ip1); [|done]. destruct fuel as [|fuel]; [|apply IH; [done|lia|lia]].
  exfalso. unfold AllocateNext, bm_AllocateNext, AllocateBit, bm_Free in *.
  destruct (Z.leb_spec (bm_max (r_alloc r)) (bm_count (r_alloc r))); [done|lia].
Qed.

Lemma alloc_fuel_enough existed r : bm_wf (r_alloc r) → alloc_loop (alloc_fuel r) existed r ≠ None.
Proof. intros. apply alloc_loop_total; [done|unfold alloc_fuel; lia|unfold alloc_fuel; lia]. Qed.

Lemma rent_closure_total addrs z4 z6 c4 c6 :
  (0 ≤ z4)%Z → (0 ≤ z6)%Z → rent_closure addrs (range_at c4 z4) (range_at c6 z6) ≠ None.
Proof.
  intros H4 H6. unfold rent_closure.
  pose proof (alloc_fuel_enough (isAlreadyExisted addrs) _ (range_at_wf c4 z4 H4)).
  pose proof (alloc_fuel_enough (isAlreadyExisted addrs) _ (range_at_wf c6 z6 H6)).
  repeat case_match; congruence.
Qed.

Lemma rent_closure_Ret addrs ipv4 ipv6 r4 r6 v4 v6 :
  rent_closure addrs ipv4 ipv6 = Some (Ret (r4, r6, (v4, v6))) →
  bm_wf (r_alloc ipv4) → bm_wf (r_alloc ipv6) →
  (same_range ipv4 r4 ∧ bm_wf (r_alloc r4) ∧
   lease_taken ipv4 (isAlreadyExisted addrs) (bm_allocated (r_alloc ipv4)) (bm_allocated (r_alloc r4)) v4) ∧
  (same_range ipv6 r6 ∧ bm_wf (r_alloc r6) ∧
   lease_taken ipv6 (isAlreadyExisted addrs) (bm_allocated (r_alloc ipv6)) (bm_allocated (r_alloc r6)) v6).
Proof.
  unfold rent_closure. intros H Hw4 Hw6.
  destruct (alloc_loop _ _ ipv4) as [[[r4' v4']| |]|] eqn:E4; [|done..].
  destruct (alloc_loop _ _ ipv6) as [[[r6' v6']| |]|] eqn:E6; [|done..].
  simplify_eq. split; by eapply alloc_loop_Ret.
Qed.

(** ** Lemmas: operations against the API laws *)

Abbreviation N := ConfigMapPodTrafficManager.

Section Laws.
Context {S : Type} `{API : ConfigMapInterface S} `{!ConfigMapLaws S} (d : DHCPManager).

(** The object [updateDHCPConfigMap] writes. *)
Definition dhcp_written (cm : ConfigMap) (r4 r6 : Range) : ConfigMap :=
  with_data cm (<[KeyDHCP6 := save_range r6]> (<[KeyDHCP := save_range r4]> (data_map cm))).

Lemma dhcp_written_data cm r4 r6 cm' :
  cm_Data cm' = cm_Data (dhcp_written cm r4 r6) →
  bm_wf (r_alloc r4) → bm_wf (r_alloc r6) →
  leases cm' KeyDHCP = bm_allocated (r_alloc r4) ∧
  leases cm' KeyDHCP6 = bm_allocated (r_alloc r6) ∧
  ∀ key, key ≠ KeyDHCP → key ≠ KeyDHCP6 → data_map cm' !! key = data_map cm !! key.
Proof.
  intros Hd H4 H6. unfold leases, data_get, data_map. rewrite Hd. cbn.
  split_and!.
  - rewrite lookup_insert_ne, lookup_insert_eq by done. cbn. by apply stored_bits_save.
  - rewrite lookup_insert_eq. cbn. by apply stored_bits_save.
  - intros key H1 H2. by rewrite !lookup_insert_ne.
Qed.

Lemma updateDHCPConfigMap_get {A} s cm (f : Range → Range → option (outcome (Range * Range * A))) :
  cmGet s N = Ret cm →
  updateDHCPConfigMap d s f =
    match f (range_at (d_cidr d) (leases cm KeyDHCP)) (range_at (d_cidr6 d) (leases cm KeyDHCP6)) with
    | None => (s, None)
    | Some (Fail e) => (s, Some (Fail e))
    | Some Panic => (s, Some Panic)
    | Some (Ret (r4, r6, a)) =>
        match cmUpdate s (dhcp_written cm r4 r6) with
        | (s, Ret _) => (s, Some (Ret a))
        | (s, Fail e) => (s, Some (Fail (ErrorfV "update dhcp failed" e)))
        | (s, Panic) => (s, Some Panic)
        end
    end.
Proof. intros Hg. unfold updateDHCPConfigMap. rewrite Hg, !load_range_eq. done. Qed.

Lemma cmUpdate_Ret s cm cm1 s' cm' :
  cmGet s N = Ret cm → cm_Name cm1 = cm_Name cm → cm_Version cm1 = cm_Version cm →
  cmUpdate s cm1 = (s', Ret cm') →
  cmGet s' N = Ret cm' ∧ cm_Data cm' = cm_Data cm1 ∧ cm_Version cm < cm_Version cm'.
Proof.
  intros Hg Hn Hv Hu. apply update_ok in Hu as (Hg' & Hd & Hlt & _).
  rewrite Hn, (get_name _ _ _ Hg) in Hg'. split_and!; [done..|lia].
Qed.

Lemma updateDHCPConfigMap_Ret {A} s (f : Range → Range → option (outcome (Range * Range * A))) s' a :
  updateDHCPConfigMap d s f = (s', Some (Ret a)) →
  ∃ cm cm' r4 r6, cmGet s N = Ret cm ∧
    f (range_at (d_cidr d) (leases cm KeyDHCP)) (range_at (d_cidr6 d) (leases cm KeyDHCP6)) =
      Some (Ret (r4, r6, a)) ∧
    cmGet s' N = Ret cm' ∧ cm_Data cm' = cm_Data (dhcp_written cm r4 r6) ∧
    cm_Version cm < cm_Version cm'.
Proof.
  destruct (cmGet s N) as [cm| |] eqn:Hg;
    [|unfold updateDHCPConfigMap; rewrite Hg; intros; simplify_eq..].
  rewrite (updateDHCPConfigMap_get s cm f Hg).
  destruct (f _ _) as [[[[r4 r6] a']| |]|] eqn:Hf; [|intros; simplify_eq..].
  destruct (cmUpdate s (dhcp_written cm r4 r6)) as [s1 [cm'| |]] eqn:Hu; intros; simplify_eq.
  destruct (cmUpdate_Ret _ cm (dhcp_written cm r4 r6) _ _ Hg eq_refl eq_refl Hu) as (? & ? & ?).
  by exists cm, cm', r4, r6.
Qed.

(** C15. Renting an address: when [RentIPBaseNICAddress] succeeds, each of the two
    addresses comes from its pool, was not leased, is leased in the stored object
    afterwards, and is not an address of this machine; every earlier lease and every
    other key of the object is kept, and the only other offsets taken are addresses
    this machine already uses. *)
Theorem rent_fresh s addrs s' n4 n6
  (Hrent : RentIPBaseNICAddress d s (Ret addrs) = (s', Some (Ret (n4, n6)))) :
  ∃ cm cm', cmGet s N = Ret cm ∧ cmGet s' N = Ret cm' ∧
    lease_taken (NewAllocatorCIDRRange (d_cidr d)) (isAlreadyExisted addrs)
      (leases cm KeyDHCP) (leases cm' KeyDHCP) (net_IP n4) ∧
    lease_taken (NewAllocatorCIDRRange (d_cidr6 d)) (isAlreadyExisted addrs)
      (leases cm KeyDHCP6) (leases cm' KeyDHCP6) (net_IP n6) ∧
    net_Mask n4 = net_Mask (d_cidr d) ∧ net_Mask n6 = net_Mask (d_cidr6 d) ∧
    (∀ key, key ≠ KeyDHCP → key ≠ KeyDHCP6 → data_map cm' !! key = data_map cm !! key).
Proof.
  unfold RentIPBaseNICAddress in Hrent.
  destruct (updateDHCPConfigMap d s (rent_closure addrs)) as [s1 [[[v4 v6]| |]|]] eqn:E;
    simplify_eq.
  apply updateDHCPConfigMap_Ret in E as (cm & cm' & r4 & r6 & Hg & Hf & Hg' & Hd & _).
  destruct (rent_closure_Ret _ _ _ _ _ _ _ Hf) as [(Hs4 & Hw4 & H4) (Hs6 & Hw6 & H6)];
    [apply range_at_wf, stored_bits_nonneg..|].
  destruct (dhcp_written_data cm r4 r6 cm' Hd Hw4 Hw6) as (Hl4 & Hl6 & Hk).
  exists cm, cm'. rewrite Hl4, Hl6. by split_and!.
Qed.

(** C16. Renting always ends with an answer: whatever the store holds and whatever
    addresses the machine has, the allocation loops stop within the number of free
    offsets plus one, and (the interface not panicking) the result is an address
    pair or an error, never a panic. *)
Theorem rent_terminates s addrs :
  match snd (RentIPBaseNICAddress d s (Ret addrs)) with
  | Some (Ret _) | Some (Fail _) => True
  | _ => False
  end.
Proof.
  unfold RentIPBaseNICAddress.
  destruct (cmGet s N) as [cm|e|] eqn:Hg; [|unfold updateDHCPConfigMap; by rewrite Hg|
    by destruct (get_no_panic s N Hg)].
  rewrite (updateDHCPConfigMap_get s cm _ Hg).
  pose proof (rent_closure_total addrs (leases cm KeyDHCP) (leases cm KeyDHCP6)
    (d_cidr d) (d_cidr6 d) (stored_bits_nonneg _) (stored_bits_nonneg _)) as Ht.
  destruct (rent_closure _ _ _) as [[[[r4 r6] [v4 v6]]|e|]|] eqn:Hf; cbn; try done.
  - pose proof (update_no_panic s (dhcp_written cm r4 r6)) as Hp.
    by destruct (cmUpdate s (dhcp_written cm r4 r6)) as [s1 [cm'| |]].
  - exfalso. clear -Hf. unfold rent_closure in Hf.
    assert (∀ fuel ex r, alloc_loop fuel ex r ≠ Some Panic) as Hnp.
    { induction fuel as [|fuel IH]; intros ex r; cbn; [done|].
      unfold AllocateNext. destruct (bm_AllocateNext _) as [a [o|]]; [|done]. by destruct (ex _). }
    repeat case_match; try done; by eapply Hnp.
Qed.
(** ** Lemmas: releasing *)

Definition releases (is4 : bool) (r : Range) (ips : list (list byte)) (j : Z) : bool :=
  existsb (λ ip, eqb is4 (bool_decide (is_Some (To4 ip))) && bool_decide (contains r ip = Some j)) ips.

Lemma contains_same r r' ip : same_range r r' → contains r' ip = contains r ip.
Proof. intros (Hn & Hb & Hm & _). unfold contains, calculateIPOffset. by rewrite Hn, Hb, Hm. Qed.

Lemma releases_same is4 r r' ips j : same_range r r' → releases is4 r' ips j = releases is4 r ips j.
Proof.
  intros Hs. unfold releases. induction ips as [|ip ips IH]; [done|]. cbn.
  by rewrite IH, (contains_same r r').
Qed.

Lemma Release_spec r ip :
  bm_wf (r_alloc r) → same_range r (Release r ip) ∧ bm_wf (r_alloc (Release r ip)) ∧
  ∀ j, bm_Has (r_alloc (Release r ip)) j =
         bm_Has (r_alloc r) j && negb (bool_decide (contains r ip = Some j)).
Proof.
  intros [Hz Hc]. unfold Release. destruct (contains r ip) as [o|] eqn:E.
  - apply contains_range in E as Ho. split; [|split].
    + split_and!; [done..|]. cbn. unfold bm_Release. by destruct (negb _).
    + cbn. unfold bm_Release. destruct (Z.testbit _ o) eqn:Eb; cbn; [|done].
      split; cbn; [by apply clearbit_nonneg|]. rewrite countBits_clearbit, Hc; [done|done|lia|done].
    + intros j. cbn [with_alloc r_alloc]. rewrite bm_Release_has by lia. do 2 f_equal.
      destruct (Z.eqb_spec o j) as [->|]; [by rewrite bool_decide_eq_true_2|].
      rewrite bool_decide_eq_false_2; congruence.
  - split; [done|]. split; [done|]. intros j. by rewrite bool_decide_eq_false_2, andb_true_r.
Qed.

Lemma release_closure_spec ips r4 r6 :
  bm_wf (r_alloc r4) → bm_wf (r_alloc r6) →
  ∃ r4' r6', release_closure ips r4 r6 = Some (Ret (r4', r6', tt)) ∧
    (same_range r4 r4' ∧ bm_wf (r_alloc r4') ∧
     ∀ j, bm_Has (r_alloc r4') j = bm_Has (r_alloc r4) j && negb (releases true r4 ips j)) ∧
    (same_range r6 r6' ∧ bm_wf (r_alloc r6') ∧
     ∀ j, bm_Has (r_alloc r6') j = bm_Has (r_alloc r6) j && negb (releases false r6 ips j)).
Proof.
  unfold release_closure. revert r4 r6. induction ips as [|ip ips IH]; intros r4 r6 H4 H6.
  { exists r4, r6. split; [done|].
    split; (split; [done|split; [done|]]); intros j; cbn; by rewrite andb_true_r. }
  cbn [fold_left]. destruct (To4 ip) as [x|] eqn:Et.
  - destruct (Release_spec r4 ip H4) as (Hs & Hw & Hh).
    destruct (IH (Release r4 ip) r6 Hw H6) as (r4' & r6' & -> & (Hs' & Hw' & Hh') & (H6s & H6w & H6h)).
    exists r4', r6'. split; [done|]. split.
    + split; [by etransitivity|]. split; [done|]. intros j.
      rewrite Hh', Hh, (releases_same true r4 _ ips j Hs). unfold releases. cbn [existsb].
      rewrite Et, (bool_decide_eq_true_2 (is_Some (Some x))) by eauto. cbn [eqb andb].
      by rewrite negb_orb, andb_assoc.
    + split; [done|]. split; [done|]. intros j. rewrite H6h. unfold releases. cbn [existsb].
      rewrite Et, (bool_decide_eq_true_2 (is_Some (Some x))) by eauto. done.
  - destruct (Release_spec r6 ip H6) as (Hs & Hw & Hh).
    destruct (IH r4 (Release r6 ip) H4 Hw) as (r4' & r6' & -> & (H4s & H4w & H4h) & (Hs' & Hw' & Hh')).
    exists r4', r6'. split; [done|]. split.
    + split; [done|]. split; [done|]. intros j. rewrite H4h. unfold releases. cbn [existsb].
      rewrite Et, (bool_decide_eq_false_2 (is_Some None)) by (by intros []). done.
    + split; [by etransitivity|]. split; [done|]. intros j.
      rewrite Hh', Hh, (releases_same false r6 _ ips j Hs). unfold releases. cbn [existsb].
      rewrite Et, (bool_decide_eq_false_2 (is_Some None)) by (by intros []). cbn [eqb andb].
      by rewrite negb_orb, andb_assoc.
Qed.

(** Releasing addresses: when [ReleaseIP] succeeds on a non-empty list, exactly
    the offsets of the listed addresses that lie in their family's range are freed
    in the stored object; every other lease and every other key is kept. *)
Theorem release_exact s ips s'
  (Hne : ips ≠ []) (Hrel : ReleaseIP d s ips = (s', Some (Ret tt))) :
  ∃ cm cm', cmGet s N = Ret cm ∧ cmGet s' N = Ret cm' ∧
    (∀ j, Z.testbit (leases cm' KeyDHCP) j =
            Z.testbit (leases cm KeyDHCP) j &&
            negb (releases true (NewAllocatorCIDRRange (d_cidr d)) ips j)) ∧
    (∀ j, Z.testbit (leases cm' KeyDHCP6) j =
            Z.testbit (leases cm KeyDHCP6) j &&
            negb (releases false (NewAllocatorCIDRRange (d_cidr6 d)) ips j)) ∧
    (∀ key, key ≠ KeyDHCP → key ≠ KeyDHCP6 → data_map cm' !! key = data_map cm !! key).
Proof.
  unfold ReleaseIP in Hrel. destruct ips as [|ip ips]; [done|]. cbn [length Nat.eqb] in Hrel.
  apply updateDHCPConfigMap_Ret in Hrel as (cm & cm' & r4 & r6 & Hg & Hf & Hg' & Hd & _).
  destruct (release_closure_spec (ip :: ips) (range_at (d_cidr d) (leases cm KeyDHCP))
    (range_at (d_cidr6 d) (leases cm KeyDHCP6))) as (r4' & r6' & Hf' & (_ & Hw4 & H4) & (_ & Hw6 & H6));
    [apply range_at_wf, stored_bits_nonneg..|].
  rewrite Hf in Hf'. injection Hf' as <- <-.
  destruct (dhcp_written_data cm r4 r6 cm' Hd Hw4 Hw6) as (Hl4 & Hl6 & Hk).
  exists cm, cm'. rewrite Hl4, Hl6. by split_and!.
Qed.

(** [Set] then [Get] returns the value, and [Set] leaves the leases and the other
    keys alone. *)
Theorem set_get s key value s'
  (Hset : Set_ s key value = (s', Ret tt)) :
  Get_ s' key = Ret value ∧ ∀ key', key' ≠ key → Get_ s' key' = Get_ s key'.
Proof.
  unfold Set_, Get_ in *. destruct (cmGet s N) as [cm| |] eqn:Hg; [|done..].
  destruct (cmUpdate s _) as [s1 [cm'| |]] eqn:Hu; simplify_eq.
  apply (cmUpdate_Ret _ cm) in Hu as (Hg' & Hd & _); [|done..].
  rewrite Hg'. unfold data_map. rewrite Hd. cbn. split.
  - by rewrite lookup_insert_eq.
  - intros key' Hne. by rewrite lookup_insert_ne.
Qed.

(** [initDHCP] makes the object usable in every case it reaches, but reports
    success only when it had nothing to patch: when the object exists without the
    Envoy key, the key is added and an error is returned although the patch worked. *)
Theorem initDHCP_outcome s :
  (∀ s', initDHCP s = (s', Ret tt) →
     ∃ cm, cmGet s' N = Ret cm ∧ is_Some (data_map cm !! KeyEnvoy)) ∧
  (∀ cm s' cm', cmGet s N = Ret cm → data_map cm !! KeyEnvoy = None →
     cmPatch s N {[KeyEnvoy := ""]} = (s', Ret cm') →
     initDHCP s = (s', Fail (Errorf "failed to patch configmap, err: <nil>")) ∧
     cmGet s' N = Ret cm' ∧ data_map cm' !! KeyEnvoy = Some "").
Proof.
  split.
  - intros s'. unfold initDHCP. destruct (cmGet s N) as [cm|e|] eqn:Hg; [|destruct e; try done|done].
    + destruct (data_map cm !! KeyEnvoy) eqn:Ek; [intros [= <-]; rewrite Hg; eauto|].
      destruct (cmPatch _ _ _) as [s1 [|e|]]; done.
    + destruct (cmCreate s _) as [s1 [cm'| |]] eqn:Hc; [|done..]. intros [= <-].
      apply create_ok in Hc as (_ & Hg' & Hd). exists cm'. split; [done|].
      unfold data_map. rewrite Hd. cbn. by rewrite lookup_insert_eq.
  - intros cm s' cm' Hg Hk Hp. unfold initDHCP. rewrite Hg, Hk, (get_name _ _ _ Hg), Hp.
    apply patch_ok in Hp as (Hg' & cur & _ & Hd & _). split_and!; [done..|].
    unfold data_map. rewrite Hd. cbn. by apply lookup_union_Some_l.
Qed.
End Laws.

(** ** Concurrent renters

    Each client is between its [Get] and its [Update] or idle; [granted] and
    [granted6] are ghosts, the addresses handed out so far.  The steps are the API
    calls of [updateDHCPConfigMap] with the renting closure. *)
Section Concurrent.
Context {S : Type} `{API : ConfigMapInterface S} `{!ConfigMapLaws S}.

Inductive client := CIdle | CRead (cm : ConfigMap).

Record csys := MkCsys {
  store : S; clients : list client; granted : list (list byte); granted6 : list (list byte) }.

Inductive rent_step (d : DHCPManager) : csys → csys → Prop :=
  | rs_get x i cm :
      clients x !! i = Some CIdle → cmGet (store x) N = Ret cm →
      rent_step d x (MkCsys (store x) (<[i := CRead cm]> (clients x)) (granted x) (granted6 x))
  | rs_rent x i cm addrs r4 r6 v4 v6 s' cm' :
      clients x !! i = Some (CRead cm) →
      rent_closure addrs (range_at (d_cidr d) (leases cm KeyDHCP))
        (range_at (d_cidr6 d) (leases cm KeyDHCP6)) = Some (Ret (r4, r6, (v4, v6))) →
      cmUpdate (store x) (dhcp_written cm r4 r6) = (s', Ret cm') →
      rent_step d x (MkCsys s' (<[i := CIdle]> (clients x)) (v4 :: granted x) (v6 :: granted6 x))
  | rs_conflict x i cm r4 r6 s' :
      clients x !! i = Some (CRead cm) →
      cmUpdate (store x) (dhcp_written cm r4 r6) = (s', Fail Conflict) →
      rent_step d x (MkCsys s' (<[i := CIdle]> (clients x)) (granted x) (granted6 x))
  | rs_give_up x i cm :
      clients x !! i = Some (CRead cm) →
      rent_step d x (MkCsys (store x) (<[i := CIdle]> (clients x)) (granted x) (granted6 x)).

(** Granted addresses are distinct and leased in the current object. *)
Definition all_leased (cidr : IPNet) (z : Z) (ips : list (list byte)) : Prop :=
  NoDup ips ∧ ∀ ip, ip ∈ ips → ∃ o,
    (0 ≤ o < bm_max (r_alloc (NewAllocatorCIDRRange cidr)))%Z ∧
    ip = addIPOffset (r_base (NewAllocatorCIDRRange cidr)) o ∧ Z.testbit z o = true.

Definition rent_inv (d : DHCPManager) (x : csys) : Prop :=
  ∃ cur, cmGet (store x) N = Ret cur ∧
    all_leased (d_cidr d) (leases cur KeyDHCP) (granted x) ∧
    all_leased (d_cidr6 d) (leases cur KeyDHCP6) (granted6 x) ∧
    ∀ i cm, clients x !! i = Some (CRead cm) →
      cm_Name cm = N ∧ cm_Version cm ≤ cm_Version cur ∧
      (cm_Version cm = cm_Version cur → cm_Data cm = cm_Data cur).

Lemma all_leased_grant cidr existed z z' ips ip :
  (bm_max (r_alloc (NewAllocatorCIDRRange cidr)) < 2 ^ 128)%Z →
  all_leased cidr z ips → lease_taken (NewAllocatorCIDRRange cidr) existed z z' ip →
  all_leased cidr z' (ip :: ips).
Proof.
  intros Hm [Hnd Hall] (o & Ho & -> & Hfree & Htaken & _ & Hkeep & _). split.
  - constructor; [|done]. intros (o' & Ho' & Heq & Hset)%Hall.
    apply addIPOffset_inj in Heq as ->; [congruence|lia|lia].
  - intros ip [->|Hin]%elem_of_cons; [eauto|].
    destruct (Hall ip Hin) as (o' & ? & -> & ?). eauto.
Qed.

Lemma leases_ext cm cm' key : cm_Data cm = cm_Data cm' → leases cm key = leases cm' key.
Proof. intros H. unfold leases, data_get, data_map. by rewrite H. Qed.

Lemma client_insert (cs : list client) i j c c' :
  <[i := c]> cs !! j = Some c' → (c' = c ∧ i = j) ∨ cs !! j = Some c'.
Proof. intros [(<- & <- & _)|[_ ?]]%list_lookup_insert_Some; auto. Qed.

Definition small_pools (d : DHCPManager) : Prop :=
  (bm_max (r_alloc (NewAllocatorCIDRRange (d_cidr d))) < 2 ^ 128)%Z ∧
  (bm_max (r_alloc (NewAllocatorCIDRRange (d_cidr6 d))) < 2 ^ 128)%Z.

Lemma rent_inv_step d x x' : small_pools d → rent_step d x x' → rent_inv d x → rent_inv d x'.
Proof.
  intros [Hm4 Hm6] Hs (cur & Hg & H4 & H6 & Hc).
  inv Hs as [? i cm Hi Hgi|? i cm addrs r4 r6 v4 v6 s' cm' Hi Hf Hu|? i cm r4 r6 s' Hi Hu|? i cm Hi];
    unfold rent_inv; cbn [store clients granted granted6].
  - exists cur. split_and!; [done..|]. intros j cm2 [[[= ->] _]|Hj]%client_insert; [|by eapply Hc].
    rewrite Hg in Hgi. injection Hgi as <-. split_and!; [by eapply get_name|done|done].
  - destruct (Hc _ _ Hi) as (Hn & Hle & Heq).
    apply update_ok in Hu as (Hg' & Hd & Hlt & cur' & Hcur' & Hv). cbn in Hg', Hcur', Hv, Hlt.
    rewrite Hn, Hg in Hcur'. injection Hcur' as <-. rewrite Hn in Hg'.
    specialize (Heq (eq_sym Hv)).
    destruct (rent_closure_Ret _ _ _ _ _ _ _ Hf) as [(_ & Hw4 & L4) (_ & Hw6 & L6)];
      [apply range_at_wf, stored_bits_nonneg..|].
    destruct (dhcp_written_data cm r4 r6 cm' Hd Hw4 Hw6) as (E4 & E6 & _).
    exists cm'. split; [done|]. rewrite E4, E6. rewrite <-!(leases_ext _ _ _ Heq) in *.
    split; [by eapply all_leased_grant|]. split; [by eapply all_leased_grant|].
    intros j cm2 [[? _]|Hj]%client_insert; [done|].
    destruct (Hc _ _ Hj) as (? & ? & _). split_and!; [done|lia|lia].
  - apply update_conflict in Hu. destruct (Hc _ _ Hi) as (Hn & _). cbn in Hu. rewrite Hn, Hg in Hu.
    exists cur. split_and!; [done..|]. intros j cm2 [[? _]|Hj]%client_insert; [done|by eapply Hc].
  - exists cur. split_and!; [done..|]. intros j cm2 [[? _]|Hj]%client_insert; [done|by eapply Hc].
Qed.

(** C12. No address is handed out twice: however any number of clients interleave
    their reads and writes of the ConfigMap, the IPv4 addresses granted are pairwise
    distinct, and so are the IPv6 ones, and each is leased in the current object. *)
Theorem no_double_lease s0 cm0 k x
  (H0 : cmGet s0 N = Ret cm0)
  (Hr : rtc (rent_step NewDHCPManager) (MkCsys s0 (replicate k CIdle) [] []) x) :
  ∃ cur, cmGet (store x) N = Ret cur ∧
    all_leased (d_cidr NewDHCPManager) (leases cur KeyDHCP) (granted x) ∧
    all_leased (d_cidr6 NewDHCPManager) (leases cur KeyDHCP6) (granted6 x).
Proof.
  assert (small_pools NewDHCPManager) as Hsmall by (split; vm_compute; reflexivity).
  cut (rent_inv NewDHCPManager x); [intros (cur & ? & ? & ? & _); eauto|].
  assert (rent_inv NewDHCPManager (MkCsys s0 (replicate k CIdle) [] [])) as Hi.
  { exists cm0. split_and!; [done|split; [constructor|set_solver]..|].
    intros i cm [? _]%lookup_replicate_1. done. }
  induction Hr; eauto using rent_inv_step.
Qed.
End Concurrent.

(** ** The production pools *)

Definition dhcp4 : Range := NewAllocatorCIDRRange (d_cidr NewDHCPManager).
Definition dhcp6 : Range := NewAllocatorCIDRRange (d_cidr6 NewDHCPManager).

Example dhcp4_shape : r_max dhcp4 = 65534%Z ∧ r_max dhcp6 = 65534%Z ∧
  IP_String (addIPOffset (r_base dhcp4) 0) = "223.254.0.101"%string ∧
  bm_rangeSpec (r_alloc dhcp4) = "223.254.0.100/16"%string.
Proof. vm_compute. auto. Qed.

Lemma z2b_is z b : z2b z = b ↔ (z `mod` 256 = b2z b)%Z.
Proof.
  split; [intros <-; by rewrite b2z_z2b|]. intros H. apply b2z_inj. by rewrite b2z_z2b.
Qed.

(** An address of the IPv4-in-IPv6 block, by its last 32 bits. *)
Lemma v4_bytes v : (0 ≤ v < 2 ^ 32)%Z →
  be_fixed 16 (65535 * 2 ^ 32 + v) =
    IPv4 (z2b (v `div` 2 ^ 24)) (z2b (v `div` 2 ^ 16)) (z2b (v `div` 2 ^ 8)) (z2b v).
Proof.
  intros Hv. change 16 with (12 + 4). rewrite be_fixed_app.
  replace ((65535 * 2 ^ 32 + v) `div` 256 ^ Z.of_nat 4)%Z with 65535%Z
    by (change (256 ^ Z.of_nat 4)%Z with (2 ^ 32)%Z; Z.to_euclidean_division_equations; lia).
  assert (be_fixed 12 65535 = v4InV6Prefix) as -> by (vm_compute; reflexivity).
  unfold IPv4. f_equal. cbn [be_fixed app].
  f_equal; [|f_equal; [|f_equal; [|f_equal]]]; apply z2b_is; rewrite b2z_z2b; Z.to_euclidean_division_equations; lia.
Qed.

Lemma dhcp4_Contains v : (0 ≤ v < 2 ^ 32)%Z →
  IPNet_Contains (r_net dhcp4) (be_fixed 16 (65535 * 2 ^ 32 + v)) =
    bool_decide (v `div` 2 ^ 16 = 57342)%Z.
Proof.
  intros Hv. rewrite v4_bytes by done. unfold IPNet_Contains. rewrite To4_v4.
  change (networkNumberAndMask (r_net dhcp4))
    with (Some ([xdf; xfe; x00; x64], [xff; xff; x00; x00])).
  cbn [default length id]. unfold and_bytes. cbn [zip_with].
  rewrite !byte_and_ff, !byte_and_00. rewrite bool_decide_eq_true_2 by done. cbn [andb].
  apply bool_decide_ext. split.
  - intros E. inversion E as [[H1 H2]]. symmetry in H1, H2. apply z2b_is in H1, H2.
    change (b2z xdf) with 223%Z in H1. change (b2z xfe) with 254%Z in H2.
    clear E. Z.to_euclidean_division_equations. lia.
  - intros E. assert (z2b (v `div` 2 ^ 24) = xdf) as ->
      by (apply z2b_is; change (b2z xdf) with 223%Z; Z.to_euclidean_division_equations; lia).
    assert (z2b (v `div` 2 ^ 16) = xfe) as -> by (apply z2b_is; by rewrite E). done.
Qed.

Lemma dhcp4_base : r_base dhcp4 = (65535 * 2 ^ 32 + 3757965413)%Z.
Proof. vm_compute. reflexivity. Qed.

(** The shape of the IPv4 pool.  Offsets 0..65533 can be leased and the address
    of offset [o] is 223.254.0.101 + [o]; it belongs to the pool 223.254.0.0/16 (and
    can be found again by [Release]) if and only if [o] is at most 65434: the 99
    offsets above hand out addresses of 223.255.0.0/16, whose leases [ReleaseIP]
    ignores.  The addresses 223.254.0.1 to 223.254.0.99 are never leased. *)
Theorem dhcp4_pool_shape o (Ho : (0 ≤ o < r_max dhcp4)%Z) :
  let ip := addIPOffset (r_base dhcp4) o in
  (IPNet_Contains CIDR ip = true ↔ (o ≤ 65434)%Z) ∧
  contains dhcp4 ip = (if (o <=? 65434)%Z then Some o else None) ∧
  (∀ r, same_range dhcp4 r → (65434 < o)%Z → Release r ip = r) ∧
  (bigForIP (IPv4 xdf xfe x00 x64) < bigForIP ip)%Z.
Proof.
  change (r_max dhcp4) with 65534%Z in Ho. cbv zeta.
  assert (addIPOffset (r_base dhcp4) o = be_fixed 16 (65535 * 2 ^ 32 + (3757965413 + o))) as E
    by (unfold addIPOffset; rewrite dhcp4_base; f_equal; lia).
  assert (IPNet_Contains (r_net dhcp4) (addIPOffset (r_base dhcp4) o) = (o <=? 65434)%Z) as Hc.
  { rewrite E, dhcp4_Contains by lia.
    destruct (Z.leb_spec o 65434); [rewrite bool_decide_eq_true_2|rewrite bool_decide_eq_false_2];
      try done; Z.to_euclidean_division_equations; lia. }
  assert (contains dhcp4 (addIPOffset (r_base dhcp4) o) = (if (o <=? 65434)%Z then Some o else None)) as Hk.
  { destruct (Z.leb_spec o 65434) as [Hle|Hgt].
    - apply contains_addIPOffset; rewrite ?dhcp4_base; try done; change (r_max dhcp4) with 65534%Z; lia.
    - unfold contains. by rewrite Hc. }
  split_and!.
  - assert (IPNet_Contains CIDR (addIPOffset (r_base dhcp4) o) =
            IPNet_Contains (r_net dhcp4) (addIPOffset (r_base dhcp4) o)) as ->.
    { rewrite E, v4_bytes by lia. rewrite CIDR_Contains_v4, <-v4_bytes, dhcp4_Contains by lia.
      apply bool_decide_ext. rewrite !z2b_is. change (b2z xdf) with 223%Z. change (b2z xfe) with 254%Z.
      Z.to_euclidean_division_equations. lia. }
    rewrite Hc. apply Z.leb_le.
  - done.
  - intros r Hs Hgt. unfold Release. rewrite (contains_same dhcp4 r), Hk by done.
    by destruct (Z.leb_spec o 65434); [lia|].
  - rewrite bigForIP_addIPOffset by (rewrite dhcp4_base; lia). rewrite dhcp4_base.
    change (bigForIP (IPv4 xdf xfe x00 x64)) with (65535 * 2 ^ 32 + 3757965412)%Z. lia.
Qed.

Lemma dhcp4_pool_shape_witness :
  contains dhcp4 (addIPOffset (r_base dhcp4) 65435) = None ∧
  IP_String (addIPOffset (r_base dhcp4) 65435) = "223.255.0.0"%string.
Proof.
  split; [|vm_compute; reflexivity].
  exact (proj1 (proj2 (dhcp4_pool_shape 65435 ltac:(vm_compute; split; [discriminate|reflexivity])))).
Defined.

(** ** The properties at the in-memory server *)

Definition example_store : mem :=
  MkMem {[N := MkConfigMap N 1 (Some {[KeyEnvoy := ""]})]} 1.
Definition example_nic : list net_addr :=
  [AddrOther; AddrIPNet (MkIPNet (IPv4 xdf xfe x00 x65) [xff; xff; x00; x00])].

Definition example_rent : mem * option (outcome (IPNet * IPNet)) :=
  RentIPBaseNICAddress NewDHCPManager example_store (Ret example_nic).

Example example_rent_ip :
  match snd example_rent with
  | Some (Ret (n4, n6)) => (IPNet_String n4, IPNet_String n6) =
      ("223.254.0.102/16", "efff:ffff:ffff:ffff:ffff:ffff:ffff:999a/64")%string
  | _ => False
  end.
Proof. vm_compute. reflexivity. Qed.

Lemma rent_fresh_witness :
  ∃ s' n4 n6, example_rent = (s', Some (Ret (n4, n6))) ∧
    ∃ cm cm', cmGet example_store N = Ret cm ∧ cmGet s' N = Ret cm' ∧
      lease_taken dhcp4 (isAlreadyExisted example_nic)
        (leases cm KeyDHCP) (leases cm' KeyDHCP) (net_IP n4).
Proof.
  assert (match snd example_rent with Some (Ret _) => True | _ => False end) as H
    by (vm_compute; exact I).
  destruct example_rent as [s' [[[n4 n6]| |]|]] eqn:E; [|contradiction..].
  exists s', n4, n6. split; [reflexivity|].
  destruct (rent_fresh NewDHCPManager example_store example_nic s' n4 n6 E)
    as (cm & cm' & Hg & Hg' & H4 & _).
  exists cm, cm'. split; [exact Hg|]. split; [exact Hg'|exact H4].
Defined.

Lemma rent_terminates_witness :
  match snd (RentIPBaseNICAddress NewDHCPManager example_store (Ret example_nic)) with
  | Some (Ret _) | Some (Fail _) => True
  | _ => False
  end.
Proof.
  pose proof (rent_terminates (S := mem) NewDHCPManager example_store example_nic) as H.
  exact H.
Defined.

Lemma release_exact_witness :
  ∃ s', ReleaseIP NewDHCPManager example_store [IPv4 xdf xfe x00 x65] = (s', Some (Ret tt)) ∧
    ∃ cm', cmGet s' N = Ret cm' ∧ Z.testbit (leases cm' KeyDHCP) 0 = false.
Proof.
  assert (match snd (ReleaseIP NewDHCPManager example_store [IPv4 xdf xfe x00 x65]) with
          | Some (Ret _) => True | _ => False end) as H by (vm_compute; exact I).
  destruct (ReleaseIP NewDHCPManager example_store [IPv4 xdf xfe x00 x65])
    as [s' [[[]| |]|]] eqn:E; [|contradiction..].
  exists s'. split; [reflexivity|].
  destruct (release_exact NewDHCPManager example_store [IPv4 xdf xfe x00 x65] s'
    ltac:(discriminate) E) as (cm & cm' & _ & Hg' & H4 & _).
  exists cm'. split; [exact Hg'|]. rewrite H4.
  replace (releases true _ _ 0) with true by (vm_compute; reflexivity).
  apply andb_false_r.
Defined.

Lemma set_get_witness :
  ∃ s', Set_ example_store KeyRefCount "1" = (s', Ret tt) ∧ Get_ s' KeyRefCount = Ret "1"%string.
Proof.
  destruct (Set_ example_store KeyRefCount "1") as [s' o] eqn:E.
  assert (o = Ret tt) as -> by (vm_compute in E; injection E; congruence).
  exists s'. split; [reflexivity|].
  exact (proj1 (set_get example_store KeyRefCount "1" s' E)).
Defined.

Definition example_bare : mem := MkMem {[N := MkConfigMap N 1 None]} 1.

Lemma initDHCP_outcome_witness :
  ∃ s' e, initDHCP example_bare = (s', Fail e) ∧
    ∃ cm, cmGet s' N = Ret cm ∧ data_map cm !! KeyEnvoy = Some ""%string.
Proof.
  destruct (cmPatch example_bare N {[KeyEnvoy := ""%string]}) as [s' [cm'| |]] eqn:E;
    [|vm_compute in E; discriminate E..].
  pose proof (proj2 (initDHCP_outcome (S := mem) example_bare)
    (MkConfigMap N 1 None) s' cm') as H.
  destruct H as (H1 & H2 & H3); [vm_compute; reflexivity|vm_compute; reflexivity|exact E|].
  exists s', (Errorf "failed to patch configmap, err: <nil>"). split; [exact H1|].
  exists cm'. split; [exact H2|exact H3].
Defined.

Definition first_rent (cm0 : ConfigMap) : option (outcome (Range * Range * (list byte * list byte))) :=
  rent_closure [] (range_at (d_cidr NewDHCPManager) (leases cm0 KeyDHCP))
    (range_at (d_cidr6 NewDHCPManager) (leases cm0 KeyDHCP6)).

Lemma no_double_lease_witness :
  ∃ x cur, granted x = [addIPOffset (r_base dhcp4) 0] ∧ cmGet (store x) N = Ret cur ∧
    all_leased (d_cidr NewDHCPManager) (leases cur KeyDHCP) (granted x).
Proof.
  assert (match cmGet example_store N with
          | Ret cm0 => match first_rent cm0 with
              | Some (Ret (r4, r6, (v4, _))) =>
                  match snd (cmUpdate example_store (dhcp_written cm0 r4 r6)) with
                  | Ret _ => v4 = addIPOffset (r_base dhcp4) 0 | _ => False end
              | _ => False end
          | _ => False end) as H by (vm_compute; reflexivity).
  destruct (cmGet example_store N) as [cm0| |] eqn:E0; [|contradiction..].
  destruct (first_rent cm0) as [[[[r4 r6] [v4 v6]]| |]|] eqn:Ec; [|contradiction..].
  destruct (cmUpdate example_store (dhcp_written cm0 r4 r6)) as [s' [cm'| |]] eqn:Eu;
    cbn [snd] in H; [|contradiction..]. subst v4.
  destruct (no_double_lease example_store cm0 2
    (MkCsys s' [CIdle; CIdle] [addIPOffset (r_base dhcp4) 0] [v6]) E0) as (cur & Hg & H4 & _).
  { eapply rtc_l; [apply (rs_get _ _ 0 cm0); [reflexivity|exact E0]|].
    eapply rtc_l; [eapply (rs_rent _ _ 0 cm0); [reflexivity|exact Ec|exact Eu]|]. apply rtc_refl. }
  exists (MkCsys s' [CIdle; CIdle] [addIPOffset (r_base dhcp4) 0] [v6]), cur.
  split; [reflexivity|]. split; [exact Hg|exact H4].
Defined.
