(* ===== verification/Cleaner.v ===== *)
(** * Reference counting and clean-up

    [pkg/handler/cleaner.go]: the number of connected clients is a decimal under
    [REF_COUNT] of the traffic manager's ConfigMap; [Cleanup] gives back the
    client's addresses, decrements the count and removes the traffic manager when
    nobody is left and its deployment is not available.  The other resources
    (pods, secrets, ...) are only deleted: a deletion is recorded as a kind and a
    name, and its result is ignored as in the source. *)
From Stdlib Require Import ZArith Lia.
From Stdlib Require Import Strings.Byte.
From stdpp Require Import base gmap strings list numbers.
From S2P Require Import Prelude GoStrings GoNet Config Allocator KubeApi Dhcp.

(** ** Retrying *)

(** [k8serrors.IsNotFound] / [IsConflict] look through wrapped errors, but not
    through [%v]. *)
Definition IsNotFound (e : error) : bool := bool_decide (e = NotFound).
Definition IsConflict (e : error) : bool := bool_decide (e = Conflict).

(** [retry.OnError]: at most [steps] attempts; a retriable error is returned when
    they are used up. *)
Fixpoint OnError {S : Type} (steps : nat) (retriable : error → bool)
    (fn : S → S * outcome unit) (s : S) : S * outcome unit :=
  match steps with
  | O => (s, Ret tt)
  | Datatypes.S steps =>
      match fn s with
      | (s, Fail e) =>
          if retriable e then
            match steps with O => (s, Fail e) | _ => OnError steps retriable fn s end
          else (s, Fail e)
      | r => r
      end
  end.

Definition DefaultRetry : nat := 5.

Definition refcount_retriable (e : error) : bool :=
  if IsNotFound e then false else if IsConflict e then true else false.

Section RefCount.
Context {S : Type} `{API : ConfigMapInterface S}.

(** The function that is retried. *)
Definition ref_attempt (name : string) (increment : Z) (s : S) : S * outcome unit :=
  match cmGet s name with
  | Fail e =>
      if IsNotFound e then (s, Fail e)
      else (s, Fail (ErrorfV "update ref-count failed" e))
  | Panic => (s, Panic)
  | Ret cm =>
      let curCount := Atoi_value (data_get cm KeyRefCount) in
      let newVal := wrap64 (curCount + increment) in
      let newVal := if (newVal <? 0)%Z then 0%Z else newVal in
      match cmPatch s name {[KeyRefCount := Itoa newVal]} with
      | (s, Ret _) => (s, Ret tt)
      | (s, Fail e) =>
          if IsNotFound e then (s, Fail e)
          else (s, Fail (ErrorfV "update ref count error" e))
      | (s, Panic) => (s, Panic)
      end
  end.

(** [updateRefCount]: the result is the count read back, with the error of the last
    [Atoi] (the value is then [Atoi]'s). *)
Definition updateRefCount (s : S) (name : string) (increment : Z) : S * outcome Z :=
  match OnError DefaultRetry refcount_retriable (ref_attempt name increment) s with
  | (s, Fail e) => (s, Fail e)
  | (s, Panic) => (s, Panic)
  | (s, Ret _) =>
      match cmGet s name with
      | Fail e => (s, Fail (ErrorfV "failed to get cm" e))
      | Panic => (s, Panic)
      | Ret cm =>
          match Atoi (data_get cm KeyRefCount) with
          | Some current => (s, Ret current)
          | None => (s, Fail (Errorf "failed to get ref-count"))
          end
      end
  end.

(** ** Clean-up *)

Inductive kind :=
  | KPod | KSecret | KWebhook | KRoleBinding | KServiceAccount | KRole | KService | KDeployment.

Definition CniNetName : string := "cni-net-dir-kubevpn".

(** [cleanup]: the ConfigMap is reset or deleted, the rest is deleted; errors are
    ignored. *)
Definition cleanup (s : S) (namespace name : string) (keepCIDR : bool)
  : S * list (kind * string) :=
  let s := if keepCIDR
           then fst (cmPatch (fst (cmRemoveKeys s name [KeyDHCP; KeyDHCP6])) name
                       {[KeyRefCount := Itoa 0]})
           else fst (cmDelete s name) in
  (s, [(KPod, CniNetName); (KSecret, name); (KWebhook, (name +:+ "." +:+ namespace)%string);
       (KRoleBinding, name); (KServiceAccount, name); (KRole, name); (KService, name);
       (KDeployment, name)]).

(** The state of [ConnectOptions] that [Cleanup] uses: the leased addresses, the DHCP
    manager and the API client, each possibly nil. *)
Record ConnectOptions := MkConnect {
  c_namespace : string;
  c_localTunIPv4 : option IPNet;
  c_localTunIPv6 : option IPNet;
  c_dhcp : option DHCPManager;
  c_clientset : bool }.

Definition leased_ips (c : ConnectOptions) : list (list byte) :=
  omap (λ o, match o with
             | Some n => if bool_decide (net_IP n = []) then None else Some (net_IP n)
             | None => None
             end) [c_localTunIPv4 c; c_localTunIPv6 c].

(** [Cleanup], up to the rollout functions and the DNS configuration;
    [unavailable] is what reading the deployment gives: its number of unavailable
    replicas or an error.  The errors of [ReleaseIP] and [updateRefCount] are logged. *)
Definition Cleanup (s : S) (c : ConnectOptions) (unavailable : outcome Z)
  : S * list (kind * string) :=
  let s := match c_dhcp c with
           | Some d => fst (ReleaseIP d s (leased_ips c))
           | None => s
           end in
  if c_clientset c then
    match updateRefCount s ConfigMapPodTrafficManager (-1) with
    | (s, Ret count) =>
        if (count <=? 0)%Z then
          match unavailable with
          | Ret n =>
              if negb (n =? 0)%Z then
                let '(s, dels) := cleanup s (c_namespace c) ConfigMapPodTrafficManager true in
                (s, (KPod, CniNetName) :: dels)
              else (s, [(KPod, CniNetName)])
          | _ => (s, [(KPod, CniNetName)])
          end
        else (s, [(KPod, CniNetName)])
    | (s, _) => (s, [(KPod, CniNetName)])
    end
  else (s, []).
End RefCount.

(** ** Lemmas *)

Section Laws.
Context {S : Type} `{API : ConfigMapInterface S} `{!ConfigMapLaws S}.

Lemma ref_attempt_not_retried name increment s :
  match snd (ref_attempt name increment s) with
  | Fail e => refcount_retriable e = false
  | _ => True
  end.
Proof.
  unfold ref_attempt. destruct (cmGet s name) as [cm|e|]; cbn; [|by destruct e|done].
  destruct (cmPatch _ _ _) as [s' [cm'|e|]]; cbn; [done|by destruct e|done].
Qed.

Lemma OnError_once (fn : S → S * outcome unit) n retriable s :
  (∀ s, match snd (fn s) with Fail e => retriable e = false | _ => True end) →
  OnError (Datatypes.S n) retriable fn s = fn s.
Proof.
  intros H. cbn. specialize (H s). destruct (fn s) as [s' [|e|]]; cbn in *; [done| |done].
  by rewrite H.
Qed.

Definition next_count (cm : ConfigMap) (increment : Z) : Z :=
  Z.max 0 (wrap64 (Atoi_value (data_get cm KeyRefCount) + increment)).

Lemma next_count_range cm inc : (0 ≤ next_count cm inc < 2 ^ 63)%Z.
Proof. unfold next_count. pose proof (wrap64_range (Atoi_value (data_get cm KeyRefCount) + inc)). lia. Qed.

Lemma next_count_clamp cm inc :
  let newVal := wrap64 (Atoi_value (data_get cm KeyRefCount) + inc) in
  (if (newVal <? 0)%Z then 0%Z else newVal) = next_count cm inc.
Proof. unfold next_count. cbv zeta. destruct (Z.ltb_spec (wrap64 (Atoi_value (data_get cm KeyRefCount) + inc)) 0); lia. Qed.

Lemma ref_attempt_Ret name increment s s' :
  ref_attempt name increment s = (s', Ret tt) →
  ∃ cm cm', cmGet s name = Ret cm ∧ cmGet s' name = Ret cm' ∧
    cm_Data cm' = Some (<[KeyRefCount := Itoa (next_count cm increment)]> (data_map cm)).
Proof.
  unfold ref_attempt. destruct (cmGet s name) as [cm|e|] eqn:Hg; [|by destruct e|done].
  cbv zeta. rewrite next_count_clamp.
  destruct (cmPatch _ _ _) as [s1 [cm'|e|]] eqn:Hp; [|by destruct e|done]. intros [= <-].
  apply patch_ok in Hp as (Hg' & cur & Hc & Hd & _). rewrite Hg in Hc. injection Hc as <-.
  exists cm, cm'. split_and!; [done..|]. by rewrite Hd, insert_union_singleton_l.
Qed.

Lemma data_get_insert cm key v d : cm_Data cm = Some (<[key := v]> d) → data_get cm key = v.
Proof. intros H. unfold data_get, data_map. rewrite H. cbn. by rewrite lookup_insert_eq. Qed.
Lemma updateRefCount_attempt s name increment :
  updateRefCount s name increment =
    match ref_attempt name increment s with
    | (s, Fail e) => (s, Fail e)
    | (s, Panic) => (s, Panic)
    | (s, Ret _) =>
        match cmGet s name with
        | Fail e => (s, Fail (ErrorfV "failed to get cm" e))
        | Panic => (s, Panic)
        | Ret cm =>
            match Atoi (data_get cm KeyRefCount) with
            | Some current => (s, Ret current)
            | None => (s, Fail (Errorf "failed to get ref-count"))
            end
        end
    end.
Proof.
  unfold updateRefCount, DefaultRetry.
  by rewrite OnError_once by apply ref_attempt_not_retried.
Qed.

Lemma updateRefCount_Ret s name increment s' count :
  updateRefCount s name increment = (s', Ret count) →
  ∃ cm cm', cmGet s name = Ret cm ∧ cmGet s' name = Ret cm' ∧
    count = next_count cm increment ∧
    cm_Data cm' = Some (<[KeyRefCount := Itoa count]> (data_map cm)).
Proof.
  rewrite updateRefCount_attempt.
  destruct (ref_attempt name increment s) as [s1 [[]|e|]] eqn:Ha; [|done..].
  apply ref_attempt_Ret in Ha as (cm & cm' & Hg & Hg' & Hd). rewrite Hg'.
  pose proof (next_count_range cm increment).
  rewrite (data_get_insert _ _ _ _ Hd), Atoi_Itoa by lia. intros [= <- <-].
  by exists cm, cm'.
Qed.

Lemma ReleaseIP_keeps d s ips cm key :
  cmGet s N = Ret cm → snd (ReleaseIP d s ips) = Some (Ret tt) → key ≠ KeyDHCP → key ≠ KeyDHCP6 →
  ∃ cm', cmGet (fst (ReleaseIP d s ips)) N = Ret cm' ∧ data_get cm' key = data_get cm key.
Proof.
  intros Hg Hr Hk Hk6. unfold ReleaseIP in *. destruct (_ =? _); [eauto|].
  destruct (updateDHCPConfigMap d s (release_closure ips)) as [s' o] eqn:E. cbn in *. subst o.
  apply updateDHCPConfigMap_Ret in E as (cm0 & cm' & r4 & r6 & Hg0 & _ & Hg' & Hd & _).
  rewrite Hg in Hg0. injection Hg0 as <-. exists cm'. split; [done|].
  unfold data_get, data_map at 1. rewrite Hd. cbn. by rewrite !lookup_insert_ne.
Qed.

(** ** Properties *)

(** What a successful [updateRefCount] does: the value returned is the one stored,
    the old value plus the increment, never below zero (a value that is not a number
    counts as 0), and no other key of the ConfigMap changes. *)
Theorem updateRefCount_result s name increment s' count
  (Hok : updateRefCount s name increment = (s', Ret count)) :
  ∃ cm cm', cmGet s name = Ret cm ∧ cmGet s' name = Ret cm' ∧
    let old := Atoi_value (data_get cm KeyRefCount) in
    ((- 2 ^ 63 ≤ old + increment < 2 ^ 63)%Z → count = Z.max 0 (old + increment)) ∧
    (0 ≤ count)%Z ∧ Atoi (data_get cm' KeyRefCount) = Some count ∧
    ∀ key, key ≠ KeyRefCount → data_map cm' !! key = data_map cm !! key.
Proof.
  apply updateRefCount_Ret in Hok as (cm & cm' & Hg & Hg' & -> & Hd).
  pose proof (next_count_range cm increment). exists cm, cm'. cbv zeta. split_and!; [done|done| |lia| |].
  - intros Hr. unfold next_count. by rewrite wrap64_small.
  - rewrite (data_get_insert _ _ _ _ Hd). apply Atoi_Itoa. lia.
  - intros key Hne. unfold data_map at 1. rewrite Hd. cbn. by rewrite lookup_insert_ne.
Qed.

(** The conflict retry of [updateRefCount] is dead code: the attempt wraps every
    error but NotFound with [%v], which the predicate cannot see through, so whatever
    the API answers there is exactly one attempt, and a conflict is returned at once. *)
Theorem updateRefCount_never_retries s name increment :
  OnError DefaultRetry refcount_retriable (ref_attempt name increment) s =
    ref_attempt name increment s ∧
  (∀ cm s', cmGet s name = Ret cm →
     cmPatch s name {[KeyRefCount := Itoa (next_count cm increment)]} = (s', Fail Conflict) →
     updateRefCount s name increment = (s', Fail (ErrorfV "update ref count error" Conflict))).
Proof.
  split.
  - apply OnError_once, ref_attempt_not_retried.
  - intros cm s' Hg Hp. rewrite updateRefCount_attempt. unfold ref_attempt. rewrite Hg.
    cbv zeta. by rewrite next_count_clamp, Hp.
Qed.

(** Clean-up only tears the traffic manager down for the last client: if the
    addresses were given back, the deployment is deleted only when the stored count
    was at most one and the deployment has unavailable replicas. *)
Theorem Cleanup_guard s c d cm n unavailable s' dels
  (Hdhcp : c_dhcp c = Some d)
  (Hrel : snd (ReleaseIP d s (leased_ips c)) = Some (Ret tt))
  (Hget : cmGet s N = Ret cm) (Hcount : Atoi (data_get cm KeyRefCount) = Some n)
  (Hrun : Cleanup s c unavailable = (s', dels)) :
  (KDeployment, N) ∈ dels → (n ≤ 1)%Z ∧ ∃ k, unavailable = Ret k ∧ k ≠ 0%Z.
Proof.
  intros Hin. unfold Cleanup in Hrun. rewrite Hdhcp in Hrun.
  destruct (ReleaseIP_keeps d s _ cm KeyRefCount Hget Hrel) as (cm1 & Hg1 & Hsame); [done..|].
  destruct (c_clientset c); [|simplify_eq; set_solver].
  destruct (updateRefCount _ _ _) as [s2 [count|e|]] eqn:Hu; [|simplify_eq; set_solver..].
  apply updateRefCount_Ret in Hu as (cm2 & cm' & Hg2 & _ & -> & _).
  rewrite Hg1 in Hg2. injection Hg2 as <-.
  destruct (Z.leb_spec (next_count cm1 (-1)) 0) as [Hle|]; [|simplify_eq; set_solver].
  destruct unavailable as [k|e|]; [|simplify_eq; set_solver..].
  destruct (Z.eqb_spec k 0) as [->|Hk]; cbn [negb] in Hrun; [simplify_eq; set_solver|].
  split; [|eauto]. apply Atoi_value_Atoi in Hcount as Hv.
  unfold next_count in Hle. rewrite Hsame, Hv in Hle.
  pose proof (Atoi_value_range (data_get cm KeyRefCount)). rewrite Hv in *.
  destruct (decide (n ≤ 1)%Z); [done|]. rewrite wrap64_small in Hle by lia. lia.
Qed.
End Laws.

(** ** Witnesses at the in-memory server *)

Definition example_counted (count : string) : mem :=
  MkMem {[N := MkConfigMap N 1 (Some {[KeyRefCount := count]})]} 1.

Lemma updateRefCount_result_witness :
  ∃ s' count, updateRefCount (example_counted "1") N (-1) = (s', Ret count) ∧ (0 ≤ count)%Z.
Proof.
  destruct (updateRefCount (example_counted "1") N (-1)) as [s' o] eqn:E.
  destruct o as [count| |]; [|vm_compute in E; discriminate E..].
  exists s', count. split; [reflexivity|].
  destruct (updateRefCount_result (example_counted "1") N (-1) s' count E)
    as (cm & cm' & _ & _ & _ & H & _).
  exact H.
Defined.

Lemma updateRefCount_never_retries_witness :
  OnError DefaultRetry refcount_retriable (ref_attempt N 1) (example_counted "x") =
    ref_attempt N 1 (example_counted "x").
Proof.
  pose proof (proj1 (updateRefCount_never_retries (S := mem) (example_counted "x") N 1)) as H.
  exact H.
Defined.

Definition example_client : ConnectOptions :=
  MkConnect "default" (Some (MkIPNet (IPv4 xdf xfe x00 x65) [xff; xff; x00; x00])) None
    (Some NewDHCPManager) true.

Lemma Cleanup_guard_witness :
  ∃ s' dels, Cleanup (example_counted "1") example_client (Ret 1%Z) = (s', dels) ∧
    (KDeployment, N) ∈ dels ∧ (1 ≤ 1)%Z.
Proof.
  destruct (Cleanup (example_counted "1") example_client (Ret 1%Z)) as [s' dels] eqn:E.
  exists s', dels. split; [reflexivity|].
  assert ((KDeployment, N) ∈ snd (Cleanup (example_counted "1") example_client (Ret 1%Z))) as Hin
    by (vm_compute; do 8 right; left).
  rewrite E in Hin. cbn [snd] in Hin. split; [exact Hin|].
  refine (proj1 (Cleanup_guard (example_counted "1") example_client NewDHCPManager
    (MkConfigMap N 1 (Some {[KeyRefCount := "1"%string]})) 1 (Ret 1%Z) s' dels _ _ _ _ E Hin)).
  - reflexivity.
  - vm_compute. reflexivity.
  - vm_compute. reflexivity.
  - vm_compute. reflexivity.
Defined.
