(* ===== verification/ControlPlane.v ===== *)
(** * The Envoy control plane

    [pkg/controlplane]: the proxy configuration ([Virtual], [Rule]) of every
    workload is a list stored as YAML under [ENVOY_CONFIG]; [Virtual.To] turns one
    workload's configuration into Envoy listeners, clusters, endpoints and routes,
    and [Processor.ProcessFile] publishes them as versioned snapshots.  Of the Envoy
    messages the fields that decide where a request goes are kept (names, addresses,
    ports, header matchers, discovery type); constant options are left out. *)
From Stdlib Require Import ZArith Lia Ascii.
From stdpp Require Import base countable gmap strings numbers list.
From S2P Require Import Prelude GoStrings.

(** ** Data *)

Record ContainerPort := MkPort {
  p_Name : string; p_HostPort : Z; p_ContainerPort : Z; p_Protocol : string; p_HostIP : string }.

(** A nil map or slice is [None] where the code can tell. *)
Record Rule := MkRule {
  Headers : option (gmap string string); LocalTunIPv4 : string; LocalTunIPv6 : string }.

Record Virtual := MkVirtual {
  Uid : string; Ports : option (list ContainerPort); Rules : list Rule }.

#[export] Instance ContainerPort_eq_dec : EqDecision ContainerPort.
Proof. solve_decision. Defined.
#[export] Instance Rule_eq_dec : EqDecision Rule.
Proof. solve_decision. Defined.
#[export] Instance Virtual_eq_dec : EqDecision Virtual.
Proof. solve_decision. Defined.

#[export] Instance ContainerPort_countable : Countable ContainerPort.
Proof.
  apply (inj_countable' (λ p, (p_Name p, p_HostPort p, p_ContainerPort p, p_Protocol p, p_HostIP p))
    (λ '(a, b, c, d, e), MkPort a b c d e)).
  by intros [].
Defined.
#[export] Instance Rule_countable : Countable Rule.
Proof.
  apply (inj_countable' (λ r, (Headers r, LocalTunIPv4 r, LocalTunIPv6 r))
    (λ '(a, b, c), MkRule a b c)).
  by intros [].
Defined.
#[export] Instance Virtual_countable : Countable Virtual.
Proof.
  apply (inj_countable' (λ v, (Uid v, Ports v, Rules v)) (λ '(a, b, c), MkVirtual a b c)).
  by intros [].
Defined.

(** ** Envoy resources *)

Inductive discovery := EDS | ORIGINAL_DST.
Inductive socket_protocol := SocketTCP | SocketUDP.

Record Cluster := MkCluster { cl_Name : string; cl_Type : discovery }.
Record Endpoint := MkEndpoint { ep_Cluster : string; ep_Address : string; ep_Port : Z }.
(** An exact, case-insensitive match of each listed header, on every path. *)
Record Route := MkRoute { rt_Headers : list (string * string); rt_Cluster : string }.
Record RouteConfiguration := MkRouteConfig { rc_Name : string; rc_Routes : list Route }.
Record Listener := MkListener {
  ls_Name : string; ls_RouteName : string; ls_Port : Z; ls_Protocol : socket_protocol }.

Definition ToEndPoint (clusterName localTunIP : string) (port : Z) : Endpoint :=
  MkEndpoint clusterName localTunIP (port `mod` 2 ^ 32).
Definition ToCluster (clusterName : string) : Cluster := MkCluster clusterName EDS.
Definition OriginCluster : Cluster := MkCluster "origin_cluster" ORIGINAL_DST.
(** The order of the matchers is the map's; they are a conjunction. *)
Definition ToRoute (clusterName : string) (headers : option (gmap string string)) : Route :=
  MkRoute (map_to_list (default ∅ headers)) clusterName.
Definition DefaultRoute : Route := MkRoute [] "origin_cluster".
(** The zero value of the protocol is TCP. *)
Definition ToListener (listenerName routeName : string) (port : Z) (p : string) : Listener :=
  MkListener listenerName routeName (port `mod` 2 ^ 32)
    (if String.eqb p "TCP" then SocketTCP
     else if String.eqb p "UDP" then SocketUDP
     else if String.eqb p "SCTP" then SocketTCP
     else SocketTCP).

Record Resources := MkResources {
  listeners : list Listener; clusters : list Cluster;
  routes : list RouteConfiguration; endpoints : list Endpoint }.

Definition clusterName (ip : string) (port : ContainerPort) : string :=
  (ip +:+ "_" +:+ Itoa (p_ContainerPort port))%string.
Definition listenerName (uid : string) (port : ContainerPort) : string :=
  (uid +:+ "_" +:+ Itoa (p_ContainerPort port) +:+ "_" +:+ p_Protocol port)%string.

(** The two addresses of a rule, in the order of the inner loop. *)
Definition rule_ips (r : Rule) : list string := [LocalTunIPv4 r; LocalTunIPv6 r].

(** One iteration of the loop over the ports. *)
Definition port_resources (a : Virtual) (port : ContainerPort) : Resources :=
  let name := listenerName (Uid a) port in
  let each {A} (f : Rule → string → A) : list A :=
    rule ← Rules a; ip ← rule_ips rule; [f rule ip] in
  MkResources
    [ToListener name name (p_ContainerPort port) (p_Protocol port)]
    (each (λ _ ip, ToCluster (clusterName ip port)) ++ [OriginCluster])
    [MkRouteConfig name
       (each (λ rule ip, ToRoute (clusterName ip port) (Headers rule)) ++ [DefaultRoute])]
    (each (λ _ ip, ToEndPoint (clusterName ip port) ip (p_ContainerPort port))).

Definition app_resources (x y : Resources) : Resources :=
  MkResources (listeners x ++ listeners y) (clusters x ++ clusters y)
    (routes x ++ routes y) (endpoints x ++ endpoints y).

(** [Virtual.To]. *)
Definition To (a : Virtual) : Resources :=
  fold_left (λ acc port, app_resources acc (port_resources a port))
    (default [] (Ports a)) (MkResources [] [] [] []).

(** ** What Envoy does with them

    The first route of a virtual host whose header matchers all hold is taken.  Envoy keeps
    the names of a request's headers in lower case, by which [request] has them here, and
    looks a matcher's name up in lower case. *)
Definition lower (a : ascii) : ascii :=
  let n := Ascii.nat_of_ascii a in
  if (65 <=? n) && (n <=? 90) then Ascii.ascii_of_nat (n + 32) else a.
Fixpoint ToLower (s : string) : string :=
  match s with EmptyString => EmptyString | String a s => String (lower a) (ToLower s) end.

Definition header_match (request : gmap string string) (h : string * string) : bool :=
  match request !! ToLower (fst h) with
  | Some v => String.eqb (ToLower v) (ToLower (snd h))
  | None => false
  end.
Definition route_match (request : gmap string string) (r : Route) : bool :=
  forallb (header_match request) (rt_Headers r).
Definition pick_route (rc : RouteConfiguration) (request : gmap string string) : option Route :=
  find (route_match request) (rc_Routes rc).

(** The abstract specification: the first rule whose headers the request carries
    receives it, at its IPv4 address; otherwise it stays on the original pod. *)
Definition rule_match (request : gmap string string) (r : Rule) : bool :=
  forallb (header_match request) (map_to_list (default ∅ (Headers r))).
Definition target (a : Virtual) (port : ContainerPort) (request : gmap string string) : string :=
  match find (rule_match request) (Rules a) with
  | Some r => clusterName (LocalTunIPv4 r) port
  | None => "origin_cluster"
  end.

(** ** [Processor] *)

(** The snapshot cache by node, the configurations of the expiring cache that have
    not expired, and the version. *)
Record Processor := MkProcessor {
  version : Z; snapshots : gmap string (string * Resources); last : gmap string Virtual }.

Definition MaxInt64 : Z := 2 ^ 63 - 1.

Definition newVersion (p : Processor) : Processor * string :=
  let v := if (version p =? MaxInt64)%Z then 0%Z else version p in
  let v := (v + 1)%Z in
  (MkProcessor v (snapshots p) (last p), Itoa v).

(** [snapshot.Consistent]: the EDS clusters are the endpoints' clusters, the routes
    the listeners refer to are the routes of the snapshot (as sets of names). *)
Definition same_names (a b : list string) : bool :=
  forallb (λ x, bool_decide (x ∈ b)) a && forallb (λ x, bool_decide (x ∈ a)) b.
Definition eds_names (r : Resources) : list string :=
  omap (λ c, match cl_Type c with EDS => Some (cl_Name c) | ORIGINAL_DST => None end) (clusters r).
Definition Consistent (r : Resources) : bool :=
  same_names (eds_names r) (ep_Cluster <$> endpoints r) &&
  same_names (ls_RouteName <$> listeners r) (rc_Name <$> routes r).

(** The loop body of [ProcessFile]; [false] is the early return. *)
Definition process_one (p : Processor) (config : Virtual) : Processor * bool :=
  if String.eqb (Uid config) "" then (p, true)
  else if bool_decide (last p !! Uid config = Some config) then (p, true)
  else
    let r := To config in
    let '(p, v) := newVersion p in
    if negb (Consistent r) then (p, false)
    else (MkProcessor (version p) (<[Uid config := (v, r)]> (snapshots p))
            (<[Uid config := config]> (last p)), true).

Fixpoint ProcessFile (p : Processor) (configList : list Virtual) : Processor :=
  match configList with
  | [] => p
  | config :: rest =>
      match process_one p config with
      | (p, true) => ProcessFile p rest
      | (p, false) => p
      end
  end.

(** ** Lemmas on [To] *)

Definition rule_routes (port : ContainerPort) (r : Rule) : list Route :=
  (λ ip, ToRoute (clusterName ip port) (Headers r)) <$> rule_ips r.

Lemma To_app a ports acc :
  fold_left (λ acc port, app_resources acc (port_resources a port)) ports acc =
  app_resources acc
    (MkResources (ports ≫= λ p, listeners (port_resources a p))
                 (ports ≫= λ p, clusters (port_resources a p))
                 (ports ≫= λ p, routes (port_resources a p))
                 (ports ≫= λ p, endpoints (port_resources a p))).
Proof.
  revert acc. induction ports as [|p ports IH]; intros [l c r e]; cbn [fold_left].
  { unfold app_resources. cbn. by rewrite !app_nil_r. }
  rewrite IH. unfold app_resources. cbn [listeners clusters routes endpoints].
  rewrite !bind_cons, !app_assoc. done.
Qed.

Lemma To_eq a :
  let ports := default [] (Ports a) in
  To a = MkResources (ports ≫= λ p, listeners (port_resources a p))
                     (ports ≫= λ p, clusters (port_resources a p))
                     (ports ≫= λ p, routes (port_resources a p))
                     (ports ≫= λ p, endpoints (port_resources a p)).
Proof. unfold To. rewrite To_app. done. Qed.

Lemma port_routes a port :
  routes (port_resources a port) =
    [MkRouteConfig (listenerName (Uid a) port)
       ((Rules a ≫= rule_routes port) ++ [DefaultRoute])].
Proof. done. Qed.

Lemma pick_rules port request rules rest :
  find (route_match request) ((rules ≫= rule_routes port) ++ rest) =
    match find (rule_match request) rules with
    | Some r => Some (ToRoute (clusterName (LocalTunIPv4 r) port) (Headers r))
    | None => find (route_match request) rest
    end.
Proof.
  induction rules as [|r rules IH]; [done|]. rewrite bind_cons, <-app_assoc.
  change (rule_routes port r ++ ?l) with
    (ToRoute (clusterName (LocalTunIPv4 r) port) (Headers r) ::
     ToRoute (clusterName (LocalTunIPv6 r) port) (Headers r) :: l).
  cbn [find]. change (route_match request (ToRoute _ (Headers r))) with (rule_match request r).
  destruct (rule_match request r); [done|]. apply IH.
Qed.

Lemma same_names_spec a b : same_names a b = true ↔ ∀ x, x ∈ a ↔ x ∈ b.
Proof.
  unfold same_names. rewrite andb_true_iff, !forallb_forall.
  setoid_rewrite bool_decide_eq_true. setoid_rewrite <-list_elem_of_In. naive_solver.
Qed.

Lemma eds_names_To a x :
  x ∈ eds_names (To a) ↔
    ∃ port rule ip, port ∈ default [] (Ports a) ∧ rule ∈ Rules a ∧ ip ∈ rule_ips rule ∧
      x = clusterName ip port.
Proof.
  unfold eds_names. rewrite To_eq. cbn [clusters]. rewrite list_elem_of_omap. split.
  - intros (c & (port & Hc & Hp)%list_elem_of_bind & Hx). cbn [port_resources clusters] in Hc.
    apply elem_of_app in Hc as [Hc|Hc].
    + apply list_elem_of_bind in Hc as (rule & Hc & Hr).
      apply list_elem_of_bind in Hc as (ip & ->%list_elem_of_singleton & Hip).
      cbn in Hx. injection Hx as <-. eauto 10.
    + apply list_elem_of_singleton in Hc as ->. done.
  - intros (port & rule & ip & Hp & Hr & Hip & ->). exists (ToCluster (clusterName ip port)).
    split; [|done]. apply list_elem_of_bind. exists port. split; [|done].
    cbn [port_resources clusters]. apply elem_of_app. left.
    apply list_elem_of_bind. exists rule. split; [|done].
    apply list_elem_of_bind. exists ip. split; [by left|done].
Qed.

Lemma endpoints_To a e :
  e ∈ endpoints (To a) ↔
    ∃ port rule ip, port ∈ default [] (Ports a) ∧ rule ∈ Rules a ∧ ip ∈ rule_ips rule ∧
      e = ToEndPoint (clusterName ip port) ip (p_ContainerPort port).
Proof.
  rewrite To_eq. cbn [endpoints]. rewrite list_elem_of_bind. split.
  - intros (port & He & Hp). cbn [port_resources endpoints] in He.
    apply list_elem_of_bind in He as (rule & He & Hr).
    apply list_elem_of_bind in He as (ip & ->%list_elem_of_singleton & Hip). eauto 10.
  - intros (port & rule & ip & Hp & Hr & Hip & ->). exists port. split; [|done].
    cbn [port_resources endpoints]. apply list_elem_of_bind. exists rule. split; [|done].
    apply list_elem_of_bind. exists ip. split; [by left|done].
Qed.

Lemma To_Consistent a : Consistent (To a) = true.
Proof.
  unfold Consistent. apply andb_true_iff. split; apply same_names_spec; intros x.
  - rewrite eds_names_To, list_elem_of_fmap. setoid_rewrite endpoints_To. split.
    + intros (port & rule & ip & Hp & Hr & Hip & ->).
      exists (ToEndPoint (clusterName ip port) ip (p_ContainerPort port)). split; [done|].
      by exists port, rule, ip.
    + intros (e & -> & port & rule & ip & Hp & Hr & Hip & ->). by exists port, rule, ip.
  - rewrite To_eq. cbn [listeners routes]. induction (default [] (Ports a)) as [|p ps IH]; [done|].
    rewrite !bind_cons, !fmap_app, !elem_of_app, IH. done.
Qed.

(** ** Lemmas on [Processor] *)

(** A configuration that is remembered is the one its snapshot was made from. *)
Definition processor_inv (p : Processor) : Prop :=
  ∀ uid c, last p !! uid = Some c → ∃ v, snapshots p !! uid = Some (v, To c).

Lemma newVersion_fields p :
  snapshots (fst (newVersion p)) = snapshots p ∧ last (fst (newVersion p)) = last p.
Proof. done. Qed.

Lemma process_one_ok p c : processor_inv p →
  ∃ p', process_one p c = (p', true) ∧ processor_inv p' ∧
    (Uid c ≠ "" → ∃ v, snapshots p' !! Uid c = Some (v, To c)) ∧
    (∀ uid, uid ≠ Uid c → snapshots p' !! uid = snapshots p !! uid).
Proof.
  intros Hinv. unfold process_one. destruct (String.eqb_spec (Uid c) "") as [E|E].
  { exists p. split_and!; [done..|]. done. }
  case_bool_decide as Hl.
  { exists p. split_and!; [done|done|intros _; by apply Hinv|done]. }
  destruct (newVersion p) as [p1 v] eqn:Ev. pose proof (newVersion_fields p) as [Hs Hla].
  rewrite Ev in Hs, Hla. cbn in Hs, Hla. rewrite To_Consistent. cbn [negb].
  eexists. split; [done|]. cbn [snapshots last]. rewrite Hs, Hla. split_and!.
  - intros uid c'. cbn. destruct (decide (Uid c = uid)) as [<-|Hne].
    + rewrite !lookup_insert_eq. intros [= <-]. eauto.
    + rewrite !lookup_insert_ne by done. apply Hinv.
  - intros _. rewrite lookup_insert_eq. eauto.
  - intros uid Hne. by rewrite lookup_insert_ne.
Qed.

Lemma ProcessFile_ok p cs : processor_inv p → NoDup (Uid <$> cs) →
  processor_inv (ProcessFile p cs) ∧
  (∀ c, c ∈ cs → Uid c ≠ "" → ∃ v, snapshots (ProcessFile p cs) !! Uid c = Some (v, To c)) ∧
  (∀ uid, uid ∉ (Uid <$> cs) → snapshots (ProcessFile p cs) !! uid = snapshots p !! uid).
Proof.
  revert p. induction cs as [|c cs IH]; intros p Hinv Hnd; cbn [ProcessFile].
  { split_and!; [done|set_solver|done]. }
  inv Hnd as [|? ? Hni Hnd'].
  destruct (process_one_ok p c Hinv) as (p' & -> & Hinv' & Hc & Ho).
  destruct (IH p' Hinv' Hnd') as (H1 & H2 & H3). split_and!; [done|..].
  - intros c' [->|Hin]%elem_of_cons Hu; [|by apply H2]. rewrite H3 by done. by apply Hc.
  - intros uid Hu. rewrite H3 by set_solver. apply Ho. set_solver.
Qed.

(** ** Properties *)

(** [Virtual.To] implements the header routing: for every port of a workload the
    route table its listener names sends a request to the first rule (in order) all
    of whose headers the request carries, at the rule's IPv4 address, which is an
    endpoint of the snapshot; without such a rule it stays on the original pod. *)
Theorem To_routes_requests a port request
  (Hport : port ∈ default [] (Ports a)) :
  ∃ rc, rc ∈ routes (To a) ∧ rc_Name rc = listenerName (Uid a) port ∧
    rt_Cluster <$> pick_route rc request = Some (target a port request) ∧
    (∀ r, find (rule_match request) (Rules a) = Some r →
       ToEndPoint (target a port request) (LocalTunIPv4 r) (p_ContainerPort port) ∈ endpoints (To a)).
Proof.
  exists (MkRouteConfig (listenerName (Uid a) port) ((Rules a ≫= rule_routes port) ++ [DefaultRoute])).
  split; [|split; [done|split]].
  - rewrite To_eq. cbn [routes]. apply list_elem_of_bind. exists port.
    split; [rewrite port_routes; by left|done].
  - unfold pick_route, target. cbn [rc_Routes]. rewrite pick_rules.
    by destruct (find (rule_match request) (Rules a)).
  - intros r Hr. unfold target. rewrite Hr. apply endpoints_To. exists port, r, (LocalTunIPv4 r).
    apply find_some in Hr as [Hr%list_elem_of_In _]. split_and!; [done|done|by left|done].
Qed.

Definition example_virtual : Virtual :=
  MkVirtual "deployments.apps.ratings" (Some [MkPort "http" 0 9080 "TCP" ""])
    [MkRule (Some {["user" := "a"]}) "223.254.0.101" "efff::1"; MkRule None "223.254.0.102" "efff::2"].

Lemma To_routes_requests_witness :
  ∃ rc, rc ∈ routes (To example_virtual) ∧
    rt_Cluster <$> pick_route rc {["user" := "A"]} = Some "223.254.0.101_9080"%string.
Proof.
  destruct (To_routes_requests example_virtual (MkPort "http" 0 9080 "TCP" "") {["user" := "A"]})
    as (rc & Hin & _ & Hp & _); [left|].
  exists rc. split; [exact Hin|]. rewrite Hp. vm_compute. reflexivity.
Defined.

(** Every snapshot [Virtual.To] builds is consistent in Envoy's sense, whatever the
    configuration: each EDS cluster has its endpoints and vice versa, and the routes
    are exactly those the listeners refer to; so [ProcessFile] never stops early. *)
Theorem To_consistent a p c : Consistent (To a) = true ∧ snd (process_one p c) = true.
Proof.
  split; [apply To_Consistent|]. unfold process_one.
  destruct (String.eqb _ _); [done|]. case_bool_decide; [done|].
  destruct (newVersion p). by rewrite To_Consistent.
Qed.

Definition empty_processor : Processor := MkProcessor 7 ∅ ∅.
Lemma empty_processor_inv : processor_inv empty_processor.
Proof. intros uid c. cbn. by rewrite lookup_empty. Qed.

(** [ProcessFile] publishes the file: from a processor whose cache agrees with its
    snapshots, and for a file with distinct workloads, afterwards every workload of
    the file has the snapshot of its configuration, the other snapshots are untouched
    and the agreement is kept. *)
Theorem ProcessFile_publishes p cs
  (Hinv : processor_inv p) (Hnd : NoDup (Uid <$> cs)) :
  processor_inv (ProcessFile p cs) ∧
  (∀ c, c ∈ cs → Uid c ≠ "" → ∃ v, snapshots (ProcessFile p cs) !! Uid c = Some (v, To c)) ∧
  (∀ uid, uid ∉ (Uid <$> cs) → snapshots (ProcessFile p cs) !! uid = snapshots p !! uid).
Proof. by apply ProcessFile_ok. Qed.

Lemma ProcessFile_publishes_witness :
  ∃ v, snapshots (ProcessFile empty_processor [example_virtual]) !! "deployments.apps.ratings"%string =
    Some (v, To example_virtual).
Proof.
  apply (proj1 (proj2 (ProcessFile_publishes empty_processor [example_virtual] empty_processor_inv
    ltac:(apply NoDup_singleton))) example_virtual).
  - left.
  - discriminate.
Defined.
