(* ===== verification/Watcher.v ===== *)
(** * The control plane follows its file

    [pkg/controlplane/watcher.go] and [main.go]: [Watch] turns the events of the watched
    file and a tick every five seconds into messages on a channel, and [Main] processes the
    file for each message.  The goroutines, the changes of the file and the expiry of the
    remembered configurations interleave; the theorem says that the proxies are served what
    the file says once a message has been processed after its last change. *)
From Stdlib Require Import ZArith Lia.
From stdpp Require Import base gmap strings numbers list.
From S2P Require Import Prelude GoStrings ControlPlane.
From stdpp Require Import list.

(** The operations of [fsnotify] as bits. *)
Definition fsCreate : Z := 1.
Definition fsWrite : Z := 2.
Definition fsRemove : Z := 4.

Inductive OperationType := Create | Remove | Modify.
Record NotifyMessage := MkNotify { Operation : OperationType; FilePath : string }.

Definition has_op (op bit : Z) : bool := Z.eqb (Z.land op bit) bit.

(** The message of an event; a rename or a change of the mode gives none. *)
Definition event_message (op : Z) (name : string) : option NotifyMessage :=
  if has_op op fsWrite then Some (MkNotify Modify name)
  else if has_op op fsCreate then Some (MkNotify Create name)
  else if has_op op fsRemove then Some (MkNotify Remove name)
  else None.

(** The files as [ParseYaml] reads them, the channel, the processor, and whether [Watch]
    has returned, which ends the process. *)
Record plane := MkPlane { pl_files : gmap string (list Virtual); pl_ch : list NotifyMessage; pl_proc : Processor; pl_over : bool }.

Definition ch_cap : nat := 100.

(** [Main] up to the loops. *)
Definition plane0 (filename : string) (version : Z) (files : gmap string (list Virtual)) : plane :=
  MkPlane files [MkNotify Create filename] (MkProcessor version ∅ ∅) false.

Inductive plane_event :=
  | FileChanged (path : string) (content : option (list Virtual))  (* [None]: unreadable *)
  | FsEvent (op : Z) (name : string) | Tick | WatcherError
  | Process | Expire (uid : string).

Definition send (m : NotifyMessage) (s : plane) : option plane :=
  if length (pl_ch s) <? ch_cap then Some (MkPlane (pl_files s) (pl_ch s ++ [m]) (pl_proc s) (pl_over s)) else None.

(** [proc.ProcessFile]: a file that cannot be read or parsed changes nothing. *)
Definition process_message (m : NotifyMessage) (s : plane) : Processor :=
  match pl_files s !! FilePath m with Some cs => ProcessFile (pl_proc s) cs | None => pl_proc s end.

Definition plane_step (filename : string) (ev : plane_event) (s : plane) : option plane :=
  if pl_over s then None else
  match ev with
  | FileChanged path content => Some (MkPlane (partial_alter (λ _, content) path (pl_files s)) (pl_ch s) (pl_proc s) false)
  | FsEvent op name => match event_message op name with Some m => send m s | None => Some s end
  | Tick => send (MkNotify Modify filename) s
  | WatcherError => Some (MkPlane (pl_files s) (pl_ch s) (pl_proc s) true)
  | Process => match pl_ch s with
               | [] => None
               | m :: ch => Some (MkPlane (pl_files s) ch (process_message m s) false)
               end
  | Expire uid => Some (MkPlane (pl_files s) (pl_ch s)
                          (MkProcessor (version (pl_proc s)) (snapshots (pl_proc s)) (delete uid (ControlPlane.last (pl_proc s)))) false)
  end.

Fixpoint plane_run (filename : string) (evs : list plane_event) (s : plane) : option plane :=
  match evs with [] => Some s | ev :: evs => s ← plane_step filename ev s; plane_run filename evs s end.

(** ** Invariants *)

Lemma ProcessFile_inv p cs : processor_inv p → processor_inv (ProcessFile p cs).
Proof.
  revert p. induction cs as [|c cs IH]; intros p Hp; [done|]. cbn.
  destruct (process_one_ok p c Hp) as (p' & -> & Hp' & _). by apply IH.
Qed.

Lemma plane_step_inv filename ev s s' :
  plane_step filename ev s = Some s' → processor_inv (pl_proc s) → processor_inv (pl_proc s').
Proof.
  unfold plane_step, send. destruct (pl_over s); [done|]. intros E Hp.
  destruct ev as [path content|op name| | | |uid]; simplify_eq; try done.
  - destruct (event_message op name); [destruct (_ <? _)|]; by simplify_eq.
  - destruct (_ <? _); by simplify_eq.
  - destruct (pl_ch s) as [|m ch]; simplify_eq. cbn. unfold process_message.
    destruct (pl_files s !! FilePath m); [by apply ProcessFile_inv|done].
  - intros u c. cbn. intros [_ H]%lookup_delete_Some. by apply Hp.
Qed.

Lemma plane_run_inv filename evs s s' :
  plane_run filename evs s = Some s' → processor_inv (pl_proc s) → processor_inv (pl_proc s').
Proof.
  revert s. induction evs as [|ev evs IH]; intros s E Hp; [unfold plane_run in E; by simplify_eq|].
  cbn in E. apply bind_Some in E as (s1 & E1 & E). eauto using plane_step_inv.
Qed.

(** The proxies of the workloads of a file are served its configurations. *)
Definition published (p : Processor) (cs : list Virtual) : Prop :=
  ∀ c, c ∈ cs → Uid c ≠ ""%string → ∃ v, snapshots p !! Uid c = Some (v, To c).

(** The events of a quiet time: no change of the file, events of the watched file only. *)
Definition quiet (filename : string) (ev : plane_event) : Prop :=
  match ev with FileChanged path _ => path ≠ filename | FsEvent _ name => name = filename | _ => True end.

(** The file says [cs], all messages are for it, and it is published or a message is
    waiting. *)
Definition following (filename : string) (cs : list Virtual) (s : plane) : Prop :=
  pl_files s !! filename = Some cs ∧ Forall (λ m, FilePath m = filename) (pl_ch s) ∧ processor_inv (pl_proc s) ∧
  (pl_ch s = [] → published (pl_proc s) cs).

Lemma send_following filename cs m s s' :
  FilePath m = filename → pl_files s !! filename = Some cs → Forall (λ m, FilePath m = filename) (pl_ch s) →
  processor_inv (pl_proc s) → send m s = Some s' → following filename cs s'.
Proof.
  intros Hm Hf Hc Hp. unfold send. destruct (_ <? _); [|done]. intros [= <-]. split_and!; cbn; try done.
  - apply Forall_app. split; [done|]. by constructor.
  - by destruct (pl_ch s).
Qed.

Lemma plane_step_following filename cs ev s s' :
  NoDup (Uid <$> cs) → quiet filename ev → following filename cs s → plane_step filename ev s = Some s' → following filename cs s'.
Proof.
  intros Hnd Hq (Hf & Hc & Hp & Hpub) E. pose proof (plane_step_inv _ _ _ _ E Hp) as Hp'.
  unfold plane_step in E. destruct (pl_over s); [done|].
  destruct ev as [path content|op name| | | |uid]; cbn in Hq.
  - simplify_eq. split_and!; cbn; try done. by rewrite lookup_partial_alter_ne.
  - destruct (event_message op name) as [m|] eqn:Em; [|by simplify_eq].
    apply (send_following filename cs m s); [|done..]. unfold event_message in Em. subst name.
    by destruct (has_op op fsWrite), (has_op op fsCreate), (has_op op fsRemove); simplify_eq.
  - by apply (send_following filename cs (MkNotify Modify filename) s).
  - by simplify_eq.
  - destruct (pl_ch s) as [|m ch] eqn:Ech; simplify_eq. apply Forall_cons in Hc as [Hm Hc].
    split_and!; cbn; try done. intros _. unfold process_message. rewrite Hm, Hf. by destruct (ProcessFile_ok (pl_proc s) cs Hp Hnd) as (_ & H & _).
  - by simplify_eq.
Qed.

Lemma plane_run_following filename cs evs s s' :
  NoDup (Uid <$> cs) → Forall (quiet filename) evs → following filename cs s → plane_run filename evs s = Some s' →
  following filename cs s'.
Proof.
  intros Hnd Hq. revert s. induction Hq as [|ev evs Hev Hq IH]; intros s Hs E; [unfold plane_run in E; by simplify_eq|].
  cbn in E. apply bind_Some in E as (s1 & E1 & E). eauto using plane_step_following.
Qed.

(** The events of the watched file name it. *)
Definition named (filename : string) (ev : plane_event) : Prop :=
  match ev with FsEvent _ name => name = filename | _ => True end.

Lemma plane_run_named filename evs s s' :
  Forall (named filename) evs → Forall (λ m, FilePath m = filename) (pl_ch s) → plane_run filename evs s = Some s' →
  Forall (λ m, FilePath m = filename) (pl_ch s').
Proof.
  intros Hn. revert s. induction Hn as [|ev evs Hev Hn IH]; intros s Hs E; [unfold plane_run in E; by simplify_eq|].
  cbn in E. apply bind_Some in E as (s1 & E1 & E). apply (IH s1); [|done]. clear IH E.
  unfold plane_step, send in E1. destruct (pl_over s); [done|].
  destruct ev as [path content|op name| | | |uid]; cbn in Hev; simplify_eq; try done.
  - destruct (event_message op filename) as [m|] eqn:Em; [|by simplify_eq].
    destruct (_ <? _); [|done]. simplify_eq. apply Forall_app. split; [done|]. constructor; [|done].
    unfold event_message in Em.
    by destruct (has_op op fsWrite), (has_op op fsCreate), (has_op op fsRemove); simplify_eq.
  - destruct (_ <? _); [|done]. simplify_eq. apply Forall_app. split; [done|]. by constructor.
  - destruct (pl_ch s) as [|m ch]; simplify_eq. by apply Forall_cons in Hs as [_ Hs].
Qed.

Lemma plane_run_app filename evs evs' s s' :
  plane_run filename (evs ++ evs') s = Some s' → ∃ s1, plane_run filename evs s = Some s1 ∧ plane_run filename evs' s1 = Some s'.
Proof.
  revert s. induction evs as [|ev evs IH]; intros s; [by exists s|]. cbn. intros (s1 & E1 & E)%bind_Some.
  destruct (IH s1 E) as (s2 & H1 & H2). exists s2. by rewrite E1.
Qed.

Lemma quiet_files filename evs s s' :
  Forall (quiet filename) evs → plane_run filename evs s = Some s' → pl_files s' !! filename = pl_files s !! filename.
Proof.
  intros Hq. revert s. induction Hq as [|ev evs Hev Hq IH]; intros s E; [unfold plane_run in E; by simplify_eq|].
  cbn in E. apply bind_Some in E as (s1 & E1 & E). rewrite (IH s1 E). clear IH E.
  unfold plane_step, send in E1. destruct (pl_over s); [done|].
  destruct ev as [path content|op name| | | |uid]; cbn in Hev; simplify_eq; try done.
  - cbn. by rewrite lookup_partial_alter_ne.
  - destruct (event_message op filename); [destruct (_ <? _)|]; by simplify_eq.
  - destruct (_ <? _); by simplify_eq.
  - destruct (pl_ch s); by simplify_eq.
Qed.

(** The messages can always be processed. *)
Lemma plane_drains filename s :
  pl_over s = false → ∃ s', plane_run filename (replicate (length (pl_ch s)) Process) s = Some s' ∧ pl_ch s' = [].
Proof.
  destruct s as [fs ch p o]. cbn. intros ->. revert p. induction ch as [|m ch IH]; intros p; [by eexists|].
  cbn. apply IH.
Qed.

(** ** The control plane *)

(** C25.  Whatever happened before, and in whatever order the file was changed, events of
    it arrived, messages were processed and remembered configurations expired: once the
    tick after the last change of the file has been processed and no message waits, every
    workload of the file is served a snapshot whose routes send each request of each port
    to the first rule of the file whose headers it carries, and otherwise to the original
    pod; and the waiting messages can always be processed. *)
Theorem control_plane_follows filename version files pre post s cs
  (Hrun : plane_run filename (pre ++ Tick :: post) (plane0 filename version files) = Some s)
  (Hpre : Forall (named filename) pre) (Hpost : Forall (quiet filename) post)
  (Hfile : pl_files s !! filename = Some cs) (Hnd : NoDup (Uid <$> cs)) :
  (pl_ch s = [] → ∀ c port request, c ∈ cs → Uid c ≠ ""%string → port ∈ default [] (Ports c) →
     ∃ v r rc, snapshots (pl_proc s) !! Uid c = Some (v, r) ∧ rc ∈ routes r ∧ rc_Name rc = listenerName (Uid c) port ∧
       rt_Cluster <$> pick_route rc request = Some (target c port request)) ∧
  (pl_over s = false → ∃ s', plane_run filename (replicate (length (pl_ch s)) Process) s = Some s' ∧ pl_ch s' = []).
Proof.
  split; [|apply plane_drains]. intros Hempty c port request Hc Hu Hport.
  apply plane_run_app in Hrun as (s1 & E1 & E). cbn in E. apply bind_Some in E as (s2 & E2 & E).
  unfold plane_step in E2.
  assert (processor_inv (pl_proc s1)) as Hp1 by (eapply plane_run_inv; [exact E1|]; intros u x; cbn; by rewrite lookup_empty).
  assert (Forall (λ m, FilePath m = filename) (pl_ch s1)) as Hn1 by (eapply plane_run_named; [exact Hpre| |exact E1]; by constructor).
  assert (pl_files s1 !! filename = Some cs) as Hf1.
  { rewrite <-Hfile, (quiet_files _ _ _ _ Hpost E). destruct (pl_over s1); [done|]. unfold send in E2.
    destruct (length (pl_ch s1) <? ch_cap); [|discriminate]. injection E2 as <-. done. }
  assert (following filename cs s2) as H2 by (destruct (pl_over s1); [done|]; by apply (send_following filename cs (MkNotify Modify filename) s1)).
  destruct (plane_run_following _ _ _ _ _ Hnd Hpost H2 E) as (_ & _ & _ & Hpub).
  destruct (Hpub Hempty c Hc Hu) as [v Hv]. destruct (To_routes_requests c port request Hport) as (rc & H3 & H4 & H5 & _).
  by exists v, (To c), rc.
Qed.

(** *** A change of the file *)

Definition example_files : gmap string (list Virtual) := {["envoy.yaml"%string := []]}.
Definition example_pre : list plane_event :=
  [Process; FileChanged "envoy.yaml" (Some [example_virtual]); FsEvent fsWrite "envoy.yaml"].
Definition example_post : list plane_event := [Process; Expire "deployments.apps.ratings"; Process].

Definition example_plane : plane :=
  default (plane0 "envoy.yaml" 7 example_files)
    (plane_run "envoy.yaml" (example_pre ++ Tick :: example_post) (plane0 "envoy.yaml" 7 example_files)).

Lemma example_plane_run :
  plane_run "envoy.yaml" (example_pre ++ Tick :: example_post) (plane0 "envoy.yaml" 7 example_files) = Some example_plane.
Proof. vm_compute. reflexivity. Qed.
Lemma example_plane_file : pl_files example_plane !! "envoy.yaml"%string = Some [example_virtual].
Proof. vm_compute. reflexivity. Qed.
Lemma example_plane_ch : pl_ch example_plane = [].
Proof. vm_compute. reflexivity. Qed.

Lemma control_plane_follows_witness :
  ∃ v r rc, snapshots (pl_proc example_plane) !! "deployments.apps.ratings"%string = Some (v, r) ∧ rc ∈ routes r ∧
    rt_Cluster <$> pick_route rc {["user" := "A"]} = Some "223.254.0.101_9080"%string.
Proof.
  destruct (control_plane_follows "envoy.yaml" 7 example_files example_pre example_post example_plane [example_virtual]) as [H _].
  - exact example_plane_run.
  - repeat constructor.
  - repeat constructor.
  - exact example_plane_file.
  - apply NoDup_singleton.
  - destruct (H example_plane_ch example_virtual (MkPort "http" 0 9080 "TCP" "") {["user" := "A"]}) as (v & r & rc & H1 & H2 & _ & H3);
      [left|discriminate|left|].
    exists v, r, rc. split; [exact H1|]. split; [exact H2|]. rewrite H3. vm_compute. reflexivity.
Defined.
