(* ===== verification/Envoy.v ===== *)
(** * Proxy rules of a workload

    [pkg/handler/envoy.go] ([addEnvoyConfig], [removeEnvoyConfig], [contains]),
    [util.Merge] and [LeaveProxyResources] of [pkg/handler/reset.go]: each client
    that proxies a workload owns one rule of the workload's [Virtual], identified by
    its tunnel addresses.  The list is stored as YAML in the ConfigMap; the YAML
    library is an interface with its round-trip law, instantiated below. *)
From Stdlib Require Import ZArith Lia Ascii.
From stdpp Require Import base countable gmap strings numbers list.
From S2P Require Import Prelude GoStrings Config KubeApi ControlPlane.

(** ** [util.Merge] *)

(** Writing to a nil map panics, which happens before the nil test. *)
Definition Merge {V} (fromMap ToMap : option (gmap string V)) : outcome (option (gmap string V)) :=
  match fromMap with
  | Some m => Ret (Some (default ∅ ToMap ∪ m))
  | None => if bool_decide (default ∅ ToMap = ∅) then Ret ToMap else Panic
  end.

(** [contains(a, sub)]: an absent key reads as the empty string. *)
Definition contains (a sub : gmap string string) : bool :=
  forallb (λ kv, String.eqb (default "" (a !! kv.1)) kv.2) (map_to_list sub).

(** ** The lists of rules *)

Record PodRouteConfig := MkPodRoute { pr_v4 : string; pr_v6 : string }.

Definition owns (t : PodRouteConfig) (r : Rule) : bool :=
  String.eqb (LocalTunIPv4 r) (pr_v4 t) && String.eqb (LocalTunIPv6 r) (pr_v6 t).

(** The loop over the rules: every rule of this client gets the headers merged in. *)
Fixpoint merge_rules (t : PodRouteConfig) (headers : option (gmap string string)) (rules : list Rule)
  : outcome (list Rule * bool) :=
  match rules with
  | [] => Ret ([], false)
  | r :: rules =>
      if owns t r then
        h ← Merge (Headers r) headers;
        '(rules, _) ← merge_rules t headers rules;
        Ret (MkRule h (LocalTunIPv4 r) (LocalTunIPv6 r) :: rules, true)
      else
        '(rules, found) ← merge_rules t headers rules;
        Ret (r :: rules, found)
  end.

Definition new_rule (t : PodRouteConfig) (headers : option (gmap string string)) : Rule :=
  MkRule headers (pr_v4 t) (pr_v6 t).

(** The update of the workload's entry. *)
Definition add_to_virtual (t : PodRouteConfig) (headers : option (gmap string string))
    (port : option (list ContainerPort)) (v : Virtual) : outcome Virtual :=
  '(rules, found) ← merge_rules t headers (Rules v);
  if (found : bool) then Ret (MkVirtual (Uid v) (Ports v) rules)
  else Ret (MkVirtual (Uid v) (match Ports v with None => port | p => p end)
              (rules ++ [new_rule t headers])).

(** [addEnvoyConfig] on the list: the first entry of the workload is updated, or a
    new entry appended. *)
Fixpoint add_rule (nodeID : string) (t : PodRouteConfig) (headers : option (gmap string string))
    (port : option (list ContainerPort)) (v : list Virtual) : outcome (list Virtual) :=
  match v with
  | [] => Ret [MkVirtual nodeID port [new_rule t headers]]
  | x :: v =>
      if String.eqb nodeID (Uid x) then
        x ← add_to_virtual t headers port x; Ret (x :: v)
      else
        v ← add_rule nodeID t headers port v; Ret (x :: v)
  end.

(** [removeEnvoyConfig] on the list: in-place removal of the client's rules, then of
    the workload's empty entries. *)
Definition remove_rules (nodeID localTunIPv4 : string) (v : list Virtual) : list Virtual :=
  (λ x, if String.eqb nodeID (Uid x)
        then MkVirtual (Uid x) (Ports x)
               (remove_loop (λ r, String.eqb (LocalTunIPv4 r) localTunIPv4) (Rules x))
        else x) <$> v.

Definition is_empty_entry (nodeID : string) (x : Virtual) : bool :=
  String.eqb nodeID (Uid x) && (length (Rules x) =? 0).

Definition remove_rule (nodeID localTunIPv4 : string) (v : list Virtual) : list Virtual * bool :=
  let v := remove_rules nodeID localTunIPv4 v in
  (remove_loop (is_empty_entry nodeID) v, existsb (is_empty_entry nodeID) v).

(** ** The YAML library *)

Class YamlCodec := {
  yaml_Marshal : list Virtual → outcome string;
  yaml_Unmarshal : string → outcome (list Virtual);
}.
Class YamlLaws `{YamlCodec} : Prop := {
  yaml_roundtrip v s : yaml_Marshal v = Ret s → yaml_Unmarshal s = Ret v;
  yaml_empty : yaml_Unmarshal "" = Ret [];
  yaml_no_panic v : yaml_Marshal v ≠ Panic;
}.

Section Envoy.
Context {S : Type} `{API : ConfigMapInterface S} `{Y : YamlCodec}.

(** [configMap.Data[config.KeyEnvoy] = ...] and the update: a nil map panics. *)
Definition store_virtuals (s : S) (cm : ConfigMap) (v : list Virtual) : S * outcome unit :=
  match yaml_Marshal v with
  | Fail e => (s, Fail e)
  | Panic => (s, Panic)
  | Ret text =>
      match cm_Data cm with
      | None => (s, Panic)
      | Some d =>
          match cmUpdate s (with_data cm (<[KeyEnvoy := text]> d)) with
          | (s, Ret _) => (s, Ret tt)
          | (s, Fail e) => (s, Fail e)
          | (s, Panic) => (s, Panic)
          end
      end
  end.

Definition addEnvoyConfig (s : S) (nodeID : string) (t : PodRouteConfig)
    (headers : option (gmap string string)) (port : option (list ContainerPort)) : S * outcome unit :=
  match cmGet s ConfigMapPodTrafficManager with
  | Fail e => (s, Fail e)
  | Panic => (s, Panic)
  | Ret cm =>
      let old := match data_map cm !! KeyEnvoy with
                 | Some str => yaml_Unmarshal str
                 | None => Ret []
                 end in
      match v ← old; add_rule nodeID t headers port v with
      | Ret v => store_virtuals s cm v
      | Fail e => (s, Fail e)
      | Panic => (s, Panic)
      end
  end.

(** The flag tells whether the workload has no rule left. *)
Definition removeEnvoyConfig (s : S) (nodeID localTunIPv4 : string) : S * outcome bool :=
  match cmGet s ConfigMapPodTrafficManager with
  | Fail NotFound => (s, Ret true)
  | Fail e => (s, Fail e)
  | Panic => (s, Panic)
  | Ret cm =>
      match data_map cm !! KeyEnvoy with
      | None => (s, Fail (Errorf "can not found value for key: envoy-config.yaml"))
      | Some str =>
          match yaml_Unmarshal str with
          | Fail e => (s, Fail e)
          | Panic => (s, Panic)
          | Ret v =>
              let '(v, empty) := remove_rule nodeID localTunIPv4 v in
              match store_virtuals s cm v with
              | (s, Ret _) => (s, Ret empty)
              | (s, Fail e) => (s, Fail e)
              | (s, Panic) => (s, Panic)
              end
          end
      end
  end.

(** The workloads [LeaveProxyResources] leaves, in order: the last dot of the uid
    becomes a slash; a uid without a dot makes the slice expression panic. *)
Definition leave_uid (uid : string) : outcome string :=
  match LastIndex uid "."%char with
  | None => Panic
  | Some i => Ret (str_take i uid +:+ "/" +:+ str_drop (Datatypes.S i) uid)%string
  end.

(** The workloads [LeaveProxyResources] calls [UnPatchContainer] on. *)
Definition leave_targets (s : S) : outcome (list string) :=
  match cmGet s ConfigMapPodTrafficManager with
  | Fail e => Fail e
  | Panic => Panic
  | Ret cm =>
      if String.eqb (data_get cm KeyEnvoy) "" then Ret []
      else
        v ← yaml_Unmarshal (data_get cm KeyEnvoy);
        foldr (λ x acc, u ← leave_uid (Uid x); l ← acc; Ret (u :: l)) (Ret []) v
  end.
End Envoy.

(** ** Lemmas: merging *)

Definition merge_headers (h : option (gmap string string)) (r : Rule) : Rule :=
  MkRule (match Headers r with Some m => Some (default ∅ h ∪ m) | None => h end)
    (LocalTunIPv4 r) (LocalTunIPv6 r).

(** A rule without headers cannot take any. *)
Definition nil_clash (h : option (gmap string string)) (r : Rule) : bool :=
  bool_decide (Headers r = None) && negb (bool_decide (default ∅ h = ∅)).

Lemma Merge_eq h r :
  Merge (Headers r) h = if nil_clash h r then Panic else Ret (Headers (merge_headers h r)).
Proof.
  unfold Merge, nil_clash, merge_headers. destruct (Headers r); cbn; [done|].
  destruct h as [m|]; cbn; [|done]. by do 2 case_bool_decide.
Qed.

Lemma merge_rules_eq t h rules :
  merge_rules t h rules =
    if existsb (λ r, owns t r && nil_clash h r) rules then Panic
    else Ret ((λ r, if owns t r then merge_headers h r else r) <$> rules, existsb (owns t) rules).
Proof.
  induction rules as [|r rules IH]; [done|]. cbn [merge_rules existsb]. rewrite IH, Merge_eq.
  destruct (owns t r) eqn:Eo; cbn [andb orb].
  - destruct (nil_clash h r); [done|]. cbn [mbind outcome_bind orb].
    destruct (existsb (λ r, owns t r && nil_clash h r) rules); [done|].
    cbn [mbind outcome_bind]. by rewrite fmap_cons, Eo.
  - destruct (existsb (λ r, owns t r && nil_clash h r) rules); [done|].
    cbn [mbind outcome_bind]. by rewrite fmap_cons, Eo.
Qed.

Lemma merge_headers_idem h r : merge_headers h (merge_headers h r) = merge_headers h r.
Proof.
  unfold merge_headers. cbn. destruct (Headers r) as [m|].
  - f_equal. f_equal. by rewrite (assoc_L (∪)), (idemp_L (∪)).
  - f_equal. destruct h as [m|]; [|done]. cbn. by rewrite (idemp_L (∪)).
Qed.

Lemma owns_merge t h r : owns t (merge_headers h r) = owns t r.
Proof. done. Qed.

Lemma owns_spec t r : owns t r = true ↔ LocalTunIPv4 r = pr_v4 t ∧ LocalTunIPv6 r = pr_v6 t.
Proof. unfold owns. by rewrite andb_true_iff, !String.eqb_eq. Qed.

Lemma owns_new t h : owns t (new_rule t h) = true.
Proof. by apply owns_spec. Qed.

Lemma existsb_false {A} (f : A → bool) l : existsb f l = false ↔ ∀ x, x ∈ l → f x = false.
Proof.
  rewrite <-not_true_iff_false, existsb_exists. setoid_rewrite <-not_true_iff_false.
  setoid_rewrite <-list_elem_of_In. naive_solver.
Qed.

Lemma merge_no_owner t h rules : existsb (owns t) rules = false →
  ((λ r, if owns t r then merge_headers h r else r) <$> rules) = rules ∧
  existsb (λ r, owns t r && nil_clash h r) rules = false.
Proof.
  induction rules as [|r rules IH]; [done|]. cbn.
  intros [Ho Hr]%orb_false_iff. destruct (IH Hr) as [H1 H2]. rewrite Ho. cbn.
  split; [f_equal; exact H1|exact H2].
Qed.

(** ** Lemmas: adding and removing a rule *)

(** The workload's entry after [addEnvoyConfig]. *)
Definition added (t : PodRouteConfig) (h : option (gmap string string))
    (port : option (list ContainerPort)) (x : Virtual) : Virtual :=
  if existsb (owns t) (Rules x)
  then MkVirtual (Uid x) (Ports x) ((λ r, if owns t r then merge_headers h r else r) <$> Rules x)
  else MkVirtual (Uid x) (match Ports x with None => port | p => p end)
         (Rules x ++ [new_rule t h]).

Lemma add_to_virtual_eq t h port x :
  add_to_virtual t h port x =
    if existsb (λ r, owns t r && nil_clash h r) (Rules x) then Panic else Ret (added t h port x).
Proof.
  unfold add_to_virtual, added. rewrite merge_rules_eq.
  destruct (existsb (λ r, owns t r && nil_clash h r) (Rules x)) eqn:Ec; [done|].
  cbn [mbind outcome_bind]. destruct (existsb (owns t) (Rules x)) eqn:Eo; [done|].
  by destruct (merge_no_owner t h (Rules x) Eo) as [-> _].
Qed.

Lemma existsb_map {A B} (f : B → bool) (g : A → B) l : existsb f (g <$> l) = existsb (f ∘ g) l.
Proof. induction l; cbn; [done|]. by rewrite IHl. Qed.

Lemma existsb_ext {A} (f g : A → bool) l : (∀ x, f x = g x) → existsb f l = existsb g l.
Proof. intros H. induction l; cbn; [done|]. by rewrite H, IHl. Qed.

Lemma owned_stays t h r : owns t (if owns t r then merge_headers h r else r) = owns t r.
Proof. destruct (owns t r) eqn:E; [by rewrite owns_merge|done]. Qed.

Lemma added_Uid t h port x : Uid (added t h port x) = Uid x.
Proof. unfold added. by destruct (existsb (owns t) (Rules x)). Qed.

Lemma added_owns t h port x : existsb (owns t) (Rules (added t h port x)) = true.
Proof.
  unfold added. destruct (existsb (owns t) (Rules x)) eqn:E; cbn.
  - rewrite existsb_map, <-E. apply existsb_ext. intros r. apply owned_stays.
  - rewrite existsb_app. cbn. rewrite owns_new. apply orb_true_r.
Qed.

Lemma added_idem t h port x : added t h port (added t h port x) = added t h port x.
Proof.
  pose proof (added_owns t h port x) as Ho. unfold added at 1. rewrite Ho.
  destruct (added t h port x) as [u p rs] eqn:E. cbn. f_equal.
  unfold added in E. destruct (existsb (owns t) (Rules x)) eqn:Ex; injection E as _ _ <-.
  - rewrite <-list_fmap_compose. apply list_fmap_ext. intros _ r _. cbn.
    rewrite owned_stays. destruct (owns t r); [apply merge_headers_idem|done].
  - rewrite fmap_app. destruct (merge_no_owner t h (Rules x) Ex) as [-> _]. f_equal. cbn.
    rewrite owns_new. unfold new_rule, merge_headers. cbn. destruct h as [m|]; cbn; [|done].
    by rewrite (idemp_L (∪)).
Qed.

Lemma add_rule_none nodeID t h port v :
  nodeID ∉ (Uid <$> v) → add_rule nodeID t h port v = Ret (v ++ [MkVirtual nodeID port [new_rule t h]]).
Proof.
  induction v as [|x v IH]; intros Hn; [done|]. rewrite fmap_cons in Hn.
  apply not_elem_of_cons in Hn as [Hx Hv]. cbn [add_rule].
  apply String.eqb_neq in Hx as ->. by rewrite IH.
Qed.

Lemma add_rule_some nodeID t h port pre x post :
  nodeID ∉ (Uid <$> pre) → Uid x = nodeID →
  add_rule nodeID t h port (pre ++ x :: post) =
    if existsb (λ r, owns t r && nil_clash h r) (Rules x) then Panic
    else Ret (pre ++ added t h port x :: post).
Proof.
  intros Hpre Hx. induction pre as [|y pre IH]; cbn [add_rule app].
  - apply String.eqb_eq in Hx. rewrite String.eqb_sym, Hx, add_to_virtual_eq.
    by destruct (existsb _ _).
  - rewrite fmap_cons in Hpre. apply not_elem_of_cons in Hpre as [Hy Hpre].
    apply String.eqb_neq in Hy as ->. rewrite IH by done. by destruct (existsb _ _).
Qed.

Lemma uid_split nodeID (v : list Virtual) :
  nodeID ∉ (Uid <$> v) ∨
  ∃ pre x post, v = pre ++ x :: post ∧ (nodeID ∉ Uid <$> pre) ∧ Uid x = nodeID.
Proof.
  induction v as [|y v IH]; [left; set_solver|].
  destruct (decide (Uid y = nodeID)) as [Hy|Hy].
  - right. exists [], y, v. split_and!; [done|set_solver|done].
  - destruct IH as [IH|(pre & x & post & -> & Hpre & Hx)]; [left; set_solver|].
    right. exists (y :: pre), x, post. split_and!; [done|set_solver|done].
Qed.

Lemma remove_rules_other nodeID ip v : nodeID ∉ (Uid <$> v) → remove_rules nodeID ip v = v.
Proof.
  intros Hn. unfold remove_rules. rewrite <-(list_fmap_id v) at 2.
  apply list_fmap_ext. intros i x Hi%list_elem_of_lookup_2. cbn.
  destruct (String.eqb_spec nodeID (Uid x)) as [E|]; [|done].
  exfalso. apply Hn. rewrite E. by apply list_elem_of_fmap_2.
Qed.

Lemma is_empty_entry_other nodeID (v : list Virtual) x :
  nodeID ∉ (Uid <$> v) → x ∈ v → is_empty_entry nodeID x = false.
Proof.
  intros Hn Hx. unfold is_empty_entry. destruct (String.eqb_spec nodeID (Uid x)) as [E|]; [|done].
  exfalso. apply Hn. rewrite E. by apply list_elem_of_fmap_2.
Qed.

Lemma remove_empty_other nodeID v : nodeID ∉ (Uid <$> v) →
  remove_loop (is_empty_entry nodeID) v = v ∧ existsb (is_empty_entry nodeID) v = false.
Proof.
  intros Hn. split.
  - apply remove_loop_id. intros x Hx%list_elem_of_In. by eapply is_empty_entry_other.
  - apply existsb_false. intros x Hx. by eapply is_empty_entry_other.
Qed.

(** The entry of a workload after the client left; [None]: removed. *)
Definition left (ip : string) (x : Virtual) : Virtual :=
  MkVirtual (Uid x) (Ports x) (remove_loop (λ r, String.eqb (LocalTunIPv4 r) ip) (Rules x)).

Lemma remove_rule_split nodeID ip pre x post :
  nodeID ∉ (Uid <$> pre) → nodeID ∉ (Uid <$> post) → Uid x = nodeID →
  remove_rule nodeID ip (pre ++ x :: post) =
    if length (Rules (left ip x)) =? 0 then (pre ++ post, true)
    else (pre ++ left ip x :: post, false).
Proof.
  intros Hpre Hpost Hx. unfold remove_rule.
  assert (remove_rules nodeID ip (pre ++ x :: post) = pre ++ left ip x :: post) as ->.
  { unfold remove_rules. rewrite fmap_app, fmap_cons.
    change (fmap _ pre) with (remove_rules nodeID ip pre).
    change (fmap _ post) with (remove_rules nodeID ip post).
    rewrite !remove_rules_other by done. f_equal. f_equal.
    apply String.eqb_eq in Hx. by rewrite String.eqb_sym, Hx. }
  change (left ip x :: post) with ([left ip x] ++ post).
  rewrite !remove_loop_app, !existsb_app.
  destruct (remove_empty_other nodeID pre Hpre) as [-> ->].
  destruct (remove_empty_other nodeID post Hpost) as [-> ->].
  rewrite remove_loop_filter. cbn [List.filter existsb].
  assert (is_empty_entry nodeID (left ip x) = (length (Rules (left ip x)) =? 0)) as ->.
  { unfold is_empty_entry. change (Uid (left ip x)) with (Uid x).
    apply String.eqb_eq in Hx. by rewrite String.eqb_sym, Hx. }
  by destruct (length (Rules (left ip x)) =? 0).
Qed.

Lemma remove_rule_none nodeID ip v : nodeID ∉ (Uid <$> v) → remove_rule nodeID ip v = (v, false).
Proof.
  intros Hn. unfold remove_rule. rewrite remove_rules_other by done.
  by destruct (remove_empty_other nodeID v Hn) as [-> ->].
Qed.

(** ** What adding a rule does to the list *)

Definition other_workloads (nodeID : string) (v : list Virtual) : list Virtual :=
  List.filter (λ x, negb (String.eqb nodeID (Uid x))) v.

(** The client's rule carries the headers. *)
Definition has_rule (nodeID : string) (t : PodRouteConfig) (h : option (gmap string string))
    (v : list Virtual) : Prop :=
  ∃ x r, x ∈ v ∧ Uid x = nodeID ∧ r ∈ Rules x ∧ owns t r = true ∧
    default ∅ h ⊆ default ∅ (Headers r).

Lemma added_rule t h port x : ∃ r, r ∈ Rules (added t h port x) ∧ owns t r = true ∧
  default ∅ h ⊆ default ∅ (Headers r).
Proof.
  unfold added. destruct (existsb (owns t) (Rules x)) eqn:E; cbn.
  - apply existsb_exists in E as (r & Hr%list_elem_of_In & Ho). exists (merge_headers h r).
    split_and!; [|by rewrite owns_merge|].
    + apply list_elem_of_fmap. exists r. by rewrite Ho.
    + unfold merge_headers. cbn. destruct (Headers r); cbn; [apply map_union_subseteq_l|done].
  - exists (new_rule t h). split_and!; [set_solver|apply owns_new|done].
Qed.

Lemma added_keeps t h port x r : r ∈ Rules x → owns t r = false → r ∈ Rules (added t h port x).
Proof.
  intros Hr Ho. unfold added. destruct (existsb _ _); cbn; [|set_solver].
  apply list_elem_of_fmap. exists r. by rewrite Ho.
Qed.

Lemma added_no_clash t h port x :
  existsb (λ r, owns t r && nil_clash h r) (Rules x) = false →
  existsb (λ r, owns t r && nil_clash h r) (Rules (added t h port x)) = false.
Proof.
  rewrite !existsb_false. intros H r Hr. unfold added in Hr.
  destruct (existsb (owns t) (Rules x)) eqn:E; cbn in Hr.
  - apply list_elem_of_fmap in Hr as (r0 & -> & Hr0). specialize (H r0 Hr0).
    destruct (owns t r0) eqn:Eo; [|by rewrite Eo]. rewrite owns_merge, Eo. cbn in *.
    unfold nil_clash, merge_headers in *. cbn. destruct (Headers r0), h; cbn in *; done.
  - apply elem_of_app in Hr as [Hr| ->%list_elem_of_singleton]; [by apply H|].
    unfold nil_clash. cbn. by destruct h; rewrite ?andb_false_r.
Qed.

Lemma add_rule_spec nodeID t h port v v' :
  add_rule nodeID t h port v = Ret v' →
  has_rule nodeID t h v' ∧ other_workloads nodeID v' = other_workloads nodeID v ∧
  (∀ x r, x ∈ v → Uid x = nodeID → r ∈ Rules x → owns t r = false →
     ∃ x', x' ∈ v' ∧ Uid x' = nodeID ∧ r ∈ Rules x') ∧
  add_rule nodeID t h port v' = Ret v'.
Proof.
  unfold other_workloads.
  destruct (uid_split nodeID v) as [Hn|(pre & x & post & -> & Hpre & Hx)].
  - rewrite add_rule_none by done. intros [= <-]. split_and!.
    + exists (MkVirtual nodeID port [new_rule t h]), (new_rule t h).
      split_and!; [set_solver|done|by left|apply owns_new|done].
    + rewrite List.filter_app. cbn. by rewrite String.eqb_refl, app_nil_r.
    + intros x r Hx Hu. exfalso. apply Hn. rewrite <-Hu. by apply list_elem_of_fmap_2.
    + rewrite add_rule_some by done.
      assert (added t h port (MkVirtual nodeID port []) = MkVirtual nodeID port [new_rule t h]) as E
        by (unfold added; cbn; by destruct port).
      rewrite <-E, added_no_clash, added_idem by done. done.
  - rewrite add_rule_some by done. destruct (existsb _ (Rules x)) eqn:Ec; [done|]. intros [= <-].
    assert (Uid (added t h port x) = nodeID) as Hux by (by rewrite added_Uid).
    split_and!.
    + destruct (added_rule t h port x) as (r & Hr & Ho & Hs).
      exists (added t h port x), r. split_and!; [set_solver|done..].
    + rewrite !List.filter_app. cbn. by rewrite Hux, Hx, String.eqb_refl.
    + intros y r [Hy|[->|Hy]%elem_of_cons]%elem_of_app Hu Hr Ho.
      * exfalso. apply Hpre. rewrite <-Hu. by apply list_elem_of_fmap_2.
      * exists (added t h port x). split_and!; [set_solver|done|by apply added_keeps].
      * exists y. split_and!; [set_solver|done|done].
    + rewrite add_rule_some by done. rewrite added_no_clash, added_idem by done. done.
Qed.

(** A new client of a workload: nobody there uses its address, and the workload's
    entry, if there is one, is a complete one. *)
Definition fresh_client (nodeID : string) (t : PodRouteConfig) (v : list Virtual) : Prop :=
  NoDup (Uid <$> v) ∧
  ∀ x, x ∈ v → Uid x = nodeID → Rules x ≠ [] ∧ Ports x ≠ None ∧
    ∀ r, r ∈ Rules x → LocalTunIPv4 r ≠ pr_v4 t.

Lemma fresh_no_owner nodeID t v x :
  fresh_client nodeID t v → x ∈ v → Uid x = nodeID → existsb (owns t) (Rules x) = false.
Proof.
  intros [_ Hf] Hx Hu. apply existsb_false. intros r Hr. apply not_true_iff_false.
  intros [H4 _]%owns_spec. by destruct (Hf x Hx Hu) as (_ & _ & Hr'); apply (Hr' r).
Qed.

Lemma left_added_fresh t h port x :
  existsb (owns t) (Rules x) = false → Ports x ≠ None →
  (∀ r, r ∈ Rules x → LocalTunIPv4 r ≠ pr_v4 t) → left (pr_v4 t) (added t h port x) = x.
Proof.
  intros Ho Hp Hr. unfold added, left. rewrite Ho. cbn [Rules Uid Ports].
  rewrite remove_loop_app, remove_loop_id, remove_loop_filter.
  - cbn. rewrite String.eqb_refl. cbn. rewrite app_nil_r. destruct x as [u [p|] rs]; done.
  - intros r Hin%list_elem_of_In. apply String.eqb_neq. by apply Hr.
Qed.

Lemma add_remove_fresh nodeID t h port v v1 :
  fresh_client nodeID t v → add_rule nodeID t h port v = Ret v1 →
  remove_rule nodeID (pr_v4 t) v1 = (v, negb (bool_decide (nodeID ∈ Uid <$> v))).
Proof.
  intros Hf. destruct (uid_split nodeID v) as [Hn|(pre & x & post & -> & Hpre & Hx)].
  - rewrite add_rule_none by done. intros [= <-]. rewrite bool_decide_eq_false_2 by done.
    rewrite (remove_rule_split nodeID _ v (MkVirtual nodeID port [new_rule t h]) []);
      [|done|set_solver|done].
    unfold left. cbn [Rules]. rewrite remove_loop_filter. cbn. rewrite String.eqb_refl. cbn. by rewrite app_nil_r.
  - rewrite add_rule_some by done. destruct (existsb _ (Rules x)) eqn:Ec; [done|]. intros [= <-].
    assert (x ∈ pre ++ x :: post) as Hin by set_solver.
    pose proof (fresh_no_owner _ _ _ _ Hf Hin Hx) as Ho. destruct Hf as [Hnd Hf].
    destruct (Hf x Hin Hx) as (Hr & Hp & Hu).
    assert (nodeID ∉ (Uid <$> post)) as Hpost.
    { rewrite fmap_app, fmap_cons in Hnd. apply NoDup_app in Hnd as (_ & _ & Hnd).
      apply NoDup_cons in Hnd as [Hni _]. by rewrite <-Hx. }
    rewrite remove_rule_split; [|done|done|by rewrite added_Uid].
    rewrite left_added_fresh by done.
    destruct (Rules x) eqn:Er; [done|]. cbn [length Nat.eqb].
    rewrite bool_decide_eq_true_2; [done|]. rewrite fmap_app, fmap_cons, Hx. set_solver.
Qed.

(** ** Lemmas: the stored list *)

Abbreviation N := ConfigMapPodTrafficManager.

Section Laws.
Context {S : Type} `{API : ConfigMapInterface S} `{!ConfigMapLaws S} `{Y : YamlCodec} `{!YamlLaws}.

(** The list of virtuals in the ConfigMap, an absent key being the empty list. *)
Definition virtuals (cm : ConfigMap) : outcome (list Virtual) :=
  match data_map cm !! KeyEnvoy with Some str => yaml_Unmarshal str | None => Ret [] end.

Lemma store_virtuals_Ret s cm v s' :
  cmGet s N = Ret cm → store_virtuals s cm v = (s', Ret tt) →
  ∃ cm', cmGet s' N = Ret cm' ∧ virtuals cm' = Ret v ∧ is_Some (data_map cm' !! KeyEnvoy) ∧
    ∀ key, key ≠ KeyEnvoy → data_map cm' !! key = data_map cm !! key.
Proof.
  intros Hg. unfold store_virtuals. destruct (yaml_Marshal v) as [text| |] eqn:Em; [|done..].
  destruct (cm_Data cm) as [d|] eqn:Ed; [|done].
  destruct (cmUpdate s _) as [s1 [cm'| |]] eqn:Eu; [|done..]. intros [= <-].
  apply update_ok in Eu as (Hg' & Hd & _). cbn in Hg', Hd.
  rewrite (get_name _ _ _ Hg) in Hg'. exists cm'. split; [done|].
  unfold virtuals, data_map. rewrite Hd, Ed. cbn. rewrite lookup_insert_eq. split_and!; [|eauto|].
  - by apply yaml_roundtrip.
  - intros key Hk. by rewrite lookup_insert_ne.
Qed.

Lemma addEnvoyConfig_Ret s nodeID t h port s' :
  addEnvoyConfig s nodeID t h port = (s', Ret tt) →
  ∃ cm cm' v v', cmGet s N = Ret cm ∧ virtuals cm = Ret v ∧ add_rule nodeID t h port v = Ret v' ∧
    cmGet s' N = Ret cm' ∧ virtuals cm' = Ret v' ∧ is_Some (data_map cm' !! KeyEnvoy) ∧
    ∀ key, key ≠ KeyEnvoy → data_map cm' !! key = data_map cm !! key.
Proof.
  unfold addEnvoyConfig. destruct (cmGet s N) as [cm| |] eqn:Hg; [|done..].
  change (match data_map cm !! KeyEnvoy with Some str => yaml_Unmarshal str | None => Ret [] end)
    with (virtuals cm).
  destruct (virtuals cm) as [v| |] eqn:Ev; cbn [mbind outcome_bind]; [|done..].
  destruct (add_rule nodeID t h port v) as [v'| |] eqn:Ea; [|done..].
  intros (cm' & ? & ? & ? & ?)%(store_virtuals_Ret _ _ _ _ Hg). by exists cm, cm', v, v'.
Qed.

Lemma removeEnvoyConfig_Ret s nodeID ip s' b cm :
  cmGet s N = Ret cm → removeEnvoyConfig s nodeID ip = (s', Ret b) →
  ∃ cm' v v', virtuals cm = Ret v ∧ remove_rule nodeID ip v = (v', b) ∧
    cmGet s' N = Ret cm' ∧ virtuals cm' = Ret v' ∧
    ∀ key, key ≠ KeyEnvoy → data_map cm' !! key = data_map cm !! key.
Proof.
  intros Hg. unfold removeEnvoyConfig, virtuals. rewrite Hg.
  destruct (data_map cm !! KeyEnvoy) as [str|]; [|done].
  destruct (yaml_Unmarshal str) as [v| |]; [|done..].
  destruct (remove_rule nodeID ip v) as [v' empty] eqn:Er.
  destruct (store_virtuals s cm v') as [s1 [[]| |]] eqn:Es; [|done..]. intros [= <- <-].
  destruct (store_virtuals_Ret _ _ _ _ Hg Es) as (cm' & ? & ? & _ & ?). by exists cm', v, v'.
Qed.

(** ** Properties *)

(** Proxying a workload: after a successful [addEnvoyConfig] the stored list has a
    rule of this client for the workload that carries the given headers; the entries
    of all other workloads, the rules of the workload's other clients and the other
    keys of the ConfigMap are unchanged; proxying again changes nothing. *)
Theorem addEnvoyConfig_adds s nodeID t h port s'
  (Hadd : addEnvoyConfig s nodeID t h port = (s', Ret tt)) :
  ∃ cm cm' v v', cmGet s N = Ret cm ∧ virtuals cm = Ret v ∧
    cmGet s' N = Ret cm' ∧ virtuals cm' = Ret v' ∧
    has_rule nodeID t h v' ∧ other_workloads nodeID v' = other_workloads nodeID v ∧
    (∀ x r, x ∈ v → Uid x = nodeID → r ∈ Rules x → owns t r = false →
       ∃ x', x' ∈ v' ∧ Uid x' = nodeID ∧ r ∈ Rules x') ∧
    add_rule nodeID t h port v' = Ret v' ∧
    (∀ key, key ≠ KeyEnvoy → data_map cm' !! key = data_map cm !! key).
Proof.
  apply addEnvoyConfig_Ret in Hadd as (cm & cm' & v & v' & ? & ? & Ha & ? & ? & _ & ?).
  apply add_rule_spec in Ha as (? & ? & ? & ?). exists cm, cm', v, v'. by split_and!.
Qed.

(** C23. Proxy, then leave: a client that is new to a workload adds its rule and removes
    it again; if both calls succeed the stored list is what it was before, and the
    removal reports the workload as free exactly when it was not proxied before. *)
Theorem proxy_leave_roundtrip s s1 s2 cm v nodeID t h port empty
  (Hget : cmGet s N = Ret cm) (Hv : virtuals cm = Ret v) (Hfresh : fresh_client nodeID t v)
  (Hadd : addEnvoyConfig s nodeID t h port = (s1, Ret tt))
  (Hrem : removeEnvoyConfig s1 nodeID (pr_v4 t) = (s2, Ret empty)) :
  empty = negb (bool_decide (nodeID ∈ Uid <$> v)) ∧
  ∃ cm2, cmGet s2 N = Ret cm2 ∧ virtuals cm2 = Ret v ∧
    ∀ key, key ≠ KeyEnvoy → data_map cm2 !! key = data_map cm !! key.
Proof.
  apply addEnvoyConfig_Ret in Hadd as (cm0 & cm1 & v0 & v1 & Hg0 & Hv0 & Ha & Hg1 & Hv1 & _ & Hk1).
  rewrite Hget in Hg0. injection Hg0 as <-. rewrite Hv in Hv0. injection Hv0 as <-.
  eapply removeEnvoyConfig_Ret in Hrem as (cm2 & v1' & v2 & Hv1' & Hr & Hg2 & Hv2 & Hk2); [|done].
  rewrite Hv1 in Hv1'. injection Hv1' as <-.
  rewrite (add_remove_fresh _ _ _ _ _ _ Hfresh Ha) in Hr. injection Hr as <- <-.
  split; [done|]. exists cm2. split_and!; [done..|]. intros key Hk. by rewrite Hk2, Hk1.
Qed.

(** Proxying the same workload again with headers crashes when the first time was
    without: the stored rule of this client has no headers, and [util.Merge] writes
    to that nil map before it tests for it (its comment promises the second map). *)
Theorem reproxy_with_headers_panics s cm pre x post r nodeID t h port
  (Hget : cmGet s N = Ret cm) (Hv : virtuals cm = Ret (pre ++ x :: post))
  (Hpre : nodeID ∉ (Uid <$> pre)) (Hx : Uid x = nodeID)
  (Hr : r ∈ Rules x) (Hown : owns t r = true) (Hnil : Headers r = None) (Hh : default ∅ h ≠ ∅) :
  Merge (Headers r) h = Panic ∧ addEnvoyConfig s nodeID t h port = (s, Panic).
Proof.
  assert (nil_clash h r = true) as Hc.
  { unfold nil_clash. rewrite bool_decide_eq_true_2, bool_decide_eq_false_2 by done. done. }
  split; [by rewrite Merge_eq, Hc|]. unfold addEnvoyConfig. rewrite Hget.
  change (match data_map cm !! KeyEnvoy with Some str => yaml_Unmarshal str | None => Ret [] end)
    with (virtuals cm). rewrite Hv. cbn [mbind outcome_bind]. rewrite add_rule_some by done.
  assert (existsb (λ r, owns t r && nil_clash h r) (Rules x) = true) as ->; [|done].
  apply existsb_exists. exists r. split; [by apply list_elem_of_In|]. by rewrite Hown, Hc.
Qed.
End Laws.

(** ** A codec, and the properties at the in-memory server

    Any injective text works as a codec; this one writes the bits of the list's code. *)
Fixpoint bits_text (p : positive) : string :=
  match p with
  | xH => "."
  | xO p => String "0" (bits_text p)
  | xI p => String "1" (bits_text p)
  end.
Fixpoint text_bits (s : string) : option positive :=
  match s with
  | EmptyString => None
  | String a s =>
      if Ascii.eqb a "." then Some xH
      else if Ascii.eqb a "0" then xO <$> text_bits s
      else xI <$> text_bits s
  end.

Lemma text_bits_text p : text_bits (bits_text p) = Some p.
Proof. induction p as [p IH|p IH|]; cbn; [by rewrite IH..|done]. Qed.

#[export] Instance bits_codec : YamlCodec := {
  yaml_Marshal v := Ret (bits_text (encode v));
  yaml_Unmarshal s :=
    if String.eqb s "" then Ret []
    else match p ← text_bits s; decode p with
         | Some v => Ret v
         | None => Fail (Errorf "yaml")
         end }.

#[export] Instance bits_laws : YamlLaws.
Proof.
  split; [|done|done].
  intros v s Hs. assert (s = bits_text (encode v)) as -> by (by injection Hs).
  unfold yaml_Unmarshal, bits_codec. pose proof (text_bits_text (encode v)) as Ht.
  destruct (String.eqb_spec (bits_text (encode v)) "") as [E|]; [by rewrite E in Ht|].
  rewrite Ht. cbn [mbind option_bind]. by rewrite decode_encode.
Qed.

Definition example_store (v : list Virtual) : mem :=
  MkMem {[N := MkConfigMap N 1
    (Some {[KeyEnvoy := match yaml_Marshal v with Ret s => s | _ => ""%string end]})]} 1.

Definition example_client : PodRouteConfig := MkPodRoute "223.254.0.103" "efff::3".
Definition example_headers : option (gmap string string) := Some {["user" := "b"]}.

Lemma addEnvoyConfig_adds_witness :
  ∃ s', addEnvoyConfig (example_store [example_virtual]) "deployments.apps.ratings" example_client
          example_headers None = (s', Ret tt) ∧
    ∃ cm' v', cmGet s' N = Ret cm' ∧ virtuals cm' = Ret v' ∧
      has_rule "deployments.apps.ratings" example_client example_headers v'.
Proof.
  assert (match snd (addEnvoyConfig (example_store [example_virtual]) "deployments.apps.ratings"
            example_client example_headers None) with Ret _ => True | _ => False end) as H
    by (vm_compute; exact I).
  destruct (addEnvoyConfig (example_store [example_virtual]) "deployments.apps.ratings"
    example_client example_headers None) as [s' [[]| |]] eqn:E; [|contradiction..].
  exists s'. split; [reflexivity|].
  destruct (addEnvoyConfig_adds (example_store [example_virtual]) "deployments.apps.ratings"
    example_client example_headers None s' E) as (cm & cm' & v & v' & _ & _ & Hg & Hv & Hr & _).
  exists cm', v'. split; [exact Hg|]. split; [exact Hv|exact Hr].
Defined.

Lemma example_fresh : fresh_client "deployments.apps.ratings" example_client [example_virtual].
Proof.
  split; [apply NoDup_singleton|]. intros x ->%list_elem_of_singleton _.
  split_and!; [done|done|]. intros r Hr. cbn in Hr.
  apply elem_of_cons in Hr as [->|Hr]; [done|].
  apply list_elem_of_singleton in Hr as ->. done.
Qed.

Lemma proxy_leave_roundtrip_witness :
  ∃ s1 s2, addEnvoyConfig (example_store [example_virtual]) "deployments.apps.ratings"
      example_client example_headers None = (s1, Ret tt) ∧
    ∃ cm2, cmGet s2 N = Ret cm2 ∧ virtuals cm2 = Ret [example_virtual].
Proof.
  assert (match addEnvoyConfig (example_store [example_virtual]) "deployments.apps.ratings"
            example_client example_headers None with
          | (s1, Ret _) => match snd (removeEnvoyConfig s1 "deployments.apps.ratings"
                                        (pr_v4 example_client)) with
                           | Ret _ => True | _ => False end
          | _ => False end) as H by (vm_compute; exact I).
  destruct (addEnvoyConfig (example_store [example_virtual]) "deployments.apps.ratings"
    example_client example_headers None) as [s1 [[]| |]] eqn:E1; [|contradiction..].
  destruct (removeEnvoyConfig s1 "deployments.apps.ratings" (pr_v4 example_client))
    as [s2 [empty| |]] eqn:E2; [|contradiction..].
  exists s1, s2. split; [reflexivity|].
  assert (∃ cm, cmGet (example_store [example_virtual]) N = Ret cm ∧ virtuals cm = Ret [example_virtual])
    as (cm & Hg & Hv) by (eexists; split; vm_compute; reflexivity).
  destruct (proxy_leave_roundtrip _ _ _ _ _ _ _ _ _ _ Hg Hv example_fresh E1 E2)
    as (_ & cm2 & Hg2 & Hv2 & _).
  exists cm2. split; [exact Hg2|exact Hv2].
Defined.

Lemma reproxy_with_headers_panics_witness :
  addEnvoyConfig (example_store [example_virtual]) "deployments.apps.ratings"
    (MkPodRoute "223.254.0.102" "efff::2") example_headers None =
    (example_store [example_virtual], Panic).
Proof.
  assert (∃ cm, cmGet (example_store [example_virtual]) N = Ret cm ∧
    virtuals cm = Ret ([] ++ example_virtual :: []))
    as (cm & Hg & Hv) by (eexists; split; vm_compute; reflexivity).
  refine (proj2 (reproxy_with_headers_panics (example_store [example_virtual]) cm [] example_virtual []
    (MkRule None "223.254.0.102" "efff::2") "deployments.apps.ratings"
    (MkPodRoute "223.254.0.102" "efff::2") example_headers None Hg Hv _ _ _ _ _ _)).
  - intros H. inversion H.
  - reflexivity.
  - right. left.
  - reflexivity.
  - reflexivity.
  - vm_compute. discriminate.
Defined.
