(* ===== verification/Daemon.v ===== *)
(** * The two daemons

    [pkg/daemon/action]: a user daemon and a root ("sudo") daemon each keep the
    current connection, the lite connections and the clone.  A request goes to the
    user daemon, which forwards it to the root daemon over gRPC and then updates its
    own state.  A connection is identified by the request it was made from (both
    daemons build their own [ConnectOptions] from the request).  Every step that
    depends on the outside world (kubeconfig, SSH, API checks, renting, connecting,
    the gRPC streams) takes its error, if any, from an environment record. *)
From Stdlib Require Import ZArith Lia.
From stdpp Require Import base gmap strings numbers list relations.
From S2P Require Import Prelude GoStrings Config KubeApi Cleaner.

Abbreviation conn := nat.

Record Server := MkServer {
  t_set : bool;                 (** [!svr.t.IsZero()] *)
  connect : option conn;
  clone : option conn;
  secondary : list conn }.

Definition NewServer : Server := MkServer false None None [].

(** Outside results of one request in one daemon: [None] is success. *)
Record Env := MkEnv {
  e_transfer : option error;    (** [TransferImage], when asked for *)
  e_kubeconfig : option error;  (** [ConvertToTempKubeconfigFile] *)
  e_ssh : option error;         (** [SshJump] *)
  e_init : option error;        (** [InitClient] *)
  e_precheck : option error;    (** [PreCheckResource] *)
  e_rent : option error;        (** [RentInnerIP] *)
  e_do : option error;          (** [DoConnect] *)
  e_same : conn → conn → bool;  (** [IsSameCluster] without error and [Equal] *)
  e_client : bool;              (** [GetClient] returns a client *)
  e_send : option error }.      (** [resp.Send] on the forwarded stream *)

Fixpoint first_error (l : list (option error)) : option error :=
  match l with
  | [] => None
  | Some e :: _ => Some e
  | None :: l => first_error l
  end.

Definition already : error := AlreadyExists.
Definition not_started : error := Errorf "sudo daemon not start".

(** The result of a handler: the state, the connections [Cleanup] was called on, in
    order, and the outcome. *)
Record result (S : Type) := MkResult { r_state : S; r_cleaned : list conn; r_out : outcome unit }.
Arguments MkResult {S}.
Arguments r_state {S}.
Arguments r_cleaned {S}.
Arguments r_out {S}.

(** ** Root daemon *)

(** The steps of [Connect] and [ConnectFork] before [DoConnect]. *)
Definition prepare (env : Env) : option error :=
  first_error [e_transfer env; e_kubeconfig env; e_ssh env; e_init env; e_precheck env; e_rent env].

Definition sudo_Connect (env : Env) (req : conn) (svr : Server) : result Server :=
  if t_set svr then MkResult svr [] (Fail already)
  else
    let svr := MkServer true (Some req) (clone svr) (secondary svr) in
    match prepare env with
    | Some e => MkResult svr [] (Fail e)
    | None =>
        match e_do env with
        | Some e => MkResult (MkServer false None (clone svr) (secondary svr)) [req] (Fail e)
        | None => MkResult svr [] (Ret tt)
        end
    end.

Definition sudo_ConnectFork (env : Env) (req : conn) (svr : Server) : result Server :=
  match prepare env with
  | Some e => MkResult svr [] (Fail e)
  | None =>
      match e_do env with
      | Some e => MkResult svr [req] (Fail e)
      | None =>
          MkResult (MkServer (t_set svr) (connect svr) (clone svr) (secondary svr ++ [req])) [] (Ret tt)
      end
  end.

(** ** Disconnecting, one daemon *)

Record DisconnectRequest := MkDisconnect { All : bool; ID : option Z }.

(** int32 subtraction *)
Definition wrap32 (z : Z) : Z := (z + 2 ^ 31) `mod` 2 ^ 32 - 2 ^ 31.

Definition opt_list {A} (o : option A) : list A := match o with Some a => [a] | None => [] end.

(** The body of [Disconnect]; the flag is whether [dns.CleanupHosts] runs. *)
Definition local_Disconnect (req : DisconnectRequest) (svr : Server) : result (Server * bool) :=
  let done (svr : Server) (cleaned : list conn) :=
    MkResult (svr, bool_decide (connect svr = None) && (length (secondary svr) =? 0)) cleaned (Ret tt) in
  if All req then
    done NewServer (opt_list (connect svr) ++ opt_list (clone svr) ++ secondary svr)
  else match ID req with
  | None => done svr []
  | Some id =>
      if (id =? 0)%Z then
        done (MkServer false None None (secondary svr)) (opt_list (connect svr) ++ opt_list (clone svr))
      else
        let index := wrap32 (id - 1) in
        if (index <? Z.of_nat (length (secondary svr)))%Z then
          if (index <? 0)%Z then MkResult (svr, false) [] Panic
          else done (MkServer (t_set svr) (connect svr) (clone svr)
                       (remove_at (Z.to_nat index) (secondary svr)))
                    (opt_list (secondary svr !! Z.to_nat index))
        else done svr []
  end.

Definition local_Quit (svr : Server) : result Server :=
  MkResult svr (opt_list (connect svr) ++ opt_list (clone svr) ++ secondary svr) (Ret tt).

Definition local_Stop (svr : Server) : result Server :=
  match connect svr with
  | None => MkResult svr [] (Ret tt)
  | Some c => MkResult (MkServer false None (clone svr) (secondary svr)) [c] (Ret tt)
  end.

(** [Remove]: the clone is forgotten even when its clean-up fails. *)
Definition local_Remove (err : option error) (svr : Server) : result Server :=
  match clone svr with
  | None => MkResult svr [] (Ret tt)
  | Some c => MkResult (MkServer (t_set svr) (connect svr) None (secondary svr)) [c]
                (match err with Some e => Fail e | None => Ret tt end)
  end.

(** [Status]: the lines, identifier and connection. *)
Definition Status (svr : Server) : list (Z * conn) :=
  ((λ c, (0%Z, c)) <$> opt_list (connect svr)) ++
  imap (λ i c, (Z.of_nat i + 1, c)%Z) (secondary svr).

(** ** The pair *)

Record daemons := MkDaemons { user : Server; sudo : Server }.

Definition user_prepare (env : Env) : option error :=
  first_error [e_kubeconfig env; e_ssh env; e_init env; e_precheck env].

(** [redirectToSudoDaemon]: [eu] is the user daemon's environment, [es] the root
    daemon's.  An error of the root daemon's handler arrives on the stream; a failing
    [Send] ends the user's handler, while the root daemon's has its effect.  The
    end of a foreground request is [Connect_hangup]. *)
Definition Connect (eu es : Env) (req : conn) (d : daemons) : result daemons :=
  if negb (e_client eu) then MkResult d [] (Fail not_started)
  else match user_prepare eu with
  | Some e => MkResult d [] (Fail e)
  | None =>
      if match connect (user d) with Some c => e_same eu c req | None => false end
      then MkResult d [] (Ret tt)
      else match e_rent eu with
      | Some e => MkResult d [] (Fail e)
      | None =>
          let r := sudo_Connect es req (sudo d) in
          let d := MkDaemons (user d) (r_state r) in
          match r_out r, e_send eu with
          | Fail e, _ => MkResult d (r_cleaned r) (Fail e)
          | Panic, _ => MkResult d (r_cleaned r) Panic
          | Ret _, Some e => MkResult d (r_cleaned r) (Fail e)
          | Ret _, None =>
              MkResult (MkDaemons (MkServer true (Some req) (clone (user d)) (secondary (user d))) (sudo d))
                (r_cleaned r) (Ret tt)
          end
      end
  end.

(** [redirectConnectForkToSudoDaemon]. *)
Definition ConnectFork (eu es : Env) (req : conn) (d : daemons) : result daemons :=
  if negb (e_client eu) then MkResult d [] (Fail not_started)
  else match user_prepare eu with
  | Some e => MkResult d [] (Fail e)
  | None =>
      if existsb (λ c, e_same eu c req) (secondary (user d)) then MkResult d [] (Ret tt)
      else match e_rent eu with
      | Some e => MkResult d [] (Fail e)
      | None =>
          let r := sudo_ConnectFork es req (sudo d) in
          let d := MkDaemons (user d) (r_state r) in
          match r_out r, e_send eu with
          | Fail e, _ => MkResult d (r_cleaned r) (Fail e)
          | Panic, _ => MkResult d (r_cleaned r) Panic
          | Ret _, Some e => MkResult d (r_cleaned r) (Fail e)
          | Ret _, None =>
              MkResult (MkDaemons (MkServer (t_set (user d)) (connect (user d)) (clone (user d))
                                     (secondary (user d) ++ [req])) (sudo d))
                (r_cleaned r) (Ret tt)
          end
      end
  end.

(** [Disconnect] at the user daemon: the root daemon first, then itself.  A panic of
    the root daemon's handler ends that process and the stream fails. *)
Definition Disconnect (eu : Env) (req : DisconnectRequest) (d : daemons) : result daemons :=
  if negb (e_client eu) then MkResult d [] (Fail not_started)
  else
    let rs := local_Disconnect req (sudo d) in
    match r_out rs, e_send eu with
    | Panic, _ => MkResult (MkDaemons (user d) NewServer) (r_cleaned rs) (Fail (Errorf "rpc error"))
    | Fail e, _ => MkResult (MkDaemons (user d) (fst (r_state rs))) (r_cleaned rs) (Fail e)
    | Ret _, Some e => MkResult (MkDaemons (user d) (fst (r_state rs))) (r_cleaned rs) (Fail e)
    | Ret _, None =>
        let ru := local_Disconnect req (user d) in
        MkResult (MkDaemons (fst (r_state ru)) (fst (r_state rs)))
          (r_cleaned rs ++ r_cleaned ru) (r_out ru)
    end.

(** The index of the connection in the loop after the foreground wait. *)
Fixpoint conn_index (req : conn) (l : list conn) : option nat :=
  match l with
  | [] => None
  | c :: l => if c =? req then Some 0 else S <$> conn_index req l
  end.

(** The end of a foreground [Connect] and of a foreground [ConnectFork], when the
    client has gone: the handler asks its own daemon to disconnect. *)
Definition Connect_hangup (eu : Env) (d : daemons) : result daemons :=
  Disconnect eu (MkDisconnect false (Some 0%Z)) d.

Definition ConnectFork_hangup (eu : Env) (req : conn) (d : daemons) : result daemons :=
  match conn_index req (secondary (user d)) with
  | Some i => Disconnect eu (MkDisconnect false (Some (wrap32 (Z.of_nat i)))) d
  | None => MkResult d [] (Ret tt)
  end.

(** Requests, one after the other. *)
Inductive request :=
  | RConnect (eu es : Env) (req : conn)
  | RConnectFork (eu es : Env) (req : conn)
  | RDisconnect (eu : Env) (req : DisconnectRequest)
  | RHangup (eu : Env)
  | RHangupFork (eu : Env) (req : conn).

Definition handle (d : daemons) (r : request) : daemons :=
  match r with
  | RConnect eu es req => r_state (Connect eu es req d)
  | RConnectFork eu es req => r_state (ConnectFork eu es req d)
  | RDisconnect eu req => r_state (Disconnect eu req d)
  | RHangup eu => r_state (Connect_hangup eu d)
  | RHangupFork eu req => r_state (ConnectFork_hangup eu req d)
  end.

(** ** Lemmas *)

Lemma first_error_None l : first_error l = None ↔ Forall (λ o, o = None) l.
Proof.
  induction l as [|[e|] l IH]; cbn.
  - split; [constructor|done].
  - split; [done|]. intros H. by inversion H.
  - rewrite IH. split; [by constructor|]. intros H. by inversion H.
Qed.

Lemma local_Disconnect_ok req svr :
  All req = true ∨ ID req = None ∨ (∃ id, ID req = Some id ∧ (0 ≤ id < 2 ^ 31)%Z) →
  r_out (local_Disconnect req svr) = Ret tt.
Proof.
  unfold local_Disconnect. destruct (All req); [done|].
  intros [?|[->|(id & -> & Hid)]]; [done|done|].
  destruct (Z.eqb_spec id 0) as [->|Hne]; [done|].
  destruct (_ <? _)%Z eqn:E1; [|done]. destruct (Z.ltb_spec (wrap32 (id - 1)) 0) as [Hneg|]; [|done].
  exfalso. unfold wrap32 in Hneg. rewrite Z.mod_small in Hneg by lia. lia.
Qed.

(** Removing by index does the same to equal lists. *)
Lemma local_Disconnect_secondary req a b :
  secondary a = secondary b →
  secondary (fst (r_state (local_Disconnect req a))) =
  secondary (fst (r_state (local_Disconnect req b))) ∧
  r_out (local_Disconnect req a) = r_out (local_Disconnect req b).
Proof.
  intros E. unfold local_Disconnect. rewrite E. destruct (All req); [done|].
  destruct (ID req) as [id|]; [|done]. destruct (id =? 0)%Z; [done|].
  by destruct (_ <? _)%Z; [destruct (_ <? 0)%Z|].
Qed.

(** Requests on which no forwarded stream breaks and no identifier is negative. *)
Definition clean_request (r : request) : Prop :=
  match r with
  | RConnect eu _ _ | RConnectFork eu _ _ | RHangup eu => e_send eu = None
  | RHangupFork eu _ => e_send eu = None
  | RDisconnect eu req =>
      e_send eu = None ∧
      (All req = true ∨ ID req = None ∨ ∃ id, ID req = Some id ∧ (0 ≤ id < 2 ^ 31)%Z)
  end.

Lemma conn_index_lookup req l i : conn_index req l = Some i → l !! i = Some req.
Proof.
  revert i. induction l as [|c l IH]; intros i; [done|]. cbn.
  destruct (Nat.eqb_spec c req) as [->|]; [by intros [= <-]|].
  destruct (conn_index req l) as [j|]; [|done]. intros [= <-]. by apply IH.
Qed.

Lemma conn_index_first req l i j c :
  conn_index req l = Some i → l !! j = Some c → j < i → c ≠ req.
Proof.
  revert i j. induction l as [|c' l IH]; intros i j; [done|]. cbn [conn_index].
  destruct (Nat.eqb_spec c' req) as [->|Hne]; [intros [= <-]; lia|].
  destruct (conn_index req l) as [i'|]; [|done]. intros [= <-].
  destruct j as [|j]; cbn; [by intros [= <-] _|]. intros Hj Hlt. eapply IH; eauto. lia.
Qed.

Lemma sudo_Connect_secondary env req svr :
  secondary (r_state (sudo_Connect env req svr)) = secondary svr.
Proof. unfold sudo_Connect. destruct (t_set svr), (prepare env), (e_do env); done. Qed.

Lemma Connect_secondary eu es req d :
  secondary (user (r_state (Connect eu es req d))) = secondary (user d) ∧
  secondary (sudo (r_state (Connect eu es req d))) = secondary (sudo d).
Proof.
  unfold Connect. destruct (negb _); [done|]. destruct (user_prepare eu); [done|].
  destruct (match connect (user d) with Some c => _ | None => _ end); [done|].
  destruct (e_rent eu); [done|]. pose proof (sudo_Connect_secondary es req (sudo d)).
  by destruct (r_out _), (e_send eu).
Qed.

Lemma ConnectFork_in_sync eu es req d :
  e_send eu = None → secondary (user d) = secondary (sudo d) →
  let d' := r_state (ConnectFork eu es req d) in secondary (user d') = secondary (sudo d').
Proof.
  intros Hs E. unfold ConnectFork. rewrite Hs. destruct (negb _); [done|].
  destruct (user_prepare eu); [done|]. destruct (existsb _ _); [done|].
  destruct (e_rent eu); [done|]. unfold sudo_ConnectFork.
  destruct (prepare es); [done|]. destruct (e_do es); [done|]. cbn. by rewrite E.
Qed.

Lemma Disconnect_in_sync eu req d :
  clean_request (RDisconnect eu req) → secondary (user d) = secondary (sudo d) →
  let d' := r_state (Disconnect eu req d) in secondary (user d') = secondary (sudo d').
Proof.
  intros [Hs Hr] E. unfold Disconnect. destruct (negb _); [done|]. rewrite Hs.
  rewrite (local_Disconnect_ok req (sudo d) Hr). cbn.
  by apply local_Disconnect_secondary.
Qed.

Lemma wrap32_small z : (- 2 ^ 31 ≤ z < 2 ^ 31)%Z → wrap32 z = z.
Proof. intros. unfold wrap32. rewrite Z.mod_small; lia. Qed.

Lemma ConnectFork_hangup_in_sync eu req d :
  e_send eu = None → (Z.of_nat (length (secondary (user d))) < 2 ^ 31)%Z →
  secondary (user d) = secondary (sudo d) →
  let d' := r_state (ConnectFork_hangup eu req d) in secondary (user d') = secondary (sudo d').
Proof.
  intros Hs Hl E. unfold ConnectFork_hangup. destruct (conn_index _ _) as [i|] eqn:Ei; [|done].
  apply conn_index_lookup, lookup_lt_Some in Ei. rewrite wrap32_small by lia.
  apply Disconnect_in_sync; [|done]. split; [done|]. right. right. eexists. split; [done|]. lia.
Qed.

(** No request adds more than one lite connection. *)
Lemma local_Disconnect_length req svr :
  length (secondary (fst (r_state (local_Disconnect req svr)))) ≤ length (secondary svr).
Proof.
  unfold local_Disconnect. destruct (All req); [cbn; lia|]. destruct (ID req) as [id|]; [|done].
  destruct (id =? 0)%Z; [done|]. destruct (_ <? _)%Z; [|done]. destruct (_ <? 0)%Z; [done|]. cbn.
  unfold remove_at. rewrite length_app, length_take, length_drop. lia.
Qed.

Lemma Disconnect_length eu req d :
  length (secondary (user (r_state (Disconnect eu req d)))) ≤ length (secondary (user d)).
Proof.
  unfold Disconnect. pose proof (local_Disconnect_length req (user d)).
  destruct (negb _); [done|]. by destruct (r_out _), (e_send eu).
Qed.

Lemma handle_length d r :
  length (secondary (user (handle d r))) ≤ S (length (secondary (user d))).
Proof.
  destruct r as [eu es req|eu es req|eu req|eu|eu req]; cbn [handle].
  - destruct (Connect_secondary eu es req d) as [-> _]. lia.
  - unfold ConnectFork. destruct (negb _); [cbn; lia|]. destruct (user_prepare eu); [cbn; lia|].
    destruct (existsb _ _); [cbn; lia|]. destruct (e_rent eu); [cbn; lia|].
    destruct (r_out _), (e_send eu); cbn; rewrite ?length_app; cbn; lia.
  - pose proof (Disconnect_length eu req d). lia.
  - pose proof (Disconnect_length eu (MkDisconnect false (Some 0%Z)) d). unfold Connect_hangup. lia.
  - unfold ConnectFork_hangup. destruct (conn_index _ _) as [i|]; [|cbn; lia].
    pose proof (Disconnect_length eu (MkDisconnect false (Some (wrap32 (Z.of_nat i)))) d). lia.
Qed.

Lemma Disconnect_lite eu i d :
  e_client eu = true → e_send eu = None → secondary (user d) = secondary (sudo d) →
  (0 < Z.of_nat i < 2 ^ 31)%Z → i ≤ length (secondary (user d)) →
  let r := Disconnect eu (MkDisconnect false (Some (Z.of_nat i))) d in
  let rest := remove_at (i - 1) (secondary (user d)) in
  let with_rest s := MkServer (t_set s) (connect s) (clone s) rest in
  r_state r = MkDaemons (with_rest (user d)) (with_rest (sudo d)) ∧
  r_cleaned r = opt_list (secondary (user d) !! (i - 1)) ++ opt_list (secondary (user d) !! (i - 1)).
Proof.
  intros Hc Hs E Hi Hl. cbv zeta. unfold Disconnect, local_Disconnect. rewrite Hc, Hs. cbn [negb All ID].
  rewrite <-E. destruct (Z.eqb_spec (Z.of_nat i) 0); [lia|].
  rewrite wrap32_small by lia. replace (Z.of_nat i - 1)%Z with (Z.of_nat (i - 1)) by lia.
  destruct (Z.ltb_spec (Z.of_nat (i - 1)) (Z.of_nat (length (secondary (user d))))); [|lia].
  destruct (Z.ltb_spec (Z.of_nat (i - 1)) 0); [lia|]. by rewrite Nat2Z.id.
Qed.

Lemma handle_all_in_sync rs d :
  Forall clean_request rs → secondary (user d) = secondary (sudo d) →
  (Z.of_nat (length (secondary (user d)) + length rs) < 2 ^ 31)%Z →
  secondary (user (fold_left handle rs d)) = secondary (sudo (fold_left handle rs d)) ∧
  length (secondary (user (fold_left handle rs d))) ≤ length (secondary (user d)) + length rs.
Proof.
  intros Hclean. revert d. induction Hclean as [|r rs Hr _ IH]; intros d Hd Hn; [split; [done|cbn; lia]|].
  cbn [fold_left]. cbn [length] in Hn |- *. pose proof (handle_length d r).
  destruct (IH (handle d r)) as [H1 H2]; [|lia|split; [done|lia]].
  destruct r as [eu es req|eu es req|eu req|eu|eu req]; cbn [handle].
  - destruct (Connect_secondary eu es req d) as [-> ->]. done.
  - by apply ConnectFork_in_sync.
  - by apply Disconnect_in_sync.
  - apply Disconnect_in_sync; [split; [done|]|done]. right. right. exists 0%Z. by split.
  - apply ConnectFork_hangup_in_sync; [done|lia|done].
Qed.

(** The root daemon has the connection that the user daemon has. *)
Definition connection_shared (d : daemons) : Prop :=
  ∀ c, connect (user d) = Some c → connect (sudo d) = Some c ∧ t_set (sudo d) = true.

Lemma Connect_shared eu es req d :
  e_send eu = None → connection_shared d → connection_shared (r_state (Connect eu es req d)).
Proof.
  intros Hs H. unfold Connect. rewrite Hs. destruct (negb _); [done|]. destruct (user_prepare eu); [done|].
  destruct (match connect (user d) with Some c => _ | None => _ end); [done|]. destruct (e_rent eu); [done|].
  unfold sudo_Connect. destruct (t_set (sudo d)) eqn:Et.
  { intros c Hc. by apply H. }
  assert (connect (user d) = None) as Hn.
  { destruct (connect (user d)) as [c|] eqn:Ec; [|done]. destruct (H c Ec). congruence. }
  destruct (prepare es); [intros c Hc; cbn in Hc; by rewrite Hn in Hc|].
  destruct (e_do es); [intros c Hc; cbn in Hc; by rewrite Hn in Hc|]. intros c [= <-]. done.
Qed.

Lemma ConnectFork_shared eu es req d : connection_shared d → connection_shared (r_state (ConnectFork eu es req d)).
Proof.
  intros H. unfold ConnectFork, sudo_ConnectFork. repeat (case_match; try done); cbn; exact H.
Qed.

Lemma Disconnect_shared eu req d :
  clean_request (RDisconnect eu req) → connection_shared d → connection_shared (r_state (Disconnect eu req d)).
Proof.
  intros [Hs Hr] H. unfold Disconnect. destruct (negb _); [done|]. rewrite Hs.
  rewrite (local_Disconnect_ok req (sudo d) Hr). unfold local_Disconnect.
  destruct (All req); [done|]. destruct (ID req) as [id|]; [|done]. destruct (id =? 0)%Z; [done|].
  repeat (case_match; try done); cbn; exact H.
Qed.

(** Requests on which no stream breaks keep it so. *)
Lemma handle_all_shared rs d :
  Forall clean_request rs → (Z.of_nat (length (secondary (user d)) + length rs) < 2 ^ 31)%Z →
  connection_shared d → connection_shared (fold_left handle rs d).
Proof.
  intros Hclean. revert d. induction Hclean as [|r rs Hr _ IH]; intros d Hn H; [done|].
  cbn [fold_left]. cbn [length] in Hn. pose proof (handle_length d r). apply IH; [lia|].
  destruct r as [eu es req|eu es req|eu req|eu|eu req]; cbn [handle].
  - by apply Connect_shared.
  - by apply ConnectFork_shared.
  - by apply Disconnect_shared.
  - apply Disconnect_shared; [split; [done|]|done]. right. right. exists 0%Z. by split.
  - unfold ConnectFork_hangup. destruct (conn_index _ _) as [i|] eqn:Ei; [|done].
    apply conn_index_lookup, lookup_lt_Some in Ei. rewrite wrap32_small by lia.
    apply Disconnect_shared; [|done]. split; [done|]. right. right. eexists. split; [done|]. lia.
Qed.

(** ** Properties *)

(** C39. The two daemons agree on the lite connections: after any sequence of fewer
    than 2^31 requests in which no forwarded stream breaks and no negative identifier
    is used, whatever else fails, both daemons have the same list, in the same order;
    hence an identifier that [Status] shows for a lite connection means the same
    connection in both, and [Disconnect] of it cleans that connection up in both and
    leaves both with the list without it.  When a stream breaks after the root daemon has
    done its part, the lists differ ([broken_stream_differs]). *)
Theorem lite_connections_in_sync rs
  (Hclean : Forall clean_request rs) (Hmany : (Z.of_nat (length rs) < 2 ^ 31)%Z) :
  let d := fold_left handle rs (MkDaemons NewServer NewServer) in
  secondary (user d) = secondary (sudo d) ∧
  ∀ eu id c, e_client eu = true → e_send eu = None → (0 < id)%Z → (id, c) ∈ Status (user d) →
    (id, c) ∈ Status (sudo d) ∧
    let r := Disconnect eu (MkDisconnect false (Some id)) d in
    r_cleaned r = [c; c] ∧
    secondary (user (r_state r)) = remove_at (Z.to_nat id - 1) (secondary (user d)) ∧
    secondary (sudo (r_state r)) = remove_at (Z.to_nat id - 1) (secondary (user d)).
Proof.
  cbv zeta. set (d0 := MkDaemons NewServer NewServer).
  destruct (handle_all_in_sync rs d0 Hclean eq_refl Hmany) as [E Hlen].
  split; [done|]. intros eu id c Hc Hs Hid Hin.
  apply elem_of_app in Hin as [Hin|Hin].
  { apply list_elem_of_fmap in Hin as (c' & [= -> _] & _). lia. }
  apply elem_of_lookup_imap in Hin as (i & c' & [= -> <-] & Hi).
  split.
  { apply elem_of_app. right. apply elem_of_lookup_imap. exists i, c. by rewrite <- E. }
  apply lookup_lt_Some in Hi as Hlt.
  destruct (Disconnect_lite eu (S i) (fold_left handle rs d0) Hc Hs E) as [H1 H2]; [cbn in Hlen; lia|lia|].
  replace (Z.of_nat (S i)) with (Z.of_nat i + 1)%Z in * by lia.
  rewrite H1, H2. cbn [user sudo secondary].
  replace (S i - 1) with i by lia. replace (Z.to_nat (Z.of_nat i + 1) - 1) with i by lia. by rewrite Hi.
Qed.

(** Disconnecting by identifier: the identifier [Status] shows for a connection
    disconnects that connection (and, for 0, the clone) and no other, the remaining
    lines keep their order; a positive identifier that is not shown changes nothing;
    a negative one (other than the least int32) panics. *)
Theorem Disconnect_by_id svr id
  (Hid : (- 2 ^ 31 ≤ id < 2 ^ 31)%Z) :
  let r := local_Disconnect (MkDisconnect false (Some id)) svr in
  (∀ c, (id, c) ∈ Status svr →
     r_out r = Ret tt ∧
     r_cleaned r = c :: (if (id =? 0)%Z then opt_list (clone svr) else []) ∧
     secondary svr = (if (id =? 0)%Z then secondary (fst (r_state r))
       else take (Z.to_nat (id - 1)) (secondary (fst (r_state r))) ++
            c :: drop (Z.to_nat (id - 1)) (secondary (fst (r_state r)))) ∧
     connect (fst (r_state r)) = (if (id =? 0)%Z then None else connect svr)) ∧
  ((Z.of_nat (length (secondary svr)) < id)%Z → fst (r_state r) = svr ∧ r_cleaned r = []) ∧
  (r_out r = Panic ↔ (- 2 ^ 31 < id < 0)%Z).
Proof.
  cbv zeta. unfold local_Disconnect. cbn [All ID].
  destruct (Z.eqb_spec id 0) as [->|Hne].
  - split_and!; [|intros; lia|cbn; split; [done|lia]].
    intros c [Hc|Hc]%elem_of_app; cbn.
    + apply list_elem_of_fmap in Hc as (c' & [= <-] & Hc). destruct (connect svr); set_solver.
    + apply elem_of_lookup_imap in Hc as (i & c' & [= H] & _). lia.
  - assert (wrap32 (id - 1) = if (id =? - 2 ^ 31)%Z then (2 ^ 31 - 1)%Z else (id - 1)%Z) as ->.
    { unfold wrap32. destruct (Z.eqb_spec id (- 2 ^ 31)) as [->|]; [done|].
      rewrite Z.mod_small; lia. }
    split_and!.
    + intros c [Hc|Hc]%elem_of_app.
      { apply list_elem_of_fmap in Hc as (c' & [= ? ?] & _). lia. }
      apply elem_of_lookup_imap in Hc as (i & c' & [= -> ->] & Hi).
      destruct (Z.eqb_spec (Z.of_nat i + 1) (- 2 ^ 31)); [lia|].
      apply lookup_lt_Some in Hi as Hlt.
      destruct (Z.ltb_spec (Z.of_nat i + 1 - 1) (Z.of_nat (length (secondary svr)))); [|lia].
      destruct (Z.ltb_spec (Z.of_nat i + 1 - 1) 0); [lia|].
      replace (Z.to_nat (Z.of_nat i + 1 - 1)) with i by lia. cbn. rewrite Hi. cbn.
      split_and!; [done|done| |done].
      unfold remove_at. rewrite take_app_length', drop_app_length' by (rewrite length_take; lia).
      symmetry. by apply take_drop_middle.
    + intros Hgt. destruct (Z.eqb_spec id (- 2 ^ 31)); [lia|].
      destruct (Z.ltb_spec (id - 1) (Z.of_nat (length (secondary svr)))); [lia|done].
    + destruct (Z.eqb_spec id (- 2 ^ 31)) as [->|Hmin].
      * split; [|lia]. destruct (_ <? _)%Z eqn:E; [|done]. cbn. done.
      * destruct (Z.ltb_spec (id - 1) (Z.of_nat (length (secondary svr)))) as [Hlt|Hge];
          [destruct (Z.ltb_spec (id - 1) 0)|]; cbn; split; intros; try done; lia.
Qed.

(** A connection attempt that fails in the root daemon before [DoConnect] (image
    transfer, kubeconfig, SSH, checks, renting) blocks the daemons: the user daemon
    reports the error and has no connection, so [Status] is empty, but the root
    daemon keeps the half-made one, and every later [Connect] that gets as far as the
    root daemon is refused as already connected, changing nothing, until a
    [Disconnect] of 0 clears it. *)
Theorem failed_connect_blocks eu es req d e
  (Hclient : e_client eu = true) (Huser : user_prepare eu = None) (Hrent : e_rent eu = None)
  (Hnone : connect (user d) = None) (Hfree : t_set (sudo d) = false)
  (Hfail : prepare es = Some e) :
  let d' := r_state (Connect eu es req d) in
  r_out (Connect eu es req d) = Fail e ∧ user d' = user d ∧ connect (sudo d') = Some req ∧
  (∀ eu2 es2 req2, e_client eu2 = true → user_prepare eu2 = None → e_rent eu2 = None →
     Connect eu2 es2 req2 d' = MkResult d' [] (Fail already)) ∧
  (∀ eu2, e_client eu2 = true → e_send eu2 = None →
     let d2 := r_state (Disconnect eu2 (MkDisconnect false (Some 0%Z)) d') in
     t_set (sudo d2) = false ∧ connect (sudo d2) = None).
Proof.
  assert (Connect eu es req d = MkResult
    (MkDaemons (user d) (MkServer true (Some req) (clone (sudo d)) (secondary (sudo d)))) [] (Fail e)) as ->.
  { unfold Connect. rewrite Hclient, Huser, Hnone, Hrent. unfold sudo_Connect.
    by rewrite Hfree, Hfail. }
  cbn [r_state r_out]. cbv zeta. split_and!; [done..| |].
  - intros eu2 es2 req2 Hc2 Hu2 Hr2. unfold Connect. cbn [user sudo].
    rewrite Hc2, Hu2, Hnone, Hr2. done.
  - intros eu2 Hc2 Hs2. unfold Disconnect. rewrite Hc2, Hs2. done.
Qed.

(** Leaving a cluster is counted twice: when both daemons hold the connection,
    [Disconnect] of 0 runs [Cleanup] on it once in each daemon, and two such
    decrements of the reference count, which [DoConnect] had incremented once, take
    it from [n] to [n - 2] (0 at least): with two clients connected, one of them
    leaving makes the count 0. *)
Theorem disconnect_counts_twice {S : Type} `{ConfigMapLaws S}
    eu d c (s s1 s2 : S) cm n a b
  (Hclient : e_client eu = true) (Hsend : e_send eu = None)
  (Hu : connect (user d) = Some c) (Hs : connect (sudo d) = Some c)
  (Hcu : clone (user d) = None) (Hcs : clone (sudo d) = None)
  (Hget : cmGet s ConfigMapPodTrafficManager = Ret cm)
  (Hn : Atoi (data_get cm KeyRefCount) = Some n) (Hpos : (2 ≤ n)%Z)
  (H1 : updateRefCount s ConfigMapPodTrafficManager (-1) = (s1, Ret a))
  (H2 : updateRefCount s1 ConfigMapPodTrafficManager (-1) = (s2, Ret b)) :
  r_cleaned (Disconnect eu (MkDisconnect false (Some 0%Z)) d) = [c; c] ∧ b = (n - 2)%Z.
Proof.
  split.
  - unfold Disconnect, local_Disconnect. rewrite Hclient, Hsend. cbn. by rewrite Hu, Hs, Hcu, Hcs.
  - apply updateRefCount_Ret in H1 as (cm0 & cm1 & Hg0 & Hg1 & -> & Hd1).
    rewrite Hget in Hg0. injection Hg0 as <-.
    apply updateRefCount_Ret in H2 as (cm1' & cm2 & Hg1' & _ & -> & _).
    rewrite Hg1 in Hg1'. injection Hg1' as <-.
    apply Atoi_value_Atoi in Hn as Hv. pose proof (Atoi_value_range (data_get cm KeyRefCount)).
    pose proof (next_count_range cm (-1)) as Hr.
    unfold next_count at 1. rewrite (data_get_insert _ _ _ _ Hd1).
    rewrite (Atoi_value_Atoi _ (next_count cm (-1))) by (apply Atoi_Itoa; lia).
    unfold next_count in *. rewrite Hv in *. rewrite !wrap64_small in * by lia.
    lia.
Qed.

(** A lite connection made in the foreground disconnects the wrong connection when
    its client leaves: identifiers start at 1, the handler uses its index.  The first
    lite connection disconnects the main connection (and the clone) of both daemons
    and stays itself; any other one disconnects the lite connection before it in the
    list, twice (once per daemon), and stays. *)
Theorem foreground_fork_leaves_other eu req d i
  (Hclient : e_client eu = true) (Hsend : e_send eu = None)
  (Hsync : secondary (user d) = secondary (sudo d))
  (Hi : conn_index req (secondary (user d)) = Some i)
  (Hlen : (Z.of_nat (length (secondary (user d))) < 2 ^ 31)%Z) :
  let r := ConnectFork_hangup eu req d in
  match i with
  | O => connect (user (r_state r)) = None ∧ connect (sudo (r_state r)) = None ∧
         secondary (user (r_state r)) = secondary (user d)
  | S j => ∃ c, secondary (user d) !! j = Some c ∧ c ≠ req ∧ r_cleaned r = [c; c] ∧
         secondary (user (r_state r)) = remove_at j (secondary (user d)) ∧
         req ∈ secondary (user (r_state r))
  end.
Proof.
  cbv zeta. unfold ConnectFork_hangup. rewrite Hi. pose proof (conn_index_lookup _ _ _ Hi) as Hl.
  apply lookup_lt_Some in Hl as Hlt. rewrite wrap32_small by lia. destruct i as [|j].
  { unfold Disconnect, local_Disconnect. rewrite Hclient, Hsend. by cbn. }
  destruct (Disconnect_lite eu (S j) d) as [-> ->]; [done..|lia|lia|].
  rewrite Nat.sub_succ, Nat.sub_0_r in *.
  destruct (lookup_lt_is_Some_2 (secondary (user d)) j) as [c Hc]; [lia|].
  exists c. rewrite Hc. cbn. split_and!; [done|eapply conn_index_first; [exact Hi|exact Hc|lia]|done|done|].
  unfold remove_at. apply elem_of_app. right. apply list_elem_of_lookup. exists 0.
  by rewrite lookup_drop, Nat.add_0_r.
Qed.

(** ** Witnesses *)

Lemma foreground_fork_leaves_other_witness :
  let d := MkDaemons (MkServer true (Some 1) None [2]) (MkServer true (Some 1) None [2]) in
  let env := MkEnv None None None None None None None (λ _ _, false) true None in
  connect (user (r_state (ConnectFork_hangup env 2 d))) = None.
Proof.
  cbv zeta.
  apply (foreground_fork_leaves_other (MkEnv None None None None None None None (λ _ _, false) true None)
    2 (MkDaemons (MkServer true (Some 1) None [2]) (MkServer true (Some 1) None [2])) 0); reflexivity.
Defined.

Definition env_ok : Env :=
  MkEnv None None None None None None None (λ _ _, false) true None.
Definition env_rent_fails : Env :=
  MkEnv None None None None None (Some (Errorf "range is full")) None (λ _ _, false) true None.

Lemma lite_connections_in_sync_witness :
  let d := fold_left handle
    [RConnectFork env_ok env_ok 1; RConnectFork env_ok env_rent_fails 2; RConnectFork env_ok env_ok 3;
     RDisconnect env_ok (MkDisconnect false (Some 1%Z))] (MkDaemons NewServer NewServer) in
  secondary (user d) = secondary (sudo d).
Proof.
  apply lite_connections_in_sync; [|reflexivity]. do 3 (apply Forall_cons_2; [reflexivity|]).
  apply Forall_cons_2; [|constructor]. split; [reflexivity|].
  right. right. exists 1%Z. split; [reflexivity|lia].
Defined.

(** The forwarded stream breaks: only the root daemon has the connection. *)
Example broken_stream_differs :
  let env_broken := MkEnv None None None None None None None (λ _ _, false) true (Some (Errorf "rpc error")) in
  let d := handle (MkDaemons NewServer NewServer) (RConnectFork env_broken env_ok 1) in
  secondary (user d) = [] ∧ secondary (sudo d) = [1].
Proof. split; vm_compute; reflexivity. Qed.

Definition example_server : Server := MkServer true (Some 1) None [2; 3].

Lemma Disconnect_by_id_witness :
  r_cleaned (local_Disconnect (MkDisconnect false (Some 2%Z)) example_server) = [3].
Proof.
  refine (proj1 (proj2 (proj1 (Disconnect_by_id example_server 2 ltac:(lia)) 3 _))).
  vm_compute. right. right. left.
Defined.

Lemma failed_connect_blocks_witness :
  let d' := r_state (Connect env_ok env_rent_fails 1 (MkDaemons NewServer NewServer)) in
  Connect env_ok env_ok 2 d' = MkResult d' [] (Fail already).
Proof.
  cbv zeta.
  apply (failed_connect_blocks env_ok env_rent_fails 1 (MkDaemons NewServer NewServer)
    (Errorf "range is full")); reflexivity.
Defined.

Lemma disconnect_counts_twice_witness :
  r_cleaned (Disconnect env_ok (MkDisconnect false (Some 0%Z))
    (MkDaemons (MkServer true (Some 1) None []) (MkServer true (Some 1) None []))) = [1; 1] ∧
  (0 = 2 - 2)%Z.
Proof.
  assert (match updateRefCount (example_counted "2") ConfigMapPodTrafficManager (-1) with
          | (s1, Ret a) => a = 1%Z ∧
              snd (updateRefCount s1 ConfigMapPodTrafficManager (-1)) = Ret 0%Z
          | _ => False end) as Hrun by (vm_compute; split; reflexivity).
  destruct (updateRefCount (example_counted "2") ConfigMapPodTrafficManager (-1))
    as [s1 [a| |]] eqn:H1; [|contradiction..]. destruct Hrun as [-> Hb].
  destruct (updateRefCount s1 ConfigMapPodTrafficManager (-1)) as [s2 o] eqn:H2.
  cbn [snd] in Hb. subst o.
  pose proof (disconnect_counts_twice (S := mem) env_ok
    (MkDaemons (MkServer true (Some 1) None []) (MkServer true (Some 1) None [])) 1
    (example_counted "2") s1 s2
    (MkConfigMap ConfigMapPodTrafficManager 1 (Some {[KeyRefCount := "2"%string]})) 2 1 0
    eq_refl eq_refl eq_refl eq_refl eq_refl eq_refl) as H.
  apply H; [vm_compute; reflexivity|vm_compute; reflexivity|lia|exact H1|exact H2].
Defined.
