(* ===== verification/Hosts.v ===== *)
(** * The hosts file

    [pkg/dns/dns.go]: while connected, the names of the cluster's services are added
    to the hosts file, each line marked with a key word; [updateHosts] replaces the
    lines of the current entries, [CleanupHosts] removes all marked lines, and
    [generateHostsEntry] computes the entries.  The file is a string; the resolver's answers
    are a parameter.  ServiceHosts formats the entries and watches the services. *)
From Stdlib Require Import ZArith Lia Ascii.
From stdpp Require Import base gmap strings numbers list sorting.
From S2P Require Import Prelude GoStrings GoNet Config.

Record Entry := MkEntry { e_IP : string; e_Domain : string }.

#[export] Instance Entry_eq_dec : EqDecision Entry.
Proof. solve_decision. Defined.

Definition newline : ascii := "010".
Definition nl : string := String newline EmptyString.

(** A line the program has added. *)
Definition marked (line : string) : bool := Contains line HostsKeyWord.

(** ** [updateHosts] *)

(** [lines = append(lines[:i], lines[i+1:]...)], which panics for [i < 0]. *)
Definition delete_line (lines : list string) (i : Z) : outcome (list string) :=
  if (i <? 0)%Z || (Z.of_nat (length lines) <? i + 1)%Z then Panic
  else Ret (remove_at (Z.to_nat i) lines).

(** The loop over the hosts for one line, which is read only once: every host that
    matches deletes the line at the current index and steps the index back. *)
Fixpoint delete_matching (hosts : list Entry) (line : string) (lines : list string) (i : Z)
  : outcome (list string * Z) :=
  match hosts with
  | [] => Ret (lines, i)
  | host :: hosts =>
      if Contains line (e_Domain host) then
        lines ← delete_line lines i; delete_matching hosts line lines (i - 1)%Z
      else delete_matching hosts line lines i
  end.

(** The loop over the lines.  Every iteration shortens what is left of the list by
    one line, so [length lines] iterations are enough. *)
Fixpoint update_loop (fuel : nat) (hosts : list Entry) (lines : list string) (i : Z)
  : outcome (list string) :=
  match fuel with
  | O => Ret lines
  | S fuel =>
      if (i <? Z.of_nat (length lines))%Z then
        match lines !! Z.to_nat i with
        | None => Panic
        | Some line =>
            if marked line then
              '(lines, i) ← delete_matching hosts line lines i;
              update_loop fuel hosts lines (i + 1)%Z
            else update_loop fuel hosts lines (i + 1)%Z
        end
      else Ret lines
  end.

Definition has_localhost (lines : list string) : bool :=
  existsb (λ line, Contains line "localhost" && Contains line "127.0.0.1") lines.

Definition TrimRight_newlines (s : string) : string := TrimRightFunc (Ascii.eqb newline) s.

(** [updateHosts] on the content of the file: the content it writes. *)
Definition updateHosts (hosts : list Entry) (str file : string) : outcome string :=
  let lines := Split newline file in
  lines ← update_loop (length lines) hosts lines 0;
  if length lines =? 0 then Fail (Errorf "empty hosts file")
  else
    let lines := if has_localhost lines then lines
                 else lines ++ [("127.0.0.1 localhost" +:+ nl)%string] in
    let s := Join nl lines in
    let s := if String.eqb str "" then s else (s +:+ nl +:+ str)%string in
    let s := TrimRight_newlines s in
    if String.eqb (TrimSpace s) "" then Fail (Errorf "empty content after update")
    else Ret s.

(** ** [CleanupHosts] *)

Definition CleanupHosts (file : string) : outcome string :=
  let lines := remove_loop marked (Split newline file) in
  if length lines =? 0 then Fail (Errorf "empty hosts file") else Ret (Join nl lines).

(** ** [generateHostsEntry] *)

Record Service := MkService {
  s_Name : string; s_ClusterIPs : list string; s_ExternalIPs : list string; s_ExternalName : string }.

Definition lower (a : ascii) : ascii :=
  let n := Ascii.nat_of_ascii a in
  if (65 <=? n) && (n <=? 90) then Ascii.ascii_of_nat (n + 32) else a.
Fixpoint EqualFold (s t : string) : bool :=
  match s, t with
  | EmptyString, EmptyString => true
  | String a s, String b t => Ascii.eqb (lower a) (lower b) && EqualFold s t
  | _, _ => false
  end.

Definition service_entries (item : Service) : list Entry :=
  if EqualFold (s_Name item) "kubernetes" then []
  else
    ip ← remove_dups (s_ClusterIPs item ++ s_ExternalIPs item);
    domain ← remove_dups [s_Name item; s_ExternalName item];
    if bool_decide (ParseIP ip = None) || String.eqb domain "" then []
    else [MkEntry ip domain].

(** Descending by domain, then by address. *)
Definition entry_before (x y : Entry) : Prop :=
  if String.eqb (e_Domain x) (e_Domain y) then String.leb (e_IP y) (e_IP x) = true
  else String.leb (e_Domain y) (e_Domain x) = true.
#[export] Instance entry_before_dec : RelDecision entry_before.
Proof. intros x y. unfold entry_before. destruct (String.eqb _ _); apply _. Defined.

Definition in_file (lines : list string) (e : Entry) : bool :=
  existsb (λ line, Contains line (e_Domain e) && Contains line (e_IP e)) lines.

(** The entries that end up in [c.Hosts]: [resolved] are the entries the resolver had
    answered for when the list was filtered, [None] is an unreadable file. *)
Definition generateHostsEntry (current hosts : list Entry) (services : list Service)
    (resolved : list Entry) (file : option string) : option (list Entry) :=
  let entries := remove_dups (current ++ hosts) ++ (item ← services; service_entries item) in
  let entries := merge_sort entry_before entries in
  let entries := remove_loop (λ e, bool_decide (e ∈ resolved)) entries in
  file ← file;
  Some (fold_left (λ es line,
          remove_loop (λ e, Contains line (e_Domain e) && Contains line (e_IP e)) es)
          (Split newline file) entries).

(** ** Lemmas *)

Definition hits (hosts : list Entry) (line : string) : nat :=
  length (List.filter (λ h, Contains line (e_Domain h)) hosts).

Lemma delete_matching_0 hosts line lines i :
  hits hosts line = 0 → delete_matching hosts line lines i = Ret (lines, i).
Proof.
  unfold hits. induction hosts as [|h hosts IH]; [done|]. cbn.
  destruct (Contains line (e_Domain h)); [done|]. apply IH.
Qed.

Lemma delete_matching_1 hosts line lines i :
  hits hosts line = 1 →
  delete_matching hosts line lines i = (l ← delete_line lines i; Ret (l, (i - 1)%Z)).
Proof.
  unfold hits. induction hosts as [|h hosts IH]; [done|]. cbn.
  destruct (Contains line (e_Domain h)); [|apply IH]. intros [= H].
  destruct (delete_line lines i); [|done..]. cbn. by apply delete_matching_0.
Qed.

(** The lines of the current entries. *)
Definition stale (hosts : list Entry) (line : string) : bool :=
  marked line && (0 <? hits hosts line).

Lemma update_loop_filter hosts pre lines fuel :
  (∀ line, line ∈ lines → marked line = true → hits hosts line ≤ 1) →
  length lines ≤ fuel →
  update_loop fuel hosts (pre ++ lines) (Z.of_nat (length pre)) =
    Ret (pre ++ List.filter (λ l, negb (stale hosts l)) lines).
Proof.
  revert pre lines. induction fuel as [|fuel IH]; intros pre lines Hone Hf.
  { destruct lines; [done|cbn in Hf; lia]. }
  cbn [update_loop]. rewrite length_app. destruct lines as [|line lines].
  { rewrite Nat.add_0_r, Z.ltb_irrefl. done. }
  destruct (Z.ltb_spec (Z.of_nat (length pre)) (Z.of_nat (length pre + length (line :: lines))));
    [|cbn [length] in *; lia].
  rewrite Nat2Z.id, lookup_app_r, Nat.sub_diag by lia. cbn [lookup list_lookup].
  assert (∀ l, l ∈ lines → marked l = true → hits hosts l ≤ 1) as Hone'
    by (intros l Hl; apply Hone; by right).
  assert (∀ x, update_loop fuel hosts (pre ++ x :: lines) (Z.of_nat (length pre) + 1) =
    Ret ((pre ++ [x]) ++ List.filter (λ l, negb (stale hosts l)) lines)) as Hkeep.
  { intros x. rewrite <-(IH (pre ++ [x]) lines Hone') by (cbn [length] in Hf; lia).
    rewrite length_app, <-app_assoc. cbn [length app]. f_equal. lia. }
  cbn [List.filter]. unfold stale at 1.
  destruct (marked line) eqn:Ek; cbn [andb negb].
  - specialize (Hone line (list_elem_of_here _ _) Ek).
    destruct (hits hosts line) as [|[|n]] eqn:Eh; [| |lia].
    + rewrite delete_matching_0 by done. cbn [mbind outcome_bind Nat.ltb Nat.leb negb].
      rewrite Hkeep, <-app_assoc. done.
    + rewrite delete_matching_1 by done. unfold delete_line.
      rewrite length_app. cbn [length].
      destruct (Z.ltb_spec (Z.of_nat (length pre)) 0); [lia|].
      destruct (Z.ltb_spec (Z.of_nat (length pre + S (length lines))) (Z.of_nat (length pre) + 1)); [lia|].
      cbn [orb mbind outcome_bind Nat.ltb Nat.leb negb]. rewrite Nat2Z.id, remove_at_app.
      rewrite <-(IH pre lines Hone') by (cbn [length] in Hf; lia). f_equal. lia.
  - rewrite Hkeep, <-app_assoc. done.
Qed.

Lemma delete_matching_2 hosts line lines i :
  hits hosts line = 2 →
  delete_matching hosts line lines i =
    (l ← delete_line lines i; l ← delete_line l (i - 1); Ret (l, (i - 2)%Z)).
Proof.
  unfold hits. induction hosts as [|h hosts IH]; [done|]. cbn.
  destruct (Contains line (e_Domain h)); [|apply IH]. intros [= H].
  destruct (delete_line lines i); [|done..]. cbn. rewrite delete_matching_1 by done.
  by replace (i - 1 - 1)%Z with (i - 2)%Z by lia.
Qed.

(** Lines without the mark are skipped. *)
Lemma update_loop_skip hosts pre mid post fuel :
  Forall (λ l, marked l = false) mid →
  update_loop (length mid + fuel) hosts (pre ++ mid ++ post) (Z.of_nat (length pre)) =
  update_loop fuel hosts (pre ++ mid ++ post) (Z.of_nat (length (pre ++ mid))).
Proof.
  intros H. revert pre. induction H as [|l mid Hl _ IH]; intros pre.
  { by rewrite app_nil_r. }
  cbn [length Nat.add update_loop]. rewrite length_app. cbn [length app].
  destruct (Z.ltb_spec (Z.of_nat (length pre)) (Z.of_nat (length pre + S (length (mid ++ post))))); [|lia].
  rewrite Nat2Z.id, lookup_app_r, Nat.sub_diag by lia. cbn [lookup list_lookup]. rewrite Hl.
  specialize (IH (pre ++ [l])). rewrite <-!app_assoc in IH. cbn [app] in IH. rewrite <-IH.
  f_equal. rewrite length_app. cbn. lia.
Qed.

Lemma delete_line_at (pre : list string) x post :
  delete_line (pre ++ x :: post) (Z.of_nat (length pre)) = Ret (pre ++ post).
Proof.
  unfold delete_line. rewrite length_app. cbn [length].
  destruct (Z.ltb_spec (Z.of_nat (length pre)) 0); [lia|].
  destruct (Z.ltb_spec (Z.of_nat (length pre + S (length post))) (Z.of_nat (length pre) + 1)); [lia|].
  cbn [orb]. by rewrite Nat2Z.id, remove_at_app.
Qed.

Lemma update_loop_unmarked hosts lines :
  Forall (λ l, marked l = false) lines →
  update_loop (length lines) hosts lines 0 = Ret lines.
Proof.
  intros H. rewrite List.Forall_forall in H.
  rewrite (update_loop_filter hosts [] lines) by
    (try done; intros l Hl%list_elem_of_In Hk; specialize (H _ Hl); congruence).
  cbn [app]. f_equal. induction lines as [|l lines IH]; [done|]. cbn [List.filter]. unfold stale at 1.
  specialize (H l (or_introl eq_refl)) as E.  rewrite E. cbn.
  f_equal. apply IH. intros. apply H. by right.
Qed.

(** A marked line that two hosts match takes the line before it along. *)
Lemma update_loop_two hosts pre x line post :
  Forall (λ l, marked l = false) (pre ++ [x]) → Forall (λ l, marked l = false) post →
  marked line = true → hits hosts line = 2 →
  update_loop (length (pre ++ x :: line :: post)) hosts (pre ++ x :: line :: post) 0 =
    Ret (pre ++ post).
Proof.
  intros Hp Hq Hk Htwo.
  replace (pre ++ x :: line :: post) with ([] ++ (pre ++ [x]) ++ line :: post)
    by (cbn; by rewrite <-app_assoc).
  rewrite !length_app. cbn [length Nat.add].
  pose proof (update_loop_skip hosts [] (pre ++ [x]) (line :: post) (S (length post)) Hp) as E.
  rewrite length_app in E. change (Z.of_nat (length [])) with 0%Z in E. cbn [length] in E. rewrite E. clear E.
  cbn [app update_loop]. rewrite !length_app. cbn [length].
  destruct (Z.ltb_spec (Z.of_nat (length pre + 1)) (Z.of_nat (length pre + 1 + S (length post)))); [|lia].
  rewrite Nat2Z.id, lookup_app_r by (rewrite length_app; cbn; lia).
  rewrite length_app, Nat.sub_diag. cbn [lookup list_lookup length].
  rewrite Hk, delete_matching_2 by done.
  replace (Z.of_nat (length pre + 1)) with (Z.of_nat (length (pre ++ [x]))) by (by rewrite length_app).
  rewrite (delete_line_at (pre ++ [x])). cbn [mbind outcome_bind].
  rewrite <-app_assoc. cbn [app].
  replace (Z.of_nat (length (pre ++ [x])) - 1)%Z with (Z.of_nat (length pre))
    by (rewrite length_app; cbn; lia).
  rewrite (delete_line_at pre). cbn [mbind outcome_bind].
  replace (Z.of_nat (length (pre ++ [x])) - 2 + 1)%Z with (Z.of_nat (length pre))
    by (rewrite length_app; cbn; lia).
  rewrite update_loop_filter; [|intros l Hl Hc|lia].
  - rewrite <-(remove_loop_filter (stale hosts)), remove_loop_id; [done|].
    intros l Hl. rewrite List.Forall_forall in Hq. specialize (Hq l Hl). 
    unfold stale. by rewrite Hq.
  - rewrite List.Forall_forall in Hq. specialize (Hq l (proj1 (list_elem_of_In _ _) Hl)).
     congruence.
Qed.

Lemma Join_marks marks :
  marks ≠ [] → Forall (λ l, marked l = true ∧ Count newline l = 0) marks →
  TrimRight_newlines (Join nl marks) = Join nl marks ∧ 0 < Count "#" (Join nl marks).
Proof.
  intros Hne H. induction H as [|m marks [Hk Hn] _ IH]; [done|]. clear Hne.
  apply Contains_Count in Hk. destruct marks as [|m' marks].
  { cbn [Join]. split; [by apply TrimRight_id|done]. }
  destruct IH as [Et Hc]; [done|]. rewrite Join_cons by done. split; [|rewrite Count_app; lia].
  unfold TrimRight_newlines in *.
  assert (TrimRightFunc (Ascii.eqb newline) (Join nl (m' :: marks)) ≠ EmptyString) as Hj.
  { rewrite Et. intros E. rewrite E in Hc. cbn in Hc. lia. }
  rewrite <-str_app_assoc, TrimRight_app by done. by rewrite Et.
Qed.

(** What [updateHosts] writes when it has entries to add and localhost is present. *)
Lemma updateHosts_marks hosts file lines marks :
  update_loop (length (Split newline file)) hosts (Split newline file) 0 = Ret lines →
  has_localhost lines = true →
  marks ≠ [] → Forall (λ l, marked l = true ∧ Count newline l = 0) marks →
  updateHosts hosts (Join nl marks +:+ nl)%string file =
    Ret (Join nl lines +:+ nl +:+ Join nl marks)%string.
Proof.
  intros Hl Hloc Hne Hm. unfold updateHosts. rewrite Hl. cbn [mbind outcome_bind]. rewrite Hloc.
  destruct lines as [|l0 lines]; [done|]. cbn [length Nat.eqb].
  destruct (Join_marks marks Hne Hm) as [Et Hc].
  destruct (String.eqb_spec (Join nl marks +:+ nl)%string "") as [E|_].
  { exfalso. apply (f_equal (Count "#")) in E. rewrite Count_app in E. cbn in E. lia. }
  assert (TrimRight_newlines (Join nl marks +:+ nl)%string = Join nl marks) as Et'
    by (unfold TrimRight_newlines, nl; rewrite TrimRight_snoc, Ascii.eqb_refl; exact Et).
  assert (Join nl marks ≠ EmptyString) as Hj by (intros E; rewrite E in Hc; cbn in Hc; lia).
  assert (TrimRight_newlines (Join nl (l0 :: lines) +:+ nl +:+ Join nl marks +:+ nl)%string =
    (Join nl (l0 :: lines) +:+ nl +:+ Join nl marks)%string) as ->.
  { rewrite <-!(str_app_assoc _ nl). unfold TrimRight_newlines in *.
    rewrite TrimRight_app by (by rewrite Et'). by rewrite Et'. }
  destruct (String.eqb_spec (TrimSpace (Join nl (l0 :: lines) +:+ nl +:+ Join nl marks)%string) "")
    as [E|_]; [|done].
  exfalso. apply (f_equal (Count "#")) in E. rewrite TrimSpace_Count, !Count_app in E by done.
  cbn in E. lia.
Qed.

Lemma Split_Join_Split c lines s :
  lines ≠ [] → Forall (λ l, Count c l = 0) lines →
  Split c (Join (String c EmptyString) lines +:+ String c EmptyString +:+ s) = lines ++ Split c s.
Proof.
  intros. change (String c EmptyString +:+ s) with (String c s). by rewrite Split_sep, Split_Join.
Qed.

Lemma Split_no_sep c s : Forall (λ l, Count c l = 0) (Split c s).
Proof.
  induction s as [|a s IH]; [by repeat constructor|]. cbn.
  destruct (Ascii.eqb a c) eqn:E; [by constructor|].
  destruct (Split c s) as [|w ws].
  - constructor; [|done]. cbn. by rewrite E.
  - apply Forall_cons in IH as [Hw Hws]. constructor; [|done]. cbn. by rewrite E.
Qed.

Lemma filter_stale_unmarked hosts lines :
  List.filter (λ l, negb (marked l)) (List.filter (λ l, negb (stale hosts l)) lines) =
  List.filter (λ l, negb (marked l)) lines.
Proof.
  induction lines as [|l lines IH]; [done|]. cbn. unfold stale at 1.
  destruct (marked l) eqn:E; cbn [andb negb].
  - destruct (negb (0 <? hits hosts l)); cbn; rewrite ?E; done.
  - cbn. rewrite E. cbn. by rewrite IH.
Qed.

Lemma filter_marks marks :
  Forall (λ l, marked l = true ∧ Count newline l = 0) marks →
  List.filter (λ l, negb (marked l)) marks = [].
Proof. induction 1 as [|m marks [Hk _] _ IH]; [done|]. cbn. by rewrite Hk. Qed.

Lemma has_localhost_filter p lines :
  has_localhost (List.filter p lines) = true → has_localhost lines = true.
Proof.
  unfold has_localhost. rewrite !existsb_exists. intros (x & [Hx _]%filter_In & H). eauto.
Qed.

(** ** Properties *)

(** Updating the hosts file and cleaning it up: when localhost is in an unmarked
    line and no marked line mentions two current entries, [updateHosts] with the new
    entries [marks] succeeds, the new file is the old one without the marked lines of
    current entries, followed by the new lines, and [CleanupHosts] makes of it what it
    would have made of the old file; for an old file without a mark that is the old
    file, byte for byte. *)
Theorem hosts_update_cleanup hosts file marks
  (Hone : ∀ line, line ∈ Split newline file → marked line = true → hits hosts line ≤ 1)
  (Hloc : has_localhost (List.filter (λ l, negb (marked l)) (Split newline file)) = true)
  (Hne : marks ≠ []) (Hm : Forall (λ l, marked l = true ∧ Count newline l = 0) marks) :
  ∃ file', updateHosts hosts (Join nl marks +:+ nl)%string file = Ret file' ∧
    Split newline file' = List.filter (λ l, negb (stale hosts l)) (Split newline file) ++ marks ∧
    CleanupHosts file' = CleanupHosts file ∧
    (Forall (λ l, marked l = false) (Split newline file) → CleanupHosts file' = Ret file).
Proof.
  pose proof (update_loop_filter hosts [] (Split newline file) _ Hone (le_n _)) as Hl.
  cbn [length app Z.of_nat] in Hl. set (keep := List.filter (λ l, negb (stale hosts l)) _) in *.
  assert (has_localhost keep = true) as Hk.
  { apply (has_localhost_filter (λ l, negb (marked l))). unfold keep.
    by rewrite filter_stale_unmarked. }
  assert (keep ≠ []) as Hkne by (by intros E; rewrite E in Hk).
  assert (Forall (λ l, Count newline l = 0) keep) as Hks.
  { pose proof (Split_no_sep newline file) as H. rewrite List.Forall_forall in H |- *.
    intros l [Hl' _]%filter_In. by apply H. }
  eexists. split; [by apply (updateHosts_marks hosts file keep marks)|].
  assert (Split newline (Join nl keep +:+ nl +:+ Join nl marks)%string = keep ++ marks) as Es.
  { unfold nl. rewrite Split_Join_Split by done. f_equal. apply Split_Join; [done|].
    eapply Forall_impl; [exact Hm|]. by intros l []. }
  assert (CleanupHosts (Join nl keep +:+ nl +:+ Join nl marks)%string = CleanupHosts file) as Ec.
  { unfold CleanupHosts. rewrite Es, !remove_loop_filter, List.filter_app. unfold keep.
    rewrite filter_stale_unmarked.
    rewrite (filter_marks marks Hm), app_nil_r. done. }
  split_and!; [done|done|]. intros Hun. rewrite Ec. unfold CleanupHosts.
  rewrite remove_loop_id by (by rewrite <-List.Forall_forall).
  pose proof (Split_nonempty newline file). destruct (Split newline file) eqn:E; [done|].
  cbn [length Nat.eqb]. rewrite <-E. unfold nl. by rewrite Join_Split.
Qed.

(** What the missing [break] does: when a marked line mentions exactly two of the
    current entries (one service's name is part of another's, or a service has two
    addresses), the line before it is deleted with it, whatever it is, mark or no
    mark; and when the marked line is the first of the file, [updateHosts] panics. *)
Theorem updateHosts_eats_neighbour hosts pre x line post str
  (Hpre : Forall (λ l, marked l = false ∧ Count newline l = 0) (pre ++ [x]))
  (Hpost : Forall (λ l, marked l = false ∧ Count newline l = 0) post)
  (Hline : marked line = true ∧ Count newline line = 0) (Htwo : hits hosts line = 2)
  (Hne : pre ++ post ≠ []) :
  updateHosts hosts str (Join nl (pre ++ x :: line :: post)) =
    updateHosts hosts str (Join nl (pre ++ post)) ∧
  updateHosts hosts str (Join nl (line :: post)) = Panic.
Proof.
  destruct Hline as [Hk Hn].
  assert (Forall (λ l, Count newline l = 0) (pre ++ x :: line :: post)) as Hs.
  { replace (pre ++ x :: line :: post) with ((pre ++ [x]) ++ line :: post) by (by rewrite <-app_assoc).
    apply Forall_app. split; [|constructor; [done|]]; eapply Forall_impl; eauto; by intros ? []. }
  assert (Forall (λ l, marked l = false) (pre ++ [x]) ∧ Forall (λ l, marked l = false) post) as [Hp Hq].
  { split; eapply Forall_impl; eauto; by intros ? []. }
  split.
  - assert (update_loop (length (pre ++ x :: line :: post)) hosts (pre ++ x :: line :: post) 0 =
      Ret (pre ++ post)) as Hl by (by apply update_loop_two).
    assert (update_loop (length (pre ++ post)) hosts (pre ++ post) 0 = Ret (pre ++ post)) as Hr.
    { apply update_loop_unmarked. apply Forall_app in Hp as [? _]. by apply Forall_app. }
    unfold updateHosts, nl. rewrite !Split_Join; [|done| |by destruct pre|done].
    + by rewrite Hl, Hr.
    + apply Forall_app in Hs as [H1 H2]. apply Forall_app. split; [done|].
      by do 2 apply Forall_cons_1 in H2 as [_ H2].
  - unfold updateHosts, nl. rewrite Split_Join; [|done|].
    + change (length (line :: post)) with (S (length post)). cbn [update_loop].
      change (0 <? Z.of_nat (length (line :: post)))%Z with true. cbv iota.
      change ((line :: post) !! Z.to_nat 0) with (Some line). cbv iota.
      rewrite Hk, delete_matching_2 by done.
      rewrite (delete_line_at [] line post : delete_line (line :: post) 0 = _). done.
    + apply Forall_app in Hs as [_ H2]. by apply Forall_cons_1 in H2 as [_ H2].
Qed.

(** ** Witnesses *)

Definition example_file : string :=
  Join nl ["127.0.0.1 localhost"; "10.0.0.9 app   # Add by KubeVPN"; "192.168.1.1 nas"].

Lemma hosts_update_cleanup_witness :
  ∃ file', updateHosts [MkEntry "10.0.0.1" "app"]
      (Join nl ["10.0.0.1 app   # Add by KubeVPN"] +:+ nl)%string example_file = Ret file' ∧
    Split newline file' =
      ["127.0.0.1 localhost"; "192.168.1.1 nas"; "10.0.0.1 app   # Add by KubeVPN"]%string.
Proof.
  destruct (hosts_update_cleanup [MkEntry "10.0.0.1" "app"] example_file
    ["10.0.0.1 app   # Add by KubeVPN"%string]) as (f & Hf & Hs & _).
  - intros line _ _. unfold hits. cbn [List.filter].
    destruct (Contains line _); cbn; lia.
  - vm_compute. reflexivity.
  - discriminate.
  - repeat constructor.
  - exists f. split; [exact Hf|]. rewrite Hs. vm_compute. reflexivity.
Defined.

Lemma updateHosts_eats_neighbour_witness :
  let hosts := [MkEntry "10.0.0.1" "app"; MkEntry "10.0.0.2" "app-db"] in
  updateHosts hosts "" (Join nl ["192.168.1.1 nas"; "127.0.0.1 localhost"; "10.0.0.9 app-db # Add by KubeVPN"]) =
  updateHosts hosts "" (Join nl ["192.168.1.1 nas"]).
Proof.
  cbv zeta. refine (proj1 (updateHosts_eats_neighbour
    [MkEntry "10.0.0.1" "app"; MkEntry "10.0.0.2" "app-db"] ["192.168.1.1 nas"%string]
    "127.0.0.1 localhost" "10.0.0.9 app-db # Add by KubeVPN" [] "" _ _ _ _ _)).
  - repeat constructor.
  - constructor.
  - split; reflexivity.
  - reflexivity.
  - discriminate.
Defined.
