(* ===== verification/GoPath.v ===== *)
(** * Slash-separated paths

    [path] and, on Unix, [path/filepath] of the standard library: [Clean], [Join],
    [Dir], [Base] and [Rel], by the components of a path. *)
From Stdlib Require Import Lia Ascii.
From stdpp Require Import base strings numbers list.
From S2P Require Import Prelude GoStrings.

Local Open Scope string_scope.

(** A cleaned path: rooted or not, and its elements. *)
Record Path := MkPath { rooted : bool; elems : list string }.

#[export] Instance Path_eq_dec : EqDecision Path.
Proof. solve_decision. Defined.

(** One element of a path: the stack of what was kept, last first.  [..] drops an
    element, is kept where there is none to drop, and is nothing at the root. *)
Definition push (r : bool) (stack : list string) (w : string) : list string :=
  if bool_decide (w = "") || bool_decide (w = ".") then stack
  else if bool_decide (w = "..") then
    match stack with
    | [] => if r then [] else [".."]
    | top :: rest => if bool_decide (top = "..") then ".." :: stack else rest
    end
  else w :: stack.

Definition walk (r : bool) (stack : list string) (ws : list string) : list string := fold_left (push r) ws stack.

Definition clean (s : string) : Path :=
  let r := HasPrefix s "/" in MkPath r (rev (walk r [] (Split "/" s))).

Definition show (p : Path) : string :=
  match elems p with
  | [] => if rooted p then "/" else "."
  | l => (if rooted p then "/" else "") +:+ Join "/" l
  end.

Definition Clean (s : string) : string := show (clean s).

Definition PathJoin (a b : string) : string :=
  if bool_decide (a = "") then (if bool_decide (b = "") then "" else Clean b) else Clean (a +:+ "/" +:+ b).

(** The part up to the last slash, cleaned. *)
Definition Dir (s : string) : string :=
  match LastIndex s "/" with
  | Some i => Clean (str_take (S i) s)
  | None => Clean ""
  end.

Definition Base (s : string) : string :=
  if bool_decide (s = "") then "."
  else let s := TrimRightFunc (Ascii.eqb "/") s in
    let s := match LastIndex s "/" with Some i => str_drop (S i) s | None => s end in
    if bool_decide (s = "") then "/" else s.

(** What is left of two lists after their common front. *)
Fixpoint strip_common (b t : list string) : list string * list string :=
  match b, t with
  | x :: b', y :: t' => if bool_decide (x = y) then strip_common b' t' else (b, t)
  | _, _ => (b, t)
  end.

(** [filepath.Rel]; [None] is the error. *)
Definition Rel (basepath targpath : string) : option string :=
  let base := clean basepath in
  let targ := clean targpath in
  if bool_decide (base = targ) then Some "."
  else if negb (eqb (rooted base) (rooted targ)) then None
  else let '(b, t) := strip_common (elems base) (elems targ) in
    if bool_decide (head b = Some "..") then None
    else Some (Join "/" (replicate (length b) ".." ++ t)).

Example clean_cases :
  Clean <$> [""; "."; "/"; "a/../b//c/."; "../../a"; "/../a"; "a/.."; "/a/b/../../.."; "a/b/"; "./../x"]
  = ["."; "."; "/"; "b/c"; "../../a"; "/a"; "."; "/"; "a/b"; "../x"].
Proof. vm_compute. reflexivity. Qed.

Example rel_cases :
  (λ p, Rel p.1 p.2) <$> [("a", "a"); ("a/b", "a/b/c"); ("a/b", "a"); (".", "../x"); ("/tmp", "x"); ("../a", "b"); ("/a", "/b/c"); ("..", "a")]
  = [Some "."; Some "c"; Some ".."; Some "../x"; None; None; Some "../b/c"; None].
Proof. vm_compute. reflexivity. Qed.

Example dir_base_cases :
  ((λ s, (Dir s, Base s)) <$> ["a/b"; "a"; "/a"; "a/b/"; ""; "/"; "a//b"])
  = [("a", "b"); (".", "a"); ("/", "a"); ("a/b", "b"); (".", "."); ("/", "/"); ("a", "b")].
Proof. vm_compute. reflexivity. Qed.

(** ** Facts *)

(** An element that cleaning keeps as it is. *)
Definition normal (w : string) : Prop := w ≠ "" ∧ w ≠ "." ∧ w ≠ ".." ∧ Count "/" w = 0.

(** Elements of a cleaned path: normal ones after some [..], none of these at a root. *)
Definition clean_elems (r : bool) (l : list string) : Prop :=
  ∃ k ws, l = (replicate k ".." ++ ws)%list ∧ Forall normal ws ∧ (r = true → k = 0).

Lemma push_clean r stack w :
  Count "/" w = 0 → clean_elems r (rev stack) → clean_elems r (rev (push r stack w)).
Proof.
  intros Hw (k & ws & E & Hn & Hr). unfold push. destruct (bool_decide (w = "") || bool_decide (w = ".")) eqn:E1; [by exists k, ws|].
  apply orb_false_iff in E1 as [E1 E2]. apply bool_decide_eq_false in E1, E2.
  case_bool_decide as E3.
  - destruct stack as [|top stack].
    + destruct r; [by exists 0, []|by exists 1, []].
    + cbn [rev] in E. destruct ws as [|x ws _] using rev_ind.
      * rewrite app_nil_r in E. destruct k as [|k]; [by destruct (rev stack)|].
        rewrite replicate_S_end in E. apply app_inj_tail in E as [E ->]. rewrite bool_decide_true by done.
        exists (S (S k)), []. split_and!; [|done|].
        -- cbn [rev]. by rewrite E, app_nil_r, <-!replicate_S_end.
        -- intros H. specialize (Hr H). lia.
      * rewrite app_assoc in E. apply app_inj_tail in E as [E ->].
        apply Forall_app in Hn as [Hn Hx]. apply Forall_inv in Hx as (_ & _ & Hx & _).
        rewrite bool_decide_false by done. by exists k, ws.
  - cbn [rev]. exists k, (ws ++ [w])%list. rewrite E, app_assoc. split_and!; [done| |done].
    apply Forall_app. split; [done|]. constructor; [|done]. done.
Qed.

Lemma Split_Count c s : Forall (λ w, Count c w = 0) (Split c s).
Proof.
  induction s as [|a s IH]; cbn; [by repeat constructor|]. destruct (Ascii.eqb a c) eqn:E; [by constructor|].
  destruct (Split c s) as [|w ws]; [by constructor; [|constructor]; cbn; rewrite E|].
  inversion IH; subst. constructor; [|done]. cbn. by rewrite E.
Qed.

Lemma clean_clean_elems s : clean_elems (rooted (clean s)) (elems (clean s)).
Proof.
  unfold clean. cbn [rooted elems]. set (r := HasPrefix s "/").
  assert (clean_elems r (rev [])) as H0 by (by exists 0, []).
  pose proof (Split_Count "/" s) as Hs. unfold walk. revert H0. generalize (@nil string).
  induction Hs as [|w ws Hw _ IH]; intros st Hst; [done|]. cbn [fold_left]. apply IH. by apply push_clean.
Qed.

Lemma clean_elems_suffix r l b t :
  clean_elems r l → l = (b ++ t)%list → head t ≠ Some ".." → Forall normal t.
Proof.
  intros (k & ws & -> & Hn & _) E Hh. assert (k ≤ length b)%nat as Hk.
  { destruct (decide (k ≤ length b)%nat); [done|]. exfalso. apply Hh.
    assert (((replicate k ".." ++ ws) !! length b)%list = Some "..") as Hl.
    { rewrite lookup_app_l by (rewrite length_replicate; lia). apply lookup_replicate_2. lia. }
    rewrite E, lookup_app_r, Nat.sub_diag in Hl by done. by destruct t. }
  assert (t = drop (length b) (replicate k ".." ++ ws)%list) as -> by (rewrite E; by rewrite drop_app_length).
  rewrite drop_app_ge by (rewrite length_replicate; done). by apply Forall_drop.
Qed.

Lemma strip_common_spec b t b' t' :
  strip_common b t = (b', t') → ∃ c, b = (c ++ b')%list ∧ t = (c ++ t')%list.
Proof.
  revert t. induction b as [|x b IH]; intros t; cbn; [intros [= <- <-]; by exists []|].
  destruct t as [|y t]; [intros [= <- <-]; by exists []|]. case_bool_decide as E; [|intros [= <- <-]; by exists []].
  intros (c & -> & ->)%IH. subst. by exists (y :: c).
Qed.

Lemma HasPrefix_char c s : HasPrefix (String c "" +:+ s) (String c "") = true.
Proof.
  change (String c "" +:+ s) with (String c s). unfold HasPrefix. cbn.
  destruct (ascii_dec c c); [by destruct s|done].
Qed.

Lemma rev_replicate {A} k (x : A) : rev (replicate k x) = replicate k x.
Proof. induction k as [|k IH]; [done|]. cbn [replicate rev]. by rewrite IH, <-replicate_S_end. Qed.

Lemma walk_normal r st ws : Forall normal ws → walk r st ws = (rev ws ++ st)%list.
Proof.
  unfold walk. intros Hn. revert st. induction Hn as [|w ws (H1 & H2 & H3 & _) _ IH]; intros st; [done|]. cbn [fold_left].
  assert (push r st w = w :: st) as -> by (unfold push; by rewrite !bool_decide_false).
  rewrite IH. cbn [rev]. by rewrite <-app_assoc.
Qed.

Lemma walk_clean r l : clean_elems r l → walk r [] l = rev l.
Proof.
  intros (k & ws & -> & Hn & Hr). unfold walk. rewrite fold_left_app.
  assert (fold_left (push r) (replicate k "..") [] = replicate k "..") as ->.
  { destruct r; [by rewrite Hr|]. clear. assert (∀ n, fold_left (push false) (replicate k "..") (replicate n "..") = replicate (k + n) "..") as H.
    { induction k as [|k IH]; intros n; [done|]. cbn [replicate fold_left].
      assert (push false (replicate n "..") ".." = replicate (S n) "..") as -> by (by destruct n).
      rewrite IH. by rewrite Nat.add_succ_r. }
    specialize (H 0). by rewrite Nat.add_0_r in H. }
  rewrite rev_app_distr, rev_replicate.
  by apply walk_normal.
Qed.

Lemma Join_nonempty l : l ≠ [] → Forall (λ w, w ≠ "") l → Join "/" l ≠ "".
Proof.
  intros Hne Hl. destruct Hl as [|w l Hw _]; [done|]. destruct (decide (l = [])) as [->|]; [done|].
  rewrite Join_cons by done. by destruct w.
Qed.

Lemma clean_elems_words r l : clean_elems r l → Forall (λ w, Count "/" w = 0 ∧ w ≠ "") l.
Proof.
  intros (k & ws & -> & Hn & _). apply Forall_app. split.
  - apply Forall_replicate. done.
  - eapply Forall_impl; [exact Hn|]. by intros w (? & _ & _ & ?).
Qed.

(** Cleaning a path that was printed gives it back. *)
Lemma clean_show p : clean_elems (rooted p) (elems p) → clean (show p) = p.
Proof.
  destruct p as [r l]. cbn [rooted elems]. intros Hc. pose proof (clean_elems_words r l Hc) as Hw.
  unfold show. cbn [elems rooted]. destruct l as [|w l]; [by destruct r|].
  assert (Forall (λ w, Count "/" w = 0) (w :: l)) as H0 by (eapply Forall_impl; [exact Hw|by intros ? []]).
  unfold clean. destruct r.
  - assert (HasPrefix ("/" +:+ Join "/" (w :: l)) "/" = true) as -> by (apply HasPrefix_char). f_equal.
    change ("/" +:+ Join "/" (w :: l)) with ("" +:+ String "/" (Join "/" (w :: l))).
    rewrite Split_app by done. unfold walk. cbn [fold_left].
    change (push true [] "") with (@nil string). rewrite Split_Join by done.
    fold (walk true [] (w :: l)). by rewrite walk_clean, rev_involutive.
  - change ("" +:+ Join "/" (w :: l)) with (Join "/" (w :: l)).
    assert (HasPrefix (Join "/" (w :: l)) "/" = false) as ->.
    { apply Forall_cons in Hw as [[Hcw Hne] _]. destruct w as [|a w]; [done|]. cbn in Hcw.
      assert (∃ t, Join "/" (String a w :: l) = String a t) as [t ->] by (destruct l; cbn; by eexists).
      destruct a as [[] [] [] [] [] [] [] []]; first [reflexivity|discriminate Hcw]. }
    f_equal. rewrite Split_Join by done. by rewrite walk_clean, rev_involutive.
Qed.

(** Joining continues the walk. *)
Lemma clean_join a b :
  a ≠ "" → clean (a +:+ "/" +:+ b) = MkPath (rooted (clean a)) (rev (walk (rooted (clean a)) (rev (elems (clean a))) (Split "/" b))).
Proof.
  intros Ha. unfold clean at 1. assert (HasPrefix (a +:+ "/" +:+ b) "/" = HasPrefix a "/") as ->.
  { destruct a as [|c a]; [done|]. rewrite str_app_cons.
    destruct c as [[] [] [] [] [] [] [] []]; first [reflexivity|by destruct a]. }
  f_equal. change ("/" +:+ b) with (String "/" b). rewrite Split_sep. unfold walk, clean. cbn [elems rooted].
  by rewrite rev_involutive, fold_left_app.
Qed.
