(* ===== verification/IPText.v ===== *)
(** * IPv6 addresses as text

    Printing an IPv6 address (RFC 5952, the form [net.IP.String] uses) and parsing it
    back gives the address: what [RentInnerIP] of the two daemons relies on when the
    rented networks travel as text. *)
From Stdlib Require Import ZArith Lia Ascii.
From Stdlib Require Import Strings.Byte.
From stdpp Require Import base strings numbers pretty list.
From S2P Require Import Prelude GoStrings GoNet.

(** ** Hexadecimal groups *)

Lemma hex_digit_char z : (0 ≤ z < 16)%Z → hex_digit (hex_char z) = Some z.
Proof.
  intros H. assert (z = 0 ∨ z = 1 ∨ z = 2 ∨ z = 3 ∨ z = 4 ∨ z = 5 ∨ z = 6 ∨ z = 7 ∨ z = 8 ∨ z = 9 ∨
    z = 10 ∨ z = 11 ∨ z = 12 ∨ z = 13 ∨ z = 14 ∨ z = 15)%Z as Hz by lia.
  destruct_or!; subst; reflexivity.
Qed.

Lemma take_hex_go f z acc n :
  (0 ≤ z < 16 ^ Z.of_nat f)%Z → (z < 65536)%Z → 0 < f →
  ∃ k, 0 < k ∧ take_hex (hex_go f z acc) n 0 = take_hex acc (n + k) z.
Proof.
  revert z acc. induction f as [|f IH]; intros z acc Hz Hs Hf; [lia|]. cbn [hex_go].
  destruct (Z.ltb_spec z 16) as [Hlt|Hge].
  - exists 1. split; [lia|]. cbn [take_hex]. rewrite Z.mod_small, hex_digit_char by lia.
    destruct (Z.ltb_spec 65535 (0 * 16 + z)); [lia|]. by rewrite Nat.add_1_r.
  - rewrite Nat2Z.inj_succ, Z.pow_succ_r in Hz by lia.
    assert (0 < f) by (destruct f; [cbn in Hz; lia|lia]).
    assert (0 ≤ z `div` 16 < 16 ^ Z.of_nat f)%Z by (Z.to_euclidean_division_equations; lia).
    assert (z `div` 16 < 65536)%Z by (Z.to_euclidean_division_equations; lia).
    destruct (IH (z `div` 16)%Z (String (hex_char (z `mod` 16)) acc)) as (k & Hk & E); [lia..|].
    exists (S k). split; [lia|]. rewrite E. cbn [take_hex].
    rewrite hex_digit_char by (apply Z.mod_pos_bound; lia).
    replace (z `div` 16 * 16 + z `mod` 16)%Z with z by (Z.to_euclidean_division_equations; lia).
    destruct (Z.ltb_spec 65535 z); [lia|]. f_equal. lia.
Qed.

Definition is_group (z : Z) : Prop := (0 ≤ z < 65536)%Z.

Lemma hex_go_app f z acc t : (hex_go f z acc +:+ t = hex_go f z (acc +:+ t))%string.
Proof.
  revert z acc. induction f as [|f IH]; intros z acc; [done|]. cbn [hex_go].
  destruct (z <? 16)%Z; [done|]. by rewrite IH.
Qed.

(** The reader stops at the end of the text or at a character that is no digit. *)
Definition stops (t : string) : Prop :=
  match t with EmptyString => True | String a _ => hex_digit a = None end.

Lemma take_hex_stop t n z : stops t → take_hex t n z = Some (n, z, t).
Proof. destruct t as [|a t]; cbn; [done|]. by intros ->. Qed.

Lemma take_hex16 z t :
  is_group z → stops t → ∃ k, 0 < k ∧ take_hex (hex16 z +:+ t) 0 0 = Some (k, z, t).
Proof.
  intros [H1 H2] Ht. unfold hex16. rewrite hex_go_app.
  destruct (take_hex_go 4 z (EmptyString +:+ t)%string 0) as (k & Hk & E); [lia..|].
  exists k. split; [done|]. rewrite E. by apply take_hex_stop.
Qed.

(** ** Groups and bytes *)

Definition group_bytes (g : list Z) : list byte := mjoin (be_fixed 2 <$> g).

Lemma group_bytes_cons z g : group_bytes (z :: g) = be_fixed 2 z ++ group_bytes g.
Proof. done. Qed.

Lemma group_bytes_app g h : group_bytes (g ++ h) = group_bytes g ++ group_bytes h.
Proof. unfold group_bytes. by rewrite fmap_app, join_app. Qed.

Lemma length_group_bytes g : length (group_bytes g) = 2 * length g.
Proof.
  induction g as [|z g IH]; [done|]. rewrite group_bytes_cons, length_app, length_be_fixed, IH. cbn. lia.
Qed.

Lemma groups_bytes n ip :
  length ip = 2 * n → length (groups ip) = n ∧ group_bytes (groups ip) = ip ∧ Forall is_group (groups ip).
Proof.
  revert ip. induction n as [|n IH]; intros ip Hl.
  { destruct ip; [|cbn in Hl; lia]. by split_and!. }
  destruct ip as [|a [|b ip]]; [cbn in Hl; lia..|]. destruct (IH ip) as (H1 & H2 & H3); [cbn in Hl; lia|].
  cbn [groups]. pose proof (b2z_range a). pose proof (b2z_range b). split_and!.
  - cbn. by rewrite H1.
  - rewrite group_bytes_cons, H2.
    assert (be_val [a; b] = b2z a * 256 + b2z b)%Z as <- by done.
    by rewrite (be_fixed_val [a; b] : be_fixed 2 _ = _).
  - constructor; [|done]. unfold is_group. lia.
Qed.

Lemma group_bytes_zero n : group_bytes (replicate n 0%Z) = replicate (2 * n) x00.
Proof.
  induction n as [|n IH]; [done|]. cbn [replicate]. rewrite group_bytes_cons, IH.
  by replace (2 * S n) with (S (S (2 * n))) by lia.
Qed.

(** ** The longest run of zero groups *)

Lemma zero_run_spec g : take (zero_run g) g = replicate (zero_run g) 0%Z ∧ zero_run g ≤ length g.
Proof.
  induction g as [|z g [IH1 IH2]]; [done|]. cbn [zero_run].
  destruct (Z.eqb_spec z 0) as [->|]; [|cbn; split; [done|lia]]. cbn. rewrite IH1. split; [done|lia].
Qed.

(** A run: [l] zero groups from index [i], or none. *)
Definition is_run (g : list Z) (r : nat * nat) : Prop :=
  r.2 = 0 ∨ (2 ≤ r.2 ∧ ∃ h, g = take r.1 g ++ replicate r.2 0%Z ++ h ∧ r.1 + r.2 ≤ length g).

Lemma longest_run_spec pre g best :
  is_run (pre ++ g) best → is_run (pre ++ g) (longest_run (length pre) g best).
Proof.
  revert pre best. induction g as [|z g IH]; intros pre best Hb; [done|]. cbn [longest_run].
  set (l := zero_run (z :: g)).
  replace (pre ++ z :: g) with ((pre ++ [z]) ++ g) by (by rewrite <-app_assoc).
  replace (S (length pre)) with (length (pre ++ [z])) by (rewrite length_app; cbn; lia).
  apply IH. rewrite <-app_assoc. cbn [app].
  destruct ((2 <=? l) && (snd best <? l)) eqn:E; [|done].
  apply andb_true_iff in E as [Hl%Nat.leb_le _]. right. cbn [fst snd]. split; [done|].
  destruct (zero_run_spec (z :: g)) as [H1 H2]. fold l in H1, H2.
  exists (drop l (z :: g)). rewrite take_app_length, <-H1, take_drop. split; [done|].
  rewrite length_app. lia.
Qed.

(** ** The parser on groups *)

Definition text (g : list Z) : string := Join ":" (map hex16 g).

Lemma hex_char_colon z : (0 ≤ z < 16)%Z → hex_char z ≠ ":"%char ∧ hex_char z ≠ "."%char ∧ hex_char z ≠ "/"%char.
Proof.
  intros H. apply hex_digit_char in H. split_and!; intros E; rewrite E in H; discriminate.
Qed.

Lemma Count_hex_go c f z acc :
  (0 ≤ z)%Z → hex_digit c = None → Count c (hex_go f z acc) = Count c acc.
Proof.
  intros Hz Hc. revert z acc Hz. induction f as [|f IH]; intros z acc Hz; [done|]. cbn [hex_go].
  assert (Count c (String (hex_char (z `mod` 16)) acc) = Count c acc) as E.
  { cbn. destruct (Ascii.eqb_spec (hex_char (z `mod` 16)) c) as [<-|]; [|done].
    rewrite hex_digit_char in Hc by (apply Z.mod_pos_bound; lia). done. }
  destruct (z <? 16)%Z; [done|]. rewrite IH; [done|]. apply Z.div_pos; lia.
Qed.

(** The first character of a group is a digit, so it is no colon. *)
Lemma hex16_cons z t : is_group z → ∃ a s, (hex16 z +:+ t = String a s)%string ∧ a ≠ ":"%char.
Proof.
  intros Hz. destruct (take_hex16 z EmptyString Hz I) as (k & Hk & E). rewrite str_app_nil_r in E.
  destruct (hex16 z) as [|a s].
  - cbn in E. injection E as <- _. lia.
  - exists a, (s +:+ t)%string. split; [done|]. intros ->. cbn in E. injection E as <- _ _. lia.
Qed.

Lemma text_cons z g : g ≠ [] → text (z :: g) = (hex16 z +:+ ":" +:+ text g)%string.
Proof. intros H. unfold text. cbn [map]. apply Join_cons. by destruct g. Qed.

(** A list of groups up to the end of the text. *)
Lemma v6_loop_text g fuel out ell :
  g ≠ [] → Forall is_group g → length g ≤ fuel →
  v6_loop fuel (text g) out ell = Some (out ++ group_bytes g, ell, EmptyString).
Proof.
  revert fuel out. induction g as [|z g IH]; intros fuel out Hne Hg Hf; [done|].
  apply Forall_cons in Hg as [Hz Hg]. destruct fuel as [|fuel]; [cbn in Hf; lia|]. cbn [v6_loop].
  destruct g as [|z' g].
  - unfold text. cbn [map Join]. destruct (take_hex16 z EmptyString Hz I) as (k & Hk & E).
    rewrite str_app_nil_r in E. rewrite E. cbn [mbind option_bind].
    destruct (Nat.eqb_spec k 0); [lia|]. rewrite group_bytes_cons. by rewrite app_nil_r.
  - rewrite text_cons by done.
    destruct (take_hex16 z (":" +:+ text (z' :: g))%string Hz) as (k & Hk & E); [done|].
    rewrite E. cbn [mbind option_bind]. destruct (Nat.eqb_spec k 0); [lia|].
    assert (∃ a s, text (z' :: g) = String a s ∧ a ≠ ":"%char) as (a & s & Et & Ha).
    { apply Forall_cons in Hg as [Hz' _]. destruct g as [|z'' g].
      - destruct (hex16_cons z' EmptyString Hz') as (a & s & E' & Ha). rewrite str_app_nil_r in E'. by exists a, s.
      - rewrite text_cons by done. apply hex16_cons. exact Hz'. }
    change (":" +:+ text (z' :: g))%string with (String ":" (text (z' :: g))). rewrite Et.
    destruct (Ascii.eqb_spec a ":"); [done|]. rewrite <-Et, IH; [|done..|cbn [length] in *; lia].
    by rewrite (group_bytes_cons z), app_assoc.
Qed.

Lemma text_head g t : g ≠ [] → Forall is_group g → ∃ a s, (text g +:+ t = String a s)%string ∧ a ≠ ":"%char.
Proof.
  intros Hne Hg. destruct g as [|z [|z' g]]; [done|..]; apply Forall_cons in Hg as [Hz _].
  - apply hex16_cons. exact Hz.
  - rewrite text_cons, str_app_assoc by done. apply hex16_cons. exact Hz.
Qed.

(** A list of groups in front of an ellipsis. *)
Lemma v6_loop_ellipsis g fuel out rest :
  g ≠ [] → Forall is_group g → length g ≤ fuel →
  v6_loop fuel (text g +:+ "::" +:+ rest) out None =
    match rest with
    | EmptyString => Some (out ++ group_bytes g, Some (length (out ++ group_bytes g)), EmptyString)
    | _ => v6_loop (fuel - length g) rest (out ++ group_bytes g) (Some (length (out ++ group_bytes g)))
    end.
Proof.
  revert fuel out. induction g as [|z g IH]; intros fuel out Hne Hg Hf; [done|].
  apply Forall_cons in Hg as [Hz Hg]. destruct fuel as [|fuel]; [cbn in Hf; lia|]. cbn [v6_loop].
  destruct g as [|z' g].
  - change (text [z]) with (hex16 z). destruct (take_hex16 z ("::" +:+ rest)%string Hz) as (k & Hk & E); [done|].
    rewrite E. cbn [mbind option_bind]. destruct (Nat.eqb_spec k 0); [lia|].
    change ("::" +:+ rest)%string with (String ":" (String ":" rest)). cbv iota.
    rewrite Ascii.eqb_refl, group_bytes_cons. change (group_bytes []) with (@nil byte). rewrite app_nil_r.
    cbn [length]. rewrite Nat.sub_succ, Nat.sub_0_r. done.
  - rewrite text_cons, !str_app_assoc by done.
    destruct (take_hex16 z (":" +:+ text (z' :: g) +:+ "::" +:+ rest)%string Hz) as (k & Hk & E); [done|].
    rewrite E. cbn [mbind option_bind]. destruct (Nat.eqb_spec k 0); [lia|].
    destruct (text_head (z' :: g) ("::" +:+ rest)%string) as (a & s & Et & Ha); [done..|].
    change (":" +:+ text (z' :: g) +:+ "::" +:+ rest)%string
      with (String ":" (text (z' :: g) +:+ "::" +:+ rest)). rewrite Et. cbv iota.
    destruct (Ascii.eqb_spec a ":"); [done|]. rewrite <-Et, IH; [|done..|cbn [length] in *; lia].
    rewrite (group_bytes_cons z), app_assoc. by cbn [length Nat.sub].
Qed.

(** ** The round trip *)

Lemma parseIPv6_head s a s' :
  s = String a s' → a ≠ ":"%char →
  parseIPv6 s = ('(out, ell, r) ← v6_loop 8 s [] None;
    if bool_decide (r ≠ EmptyString) then None
    else if length out <? 16 then
      e ← ell; Some (take e out ++ replicate (16 - length out) x00 ++ drop e out)
    else match ell with Some _ => None | None => Some out end).
Proof.
  intros -> Ha. unfold parseIPv6.
  destruct a as [[] [] [] [] [] [] [] []]; try done.
Qed.

Lemma parseIPv6_ellipsis s :
  s ≠ EmptyString →
  parseIPv6 ("::" +:+ s) = ('(out, ell, r) ← v6_loop 8 s [] (Some 0);
    if bool_decide (r ≠ EmptyString) then None
    else if length out <? 16 then
      e ← ell; Some (take e out ++ replicate (16 - length out) x00 ++ drop e out)
    else match ell with Some _ => None | None => Some out end).
Proof.
  intros Hs. change ("::" +:+ s)%string with (String ":" (String ":" s)). unfold parseIPv6.
  by rewrite bool_decide_false by naive_solver.
Qed.

Lemma text_nonempty g : g ≠ [] → Forall is_group g → text g ≠ EmptyString.
Proof.
  intros Hne Hg E. destruct (text_head g EmptyString Hne Hg) as (a & s & E' & _).
  rewrite str_app_nil_r in E'. congruence.
Qed.

Lemma parseIPv6_text ip : length ip = 16 → parseIPv6 (v6_text ip) = Some ip.
Proof.
  intros Hl. destruct (groups_bytes 8 ip Hl) as (Hn & Hb & Hg). unfold v6_text.
  change (Join ":" (map hex16 (groups ip))) with (text (groups ip)).
  assert (is_run (groups ip) (longest_run 0 (groups ip) (0, 0))) as Hr
    by (apply (longest_run_spec []); by left).
  destruct (longest_run 0 (groups ip) (0, 0)) as [i [|l]].
  - assert (groups ip ≠ []) as Hne by (intros E; by rewrite E in Hn).
    destruct (text_head (groups ip) EmptyString Hne Hg) as (a & s & E & Ha). rewrite str_app_nil_r in E.
    rewrite (parseIPv6_head _ a s E Ha), v6_loop_text by (try done; lia). cbn [mbind option_bind app].
    rewrite Hb, Hl. done.
  - destruct Hr as [Hr|(Hl2 & h & Eg & Hle)]; [done|]. cbn [fst snd] in *.
    change (Join ":" (map hex16 (take i (groups ip)))) with (text (take i (groups ip))).
    change (Join ":" (map hex16 (drop (i + S l) (groups ip)))) with (text (drop (i + S l) (groups ip))).
    set (pre := take i (groups ip)) in *.
    assert (length pre = i) as Hpre by (unfold pre; rewrite length_take; lia).
    assert (drop (i + S l) (groups ip) = h) as Eh.
    { rewrite Eg, app_assoc, drop_app_length' by (rewrite length_app, length_replicate; lia). done. }
    rewrite Eh. rewrite Eg in Hg. apply Forall_app in Hg as [Hg1 [_ Hg2]%Forall_app].
    assert (i + S l + length h = 8) as Hsum.
    { rewrite <-Hn, Eg, !length_app, length_replicate. lia. }
    assert (ip = group_bytes pre ++ replicate (16 - length (group_bytes pre ++ group_bytes h)) x00 ++ group_bytes h) as Eip.
    { rewrite <-Hb at 1. rewrite Eg, !group_bytes_app, group_bytes_zero.
      rewrite length_app, !length_group_bytes. do 3 f_equal. lia. }
    assert (length (group_bytes pre ++ group_bytes h) < 16) as Hlt
      by (rewrite length_app, !length_group_bytes; lia).
    destruct (decide (pre = [])) as [Ep|Ep].
    + rewrite Ep in *. change (text [] +:+ "::" +:+ text h)%string with ("::" +:+ text h)%string.
      change (group_bytes []) with (@nil byte) in *. cbn [app] in *. destruct h as [|y h].
      { rewrite Eip. reflexivity. }
      rewrite parseIPv6_ellipsis, v6_loop_text by (try done; try (by apply text_nonempty); lia).
      cbn [mbind option_bind app]. rewrite bool_decide_false by naive_solver.
      rewrite (proj2 (Nat.ltb_lt _ _)) by done. cbn [mbind option_bind take drop app]. f_equal. symmetry. exact Eip.
    + destruct (text_head pre ("::" +:+ text h)%string Ep Hg1) as (a & s & E & Ha).
      rewrite (parseIPv6_head _ a s E Ha), v6_loop_ellipsis by (try done; lia). cbn [app].
      assert (∀ out, out = group_bytes pre ++ group_bytes h →
        take (length (group_bytes pre)) out ++ replicate (16 - length out) x00 ++
        drop (length (group_bytes pre)) out = ip) as Hout.
      { intros out ->. by rewrite take_app_length, drop_app_length, <-Eip. }
      destruct h as [|y h].
      * change (text []) with EmptyString. cbv iota. cbn [mbind option_bind].
        change (group_bytes []) with (@nil byte) in *. rewrite app_nil_r in *.
        rewrite bool_decide_false by naive_solver. rewrite (proj2 (Nat.ltb_lt _ _)) by done.
        cbn [mbind option_bind]. by rewrite Hout.
      * pose proof (text_nonempty (y :: h) ltac:(done) Hg2) as Hne.
        destruct (text (y :: h)) eqn:Et; [done|]. rewrite <-Et.
        rewrite v6_loop_text by (try done; cbn [length] in *; lia). cbn [mbind option_bind].
        rewrite bool_decide_false by naive_solver. rewrite (proj2 (Nat.ltb_lt _ _)) by done.
        cbn [mbind option_bind]. by rewrite Hout.
Qed.

(** Nothing in the text of an IPv6 address ends it early. *)
Lemma text_Count c g :
  hex_digit c = None → c ≠ ":"%char → Forall is_group g → Count c (text g) = 0.
Proof.
  intros Hc Hcol Hg. induction Hg as [|z g Hz Hg IH]; [done|].
  assert (Count c (hex16 z) = 0) as Hh by (unfold hex16; destruct Hz; by rewrite Count_hex_go).
  destruct (decide (g = [])) as [->|Hne]; [exact Hh|].
  rewrite text_cons, !Count_app, Hh, IH by done. cbn [Count].
  destruct (Ascii.eqb_spec ":" c) as [E|]; [by rewrite E in Hcol|done].
Qed.

Lemma v6_text_Count c ip :
  length ip = 16 → hex_digit c = None → c ≠ ":"%char → Count c (v6_text ip) = 0.
Proof.
  intros Hl Hc Hcol. destruct (groups_bytes 8 ip Hl) as (_ & _ & Hg). unfold v6_text.
  destruct (longest_run 0 (groups ip) (0, 0)) as [i [|l]]; [by apply text_Count|].
  rewrite !Count_app.
  change (Join ":" (map hex16 (take i (groups ip)))) with (text (take i (groups ip))).
  change (Join ":" (map hex16 (drop (i + S l) (groups ip)))) with (text (drop (i + S l) (groups ip))).
  rewrite !text_Count by (try done; by (apply Forall_take || apply Forall_drop)). cbn [Count].
  destruct (Ascii.eqb_spec ":" c) as [E|]; [by rewrite E in Hcol|done].
Qed.

Lemma simpleMaskLength_128 n : n ≤ 128 → simpleMaskLength (CIDRMask n 128) = Some n.
Proof. intros Hn. do 129 (destruct n as [|n]; [vm_compute; reflexivity|]). lia. Qed.

(** An IPv6 address printed with its prefix length parses back to the address and
    its network. *)
Lemma ParseCIDR_String6 ip n :
  length ip = 16 → To4 ip = None → n ≤ 128 →
  ParseCIDR (IPNet_String (MkIPNet ip (CIDRMask n 128))) =
    Some (ip, MkIPNet (IP_Mask ip (CIDRMask n 128)) (CIDRMask n 128)).
Proof.
  intros Hl H4 Hn. unfold IPNet_String, networkNumberAndMask. cbn [net_IP net_Mask]. rewrite H4.
  rewrite bool_decide_true by done. cbv iota. rewrite length_CIDRMask. change (128 / 8) with 16.
  rewrite bool_decide_false by done. rewrite (bool_decide_true (16 = 16)) by done.
  rewrite bool_decide_false by (rewrite Hl; done). rewrite simpleMaskLength_128 by done.
  assert (IP_String ip = v6_text ip) as ->.
  { unfold IP_String. rewrite Hl, H4. done. }
  unfold ParseCIDR. change ("/" +:+ Itoa (Z.of_nat n))%string with (String "/" (Itoa (Z.of_nat n))).
  rewrite cut_slash_app by (by apply v6_text_Count). cbn [mbind option_bind].
  assert (parseIPv4 (v6_text ip) = None) as ->.
  { unfold parseIPv4. by rewrite Split_word by (by apply v6_text_Count). }
  rewrite parseIPv6_text by done. cbn [mbind option_bind].
  rewrite Itoa_nonneg, undecimal_pretty_N by lia. cbn [mbind option_bind].
  rewrite Z2N.id, Nat2Z.id by lia.
  assert ((Z.of_nat n <=? Z.of_nat 128)%Z = true) as -> by (apply Z.leb_le; lia). done.
Qed.
