(* ===== verification/Url.v ===== *)
(** * URLs

    The part of [net/url] the program uses to read its node strings: [url.Parse]
    (scheme, authority, path, query, fragment), [Query] and [EscapedPath], and the
    lemmas that a query whose values need no escaping is read as it was written. *)
From Stdlib Require Import ZArith Lia Ascii.
From Stdlib Require Import Strings.Byte.
From stdpp Require Import base gmap strings numbers list.
From S2P Require Import Prelude GoStrings GoNet.

(** [strings.Cut] at the first [c]: before and after; all and nothing without one. *)
Fixpoint Cut (c : ascii) (s : string) : string * string :=
  match s with
  | EmptyString => (EmptyString, EmptyString)
  | String a s => if Ascii.eqb a c then (EmptyString, s)
                  else let '(l, r) := Cut c s in (String a l, r)
  end.

Fixpoint all_chars (p : ascii → bool) (s : string) : bool :=
  match s with EmptyString => true | String a s => p a && all_chars p s end.

(** Position of the first occurrence of a string. *)
Fixpoint IndexStr (sub s : string) : option nat :=
  if HasPrefix s sub then Some 0
  else match s with EmptyString => None | String _ s => S <$> IndexStr sub s end.

Definition in_range (lo hi a : ascii) : bool :=
  (nat_of_ascii lo <=? nat_of_ascii a) && (nat_of_ascii a <=? nat_of_ascii hi).
Definition is_lower (a : ascii) : bool := in_range "a" "z" a.
Definition is_upper (a : ascii) : bool := in_range "A" "Z" a.
Definition is_digit (a : ascii) : bool := in_range "0" "9" a.
Definition alnum (a : ascii) : bool := is_lower a || is_upper a || is_digit a.
Definition one_of (s : string) (a : ascii) : bool := 0 <? Count a s.
Definition dquote : ascii := "034".
Definition ToLower (s : string) : string :=
  String.string_of_list_ascii ((λ a, if is_upper a then ascii_of_nat (nat_of_ascii a + 32) else a) <$> String.list_ascii_of_string s).

(** ** Escaping *)

Inductive encoding : Type :=
  encodePath | encodeHost | encodeZone | encodeUserPassword | encodeQueryComponent | encodeFragment.

#[export] Instance encoding_eq_dec : EqDecision encoding.
Proof. solve_decision. Defined.

Definition shouldEscape (a : ascii) (mode : encoding) : bool :=
  let host := bool_decide (mode = encodeHost ∨ mode = encodeZone) in
  if alnum a then false
  else if host && (one_of "!$&'()*+,;=:[]<>" a || Ascii.eqb a dquote) then false
  else if one_of "-_.~" a then false
  else if one_of "$&+,/:;=?@" a then
    match mode with
    | encodePath => Ascii.eqb a "?"
    | encodeUserPassword => one_of "@/?:" a
    | encodeQueryComponent => true
    | encodeFragment => false
    | encodeHost | encodeZone => true
    end
  else if bool_decide (mode = encodeFragment) && one_of "!()*" a then false
  else true.

Definition hex_upper (z : Z) : ascii :=
  if (z <? 10)%Z then ascii_of_nat (Z.to_nat (48 + z)) else ascii_of_nat (Z.to_nat (55 + z)).

(** [escape]; a space is [+] in a query. *)
Fixpoint escape (s : string) (mode : encoding) : string :=
  match s with
  | EmptyString => EmptyString
  | String a s =>
      let n := Z.of_nat (nat_of_ascii a) in
      if shouldEscape a mode then
        if Ascii.eqb a " " && bool_decide (mode = encodeQueryComponent) then String "+" (escape s mode)
        else String "%" (String (hex_upper (n / 16)) (String (hex_upper (n mod 16)) (escape s mode)))
      else String a (escape s mode)
  end.

(** [unescape]; [None] is an [EscapeError] or an [InvalidHostError]. *)
Fixpoint unescape (s : string) (mode : encoding) : option string :=
  match s with
  | EmptyString => Some EmptyString
  | String "%"%char (String h (String l s)) =>
      a ← hex_digit h; b ← hex_digit l;
      let v := ascii_of_nat (Z.to_nat (16 * a + b)) in
      let is25 := Ascii.eqb h "2" && Ascii.eqb l "5" in
      if bool_decide (mode = encodeHost) && (a <? 8)%Z && negb is25 then None
      else if bool_decide (mode = encodeZone) && negb is25 && negb (Ascii.eqb v " ") && shouldEscape v encodeHost
      then None
      else String v <$> unescape s mode
  | String "%"%char _ => None
  | String a s =>
      if bool_decide (mode = encodeHost ∨ mode = encodeZone) && (nat_of_ascii a <? 128) && shouldEscape a mode
      then None
      else String (if Ascii.eqb a "+" && bool_decide (mode = encodeQueryComponent) then " "%char else a)
             <$> unescape s mode
  end.

Definition validEncoded (s : string) (mode : encoding) : bool :=
  all_chars (λ a, one_of "!$&'()*+,;=:@[]%" a || negb (shouldEscape a mode)) s.

(** ** Parsing *)

Record URL := MkURL { u_Scheme : string; u_Host : string; u_Path : string; u_RawPath : string; u_RawQuery : string }.

(** [getScheme]: what precedes the first colon, if it is a scheme; [acc] is what was
    read, empty at the first character only. *)
Fixpoint getScheme_go (acc s whole : string) : outcome (string * string) :=
  match s with
  | EmptyString => Ret (EmptyString, whole)
  | String a s =>
      let next := getScheme_go (acc +:+ String a EmptyString) s whole in
      if is_lower a || is_upper a then next
      else if is_digit a || one_of "+-." a then
        if bool_decide (acc = EmptyString) then Ret (EmptyString, whole) else next
      else if Ascii.eqb a ":" then
        if bool_decide (acc = EmptyString) then Fail (Errorf "missing protocol scheme") else Ret (acc, s)
      else Ret (EmptyString, whole)
  end.
Definition getScheme (rawURL : string) : outcome (string * string) := getScheme_go EmptyString rawURL rawURL.

(** A colon and digits, or nothing. *)
Definition validOptionalPort (port : string) : bool :=
  match port with
  | EmptyString => true
  | String ":"%char digits => all_chars is_digit digits
  | _ => false
  end.

Definition of_option {A} (e : error) (o : option A) : outcome A :=
  match o with Some a => Ret a | None => Fail e end.
Definition escape_error : error := Errorf "invalid URL escape".
Definition port_error : error := Errorf "invalid port after host".

Definition parseHost (host : string) : outcome string :=
  if HasPrefix host "[" then
    match LastIndex host "]" with
    | None => Fail (Errorf "missing ']' in host")
    | Some i =>
        if negb (validOptionalPort (str_drop (S i) host)) then Fail port_error
        else match IndexStr "%25" (str_take i host) with
             | Some zone =>
                 host1 ← of_option escape_error (unescape (str_take zone host) encodeHost);
                 host2 ← of_option escape_error (unescape (str_drop zone (str_take i host)) encodeZone);
                 host3 ← of_option escape_error (unescape (str_drop i host) encodeHost);
                 Ret (host1 +:+ host2 +:+ host3)%string
             | None => of_option escape_error (unescape host encodeHost)
             end
    end
  else
    match LastIndex host ":" with
    | Some i => if negb (validOptionalPort (str_drop i host)) then Fail port_error
                else of_option escape_error (unescape host encodeHost)
    | None => of_option escape_error (unescape host encodeHost)
    end.

Definition validUserinfo (s : string) : bool := all_chars (λ a, alnum a || one_of "-._:~!$&'()*+,;=%@" a) s.

(** The host of an authority; the user information is only checked. *)
Definition parseAuthority (authority : string) : outcome string :=
  match LastIndex authority "@" with
  | None => parseHost authority
  | Some i =>
      host ← parseHost (str_drop (S i) authority);
      let userinfo := str_take i authority in
      if negb (validUserinfo userinfo) then Fail (Errorf "net/url: invalid userinfo")
      else let '(username, password) := Cut ":" userinfo in
        _ ← of_option escape_error (unescape username encodeUserPassword);
        _ ← of_option escape_error (unescape password encodeUserPassword);
        Ret host
  end.

Definition stringContainsCTLByte (s : string) : bool :=
  negb (all_chars (λ a, (32 <=? nat_of_ascii a) && negb (nat_of_ascii a =? 127)) s).

Definition setPath (scheme host query p : string) : outcome URL :=
  path ← of_option escape_error (unescape p encodePath);
  Ret (MkURL scheme host path (if bool_decide (p = escape path encodePath) then EmptyString else p) query).

(** [parse] without a request; a rootless path with a scheme is opaque. *)
Definition parse (rawURL : string) : outcome URL :=
  if stringContainsCTLByte rawURL then Fail (Errorf "net/url: invalid control character in URL")
  else if bool_decide (rawURL = "*"%string) then Ret (MkURL "" "" "*" "" "")
  else
    '(scheme, rest) ← getScheme rawURL;
    let scheme := ToLower scheme in
    let '(rest, query) := if HasSuffix rest "?" && (Count "?" rest =? 1)
                          then (TrimSuffix rest "?", EmptyString) else Cut "?" rest in
    if negb (HasPrefix rest "/") && negb (bool_decide (scheme = EmptyString))
    then Ret (MkURL scheme "" "" "" query)
    else if negb (HasPrefix rest "/") && Contains (fst (Cut "/" rest)) ":"
    then Fail (Errorf "first path segment in URL cannot contain colon")
    else if (negb (bool_decide (scheme = EmptyString)) || negb (HasPrefix rest "///")) && HasPrefix rest "//" then
      let authority := str_drop 2 rest in
      let '(authority, rest) := match IndexStr "/" authority with
                                | Some i => (str_take i authority, str_drop i authority)
                                | None => (authority, EmptyString)
                                end in
      host ← parseAuthority authority;
      setPath scheme host query rest
    else setPath scheme "" query rest.

(** [url.Parse]: the fragment is cut off first, and must be well escaped. *)
Definition Parse (rawURL : string) : outcome URL :=
  let '(u, frag) := Cut "#" rawURL in
  url ← parse u;
  if bool_decide (frag = EmptyString) then Ret url
  else _ ← of_option escape_error (unescape frag encodeFragment); Ret url.

Definition EscapedPath (u : URL) : string :=
  if negb (bool_decide (u_RawPath u = EmptyString)) && validEncoded (u_RawPath u) encodePath &&
     bool_decide (unescape (u_RawPath u) encodePath = Some (u_Path u)) then u_RawPath u
  else if bool_decide (u_Path u = "*"%string) then "*" else escape (u_Path u) encodePath.

(** [Values]: a multimap. *)
Abbreviation Values := (gmap string (list string)).

(** One pair of a query, [None] when it is skipped. *)
Definition parsePair (key : string) : option (string * string) :=
  if 0 <? Count ";" key then None
  else if bool_decide (key = EmptyString) then None
  else let '(key, value) := Cut "=" key in
    key ← unescape key encodeQueryComponent;
    value ← unescape value encodeQueryComponent;
    Some (key, value).

Definition addPair (m : Values) (pair : string) : Values :=
  match parsePair pair with
  | Some (k, v) => <[k := (default [] (m !! k) ++ [v])%list]> m
  | None => m
  end.

(** [u.Query()]: malformed pairs are dropped without an error. *)
Definition parseQuery (query : string) : Values := fold_left addPair (Split "&" query) ∅.
Definition Query (u : URL) : Values := parseQuery (u_RawQuery u).

(** The node strings of the program. *)
Example parse_nodes :
  (λ s, match Parse s with Ret u => Some (u_Scheme u, u_Host u, EscapedPath u, parseQuery (u_RawQuery u) !! "net"%string) | _ => None end)
    <$> ["tun:/127.0.0.1:8422?net=223.254.0.102/16&route=223.254.0.0/16"; "tcp://:10800"; "gtcp://:10801";
         "tun://:8422?net=223.254.0.100/16&net="; "tun://:8422&net=2"; ":80"; "tcp://[::1]:80/a%20b"]%string
  = [Some ("tun", "", "/127.0.0.1:8422", Some ["223.254.0.102/16"]);
     Some ("tcp", ":10800", "", None); Some ("gtcp", ":10801", "", None);
     Some ("tun", ":8422", "", Some ["223.254.0.100/16"; ""]); None; None;
     Some ("tcp", "[::1]:80", "/a%20b", None)]%string.
Proof. vm_compute. reflexivity. Qed.

(** ** Host and port *)

(** [net.SplitHostPort]; [None] is the error. *)
Definition SplitHostPort (hostport : string) : option (string * string) :=
  i ← LastIndex hostport ":";
  let port := str_drop (S i) hostport in
  if HasPrefix hostport "[" then
    end_ ← IndexStr "]" hostport;
    if negb (S end_ =? i) then None
    else if one_of (str_drop 1 hostport) "[" || one_of (str_drop (S end_) hostport) "]" then None
    else Some (str_drop 1 (str_take end_ hostport), port)
  else
    let host := str_take i hostport in
    if one_of host ":" || one_of hostport "[" || one_of hostport "]" then None else Some (host, port).

(** [net.JoinHostPort]. *)
Definition JoinHostPort (host port : string) : string :=
  if one_of host ":" then ("[" +:+ host +:+ "]:" +:+ port)%string else (host +:+ ":" +:+ port)%string.

(** ** Facts *)

Lemma all_chars_app p s t : all_chars p (s +:+ t) = all_chars p s && all_chars p t.
Proof. induction s as [|a s IH]; [done|]. rewrite str_app_cons. cbn. by rewrite IH, andb_assoc. Qed.

Lemma all_chars_impl (p q : ascii → bool) s :
  (∀ a, p a = true → q a = true) → all_chars p s = true → all_chars q s = true.
Proof. intros H. induction s as [|a s IH]; [done|]. cbn. rewrite !andb_true_iff. naive_solver. Qed.

Lemma all_chars_Count p s c : all_chars p s = true → p c = false → Count c s = 0.
Proof.
  intros Hs Hc. induction s as [|a s IH]; [done|]. cbn in Hs |- *. apply andb_true_iff in Hs as [Ha Hs].
  destruct (Ascii.eqb_spec a c) as [->|]; [congruence|]. by rewrite IH.
Qed.

Lemma Count_all_chars p s : (∀ c, p c = false → Count c s = 0) → all_chars p s = true.
Proof.
  intros H. induction s as [|a s IH]; [done|]. cbn. apply andb_true_iff. split.
  - destruct (p a) eqn:E; [done|]. specialize (H a E). cbn in H. by rewrite Ascii.eqb_refl in H.
  - apply IH. intros c Hc. specialize (H c Hc). cbn in H. lia.
Qed.

Lemma all_chars_Join p sep l :
  all_chars p sep = true → Forall (λ s, all_chars p s = true) l → all_chars p (Join sep l) = true.
Proof.
  intros Hsep. induction 1 as [|s l Hs Hl IH]; [done|]. destruct (decide (l = [])) as [->|Hne]; [done|].
  rewrite Join_cons by done. by rewrite !all_chars_app, Hs, Hsep, IH.
Qed.

Lemma Cut_none c s : Count c s = 0 → Cut c s = (s, EmptyString).
Proof.
  induction s as [|a s IH]; [done|]. cbn. destruct (Ascii.eqb a c); [lia|]. intros H. by rewrite IH.
Qed.

Lemma Cut_app c s t : Count c s = 0 → Cut c (s +:+ String c t) = (s, t).
Proof.
  induction s as [|a s IH]; intros H.
  - change (EmptyString +:+ String c t) with (String c t). cbn. by rewrite Ascii.eqb_refl.
  - rewrite str_app_cons. cbn in H |- *. destruct (Ascii.eqb a c); [lia|]. by rewrite IH.
Qed.

Lemma TrimRight_all p s : all_chars (λ a, negb (p a)) s = true → TrimRightFunc p s = s.
Proof.
  induction s as [|a s IH]; [done|]. cbn. intros [Ha Hs]%andb_true_iff. apply negb_true_iff in Ha.
  rewrite IH by done. destruct s; [by rewrite Ha|done].
Qed.

Lemma TrimSpace_id s : all_chars (λ a, negb (is_space a)) s = true → TrimSpace s = s.
Proof.
  intros H. unfold TrimSpace. rewrite <-(TrimRight_all is_space s) at 2 by done. f_equal.
  destruct s as [|a s]; [done|]. cbn in H |- *. destruct (is_space a); [done|reflexivity].
Qed.

Lemma HasSuffix_char s t c : t ≠ EmptyString → Count c t = 0 → HasSuffix (s +:+ t) (String c EmptyString) = false.
Proof.
  intros Ht Hc. unfold HasSuffix. apply andb_false_iff. right. apply String.eqb_neq.
  intros E. assert (Count c (str_drop (String.length (s +:+ t) - 1) (s +:+ t)) = 1) as H1.
  { change 1 with (String.length (String c EmptyString)). rewrite E. cbn. by rewrite Ascii.eqb_refl. }
  assert (∀ u, str_drop (String.length s + u) (s +:+ t) = str_drop u t) as Hd.
  { intros u. clear. induction s as [|a s IH]; [done|]. rewrite str_app_cons. cbn. exact IH. }
  assert (String.length (s +:+ t) - 1 = String.length s + (String.length t - 1)) as El.
  { assert (String.length (s +:+ t) = String.length s + String.length t) as ->.
    { clear. induction s as [|a s IH]; [done|]. rewrite str_app_cons. cbn. by rewrite IH. }
    destruct t; [done|]. cbn. lia. }
  rewrite El, Hd in H1. clear -Hc H1. generalize dependent (String.length t - 1). intros n.
  revert n. induction t as [|a t IH]; intros n H1; [by destruct n|].
  destruct n as [|n]; cbn in Hc, H1 |- *; [lia|]. eapply (IH ltac:(lia) n). exact H1.
Qed.

(** Characters that a query carries unchanged: no separator, no escape, no space. *)
Definition plain_char (a : ascii) : bool :=
  (33 <=? nat_of_ascii a) && negb (nat_of_ascii a =? 127) && negb (one_of "#?&;%+=" a).
Abbreviation plain_string s := (all_chars plain_char s = true).

Lemma plain_Count s c : plain_char c = false → plain_string s → Count c s = 0.
Proof. intros Hc Hs. by eapply all_chars_Count. Qed.

Lemma plain_no_space s : plain_string s → all_chars (λ a, negb (is_space a)) s = true.
Proof.
  apply all_chars_impl. intros a. unfold plain_char, is_space. rewrite !andb_true_iff.
  intros [[H _] _]. apply Nat.leb_le in H. apply negb_true_iff, orb_false_iff. split.
  - apply andb_false_iff. right. apply Nat.leb_gt. lia.
  - apply Nat.eqb_neq. lia.
Qed.

Lemma unescape_plain s :
  Count "%" s = 0 → Count "+" s = 0 → unescape s encodeQueryComponent = Some s.
Proof.
  induction s as [|a s IH]; [done|]. intros H1 H2. cbn [Count] in H1, H2.
  destruct (Ascii.eqb a "%") eqn:E1; [lia|]. destruct (Ascii.eqb a "+") eqn:E2; [lia|].
  assert (unescape (String a s) encodeQueryComponent =
          String (if Ascii.eqb a "+" && true then " "%char else a) <$> unescape s encodeQueryComponent) as ->.
  { destruct a as [[] [] [] [] [] [] [] []]; reflexivity || discriminate E1. }
  rewrite E2, IH by lia. reflexivity.
Qed.

(** A query as [fmt.Sprintf] writes it. *)
Definition write_query (l : list (string * string)) : string :=
  Join "&" ((λ kv, kv.1 +:+ "=" +:+ kv.2)%string <$> l).

Lemma parsePair_plain k v :
  plain_string k → plain_string v → parsePair (k +:+ "=" +:+ v)%string = Some (k, v).
Proof.
  intros Hk Hv. unfold parsePair. rewrite !Count_app, (plain_Count k ";"), (plain_Count v ";") by done.
  change (0 <? 0 + (Count ";" "=" + 0)) with false. cbv iota. rewrite bool_decide_false by (by destruct k).
  change ("=" +:+ v)%string with (String "=" v). rewrite Cut_app by (by apply plain_Count).
  rewrite !unescape_plain by (by apply plain_Count). reflexivity.
Qed.

Lemma parseQuery_write l :
  l ≠ [] → Forall (λ kv, plain_string (kv.1) ∧ plain_string (kv.2)) l →
  parseQuery (write_query l) = fold_left (λ m kv, <[kv.1 := (default [] (m !! kv.1) ++ [kv.2])%list]> m) l ∅.
Proof.
  intros Hne Hl. unfold parseQuery, write_query. rewrite Split_Join.
  - generalize (∅ : Values). clear Hne. induction Hl as [|[k v] l [Hk Hv] Hl IH]; intros m; [done|].
    cbn [fmap list_fmap fold_left fst snd]. unfold addPair at 2. cbn in Hk, Hv.
    rewrite parsePair_plain by done. apply IH.
  - by destruct l.
  - apply Forall_fmap. eapply Forall_impl; [exact Hl|]. intros [k v] [Hk Hv]. cbn in *.
    by rewrite !Count_app, (plain_Count k "&"), (plain_Count v "&").
Qed.

(** ** The characters of a network *)

Definition cidr_char (a : ascii) : bool := bool_decide (is_Some (hex_digit a)) || one_of ":./" a.
Abbreviation cidr_string s := (all_chars cidr_char s = true).

Lemma cidr_char_plain a : cidr_char a = true → plain_char a && negb (Ascii.eqb a ",") = true.
Proof. destruct a as [[] [] [] [] [] [] [] []]; vm_compute; congruence. Qed.

Lemma digits_cidr acc s z : digits acc s = Some z → cidr_string s.
Proof.
  intros H. apply Count_all_chars. intros c Hc. eapply digits_Count; [|exact H].
  revert Hc. clear. destruct c as [[] [] [] [] [] [] [] []]; vm_compute; congruence.
Qed.

Lemma undecimal_cidr s z : undecimal s = Some z → cidr_string s.
Proof. destruct s; [done|]. apply digits_cidr. Qed.

Lemma parse_octet_cidr s b : parse_octet s = Some b → cidr_string s.
Proof.
  intros H. assert (is_Some (undecimal s)) as [z Hz]; [|by eapply undecimal_cidr].
  destruct (undecimal s) as [z|] eqn:E; [by eexists|].
  destruct s as [|[[] [] [] [] [] [] [] []] [|]]; unfold parse_octet in H; try rewrite E in H; discriminate H.
Qed.

Lemma parseIPv4_cidr s ip : parseIPv4 s = Some ip → cidr_string s.
Proof.
  intros H. rewrite <-(Join_Split "." s). unfold parseIPv4 in H.
  destruct (Split "." s) as [|a [|b [|c [|d []]]]]; try discriminate H.
  apply bind_Some in H as (? & Ha & H). apply bind_Some in H as (? & Hb & H).
  apply bind_Some in H as (? & Hc & H). apply bind_Some in H as (? & Hd & H).
  apply all_chars_Join; [done|]. repeat constructor; by eapply parse_octet_cidr.
Qed.

Lemma take_hex_cidr s n acc k z rest :
  take_hex s n acc = Some (k, z, rest) → cidr_string rest → cidr_string s.
Proof.
  revert n acc. induction s as [|a s IH]; intros n acc H Hr; [done|]. cbn [take_hex] in H.
  destruct (hex_digit a) as [d|] eqn:E; [|by injection H as <- <- <-].
  destruct (65535 <? acc * 16 + d)%Z; [discriminate|]. cbn. rewrite (IH _ _ H Hr), andb_true_r.
  unfold cidr_char. rewrite E. by rewrite bool_decide_true.
Qed.

Lemma v6_loop_cidr fuel s out ell o e : v6_loop fuel s out ell = Some (o, e, EmptyString) → cidr_string s.
Proof.
  revert s out ell. induction fuel as [|fuel IH]; intros s out ell H; cbn [v6_loop] in H; [by injection H as <- <- ->|].
  apply bind_Some in H as ([[n acc] rest] & Ht & H). destruct (n =? 0); [discriminate|].
  destruct rest as [|a rest]; [by eapply take_hex_cidr|].
  assert (a = "."%char ∨ a = ":"%char) as [-> | ->].
  { destruct a as [[] [] [] [] [] [] [] []]; (by left) || (by right) || discriminate H. }
  - destruct (_ && _); [discriminate|]. destruct (_ <? _); [discriminate|].
    apply bind_Some in H as (ip & Hip & _). by eapply parseIPv4_cidr.
  - eapply take_hex_cidr; [exact Ht|]. destruct rest as [|a rest]; [discriminate|].
    destruct (Ascii.eqb_spec a ":") as [->|Hne]; [|cbn; exact (IH _ _ _ H)].
    destruct ell; [discriminate|]. destruct rest as [|b rest]; [done|]. exact (IH _ _ _ H).
Qed.

(** What [parseIPv6] does with a leading ellipsis. *)
Lemma ellipsis_cidr s :
  ∃ t ell, match s with String ":"%char (String ":"%char s) => (s, Some 0) | _ => (s, None) end = (t, ell) ∧
    (cidr_string t → cidr_string s).
Proof.
  destruct s as [|a s]; [by exists EmptyString, None|].
  destruct (Ascii.eqb_spec a ":") as [->|Ha].
  - destruct s as [|b s]; [by exists ":"%string, None|]. destruct (Ascii.eqb_spec b ":") as [->|Hb].
    + by exists s, (Some 0).
    + exists (String ":" (String b s)), None. split; [|done]. destruct b as [[] [] [] [] [] [] [] []]; done.
  - exists (String a s), None. split; [|done]. destruct a as [[] [] [] [] [] [] [] []]; done.
Qed.

Lemma parseIPv6_cidr s ip : parseIPv6 s = Some ip → cidr_string s.
Proof.
  unfold parseIPv6. destruct (ellipsis_cidr s) as (t & ell & E & Ht). rewrite E. intros H. apply Ht.
  case_bool_decide as Hd; [by destruct Hd as [-> _]|].
  apply bind_Some in H as ([[out e] r] & Hv & H). case_bool_decide as Hr; [discriminate|].
  destruct (decide (r = EmptyString)) as [->|]; [|by destruct Hr]. by eapply v6_loop_cidr.
Qed.

Lemma ParseCIDR_cidr s r : ParseCIDR s = Some r → cidr_string s.
Proof.
  unfold ParseCIDR. intros H. apply bind_Some in H as ([addr mask] & Hc & H).
  assert (s = addr +:+ String "/" mask) as ->.
  { clear H. revert addr Hc. induction s as [|a s IH]; intros addr Hc; [discriminate|]. cbn in Hc.
    destruct (Ascii.eqb_spec a "/") as [->|]; [by injection Hc as <- <-|].
    apply bind_Some in Hc as ([l r'] & Hl & [= <- <-]). rewrite str_app_cons. by rewrite <-IH. }
  destruct (parseIPv4 addr) as [ip|] eqn:E4; apply bind_Some in H as (ip' & Hip & H);
    apply bind_Some in H as (n & Hn & _); rewrite all_chars_app; apply andb_true_iff; split.
  - by eapply parseIPv4_cidr.
  - cbn. by eapply undecimal_cidr.
  - by eapply parseIPv6_cidr.
  - cbn. by eapply undecimal_cidr.
Qed.

Lemma ParseCIDR_plain s r : ParseCIDR s = Some r → plain_string s ∧ Count "," s = 0.
Proof.
  intros H%ParseCIDR_cidr. apply (all_chars_impl _ (λ a, plain_char a && negb (Ascii.eqb a ","))) in H; [|apply cidr_char_plain].
  split; [|by eapply all_chars_Count]. eapply all_chars_impl; [|exact H]. intros a. by rewrite andb_true_iff; intros [].
Qed.
