(* ===== verification/Resolv.v ===== *)
(** * The resolver configuration of the host

    [pkg/dns/dns_linux.go], [dns_unix.go] (macOS) and [coredns.go], with the reader of
    [resolv.conf] of [miekg/dns] and the writer of [libnetwork/resolvconf] they call:
    while connected, the cluster's name servers and search domains are written to
    [/etc/resolv.conf] or to files of [/etc/resolver].  The files are a map from paths
    to contents; the commands of [systemd] and the DNS server of [caddy] are parameters. *)
From Stdlib Require Import ZArith Lia Ascii.
From Stdlib Require Import Strings.Byte.
From stdpp Require Import base gmap strings numbers list pretty.
From S2P Require Import Prelude GoStrings GoNet Config Hosts GoPath Url.

(** ** Lines and words *)

(** [strings.Fields]. *)
Fixpoint Fields_go (s cur : string) : list string :=
  match s with
  | EmptyString => if String.eqb cur "" then [] else [cur]
  | String a s =>
      if is_space a then
        (if String.eqb cur "" then [] else [cur]) ++ Fields_go s EmptyString
      else Fields_go s (cur +:+ String a EmptyString)
  end.
Definition Fields (s : string) : list string := Fields_go s EmptyString.

(** [dropCR]: [bufio.ScanLines] drops one trailing carriage return. *)
Definition dropCR (line : string) : string := TrimSuffix line (String "013" EmptyString).

(** [bufio.MaxScanTokenSize]: the scanner stops, with an error nobody reads, at a line
    that fills its buffer. *)
Definition MaxScanTokenSize : Z := 64 * 1024.
Fixpoint take_short (lines : list string) : list string :=
  match lines with
  | [] => []
  | l :: lines => if (MaxScanTokenSize <=? Z.of_nat (String.length l))%Z then []
                  else l :: take_short lines
  end.

(** The lines a [bufio.Scanner] yields: what follows the last newline is a line only
    when it is not empty. *)
Definition ScanLines (s : string) : list string :=
  let lines := Split newline s in
  let lines := if String.eqb (List.last lines EmptyString) "" then removelast lines else lines in
  dropCR <$> take_short lines.

(** ** [ClientConfig] *)

Record ClientConfig := MkClientConfig {
  Servers : list string; Search : list string; cc_Port : string;
  Ndots : Z; cc_Timeout : Z; Attempts : Z }.

#[export] Instance ClientConfig_eq_dec : EqDecision ClientConfig.
Proof. solve_decision. Defined.

Definition set_Servers (l : list string) (c : ClientConfig) : ClientConfig :=
  MkClientConfig l (Search c) (cc_Port c) (Ndots c) (cc_Timeout c) (Attempts c).
Definition set_Search (l : list string) (c : ClientConfig) : ClientConfig :=
  MkClientConfig (Servers c) l (cc_Port c) (Ndots c) (cc_Timeout c) (Attempts c).
Definition set_Ndots (n : Z) (c : ClientConfig) : ClientConfig :=
  MkClientConfig (Servers c) (Search c) (cc_Port c) n (cc_Timeout c) (Attempts c).
Definition set_Timeout (n : Z) (c : ClientConfig) : ClientConfig :=
  MkClientConfig (Servers c) (Search c) (cc_Port c) (Ndots c) n (Attempts c).
Definition set_Attempts (n : Z) (c : ClientConfig) : ClientConfig :=
  MkClientConfig (Servers c) (Search c) (cc_Port c) (Ndots c) (cc_Timeout c) n.

Definition clamp_ndots (n : Z) : Z := if (n <? 0)%Z then 0%Z else if (15 <? n)%Z then 15%Z else n.
Definition at_least_one (n : Z) : Z := if (n <? 1)%Z then 1%Z else n.

Definition parse_option (c : ClientConfig) (s : string) : ClientConfig :=
  if HasPrefix s "ndots:" then set_Ndots (clamp_ndots (Atoi_value (str_drop 6 s))) c
  else if HasPrefix s "timeout:" then set_Timeout (at_least_one (Atoi_value (str_drop 8 s))) c
  else if HasPrefix s "attempts:" then set_Attempts (at_least_one (Atoi_value (str_drop 9 s))) c
  else c.

(** One line, by its words. *)
Definition parse_line (c : ClientConfig) (f : list string) : ClientConfig :=
  match f with
  | [] => c
  | key :: args =>
      if String.eqb key "nameserver" then
        match args with name :: _ => set_Servers (Servers c ++ [name]) c | [] => c end
      else if String.eqb key "domain" then
        match args with d :: _ => set_Search [d] c | [] => set_Search [] c end
      else if String.eqb key "search" then set_Search args c
      else if String.eqb key "options" then fold_left parse_option args c
      else c
  end.

Definition default_config : ClientConfig := MkClientConfig [] [] "53" 1 5 2.

(** [miekgdns.ClientConfigFromReader]: it cannot fail. *)
Definition ClientConfigFromReader (content : string) : ClientConfig :=
  fold_left parse_line (Fields <$> ScanLines content) default_config.

(** ** Writers *)

(** [toString] of [dns_unix.go]. *)
Definition toString (config : ClientConfig) : string :=
  (match Search config with [] => "" | l => "search " +:+ Join " " l +:+ nl end) +:+
  String.concat "" (map (λ s, "nameserver " +:+ s +:+ nl) (Servers config)) +:+
  (if String.eqb (cc_Port config) "" then "" else "port " +:+ cc_Port config +:+ nl) +:+
  "options ndots:" +:+ Itoa (Ndots config) +:+ nl +:+
  "options timeout:" +:+ Itoa (cc_Timeout config) +:+ nl.

(** [strings.Trim(s, " ")]. *)
Definition TrimBlanks (s : string) : string :=
  TrimRightFunc (Ascii.eqb " ") (TrimLeftFunc (Ascii.eqb " ") s).

(** The content [resolvconf.Build] writes. *)
Definition Build (dns dnsSearch dnsOptions : list string) : string :=
  (match dnsSearch with
   | [] => ""
   | l => let s := Join " " l in
          if String.eqb (TrimBlanks s) "." then "" else "search " +:+ s +:+ nl
   end) +:+
  String.concat "" (map (λ s, "nameserver " +:+ s +:+ nl) dns) +:+
  (match dnsOptions with
   | [] => ""
   | l => let s := Join " " l in
          if String.eqb (TrimBlanks s) "" then "" else "options " +:+ s +:+ nl
   end).

Definition resolv_options (config : ClientConfig) : list string :=
  (if (Ndots config =? 0)%Z then [] else ["ndots:" +:+ Itoa (Ndots config)]) ++
  (if (Attempts config =? 0)%Z then [] else ["attempts:" +:+ Itoa (Attempts config)]) ++
  (if (cc_Timeout config =? 0)%Z then [] else ["timeout:" +:+ Itoa (cc_Timeout config)]).

(** ** Files *)

Abbreviation Files := (gmap string string).

(** [pkg/dns.Config]. *)
Record DNSConfig := MkDNSConfig {
  d_Config : ClientConfig; d_Ns : list string; d_UseLocalDNS : bool;
  d_TunName : string; d_Lite : bool; d_Hosts : list Entry }.

Definition resolv_conf : string := "/etc/resolv.conf".
Definition getBackupFilename (filename : string) : string := filename +:+ ".kubevpn_backup".
Definition GetHostFile : string := "/etc/hosts".
Definition resolver_dir : string := "/etc/resolver".

Section files.
(** Paths the process may not write. *)
Context (denied : string → bool).

Definition WriteFile (path content : string) (fs : Files) : Files * option error :=
  if denied path then (fs, Some (Errorf "permission denied")) else (<[path:=content]> fs, None).

Definition Rename (from to : string) (fs : Files) : Files * option error :=
  if denied from || denied to then (fs, Some (Errorf "permission denied"))
  else match fs !! from with
       | None => (fs, Some NotFound)
       | Some content => (<[to:=content]> (delete from fs), None)
       end.

(** [WriteResolvConf]. *)
Definition WriteResolvConf (config : ClientConfig) (fs : Files) : Files * option error :=
  WriteFile resolv_conf (Build (Servers config) (Search config) (resolv_options config)) fs.

(** [c.updateHosts] on the hosts file. *)
Definition update_hosts_file (hosts : list Entry) (str : string) (fs : Files) : outcome Files :=
  match fs !! GetHostFile with
  | None => Ret fs
  | Some file =>
      match updateHosts hosts str file with
      | Ret s => Ret (WriteFile GetHostFile s fs).1
      | Fail _ => Ret fs
      | Panic => Panic
      end
  end.
End files.

(** ** [BuildCoreFile] *)

Record CoreFileTmpl := MkCoreFileTmpl { UpstreamDNS : string; Nameservers : string }.

Definition tab : string := String "009" EmptyString.
Definition BuildCoreFile (t : CoreFileTmpl) : string :=
  nl +:+ ".:53 {" +:+ nl +:+
  "    bind 127.0.0.1" +:+ nl +:+
  "    forward cluster.local " +:+ UpstreamDNS t +:+ nl +:+
  "    forward . " +:+ Nameservers t +:+ " " +:+ UpstreamDNS t +:+ " {" +:+ nl +:+
  tab +:+ "policy sequential" +:+ nl +:+
  tab +:+ "max_concurrent 1" +:+ nl +:+
  "    }" +:+ nl +:+
  "    cache 30" +:+ nl +:+
  "    log" +:+ nl +:+
  "    errors" +:+ nl +:+
  "    reload" +:+ nl +:+
  "}".

(** ** Linux: [SetupDNS] and [CancelDNS] *)

Section linux.
Context (denied : string → bool).
(** [exec.Command]: what a command with these arguments does to the files. *)
Context (exec : list string → Files → Files).
(** [caddy.Start] on a core file. *)
Context (caddy_Start : string → option error).

Definition SetupLocalDNS (config : ClientConfig) (existNameservers : list string)
  : outcome (option error) :=
  match Servers config with
  | [] => Panic
  | s :: _ => Ret (caddy_Start (BuildCoreFile (MkCoreFileTmpl s (Join " " existNameservers))))
  end.

(** The command line handed to [systemd-resolve], which indexes the configuration. *)
Definition systemd_resolve_args (config : ClientConfig) (tunName : string) : outcome (list string) :=
  match Servers config, Search config with
  | s :: _, d0 :: d1 :: d2 :: _ =>
      Ret ["systemd-resolve"; "--set-dns"; s; "--interface"; tunName;
           "--set-domain=" +:+ d0; "--set-domain=" +:+ d1; "--set-domain=" +:+ d2]
  | _, _ => Panic
  end.

Definition systemctl (fs : Files) : Files :=
  exec ["systemctl"; "status"; "systemd-resolved.service"]
    (exec ["systemctl"; "start"; "systemd-resolved.service"]
      (exec ["systemctl"; "enable"; "systemd-resolved.service"] fs)).

(** The name servers and search domains of the host before the connection. *)
Definition existing (fs : Files) : list string * list string :=
  match fs !! resolv_conf with
  | None => ([], [])
  | Some content => let c := ClientConfigFromReader content in (Servers c, Search c)
  end.

(** [SetupDNS]: the configuration is shared with the caller, so its new value is part
    of the result, with the files and the error. *)
Definition SetupDNS (c : DNSConfig) (fs : Files)
  : outcome (ClientConfig * Files * option error) :=
  let '(existNameservers, existSearches) := existing fs in
  let config := d_Config c in
  local ← if d_UseLocalDNS c then
            err ← SetupLocalDNS config existNameservers;
            match err with
            | Some e => Ret (config, Some e)
            | None => Ret (set_Servers ("127.0.0.1" :: tail (Servers config)) config, None)
            end
          else Ret (config, None);
  match local with
  | (config, Some e) => Ret (config, fs, Some e)
  | (config, None) =>
      let fs := systemctl fs in
      args ← systemd_resolve_args config (d_TunName c);
      let fs := exec args fs in
      let config := set_Servers (Servers config ++ existNameservers) config in
      let config := set_Search (Search config ++ existSearches) config in
      let fs := if d_Lite c then fs
                else (Rename denied resolv_conf (getBackupFilename resolv_conf) fs).1 in
      let '(fs, err) := WriteResolvConf denied config fs in
      Ret (config, fs, err)
  end.

Definition CancelDNS (c : DNSConfig) (fs : Files) : outcome Files :=
  fs ← update_hosts_file denied (d_Hosts c) "" fs;
  Ret (if d_Lite c then fs
       else (Rename denied (getBackupFilename resolv_conf) resolv_conf fs).1).
End linux.

(** ** macOS: the files of [/etc/resolver] *)

(** [net.IP.IsLoopback], of a parsed address or [nil]. *)
Definition IsLoopback (ip : option IP) : bool :=
  match ip with
  | None => false
  | Some ip =>
      match To4 ip with
      | Some ip4 => match ip4 with b :: _ => bool_decide (b = x7f) | [] => false end
      | None => IP_Equal ip (replicate 15 x00 ++ [x01])
      end
  end.

Section darwin.
Context (denied : string → bool).

Definition resolver_file (s : string) : string := PathJoin resolver_dir s.

(** What happens to the file of one name: it is created with the forward server's
    configuration, or the cluster's server is added to what it holds.  The directory
    itself, the path of the empty name, cannot be read as a file. *)
Definition update_resolver (cluster config : ClientConfig) (fs : Files) (s : string)
  : outcome Files :=
  let filename := resolver_file s in
  if String.eqb filename resolver_dir then Ret fs
  else match fs !! filename with
  | None => Ret (WriteFile denied filename (toString config) fs).1
  | Some content =>
      let conf := ClientConfigFromReader content in
      match Servers cluster with
      | [] => Panic
      | s0 :: _ =>
          if bool_decide (s0 ∈ Servers conf) then Ret fs
          else if IsLoopback (ParseIP s0) then Ret fs
          else
            let conf := set_Servers (Servers conf ++ [s0]) conf in
            if length (Servers conf) <=? 3
            then Ret (WriteFile denied filename (toString conf) fs).1 else Ret fs
      end
  end.

(** [usingResolver], with the port [GetAvailableUDPPortOrDie] found, if it did. *)
Definition usingResolver (c : DNSConfig) (port : option Z) (fs : Files) : outcome Files :=
  let cluster := d_Config c in
  let config := MkClientConfig (Servers cluster) (Search cluster) "" 5 2 0 in
  let fs := if d_Lite c then fs
            else (WriteFile denied (resolver_file "local") (toString config) fs).1 in
  match port with
  | None => Ret fs
  | Some port =>
      let config := MkClientConfig ["127.0.0.1"] (Search cluster) (Itoa port) (Ndots cluster) 2 0 in
      match Search cluster with
      | [] => Panic
      | s0 :: _ =>
          foldl (λ fs s, fs ← fs; update_resolver cluster config fs s) (Ret fs)
            (remove_dups (Split "." s0 ++ d_Ns c))
      end
  end.

(** A path of the directory [/etc/resolver]. *)
Definition in_resolver (path : string) : bool := HasPrefix path (resolver_dir +:+ "/").

(** [CancelDNS]: the whole directory goes, unless the connection is a lite one. *)
Definition CancelDNS_darwin (c : DNSConfig) (fs : Files) : outcome Files :=
  let fs := if d_Lite c then fs
            else filter (λ f, in_resolver f.1 = false) fs in
  update_hosts_file denied (d_Hosts c) "" fs.
End darwin.

(** ** Reading what was written *)

Abbreviation solid s := (all_chars (λ a, negb (is_space a)) s = true).
Definition word (w : string) : Prop := w ≠ "" ∧ solid w.

#[export] Instance word_dec w : Decision (word w).
Proof. unfold word. apply _. Defined.

Lemma Fields_go_word w s cur : solid w → Fields_go (w +:+ s) cur = Fields_go s (cur +:+ w).
Proof.
  revert cur. induction w as [|a w IH]; intros cur; [by rewrite str_app_nil_r|].
  cbn [all_chars]. rewrite andb_true_iff, negb_true_iff. intros [Ha Hw].
  rewrite str_app_cons. cbn [Fields_go]. rewrite Ha, IH by done.
  by rewrite str_app_assoc, str_app_cons.
Qed.

Lemma Fields_Join ws : Forall word ws → Fields (Join " " ws) = ws.
Proof.
  unfold Fields. induction 1 as [|w ws [Hne Hw] Hws IH]; [done|].
  assert (E : String.eqb w "" = false) by (by apply String.eqb_neq).
  destruct (decide (ws = [])) as [->|Hnil].
  { cbn [Join]. rewrite <-(str_app_nil_r w) at 1. rewrite Fields_go_word by done.
    cbn [Fields_go]. change ("" +:+ w) with w. by rewrite E. }
  rewrite Join_cons, Fields_go_word by done. change ("" +:+ w) with w.
  change (" " +:+ Join " " ws) with (String " " (Join " " ws)). cbn [Fields_go is_space].
  change (is_space " ") with true. by rewrite E, IH.
Qed.

Definition write_lines (ls : list string) : string := String.concat "" (map (λ l, l +:+ nl) ls).

Lemma concat_cons s l : String.concat "" (s :: l) = s +:+ String.concat "" l.
Proof. destruct l; [by rewrite str_app_nil_r|done]. Qed.

Lemma concat_app l k : String.concat "" (l ++ k)%list = String.concat "" l +:+ String.concat "" k.
Proof.
  induction l as [|s l IH]; [done|]. cbn [app]. by rewrite !concat_cons, IH, str_app_assoc.
Qed.

Lemma write_lines_app ls ks : write_lines (ls ++ ks)%list = write_lines ls +:+ write_lines ks.
Proof. unfold write_lines. by rewrite map_app, concat_app. Qed.

Lemma Split_write_lines ls :
  Forall (λ l, Count newline l = 0) ls → Split newline (write_lines ls) = (ls ++ [""])%list.
Proof.
  induction 1 as [|l ls Hl Hls IH]; [done|]. unfold write_lines in *. cbn [map].
  rewrite concat_cons, str_app_assoc.
  change (nl +:+ ?x) with (String newline x). by rewrite Split_app, IH.
Qed.

Definition short (l : string) : Prop := (Z.of_nat (String.length l) < MaxScanTokenSize)%Z.

Lemma take_short_id ls : Forall short ls → take_short ls = ls.
Proof.
  induction 1 as [|l ls Hl _ IH]; [done|]. cbn. unfold short in Hl.
  rewrite (proj2 (Z.leb_gt _ _)) by done. by rewrite IH.
Qed.

Lemma solid_Join l : Forall word l →
  all_chars (λ a, negb (is_space a) || Ascii.eqb a " ") (Join " " l) = true.
Proof.
  intros H. apply all_chars_Join; [done|]. eapply Forall_impl; [exact H|].
  intros w [_ Hw]. eapply all_chars_impl; [|exact Hw]. by intros a ->.
Qed.

Lemma str_drop_Count n s c : Count c (str_drop n s) ≤ Count c s.
Proof.
  revert n. induction s as [|a s IH]; intros [|n]; cbn; try done. pose proof (IH n).
  destruct (Ascii.eqb _ _); lia.
Qed.

Lemma HasSuffix_last_char l c : HasSuffix l (String c "") = true → 0 < Count c l.
Proof.
  unfold HasSuffix. rewrite andb_true_iff, String.eqb_eq. intros [_ H].
  pose proof (str_drop_Count (String.length l - String.length (String c "")) l c) as Hc.
  rewrite H in Hc. cbn [Count] in Hc. rewrite Ascii.eqb_refl in Hc. lia.
Qed.

Lemma dropCR_id l : Count "013" l = 0 → dropCR l = l.
Proof.
  intros H. unfold dropCR, TrimSuffix. destruct (HasSuffix _ _) eqn:E; [|done].
  apply HasSuffix_last_char in E. lia.
Qed.

Lemma ScanLines_write ls :
  Forall (λ l, Count newline l = 0 ∧ Count "013" l = 0 ∧ short l) ls →
  ScanLines (write_lines ls) = ls.
Proof.
  intros H. unfold ScanLines. rewrite Split_write_lines by (eapply Forall_impl; [exact H|]; by intros ? (?&?&?)).
  rewrite last_last. cbn [String.eqb]. rewrite removelast_last.
  rewrite take_short_id by (eapply Forall_impl; [exact H|]; by intros ? (?&?&?)).
  induction H as [|l ls (_ & H & _) _ IH]; [done|]. cbn. by rewrite dropCR_id, IH.
Qed.

(** A file of lines of words is read as those words. *)
Lemma reader_words (ws : list (list string)) :
  Forall (λ l, Forall word l ∧ short (Join " " l)) ws →
  ClientConfigFromReader (write_lines (Join " " <$> ws)) = fold_left parse_line ws default_config.
Proof.
  intros H. unfold ClientConfigFromReader. rewrite ScanLines_write.
  - f_equal. induction H as [|l ws [Hl _] _ IH]; [done|]. cbn. by rewrite Fields_Join, IH.
  - apply Forall_fmap. eapply Forall_impl; [exact H|]. intros l [Hl Hs]; cbn.
    apply solid_Join in Hl. split_and!; [by eapply all_chars_Count..|done].
Qed.

Lemma short_lines ls : short (write_lines ls) → Forall short ls.
Proof.
  unfold short. induction ls as [|l ls IH]; intros H; constructor.
  all: unfold write_lines in *; cbn [map] in H; rewrite concat_cons, !length_str_app in H.
  - lia.
  - apply IH. lia.
Qed.

Lemma solid_app s t : solid s → solid t → solid (s +:+ t).
Proof. intros Hs Ht. by rewrite all_chars_app, Hs, Ht. Qed.

Lemma solid_Itoa z : solid (Itoa z).
Proof.
  assert (N : ∀ z, (0 ≤ z)%Z → solid (Itoa z)).
  { intros n Hn. apply Count_all_chars. intros c Hc. apply negb_false_iff in Hc.
    apply Count_Itoa; [|done]. revert Hc. by destruct c as [[] [] [] [] [] [] [] []]. }
  destruct z as [|p|p]; [apply N; lia|apply N; lia|].
  change (Itoa (Z.neg p)) with ("-" +:+ Itoa (Z.pos p)). apply solid_app; [done|]. apply N; lia.
Qed.

Lemma word_app s t : word s → solid t → word (s +:+ t).
Proof. intros [Hs Hs'] Ht. split; [|by apply solid_app]. by destruct s. Qed.

#[export] Hint Resolve solid_Itoa word_app : kubevpn.

(** The lines of the two writers, as lists of words. *)
Definition search_words (l : list string) : list (list string) :=
  match l with [] => [] | _ => ["search" :: l] end.
Definition server_words (l : list string) : list (list string) := (λ s, ["nameserver"; s]) <$> l.

Definition toString_words (c : ClientConfig) : list (list string) :=
  search_words (Search c) ++ server_words (Servers c) ++
  (if String.eqb (cc_Port c) "" then [] else [["port"; cc_Port c]]) ++
  [["options"; "ndots:" +:+ Itoa (Ndots c)]; ["options"; "timeout:" +:+ Itoa (cc_Timeout c)]].

Lemma write_search l :
  write_lines (Join " " <$> search_words l)
  = match l with [] => "" | _ => "search " +:+ Join " " l +:+ nl end.
Proof.
  destruct l as [|s l]; [done|]. set (l' := s :: l).
  change (Join " " <$> search_words l') with [Join " " ("search" :: l')].
  rewrite Join_cons by done. unfold write_lines. cbn [map].
  by rewrite concat_cons, str_app_nil_r, !str_app_assoc.
Qed.

Lemma write_servers l :
  write_lines (Join " " <$> server_words l)
  = String.concat "" (map (λ s, "nameserver " +:+ s +:+ nl) l).
Proof.
  unfold write_lines, server_words. f_equal. induction l as [|s l IH]; [done|].
  cbn [fmap list_fmap map] in *. rewrite IH. f_equal.
Qed.

Lemma write_line_words k w : write_lines [Join " " [k; w]] = k +:+ " " +:+ w +:+ nl.
Proof.
  unfold write_lines. cbn [map]. rewrite concat_cons, Join_cons by done.
  by rewrite str_app_nil_r, !str_app_assoc.
Qed.

Lemma toString_lines c : toString c = write_lines (Join " " <$> toString_words c).
Proof.
  unfold toString, toString_words.
  rewrite !fmap_app, !write_lines_app, write_search, write_servers.
  f_equal; [by destruct (Search c)|]. f_equal.
  destruct (String.eqb (cc_Port c) ""); cbn [fmap list_fmap].
  all: rewrite ?write_line_words; change ([?a; ?b]) with ([a] ++ [b])%list.
  all: by rewrite write_lines_app, !write_line_words, ?str_app_assoc.
Qed.

Definition wf_config (c : ClientConfig) : Prop :=
  Forall word (Servers c) ∧ Forall word (Search c) ∧ (cc_Port c = "" ∨ word (cc_Port c)).

Ltac words := repeat (apply Forall_cons_2); try apply Forall_nil_2; auto with kubevpn;
  try (apply word_app; auto with kubevpn); try done.

Lemma search_words_ok l : Forall word l → Forall (Forall word) (search_words l).
Proof. intros H. destruct l; [constructor|]. constructor; [by constructor|constructor]. Qed.
Lemma server_words_ok l : Forall word l → Forall (Forall word) (server_words l).
Proof. intros H. apply Forall_fmap. eapply Forall_impl; [exact H|]. intros s Hs. words. Qed.

Lemma toString_words_ok c : wf_config c → Forall (Forall word) (toString_words c).
Proof.
  intros (Hs & Hd & Hp). unfold toString_words.
  rewrite !Forall_app; split_and!; auto using search_words_ok, server_words_ok.
  - destruct (String.eqb (cc_Port c) "") eqn:E; [done|]. apply String.eqb_neq in E.
    destruct Hp; [done|]. words.
  - words.
Qed.

Lemma fold_servers l rest c :
  fold_left parse_line (server_words l ++ rest) c
  = fold_left parse_line rest (set_Servers (Servers c ++ l) c).
Proof.
  revert c. induction l as [|s l IH]; intros c; [by rewrite app_nil_r; destruct c|].
  cbn [server_words fmap list_fmap app fold_left]. rewrite IH. cbn. by rewrite <-app_assoc.
Qed.

Lemma fold_search l rest c :
  Search c = [] →
  fold_left parse_line (search_words l ++ rest) c = fold_left parse_line rest (set_Search l c).
Proof. intros H. destruct l; [|done]. cbn. rewrite <-H. by destruct c. Qed.

Lemma short_words ws : Forall (Forall word) ws → short (write_lines (Join " " <$> ws)) →
  Forall (λ l, Forall word l ∧ short (Join " " l)) ws.
Proof.
  intros H Hs%short_lines. rewrite Forall_fmap in Hs. apply Forall_and; split; [done|exact Hs].
Qed.

Lemma solid_not_blank s : solid s → all_chars (λ a, negb (Ascii.eqb " " a)) s = true.
Proof.
  apply all_chars_impl. intros a. destruct (Ascii.eqb_spec " " a) as [<-|]; [done|done].
Qed.

Lemma TrimRight_Join l : l ≠ [] → Forall word l →
  TrimRightFunc (Ascii.eqb " ") (Join " " l) = Join " " l ∧ Join " " l ≠ "".
Proof.
  intros Hne H. induction H as [|w l [Hw Hs] Hl IH]; [done|].
  destruct (decide (l = [])) as [->|Hnil].
  { cbn [Join]. split; [|done]. by apply TrimRight_all, solid_not_blank. }
  destruct (IH Hnil) as [E E']. rewrite Join_cons by done. split; [|by destruct w].
  rewrite <-str_app_assoc, TrimRight_app by (by rewrite E). by rewrite E.
Qed.

Lemma TrimBlanks_Join l : l ≠ [] → Forall word l → TrimBlanks (Join " " l) = Join " " l.
Proof.
  intros Hne H. destruct (TrimRight_Join l Hne H) as [E _]. unfold TrimBlanks.
  destruct H as [|w l [Hw Hs] Hl]; [done|].
  assert (∃ a s, Join " " (w :: l) = String a s ∧ is_space a = false) as (a & s & Hj & Ha).
  { destruct w as [|a w]; [done|]. cbn [all_chars] in Hs.
    apply andb_true_iff in Hs as [Ha _]. apply negb_true_iff in Ha.
    destruct (decide (l = [])) as [->|]; [by exists a, w|].
    rewrite Join_cons, str_app_cons by done. eauto. }
  rewrite Hj in *. cbn [TrimLeftFunc].
  destruct (Ascii.eqb_spec " " a) as [<-|]; [done|]. exact E.
Qed.

Definition Build_words (dns dnsSearch dnsOptions : list string) : list (list string) :=
  search_words dnsSearch ++ server_words dns ++
  match dnsOptions with [] => [] | l => ["options" :: l] end.

Lemma Build_lines dns dnsSearch dnsOptions :
  Forall word dnsSearch → dnsSearch ≠ ["."] → Forall word dnsOptions →
  Build dns dnsSearch dnsOptions = write_lines (Join " " <$> Build_words dns dnsSearch dnsOptions).
Proof.
  intros Hs Hdot Ho. unfold Build, Build_words.
  rewrite !fmap_app, !write_lines_app, write_search, write_servers. f_equal; [|f_equal].
  - destruct dnsSearch as [|d l]; [done|]. cbn zeta. rewrite TrimBlanks_Join by done.
    destruct (String.eqb_spec (Join " " (d :: l)) ".") as [E|]; [|done].
    destruct (decide (l = [])) as [->|Hl]; [by cbn in E; subst|].
    rewrite Join_cons in E by done. apply (f_equal (Count " ")) in E.
    rewrite !Count_app in E. change (Count " " " ") with 1 in E. change (Count " " ".") with 0 in E. lia.
  - destruct dnsOptions as [|d l]; [done|]. cbn zeta. rewrite TrimBlanks_Join by done.
    destruct (TrimRight_Join (d :: l) ltac:(done) Ho) as [_ E]. apply String.eqb_neq in E. rewrite E.
    set (l' := d :: l). change (Join " " <$> ["options" :: l']) with [Join " " ("options" :: l')].
    rewrite Join_cons by done. unfold write_lines. cbn [map].
    by rewrite concat_cons, str_app_nil_r, !str_app_assoc.
Qed.

Lemma resolv_options_ok c : Forall word (resolv_options c).
Proof.
  unfold resolv_options. rewrite !Forall_app; split_and!; case_match; words.
Qed.

Lemma Build_words_ok dns dnsSearch c :
  Forall word dns → Forall word dnsSearch →
  Forall (Forall word) (Build_words dns dnsSearch (resolv_options c)).
Proof.
  intros Hs Hd. unfold Build_words.
  rewrite !Forall_app; split_and!; auto using search_words_ok, server_words_ok.
  pose proof (resolv_options_ok c) as H. destruct (resolv_options c); [constructor|].
  constructor; [by constructor|constructor].
Qed.

Lemma Atoi_value_Itoa z : int_range z = true → Atoi_value (Itoa z) = z.
Proof. unfold int_range. intros H. apply Atoi_value_Atoi, Atoi_Itoa. lia. Qed.

Lemma parse_ndots c z : int_range z = true →
  parse_option c ("ndots:" +:+ Itoa z) = set_Ndots (clamp_ndots z) c.
Proof.
  intros H. unfold parse_option. rewrite HasPrefix_app.
  rewrite (str_drop_app "ndots:"). by rewrite Atoi_value_Itoa.
Qed.
Lemma parse_timeout c z : int_range z = true →
  parse_option c ("timeout:" +:+ Itoa z) = set_Timeout (at_least_one z) c.
Proof.
  intros H. unfold parse_option. change (HasPrefix ("timeout:" +:+ Itoa z) "ndots:") with false.
  rewrite HasPrefix_app. rewrite (str_drop_app "timeout:"). by rewrite Atoi_value_Itoa.
Qed.
Lemma parse_attempts c z : int_range z = true →
  parse_option c ("attempts:" +:+ Itoa z) = set_Attempts (at_least_one z) c.
Proof.
  intros H. unfold parse_option. change (HasPrefix ("attempts:" +:+ Itoa z) "ndots:") with false.
  change (HasPrefix ("attempts:" +:+ Itoa z) "timeout:") with false.
  rewrite HasPrefix_app. rewrite (str_drop_app "attempts:"). by rewrite Atoi_value_Itoa.
Qed.

(** Reading back the file of [toString]. *)
Lemma toString_read c :
  wf_config c → short (toString c) →
  int_range (Ndots c) = true → int_range (cc_Timeout c) = true →
  ClientConfigFromReader (toString c) =
    MkClientConfig (Servers c) (Search c) "53" (clamp_ndots (Ndots c)) (at_least_one (cc_Timeout c)) 2.
Proof.
  intros Hwf Hs Hn Ht. rewrite toString_lines in *.
  rewrite reader_words by (apply short_words; [by apply toString_words_ok|done]).
  unfold toString_words. rewrite fold_search, fold_servers by done.
  destruct (String.eqb (cc_Port c) ""); cbn -[parse_option Itoa]; by rewrite parse_ndots, parse_timeout.
Qed.

(** The configuration read back from what [WriteResolvConf] writes: zero options are
    not written and come back as the reader's defaults. *)
Definition written (c : ClientConfig) : ClientConfig :=
  MkClientConfig (Servers c) (Search c) "53"
    (if (Ndots c =? 0)%Z then 1%Z else clamp_ndots (Ndots c))
    (if (cc_Timeout c =? 0)%Z then 5%Z else at_least_one (cc_Timeout c))
    (if (Attempts c =? 0)%Z then 2%Z else at_least_one (Attempts c)).

Definition resolv_content (c : ClientConfig) : string :=
  Build (Servers c) (Search c) (resolv_options c).

Definition in_ranges (c : ClientConfig) : Prop :=
  int_range (Ndots c) = true ∧ int_range (cc_Timeout c) = true ∧ int_range (Attempts c) = true.

Lemma resolv_content_read c :
  Forall word (Servers c) → Forall word (Search c) → Search c ≠ ["."] →
  short (resolv_content c) → in_ranges c →
  ClientConfigFromReader (resolv_content c) = written c.
Proof.
  intros Hs Hd Hdot Hshort (Hn & Ht & Ha). unfold resolv_content in *.
  rewrite Build_lines in * by auto using resolv_options_ok.
  rewrite reader_words by (apply short_words; [by apply Build_words_ok|done]).
  unfold Build_words, resolv_options, written. rewrite fold_search, fold_servers by done.
  destruct (Ndots c =? 0)%Z, (Attempts c =? 0)%Z, (cc_Timeout c =? 0)%Z; cbn -[parse_option Itoa].
  all: by rewrite ?parse_ndots, ?parse_attempts, ?parse_timeout.
Qed.

(** ** Setting up and cancelling *)

Section setup.
Context (denied : string → bool) (exec : list string → Files → Files) (caddy_Start : string → option error).

(** The files the connection changes. *)
Definition dns_files : list string := [resolv_conf; getBackupFilename resolv_conf; GetHostFile].

(** The commands of [systemd] talk to its daemon: they leave these files alone, and the
    process may write them.  This is the case where [/etc/resolv.conf] is a file of its
    own, or a link to a stub that names the daemon's local server; where it links to the
    daemon's list of servers ([/run/systemd/resolve/resolv.conf]), the daemon rewrites it
    when a link's servers change, and the theorems below do not speak of that. *)
Definition exec_keeps : Prop := ∀ args fs p, p ∈ dns_files → exec args fs !! p = fs !! p.
Definition may_write : Prop := ∀ p, p ∈ dns_files → denied p = false.

(** The indices [SetupDNS] uses exist. *)
Definition indexable (c : ClientConfig) : bool :=
  (1 <=? length (Servers c)) && (3 <=? length (Search c)).

Definition starts (c : DNSConfig) (fs : Files) : bool :=
  negb (d_UseLocalDNS c) ||
  match Servers (d_Config c) with
  | s :: _ => bool_decide (caddy_Start (BuildCoreFile (MkCoreFileTmpl s (Join " " (existing fs).1))) = None)
  | [] => false
  end.

(** The configuration of the connection: its own servers and domains, then those of
    the host; with a local server, that one in place of the cluster's first. *)
Definition merged (c : DNSConfig) (fs : Files) : ClientConfig :=
  let config := d_Config c in
  let servers := if d_UseLocalDNS c then "127.0.0.1" :: tail (Servers config) else Servers config in
  set_Search (Search config ++ (existing fs).2) (set_Servers (servers ++ (existing fs).1) config).

Lemma WriteFile_ok p s fs : denied p = false → WriteFile denied p s fs = (<[p:=s]> fs, None).
Proof. unfold WriteFile. by intros ->. Qed.

Lemma Rename_ok from to fs s :
  denied from = false → denied to = false → fs !! from = Some s →
  Rename denied from to fs = (<[to:=s]> (delete from fs), None).
Proof. unfold Rename. by intros -> -> ->. Qed.

Lemma Rename_missing from to fs :
  fs !! from = None → (Rename denied from to fs).1 = fs.
Proof. unfold Rename. intros ->. by destruct (_ || _). Qed.

Lemma systemctl_keeps fs p : exec_keeps → p ∈ dns_files → systemctl exec fs !! p = fs !! p.
Proof. intros H Hp. unfold systemctl. by rewrite !H. Qed.

(** The whole of [SetupDNS] when nothing fails. *)
Lemma SetupDNS_files c fs :
  may_write → indexable (d_Config c) = true → starts c fs = true →
  ∃ args, let fs' := exec args (systemctl exec fs) in
  SetupDNS denied exec caddy_Start c fs = Ret (merged c fs,
    <[resolv_conf := resolv_content (merged c fs)]>
      (if d_Lite c then fs' else (Rename denied resolv_conf (getBackupFilename resolv_conf) fs').1), None).
Proof.
  intros Hw Hi Hs. unfold SetupDNS, starts, merged, indexable, WriteResolvConf in *.
  destruct (existing fs) as [ns sd]. cbn [fst snd] in *.
  assert (Hr : denied resolv_conf = false) by (apply Hw; set_solver).
  destruct (d_Config c) as [servers search port nd tm at_].
  destruct servers as [|s0 servers]; [done|].
  destruct search as [|d0 [|d1 [|d2 search]]]; [done..|].
  destruct (d_UseLocalDNS c); cbn -[BuildCoreFile Join] in *.
  - apply bool_decide_eq_true in Hs. rewrite Hs. cbn. rewrite WriteFile_ok by done. by eexists.
  - rewrite WriteFile_ok by done. by eexists.
Qed.

End setup.

Section cancel.
Context (denied : string → bool).

Definition hosts_ok (c : DNSConfig) (fs : Files) : Prop :=
  ∀ file, fs !! GetHostFile = Some file → updateHosts (d_Hosts c) "" file ≠ Panic.

Lemma update_hosts_keeps c fs :
  hosts_ok c fs →
  ∃ fs', update_hosts_file denied (d_Hosts c) "" fs = Ret fs' ∧ ∀ p, p ≠ GetHostFile → fs' !! p = fs !! p.
Proof.
  intros Hok. unfold update_hosts_file. destruct (fs !! GetHostFile) as [file|] eqn:E; [|by eauto].
  specialize (Hok file E). destruct (updateHosts (d_Hosts c) "" file); [|by eauto|done].
  eexists; split; [done|]. intros p Hp. unfold WriteFile. destruct (denied _); [done|].
  by apply lookup_insert_ne.
Qed.

(** What [CancelDNS] makes of the two files. *)
Lemma CancelDNS_files c fs :
  may_write denied → hosts_ok c fs →
  ∃ fs', CancelDNS denied c fs = Ret fs' ∧
    if d_Lite c then fs' !! resolv_conf = fs !! resolv_conf
    else match fs !! getBackupFilename resolv_conf with
         | Some s => fs' !! resolv_conf = Some s ∧ fs' !! getBackupFilename resolv_conf = None
         | None => fs' !! resolv_conf = fs !! resolv_conf ∧ fs' !! getBackupFilename resolv_conf = None
         end.
Proof.
  intros Hw Hok. destruct (update_hosts_keeps c fs Hok) as (fs1 & E1 & K).
  unfold CancelDNS. rewrite E1. cbn [mbind outcome_bind]. eexists; split; [done|].
  destruct (d_Lite c); [by apply K|].
  rewrite <-(K (getBackupFilename resolv_conf)), <-(K resolv_conf) by done.
  destruct (fs1 !! getBackupFilename resolv_conf) as [s|] eqn:E.
  - rewrite (Rename_ok denied _ _ _ s) by (done || apply Hw; set_solver). cbn [fst].
    split; [apply lookup_insert_eq|]. etrans; [by apply lookup_insert_ne|apply lookup_delete_eq].
  - by rewrite Rename_missing.
Qed.
End cancel.

Lemma Fields_go_words s cur : solid cur → Forall word (Fields_go s cur).
Proof.
  revert cur. assert (W : ∀ cur, solid cur → Forall word (if String.eqb cur "" then [] else [cur])).
  { intros cur H. destruct (String.eqb_spec cur ""); words. }
  induction s as [|a s IH]; intros cur Hc; cbn [Fields_go]; [by apply W|].
  destruct (is_space a) eqn:E; [apply Forall_app; split; [by apply W|by apply IH]|].
  apply IH. apply solid_app; [done|]. cbn. by rewrite E.
Qed.

Definition words_config (c : ClientConfig) : Prop := Forall word (Servers c) ∧ Forall word (Search c).

Lemma parse_options_words l c : words_config c → words_config (fold_left parse_option l c).
Proof.
  revert c. induction l as [|s l IH]; intros c H; [done|]. cbn. apply IH. unfold parse_option.
  by repeat case_match.
Qed.

Lemma parse_line_words c f : words_config c → Forall word f → words_config (parse_line c f).
Proof.
  intros [Hs Hd] Hf. unfold parse_line. destruct Hf as [|k args Hk Ha]; [done|].
  destruct (String.eqb k "nameserver").
  { destruct Ha as [|w args Hw _]; [done|]. split; [|done]. apply Forall_app; split; [done|words]. }
  destruct (String.eqb k "domain"); [destruct Ha as [|w args Hw _]; split; words|].
  destruct (String.eqb k "search"); [by split|].
  destruct (String.eqb k "options"); [by apply parse_options_words|by split].
Qed.

(** Every server and domain the reader returns is a word. *)
Lemma reader_words_config s : words_config (ClientConfigFromReader s).
Proof.
  unfold ClientConfigFromReader. assert (H : words_config default_config) by done.
  revert H. generalize default_config. induction (ScanLines s) as [|l ls IH]; intros c H; [done|].
  cbn. apply IH, parse_line_words; [done|]. by apply Fields_go_words.
Qed.

Lemma existing_words fs : Forall word (existing fs).1 ∧ Forall word (existing fs).2.
Proof.
  unfold existing. destruct (fs !! resolv_conf); [|by cbn]. apply reader_words_config.
Qed.

Lemma merged_words c fs : words_config (d_Config c) → words_config (merged c fs).
Proof.
  intros [Hs Hd]. destruct (existing_words fs). unfold merged. split; cbn; apply Forall_app; split; try done.
  destruct (d_UseLocalDNS c); [|done]. words. by destruct Hs.
Qed.

(** C26. Setting up and cancelling DNS on Linux, with files the process may write, commands
    of [systemd] that leave the files of the resolver alone, and a configuration with a
    server and three search domains: [SetupDNS] succeeds; the resolver then reads from
    [/etc/resolv.conf] the connection's servers and domains followed by the host's; and
    [CancelDNS] puts the host's file back, without a backup left behind - except for a
    lite connection, which keeps no backup and leaves its own servers in the file. *)
Theorem dns_connection_files denied exec caddy_Start c fs content
  (Hwrite : may_write denied) (Hexec : exec_keeps exec)
  (Hidx : indexable (d_Config c) = true) (Hstart : starts caddy_Start c fs = true)
  (Hwords : words_config (d_Config c)) (Hrange : in_ranges (d_Config c))
  (Hshort : short (resolv_content (merged c fs)))
  (Hfile : fs !! resolv_conf = Some content)
  (Hhosts : hosts_ok c fs) :
  ∃ fs' fs'',
    SetupDNS denied exec caddy_Start c fs = Ret (merged c fs, fs', None) ∧
    ClientConfigFromReader <$> fs' !! resolv_conf = Some (written (merged c fs)) ∧
    CancelDNS denied c fs' = Ret fs'' ∧
    (d_Lite c = false → fs'' !! resolv_conf = Some content ∧ fs'' !! getBackupFilename resolv_conf = None) ∧
    (d_Lite c = true → fs'' !! resolv_conf = Some (resolv_content (merged c fs))).
Proof.
  destruct (SetupDNS_files denied exec caddy_Start c fs Hwrite Hidx Hstart) as (args & E).
  set (f1 := exec args (systemctl exec fs)) in *. cbn zeta in E.
  assert (K : ∀ p, p ∈ dns_files → f1 !! p = fs !! p).
  { intros p Hp. unfold f1. by rewrite Hexec, systemctl_keeps. }
  set (fs' := <[resolv_conf:=_]> _) in E.
  assert (Hh : hosts_ok c fs').
  { intros file. unfold fs'. rewrite lookup_insert_ne by done. intros Hf. apply Hhosts.
    rewrite <-(K GetHostFile) by set_solver. destruct (d_Lite c); [done|].
    erewrite Rename_ok in Hf; [|apply Hwrite; set_solver..|rewrite K by set_solver; exact Hfile].
    cbn in Hf. by rewrite lookup_insert_ne, lookup_delete_ne in Hf. }
  destruct (CancelDNS_files denied c fs' Hwrite Hh) as (fs'' & Ec & Hc).
  exists fs', fs''. split; [exact E|]. split.
  { unfold fs'. rewrite lookup_insert_eq. cbn. f_equal.
    destruct (merged_words c fs Hwords) as [Hs Hd]. apply resolv_content_read; try done.
    unfold indexable in Hidx. destruct (Search (d_Config c)) as [|? [|? [|]]] eqn:Es; [by rewrite andb_false_r in Hidx..|].
    unfold merged. cbn. by rewrite Es. }
  split; [exact Ec|]. split; intros Hl; rewrite Hl in Hc.
  - replace (fs' !! getBackupFilename resolv_conf) with (Some content) in Hc; [exact Hc|].
    unfold fs'. rewrite Hl, lookup_insert_ne by done.
    erewrite Rename_ok; [|apply Hwrite; set_solver..|rewrite K by set_solver; exact Hfile].
    symmetry. apply lookup_insert_eq.
  - rewrite Hc. apply lookup_insert_eq.
Qed.

(** On macOS a resolver file another connection has written is rewritten without its
    port: the file named the port of the connection's forward server, the reader does not
    know the key, and adding a second cluster's server writes the default port 53. *)
Theorem resolver_port_lost denied cluster config fs s conf s0 rest
  (Hdir : resolver_file s ≠ resolver_dir) (Hmay : denied (resolver_file s) = false)
  (Hfile : fs !! resolver_file s = Some (toString conf))
  (Hwf : wf_config conf) (Hshort : short (toString conf)) (Hr : in_ranges conf)
  (Hs : Servers cluster = s0 :: rest) (Hnew : s0 ∉ Servers conf)
  (Hloop : IsLoopback (ParseIP s0) = false) (Hlen : (length (Servers conf) < 3)%nat) :
  update_resolver denied cluster config fs s =
    Ret (<[resolver_file s :=
      toString (MkClientConfig (Servers conf ++ [s0]) (Search conf) "53"
                  (clamp_ndots (Ndots conf)) (at_least_one (cc_Timeout conf)) 2)]> fs).
Proof.
  unfold update_resolver. apply String.eqb_neq in Hdir as ->. rewrite Hfile, Hs.
  destruct Hr as (Hn & Ht & _). rewrite toString_read by done. cbn [Servers].
  rewrite bool_decide_false by done. rewrite Hloop. cbn [set_Servers Servers].
  rewrite (proj2 (Nat.leb_le _ _)) by (rewrite length_app; cbn; lia).
  by rewrite WriteFile_ok.
Qed.

(** ** Witnesses *)

Definition example_cluster : ClientConfig :=
  MkClientConfig ["172.21.10.49"] ["default.svc.cluster.local"; "svc.cluster.local"; "cluster.local"] "" 5 2 0.
Definition example_dns (lite : bool) : DNSConfig :=
  MkDNSConfig example_cluster ["default"] true "utun0" lite [MkEntry "172.21.1.1" "productpage"].
Definition example_host : string :=
  "# host" +:+ nl +:+ "search  home.lan" +:+ nl +:+ "nameserver 192.168.1.1" +:+ nl +:+ "options timeout:9 rotate" +:+ nl.
Definition example_files : Files :=
  {[ resolv_conf := example_host; GetHostFile := "127.0.0.1 localhost" ]}.

(** The cluster's server is answered by the local one; the host's server follows. *)
Example example_merged :
  merged (example_dns true) example_files =
  MkClientConfig ["127.0.0.1"; "192.168.1.1"]
    ["default.svc.cluster.local"; "svc.cluster.local"; "cluster.local"; "home.lan"] "" 5 2 0.
Proof. vm_compute. reflexivity. Qed.

Lemma dns_connection_files_witness :
  ∃ fs' fs'',
    SetupDNS (λ _, false) (λ _ fs, fs) (λ _, None) (example_dns true) example_files
      = Ret (merged (example_dns true) example_files, fs', None) ∧
    ClientConfigFromReader <$> fs' !! resolv_conf = Some (written (merged (example_dns true) example_files)) ∧
    CancelDNS (λ _, false) (example_dns true) fs' = Ret fs'' ∧
    (d_Lite (example_dns true) = false →
       fs'' !! resolv_conf = Some example_host ∧ fs'' !! getBackupFilename resolv_conf = None) ∧
    (d_Lite (example_dns true) = true →
       fs'' !! resolv_conf = Some (resolv_content (merged (example_dns true) example_files))).
Proof.
  apply (dns_connection_files (λ _, false) (λ _ fs, fs) (λ _, None) (example_dns true) example_files example_host).
  - by intros p _.
  - by intros args fs p _.
  - reflexivity.
  - vm_compute. reflexivity.
  - split; apply (bool_decide_unpack _); vm_compute; exact I.
  - by repeat split.
  - vm_compute. reflexivity.
  - vm_compute. reflexivity.
  - intros file. vm_compute. intros [= <-] ?. discriminate.
Defined.

Definition example_resolver : ClientConfig :=
  MkClientConfig ["127.0.0.1"] ["default.svc.cluster.local"] "57231" 5 2 0.

Lemma resolver_port_lost_witness :
  update_resolver (λ _, false) example_cluster example_resolver
    {[ resolver_file "svc" := toString example_resolver ]} "svc" =
  Ret (<[resolver_file "svc" :=
    toString (MkClientConfig ["127.0.0.1"; "172.21.10.49"] ["default.svc.cluster.local"] "53" 5 2 2)]>
      {[ resolver_file "svc" := toString example_resolver ]}).
Proof.
  apply (resolver_port_lost (λ _, false) example_cluster example_resolver
    {[ resolver_file "svc" := toString example_resolver ]} "svc" example_resolver "172.21.10.49" []).
  - vm_compute. discriminate.
  - reflexivity.
  - vm_compute. reflexivity.
  - split_and!; [apply (bool_decide_unpack _); vm_compute; exact I..|].
    right. apply (bool_decide_unpack _). vm_compute. exact I.
  - vm_compute. reflexivity.
  - by repeat split.
  - reflexivity.
  - apply (bool_decide_unpack _). vm_compute. exact I.
  - vm_compute. reflexivity.
  - cbn. lia.
Defined.
