(* ===== verification/ForwardDNS.v ===== *)
(** * The forwarding DNS server

    [pkg/dns/forwardserver.go]: a query is sent, under every name the search domains
    make of it, to every server of the cluster; the first answer is returned under the
    name that was asked and the name that worked is remembered.  [ServeDNS] starts one
    goroutine per name and server, which share the request, a flag, a context with a
    five second timer and the writer of the replies; the model is a machine whose
    events are the steps of these goroutines.  A goroutine's updates of the request
    between two synchronising operations are one step.  The exchange with a server is
    a parameter. *)
From Stdlib Require Import ZArith Lia Ascii.
From stdpp Require Import base gmap strings numbers list.
From S2P Require Import Prelude GoStrings GoNet Url Resolv.

(** ** Messages *)

Record RR := MkRR { rr_Name : string; rr_Data : string }.

(** [miekgdns.Msg]: the header, the names asked, the sections. *)
Record Msg := MkMsg {
  Id : Z; Response : bool; Opcode : Z; Authoritative : bool; Truncated : bool;
  RecursionDesired : bool; RecursionAvailable : bool; Zero : bool;
  AuthenticatedData : bool; CheckingDisabled : bool; Rcode : Z;
  Question : list string; Answer : list RR; Ns : list RR; Extra : list RR }.

Definition set_Response (b : bool) (m : Msg) : Msg :=
  MkMsg (Id m) b (Opcode m) (Authoritative m) (Truncated m) (RecursionDesired m)
    (RecursionAvailable m) (Zero m) (AuthenticatedData m) (CheckingDisabled m) (Rcode m)
    (Question m) (Answer m) (Ns m) (Extra m).

(** The message a goroutine sends: a copy of the request for another name. *)
Definition query_for (r : Msg) (name : string) (id : Z) : Msg :=
  MkMsg id (Response r) (Opcode r) (Authoritative r) (Truncated r) (RecursionDesired r)
    (RecursionAvailable r) (Zero r) (AuthenticatedData r) (CheckingDisabled r) (Rcode r)
    ((λ _, name) <$> Question r) (Answer r) [] [].

Definition rename (name : string) (rr : RR) : RR := MkRR name (rr_Data rr).

(** The request becomes the reply: answer and flags of the server's, identifier and
    question its own. *)
Definition adopt (origin : string) (r a : Msg) : Msg :=
  MkMsg (Id r) (Response a) (Opcode a) (Authoritative a) (Truncated a) (RecursionDesired a)
    (RecursionAvailable a) (Zero a) (AuthenticatedData a) (CheckingDisabled a) (Rcode a)
    (Question r) (rename origin <$> Answer a) (Ns r) (Extra r).

(** [r.SetRcode(r, RcodeRefused)]. *)
Definition refuse (r : Msg) : Msg :=
  MkMsg (Id r) true (Opcode r) (Authoritative r) (Truncated r) (RecursionDesired r)
    (RecursionAvailable r) (Zero r) (AuthenticatedData r) (CheckingDisabled r) 5
    (take 1 (Question r)) (Answer r) (Ns r) (Extra r).

(** ** Names *)

(** [fix]. *)
Definition fix_names (domain : string) (suffix : list string) : list string :=
  domain :: ((λ s, TrimSuffix domain "." +:+ "." +:+ s +:+ ".") <$> suffix).

(** Only five or six dots are asked for. *)
Definition dots_ok (name : string) : bool :=
  (5 <=? Count "." name) && (Count "." name <=? 6).

(** ** The cache of names: [LRUExpireCache], most recently used first.  Entries are
    added for a hundred years and do not expire. *)

Definition cache_size : nat := 1000.

Definition Cache : Type := list (string * string).

Definition cache_find (k : string) (c : Cache) : option string :=
  snd <$> List.find (λ e, String.eqb e.1 k) c.
Definition cache_drop (k : string) (c : Cache) : Cache := List.filter (λ e, negb (String.eqb e.1 k)) c.

Definition cache_Get (k : string) (c : Cache) : option string * Cache :=
  match cache_find k c with
  | Some v => (Some v, (k, v) :: cache_drop k c)
  | None => (None, c)
  end.
Definition cache_Add (k v : string) (c : Cache) : Cache := take cache_size ((k, v) :: cache_drop k c).

(** ** The machine *)

(** Where a goroutine is. *)
Inductive Worker :=
  | WStart (name server : string)
  | WAsked (name server : string) (q : Msg)
  | WGot (name : string) (a : Msg)
  | WSelect
  | WStore
  | WWrite
  | WCancel
  | WDone.

(** Where [ServeDNS] itself is: waiting for the context, about to send the reply
    nobody else sent, about to return, returned. *)
Inductive Main := MWait | MReply | MClose | MReturned.

Record State := MkState {
  req : Msg; cache : Cache; done : bool; cancelled : bool; timed_out : bool;
  closed : bool; replies : list Msg; main : Main; workers : list Worker }.

Definition set_worker (i : nat) (w : Worker) (s : State) : State :=
  MkState (req s) (cache s) (done s) (cancelled s) (timed_out s) (closed s) (replies s) (main s)
    (<[i:=w]> (workers s)).
Definition set_main (m : Main) (s : State) : State :=
  MkState (req s) (cache s) (done s) (cancelled s) (timed_out s) (closed s) (replies s) m (workers s).
Definition set_req (r : Msg) (c : Cache) (s : State) : State :=
  MkState r c (done s) (cancelled s) (timed_out s) (closed s) (replies s) (main s) (workers s).
Definition set_done (s : State) : State :=
  MkState (req s) (cache s) true (cancelled s) (timed_out s) (closed s) (replies s) (main s) (workers s).
Definition set_cancelled (s : State) : State :=
  MkState (req s) (cache s) (done s) true (timed_out s) (closed s) (replies s) (main s) (workers s).
Definition set_timed_out (s : State) : State :=
  MkState (req s) (cache s) (done s) true true (closed s) (replies s) (main s) (workers s).
Definition set_closed (s : State) : State :=
  MkState (req s) (cache s) (done s) true (timed_out s) true (replies s) (main s) (workers s).

(** [w.WriteMsg]: an error after [Close]. *)
Definition write (s : State) : State :=
  if closed s then s
  else MkState (req s) (cache s) (done s) (cancelled s) (timed_out s) (closed s)
         (replies s ++ [req s]) (main s) (workers s).

Inductive Event :=
  | EWorker (i : nat) (id : Z)
  | EWaited
  | ETimeout
  | EMain.

Section server.
(** [s.client.ExchangeContext] with a server's address: its answer, or an error. *)
Context (exchange : Msg → string → option Msg).
(** [s.forwardDNS]. *)
Context (forward : ClientConfig).

Definition is_done (w : Worker) : bool := match w with WDone => true | _ => false end.

(** One step of a goroutine; [id] is the identifier it draws. *)
Definition worker_step (origin : string) (id : Z) (i : nat) (w : Worker) (s : State) : option State :=
  match w with
  | WStart name server => Some (set_worker i (WAsked name server (query_for (req s) name id)) s)
  | WAsked name server q =>
      match exchange q (JoinHostPort server (cc_Port forward)) with
      | Some a => match Answer a with
                  | [] => Some (set_worker i WDone s)
                  | _ => Some (set_worker i (WGot name a) s)
                  end
      | None => Some (set_worker i WDone s)
      end
  | WGot name a =>
      Some (set_worker i WSelect (set_req (adopt origin (req s) a) (cache_Add origin name (cache s)) s))
  | WSelect => Some (set_worker i (if cancelled s then WDone else WStore) s)
  | WStore => Some (set_worker i WWrite (set_done s))
  | WWrite => Some (set_worker i WCancel (write s))
  | WCancel => Some (set_worker i WDone (set_cancelled s))
  | WDone => None
  end.

Definition main_step (s : State) : option State :=
  match main s with
  | MWait => if cancelled s then Some (set_main (if done s then MClose else MReply) s) else None
  | MReply => Some (set_main MClose (write (set_req (set_Response true (req s)) (cache s) s)))
  | MClose => Some (set_main MReturned (set_closed s))
  | MReturned => None
  end.

Definition exec_event (origin : string) (e : Event) (s : State) : option State :=
  match e with
  | EWorker i id => w ← workers s !! i; worker_step origin id i w s
  | EWaited => if forallb is_done (workers s) && negb (cancelled s) then Some (set_cancelled s) else None
  | ETimeout => if cancelled s then None else Some (set_timed_out s)
  | EMain => main_step s
  end.

(** The names asked for, and the cache after looking. *)
Definition search_list (origin : string) (c : Cache) : list string * Cache :=
  match cache_Get origin c with
  | (Some v, c) => ([v], c)
  | (None, c) => (fix_names origin (Search forward), c)
  end.

Definition targets (names : list string) : list (string * string) :=
  name ← filter (λ n, dots_ok n = true) names; (λ server, (name, server)) <$> Servers forward.

(** [ServeDNS] up to its wait.  [acquired]: the semaphore was free within the five
    seconds; when it was not, the request is turned into a refusal that is not sent. *)
Definition start (r : Msg) (acquired : bool) (c : Cache) : State :=
  match Question r with
  | [] => MkState (set_Response true r) c false false false false [set_Response true r] MClose []
  | origin :: _ =>
      if acquired then
        let '(names, c) := search_list origin c in
        MkState r c false false false false [] MWait ((λ '(n, s), WStart n s) <$> targets names)
      else MkState (refuse r) c false true true false [] MClose []
  end.

Definition origin_of (r : Msg) : string := default EmptyString (head (Question r)).

(** A run of the goroutines. *)
Fixpoint run (origin : string) (es : list Event) (s : State) : option State :=
  match es with
  | [] => Some s
  | e :: es => s ← exec_event origin e s; run origin es s
  end.

Definition final (origin : string) (s : State) : Prop := ∀ e, exec_event origin e s = None.
End server.

(** ** Every run ends, with a reply *)

Section runs.
Context (exchange : Msg → string → option Msg) (forward : ClientConfig) (origin : string).
Abbreviation exec := (exec_event exchange forward origin).
Abbreviation runs := (run exchange forward origin).

Definition wrank (w : Worker) : nat :=
  match w with
  | WStart _ _ => 7 | WAsked _ _ _ => 6 | WGot _ _ => 5 | WSelect => 4
  | WStore => 3 | WWrite => 2 | WCancel => 1 | WDone => 0
  end.
Definition mrank (m : Main) : nat :=
  match m with MWait => 3 | MReply => 2 | MClose => 1 | MReturned => 0 end.
Definition measure (s : State) : nat :=
  sum_list_with wrank (workers s) + mrank (main s) + (if cancelled s then 0 else 1).

Lemma sum_insert (l : list Worker) i w w' :
  l !! i = Some w → sum_list_with wrank (<[i:=w']> l) + wrank w = sum_list_with wrank l + wrank w'.
Proof.
  revert i. induction l as [|x l IH]; intros [|i] H; cbn in *; try done; simplify_eq; [lia|].
  rewrite <-!Nat.add_assoc. f_equal. by apply IH.
Qed.

Lemma write_fields s :
  workers (write s) = workers s ∧ main (write s) = main s ∧ cancelled (write s) = cancelled s ∧
  done (write s) = done s ∧ timed_out (write s) = timed_out s ∧ closed (write s) = closed s ∧
  req (write s) = req s ∧ cache (write s) = cache s ∧
  replies (write s) = if closed s then replies s else replies s ++ [req s].
Proof. unfold write. destruct (closed s) eqn:E; cbn; rewrite ?E; by split_and!. Qed.

(** A step of a goroutine changes its place and, before that, the shared state. *)
Lemma worker_step_measure id i w s s' :
  workers s !! i = Some w → worker_step exchange forward origin id i w s = Some s' →
  measure s' < measure s.
Proof.
  intros Hi. destruct (write_fields s) as (Ew & Em & Ec & _).
  destruct w; cbn; intros H; repeat case_match; simplify_eq; unfold measure; cbn;
    rewrite ?Ew, ?Em, ?Ec.
  all: match goal with |- context [<[?j:=?w']> _] => pose proof (sum_insert _ j _ w' Hi) as E; cbn in E end.
  all: destruct (cancelled s); cbn in *; lia.
Qed.

Lemma main_step_measure s s' : main_step s = Some s' → measure s' < measure s.
Proof.
  destruct (write_fields (set_req (set_Response true (req s)) (cache s) s)) as (Ew & Em & Ec & _).
  unfold main_step, measure. destruct (main s) eqn:M; intros H; repeat case_match; simplify_eq;
    cbn [set_main set_closed workers main cancelled]; rewrite ?Ew, ?Ec; cbn.
  all: repeat case_match; cbn in *; try lia; congruence.
Qed.

Lemma event_decreases e s s' : exec e s = Some s' → measure s' < measure s.
Proof.
  destruct e as [i id| | |]; cbn.
  - intros (w & Hi & H)%bind_Some. by eapply worker_step_measure.
  - destruct (forallb _ _), (cancelled s) eqn:E; cbn; intros [= <-]. unfold measure. cbn. rewrite E. lia.
  - destruct (cancelled s) eqn:E; intros [= <-]. unfold measure. cbn. rewrite E. lia.
  - apply main_step_measure.
Qed.

Lemma run_bound es s s' : runs es s = Some s' → length es + measure s' ≤ measure s.
Proof.
  revert s. induction es as [|e es IH]; intros s; cbn; [by intros [= ->]|].
  intros (s1 & H%event_decreases & Hr%IH)%bind_Some. lia.
Qed.

Lemma run_app es es' s s' s'' : runs es s = Some s' → runs es' s' = Some s'' → runs (es ++ es') s = Some s''.
Proof.
  revert s. induction es as [|e es IH]; intros s; cbn; [by intros [= ->]|].
  intros (s1 & -> & Hr)%bind_Some H. cbn. by apply IH.
Qed.

Lemma worker_enabled i id w s :
  workers s !! i = Some w → w ≠ WDone → is_Some (exec (EWorker i id) s).
Proof.
  intros Hi Hw. cbn. rewrite Hi. cbn. destruct w; cbn; repeat case_match; try done; by eauto.
Qed.

Lemma not_all_done (ws : list Worker) :
  forallb is_done ws = false → ∃ i w, ws !! i = Some w ∧ w ≠ WDone.
Proof.
  induction ws as [|w ws IH]; cbn; [done|]. destruct (is_done w) eqn:E; cbn.
  - intros (i & w' & H & Hw)%IH. by exists (S i), w'.
  - intros _. exists 0, w. split; [done|]. by destruct w.
Qed.

(** Where nothing can happen any more, everything is over; elsewhere something other
    than the timer can happen. *)
Lemma progress s :
  (main s = MReturned ∧ forallb is_done (workers s) = true) ∨
  ∃ e, e ≠ ETimeout ∧ is_Some (exec e s).
Proof.
  destruct (forallb is_done (workers s)) eqn:W.
  2:{ destruct (not_all_done _ W) as (i & w & Hi & Hw). right. exists (EWorker i 0).
      split; [done|]. by eapply worker_enabled. }
  destruct (main s) eqn:M; [|right; exists EMain; split; [done|]; cbn; unfold main_step; rewrite M; by eauto..|by left].
  right. destruct (cancelled s) eqn:C.
  - exists EMain. split; [done|]. cbn. unfold main_step. rewrite M, C. by eauto.
  - exists EWaited. split; [done|]. cbn. rewrite W, C. by eauto.
Qed.

Lemma completes_within n s : measure s ≤ n →
  ∃ es s', runs es s = Some s' ∧ (ETimeout ∉ es) ∧
    main s' = MReturned ∧ forallb is_done (workers s') = true.
Proof.
  revert s. induction n as [|n IH]; intros s Hn.
  all: destruct (progress s) as [[M W]|(e & He & s1 & Hs1)]; [exists [], s; split_and!; [done|set_solver|done..]|].
  - apply event_decreases in Hs1. lia.
  - destruct (IH s1) as (es & s' & Hr & Ht & ?); [apply event_decreases in Hs1; lia|].
    exists (e :: es), s'. split_and!; [cbn; by rewrite Hs1|set_solver|tauto..].
Qed.

(** While the timer has not fired: who cancelled the context before [ServeDNS] looked
    at the flag had replied or was the last to finish, who set the flag is writing or
    has written, and [ServeDNS] does not return before a reply. *)
Definition answered (s : State) : Prop :=
  timed_out s = false →
  (closed s = true → main s = MReturned) ∧
  match main s with
  | MWait =>
      (cancelled s = true → replies s ≠ [] ∨ forallb is_done (workers s) = true) ∧
      (done s = true → replies s ≠ [] ∨ WWrite ∈ workers s) ∧
      (WCancel ∈ workers s → replies s ≠ [])
  | MReply => True
  | MClose | MReturned => replies s ≠ []
  end.

Lemma elem_of_insert_keep (l : list Worker) i w w' x :
  l !! i = Some w → x ∈ l → x ≠ w → x ∈ <[i:=w']> l.
Proof.
  intros Hi (j & Hj)%list_elem_of_lookup Hx. apply list_elem_of_lookup. exists j.
  rewrite list_lookup_insert_ne; [done|]. intros ->. congruence.
Qed.
Lemma elem_of_insert_new (l : list Worker) i w w' x :
  l !! i = Some w → x ∈ <[i:=w']> l → x = w' ∨ x ∈ l.
Proof.
  intros Hi (j & Hj)%list_elem_of_lookup. destruct (decide (j = i)) as [->|].
  - left. rewrite list_lookup_insert_eq in Hj by (by eapply lookup_lt_Some). congruence.
  - right. rewrite list_lookup_insert_ne in Hj by done. by eapply list_elem_of_lookup_2.
Qed.
Lemma elem_of_insert_self (l : list Worker) i w w' : l !! i = Some w → w' ∈ <[i:=w']> l.
Proof.
  intros Hi. apply list_elem_of_lookup. exists i. apply list_lookup_insert_eq. by eapply lookup_lt_Some.
Qed.
Lemma done_not_elem (l : list Worker) w : forallb is_done l = true → w ∈ l → w = WDone.
Proof.
  rewrite forallb_forall. intros H Hw. apply list_elem_of_In, H in Hw. by destruct w.
Qed.
Lemma replies_write s : closed s = false → replies (write s) ≠ [].
Proof. intros E. unfold write. rewrite E. cbn. by destruct (replies s). Qed.
Lemma replies_write_keep s : replies s ≠ [] → replies (write s) ≠ [].
Proof. unfold write. destruct (closed s); [done|]. cbn. by destruct (replies s). Qed.

(** A goroutine that moves on, without having written and without being about to. *)
Lemma answered_move i w w' s :
  workers s !! i = Some w → w ≠ WDone → w ≠ WWrite → w' ≠ WCancel →
  answered s → answered (set_worker i w' s).
Proof.
  intros Hi Hd Hw Hc A T. destruct (A T) as [Hcl Am]. cbn. split; [done|].
  destruct (main s); [|done..]. destruct Am as (A1 & A2 & A3). split_and!.
  - intros [?|Hall]%A1; [by left|]. exfalso. apply Hd.
    eapply done_not_elem; [exact Hall|]. by eapply list_elem_of_lookup_2.
  - intros [?|Hin]%A2; [by left|]. right. eapply elem_of_insert_keep; eauto.
  - intros [?|Hin]%(elem_of_insert_new _ _ w); [done|by apply A3|done].
Qed.

Lemma worker_step_answered id i w s s' :
  workers s !! i = Some w → worker_step exchange forward origin id i w s = Some s' →
  answered s → answered s'.
Proof.
  intros Hi H A. destruct w; cbn in H; repeat case_match; simplify_eq;
    try (eapply answered_move; [exact Hi|done|done|done|exact A]).
  - (* WStore *) intros T. specialize (answered_move i WStore WWrite s Hi). cbn.
    intros M. destruct (M ltac:(done) ltac:(done) ltac:(done) A T) as [Hcl Am]. split; [exact Hcl|].
    cbn in *. destruct (main s); [|done..]. destruct Am as (A1 & _ & A3). split_and!; try done.
    right. by eapply elem_of_insert_self.
  - (* WWrite *) intros T. destruct (write_fields s) as (Ew & Em & Ec & Ed & Et & Ecl & _).
    cbn in *. rewrite Et in T. destruct (A T) as [Hcl Am]. rewrite Em, Ecl. split; [done|].
    destruct (closed s) eqn:C.
    + rewrite Hcl in * by done. by apply replies_write_keep.
    + pose proof (replies_write s C). by destruct (main s); split_and?; auto.
  - (* WCancel *) intros T. destruct (A T) as [Hcl Am]. cbn. split; [done|].
    destruct (main s); [|done..]. destruct Am as (A1 & A2 & A3).
    assert (replies s ≠ []) by (apply A3; by eapply list_elem_of_lookup_2). by split_and!; auto.
Qed.

Lemma main_step_answered s s' : main_step s = Some s' → answered s → answered s'.
Proof.
  unfold main_step. intros H A. destruct (main s) eqn:M; simplify_eq.
  - destruct (cancelled s) eqn:C; simplify_eq. intros T. destruct (A T) as [Hcl Am]. rewrite M in *.
    cbn. destruct (closed s); [by specialize (Hcl eq_refl)|]. split; [done|].
    destruct Am as (A1 & A2 & A3). destruct (done s); [|done].
    destruct (A1 C) as [|Hall]; [done|]. destruct (A2 eq_refl) as [|Hin]; [done|].
    by apply (done_not_elem _ _ Hall) in Hin.
  - set (s1 := set_req _ _ s). destruct (write_fields s1) as (_ & Em & _ & _ & Et & Ecl & _).
    intros T. cbn in T. rewrite Et in T. destruct (A T) as [Hcl _]. cbn. rewrite Ecl.
    destruct (closed s) eqn:C; [by rewrite M in Hcl; specialize (Hcl eq_refl)|].
    split; [cbn; by rewrite C|]. by apply replies_write.
  - intros T. destruct (A T) as [_ Am]. rewrite M in Am. by cbn.
Qed.

Lemma event_answered e s s' : exec e s = Some s' → answered s → answered s'.
Proof.
  destruct e as [i id| | |]; cbn.
  - intros (w & Hi & H)%bind_Some. by eapply worker_step_answered.
  - destruct (forallb _ _) eqn:W, (cancelled s); cbn; intros [= <-] A T.
    destruct (A T) as [Hcl Am]. split; [done|]. cbn. destruct (main s); [|done..].
    destruct Am as (_ & A2 & A3). split_and!; auto.
  - destruct (cancelled s); intros [= <-] A T. done.
  - apply main_step_answered.
Qed.

Lemma run_answered es s s' : runs es s = Some s' → answered s → answered s'.
Proof.
  revert s. induction es as [|e es IH]; intros s; cbn; [by intros [= ->]|].
  intros (s1 & H & Hr)%bind_Some A. eapply IH; [exact Hr|]. by eapply event_answered.
Qed.
End runs.

Lemma start_answered forward r acquired c : answered (start forward r acquired c).
Proof.
  unfold start, answered. destruct (Question r) as [|origin qs]; [done|].
  destruct acquired; [|done]. destruct (search_list forward origin c) as [names c']. cbn.
  intros _. split_and!; try done. intros (j & Hj)%list_elem_of_lookup.
  apply list_lookup_fmap_Some in Hj as ([? ?] & ? & ?). done.
Qed.

(** ** What the replies say *)

Section content.
Context (exchange : Msg → string → option Msg) (forward : ClientConfig).
Context (origin : string) (r0 : Msg) (c0 : Cache) (names : list string).

(** A server gave [a] when it was asked for [name]. *)
Definition answer_of (name : string) (a : Msg) : Prop :=
  ∃ q server, (name, server) ∈ targets forward names ∧
    Question q = (λ _, name) <$> Question r0 ∧
    exchange q (JoinHostPort server (cc_Port forward)) = Some a ∧ Answer a ≠ [].

(** A reply to the request: its identifier and question, and no answer but a server's
    under the name that was asked. *)
Definition truthful (m : Msg) : Prop :=
  Id m = Id r0 ∧ Question m = Question r0 ∧
  (Answer m = Answer r0 ∨ ∃ name a, answer_of name a ∧ Answer m = rename origin <$> Answer a).

Definition remembered (e : string * string) : Prop :=
  e ∈ c0 ∨ (e.1 = origin ∧ ∃ a, answer_of e.2 a).

Definition worker_ok (w : Worker) : Prop :=
  match w with
  | WStart name server => (name, server) ∈ targets forward names
  | WAsked name server q =>
      (name, server) ∈ targets forward names ∧ Question q = (λ _, name) <$> Question r0
  | WGot name a => answer_of name a
  | _ => True
  end.

Definition sound (s : State) : Prop :=
  truthful (req s) ∧ Forall truthful (replies s) ∧ Forall worker_ok (workers s) ∧
  Forall remembered (cache s).

Lemma sound_worker i w s : worker_ok w → sound s → sound (set_worker i w s).
Proof.
  intros Hw (? & ? & ? & ?). split_and!; try done. by apply Forall_insert.
Qed.

Lemma sound_write s : sound s → sound (write s).
Proof.
  intros (? & ? & ? & ?). unfold write. destruct (closed s); [done|].
  split_and!; try done. cbn. by apply Forall_app_2; [|constructor].
Qed.

Lemma cache_drop_sub k c (P : string * string → Prop) : Forall P c → Forall P (cache_drop k c).
Proof.
  unfold cache_drop. induction 1 as [|e c He _ IH]; cbn; [done|]. destruct (negb _); [by constructor|done].
Qed.

Lemma cache_Add_Forall k v c (P : string * string → Prop) :
  P (k, v) → Forall P c → Forall P (cache_Add k v c).
Proof. intros Hp Hc. apply Forall_take. constructor; [done|by apply cache_drop_sub]. Qed.

Lemma worker_step_sound id i w s s' :
  workers s !! i = Some w → worker_step exchange forward origin id i w s = Some s' →
  sound s → sound s'.
Proof.
  intros Hi H S. pose proof S as ((Hid & Hq & Ha) & Hr & Hw & Hc).
  assert (W : worker_ok w) by (by eapply Forall_lookup_1).
  destruct w; cbn in H, W.
  - simplify_eq. apply sound_worker; [|done]. split; [done|]. cbn. by rewrite Hq.
  - destruct (exchange _ _) as [a|] eqn:E; [|simplify_eq; by apply sound_worker].
    destruct (Answer a) eqn:Ea; simplify_eq; apply sound_worker; try done.
    cbn. exists q, server. destruct W. by rewrite Ea.
  - simplify_eq. apply sound_worker; [done|]. split_and!; try done.
    + split_and!; [done..|]. right. eauto.
    + apply cache_Add_Forall; [|done]. right. split; [done|]. eauto.
  - simplify_eq. apply sound_worker; [|done]. by destruct (cancelled s).
  - simplify_eq. by apply sound_worker.
  - simplify_eq. apply sound_worker; [done|]. by apply sound_write.
  - simplify_eq. by apply sound_worker.
  - done.
Qed.

Lemma event_sound e s s' : exec_event exchange forward origin e s = Some s' → sound s → sound s'.
Proof.
  destruct e as [i id| | |]; cbn.
  - intros (w & Hi & H)%bind_Some. by eapply worker_step_sound.
  - by destruct (_ && _); intros [= <-].
  - by destruct (cancelled s); intros [= <-].
  - unfold main_step. destruct (main s); intros H (Ht & Hr & Hw & Hc); repeat case_match; simplify_eq; try done.
    apply (sound_write (set_req (set_Response true (req s)) (cache s) s)). done.
Qed.

Lemma run_sound es s s' : run exchange forward origin es s = Some s' → sound s → sound s'.
Proof.
  revert s. induction es as [|e es IH]; intros s; cbn; [by intros [= ->]|].
  intros (s1 & H & Hr)%bind_Some A. eapply IH; [exact Hr|]. by eapply event_sound.
Qed.
End content.

Lemma cache_find_elem k v c : cache_find k c = Some v → (k, v) ∈ c.
Proof.
  unfold cache_find. intros ([k' v'] & H & [= <-])%fmap_Some. apply find_some in H as [Hin He].
  apply String.eqb_eq in He. cbn in He. subst. by apply list_elem_of_In.
Qed.

Lemma cache_Get_sub k c : Forall (.∈ c) (cache_Get k c).2.
Proof.
  unfold cache_Get. destruct (cache_find k c) as [v|] eqn:E; [|by apply Forall_forall].
  constructor; [by apply cache_find_elem|]. apply cache_drop_sub. by apply Forall_forall.
Qed.

Lemma search_list_cache forward origin c : (search_list forward origin c).2 = (cache_Get origin c).2.
Proof. unfold search_list. by destruct (cache_Get origin c) as [[] ?]. Qed.

Lemma sound_start exchange forward r c origin qs :
  Question r = origin :: qs →
  sound exchange forward origin r c (search_list forward origin c).1 (start forward r true c).
Proof.
  intros Hq. unfold start. rewrite Hq. pose proof (cache_Get_sub origin c) as Hc.
  rewrite <-(search_list_cache forward) in Hc.
  destruct (search_list forward origin c) as [names c']. cbn in *. split_and!; cbn; try done.
  - split_and!; try done. by left.
  - apply Forall_fmap, Forall_forall. by intros [n s] Hin.
  - eapply Forall_impl; [exact Hc|]. intros e He. by left.
Qed.

Lemma start_measure forward r acquired c :
  measure (start forward r acquired c) ≤ 7 * length (workers (start forward r acquired c)) + 4.
Proof.
  unfold measure. cut (sum_list_with wrank (workers (start forward r acquired c))
    ≤ 7 * length (workers (start forward r acquired c))).
  { destruct (main _), (cancelled _); cbn [mrank]; lia. }
  induction (workers _) as [|w ws IH]; [done|].
  change (wrank w + sum_list_with wrank ws ≤ 7 * S (length ws)).
  assert (wrank w ≤ 7) by (destruct w; cbn; lia). lia.
Qed.

(** C28. Serving a query ends, and the client has a reply: whatever the order of the
    goroutines' steps, at most seven per goroutine and four more happen; from every state
    on the way the rest can run, without the timer, until [ServeDNS] has returned and every
    goroutine has finished; and when [ServeDNS] has returned and its timer has not fired, a
    reply has been written. *)
Theorem serve_dns_replies exchange forward r acquired c es s
  (Hrun : run exchange forward (origin_of r) es (start forward r acquired c) = Some s) :
  length es ≤ 7 * length (workers (start forward r acquired c)) + 4 ∧
  (∃ es' s', run exchange forward (origin_of r) es' s = Some s' ∧ (ETimeout ∉ es') ∧
     main s' = MReturned ∧ forallb is_done (workers s') = true) ∧
  (main s = MReturned → timed_out s = false → replies s ≠ []).
Proof.
  split_and!.
  - apply run_bound in Hrun. pose proof (start_measure forward r acquired c). lia.
  - by apply (completes_within _ _ _ (measure s)).
  - apply run_answered in Hrun; [|apply start_answered]. intros M T.
    destruct (Hrun T) as [_ H]. by rewrite M in H.
Qed.

(** Every reply written is a reply to the request - its identifier, its question -
    and its answers are those a cluster server gave for one of the candidate names, put
    under the name that was asked; and the only name the server learns for it is one that
    has five or six dots and that a server answered. *)
Theorem serve_dns_truthful exchange forward r c origin qs es s
  (Hq : Question r = origin :: qs)
  (Hrun : run exchange forward origin es (start forward r true c) = Some s) :
  let names := (search_list forward origin c).1 in
  (∀ m, m ∈ replies s → truthful exchange forward origin r names m) ∧
  (∀ k v, (k, v) ∈ cache s → (k, v) ∈ c ∨
     (k = origin ∧ v ∈ names ∧ dots_ok v = true ∧ ∃ a, answer_of exchange forward r names v a)).
Proof.
  apply (run_sound exchange forward origin r c (search_list forward origin c).1) in Hrun;
    [|by eapply sound_start].
  destruct Hrun as (_ & Hr & _ & Hc). cbn zeta. split; [by apply Forall_forall|].
  intros k v Hkv. rewrite Forall_forall in Hc. destruct (Hc _ Hkv) as [|(? & a & Ha)]; [by left|right].
  cbn in *. split; [done|]. pose proof Ha as (q & server & Hin & _).
  apply list_elem_of_bind in Hin as (n & Hin & Hn).
  apply list_elem_of_fmap in Hin as (? & [= -> ->] & _). apply list_elem_of_filter in Hn as [? ?]. eauto.
Qed.

(** When the semaphore is not free in time the request is refused without a word. *)
Lemma refused_silent exchange forward r c es s origin qs :
  Question r = origin :: qs →
  run exchange forward origin es (start forward r false c) = Some s → replies s = [].
Proof.
  intros Hq. unfold start. rewrite Hq.
  assert (∀ m cl, run exchange forward origin es
    (MkState (refuse r) c false true true cl [] m []) = Some s → m = MClose ∨ m = MReturned → replies s = []).
  { induction es as [|e es IH]; intros m cl; cbn; [by intros [= <-]|].
    intros (s1 & H & Hr)%bind_Some Hm. destruct e as [i id| | |]; cbn in H; try done.
    destruct Hm as [-> | ->]; cbn in H; simplify_eq. eapply IH; [exact Hr|by right]. }
  eauto.
Qed.

(** ** Examples *)

Definition example_forward (servers : list string) : ClientConfig :=
  MkClientConfig servers ["default.svc.cluster.local"; "svc.cluster.local"; "cluster.local"] "53" 5 2 0.
Definition example_query : Msg :=
  MkMsg 4242 false 0 false false true false false false false 0 ["productpage."] [] [] [].
Definition example_exchange (q : Msg) (server : string) : option Msg :=
  Some (MkMsg (Id q) true 0 true false true true false false false 0 (Question q)
    ((λ n, MkRR n "172.21.1.7") <$> Question q) [] []).

Definition at_worker (i : nat) : Event := EWorker i 7.

(** One server, one goroutine: the answer is written under the short name. *)
Definition example_run : list Event := [at_worker 0; at_worker 0; at_worker 0; at_worker 0; at_worker 0; at_worker 0; at_worker 0; EMain; EMain].

Example example_reply :
  (map (λ m, (Id m, Question m, Answer m)) ∘ replies) <$>
    run example_exchange (example_forward ["10.96.0.10"]) "productpage." example_run
      (start (example_forward ["10.96.0.10"]) example_query true [])
  = Some [(4242%Z, ["productpage."], [MkRR "productpage." "172.21.1.7"])].
Proof. vm_compute. reflexivity. Qed.

(** The timer fires between the flag and the reply: the flag says that a reply was
    written, the writer is closed, and there is none. *)
Example lost_reply :
  (λ s, (replies s, main s, forallb is_done (workers s))) <$>
    run example_exchange (example_forward ["10.96.0.10"]) "productpage."
      [at_worker 0; at_worker 0; at_worker 0; at_worker 0; at_worker 0; ETimeout; EMain; EMain; at_worker 0; at_worker 0]
      (start (example_forward ["10.96.0.10"]) example_query true [])
  = Some ([], MReturned, true).
Proof. vm_compute. reflexivity. Qed.

(** Two goroutines pass the check before either cancels: the client gets two replies. *)
Example two_replies :
  (λ s, (length (replies s), main s)) <$>
    run example_exchange (example_forward ["10.96.0.10"; "10.96.0.11"]) "productpage."
      [at_worker 0; at_worker 0; at_worker 0; at_worker 0; at_worker 1; at_worker 1; at_worker 1; at_worker 1; at_worker 0; at_worker 0; at_worker 1; at_worker 1; at_worker 0; EMain; EMain; at_worker 1]
      (start (example_forward ["10.96.0.10"; "10.96.0.11"]) example_query true [])
  = Some (2%nat, MReturned).
Proof. vm_compute. reflexivity. Qed.

Definition example_end : option State :=
  run example_exchange (example_forward ["10.96.0.10"]) "productpage." example_run
    (start (example_forward ["10.96.0.10"]) example_query true []).
Definition example_state : State := default (start (example_forward []) example_query true []) example_end.

Lemma example_end_state :
  run example_exchange (example_forward ["10.96.0.10"]) "productpage." example_run
    (start (example_forward ["10.96.0.10"]) example_query true []) = Some example_state.
Proof. vm_compute. reflexivity. Qed.

Lemma example_end_origin :
  run example_exchange (example_forward ["10.96.0.10"]) (origin_of example_query) example_run
    (start (example_forward ["10.96.0.10"]) example_query true []) = Some example_state.
Proof. vm_compute. reflexivity. Qed.

Lemma serve_dns_replies_witness :
  (length example_run ≤ 7 * length (workers (start (example_forward ["10.96.0.10"]) example_query true [])) + 4)%nat ∧
  (∃ es' s', run example_exchange (example_forward ["10.96.0.10"]) (origin_of example_query) es' example_state = Some s' ∧
     (ETimeout ∉ es') ∧ main s' = MReturned ∧ forallb is_done (workers s') = true) ∧
  (main example_state = MReturned → timed_out example_state = false → replies example_state ≠ []).
Proof.
  exact (serve_dns_replies example_exchange (example_forward ["10.96.0.10"]) example_query true [] example_run
    example_state example_end_origin).
Defined.

Lemma serve_dns_truthful_witness :
  let names := (search_list (example_forward ["10.96.0.10"]) "productpage." []).1 in
  (∀ m, m ∈ replies example_state →
     truthful example_exchange (example_forward ["10.96.0.10"]) "productpage." example_query names m) ∧
  (∀ k v, (k, v) ∈ cache example_state → (k, v) ∈ ([] : Cache) ∨
     (k = "productpage." ∧ v ∈ names ∧ dots_ok v = true ∧
      ∃ a, answer_of example_exchange (example_forward ["10.96.0.10"]) example_query names v a)).
Proof.
  exact (serve_dns_truthful example_exchange (example_forward ["10.96.0.10"]) example_query [] "productpage." []
    example_run example_state eq_refl example_end_state).
Defined.
