(* ===== verification/PortForward.v ===== *)
(** * Port forwarding

    [pkg/util/portforward.go]: a forwarder parses its port and address arguments,
    listens for every pair of them and gives every accepted connection a number; and
    [portForward], [checkPodStatus] and [GetRunningPodList] of [pkg/handler/connect.go],
    which keep forwarding to some running pod of the traffic manager.  The sockets of
    the host are a set of bound addresses; which ports it refuses and which one it picks
    for port 0 are parameters. *)
From Stdlib Require Import ZArith Lia Ascii.
From stdpp Require Import base gmap strings numbers list sorting pretty.
From S2P Require Import Prelude GoStrings GoNet Url.

(** ** Ports *)

Record ForwardedPort := MkForwardedPort { Local : Z; Remote : Z }.

#[export] Instance ForwardedPort_eq_dec : EqDecision ForwardedPort.
Proof. solve_decision. Defined.

Definition parse_port (portString : string) : outcome ForwardedPort :=
  match match Split ":" portString with
        | [p] => Some (p, p)
        | [l; r] => Some (if String.eqb l "" then "0" else l, r)
        | _ => None
        end with
  | None => Fail (Errorf "invalid port format")
  | Some (localString, remoteString) =>
      match ParseUint 16 localString with
      | None => Fail (Errorf "error parsing local port")
      | Some localPort =>
          match ParseUint 16 remoteString with
          | None => Fail (Errorf "error parsing remote port")
          | Some remotePort =>
              if (remotePort =? 0)%Z then Fail (Errorf "remote port must be > 0")
              else Ret (MkForwardedPort localPort remotePort)
          end
      end
  end.

Fixpoint parsePorts (ports : list string) : outcome (list ForwardedPort) :=
  match ports with
  | [] => Ret []
  | p :: ports => f ← parse_port p; fs ← parsePorts ports; Ret (f :: fs)
  end.

(** ** Addresses *)

Record listenAddress := MkListenAddress { address : string; protocol : string; failureMode : string }.

Definition add_address (parsed : gmap string listenAddress) (a : string)
  : outcome (gmap string listenAddress) :=
  if String.eqb a "localhost" then
    let parsed := match parsed !! "127.0.0.1" with
                  | None => <["127.0.0.1" := MkListenAddress "127.0.0.1" "tcp4" "all"]> parsed
                  | Some _ => parsed end in
    Ret match parsed !! "::1" with
        | None => <["::1" := MkListenAddress "::1" "tcp6" "all"]> parsed
        | Some _ => parsed end
  else match ParseIP a with
       | None => Fail (Errorf (a +:+ " is not a valid IP"))
       | Some ip =>
           match To4 ip with
           | Some _ => Ret (<[a := MkListenAddress a "tcp4" "any"]> parsed)
           | None => Ret (<[a := MkListenAddress a "tcp6" "any"]> parsed)
           end
       end.

Definition address_le (x y : listenAddress) : Prop := String.leb (address x) (address y) = true.
#[export] Instance address_le_dec : RelDecision address_le.
Proof. intros x y. unfold address_le. apply _. Defined.

Definition parseAddresses (addresses : list string) : outcome (list listenAddress) :=
  parsed ← foldl (λ p a, p ← p; add_address p a) (Ret ∅) addresses;
  Ret (merge_sort address_le (snd <$> map_to_list parsed)).

(** ** The forwarder *)

Record PortForwarder := MkPortForwarder {
  pf_addresses : list listenAddress; pf_ports : list ForwardedPort;
  pf_listeners : list (string * Z); pf_requestID : Z; pf_ready : bool }.

Definition NewOnAddresses (addresses ports : list string) : outcome PortForwarder :=
  match addresses with
  | [] => Fail (Errorf "you must specify at least 1 address")
  | _ =>
      parsedAddresses ← parseAddresses addresses;
      match ports with
      | [] => Fail (Errorf "you must specify at least 1 port")
      | _ => parsedPorts ← parsePorts ports;
             Ret (MkPortForwarder parsedAddresses parsedPorts [] 0 false)
      end
  end.

(** The bound sockets of the host. *)
Abbreviation Sockets := (gset (string * Z)).

Section listen.
Context (refuses : string → string → Z → bool).
Context (pick : string → Sockets → Z).

(** [net.Listen]: the port of the new socket. *)
Definition Listen (protocol hostname : string) (port : Z) (os : Sockets) : outcome (Z * Sockets) :=
  let port := if (port =? 0)%Z then pick hostname os else port in
  if refuses protocol hostname port || bool_decide ((hostname, port) ∈ os)
  then Fail (Errorf "unable to create listener")
  else Ret (port, {[ (hostname, port) ]} ∪ os).

(** [getListener] and [listenOnPortAndAddress]: the port the socket got is read back from
    its address and stored in the forwarded port. *)
Definition listenOnPortAndAddress (port : ForwardedPort) (a : listenAddress) (os : Sockets)
  : outcome (ForwardedPort * (string * Z) * Sockets) :=
  '(p, os) ← Listen (protocol a) (address a) (Local port) os;
  match SplitHostPort (JoinHostPort (address a) (Itoa p)) with
  | None => Fail (Errorf "error parsing local port")
  | Some (_, localPort) =>
      match ParseUint 16 localPort with
      | None => Fail (Errorf "error parsing local port")
      | Some l => Ret (MkForwardedPort l (Remote port), (address a, p), os)
      end
  end.

(** How many addresses of each failure mode succeeded and failed. *)
Record Counters := MkCounters { all_ok : nat; all_failed : nat; any_ok : nat; any_failed : nat }.
Definition count_result (mode : string) (ok : bool) (c : Counters) : Counters :=
  if String.eqb mode "all" then
    if ok then MkCounters (S (all_ok c)) (all_failed c) (any_ok c) (any_failed c)
    else MkCounters (all_ok c) (S (all_failed c)) (any_ok c) (any_failed c)
  else if String.eqb mode "any" then
    if ok then MkCounters (all_ok c) (all_failed c) (S (any_ok c)) (any_failed c)
    else MkCounters (all_ok c) (all_failed c) (any_ok c) (S (any_failed c))
  else c.

Fixpoint listen_addresses (addrs : list listenAddress) (port : ForwardedPort)
    (ls : list (string * Z)) (os : Sockets) (c : Counters)
  : ForwardedPort * list (string * Z) * Sockets * Counters :=
  match addrs with
  | [] => (port, ls, os, c)
  | a :: addrs =>
      match listenOnPortAndAddress port a os with
      | Ret (port, l, os) => listen_addresses addrs port (ls ++ [l]) os (count_result (failureMode a) true c)
      | _ => listen_addresses addrs port ls os (count_result (failureMode a) false c)
      end
  end.

Definition listen_failed (c : Counters) : bool :=
  ((all_ok c =? 0) && (0 <? all_failed c)) || (0 <? any_failed c).

(** [listenOnPort]: the port, the new listeners, and whether it is an error. *)
Definition listenOnPort (addrs : list listenAddress) (port : ForwardedPort) (os : Sockets)
  : ForwardedPort * list (string * Z) * Sockets * bool :=
  let '(port, ls, os, c) := listen_addresses addrs port [] os (MkCounters 0 0 0 0) in
  (port, ls, os, listen_failed c).

Fixpoint listen_ports (addrs : list listenAddress) (ports : list ForwardedPort) (os : Sockets)
  : list ForwardedPort * list (string * Z) * Sockets * bool :=
  match ports with
  | [] => ([], [], os, false)
  | p :: ports =>
      let '(p, ls, os, failed) := listenOnPort addrs p os in
      let '(ps, ls', os, success) := listen_ports addrs ports os in
      (p :: ps, ls ++ ls', os, negb failed || success)
  end.

(** [forward] up to its wait for the stop channel, and what it returns after it. *)
Definition forward_start (pf : PortForwarder) (os : Sockets) : PortForwarder * Sockets * option error :=
  let '(ports, ls, os, success) := listen_ports (pf_addresses pf) (pf_ports pf) os in
  let pf' := MkPortForwarder (pf_addresses pf) ports (pf_listeners pf ++ ls) (pf_requestID pf) success in
  (pf', os, if success then None else Some (Errorf "unable to listen on any of the requested ports")).

(** [Close]. *)
Definition Close (pf : PortForwarder) (os : Sockets) : Sockets := os ∖ list_to_set (pf_listeners pf).

(** [ForwardPorts] with a dialer that answers with [dialed], until it is stopped with
    [sent] in its error channel. *)
Definition ForwardPorts (pf : PortForwarder) (dialed : option error) (sent : option error) (os : Sockets)
  : PortForwarder * Sockets * option error :=
  match dialed with
  | Some e => (pf, Close pf os, Some (ErrorfV "error upgrading connection" e))
  | None =>
      let '(pf, os, err) := forward_start pf os in
      (pf, Close pf os, match err with Some e => Some e | None => sent end)
  end.

(** [GetPorts], with a Ready channel. *)
Definition GetPorts (pf : PortForwarder) : outcome (list ForwardedPort) :=
  if pf_ready pf then Ret (pf_ports pf) else Fail (Errorf "listeners not ready").
End listen.

(** ** Connections *)

(** [nextRequestID], an [int]. *)
Definition nextRequestID (pf : PortForwarder) : Z * PortForwarder :=
  (pf_requestID pf,
   MkPortForwarder (pf_addresses pf) (pf_ports pf) (pf_listeners pf) (wrap64 (pf_requestID pf + 1)) (pf_ready pf)).

Record Headers := MkHeaders { h_StreamType : string; h_Port : string; h_RequestID : string }.

(** The streams [handleConnection] asks for: the error stream, then, if it was created,
    the data stream. *)
Definition handleConnection (create : Headers → bool) (port : ForwardedPort) (pf : PortForwarder)
  : list Headers * PortForwarder :=
  let '(id, pf) := nextRequestID pf in
  let he := MkHeaders "error" (Itoa (Remote port)) (Itoa id) in
  if create he then ([he; MkHeaders "data" (Itoa (Remote port)) (Itoa id)], pf) else ([he], pf).

Fixpoint handle_all (create : Headers → bool) (conns : list ForwardedPort) (pf : PortForwarder)
  : list (list Headers) * PortForwarder :=
  match conns with
  | [] => ([], pf)
  | port :: conns =>
      let '(hs, pf) := handleConnection create port pf in
      let '(hss, pf) := handle_all create conns pf in
      (hs :: hss, pf)
  end.

(** The error channel holds one error: a report about a missing [socat] is kept if there
    is room. *)
Definition report_error (message : option string) (errChan : option string) : option string :=
  match message with
  | Some m => if Contains m "failed to find socat" then
                match errChan with None => Some m | Some e => Some e end
              else errChan
  | None => errChan
  end.

(** ** [portForward] of the connection *)

Record ManagerPod := MkManagerPod { mp_Name : string; mp_deleting : bool; mp_PodReady : bool; mp_ready : list bool }.

(** [util.AllContainerIsRunning]. *)
Definition AllContainerIsRunning (pod : ManagerPod) : bool := mp_PodReady pod && forallb id (mp_ready pod).

(** [GetRunningPodList], on what the API server listed. *)
Definition GetRunningPodList (listed : outcome (list ManagerPod)) : outcome (list ManagerPod) :=
  items ← listed;
  match remove_loop (λ p, mp_deleting p || negb (AllContainerIsRunning p)) items with
  | [] => Fail (Errorf "can not found any running pod")
  | items => Ret items
  end.

(** The events of a watch on the pod. *)
Inductive WatchEvent := Deleted | WatchError | Added | Modified | Bookmark | OtherEvent.

(** [checkPodStatus]: whether it cancels the forwarding. *)
Fixpoint checkPodStatus (events : list WatchEvent) : bool :=
  match events with
  | [] => false
  | Deleted :: _ => true
  | Added :: events | Modified :: events | Bookmark :: events => checkPodStatus events
  | WatchError :: _ | OtherEvent :: _ => false
  end.

(** One turn of the goroutine: what the pods were, and, when some pod is running, whether
    its forwarding became ready and what [PortForwardPod] returned. *)
Record Turn := MkTurn { t_pods : outcome (list ManagerPod); t_ready : bool; t_result : option error }.

(** What the caller of [portForward] can see: the channel that was closed, the value sent. *)
Inductive Signal := SReady | SErr (e : option error).

(** The goroutine: only the first forwarding signals.  It does not look at the context:
    its turns never end. *)
Fixpoint forward_turns (first : bool) (turns : list Turn) : list (string * list Signal) :=
  match turns with
  | [] => []
  | t :: turns =>
      match GetRunningPodList (t_pods t) with
      | Ret (p :: _) =>
          (mp_Name p, if first then (if t_ready t then [SReady] else []) ++ [SErr (t_result t)] else [])
            :: forward_turns false turns
      | _ => ("", []) :: forward_turns first turns
      end
  end.

(** What [portForward] returns: by the first signal, or by its timer after a minute. *)
Definition portForward (turns_before_timeout : list Turn) : option error :=
  match mjoin (snd <$> forward_turns true turns_before_timeout) with
  | [] => Some (Errorf "port forward timeout")
  | SReady :: _ => None
  | SErr e :: _ => e
  end.

(** ** Ports: the grammar *)

(** The specifications of the documentation: a port, a pair, a pair without a local port. *)
Inductive denotes : string → ForwardedPort → Prop :=
  | denotes_one s p :
      Count ":" s = 0 → ParseUint 16 s = Some p → p ≠ 0%Z → denotes s (MkForwardedPort p p)
  | denotes_pair l r a b :
      l ≠ "" → Count ":" l = 0 → Count ":" r = 0 →
      ParseUint 16 l = Some a → ParseUint 16 r = Some b → b ≠ 0%Z →
      denotes (l +:+ ":" +:+ r) (MkForwardedPort a b)
  | denotes_random r b :
      Count ":" r = 0 → ParseUint 16 r = Some b → b ≠ 0%Z →
      denotes (":" +:+ r) (MkForwardedPort 0 b).

Lemma Split_one c s p : Split c s = [p] → s = p ∧ Count c s = 0.
Proof.
  intros H. pose proof (Join_Split c s) as J. rewrite H in J. cbn in J. subst p. split; [done|].
  apply (f_equal length) in H. revert H. clear. induction s as [|a s IH]; [done|]. cbn.
  destruct (Ascii.eqb a c).
  - cbn. intros [= H]. exfalso. by apply (Split_nonempty c s), nil_length_inv.
  - intros H. apply IH. pose proof (Split_nonempty c s). destruct (Split c s); [done|]. exact H.
Qed.

Lemma Split_pieces c s : Forall (λ w, Count c w = 0) (Split c s).
Proof.
  induction s as [|a s IH]; [by repeat constructor|]. cbn. destruct (Ascii.eqb a c) eqn:E; [by constructor|].
  pose proof (Split_nonempty c s). destruct (Split c s) as [|w ws]; [done|].
  inversion IH; subst. constructor; [|done]. cbn. by rewrite E.
Qed.

Lemma Split_two c s l r : Split c s = [l; r] → s = l +:+ String c r ∧ Count c l = 0 ∧ Count c r = 0.
Proof.
  intros H. pose proof (Join_Split c s) as J. pose proof (Split_pieces c s) as P. rewrite H in J, P.
  cbn in J. rewrite <-J. inversion P as [|? ? ? P']; subst. inversion P'; subst.
  split_and!; try done.
Qed.

Lemma parse_port_denotes s f : parse_port s = Ret f ↔ denotes s f.
Proof.
  unfold parse_port. split.
  - destruct (Split ":" s) as [|p [|q [|]]] eqn:E; [done| | |done].
    + apply Split_one in E as [<- Hc]. destruct (ParseUint 16 s) as [n|] eqn:Ep; [|done].
      destruct (Z.eqb_spec n 0); [done|]. intros [= <-]. by constructor.
    + apply Split_two in E as (-> & Hp & Hq).
      destruct (String.eqb_spec p "") as [->|Hne].
      * change (ParseUint 16 "0") with (Some 0%Z). destruct (ParseUint 16 q) as [n|] eqn:Eq; [|done].
        destruct (Z.eqb_spec n 0); [done|]. intros [= <-]. by apply denotes_random.
      * destruct (ParseUint 16 p) as [m|] eqn:Em; [|done]. destruct (ParseUint 16 q) as [n|] eqn:Eq; [|done].
        destruct (Z.eqb_spec n 0); [done|]. intros [= <-]. by apply denotes_pair.
  - destruct 1 as [s p Hc Hp Hn|l r a b Hne Hl Hr Ha Hb Hn|r b Hr Hb Hn].
    + rewrite Split_word by done. cbn. rewrite Hp. by destruct (Z.eqb_spec p 0).
    + change (l +:+ ":" +:+ r) with (l +:+ String ":" r). rewrite Split_app, Split_word by done.
      apply String.eqb_neq in Hne. rewrite Hne, Ha, Hb. by destruct (Z.eqb_spec b 0).
    + change (":" +:+ r) with ("" +:+ String ":" r). rewrite Split_app, Split_word by done.
      change (ParseUint 16 (if String.eqb "" "" then "0" else "")) with (Some 0%Z). rewrite Hb.
      by destruct (Z.eqb_spec b 0).
Qed.

(** C30. [parsePorts] accepts exactly the documented specifications and gives each its
    meaning: the arguments denote the pairs returned, one by one; anything else is an error
    and nothing panics. *)
Theorem parsePorts_grammar ports :
  (∀ fs, parsePorts ports = Ret fs ↔ Forall2 denotes ports fs) ∧ parsePorts ports ≠ Panic.
Proof.
  induction ports as [|p ports [IH IHp]]; cbn.
  { split; [|done]. intros fs. split; [by intros [= <-]|]. by intros ->%Forall2_nil_inv_l. }
  split.
  - intros fs. split.
    + intros (f & Hf & (fs' & Hfs & [= <-])%outcome_bind_Ret)%outcome_bind_Ret.
      constructor; [by apply parse_port_denotes|by apply IH].
    + intros (f & fs' & Hf%parse_port_denotes & Hfs%IH & ->)%Forall2_cons_inv_l. by rewrite Hf, Hfs.
  - assert (Hp : parse_port p ≠ Panic) by (unfold parse_port; repeat case_match; done).
    by destruct (parse_port p), (parsePorts ports).
Qed.

(** ** Sockets *)

Lemma IndexStr_char c s t : Count c s = 0 → IndexStr (String c "") (s +:+ String c t) = Some (String.length s).
Proof.
  intros H. induction s as [|a s IH].
  - change ("" +:+ String c t) with (String c t). cbn [IndexStr].
    by rewrite (HasPrefix_app (String c "") t : HasPrefix (String c t) (String c "") = true).
  - rewrite str_app_cons. cbn [Count] in H. cbn [IndexStr String.length].
    assert (HasPrefix (String a (s +:+ String c t)) (String c "") = false) as ->.
    { unfold HasPrefix. cbn. destruct (Ascii.ascii_dec c a) as [->|]; [|done].
      rewrite Ascii.eqb_refl in H. lia. }
    rewrite IH; [done|]. lia.
Qed.

(** An address and a port joined come apart again. *)
Lemma SplitHostPort_Join host port :
  Count "[" host = 0 → Count "]" host = 0 →
  Count ":" port = 0 → Count "[" port = 0 → Count "]" port = 0 →
  SplitHostPort (JoinHostPort host port) = Some (host, port).
Proof.
  intros Ho Hc Pc Po Pb. unfold SplitHostPort, JoinHostPort.
  destruct (one_of host ":") eqn:E.
  - set (hp := "[" +:+ host +:+ "]:" +:+ port).
    assert (E1 : hp = ("[" +:+ host +:+ "]") +:+ String ":" port) by (unfold hp; by rewrite !str_app_assoc).
    assert (E2 : hp = ("[" +:+ host) +:+ String "]" (":" +:+ port)) by (unfold hp; by rewrite !str_app_assoc).
    rewrite E1 at 1. rewrite LastIndex_app by done. cbn [mbind option_bind].
    assert (HasPrefix hp "[" = true) as -> by (unfold hp; apply HasPrefix_app).
    rewrite E2 at 1. rewrite IndexStr_char by (rewrite Count_app, Hc; reflexivity). cbn [mbind option_bind].
    rewrite !length_str_app. change (String.length "[") with 1. change (String.length "]") with 1.
    assert ((S (1 + String.length host) =? 1 + (String.length host + 1)) = true) as -> by (apply Nat.eqb_eq; lia).
    cbn [negb]. change (str_drop 1 hp) with (host +:+ "]:" +:+ port).
    assert (one_of (host +:+ "]:" +:+ port) "[" = false) as ->
      by (unfold one_of; by rewrite !Count_app, Ho, Po).
    assert (str_drop (S (1 + String.length host)) hp = ":" +:+ port) as ->.
    { transitivity (str_drop (String.length (("[" +:+ host) +:+ "]")) ((("[" +:+ host) +:+ "]") +:+ (":" +:+ port)));
        [|apply str_drop_app].
      rewrite !length_str_app, E2. f_equal; [cbn; lia|]. by rewrite !str_app_assoc. }
    assert (one_of (":" +:+ port) "]" = false) as -> by (unfold one_of; by rewrite Count_app, Pb).
    cbn [orb].
    assert (str_take (1 + String.length host) hp = "[" +:+ host) as ->.
    { rewrite E2. change (1 + String.length host) with (String.length ("[" +:+ host)). apply str_take_app. }
    assert (str_drop (S (1 + (String.length host + 1))) hp = port) as ->; [|done].
    transitivity (str_drop (String.length (("[" +:+ host +:+ "]") +:+ ":")) ((("[" +:+ host +:+ "]") +:+ ":") +:+ port));
      [|apply str_drop_app].
    rewrite !length_str_app, E1. f_equal; [cbn; lia|]. by rewrite !str_app_assoc.
  - set (hp := host +:+ ":" +:+ port).
    assert (E1 : hp = host +:+ String ":" port) by done.
    rewrite E1 at 1. rewrite LastIndex_app by done. cbn [mbind option_bind].
    assert (Hb : ∀ c, Count c host = 0 → Count c port = 0 → c ≠ ":"%char → one_of hp c = false).
    { intros c H1 H2 H3. unfold one_of, hp. rewrite !Count_app, H1, H2. cbn [Count].
      destruct (Ascii.eqb_spec ":" c); [congruence|done]. }
    assert (HasPrefix hp "[" = false) as ->.
    { destruct (HasPrefix hp "[") eqn:Hp; [|done]. exfalso. specialize (Hb "["%char Ho Po ltac:(done)).
      unfold one_of in Hb. clear E1. clearbody hp. destruct hp as [|a s]; [done|]. unfold HasPrefix in Hp. cbn [String.prefix] in Hp.
      destruct (Ascii.ascii_dec "[" a) as [<-|]; [|done]. apply Nat.ltb_ge in Hb. cbn [Count] in Hb. rewrite Ascii.eqb_refl in Hb. lia. }
    rewrite (Hb "["%char), (Hb "]"%char) by done. unfold hp. rewrite str_take_app, E.
    cbn [orb]. do 2 f_equal.
    transitivity (str_drop (String.length (host +:+ ":")) ((host +:+ ":") +:+ port)); [|apply str_drop_app].
    rewrite length_str_app, str_app_assoc. f_equal. cbn. lia.
Qed.

Section sockets.
Context (refuses : string → string → Z → bool) (pick : string → Sockets → Z).
(** The host picks a port of the ephemeral range. *)
Context (Hpick : ∀ h os, (0 < pick h os < 65536)%Z).

Definition plain_address (a : listenAddress) : Prop := Count "[" (address a) = 0 ∧ Count "]" (address a) = 0.

Lemma Itoa_no_bracket c p : digit c = None → (0 ≤ p)%Z → Count c (Itoa p) = 0.
Proof. apply Count_Itoa. Qed.

(** A listener that was opened is new, has the number the port now has, and keeps a
    number that was asked for. *)
Lemma listen_one port a os port' l os' :
  (0 ≤ Local port < 65536)%Z → plain_address a →
  listenOnPortAndAddress refuses pick port a os = Ret (port', l, os') →
  l = (address a, Local port') ∧ (l ∉ os) ∧ os' = {[ l ]} ∪ os ∧
  (0 < Local port' < 65536)%Z ∧ Remote port' = Remote port ∧ (Local port ≠ 0%Z → Local port' = Local port).
Proof.
  intros Hr [Ho Hc] H. unfold listenOnPortAndAddress in H.
  apply outcome_bind_Ret in H as ([p os1] & HL & H). unfold Listen in HL.
  set (q := if (Local port =? 0)%Z then pick (address a) os else Local port) in HL.
  assert (Hq : (0 < q < 65536)%Z).
  { unfold q. destruct (Z.eqb_spec (Local port) 0); [apply Hpick|lia]. }
  destruct (refuses _ _ _ || _) eqn:E; [done|]. apply orb_false_iff in E as [_ E].
  apply bool_decide_eq_false in E. injection HL as <- <-.
  rewrite SplitHostPort_Join in H by (done || (apply Itoa_no_bracket; [done|lia])).
  rewrite ParseUint_Itoa in H by lia. injection H as <- <- <-. cbn.
  split_and!; try done; try lia. intros Hn. unfold q. by destruct (Z.eqb_spec (Local port) 0).
Qed.

(** The addresses of one port: the listeners opened all have the port's final number. *)
Lemma listen_addresses_spec addrs : ∀ port ls os c port' ls' os' c',
  (0 ≤ Local port < 65536)%Z → Forall plain_address addrs →
  listen_addresses refuses pick addrs port ls os c = (port', ls', os', c') →
  ∃ new, ls' = ls ++ new ∧ os' = list_to_set new ∪ os ∧ (∀ l, l ∈ new → l ∉ os) ∧
    (∀ l, l ∈ new → ∃ a, a ∈ addrs ∧ l = (address a, Local port')) ∧
    (0 ≤ Local port' < 65536)%Z ∧ Remote port' = Remote port ∧ (Local port ≠ 0%Z → Local port' = Local port).
Proof.
  induction addrs as [|a addrs IH]; intros port ls os c port' ls' os' c' Hr Hf; cbn [listen_addresses].
  { intros [= <- <- <- <-]. exists []. rewrite app_nil_r. split_and!; try done; set_solver. }
  apply Forall_cons_1 in Hf as [Ha Hf].
  destruct (listenOnPortAndAddress refuses pick port a os) as [[[port1 l] os1]|e|] eqn:E.
  - destruct (listen_one _ _ _ _ _ _ Hr Ha E) as (-> & Hn & -> & Hr1 & Hre & Hk).
    intros (new & -> & -> & Hnew & Hmem & Hr' & Hre' & Hk')%IH; [|lia|done].
    assert (Local port' = Local port1) as Hl by (apply Hk'; lia).
    exists ((address a, Local port1) :: new). rewrite <-app_assoc. split_and!; try lia; try done; try congruence.
    + cbn. set_solver.
    + intros l [->|Hin]%elem_of_cons; [done|]. specialize (Hnew l Hin). set_solver.
    + intros l [->|Hin]%elem_of_cons; [exists a; rewrite Hl; set_solver|].
      destruct (Hmem l Hin) as (a' & ? & ->). exists a'. set_solver.
  - intros H. destruct (IH _ _ _ _ _ _ _ _ Hr Hf H) as (new & ? & ? & ? & Hmem & ?). exists new.
    split_and!; try tauto. intros l Hin. destruct (Hmem l Hin) as (a' & ? & ?). exists a'. set_solver.
  - intros H. destruct (IH _ _ _ _ _ _ _ _ Hr Hf H) as (new & ? & ? & ? & Hmem & ?). exists new.
    split_and!; try tauto. intros l Hin. destruct (Hmem l Hin) as (a' & ? & ?). exists a'. set_solver.
Qed.

Definition port_range (p : ForwardedPort) : Prop := (0 ≤ Local p < 65536)%Z.

(** All ports: the sockets the forwarder opened, each for an address and a port of its own. *)
Lemma listen_ports_spec addrs ports : ∀ os ports' ls os' success,
  Forall port_range ports → Forall plain_address addrs →
  listen_ports refuses pick addrs ports os = (ports', ls, os', success) →
  os' = list_to_set ls ∪ os ∧ (∀ l, l ∈ ls → l ∉ os) ∧
  (∀ l, l ∈ ls → ∃ a p, a ∈ addrs ∧ p ∈ ports' ∧ l = (address a, Local p)) ∧
  Forall2 (λ p p', Remote p' = Remote p ∧ (Local p ≠ 0%Z → Local p' = Local p)) ports ports'.
Proof.
  induction ports as [|p ports IH]; intros os ports' ls os' success Hp Ha; cbn [listen_ports].
  { intros [= <- <- <- <-]. split_and!; try done; set_solver. }
  apply Forall_cons_1 in Hp as [Hr Hp]. unfold listenOnPort.
  destruct (listen_addresses _ _ _ _ _ _ _) as [[[p1 ls1] os1] c1] eqn:E.
  destruct (listen_addresses_spec _ _ _ _ _ _ _ _ _ Hr Ha E) as (new & -> & -> & Hnew & Hmem & _ & Hre & Hk).
  destruct (listen_ports refuses pick addrs ports _) as [[[ps ls2] os2] ok] eqn:E2.
  intros [= <- <- <- <-]. destruct (IH _ _ _ _ _ Hp Ha E2) as (-> & Hn2 & Hm2 & HF).
  cbn [app]. split_and!.
  - rewrite list_to_set_app_L. set_solver.
  - intros l [Hl|Hl]%elem_of_app; [by apply Hnew|]. specialize (Hn2 l Hl). set_solver.
  - intros l [Hl|Hl]%elem_of_app.
    + destruct (Hmem l Hl) as (a & ? & ->). exists a, p1. set_solver.
    + destruct (Hm2 l Hl) as (a & p' & ? & ? & ->). exists a, p'. set_solver.
  - constructor; done.
Qed.
End sockets.

(** The sockets of a forwarder: starting to forward opens new sockets only, one
    number per forwarded port, the requested one if there was one; it succeeds, and its
    ports can be read, exactly when it is ready; and [ForwardPorts] returns with the host's
    sockets as they were, whether it could dial, could listen, or was stopped. *)
Theorem forward_ports_sockets refuses pick pf os dialed sent
  (Hpick : ∀ h s, (0 < pick h s < 65536)%Z)
  (Hports : Forall port_range (pf_ports pf)) (Haddrs : Forall plain_address (pf_addresses pf))
  (Hfresh : pf_listeners pf = []) :
  ∃ pf' os' err,
    forward_start refuses pick pf os = (pf', os', err) ∧
    os' = list_to_set (pf_listeners pf') ∪ os ∧
    (∀ l, l ∈ pf_listeners pf' → (l ∉ os) ∧
       ∃ a p, a ∈ pf_addresses pf ∧ p ∈ pf_ports pf' ∧ l = (address a, Local p)) ∧
    Forall2 (λ p p', Remote p' = Remote p ∧ (Local p ≠ 0%Z → Local p' = Local p)) (pf_ports pf) (pf_ports pf') ∧
    (err = None ↔ GetPorts pf' = Ret (pf_ports pf')) ∧
    (ForwardPorts refuses pick pf dialed sent os).1.2 = os.
Proof.
  unfold ForwardPorts, forward_start.
  destruct (listen_ports refuses pick (pf_addresses pf) (pf_ports pf) os) as [[[ps ls] os'] ok] eqn:E.
  destruct (listen_ports_spec refuses pick Hpick _ _ _ _ _ _ _ Hports Haddrs E) as (-> & Hn & Hm & HF).
  do 3 eexists. split; [done|]. rewrite Hfresh. cbn. split_and!; try done.
  - intros l Hl. split; [by apply Hn|by apply Hm].
  - unfold GetPorts. cbn. by destruct ok.
  - unfold Close. destruct dialed as [e|]; cbn; [rewrite Hfresh; set_solver|].
    apply set_eq. intros l. rewrite elem_of_difference, elem_of_union, elem_of_list_to_set.
    split; [tauto|]. intros Hl. split; [by right|]. intros Hin. by apply (Hn l Hin).
Qed.

(** ** The connection's forwarding *)

Lemma GetRunningPodList_running listed p ps :
  GetRunningPodList listed = Ret (p :: ps) →
  ∃ items, listed = Ret items ∧ p ∈ items ∧ mp_deleting p = false ∧ AllContainerIsRunning p = true.
Proof.
  intros (items & -> & H)%outcome_bind_Ret. exists items. split; [done|].
  destruct (remove_loop _ items) as [|q qs] eqn:E; [done|]. injection H as -> ->.
  assert (Hin : In p (remove_loop (λ p, mp_deleting p || negb (AllContainerIsRunning p)) items))
    by (rewrite E; by left).
  apply remove_loop_In in Hin as [Hin Hp]. apply orb_false_iff in Hp as [? Hr%negb_false_iff].
  by rewrite list_elem_of_In.
Qed.

Lemma later_turns_silent turns : mjoin (snd <$> forward_turns false turns) = [].
Proof.
  induction turns as [|t turns IH]; [done|]. cbn. destruct (GetRunningPodList (t_pods t)) as [[|p ps]|e|]; exact IH.
Qed.

Lemma first_turns first pre turns :
  Forall (λ t, ∀ ps, GetRunningPodList (t_pods t) ≠ Ret ps) pre →
  forward_turns first (pre ++ turns) = ((λ _, ("", [])) <$> pre) ++ forward_turns first turns.
Proof.
  induction 1 as [|t pre Ht _ IH]; [done|]. cbn [app forward_turns]. rewrite IH.
  destruct (GetRunningPodList (t_pods t)) as [ps|e|]; [by destruct (Ht ps)|done..].
Qed.

(** [portForward] reports the first forwarding it could try and no other: turns in
    which no pod of the traffic manager was running are skipped; the pod used was listed, is
    not being deleted and has all its containers running; the caller gets nil when the
    forwarding became ready, and what it failed with when it did not; what happens in later
    turns is not reported to anybody. *)
Theorem portForward_decides pre t p ps post
  (Hpre : Forall (λ t, ∀ ps, GetRunningPodList (t_pods t) ≠ Ret ps) pre)
  (Ht : GetRunningPodList (t_pods t) = Ret (p :: ps)) :
  portForward (pre ++ t :: post) = (if t_ready t then None else t_result t) ∧
  portForward pre = Some (Errorf "port forward timeout") ∧
  mjoin (snd <$> forward_turns false post) = [] ∧
  ∃ items, t_pods t = Ret items ∧ p ∈ items ∧ mp_deleting p = false ∧ AllContainerIsRunning p = true.
Proof.
  assert (Hs : mjoin (snd <$> ((λ _ : Turn, ("", [] : list Signal)) <$> pre)) = []).
  { induction pre as [|? pre IH]; [done|]. cbn. apply IH. by inversion Hpre. }
  split_and!.
  - unfold portForward. rewrite first_turns by done. rewrite fmap_app, join_app, Hs.
    cbn [forward_turns]. rewrite Ht. by destruct (t_ready t).
  - unfold portForward. rewrite <-(app_nil_r pre), first_turns by done. by rewrite fmap_app, join_app, Hs.
  - apply later_turns_silent.
  - by eapply GetRunningPodList_running.
Qed.

(** Every accepted connection has its own request number, on both its streams. *)
Lemma request_ids create conns pf :
  (0 ≤ pf_requestID pf)%Z → (pf_requestID pf + Z.of_nat (length conns) < 2 ^ 63)%Z →
  Forall2 (λ hs i, Forall (λ h, h_RequestID h = Itoa (pf_requestID pf + Z.of_nat i)) hs)
    (handle_all create conns pf).1 (seq 0 (length conns)).
Proof.
  intros H0 Hb. assert (G : ∀ k pf0, pf_requestID pf0 = (pf_requestID pf + Z.of_nat k)%Z →
    (pf_requestID pf0 + Z.of_nat (length conns) < 2 ^ 63)%Z →
    Forall2 (λ hs i, Forall (λ h, h_RequestID h = Itoa (pf_requestID pf + Z.of_nat i)) hs)
      (handle_all create conns pf0).1 (seq k (length conns))); [|apply G; [lia|lia]].
  clear Hb. induction conns as [|c conns IH]; intros k pf0 Hk Hb; [constructor|].
  cbn [handle_all length seq]. unfold handleConnection. cbn [nextRequestID].
  destruct (create _); destruct (handle_all create conns _) as [hss pf2] eqn:E; cbn [fst].
  all: cbn [length] in Hb; constructor; [repeat constructor; cbn; by rewrite Hk|].
  all: specialize (IH (S k) (nextRequestID pf0).2); cbn [nextRequestID snd] in IH; rewrite E in IH; apply IH.
  all: cbn [pf_requestID]; rewrite wrap64_small by lia; lia.
Qed.

(** ** Witnesses *)

Definition example_addresses : list listenAddress :=
  [MkListenAddress "127.0.0.1" "tcp4" "all"; MkListenAddress "::1" "tcp6" "all"].
Definition example_forwarder : PortForwarder :=
  MkPortForwarder example_addresses [MkForwardedPort 0 10800; MkForwardedPort 10801 10801] [] 0 false.

Example example_new :
  NewOnAddresses ["localhost"] ["0:10800"; "10801"] = Ret example_forwarder.
Proof. vm_compute. reflexivity. Qed.

Lemma forward_ports_sockets_witness :
  ∃ pf' os' err,
    forward_start (λ p _ _, String.eqb p "tcp6") (λ _ _, 54321%Z) example_forwarder {[ ("127.0.0.1", 10801%Z) ]} =
      (pf', os', err) ∧
    os' = list_to_set (pf_listeners pf') ∪ {[ ("127.0.0.1", 10801%Z) ]} ∧
    (∀ l, l ∈ pf_listeners pf' → (l ∉ ({[ ("127.0.0.1", 10801%Z) ]} : Sockets)) ∧
       ∃ a p, a ∈ pf_addresses example_forwarder ∧ p ∈ pf_ports pf' ∧ l = (address a, Local p)) ∧
    Forall2 (λ p p', Remote p' = Remote p ∧ (Local p ≠ 0%Z → Local p' = Local p)) (pf_ports example_forwarder) (pf_ports pf') ∧
    (err = None ↔ GetPorts pf' = Ret (pf_ports pf')) ∧
    (ForwardPorts (λ p _ _, String.eqb p "tcp6") (λ _ _, 54321%Z) example_forwarder None None
       {[ ("127.0.0.1", 10801%Z) ]}).1.2 = {[ ("127.0.0.1", 10801%Z) ]}.
Proof.
  apply (forward_ports_sockets (λ p _ _, String.eqb p "tcp6") (λ _ _, 54321%Z) example_forwarder
    {[ ("127.0.0.1", 10801%Z) ]} None None).
  - intros _ _. lia.
  - repeat constructor; cbn; lia.
  - repeat constructor.
  - reflexivity.
Defined.

Definition example_pod (name : string) (deleting : bool) : ManagerPod := MkManagerPod name deleting true [true; true].
Definition example_turn : Turn := MkTurn (Ret [example_pod "old" true; example_pod "new" false]) true None.

Lemma portForward_decides_witness :
  portForward ([MkTurn (Ret [example_pod "old" true]) false None] ++ example_turn :: []) = None ∧
  portForward [MkTurn (Ret [example_pod "old" true]) false None] = Some (Errorf "port forward timeout") ∧
  mjoin (snd <$> forward_turns false []) = [] ∧
  ∃ items, t_pods example_turn = Ret items ∧ example_pod "new" false ∈ items ∧
    mp_deleting (example_pod "new" false) = false ∧ AllContainerIsRunning (example_pod "new" false) = true.
Proof.
  apply (portForward_decides [MkTurn (Ret [example_pod "old" true]) false None] example_turn
    (example_pod "new" false) [] []).
  - repeat constructor. intros ps. vm_compute. discriminate.
  - vm_compute. reflexivity.
Defined.
