(* ===== verification/Clone.v ===== *)
(** * Cloning a workload

    [pkg/handler/clone.go]: a clone of a workload is created in another namespace or
    cluster, with a side-car that proxies the original's traffic to it.  [setVolume]
    turns the volumes of the original into empty directories that init containers fill,
    [setEnv] replaces references to config maps and secrets by their values,
    [replaceRegistry] rewrites the images and [clone_template] is what [DoClone] does to
    the pod template before it creates the object.  Config maps, secrets and the running
    pod are read from the source cluster and are parameters; objects are records, and
    their conversions through JSON are the identity. *)
From Stdlib Require Import ZArith Lia Ascii.
From stdpp Require Import base gmap strings numbers list sorting.
From S2P Require Import Prelude GoStrings Config GoPath Url.

Definition KUBECONFIG : string := "kubeconfig".
Definition ManageBy : string := "app.kubernetes.io/managed-by".
Definition EnvStartSudoKubeVPNByKubeVPN : string := "DEPTH_SIGNED_BY_NAISON".

(** ** Objects *)

Record VolumeMount := MkVolumeMount { vm_Name : string; vm_MountPath : string; vm_SubPath : string }.

(** [ValueFrom] of a variable. *)
Inductive EnvVarSource :=
  | ConfigMapKeyRef (name key : string)
  | SecretKeyRef (name key : string)
  | FieldRef (path : string).

Record EnvVar := MkEnvVar { ev_Name : string; ev_Value : string; ev_ValueFrom : option EnvVarSource }.
Record EnvFromSource := MkEnvFrom { ef_Prefix : string; ef_ConfigMapRef : option string; ef_SecretRef : option string }.

Record Container := MkContainer {
  Name : string; Image : string; Command : list string; Args : list string; WorkingDir : string;
  Env : list EnvVar; EnvFrom : list EnvFromSource; VolumeMounts : list VolumeMount;
  Requests : list (string * string); Limits : list (string * string); PostStart : list string;
  Capabilities : list string; RunAsUser : option Z; Privileged : option bool; ImagePullPolicy : string }.

Definition set_VolumeMounts (ms : list VolumeMount) (c : Container) : Container :=
  MkContainer (Name c) (Image c) (Command c) (Args c) (WorkingDir c) (Env c) (EnvFrom c) ms
    (Requests c) (Limits c) (PostStart c) (Capabilities c) (RunAsUser c) (Privileged c) (ImagePullPolicy c).
Definition set_Env (env : list EnvVar) (from : list EnvFromSource) (c : Container) : Container :=
  MkContainer (Name c) (Image c) (Command c) (Args c) (WorkingDir c) env from (VolumeMounts c)
    (Requests c) (Limits c) (PostStart c) (Capabilities c) (RunAsUser c) (Privileged c) (ImagePullPolicy c).
Definition set_Image (image : string) (c : Container) : Container :=
  MkContainer (Name c) image (Command c) (Args c) (WorkingDir c) (Env c) (EnvFrom c) (VolumeMounts c)
    (Requests c) (Limits c) (PostStart c) (Capabilities c) (RunAsUser c) (Privileged c) (ImagePullPolicy c).

(** A volume source: an empty directory, the annotation with the kubeconfig, or an object
    of the cluster, by its text. *)
Inductive VolumeSource := EmptyDir (medium : string) | DownwardAPI (path field : string) | OtherSource (text : string).
Record Volume := MkVolume { v_Name : string; v_Source : VolumeSource }.
Definition is_EmptyDir (v : Volume) : bool := match v_Source v with EmptyDir _ => true | _ => false end.

(** Of a pod: what [DoClone] changes, and all that names config maps, secrets, service
    accounts and volume sources.  Classes and nodes it may name besides are left alone. *)
Record PodSpec := MkPodSpec {
  InitContainers : list Container; Containers : list Container; Volumes : list Volume;
  ServiceAccountName : string; AutomountServiceAccountToken : option bool; SecurityContext : bool;
  ImagePullSecrets : list string }.

Record Template := MkTemplate {
  t_Labels : gmap string string; t_Annotations : gmap string string; t_Spec : PodSpec }.

(** What the server keeps of an object besides its specification. *)
Record ServerInfo := MkServerInfo {
  status : option string; managedFields : list string; resourceVersion : string;
  creationTimestamp : option string; uid : string; generation : Z }.

Record Object := MkObject {
  o_Name : string; o_Namespace : string; o_Labels : gmap string string; o_Annotations : gmap string string;
  o_matchLabels : gmap string string; o_Template : Template; o_Info : ServerInfo }.

(** A running pod of the workload. *)
Record Pod := MkPod { p_Name : string; p_Namespace : string; p_Containers : list Container; p_Volumes : list Volume }.

Record CloneOptions := MkCloneOptions {
  Namespace : string; Headers : gmap string string; Engine : string;
  TargetNamespace : string; TargetContainer : string; TargetImage : string; TargetRegistry : string;
  IsChangeTargetRegistry : bool; isSame : bool }.

(** ** [RemoveUselessInfo] *)

Definition last_applied : string := "kubectl.kubernetes.io/last-applied-configuration".

Definition RemoveUselessInfo (u : Object) : Object :=
  MkObject (o_Name u) (o_Namespace u) (o_Labels u) (delete last_applied (o_Annotations u))
    (o_matchLabels u) (o_Template u) (MkServerInfo None [] "" None "" 0).

(** ** [setVolume] *)

Definition TokenVolumeMountPath : string := "/var/run/secrets/kubernetes.io/serviceaccount".

(** The volumes of the clone: the empty directories of the pod, and empty directories in
    place of its other volumes. *)
Definition clone_volume (v : Volume) : Volume :=
  if is_EmptyDir v then v else MkVolume (v_Name v) (EmptyDir "").

(** [volumeMap[name].EmptyDir != nil]: of the last volume with that name. *)
Definition mounts_EmptyDir (volumes : list Volume) (name : string) : bool :=
  match List.find (λ v, String.eqb (v_Name v) name) (rev volumes) with
  | Some v => is_EmptyDir v
  | None => false
  end.

(** The mounts of one volume by the pod's containers, [volumeM[name]]. *)
Definition mounts_of (pod : Pod) (name : string) : list (Container * VolumeMount) :=
  c ← p_Containers pod;
  (λ m, (c, m)) <$> List.filter (λ m, String.eqb (vm_Name m) name && negb (mounts_EmptyDir (p_Volumes pod) (vm_Name m)))
                      (VolumeMounts c).

(** The last mount of the service account's token. *)
Definition tokenVolume (pod : Pod) : option string :=
  last (vm_Name <$> (c ← p_Containers pod;
    List.filter (λ m, negb (mounts_EmptyDir (p_Volumes pod) (vm_Name m)) &&
                      String.eqb (vm_MountPath m) TokenVolumeMountPath) (VolumeMounts c))).

Definition download_command (pod : Pod) (mountPoint : string) (pair : Container * VolumeMount) : string :=
  "kubevpn cp " +:+ p_Namespace pod +:+ "/" +:+ p_Name pod +:+ ":" +:+
  PathJoin (vm_MountPath pair.2) (vm_SubPath pair.2) +:+ " " +:+
  PathJoin mountPoint (vm_SubPath pair.2) +:+ " -c " +:+ Name pair.1.

Definition download_container (image : string) (pod : Pod) (v : Volume) (args : list string) : Container :=
  MkContainer ("download-" +:+ v_Name v) image ["sh"; "-c"] [Join "&&" args] "/tmp"
    [MkEnvVar "KUBECONFIG" "/tmp/.kube/kubeconfig" None] []
    [MkVolumeMount (v_Name v) ("/tmp/" +:+ v_Name v) ""; MkVolumeMount KUBECONFIG "/tmp/.kube" ""]
    [] [] [] [] None None "IfNotPresent".

Definition mounts (name : string) (c : Container) : bool :=
  existsb (λ m, String.eqb (vm_Name m) name) (VolumeMounts c).

(** The loop over the pod's volumes: the init containers of the template that are left,
    and the downloads that are added. *)
Fixpoint volume_loop (image : string) (pod : Pod) (vs : list Volume) (init added : list Container)
  : list Container * list Container :=
  match vs with
  | [] => (init, added)
  | v :: vs =>
      match download_command pod ("/tmp/" +:+ v_Name v) <$> mounts_of pod (v_Name v) with
      | [] => volume_loop image pod vs (remove_loop (mounts (v_Name v)) init) added
      | args => volume_loop image pod vs init (added ++ [download_container image pod v args])
      end
  end.

Definition is_sidecar (c : Container) : bool :=
  String.eqb (Name c) ContainerSidecarEnvoyProxy || String.eqb (Name c) ContainerSidecarVPN.

(** A container gets the token's mount if it has none. *)
Definition add_token (vol : option string) (c : Container) : Container :=
  match vol with
  | None => c
  | Some name =>
      if existsb (λ m, String.eqb (vm_MountPath m) TokenVolumeMountPath) (VolumeMounts c) then c
      else set_VolumeMounts (VolumeMounts c ++ [MkVolumeMount name TokenVolumeMountPath ""]) c
  end.

Definition nonempty_name (o : option string) : option string :=
  match o with Some n => if String.eqb n "" then None else Some n | None => None end.

Definition setVolume (image : string) (pod : Pod) (spec : PodSpec) : PodSpec :=
  let '(init, added) := volume_loop image pod (p_Volumes pod) (InitContainers spec) [] in
  MkPodSpec (added ++ init)
    (add_token (nonempty_name (tokenVolume pod)) <$> remove_loop is_sidecar (Containers spec))
    (clone_volume <$> p_Volumes pod)
    "" (Some false) (SecurityContext spec) (ImagePullSecrets spec).

(** ** [setEnv] *)

(** Config maps and secrets, by name: their data. *)
Abbreviation Store := (gmap string (gmap string string)).

Definition howToGetCm (cms : Store) (name : string) (maps : Store * Store) : Store * Store :=
  match maps.1 !! name with
  | Some _ => maps
  | None => match cms !! name with Some d => (<[name:=d]> maps.1, maps.2) | None => maps end
  end.

(** The guard looks into the map of the config maps. *)
Definition howToGetSecret (secrets : Store) (name : string) (maps : Store * Store) : Store * Store :=
  match maps.1 !! name with
  | Some _ => maps
  | None => match secrets !! name with Some d => (maps.1, <[name:=d]> maps.2) | None => maps end
  end.

(** The objects a container refers to, in the order they are asked for: [true] is a config
    map. *)
Definition env_refs (c : Container) : list (bool * string) :=
  (e ← Env c; match ev_ValueFrom e with
              | Some (ConfigMapKeyRef n _) => [(true, n)]
              | Some (SecretKeyRef n _) => [(false, n)]
              | _ => []
              end) ++
  (s ← EnvFrom c; (match ef_ConfigMapRef s with Some n => [(true, n)] | None => [] end) ++
                  (match ef_SecretRef s with Some n => [(false, n)] | None => [] end)).

Definition fetch (cms secrets : Store) (maps : Store * Store) (r : bool * string) : Store * Store :=
  if r.1 then howToGetCm cms r.2 maps else howToGetSecret secrets r.2 maps.

Definition fetch_all (cms secrets : Store) (cs : list Container) : Store * Store :=
  fold_left (fetch cms secrets) (cs ≫= env_refs) (∅, ∅).

(** The variables of one source; [range] over a map has no order, and its keys are
    distinct. *)
Definition source_vars (data : option (gmap string string)) (prefix : string) : list EnvVar :=
  match data with
  | None => []
  | Some d => (λ kv, MkEnvVar kv.1 kv.2 None) <$> List.filter (λ kv, HasPrefix kv.1 prefix) (map_to_list d)
  end.

Definition env_from_vars (maps : Store * Store) (s : EnvFromSource) : list EnvVar :=
  source_vars (n ← ef_ConfigMapRef s; maps.1 !! n) (ef_Prefix s) ++
  source_vars (n ← ef_SecretRef s; maps.2 !! n) (ef_Prefix s).

(** [configMap.Data[ref.Key]] of a missing key is the empty string. *)
Definition resolve_var (maps : Store * Store) (e : EnvVar) : EnvVar :=
  match ev_ValueFrom e with
  | Some (ConfigMapKeyRef n k) =>
      match maps.1 !! n with Some d => MkEnvVar (ev_Name e) (default "" (d !! k)) None | None => e end
  | Some (SecretKeyRef n k) =>
      match maps.2 !! n with Some d => MkEnvVar (ev_Name e) (default "" (d !! k)) None | None => e end
  | _ => e
  end.

Definition resolve_container (maps : Store * Store) (c : Container) : Container :=
  set_Env ((resolve_var maps <$> Env c) ++ (EnvFrom c ≫= env_from_vars maps)) [] c.

Definition setEnv (cms secrets : Store) (spec : PodSpec) : PodSpec :=
  let maps := fetch_all cms secrets (Containers spec) in
  MkPodSpec (InitContainers spec) (resolve_container maps <$> Containers spec) (Volumes spec)
    (ServiceAccountName spec) (AutomountServiceAccountToken spec) (SecurityContext spec) (ImagePullSecrets spec).

(** ** [replaceRegistry] *)

(** [strings.ReplaceAll] with a non-empty [old]: [skip] bytes of an occurrence are left. *)
Fixpoint replace_from (skip : nat) (s old new : string) : string :=
  match s with
  | EmptyString => EmptyString
  | String a s' =>
      match skip with
      | S skip => replace_from skip s' old new
      | O => if HasPrefix s old then new +:+ replace_from (pred (String.length old)) s' old new
             else String a (replace_from 0 s' old new)
      end
  end.
Definition ReplaceAll (s old new : string) : string := replace_from 0 s old new.

(** [reference.Domain] of a parsed image: [splitDockerDomain]. *)
Definition image_domain (image : string) : string :=
  let first := (Cut "/" image).1 in
  let domain := if negb (one_of image "/") ||
                   (negb (one_of first ".") && negb (one_of first ":") && negb (String.eqb first "localhost"))
                then "docker.io" else first in
  if String.eqb domain "index.docker.io" then "docker.io" else domain.

Section registry.
(** [reference.ParseNormalizedNamed] accepts the image. *)
Context (valid_image : string → bool).

Definition new_image (registry image : string) : string :=
  TrimPrefix (ReplaceAll image (image_domain image) registry) "/".

Fixpoint replace_images (registry : string) (cs : list Container) : outcome (list Container) :=
  match cs with
  | [] => Ret []
  | c :: cs =>
      if valid_image (Image c) then
        cs ← replace_images registry cs; Ret (set_Image (new_image registry (Image c)) c :: cs)
      else Fail (Errorf "invalid reference format")
  end.

Definition replaceRegistry (d : CloneOptions) (spec : PodSpec) : outcome PodSpec :=
  if IsChangeTargetRegistry d then
    init ← replace_images (TargetRegistry d) (InitContainers spec);
    cs ← replace_images (TargetRegistry d) (Containers spec);
    Ret (MkPodSpec init cs (Volumes spec) (ServiceAccountName spec)
           (AutomountServiceAccountToken spec) (SecurityContext spec) (ImagePullSecrets spec))
  else Ret spec.
End registry.

(** ** [DoClone] *)

(** [labels.Set.String]: sorted pairs. *)
Definition pair_text (kv : string * string) : string := kv.1 +:+ "=" +:+ kv.2.
Definition text_le (x y : string) : Prop := String.leb x y = true.
#[export] Instance text_le_dec : RelDecision text_le.
Proof. intros x y. unfold text_le. apply _. Defined.
Definition labels_String (m : gmap string string) : string :=
  Join "," (merge_sort text_le (pair_text <$> map_to_list m)).

Definition kubeconfig_volume : Volume :=
  MkVolume KUBECONFIG (DownwardAPI KUBECONFIG ("metadata.annotations['" +:+ KUBECONFIG +:+ "']")).

Definition post_start : string := Join (String "010" "")
  ["sysctl -w net.ipv4.ip_forward=1"; "sysctl -w net.ipv6.conf.all.disable_ipv6=0";
   "sysctl -w net.ipv6.conf.all.forwarding=1"; "sysctl -w net.ipv4.conf.all.route_localnet=1";
   "update-alternatives --set iptables /usr/sbin/iptables-legacy"].

(** The side-car: it proxies the original workload to the clone. *)
Definition vpn_container (image : string) (d : CloneOptions) (workload : string) : Container :=
  MkContainer ContainerSidecarVPN image
    ["kubevpn"; "proxy"; workload; "--kubeconfig"; "/tmp/.kube/" +:+ KUBECONFIG;
     "--namespace"; Namespace d; "--headers"; labels_String (Headers d); "--image"; image;
     "--engine"; Engine d; "--foreground"]
    [] "" [MkEnvVar EnvStartSudoKubeVPNByKubeVPN "1" None] []
    [MkVolumeMount KUBECONFIG "/tmp/.kube" ""]
    [("cpu", "1000m"); ("memory", "1024Mi")] [("cpu", "2000m"); ("memory", "2048Mi")]
    ["/bin/bash"; "-c"; post_start] ["NET_ADMIN"] (Some 0%Z) (Some true) "IfNotPresent".

(** The container whose image is replaced, if any. *)
Definition target_index (d : CloneOptions) (cs : list Container) : option nat :=
  if String.eqb (TargetContainer d) "" then Some 0
  else fst <$> list_find (λ c, Name c = TargetContainer d) cs.

Definition set_target (d : CloneOptions) (cs : list Container) : outcome (list Container) :=
  if String.eqb (TargetImage d) "" then Ret cs
  else match target_index d cs with
       | None => Fail (Errorf "can not found container in pod template")
       | Some i => match cs !! i with
                   | None => Panic
                   | Some c => Ret (<[i := set_Image (TargetImage d) c]> cs)
                   end
       end.

Definition clone_labels (name origin : string) : gmap string string :=
  {[ ManageBy := ConfigMapPodTrafficManager; "owner-ref" := name; "origin-workload" := origin ]}.

(** Steps (1) to (4) of the closure, on the template it shares with its retries. *)
Definition clone_template (image kubeconfig : string) (d : CloneOptions) (workload : string)
    (labels : gmap string string) (t : Template) : outcome Template :=
  let spec := t_Spec t in
  cs ← set_target d (remove_loop is_sidecar (Containers spec));
  Ret (MkTemplate labels (<[KUBECONFIG := kubeconfig]> (t_Annotations t))
    (MkPodSpec (InitContainers spec) (cs ++ [vpn_container image d workload])
       (Volumes spec ++ [kubeconfig_volume]) (ServiceAccountName spec)
       (AutomountServiceAccountToken spec) true (ImagePullSecrets spec))).

Section clone.
Context (valid_image : string → bool).
(** [config.Image], the kubeconfig, the new identifier's first five characters. *)
Context (image kubeconfig uuid5 : string).
(** The source cluster: config maps, secrets, and a running pod of the workload. *)
Context (cms secrets : Store) (first_pod : outcome Pod).

(** The object before the closure runs: renamed, cleaned, and, for another namespace or
    cluster, without references to the source's. *)
Definition prepare_clone (d : CloneOptions) (u : Object) : outcome Object :=
  let origin := o_Name u in
  let name := origin +:+ "-clone-" +:+ uuid5 in
  let u := RemoveUselessInfo u in
  spec ← if isSame d then Ret (t_Spec (o_Template u))
         else pod ← first_pod; Ret (setEnv cms secrets (setVolume image pod (t_Spec (o_Template u))));
  let t := o_Template u in
  Ret (MkObject name (TargetNamespace d) (clone_labels name origin ∪ o_Labels u) (o_Annotations u)
         (clone_labels name origin) (MkTemplate (t_Labels t) (t_Annotations t) spec) (o_Info u)).

Definition with_template (u : Object) (t : Template) : Object :=
  MkObject (o_Name u) (o_Namespace u) (o_Labels u) (o_Annotations u) (o_matchLabels u) t (o_Info u).

(** One try: the template after steps (1) to (4), which the next try starts from, and the
    object sent to the server. *)
Definition clone_try (d : CloneOptions) (workload : string) (u : Object) (t : Template)
  : outcome (Template * Object) :=
  t ← clone_template image kubeconfig d workload (o_matchLabels u) t;
  spec ← replaceRegistry valid_image d (t_Spec t);
  Ret (t, with_template u (MkTemplate (t_Labels t) (t_Annotations t) spec)).

(** [retry.RetryOnConflict] around [Create]: [create k u] is the answer to the [k]-th try. *)
Fixpoint clone_tries (steps k : nat) (create : nat → Object → outcome unit) (d : CloneOptions)
    (workload : string) (u : Object) (t : Template) : outcome Object :=
  match steps with
  | O => Fail Conflict
  | S steps =>
      '(t, sent) ← clone_try d workload u t;
      match create k sent with
      | Ret _ => Ret sent
      | Fail Conflict => match steps with O => Fail Conflict | _ => clone_tries steps (S k) create d workload u t end
      | Fail e => Fail e
      | Panic => Panic
      end
  end.

(** [retry.DefaultRetry] tries five times. *)
Definition clone_workload (create : nat → Object → outcome unit) (d : CloneOptions) (workload : string)
    (u : Object) : outcome Object :=
  u ← prepare_clone d u;
  match clone_tries 5 0 create d workload u (o_Template u) with
  | Fail e => Fail (ErrorfV "create clone for resource failed" e)
  | o => o
  end.
End clone.

(** ** The environment of a container *)

(** The value a container sees: a text, or what the kubelet fills in. *)
Inductive EnvVal := Lit (s : string) | Field (path : string).

Section kubelet.
Context (cms secrets : Store).

(** The kubelet's rules: an explicit variable first, the last one of that name; then the
    last source that has the key; a source puts its prefix in front of every key; a
    reference to what does not exist has no value. *)
Definition var_value (e : EnvVar) : option EnvVal :=
  match ev_ValueFrom e with
  | None => Some (Lit (ev_Value e))
  | Some (ConfigMapKeyRef n k) => d ← cms !! n; Lit <$> (d !! k)
  | Some (SecretKeyRef n k) => d ← secrets !! n; Lit <$> (d !! k)
  | Some (FieldRef p) => Some (Field p)
  end.

Definition last_var (name : string) (l : list EnvVar) : option EnvVar :=
  List.find (λ e, String.eqb (ev_Name e) name) (rev l).

Definition kubelet_source (data : option (gmap string string)) (prefix : string) : list EnvVar :=
  match data with
  | None => []
  | Some d => (λ kv, MkEnvVar (prefix +:+ kv.1) kv.2 None) <$> map_to_list d
  end.
Definition kubelet_from (s : EnvFromSource) : list EnvVar :=
  kubelet_source (n ← ef_ConfigMapRef s; cms !! n) (ef_Prefix s) ++
  kubelet_source (n ← ef_SecretRef s; secrets !! n) (ef_Prefix s).

Definition container_env (c : Container) (name : string) : option EnvVal :=
  match last_var name (Env c) with
  | Some e => var_value e
  | None => last_var name (EnvFrom c ≫= kubelet_from) ≫= var_value
  end.
End kubelet.

Section fetching.
Context (cms secrets : Store) (R : list (bool * string)).

(** No name is asked for both as a config map and as a secret. *)
Definition no_clash : Prop := ∀ n, (false, n) ∈ R → (true, n) ∉ R.

Definition fetched_from (maps : Store * Store) : Prop :=
  (∀ n d, maps.1 !! n = Some d → cms !! n = Some d ∧ (true, n) ∈ R) ∧
  (∀ n d, maps.2 !! n = Some d → secrets !! n = Some d).

Lemma fetch_step maps r :
  fetched_from maps → r ∈ R →
  let maps' := fetch cms secrets maps r in
  fetched_from maps' ∧
  (∀ n d, maps.1 !! n = Some d → maps'.1 !! n = Some d) ∧
  (∀ n d, maps.2 !! n = Some d → maps'.2 !! n = Some d) ∧
  (no_clash → if r.1 then maps'.1 !! r.2 = cms !! r.2 else maps'.2 !! r.2 = secrets !! r.2).
Proof.
  intros F Hr. pose proof F as [F1 F2].
  destruct r as [[] n]; unfold fetch, howToGetCm, howToGetSecret; cbn [fst snd].
  - destruct (maps.1 !! n) as [d|] eqn:E.
    { split; [exact F|]. split_and!; [done|done|]. intros _. rewrite E. symmetry. by apply F1. }
    destruct (cms !! n) as [d|] eqn:Ec; [|by split; [exact F|]].
    cbn [fst snd]. split; [split; [|exact F2]|split_and!; [intros k d' Hk|done|intros _; apply lookup_insert_eq]].
    + intros k d'; cbn [fst snd]; intros [[<- <-]|[? ?]]%lookup_insert_Some; [done|by apply F1].
    + rewrite lookup_insert_ne; [done|]. intros ->. congruence.
  - destruct (maps.1 !! n) as [d|] eqn:E.
    { split; [exact F|]. split_and!; [done|done|]. intros Hc. destruct (F1 n d E). by destruct (Hc n Hr). }
    destruct (secrets !! n) as [d|] eqn:Es; cbn [fst snd].
    + split; [split; [exact F1|]|split_and!; [done|intros k d' Hk|intros _; apply lookup_insert_eq]].
      * intros k d'; cbn [fst snd]; intros [[<- <-]|[? ?]]%lookup_insert_Some; [done|by apply F2].
      * destruct (decide (n = k)) as [<-|]; [|by rewrite lookup_insert_ne].
        rewrite lookup_insert_eq. apply F2 in Hk. congruence.
    + split; [exact F|]. split_and!; try done. intros _.
      destruct (maps.2 !! n) eqn:E2; [|done]. apply F2 in E2. congruence.
Qed.

Lemma fetch_fold rs maps :
  no_clash → fetched_from maps → (∀ r, r ∈ rs → r ∈ R) →
  let maps' := fold_left (fetch cms secrets) rs maps in
  (∀ n d, maps.1 !! n = Some d → maps'.1 !! n = Some d) ∧
  (∀ n d, maps.2 !! n = Some d → maps'.2 !! n = Some d) ∧
  (∀ n, (true, n) ∈ rs → is_Some (cms !! n) → maps'.1 !! n = cms !! n) ∧
  (∀ n, (false, n) ∈ rs → is_Some (secrets !! n) → maps'.2 !! n = secrets !! n).
Proof.
  intros Hc. revert maps. induction rs as [|r rs IH]; intros maps F Hsub; cbn.
  { split_and!; [done|done|set_solver..]. }
  destruct (fetch_step maps r F) as (F' & M1 & M2 & H); [apply Hsub; set_solver|]. cbn zeta in *.
  specialize (H Hc). destruct (IH _ F') as (I1 & I2 & I3 & I4); [set_solver|]. cbn zeta in *.
  split_and!; [auto|auto|..]; intros n [<-|Hn]%elem_of_cons [d Hd]; try (by eauto); cbn in H.
  - rewrite Hd in *. by apply I1.
  - rewrite Hd in *. by apply I2.
Qed.
End fetching.

Lemma fetch_all_found cms secrets cs (b : bool) n :
  no_clash (cs ≫= env_refs) → (b, n) ∈ cs ≫= env_refs →
  is_Some ((if b : bool then cms else secrets) !! n) →
  (if b then (fetch_all cms secrets cs).1 else (fetch_all cms secrets cs).2) !! n
  = (if b then cms else secrets) !! n.
Proof.
  intros Hc Hin Hs. unfold fetch_all.
  destruct (fetch_fold cms secrets (cs ≫= env_refs) (cs ≫= env_refs) (∅, ∅) Hc) as (_ & _ & H1 & H2);
    [split; intros ? ? H; cbn [fst snd] in H; by rewrite lookup_empty in H|done|]. destruct b; auto.
Qed.

Lemma find_app {A} (p : A → bool) l k :
  List.find p (l ++ k) = match List.find p l with Some x => Some x | None => List.find p k end.
Proof. induction l as [|x l IH]; [done|]. cbn. by destruct (p x). Qed.

Lemma find_fmap {A B} (p : B → bool) (f : A → B) l :
  List.find p (f <$> l) = f <$> List.find (p ∘ f) l.
Proof. induction l as [|x l IH]; [done|]. cbn. by destruct (p (f x)). Qed.

Lemma last_var_app name l k :
  last_var name (l ++ k) = match last_var name k with Some x => Some x | None => last_var name l end.
Proof. unfold last_var. by rewrite rev_app_distr, find_app. Qed.

Lemma last_var_elem name l e : last_var name l = Some e → e ∈ l ∧ ev_Name e = name.
Proof.
  unfold last_var. intros [Hin He]%find_some. apply String.eqb_eq in He. split; [|done].
  rewrite list_elem_of_In. by apply in_rev.
Qed.

Lemma last_var_fmap f name l :
  (∀ e, ev_Name (f e) = ev_Name e) → last_var name (f <$> l) = f <$> last_var name l.
Proof.
  intros Hf. unfold last_var. change (f <$> l) with (map f l). rewrite <-map_rev.
  change (map f (rev l)) with (f <$> rev l). rewrite find_fmap.
  assert (E : ∀ k, List.find ((λ e, String.eqb (ev_Name e) name) ∘ f) k
            = List.find (λ e, String.eqb (ev_Name e) name) k); [|by rewrite E].
  induction k as [|x k IH]; [done|]. cbn. rewrite Hf. by destruct (String.eqb _ _).
Qed.

Lemma resolve_var_name maps e : ev_Name (resolve_var maps e) = ev_Name e.
Proof. unfold resolve_var. by repeat case_match. Qed.

Lemma HasPrefix_nil s : HasPrefix s "" = true.
Proof. by destruct s. Qed.

Lemma source_vars_kubelet data : source_vars data "" = kubelet_source data "".
Proof.
  destruct data as [d|]; [|done]. cbn. f_equal.
  induction (map_to_list d) as [|kv l IH]; [done|]. cbn. by rewrite HasPrefix_nil, IH.
Qed.

(** The containers whose environment can be copied: every reference has a value, no
    source has a prefix, and no explicit variable has the name of a source's. *)
Definition copyable (cms secrets : Store) (c : Container) : Prop :=
  (∀ e, e ∈ Env c → is_Some (var_value cms secrets e)) ∧
  (∀ (b : bool) n, (b, n) ∈ env_refs c → is_Some ((if b : bool then cms else secrets) !! n)) ∧
  (∀ s, s ∈ EnvFrom c → ef_Prefix s = "") ∧
  (∀ e v, e ∈ Env c → v ∈ EnvFrom c ≫= kubelet_from cms secrets → ev_Name e ≠ ev_Name v).

Section copying.
Context (cms secrets : Store) (cs : list Container) (c : Container).
Context (Hc : c ∈ cs) (Hclash : no_clash (cs ≫= env_refs)) (Hcopy : copyable cms secrets c).
Abbreviation maps := (fetch_all cms secrets cs).

Lemma ref_found (b : bool) n : (b, n) ∈ env_refs c →
  (if b then maps.1 else maps.2) !! n = (if b then cms else secrets) !! n.
Proof.
  intros Hin. destruct Hcopy as (_ & Hs & _). apply fetch_all_found; [done| |by apply Hs].
  apply list_elem_of_bind. by exists c.
Qed.

Lemma resolve_var_value e : e ∈ Env c →
  var_value ∅ ∅ (resolve_var maps e) = var_value cms secrets e.
Proof.
  intros He. destruct Hcopy as (Hv & _). destruct (Hv e He) as [v Ev]. unfold resolve_var, var_value in *.
  assert (R : ∀ (b : bool) n, (match ev_ValueFrom e with
      | Some (ConfigMapKeyRef n _) => [(true, n)] | Some (SecretKeyRef n _) => [(false, n)] | _ => []
      end) = [(b, n)] → (b, n) ∈ env_refs c).
  { intros b n E. apply elem_of_app. left. apply list_elem_of_bind. exists e. rewrite E. set_solver. }
  destruct (ev_ValueFrom e) as [[n k|n k|p]|] eqn:E; cbn in Ev |- *.
  - rewrite (ref_found true n) by (by apply R). apply bind_Some in Ev as (d & -> & Hk). cbn.
    apply fmap_Some in Hk as (x & -> & ->). done.
  - rewrite (ref_found false n) by (by apply R). apply bind_Some in Ev as (d & -> & Hk). cbn.
    apply fmap_Some in Hk as (x & -> & ->). done.
  - by rewrite E.
  - by rewrite E.
Qed.

Lemma env_from_vars_kubelet s : s ∈ EnvFrom c → env_from_vars maps s = kubelet_from cms secrets s.
Proof.
  intros Hs. destruct Hcopy as (_ & _ & Hp & _). unfold env_from_vars, kubelet_from. rewrite (Hp s Hs).
  assert (R : ∀ (b : bool) n, (if b : bool then ef_ConfigMapRef s else ef_SecretRef s) = Some n → (b, n) ∈ env_refs c).
  { intros b n E. apply elem_of_app. right. apply list_elem_of_bind. exists s. split; [|done].
    destruct b; rewrite E; set_solver. }
  rewrite !source_vars_kubelet. f_equal.
  - destruct (ef_ConfigMapRef s) as [n|] eqn:E; [|done]. cbn. by rewrite (ref_found true n) by (by apply R).
  - destruct (ef_SecretRef s) as [n|] eqn:E; [|done]. cbn. by rewrite (ref_found false n) by (by apply R).
Qed.

Lemma env_from_all : EnvFrom c ≫= env_from_vars maps = EnvFrom c ≫= kubelet_from cms secrets.
Proof.
  assert (H : ∀ s, s ∈ EnvFrom c → env_from_vars maps s = kubelet_from cms secrets s) by apply env_from_vars_kubelet.
  induction (EnvFrom c) as [|s l IH]; [done|]. cbn. rewrite H, IH by set_solver. done.
Qed.

(** The variables of sources are texts. *)
Lemma kubelet_from_lit s v : v ∈ kubelet_from cms secrets s → ev_ValueFrom v = None.
Proof.
  unfold kubelet_from, kubelet_source. intros [H|H]%elem_of_app.
  all: case_match; [|set_solver]; apply list_elem_of_fmap in H as (kv & -> & _); done.
Qed.

Lemma resolved_env name :
  container_env ∅ ∅ (resolve_container maps c) name = container_env cms secrets c name.
Proof.
  unfold container_env, resolve_container. cbn [Env EnvFrom set_Env]. rewrite last_var_app, env_from_all.
  rewrite last_var_fmap by apply resolve_var_name.
  destruct (last_var name (EnvFrom c ≫= kubelet_from cms secrets)) as [v|] eqn:Ef.
  - apply last_var_elem in Ef as [Hv <-].
    destruct (last_var (ev_Name v) (Env c)) as [e|] eqn:Ee.
    { apply last_var_elem in Ee as [He En]. destruct Hcopy as (_ & _ & _ & Hd). by destruct (Hd e v He Hv). }
    cbn. apply list_elem_of_bind in Hv as (s & Hv & _). apply kubelet_from_lit in Hv.
    unfold var_value. by rewrite Hv.
  - destruct (last_var name (Env c)) as [e|] eqn:Ee; cbn; [|done].
    apply last_var_elem in Ee as [He _]. by apply resolve_var_value.
Qed.
End copying.

(** The environment survives the move: when every reference of the template has a
    value in the source cluster, no name is used both for a config map and a secret, no
    source has a prefix and no explicit variable hides a source's, then every variable of
    every container has in the clone, in a cluster without any config map or secret, the
    value it has in the original. *)
Theorem setEnv_preserves_env cms secrets spec i c name
  (Hclash : no_clash (Containers spec ≫= env_refs))
  (Hcopy : ∀ c, c ∈ Containers spec → copyable cms secrets c)
  (Hi : Containers spec !! i = Some c) :
  ∃ c', Containers (setEnv cms secrets spec) !! i = Some c' ∧
    container_env ∅ ∅ c' name = container_env cms secrets c name.
Proof.
  exists (resolve_container (fetch_all cms secrets (Containers spec)) c). split.
  - cbn. by rewrite list_lookup_fmap, Hi.
  - assert (c ∈ Containers spec) by (by eapply list_elem_of_lookup_2). by apply resolved_env; auto.
Qed.

(** ** The clone as an object *)

Definition mount_names (c : Container) : list string := vm_Name <$> VolumeMounts c.
Definition volume_names (vs : list Volume) : list string := v_Name <$> vs.

(** Every mount names a volume of the pod: what the API server checks. *)
Definition mounts_resolved (spec : PodSpec) : Prop :=
  ∀ c n, c ∈ InitContainers spec ++ Containers spec → n ∈ mount_names c → n ∈ volume_names (Volumes spec).

(** The running pod belongs to the template: what the template and the pod mount are
    volumes of the pod. *)
Definition pod_matches (pod : Pod) (spec : PodSpec) : Prop :=
  (∀ c n, c ∈ InitContainers spec ++ Containers spec → is_sidecar c = false →
     n ∈ mount_names c → n ∈ volume_names (p_Volumes pod)) ∧
  (∀ c n, c ∈ InitContainers spec → n ∈ mount_names c → n ∈ volume_names (p_Volumes pod)) ∧
  (∀ c n, c ∈ p_Containers pod → n ∈ mount_names c → n ∈ volume_names (p_Volumes pod)).

Lemma clone_volume_names vs : volume_names (clone_volume <$> vs) = volume_names vs.
Proof.
  unfold volume_names. rewrite <-list_fmap_compose. apply list_fmap_ext. intros _ v _. cbn.
  unfold clone_volume. by destruct (is_EmptyDir v).
Qed.

Lemma clone_volume_EmptyDir (vs : list Volume) v : v ∈ clone_volume <$> vs → is_EmptyDir v = true.
Proof.
  intros (w & -> & _)%list_elem_of_fmap. unfold clone_volume. by destruct (is_EmptyDir w) eqn:E.
Qed.

Lemma volume_loop_mounts image pod vs init added init' added' :
  (∀ v, v ∈ vs → v ∈ p_Volumes pod) →
  (∀ c n, c ∈ added → n ∈ mount_names c → n ∈ volume_names (p_Volumes pod) ∨ n = KUBECONFIG) →
  volume_loop image pod vs init added = (init', added') →
  (∀ c, c ∈ init' → c ∈ init) ∧
  (∀ c n, c ∈ added' → n ∈ mount_names c → n ∈ volume_names (p_Volumes pod) ∨ n = KUBECONFIG).
Proof.
  revert init added. induction vs as [|v vs IH]; intros init added Hvs Ha; cbn [volume_loop].
  { intros [= <- <-]. done. }
  destruct (download_command _ _ <$> _) as [|a args].
  - intros [H1 H2]%IH; [|set_solver|done]. split; [|done]. intros c Hc%H1.
    rewrite list_elem_of_In in Hc. apply remove_loop_In in Hc as [Hc _]. by apply list_elem_of_In.
  - intros [H1 H2]%IH; [done|set_solver|]. intros c n [Hc|Hc]%elem_of_app; [by apply Ha|].
    apply list_elem_of_singleton in Hc as ->. cbn. intros Hn.
    assert (n = v_Name v ∨ n = KUBECONFIG) as [->| ->] by set_solver; [|by right].
    left. apply list_elem_of_fmap. exists v. split; [done|]. apply Hvs. set_solver.
Qed.

(** The init containers that are left are the template's, and the downloads have no
    references. *)
Lemma volume_loop_from image pod vs init added init' added' :
  volume_loop image pod vs init added = (init', added') →
  (∀ c, c ∈ init' → c ∈ init) ∧
  (∀ c, c ∈ added' → c ∈ added ∨ ∃ v args, c = download_container image pod v args).
Proof.
  revert init added. induction vs as [|v vs IH]; intros init added; cbn [volume_loop]; [intros [= <- <-]; by split; [|left]|].
  destruct (download_command _ _ <$> _) as [|a args].
  - intros [H1 H2]%IH. split; [|done]. intros c Hc%H1.
    rewrite list_elem_of_In in Hc. apply remove_loop_In in Hc as [Hc _]. by apply list_elem_of_In.
  - intros [H1 H2]%IH. split; [done|]. intros c Hc. destruct (H2 c Hc) as [[Hin|Hin]%elem_of_app|]; [by left| |by right].
    apply list_elem_of_singleton in Hin as ->. right. by eexists _, _.
Qed.

Lemma tokenVolume_elem pod n : tokenVolume pod = Some n →
  ∃ c, c ∈ p_Containers pod ∧ n ∈ mount_names c.
Proof.
  unfold tokenVolume. intros H%last_Some_elem_of. apply list_elem_of_fmap in H as (m & -> & Hm).
  apply list_elem_of_bind in Hm as (c & Hm & Hc). exists c. split; [done|].
  apply list_elem_of_fmap. exists m. split; [done|].
  apply list_elem_of_In, filter_In in Hm as [Hm _]. by apply list_elem_of_In.
Qed.

Lemma add_token_mounts vol c n : n ∈ mount_names (add_token vol c) → n ∈ mount_names c ∨ vol = Some n.
Proof.
  unfold add_token. destruct vol as [t|]; [|by left]. destruct (existsb _ _); [by left|].
  unfold mount_names. cbn. rewrite fmap_app. set_solver.
Qed.

(** What [setVolume] leaves: mounts of the pod's volumes, or of the kubeconfig's. *)
Lemma setVolume_mounts image pod spec c n :
  pod_matches pod spec →
  c ∈ InitContainers (setVolume image pod spec) ++ Containers (setVolume image pod spec) →
  n ∈ mount_names c → n ∈ volume_names (p_Volumes pod) ∨ n = KUBECONFIG.
Proof.
  intros (H1 & H2 & H3). unfold setVolume.
  destruct (volume_loop _ _ _ _ _) as [init added] eqn:E.
  apply volume_loop_mounts in E as [Hi Ha]; [|done|set_solver]. cbn [InitContainers Containers].
  intros [[Hc|Hc]%elem_of_app|Hc]%elem_of_app Hn; [by eapply Ha|left; eapply H2; [by apply Hi|done]|].
  apply list_elem_of_fmap in Hc as (c0 & -> & Hc0). rewrite list_elem_of_In in Hc0.
  apply remove_loop_In in Hc0 as [Hc0 Hs]. left. apply add_token_mounts in Hn as [Hn|Hn].
  - eapply H1; [|exact Hs|exact Hn]. apply elem_of_app. right. by apply list_elem_of_In.
  - unfold nonempty_name in Hn. destruct (tokenVolume pod) as [t|] eqn:Et; [|done].
    destruct (String.eqb t ""); [done|]. injection Hn as ->.
    destruct (tokenVolume_elem _ _ Et) as (c1 & Hc1 & Hn1). by eapply H3.
Qed.

(** *** Steps that only change images *)

Definition with_image_of (c c0 : Container) : Prop := ∃ i, c = set_Image i c0.

Lemma with_image_refl c : with_image_of c c.
Proof. exists (Image c). by destruct c. Qed.

Lemma with_image_mounts c c0 : with_image_of c c0 → mount_names c = mount_names c0.
Proof. by intros [i ->]. Qed.

Lemma replace_images_from valid registry cs cs' c :
  replace_images valid registry cs = Ret cs' → c ∈ cs' → ∃ c0, c0 ∈ cs ∧ with_image_of c c0.
Proof.
  revert cs'. induction cs as [|x cs IH]; intros cs'; cbn; [intros [= <-]; set_solver|].
  destruct (valid (Image x)); [|done]. intros (l & Hl & [= <-])%outcome_bind_Ret.
  intros [->|Hc]%elem_of_cons; [exists x; split; [set_solver|by eexists]|].
  destruct (IH l Hl Hc) as (c0 & ? & ?). exists c0. set_solver.
Qed.

(** What a step that rewrites images keeps of a specification. *)
Record images_changed (spec spec' : PodSpec) : Prop := {
  ic_init c : c ∈ InitContainers spec' → ∃ c0, c0 ∈ InitContainers spec ∧ with_image_of c c0;
  ic_containers c : c ∈ Containers spec' → ∃ c0, c0 ∈ Containers spec ∧ with_image_of c c0;
  ic_volumes : Volumes spec' = Volumes spec;
  ic_account : ServiceAccountName spec' = ServiceAccountName spec;
  ic_token : AutomountServiceAccountToken spec' = AutomountServiceAccountToken spec;
  ic_pull : ImagePullSecrets spec' = ImagePullSecrets spec }.

Lemma replaceRegistry_changed valid d spec spec' :
  replaceRegistry valid d spec = Ret spec' → images_changed spec spec'.
Proof.
  unfold replaceRegistry. destruct (IsChangeTargetRegistry d).
  - intros (init & Hi & (cs & Hcs & [= <-])%outcome_bind_Ret)%outcome_bind_Ret.
    split; cbn; try done; eauto using replace_images_from.
  - intros [= <-]. split; try done; intros c Hc; exists c; eauto using with_image_refl.
Qed.

Lemma set_target_from d cs cs' c :
  set_target d cs = Ret cs' → c ∈ cs' → ∃ c0, c0 ∈ cs ∧ with_image_of c c0.
Proof.
  unfold set_target. destruct (String.eqb _ _); [intros [= <-]; eauto using with_image_refl|].
  destruct (target_index d cs) as [i|]; [|done]. destruct (cs !! i) as [x|] eqn:E; [|done].
  intros [= <-] (j & Hj)%list_elem_of_lookup. destruct (decide (j = i)) as [->|].
  - rewrite list_lookup_insert_eq in Hj by (by eapply lookup_lt_Some). injection Hj as <-.
    exists x. split; [by eapply list_elem_of_lookup_2|by eexists].
  - rewrite list_lookup_insert_ne in Hj by done. exists c. split; [by eapply list_elem_of_lookup_2|apply with_image_refl].
Qed.

(** *** References to the cluster *)

Inductive reference := RConfigMap (name : string) | RSecret (name : string) | RAccount (name : string) | RVolume (text : string).

(** A container refers to an object by a variable or by a source of variables. *)
Inductive container_refers (c : Container) : reference → Prop :=
  | cr_config_var e n k : e ∈ Env c → ev_ValueFrom e = Some (ConfigMapKeyRef n k) → container_refers c (RConfigMap n)
  | cr_secret_var e n k : e ∈ Env c → ev_ValueFrom e = Some (SecretKeyRef n k) → container_refers c (RSecret n)
  | cr_config_from s n : s ∈ EnvFrom c → ef_ConfigMapRef s = Some n → container_refers c (RConfigMap n)
  | cr_secret_from s n : s ∈ EnvFrom c → ef_SecretRef s = Some n → container_refers c (RSecret n).

(** A pod refers to what its containers refer to, to the secrets its images are pulled
    with, to its service account, and to the objects its volumes are made of. *)
Inductive refers (spec : PodSpec) : reference → Prop :=
  | r_init c r : c ∈ InitContainers spec → container_refers c r → refers spec r
  | r_container c r : c ∈ Containers spec → container_refers c r → refers spec r
  | r_pull n : n ∈ ImagePullSecrets spec → refers spec (RSecret n)
  | r_account : ServiceAccountName spec ≠ "" → refers spec (RAccount (ServiceAccountName spec))
  | r_volume v text : v ∈ Volumes spec → v_Source v = OtherSource text → refers spec (RVolume text).

Lemma with_image_refers c c0 r : with_image_of c c0 → container_refers c r → container_refers c0 r.
Proof. intros [i ->]. destruct 1; cbn in *; eauto using container_refers. Qed.

Lemma container_refers_env (c : Container) r : container_refers c r →
  match r with RConfigMap n => (true, n) ∈ env_refs c | RSecret n => (false, n) ∈ env_refs c | _ => False end.
Proof.
  destruct 1 as [e n k He E|e n k He E|x n He E|x n He E]; apply elem_of_app; [left|left|right|right]; apply list_elem_of_bind.
  - exists e. rewrite E. set_solver.
  - exists e. rewrite E. set_solver.
  - exists x. rewrite E. set_solver.
  - exists x. rewrite E. set_solver.
Qed.

(** Which references [setEnv] cannot replace: the object is not there, or a config map has
    the name of the secret. *)
Definition not_copied (cms secrets : Store) (r : reference) : Prop :=
  match r with
  | RConfigMap n => cms !! n = None
  | RSecret n => secrets !! n = None ∨ is_Some (cms !! n)
  | _ => False
  end.

Lemma fetch_complete cms secrets R rs maps :
  fetched_from cms secrets R maps → (∀ r, r ∈ rs → r ∈ R) →
  let maps' := fold_left (fetch cms secrets) rs maps in
  fetched_from cms secrets R maps' ∧
  (∀ n d, maps.1 !! n = Some d → maps'.1 !! n = Some d) ∧
  (∀ n d, maps.2 !! n = Some d → maps'.2 !! n = Some d) ∧
  (∀ n, (true, n) ∈ rs → maps'.1 !! n = None → cms !! n = None) ∧
  (∀ n, (false, n) ∈ rs → maps'.2 !! n = None → secrets !! n = None ∨ is_Some (cms !! n)).
Proof.
  revert maps. induction rs as [|r rs IH]; intros maps F Hsub; cbn zeta; cbn [fold_left].
  { split_and!; [done|done|done|set_solver..]. }
  destruct (fetch_step cms secrets R maps r F) as (F' & M1 & M2 & _); [apply Hsub; set_solver|]. cbn zeta in *.
  destruct (IH _ F') as (FF & I1 & I2 & I3 & I4); [set_solver|]. cbn zeta in *.
  split_and!; [done|auto|auto|..]; intros n [<-|Hn]%elem_of_cons; eauto.
  - intros Hnone. destruct (cms !! n) as [d|] eqn:Ec; [|done]. exfalso.
    assert (is_Some ((fetch cms secrets maps (true, n)).1 !! n)) as [d' Hd'].
    { unfold fetch, howToGetCm. cbn [fst snd]. destruct (maps.1 !! n) eqn:E1; [by rewrite E1|].
      rewrite Ec. cbn. rewrite lookup_insert_eq. by eexists. }
    apply I1 in Hd'. congruence.
  - intros Hnone. destruct (secrets !! n) as [d|] eqn:Es; [|by left]. right.
    destruct (cms !! n) as [d'|] eqn:Ec; [by eexists|]. exfalso.
    assert (is_Some ((fetch cms secrets maps (false, n)).2 !! n)) as [d' Hd'].
    { unfold fetch, howToGetSecret. cbn [fst snd]. destruct (maps.1 !! n) eqn:E1.
      - destruct F as [F1 _]. apply F1 in E1 as [E1 _]. congruence.
      - rewrite Es. cbn. rewrite lookup_insert_eq. by eexists. }
    apply I2 in Hd'. congruence.
Qed.

Lemma resolve_container_refers cms secrets cs c r :
  c ∈ cs → container_refers (resolve_container (fetch_all cms secrets cs) c) r →
  container_refers c r ∧ not_copied cms secrets r.
Proof.
  intros Hc.
  destruct (fetch_complete cms secrets (cs ≫= env_refs) (cs ≫= env_refs) (∅, ∅)) as (_ & _ & _ & H1 & H2);
    [split; intros ? ? H; cbn [fst snd] in H; by rewrite lookup_empty in H|done|]. cbn zeta in *. fold (fetch_all cms secrets cs) in *.
  assert (∀ b n, (b, n) ∈ env_refs c → (b, n) ∈ cs ≫= env_refs) as Hin.
  { intros b n H. apply list_elem_of_bind. by exists c. }
  assert (∀ e, e ∈ Env (resolve_container (fetch_all cms secrets cs) c) → ev_ValueFrom e ≠ None →
            ∃ e0, e0 ∈ Env c ∧ e = resolve_var (fetch_all cms secrets cs) e0) as Hfrom.
  { intros e He Hv. cbn in He. apply elem_of_app in He as [He|He]; [apply list_elem_of_fmap in He as (e0 & -> & ?); by exists e0|].
    exfalso. apply Hv. apply list_elem_of_bind in He as (x & He & _). unfold env_from_vars, source_vars in He.
    apply elem_of_app in He as [He|He]; (case_match; [|set_solver]); by apply list_elem_of_fmap in He as (kv & -> & _). }
  intros Hr. assert (∀ e n k (b : bool), e ∈ Env (resolve_container (fetch_all cms secrets cs) c) →
    ev_ValueFrom e = Some (if b then ConfigMapKeyRef n k else SecretKeyRef n k) →
    e ∈ Env c ∧ (if b then (fetch_all cms secrets cs).1 else (fetch_all cms secrets cs).2) !! n = None) as Hkept.
  { intros e n k b He Ev. destruct (Hfrom e He) as (e0 & He0 & ->); [by destruct b; rewrite Ev|].
    unfold resolve_var in *. destruct (ev_ValueFrom e0) as [[n0 k0|n0 k0|p]|] eqn:E0.
    - destruct ((fetch_all cms secrets cs).1 !! n0) eqn:El; [by destruct b|]. rewrite E0 in Ev. destruct b; [|done]. by injection Ev as <- <-.
    - destruct ((fetch_all cms secrets cs).2 !! n0) eqn:El; [by destruct b|]. rewrite E0 in Ev. destruct b; [done|]. by injection Ev as <- <-.
    - rewrite E0 in Ev. by destruct b.
    - rewrite E0 in Ev. by destruct b. }
  destruct Hr as [e n k He E|e n k He E|x n He E|x n He E]; [| |cbn in He; by apply elem_of_nil in He..].
  - destruct (Hkept e n k true He E) as [He0 Hn]. assert (container_refers c (RConfigMap n)) as Hr by eauto using container_refers.
    split; [done|]. apply H1; [|done]. apply Hin. exact (container_refers_env _ _ Hr).
  - destruct (Hkept e n k false He E) as [He0 Hn]. assert (container_refers c (RSecret n)) as Hr by eauto using container_refers.
    split; [done|]. apply H2; [|done]. apply Hin. exact (container_refers_env _ _ Hr).
Qed.

(** *** The template over the tries *)

Section invariant.
Context (cms secrets : Store) (origin : PodSpec).

(** A reference of the original that the clone may keep. *)
Definition kept_reference (r : reference) : Prop :=
  (∃ c, c ∈ InitContainers origin ∧ container_refers c r) ∨
  (∃ n, n ∈ ImagePullSecrets origin ∧ r = RSecret n) ∨
  (∃ c, c ∈ Containers origin ∧ container_refers c r ∧ not_copied cms secrets r).

Record clone_inv (spec : PodSpec) : Prop := {
  ci_mounts c n : c ∈ InitContainers spec ++ Containers spec → n ∈ mount_names c →
    n ∈ volume_names (Volumes spec) ∨ n = KUBECONFIG;
  ci_volumes v : v ∈ Volumes spec → is_EmptyDir v = true ∨ v = kubeconfig_volume;
  ci_init c r : c ∈ InitContainers spec → container_refers c r → kept_reference r;
  ci_containers c r : c ∈ Containers spec → container_refers c r → kept_reference r;
  ci_pull : ImagePullSecrets spec = ImagePullSecrets origin;
  ci_account : ServiceAccountName spec = "" ∧ AutomountServiceAccountToken spec = Some false }.

Lemma clone_inv_refers spec r : clone_inv spec → refers spec r → kept_reference r.
Proof.
  intros [_ Hv Hi Hc Hp [Ha _]]. destruct 1 as [c r Hin Hr|c r Hin Hr|n Hn|Hne|v text Hin E].
  - by eapply Hi.
  - by eapply Hc.
  - right; left. exists n. by rewrite <- Hp.
  - by rewrite Ha in Hne.
  - exfalso. unfold is_EmptyDir in Hv. destruct (Hv v Hin) as [H| ->]; [by rewrite E in H|done].
Qed.

Lemma images_changed_inv spec spec' : images_changed spec spec' → clone_inv spec → clone_inv spec'.
Proof.
  intros [Ii Ic Iv Ia It Ip] [Hm Hv Hi Hc Hp [Ha Ht]]. split.
  - intros c n Hin. rewrite Iv. assert (∃ c0, c0 ∈ InitContainers spec ++ Containers spec ∧ with_image_of c c0) as (c0 & H0 & Hw).
    { apply elem_of_app in Hin as [Hin|Hin]; [destruct (Ii c Hin) as (c0 & ? & ?)|destruct (Ic c Hin) as (c0 & ? & ?)];
        exists c0; set_solver. }
    rewrite (with_image_mounts _ _ Hw). by apply Hm.
  - by rewrite Iv.
  - intros c r Hin Hr. destruct (Ii c Hin) as (c0 & H0 & Hw). eauto using with_image_refers.
  - intros c r Hin Hr. destruct (Ic c Hin) as (c0 & H0 & Hw). eauto using with_image_refers.
  - congruence.
  - split; congruence.
Qed.

(** Steps (1) to (4) add the kubeconfig's volume, so that every mount is resolved. *)
Lemma clone_template_inv image kubeconfig d workload labels t t' :
  clone_template image kubeconfig d workload labels t = Ret t' → clone_inv (t_Spec t) →
  clone_inv (t_Spec t') ∧ mounts_resolved (t_Spec t') ∧ t_Labels t' = labels.
Proof.
  intros (cs & Hcs & [= <-])%outcome_bind_Ret [Hm Hv Hi Hc Hp Ha]. cbn.
  assert (Hold : ∀ c, c ∈ cs → ∃ c0, c0 ∈ Containers (t_Spec t) ∧ with_image_of c c0).
  { intros c Hin. destruct (set_target_from _ _ _ _ Hcs Hin) as (c0 & H0 & Hw). exists c0. split; [|done].
    rewrite list_elem_of_In in H0. apply remove_loop_In in H0 as [H0 _]. by apply list_elem_of_In. }
  assert (Hmounts : ∀ c n, c ∈ InitContainers (t_Spec t) ++ cs ++ [vpn_container image d workload] → n ∈ mount_names c →
    n ∈ volume_names (Volumes (t_Spec t) ++ [kubeconfig_volume])).
  { intros c n Hin Hn. unfold volume_names. rewrite fmap_app. apply elem_of_app.
    assert (∀ c0, c0 ∈ InitContainers (t_Spec t) ++ Containers (t_Spec t) → n ∈ mount_names c0 →
      n ∈ v_Name <$> Volumes (t_Spec t) ∨ n ∈ v_Name <$> [kubeconfig_volume]) as Old.
    { intros c0 H0 Hn0. destruct (Hm c0 n H0 Hn0) as [?| ->]; [by left|right; set_solver]. }
    apply elem_of_app in Hin as [Hin|Hin]; [apply (Old c); set_solver|].
    apply elem_of_app in Hin as [Hin|Hin].
    - destruct (Hold c Hin) as (c0 & H0 & Hw). rewrite (with_image_mounts _ _ Hw) in Hn. apply (Old c0); set_solver.
    - apply list_elem_of_singleton in Hin as ->. right. cbn in Hn |- *. set_solver. }
  split; [|split; [exact Hmounts|done]]. split; cbn; try done.
  - intros c n Hin Hn. left. by eapply Hmounts.
  - intros v [Hin|Hin]%elem_of_app; [by apply Hv|right; set_solver].
  - intros c r [Hin|Hin]%elem_of_app Hr.
    + destruct (Hold c Hin) as (c0 & H0 & Hw). eauto using with_image_refers.
    + apply list_elem_of_singleton in Hin as ->. exfalso.
      inversion Hr as [e n k He E|e n k He E|x n He E|x n He E]; cbn in He.
      1, 2: apply list_elem_of_singleton in He as ->; discriminate E.
      all: by apply elem_of_nil in He.
Qed.

Lemma volume_loop_refs image pod vs init init' added' :
  volume_loop image pod vs init [] = (init', added') →
  (∀ c, c ∈ init' → c ∈ init) ∧ ∀ c r, c ∈ added' → ¬ container_refers c r.
Proof.
  intros [H1 H2]%volume_loop_from. split; [done|]. intros c r Hc Hr.
  destruct (H2 c Hc) as [H|(v & args & ->)]; [by apply elem_of_nil in H|].
  inversion Hr as [e n k He E|e n k He E|x n He E|x n He E]; cbn in He.
  1, 2: apply list_elem_of_singleton in He as ->; discriminate E.
  all: by apply elem_of_nil in He.
Qed.

(** The template that the first try starts from. *)
Lemma prepared_inv image pod : pod_matches pod origin →
  clone_inv (setEnv cms secrets (setVolume image pod origin)).
Proof.
  intros Hpod. pose proof (setVolume_mounts image pod origin) as Hm. unfold setVolume in *.
  destruct (volume_loop image pod (p_Volumes pod) (InitContainers origin) []) as [init added] eqn:E.
  pose proof (volume_loop_refs _ _ _ _ _ _ E) as [Hinit Hadded]. split; cbn in *.
  - intros c n Hin Hn. rewrite clone_volume_names. apply elem_of_app in Hin as [Hin|Hin].
    + apply (Hm c n Hpod); [set_solver|done].
    + apply list_elem_of_fmap in Hin as (c0 & -> & H0). apply (Hm c0 n Hpod); [set_solver|done].
  - intros v Hin. left. by eapply clone_volume_EmptyDir.
  - intros c r [Hin|Hin]%elem_of_app Hr.
    + exfalso. by eapply Hadded.
    + left. exists c. auto.
  - intros c r Hin Hr. apply list_elem_of_fmap in Hin as (c0 & -> & H0).
    apply resolve_container_refers in Hr as [Hr Hn]; [|done]. right; right.
    apply list_elem_of_fmap in H0 as (c1 & -> & H1). exists c1. split.
    { rewrite list_elem_of_In in H1. apply remove_loop_In in H1 as [H1 _]. by apply list_elem_of_In. }
    split; [|done]. revert Hr. unfold add_token. destruct (nonempty_name _); [|done]. destruct (existsb _ _); [done|].
    destruct 1; cbn in *; eauto using container_refers.
  - done.
  - done.
Qed.
End invariant.

(** What is true of every object that is sent. *)
Lemma clone_tries_sent valid_image image kubeconfig cms secrets origin steps k create d workload u t sent :
  clone_inv cms secrets origin (t_Spec t) →
  clone_tries valid_image image kubeconfig steps k create d workload u t = Ret sent →
  clone_inv cms secrets origin (t_Spec (o_Template sent)) ∧ mounts_resolved (t_Spec (o_Template sent)) ∧
  t_Labels (o_Template sent) = o_matchLabels u ∧ ∃ t', sent = with_template u t'.
Proof.
  revert k t. induction steps as [|steps IH]; intros k t Hinv; cbn [clone_tries]; [done|].
  intros ([t1 sent1] & Htry & Hc)%outcome_bind_Ret. unfold clone_try in Htry.
  apply outcome_bind_Ret in Htry as (t0 & Ht & Htry). apply outcome_bind_Ret in Htry as (spec & Hreg & [= <- <-]).
  destruct (clone_template_inv cms secrets origin _ _ _ _ _ _ _ Ht Hinv) as (Hinv' & Hres & Hl).
  apply replaceRegistry_changed in Hreg. cbn zeta in Hc.
  assert (mounts_resolved spec) as Hres'.
  { intros c n Hin. destruct Hreg as [Ii Ic Iv _ _ _]. rewrite Iv.
    assert (∃ c0, c0 ∈ InitContainers (t_Spec t0) ++ Containers (t_Spec t0) ∧ with_image_of c c0) as (c0 & H0 & Hw).
    { apply elem_of_app in Hin as [Hin|Hin]; [destruct (Ii c Hin) as (c0 & ? & ?)|destruct (Ic c Hin) as (c0 & ? & ?)];
        exists c0; set_solver. }
    rewrite (with_image_mounts _ _ Hw). by apply Hres. }
  destruct (create k _) as [[]|e|].
  - injection Hc as <-. cbn. split; [by eapply images_changed_inv|]. split; [done|]. split; [done|]. by eexists.
  - destruct e; try done. destruct steps; [done|]. by eapply IH.
  - done.
Qed.


(** ** What the copy of the environment gets wrong *)

Definition simple (name : string) (env : list EnvVar) (from : list EnvFromSource) (ms : list VolumeMount) : Container :=
  MkContainer name "reg.example.com/app:1" [] [] "" env from ms [] [] [] [] None None "".
Definition one (c : Container) : PodSpec := MkPodSpec [] [c] [] "" None false [].

(** An explicit variable wins over a source; in the clone the source's value comes later
    in the list and wins. *)
Example source_overrides :
  let c := simple "app" [MkEnvVar "MODE" "debug" None] [MkEnvFrom "" (Some "settings") None] [] in
  let cms := {[ "settings" := {[ "MODE" := "prod" ]} ]} in
  (container_env cms ∅ c "MODE", (λ c', container_env ∅ ∅ c' "MODE") <$> Containers (setEnv cms ∅ (one c)))
  = (Some (Lit "debug"), [Some (Lit "prod")]).
Proof. vm_compute. reflexivity. Qed.

(** The prefix of a source is looked for in its keys instead of being put before them. *)
Example prefix_lost :
  let c := simple "app" [] [MkEnvFrom "DB_" (Some "settings") None] [] in
  let cms := {[ "settings" := {[ "PORT" := "5432" ]} ]} in
  (container_env cms ∅ c "DB_PORT", (λ c', container_env ∅ ∅ c' "DB_PORT") <$> Containers (setEnv cms ∅ (one c)))
  = (Some (Lit "5432"), [None]).
Proof. vm_compute. reflexivity. Qed.

(** A secret with the name of a config map is not fetched. *)
Example secret_clash :
  let c := simple "app" [MkEnvVar "A" "" (Some (ConfigMapKeyRef "app" "a"));
                         MkEnvVar "B" "" (Some (SecretKeyRef "app" "b"))] [] [] in
  let cms := {[ "app" := {[ "a" := "1" ]} ]} in
  let secrets := {[ "app" := {[ "b" := "2" ]} ]} in
  (container_env cms secrets c "B", (λ c', container_env ∅ ∅ c' "B") <$> Containers (setEnv cms secrets (one c)))
  = (Some (Lit "2"), [None]).
Proof. vm_compute. reflexivity. Qed.

(** An init container that fills an empty directory for the others is dropped, and the
    directory is not downloaded. *)
Example emptydir_init_dropped :
  let spec := MkPodSpec [simple "fill" [] [] [MkVolumeMount "work" "/work" ""]]
                        [simple "app" [] [] [MkVolumeMount "work" "/data" ""]]
                        [MkVolume "work" (EmptyDir "")] "" None false [] in
  let pod := MkPod "app-1" "default" (Containers spec) (Volumes spec) in
  (Name <$> InitContainers (setVolume "img" pod spec), volume_names (Volumes (setVolume "img" pod spec)))
  = ([], ["work"]).
Proof. vm_compute. reflexivity. Qed.

(** An image without a registry keeps coming from the default one. *)
Example short_image_kept :
  (new_image "mirror.local" <$> ["nginx:1.25"; "quay.io/app/web:2"; "docker.io/library/nginx"])
  = ["nginx:1.25"; "mirror.local/app/web:2"; "mirror.local/library/nginx"].
Proof. vm_compute. reflexivity. Qed.

(** ** Witnesses *)

Definition example_app : Container :=
  simple "app" [MkEnvVar "MODE" "debug" None; MkEnvVar "KEY" "" (Some (SecretKeyRef "tls" "key"))]
    [MkEnvFrom "" (Some "settings") None]
    [MkVolumeMount "conf" "/etc/app" "app.yaml"; MkVolumeMount "token" TokenVolumeMountPath ""].
Definition example_spec : PodSpec :=
  MkPodSpec [simple "init" [] [] [MkVolumeMount "conf" "/in" ""]]
    [example_app; simple ContainerSidecarVPN [] [] [MkVolumeMount "gone" "/x" ""]]
    [MkVolume "conf" (OtherSource "configMap: settings")] "builder" None false ["registry-login"].
Definition example_pod : Pod :=
  MkPod "app-1" "default" [example_app]
    [MkVolume "conf" (OtherSource "configMap: settings"); MkVolume "token" (OtherSource "projected")].
Definition example_cms : Store := {[ "settings" := {[ "PORT" := "80" ]} ]}.
Definition example_secrets : Store := {[ "tls" := {[ "key" := "k" ]} ]}.

Lemma example_copyable c : c ∈ Containers (one example_app) → copyable example_cms example_secrets c.
Proof.
  intros ->%list_elem_of_singleton. split_and!.
  - intros e He. cbn in He. repeat (apply elem_of_cons in He as [->|He]; [vm_compute; eauto|]). by apply elem_of_nil in He.
  - intros b n Hn. vm_compute in Hn.
    repeat (apply elem_of_cons in Hn as [[= -> ->]|Hn]; [vm_compute; eauto|]). by apply elem_of_nil in Hn.
  - intros s Hs. cbn in Hs. apply list_elem_of_singleton in Hs as ->. done.
  - intros e v He Hv. vm_compute in Hv. apply list_elem_of_singleton in Hv as ->. cbn in He.
    repeat (apply elem_of_cons in He as [->|He]; [done|]). by apply elem_of_nil in He.
Qed.

Lemma setEnv_preserves_env_witness :
  ∃ c', Containers (setEnv example_cms example_secrets (one example_app)) !! 0 = Some c' ∧
    container_env ∅ ∅ c' "KEY" = container_env example_cms example_secrets example_app "KEY".
Proof.
  apply (setEnv_preserves_env example_cms example_secrets (one example_app) 0 example_app "KEY").
  - intros n Hn Hn'. vm_compute in Hn, Hn'.
    repeat (apply elem_of_cons in Hn as [[= ->]|Hn]); [|by apply elem_of_nil in Hn].
    repeat (apply elem_of_cons in Hn' as [[=]|Hn']). by apply elem_of_nil in Hn'.
  - exact example_copyable.
  - reflexivity.
Defined.

Definition example_options : CloneOptions :=
  MkCloneOptions "default" {[ "user" := "naison" ]} "mix" "test" "app" "reg.example.com/app:2" "mirror.local" true false.
Definition example_object : Object :=
  MkObject "web" "default" ∅ {[ last_applied := "{}" ]} {[ "app" := "web" ]} (MkTemplate {[ "app" := "web" ]} ∅ example_spec)
    (MkServerInfo (Some "ok") ["kubectl"] "77" (Some "now") "u-1" 3).

Definition example_prepared : outcome Object :=
  prepare_clone "img" "a1b2c" example_cms example_secrets (Ret example_pod) example_options example_object.
(** A try that is repeated mounts the kubeconfig's volume twice. *)
Example retry_duplicates_volume :
  (λ p, volume_names (Volumes (t_Spec (o_Template p)))) <$>
    (u ← example_prepared;
     clone_tries (λ _, true) "img" "{}" 5 0 (λ k _, if k =? 0 then Fail Conflict else Ret tt)
       example_options "deployments/web" u (o_Template u))
  = Ret ["conf"; "token"; "kubeconfig"; "kubeconfig"].
Proof. vm_compute. reflexivity. Qed.

(** The server has a conflict first and then takes the clone. *)
Definition example_created (k : nat) (_ : Object) : outcome unit := if (k =? 0)%nat then Fail Conflict else Ret tt.
Definition example_cloned : outcome Object :=
  clone_workload (λ _, true) "img" "{}" "a1b2c" example_cms example_secrets (Ret example_pod) example_created
    example_options "deployments/web" example_object.
Definition example_sent : Object := match example_cloned with Ret a => a | _ => example_object end.

Lemma example_pod_matches : pod_matches example_pod example_spec.
Proof.
  split_and!; intros c n Hc.
  - intros Hs Hn. repeat (apply elem_of_cons in Hc as [->|Hc]); [| |done|by apply elem_of_nil in Hc].
    all: vm_compute in Hn; apply (bool_decide_unpack _); revert Hn; set_unfold; intros Hn.
    all: repeat destruct Hn as [->|Hn]; try done; vm_compute; exact I.
  - intros Hn. apply list_elem_of_singleton in Hc as ->. vm_compute in Hn.
    apply list_elem_of_singleton in Hn as ->. left.
  - intros Hn. apply list_elem_of_singleton in Hc as ->. vm_compute in Hn.
    repeat (apply elem_of_cons in Hn as [->|Hn]; [vm_compute; set_solver|]). by apply elem_of_nil in Hn.
Qed.

Lemma example_cloned_eq : example_cloned = Ret example_sent.
Proof. vm_compute. reflexivity. Qed.

