(* ===== verification/Copy.v ===== *)
(** * Copying files

    [pkg/cp]: [kubevpn cp], which the clones of workloads also use to download their
    volumes.  File specifications and paths ([filespec.go]), the resumed pipe and the
    extraction of an archive sent by a pod ([cp.go], [untar.go]).  Local paths are
    those of Unix. *)
From Stdlib Require Import ZArith Lia Ascii.
From Stdlib Require Import Strings.Byte.
From stdpp Require Import base gmap strings numbers finite list.
From S2P Require Import Prelude GoStrings GoPath Url.

(** ** Specifications *)

Definition stripTrailingSlash (file : string) : string :=
  if bool_decide (file = EmptyString) then file
  else if negb (bool_decide (file = "/"%string)) && HasSuffix file "/" then TrimSuffix file "/" else file.

Definition stripLeadingSlash (file : string) : string := TrimLeftFunc (λ a, Ascii.eqb a "/" || Ascii.eqb a "\") file.

(** The loop that trims [../] at the front. *)
Fixpoint trim_dotdot (s : string) : string :=
  match s with
  | String "."%char (String "."%char (String "/"%char s')) => trim_dotdot s'
  | _ => s
  end.

Definition stripPathShortcuts (p : string) : string :=
  let newPath := trim_dotdot p in
  let newPath := if bool_decide (newPath = "."%string) || bool_decide (newPath = ".."%string) then EmptyString else newPath in
  match newPath with String "/"%char rest => rest | _ => newPath end.

(** [strings.ReplaceAll(s, "\", "/")]. *)
Fixpoint backslashes (s : string) : string :=
  match s with
  | EmptyString => EmptyString
  | String a s => String (if Ascii.eqb a "\" then "/"%char else a) (backslashes s)
  end.

Definition newLocalPath (fileName : string) : string := stripTrailingSlash fileName.
Definition newRemotePath (fileName : string) : string := backslashes (stripTrailingSlash fileName).

Definition local_Dir (p : string) : string := newLocalPath (Dir p).
Definition local_Base (p : string) : string := newLocalPath (Base p).
Definition local_Clean (p : string) : string := newLocalPath (Clean p).
Definition local_Join (p elem : string) : string := newLocalPath (PathJoin p elem).
Definition local_StripSlashes (p : string) : string := newLocalPath (stripLeadingSlash p).
Definition remote_Dir (p : string) : string := newRemotePath (Dir p).
Definition remote_Base (p : string) : string := newRemotePath (Base p).
Definition remote_Clean (p : string) : string := newRemotePath (Clean p).
Definition remote_Join (p elem : string) : string := newRemotePath (PathJoin p elem).
Definition remote_StripShortcuts (p : string) : string := newRemotePath (stripPathShortcuts (remote_Clean p)).
Definition remote_StripSlashes (p : string) : string := newRemotePath (stripLeadingSlash p).

Definition isRelative (base target : string) : bool :=
  match Rel base target with
  | None => false
  | Some relative => bool_decide (relative = "."%string) || bool_decide (relative = stripPathShortcuts relative)
  end.

Inductive pathSpec := LocalPath (file : string) | RemotePath (file : string).
Definition file_of (p : pathSpec) : string := match p with LocalPath f | RemotePath f => f end.

Record fileSpec := MkFileSpec { PodName : string; PodNamespace : string; File : pathSpec }.

Definition errFileSpecDoesntMatchFormat : error :=
  Errorf "filespec must match the canonical format: [[namespace/]pod:]file/path".

Definition extractFileSpec (windows : bool) (arg : string) : outcome fileSpec :=
  match IndexStr ":" arg with
  | Some 0 => Fail errFileSpecDoesntMatchFormat
  | None => Ret (MkFileSpec "" "" (LocalPath (newLocalPath arg)))
  | Some i =>
      if windows && Contains "ABCDEFGHIJKLMNOPQRSTUVWXYZ" (str_take i arg)
      then Ret (MkFileSpec "" "" (LocalPath (newLocalPath arg)))
      else
        let file := RemotePath (newRemotePath (str_drop (S i) arg)) in
        match Split "/" (str_take i arg) with
        | [pod] => Ret (MkFileSpec pod "" file)
        | [ns; pod] => Ret (MkFileSpec pod ns file)
        | _ => Fail errFileSpecDoesntMatchFormat
        end
  end.

(** What [Run] decides to do. *)
Inductive CopyAction := copyFromPod (src dest : fileSpec) | copyToPod (src dest : fileSpec).

Definition Run (windows : bool) (src dest : string) : outcome CopyAction :=
  srcSpec ← extractFileSpec windows src;
  destSpec ← extractFileSpec windows dest;
  let remote f := negb (bool_decide (PodName f = EmptyString)) in
  if remote srcSpec && remote destSpec then Fail (Errorf "one of src or dest must be a local file specification")
  else if bool_decide (file_of (File srcSpec) = EmptyString) || bool_decide (file_of (File destSpec) = EmptyString)
  then Fail (Errorf "filepath can not be empty")
  else if remote srcSpec then Ret (copyFromPod srcSpec destSpec)
  else if remote destSpec then Ret (copyToPod srcSpec destSpec)
  else Fail (Errorf "one of src or dest must be a remote file specification").

(** The prefix [copyFromPod] expects of every name. *)
Definition archive_prefix (src : string) : string :=
  stripPathShortcuts (remote_Clean (remote_StripSlashes src)).

(** The destination and the command of [copyToPod]; [isDir] is the remote test. *)
Definition upload_dest (isDir : bool) (src dest : string) : string :=
  if isDir then remote_Join dest (local_Base src) else dest.

Definition upload_command (noPreserve : bool) (destFile : string) : list string :=
  (if noPreserve then ["tar"; "--no-same-permissions"; "--no-same-owner"; "-xmfh"; "-"] else ["tar"; "-xmfh"; "-"])%string ++
  let dir := remote_Dir destFile in
  if bool_decide (dir = EmptyString) then [] else ["-C"%string; dir].

(** ** The resumed pipe *)

(** [tp_stream]: what the current command still delivers before it ends; its end is an
    error of the reader like any other. *)
Record TarPipe := MkPipe { tp_bytesRead : nat; tp_retries : Z; tp_stream : list byte }.

(** [initReadFrom(n)]: [tail -c+n] of the remote archive, of which the [cut]-th try
    delivers [len] bytes before it breaks.  [tail -c+0] and [tail -c+1] are all of it. *)
Definition initReadFrom (data : list byte) (n len : nat) (p : TarPipe) : TarPipe :=
  MkPipe (tp_bytesRead p) (tp_retries p) (take len (drop (n - 1) data)).

(** [Read] into a buffer of which [k] bytes (one at least, if there are any) are
    filled: the bytes, and whether an error is returned.  [next] is the length of the
    next try. *)
Definition Read (maxTries : Z) (data : list byte) (next k : nat) (p : TarPipe) : TarPipe * list byte * bool :=
  match tp_stream p with
  | [] =>
      if (maxTries <? 0)%Z || (tp_retries p <? maxTries)%Z then
        let p := MkPipe (tp_bytesRead p) (tp_retries p + 1) [] in
        (initReadFrom data (S (tp_bytesRead p)) next p, [], false)
      else (p, [], true)
  | stream =>
      let out := take (S k) stream in
      (MkPipe (tp_bytesRead p + length out) (tp_retries p) (drop (S k) stream), out, false)
  end.

Definition newTarPipe (data : list byte) (len : nat) : TarPipe := initReadFrom data 0 len (MkPipe 0 0 []).

(** A sequence of reads: the bytes until the first error. *)
Fixpoint read_all (maxTries : Z) (data : list byte) (p : TarPipe) (script : list (nat * nat)) : TarPipe * list byte * bool :=
  match script with
  | [] => (p, [], false)
  | (next, k) :: script =>
      let '(p, out, err) := Read maxTries data next k p in
      if err : bool then (p, out, true)
      else let '(p, outs, err) := read_all maxTries data p script in (p, (out ++ outs)%list, err)
  end.

(** ** Making an archive *)

Inductive fnode := NFile (data : list byte) | NDir (names : list string) | NLink (target : string).
Record Header := MkHeader { h_Name : string; h_Linkname : string; h_IsDir : bool; h_Data : list byte }.

Section Tar.
Variable glob : string → outcome (list string).
Variable fs : gmap string fnode.

(** [recursiveTar], by the depth of the directories; [None] is running out of it.  The
    loop over the matched paths returns at the first directory or regular file. *)
Fixpoint recursiveTar (depth : nat) (srcDir srcFile destDir destFile : string) {struct depth} : option (outcome (list Header)) :=
  match depth with
  | O => None
  | S depth =>
      match glob (local_Join srcDir srcFile) with
      | Fail e => Some (Fail e)
      | Panic => Some Panic
      | Ret matchedPaths =>
          (fix matches (ps : list string) : option (outcome (list Header)) :=
             match ps with
             | [] => Some (Ret [])
             | fpath :: ps =>
                 match fs !! fpath with
                 | None => Some (Fail NotFound)
                 | Some (NDir files) =>
                     (fix entries (fs : list string) (acc : list Header) : option (outcome (list Header)) :=
                        match fs with
                        | [] => Some (Ret acc)
                        | f :: fs =>
                            match recursiveTar depth srcDir (local_Join srcFile (newLocalPath f)) destDir
                                    (remote_Join destFile (newRemotePath f)) with
                            | Some (Ret hs) => entries fs (acc ++ hs)%list
                            | r => r
                            end
                        end) files (if bool_decide (files = []) then [MkHeader destFile "" true []] else [])
                 | Some (NLink target) =>
                     match matches ps with
                     | Some (Ret hs) => Some (Ret (MkHeader destFile target false [] :: hs))
                     | r => r
                     end
                 | Some (NFile data) => Some (Ret [MkHeader destFile "" false data])
                 end
             end) matchedPaths
      end
  end.

Definition makeTar (depth : nat) (src dest : string) : option (outcome (list Header)) :=
  let srcPath := local_Clean src in
  let destPath := remote_Clean dest in
  recursiveTar depth (local_Dir srcPath) (local_Base srcPath) (remote_Dir destPath) (remote_Base destPath).
End Tar.

(** ** Extracting an archive *)

(** The local files and the directories made, by the paths they really have. *)
Record LFS := MkLFS { files : gmap string (list byte); made : list string }.

(** The machine: [resolve] is where a path leads through the symbolic links the machine
    has; extraction makes regular files and directories only, so it stays the same.
    [os.MkdirAll] and [os.Create] may fail, and copying into a file may break after some
    bytes. *)
Record Disk := MkDisk {
  resolve : string → string; mkdir_err : string → option error; create_err : string → option error;
  copy_err : string → option (nat * error) }.

Section Untar.
Variable disk : Disk.
Variables prefix dest : string.

(** [headerName[len(prefix):]] panics on a shorter name. *)
Definition genDstFilename (headerName : string) : option string :=
  if String.length headerName <? String.length prefix then None
  else Some (local_Join dest (newRemotePath (str_drop (String.length prefix) headerName))).

Definition MkdirAll (fs : LFS) (dir : string) : LFS * outcome unit :=
  match mkdir_err disk dir with
  | Some e => (fs, Fail e)
  | None => (MkLFS (files fs) (made fs ++ [resolve disk dir]), Ret tt)
  end.

Definition write_file (fs : LFS) (name : string) (data : list byte) : LFS * outcome unit :=
  match create_err disk name with
  | Some e => (fs, Fail e)
  | None =>
      match copy_err disk name with
      | Some (n, e) => (MkLFS (<[resolve disk name := take n data]> (files fs)) (made fs), Fail e)
      | None => (MkLFS (<[resolve disk name := data]> (files fs)) (made fs), Ret tt)
      end
  end.

Definition untar_entry (fs : LFS) (links : list Header) (h : Header) : LFS * outcome (list Header) :=
  if negb (HasPrefix (h_Name h) prefix) then (fs, Fail (Errorf "tar contents corrupted"))
  else match genDstFilename (h_Name h) with
  | None => (fs, Panic)
  | Some name =>
      if negb (isRelative dest name) then (fs, Ret links)
      else match MkdirAll fs (local_Dir name) with
      | (fs, Ret _) =>
          if h_IsDir h then
            let '(fs, r) := MkdirAll fs name in (fs, _ ← r; Ret links)
          else
            let '(fs, r) := write_file fs name (h_Data h) in
            (fs, _ ← r; Ret (if bool_decide (h_Linkname h = EmptyString) then links else (links ++ [h])%list))
      | (fs, Fail e) => (fs, Fail e)
      | (fs, Panic) => (fs, Panic)
      end
  end.

Fixpoint untar_entries (fs : LFS) (links : list Header) (hs : list Header) : LFS * outcome (list Header) :=
  match hs with
  | [] => (fs, Ret links)
  | h :: hs =>
      match untar_entry fs links h with
      | (fs, Ret links) => untar_entries fs links hs
      | r => r
      end
  end.

(** [copyFromLink] follows links by recursion; [None] as the answer is that it still
    follows them when the fuel ends, with the files as they are then.  The target is
    opened before the file is truncated. *)
Fixpoint copyFromLink (fuel : nat) (links : list Header) (cur : Header) (fs : LFS) : LFS * option (outcome unit) :=
  match fuel with
  | O => (fs, None)
  | S fuel =>
      match List.find (λ t, bool_decide (h_Name t = h_Linkname cur)) links with
      | Some t => copyFromLink fuel links t fs
      | None =>
          match genDstFilename (h_Linkname cur) with
          | None => (fs, Some Panic)
          | Some src =>
              match files fs !! resolve disk src with
              | None => (fs, Some (Fail NotFound))
              | Some data =>
                  match genDstFilename (h_Name cur) with
                  | None => (fs, Some Panic)
                  | Some dst =>
                      let '(fs, r) := write_file fs dst (if bool_decide (resolve disk src = resolve disk dst) then [] else data) in
                      (fs, Some r)
                  end
              end
          end
      end
  end.

Fixpoint copy_links (fuel : nat) (links todo : list Header) (fs : LFS) : LFS * option (outcome unit) :=
  match todo with
  | [] => (fs, Some (Ret tt))
  | f :: todo =>
      match copyFromLink fuel links f fs with
      | (fs, Some (Ret _)) => copy_links fuel links todo fs
      | r => r
      end
  end.

(** [untarAll]: the headers and how the archive ends ([None] is [io.EOF]). *)
Definition untarAll (fuel : nat) (fs : LFS) (archive : list Header) (end_ : option error) : LFS * option (outcome unit) :=
  match untar_entries fs [] archive with
  | (fs, Ret links) =>
      match end_ with
      | Some e => (fs, Some (Fail e))
      | None => copy_links fuel links links fs
      end
  | (fs, Fail e) => (fs, Some (Fail e))
  | (fs, Panic) => (fs, Some Panic)
  end.
End Untar.

(** ** The check of a destination *)

(** [p] is [dest] or something below it: no element of the way down is [..]. *)
Definition within (dest p : string) : Prop :=
  ∃ rest, rooted (clean p) = rooted (clean dest) ∧ elems (clean p) = (elems (clean dest) ++ rest)%list ∧
    Forall normal rest.

Lemma trim_dotdot_step s :
  (∃ s', s = String "." (String "." (String "/" s'))) ∨ trim_dotdot s = s.
Proof.
  destruct s as [|a s]; [by right|]. destruct (decide (a = "."%char)) as [->|Ha].
  2: { right. destruct a as [[] [] [] [] [] [] [] []]; done. }
  destruct s as [|b s]; [by right|]. destruct (decide (b = "."%char)) as [->|Hb].
  2: { right. destruct b as [[] [] [] [] [] [] [] []]; done. }
  destruct s as [|c s]; [by right|]. destruct (decide (c = "/"%char)) as [->|Hc].
  - left. by exists s.
  - right. destruct c as [[] [] [] [] [] [] [] []]; done.
Qed.

Lemma trim_dotdot_length s : String.length (trim_dotdot s) ≤ String.length s.
Proof.
  assert (∀ n s, String.length s ≤ n → String.length (trim_dotdot s) ≤ String.length s) as H; [|by eapply H].
  clear s. induction n as [|n IH]; intros s Hn; destruct (trim_dotdot_step s) as [[s' ->] | ->]; try done; cbn in *; [lia|].
  specialize (IH s' ltac:(lia)). lia.
Qed.

(** A path that begins with [..] is changed by [stripPathShortcuts]. *)
Lemma strip_dotdot l : head l = Some ".."%string → stripPathShortcuts (Join "/" l) ≠ Join "/" l.
Proof.
  destruct l as [|w l]; [done|]. intros [= ->]. destruct l as [|x l]; [done|].
  rewrite Join_cons by done. set (t := Join "/" (x :: l)).
  change (".." +:+ "/" +:+ t)%string with (String "." (String "." (String "/" t))).
  intros E. apply (f_equal String.length) in E. unfold stripPathShortcuts in E. cbn [trim_dotdot] in E.
  pose proof (trim_dotdot_length t) as Hl. revert E. cbn [String.length].
  set (u := if bool_decide (trim_dotdot t = _) || _ then EmptyString else trim_dotdot t).
  assert (String.length u ≤ String.length t) by (unfold u; destruct (_ || _); [apply Nat.le_0_l|exact Hl]).
  assert (String.length (match u with String "/"%char rest => rest | _ => u end) ≤ String.length u) as Hm.
  { destruct u as [|c u]; [done|]. destruct c as [[] [] [] [] [] [] [] []]; cbn; lia. }
  lia.
Qed.

(** What passes the check lies below the destination. *)
Lemma isRelative_within dest p : isRelative dest p = true → within dest p.
Proof.
  unfold isRelative, Rel, within. destruct (decide (clean dest = clean p)) as [E|E].
  - intros _. exists []. by rewrite <-E, app_nil_r.
  - rewrite bool_decide_false by done.
    destruct (eqb (rooted (clean dest)) (rooted (clean p))) eqn:Er; cbn [negb]; [|done].
    apply eqb_prop in Er.
    destruct (strip_common (elems (clean dest)) (elems (clean p))) as [b t] eqn:Es.
    apply strip_common_spec in Es as (c & Eb & Et). case_bool_decide as Hb; [done|].
    intros H. assert (head (replicate (length b) ".." ++ t)%list ≠ Some ".."%string) as Hh.
    { intros Hh. apply orb_true_iff in H as [H|H]; apply bool_decide_eq_true in H.
      - destruct (replicate (length b) ".."%string ++ t)%list as [|w [|x l]]; try done; injection Hh as ->; [done|].
        rewrite Join_cons in H by done. discriminate H.
      - by apply (strip_dotdot _ Hh). }
    destruct b as [|x b]; [|done]. rewrite app_nil_r in Eb. subst c. cbn in Hh.
    exists t. split; [done|]. split; [done|].
    by apply (clean_elems_suffix _ _ _ _ (clean_clean_elems p) Et).
Qed.

(** ** Confinement *)

(** What extraction may do, where links lead as [res] says: the files that change are
    where a path below [dest] leads, and the directories made are where such a path or
    its parent leads. *)
Definition confined (res : string → string) (dest : string) (fs fs' : LFS) : Prop :=
  (∀ q, files fs' !! q ≠ files fs !! q → ∃ p, within dest p ∧ q = res p) ∧
  (∀ d, d ∈ made fs' → d ∈ made fs ∨ ∃ p, within dest p ∧ (d = res p ∨ d = res (local_Dir p))).

#[export] Instance confined_preorder res dest : PreOrder (confined res dest).
Proof.
  split.
  - intros fs. split; [done|]. intros d Hd. by left.
  - intros x y z [H1 D1] [H2 D2]. split.
    + intros p Hp. destruct (decide (files y !! p = files x !! p)) as [E|E]; [|by apply H1].
      apply H2. by rewrite E.
    + intros d [Hd|Hd]%D2; [by apply D1|by right].
Qed.

Section Confined.
Variable disk : Disk.
Variables prefix dest : string.

Lemma MkdirAll_confined fs p d fs' r :
  within dest p → d = p ∨ d = local_Dir p → MkdirAll disk fs d = (fs', r) → confined (resolve disk) dest fs fs'.
Proof.
  intros Hp Hd. unfold MkdirAll. destruct (mkdir_err disk d); intros [= <- <-]; [done|]. split; [done|].
  intros d' [?| ->%list_elem_of_singleton]%elem_of_app; [by left|]. right. exists p.
  destruct Hd as [-> | ->]; eauto.
Qed.

Lemma write_confined fs p data fs' r :
  within dest p → write_file disk fs p data = (fs', r) → confined (resolve disk) dest fs fs'.
Proof.
  intros Hp. unfold write_file.
  destruct (create_err disk p); [intros [= <- <-]; done|].
  destruct (copy_err disk p) as [[n e]|]; intros [= <- <-]; (split; [|by left]); cbn; intros q Hq;
    (destruct (decide (resolve disk p = q)) as [<-|Hne]; [by exists p|by rewrite lookup_insert_ne in Hq]).
Qed.

(** A link that was noted has a destination that passed the check. *)
Definition checked_link (h : Header) : Prop := ∃ p, genDstFilename prefix dest (h_Name h) = Some p ∧ within dest p.

Lemma untar_entry_confined fs links h fs' r :
  untar_entry disk prefix dest fs links h = (fs', r) → Forall checked_link links →
  confined (resolve disk) dest fs fs' ∧ (∀ links', r = Ret links' → Forall checked_link links').
Proof.
  intros E Hl. unfold untar_entry in E. destruct (HasPrefix (h_Name h) prefix); cbn [negb] in E; [|by simplify_eq].
  destruct (genDstFilename prefix dest (h_Name h)) as [name|] eqn:Eg; [|by simplify_eq].
  destruct (isRelative dest name) eqn:Ei; cbn [negb] in E; [|simplify_eq; split; [done|]; by intros ? [= <-]].
  apply isRelative_within in Ei.
  destruct (MkdirAll disk fs (local_Dir name)) as [fs1 [[]| |]] eqn:Em; cycle 1.
  1-2: simplify_eq; (split; [|done]); eapply MkdirAll_confined; [exact Ei|by right|exact Em].
  assert (confined (resolve disk) dest fs fs1) as H1 by (eapply MkdirAll_confined; [exact Ei|by right|exact Em]).
  destruct (h_IsDir h).
  - destruct (MkdirAll disk fs1 name) as [fs2 r2] eqn:Em2. injection E as <- <-. split.
    + etrans; [exact H1|]. eapply MkdirAll_confined; [exact Ei|by left|exact Em2].
    + intros links' Hr. destruct r2; [|discriminate Hr..]. by injection Hr as <-.
  - destruct (write_file disk fs1 name (h_Data h)) as [fs2 r2] eqn:Ew. injection E as <- <-. split.
    + etrans; [exact H1|]. by eapply write_confined.
    + intros links' Hr. destruct r2; [|discriminate Hr..]. injection Hr as <-. case_bool_decide; [done|].
      apply Forall_app. split; [done|]. constructor; [|done]. by exists name.
Qed.

Lemma untar_entries_confined hs fs links fs' r :
  untar_entries disk prefix dest fs links hs = (fs', r) → Forall checked_link links →
  confined (resolve disk) dest fs fs' ∧ (∀ links', r = Ret links' → Forall checked_link links').
Proof.
  revert fs links. induction hs as [|h hs IH]; intros fs links E Hl; cbn [untar_entries] in E.
  - injection E as <- <-. split; [done|]. by intros ? [= <-].
  - destruct (untar_entry disk prefix dest fs links h) as [fs1 r1] eqn:E1.
    destruct (untar_entry_confined _ _ _ _ _ E1 Hl) as [H1 L1].
    destruct r1 as [links1| |]; [|injection E as <- <-; by split..].
    destruct (IH _ _ E (L1 _ eq_refl)) as [H2 L2]. split; [by etrans|done].
Qed.

Lemma copyFromLink_confined fuel links cur fs :
  Forall checked_link links → checked_link cur →
  confined (resolve disk) dest fs (copyFromLink disk prefix dest fuel links cur fs).1.
Proof.
  intros Hl. revert cur. induction fuel as [|fuel IH]; intros cur Hc; [done|]. cbn [copyFromLink].
  destruct (List.find _ links) as [t|] eqn:Ef.
  - apply (IH t). rewrite Forall_forall in Hl. apply Hl, list_elem_of_In. by eapply find_some.
  - destruct (genDstFilename prefix dest (h_Linkname cur)) as [src|]; [|done].
    destruct (files fs !! resolve disk src) as [data|]; [|done].
    destruct Hc as (p & Hp & Hw). rewrite Hp.
    destruct (write_file disk fs p _) as [fs' r] eqn:E. by eapply write_confined.
Qed.

Lemma copy_links_confined fuel links todo fs :
  Forall checked_link links → Forall checked_link todo →
  confined (resolve disk) dest fs (copy_links disk prefix dest fuel links todo fs).1.
Proof.
  intros Hl Ht. revert fs. induction Ht as [|f todo Hf _ IH]; intros fs; cbn [copy_links]; [done|].
  pose proof (copyFromLink_confined fuel links f fs Hl Hf) as H1.
  destruct (copyFromLink disk prefix dest fuel links f fs) as [fs1 [[[]| |]|]]; [|exact H1..].
  etrans; [exact H1|by apply IH].
Qed.

Lemma untarAll_confined fuel fs archive end_ :
  confined (resolve disk) dest fs (untarAll disk prefix dest fuel fs archive end_).1.
Proof.
  unfold untarAll. destruct (untar_entries disk prefix dest fs [] archive) as [fs1 r1] eqn:E1.
  destruct (untar_entries_confined _ _ _ _ _ E1 (Forall_nil_2 _)) as [H1 L1].
  destruct r1 as [links| |]; [|exact H1..]. destruct end_; [exact H1|].
  etrans; [exact H1|]. apply copy_links_confined; by apply L1.
Qed.

(** *** Following links *)

Fixpoint follow (links : list Header) (n : nat) (cur : Header) : option Header :=
  match n with
  | O => Some cur
  | S n =>
      match List.find (λ t, bool_decide (h_Name t = h_Linkname cur)) links with
      | Some t => follow links n t
      | None => None
      end
  end.

Lemma follow_add links i k cur : follow links (i + k) cur = follow links i cur ≫= follow links k.
Proof.
  revert cur. induction i as [|i IH]; intros cur; [done|]. cbn [follow Nat.add].
  destruct (List.find _ links); [apply IH|done].
Qed.

Lemma follow_in links n cur t : follow links (S n) cur = Some t → t ∈ links.
Proof.
  revert cur. induction n as [|n IH]; intros cur; cbn [follow].
  - destruct (List.find _ links) as [u|] eqn:E; [|done]. intros [= ->]. apply list_elem_of_In. by eapply find_some.
  - destruct (List.find _ links) as [u|]; [|done]. apply IH.
Qed.

Lemma follow_le links i n cur : i ≤ n → is_Some (follow links n cur) → is_Some (follow links i cur).
Proof.
  intros Hi Hs. replace n with (i + (n - i)) in Hs by lia. rewrite follow_add in Hs.
  destruct (follow links i cur); [done|by destruct Hs].
Qed.

(** Where more links than there are can be followed, one comes again, and following
    never ends. *)
Lemma follow_forever links cur m :
  is_Some (follow links (S (length links)) cur) → is_Some (follow links m cur).
Proof.
  intros Hs. set (n := length links) in *. set (c := λ i, follow links (S i) cur).
  destruct (list_pigeonhole (c <$> seq 0 (S n)) (Some <$> links)) as (i & j & x & Hij & Ei & Ej).
  - intros o (i & -> & Hi%elem_of_seq)%list_elem_of_fmap.
    destruct (follow_le links (S i) (S n) cur ltac:(lia) Hs) as [t Ht].
    unfold c. rewrite Ht. apply list_elem_of_fmap. exists t. split; [done|]. by eapply follow_in.
  - rewrite !length_fmap, length_seq. unfold n. lia.
  - apply list_lookup_fmap_Some in Ei as (i' & Ei & [-> Hi]%lookup_seq).
    apply list_lookup_fmap_Some in Ej as (j' & Ej & [-> Hj]%lookup_seq). unfold c in *. cbn [Nat.add] in *.
    induction m as [m IH] using lt_wf_ind. destruct (decide (m ≤ S n)) as [Hm|Hm]; [by apply (follow_le _ _ (S n))|].
    replace m with (S j + (m - S j)) by lia. rewrite follow_add, <-Ej, Ei, <-follow_add. apply IH. lia.
Qed.

(** A link is followed to its end within as many steps as there are links, or forever. *)
Lemma copyFromLink_unfinished fuel links cur fs :
  is_Some (follow links fuel cur) → copyFromLink disk prefix dest fuel links cur fs = (fs, None).
Proof.
  revert cur. induction fuel as [|fuel IH]; intros cur; [done|]. cbn [copyFromLink follow].
  destruct (List.find _ links); [apply IH|by intros []].
Qed.

Lemma copyFromLink_finished fuel fuel' links cur fs :
  follow links fuel cur = None → fuel ≤ fuel' →
  copyFromLink disk prefix dest fuel' links cur fs = copyFromLink disk prefix dest fuel links cur fs.
Proof.
  revert fuel' cur. induction fuel as [|fuel IH]; intros [|fuel'] cur; cbn [copyFromLink follow]; [done..|lia|].
  intros E Hle. destruct (List.find _ links); [apply IH; [done|lia]|done].
Qed.

Lemma copyFromLink_settles fuel fuel' links cur fs :
  length links < fuel → length links < fuel' →
  copyFromLink disk prefix dest fuel links cur fs = copyFromLink disk prefix dest fuel' links cur fs.
Proof.
  intros H H'. destruct (follow links (S (length links)) cur) eqn:E.
  - rewrite !copyFromLink_unfinished by (apply follow_forever; by rewrite E). done.
  - rewrite (copyFromLink_finished _ fuel _ _ _ E), (copyFromLink_finished _ fuel' _ _ _ E) by lia. done.
Qed.

Lemma copy_links_settles fuel fuel' links todo fs :
  length links < fuel → length links < fuel' →
  copy_links disk prefix dest fuel links todo fs = copy_links disk prefix dest fuel' links todo fs.
Proof.
  intros H H'. revert fs. induction todo as [|f todo IH]; intros fs; [done|]. cbn [copy_links].
  rewrite (copyFromLink_settles fuel fuel' links f fs H H').
  by destruct (copyFromLink disk prefix dest fuel' links f fs) as [fs1 [[[]| |]|]].
Qed.

Lemma untar_entries_links hs fs links fs' links' :
  untar_entries disk prefix dest fs links hs = (fs', Ret links') → length links' ≤ length links + length hs.
Proof.
  revert fs links. induction hs as [|h hs IH]; intros fs links E; cbn [untar_entries] in E.
  - injection E as <- <-. cbn. lia.
  - destruct (untar_entry disk prefix dest fs links h) as [fs1 [links1| |]] eqn:E1; [|discriminate E..].
    apply IH in E. enough (length links1 ≤ S (length links)) by (cbn; lia). clear E. unfold untar_entry in E1.
    destruct (HasPrefix _ _); cbn [negb] in E1; [|discriminate E1].
    destruct (genDstFilename prefix dest (h_Name h)) as [name|]; [|discriminate E1].
    destruct (isRelative dest name); cbn [negb] in E1; [|injection E1 as <- <-; lia].
    destruct (MkdirAll disk fs (local_Dir name)) as [fs2 [[]| |]]; [|discriminate E1..].
    destruct (h_IsDir h).
    + destruct (MkdirAll disk fs2 name) as [fs3 [[]| |]]; [|discriminate E1..]. injection E1 as <- <-. lia.
    + destruct (write_file disk fs2 name (h_Data h)) as [fs3 [[]| |]]; [|discriminate E1..]. injection E1 as <- <-.
      destruct (bool_decide _); [lia|]. rewrite length_app. cbn. lia.
Qed.

Lemma untarAll_settles fuel fuel' fs archive end_ :
  length archive < fuel → length archive < fuel' →
  untarAll disk prefix dest fuel fs archive end_ = untarAll disk prefix dest fuel' fs archive end_.
Proof.
  intros H H'. unfold untarAll. destruct (untar_entries disk prefix dest fs [] archive) as [fs1 [links| |]] eqn:E; [|done..].
  destruct end_; [done|]. apply untar_entries_links in E. apply copy_links_settles; cbn in E; lia.
Qed.

(** C32. No archive can write outside the destination: whatever names, absolute paths,
    dot-dot elements, backslashes and links a pod puts into the archive, whatever error
    ends the extraction and however far it has come (for every fuel: with more fuel than
    the archive has entries the result no longer depends on it, and no answer means that
    links of the archive form a cycle and are followed forever), every file that changes
    is where a path in the destination directory or below it leads, and the directories
    made are where such a path leads, or the parent of the destination.  Symbolic links
    the machine had there before are followed ([symbolic_link_followed]); where those
    lead nowhere but below [real], as when there are none, all that changes is below
    [real]. *)
Theorem untar_confined fuel fs archive end_ :
  let run f := untarAll disk prefix dest f fs archive end_ in
  let fs' := (run fuel).1 in
  (∀ q, files fs' !! q ≠ files fs !! q → ∃ p, within dest p ∧ q = resolve disk p) ∧
  (∀ d, d ∈ made fs' → d ∈ made fs ∨ ∃ p, within dest p ∧ (d = resolve disk p ∨ d = resolve disk (local_Dir p))) ∧
  (∀ real, (∀ p, within dest p → within real (resolve disk p)) →
     ∀ q, files fs' !! q ≠ files fs !! q → within real q) ∧
  (∀ f f', length archive < f → length archive < f' → run f = run f').
Proof.
  cbn zeta. destruct (untarAll_confined fuel fs archive end_) as [Hf Hd]. split_and!; [exact Hf|exact Hd|..].
  - intros real Hreal q (p & Hp & ->)%Hf. by apply Hreal.
  - intros f f' H H'. by apply untarAll_settles.
Qed.
End Confined.

(** ** Extraction of an honest archive *)

Lemma Join_snoc l w : l ≠ [] → Join "/" (l ++ [w]) = (Join "/" l +:+ "/" +:+ w)%string.
Proof.
  induction l as [|x l IH]; [done|]. intros _. destruct (decide (l = [])) as [->|Hne]; [done|].
  cbn [app]. rewrite !Join_cons by (by destruct l). by rewrite IH, !str_app_assoc.
Qed.

(** A joined path ends in its last element, so it has no trailing slash. *)
Lemma stripTrailing_Join s l :
  l ≠ [] → Forall normal l → stripTrailingSlash (s +:+ Join "/" l) = (s +:+ Join "/" l)%string.
Proof.
  intros Hne Hn. assert (∃ t w, (s +:+ Join "/" l)%string = (t +:+ w)%string ∧ normal w) as (t & w & -> & (H1 & _ & _ & H2)).
  { destruct l as [|w l _] using rev_ind; [done|]. apply Forall_app in Hn as [_ Hw]. apply Forall_inv in Hw.
    destruct (decide (l = [])) as [->|Hl]; [by exists s, w|].
    exists (s +:+ Join "/" l +:+ "/")%string, w. by rewrite Join_snoc, !str_app_assoc. }
  unfold stripTrailingSlash. rewrite HasSuffix_char by done. rewrite andb_false_r. by case_bool_decide.
Qed.

Lemma backslashes_id s : Count "\" s = 0 → backslashes s = s.
Proof.
  induction s as [|a s IH]; [done|]. cbn. destruct (Ascii.eqb a "\"); [lia|]. intros H. by rewrite IH.
Qed.

Lemma Count_Join_slash c l : c ≠ "/"%char → Forall (λ w, Count c w = 0) l → Count c (Join "/" l) = 0.
Proof.
  intros Hc. induction 1 as [|w l Hw _ IH]; [done|]. destruct (decide (l = [])) as [->|]; [done|].
  rewrite Join_cons by done. rewrite !Count_app, Hw, IH. cbn [Count]. destruct (Ascii.eqb_spec "/" c); [by subst|done].
Qed.

Lemma strip_common_app b t : strip_common b (b ++ t) = ([], t).
Proof. induction b as [|x b IH]; [by destruct t|]. cbn. by rewrite bool_decide_true. Qed.

Lemma stripPathShortcuts_Join l : l ≠ [] → Forall normal l → stripPathShortcuts (Join "/" l) = Join "/" l.
Proof.
  intros Hne Hn. assert (Split "/" (Join "/" l) = l) as Hs.
  { apply Split_Join; [done|]. eapply Forall_impl; [exact Hn|]. by intros w (_ & _ & _ & ?). }
  destruct Hn as [|w l (H1 & H2 & H3 & H4) _]; [done|]. set (J := Join "/" (w :: l)) in *. unfold stripPathShortcuts.
  assert (trim_dotdot J = J) as ->.
  { destruct (trim_dotdot_step J) as [[s' E]|E]; [|done]. rewrite E in Hs. cbn in Hs.
    destruct (Split "/" s'); by injection Hs as <-. }
  rewrite bool_decide_false by (intros E; rewrite E in Hs; by injection Hs as <-).
  rewrite bool_decide_false by (intros E; rewrite E in Hs; by injection Hs as <-). cbn [orb].
  destruct J as [|a J]; [done|]. destruct (decide (a = "/"%char)) as [->|Ha]; [|by destruct a as [[] [] [] [] [] [] [] []]].
  cbn in Hs. by injection Hs as <-.
Qed.

Section Honest.
Variables prefix dest : string.
Hypothesis Hdest : dest ≠ EmptyString.

(** The path of an entry below the destination. *)
Definition below (r : list string) : string := show (MkPath (rooted (clean dest)) (elems (clean dest) ++ r)).

Definition honest (r : list string) : Prop := r ≠ [] ∧ Forall normal r ∧ Forall (λ w, Count "\" w = 0) r.

Lemma below_elems r : honest r → clean_elems (rooted (clean dest)) (elems (clean dest) ++ r).
Proof.
  intros (_ & Hn & _). destruct (clean_clean_elems dest) as (k & ws & -> & Hw & Hr).
  exists k, (ws ++ r)%list. split; [by rewrite app_assoc|]. split; [by apply Forall_app|done].
Qed.

Lemma clean_below r : honest r → clean (below r) = MkPath (rooted (clean dest)) (elems (clean dest) ++ r).
Proof. intros Hr. apply clean_show. by apply below_elems. Qed.

Lemma genDst_honest r :
  honest r → genDstFilename prefix dest (prefix +:+ "/" +:+ Join "/" r) = Some (below r).
Proof.
  intros (Hne & Hn & Hb). pose proof (conj Hne (conj Hn Hb) : honest r) as Hh.
  assert (∀ s t, String.length s ≤ String.length (s +:+ t)) as Hlen.
  { intros s t. induction s as [|a s IH]; [apply Nat.le_0_l|]. rewrite str_app_cons. cbn. lia. }
  unfold genDstFilename. destruct (Nat.ltb_spec (String.length (prefix +:+ "/" +:+ Join "/" r)) (String.length prefix)) as [Hlt|_].
  { specialize (Hlen prefix ("/" +:+ Join "/" r)%string). lia. }
  f_equal. rewrite str_drop_app. unfold newRemotePath. rewrite stripTrailing_Join by done.
  rewrite backslashes_id by (rewrite Count_app, Count_Join_slash; done).
  unfold local_Join, PathJoin. rewrite bool_decide_false by done. unfold Clean. rewrite clean_join by done.
  change ("/" +:+ Join "/" r)%string with ("" +:+ String "/" (Join "/" r))%string. rewrite Split_app by done.
  rewrite Split_Join by (done || (eapply Forall_impl; [exact Hn|]; by intros w (_ & _ & _ & ?))).
  unfold walk. cbn [fold_left]. change (push ?b ?s "") with s. fold (walk (rooted (clean dest)) (rev (elems (clean dest))) r).
  rewrite walk_normal by done. rewrite rev_app_distr, !rev_involutive. fold (below r).
  unfold newLocalPath, below, show. cbn [elems rooted].
  destruct (elems (clean dest) ++ r)%list as [|x l] eqn:E; [by apply app_eq_nil in E as [_ ->]|]. rewrite <-E.
  destruct (elems (clean dest)) as [|y d] eqn:Ed; [by apply stripTrailing_Join|].
  destruct r as [|z r _] using rev_ind; [done|]. rewrite app_assoc, Join_snoc by done.
  replace ((if rooted (clean dest) then "/" else "") +:+ (Join "/" ((y :: d) ++ r) +:+ "/" +:+ z))%string
    with (((if rooted (clean dest) then "/" else "") +:+ (Join "/" ((y :: d) ++ r) +:+ "/")) +:+ Join "/" [z])%string
    by (cbn [Join]; by rewrite !str_app_assoc).
  apply stripTrailing_Join; [done|]. apply Forall_app in Hn as [_ Hz]. done.
Qed.

Lemma isRelative_honest r : honest r → isRelative dest (below r) = true.
Proof.
  intros Hh. unfold isRelative, Rel. rewrite clean_below by done. cbn [rooted elems].
  rewrite bool_decide_false.
  - rewrite eqb_reflx. cbn [negb]. rewrite strip_common_app. cbn [head length replicate app].
    rewrite bool_decide_false by done. destruct Hh as (Hne & Hn & _).
    rewrite stripPathShortcuts_Join by done. apply orb_true_iff. right. by apply bool_decide_eq_true.
  - intros E. destruct (clean dest) as [rt d]. cbn in E. injection E as E.
    destruct Hh as (Hne & _). apply Hne. by apply (app_inv_head d); rewrite app_nil_r.
Qed.

(** A disk on which nothing fails. *)
Definition working_disk : Disk := MkDisk (λ p, p) (λ _, None) (λ _, None) (λ _, None).

Definition entry (e : list string * list byte) : Header :=
  MkHeader (prefix +:+ "/" +:+ Join "/" e.1)%string "" false e.2.

Lemma untar_honest fs es :
  Forall (λ e, honest e.1) es →
  ∃ m, untar_entries working_disk prefix dest fs [] (entry <$> es) =
    (MkLFS (fold_left (λ fs e, <[below e.1 := e.2]> fs) es (files fs)) m, Ret []).
Proof.
  intros H. revert fs. induction H as [|[r data] es Hr _ IH]; intros fs; [by exists (made fs); destruct fs|].
  cbn in Hr. cbn [fmap list_fmap untar_entries]. unfold untar_entry, entry at 1 2 3 4 5. cbn [h_Name h_IsDir h_Linkname h_Data fst snd].
  rewrite HasPrefix_app, genDst_honest, isRelative_honest by done. cbn [negb].
  unfold MkdirAll, write_file. cbn [mkdir_err create_err working_disk files made]. cbn [mbind outcome_bind].
  rewrite bool_decide_true by done. apply (IH (MkLFS _ _)).
Qed.

(** Extraction is faithful: an archive of regular files named below the expected
    prefix, with plain relative paths, is written file by file below the destination,
    each path with its content (the last one where a path occurs twice), and nothing
    else of the disk changes. *)
Theorem untar_extracts fuel fs es
  (Hes : Forall (λ e, honest e.1) es) :
  ∃ m, untarAll working_disk prefix dest fuel fs (entry <$> es) None =
    (MkLFS (fold_left (λ fs e, <[below e.1 := e.2]> fs) es (files fs)) m, Some (Ret tt)).
Proof.
  destruct (untar_honest fs es Hes) as [m E]. exists m. unfold untarAll. by rewrite E.
Qed.
End Honest.

Lemma untar_extracts_witness :
  ∃ m, untarAll working_disk "data" "out" 5 (MkLFS ∅ [])
         [MkHeader "data/a.txt" "" false [x41]; MkHeader "data/sub/b" "" false [x42]] None =
    (MkLFS {["out/a.txt"%string := [x41]; "out/sub/b"%string := [x42]]} m, Some (Ret tt)).
Proof.
  destruct (untar_extracts "data" "out" ltac:(discriminate) 5 (MkLFS ∅ [])
    [(["a.txt"], [x41]); (["sub"; "b"], [x42])]%string) as [m E].
  - repeat constructor; discriminate.
  - exists m. etransitivity; [exact E|]. apply (f_equal (λ f, (MkLFS f m, Some (Ret tt)))). reflexivity.
Defined.

Lemma untar_confined_witness :
  let archive := [MkHeader "data/../../etc/passwd" "" false [x41]; MkHeader "data\..\..\evil" "" false [x42];
    MkHeader "data/ok" "" false [x43]; MkHeader "data/a" "data/b" false []; MkHeader "data/b" "data/a" false []] in
  (∀ fuel q, files (untarAll working_disk "data" "out" fuel (MkLFS ∅ []) archive None).1 !! q ≠ (∅ : gmap string (list byte)) !! q →
     within "out" q) ∧
  (∀ fuel, 5 < fuel → untarAll working_disk "data" "out" fuel (MkLFS ∅ []) archive None =
     (MkLFS {["out/ok"%string := [x43]; "out/a"%string := []; "out/b"%string := []]} ["out"; "out"; "out"]%string, None)).
Proof.
  split.
  - intros fuel q Hq.
    destruct (untar_confined working_disk "data" "out" fuel (MkLFS ∅ [])
      [MkHeader "data/../../etc/passwd" "" false [x41]; MkHeader "data\..\..\evil" "" false [x42];
       MkHeader "data/ok" "" false [x43]; MkHeader "data/a" "data/b" false []; MkHeader "data/b" "data/a" false []] None)
      as (_ & _ & H & _).
    exact (H "out" (λ p Hp, Hp) q Hq).
  - intros fuel Hfuel.
    destruct (untar_confined working_disk "data" "out" fuel (MkLFS ∅ [])
      [MkHeader "data/../../etc/passwd" "" false [x41]; MkHeader "data\..\..\evil" "" false [x42];
       MkHeader "data/ok" "" false [x43]; MkHeader "data/a" "data/b" false []; MkHeader "data/b" "data/a" false []] None)
      as (_ & _ & _ & H).
    rewrite (H fuel 6 Hfuel ltac:(cbn; lia)). vm_compute. reflexivity.
Defined.

(** A symbolic link the machine has below the destination is followed out of it. *)
Example symbolic_link_followed :
  files (untarAll (MkDisk (λ p, if bool_decide (p = "out/link/f") then "/etc/f" else p)%string (λ _, None) (λ _, None) (λ _, None))
    "data" "out" 1 (MkLFS ∅ []) [MkHeader "data/link/f" "" false [x41]] None).1 = {["/etc/f"%string := [x41]]}.
Proof. vm_compute. reflexivity. Qed.

(** ** The pipe delivers the archive *)

(** The stream is the front of what is still missing. *)
Definition pipe_inv (maxTries : Z) (data : list byte) (p : TarPipe) : Prop :=
  tp_bytesRead p ≤ length data ∧ (∃ rest, drop (tp_bytesRead p) data = (tp_stream p ++ rest)%list) ∧
  ((0 ≤ maxTries)%Z → (0 ≤ tp_retries p ≤ maxTries)%Z).

Lemma Read_spec maxTries data next k p p' out err :
  pipe_inv maxTries data p → Read maxTries data next k p = (p', out, err) →
  pipe_inv maxTries data p' ∧ take (tp_bytesRead p') data = (take (tp_bytesRead p) data ++ out)%list ∧
  (err = true → (0 ≤ maxTries)%Z ∧ tp_retries p' = maxTries).
Proof.
  intros (Hb & (rest & Hl) & Hr) E. unfold Read in E. destruct (tp_stream p) as [|b bs] eqn:Es.
  - destruct ((maxTries <? 0)%Z || (tp_retries p <? maxTries)%Z) eqn:Et; injection E as <- <- <-; rewrite app_nil_r.
    + split; [|done]. split; [done|]. cbn. rewrite Nat.sub_0_r. split.
      * exists (drop next (drop (tp_bytesRead p) data)). by rewrite take_drop.
      * intros H0. specialize (Hr H0). apply orb_true_iff in Et as [?%Z.ltb_lt|?%Z.ltb_lt]; lia.
    + apply orb_false_iff in Et as [H1%Z.ltb_ge H2%Z.ltb_ge]. split_and!; [split; [done|]|done|].
      * split; [exists rest; by rewrite Es|done].
      * intros _. specialize (Hr H1). lia.
  - injection E as <- <- <-. set (out := take (S k) (b :: bs)).
    assert (drop (tp_bytesRead p) data = (out ++ drop (S k) (b :: bs) ++ rest)%list) as Hd.
    { rewrite Hl. unfold out. by rewrite (app_assoc (take _ _)), take_drop. }
    split; [|split; [|done]].
    + split; [|split]; cbn [tp_bytesRead tp_retries tp_stream].
      * change (S (length (take k bs))) with (length out).
        apply (f_equal length) in Hd. rewrite length_drop, length_app in Hd. lia.
      * exists rest. change (S (length (take k bs))) with (length out). change (drop k bs) with (drop (S k) (b :: bs)).
        by rewrite <-drop_drop, Hd, drop_app_length.
      * done.
    + cbn [tp_bytesRead]. change (S (length (take k bs))) with (length out). change (b :: take k bs) with out. rewrite <-(take_drop (tp_bytesRead p) data) at 1. rewrite Hd, take_app_ge by (rewrite length_take; lia).
      f_equal. rewrite length_take. replace (tp_bytesRead p + length out - tp_bytesRead p `min` length data) with (length out) by lia.
      by rewrite take_app_length.
Qed.

(** C35. An interrupted download is resumed without a gap or a repetition: whatever
    lengths the tries deliver before they break and whatever sizes the reads have, the
    bytes read so far are exactly the front of the archive; with a limit there are at
    most that many retries and the error is returned when they are used up; without
    one ([MaxTries] negative) no read ever returns an error, not even at the end. *)
Theorem tar_pipe_exact maxTries data len script p out err
  (Hrun : read_all maxTries data (newTarPipe data len) script = (p, out, err)) :
  out = take (tp_bytesRead p) data ∧
  ((0 ≤ maxTries)%Z → (tp_retries p ≤ maxTries)%Z ∧ (err = true → tp_retries p = maxTries)) ∧
  ((maxTries < 0)%Z → err = false).
Proof.
  assert (pipe_inv maxTries data (newTarPipe data len)) as Hinv.
  { split; [apply Nat.le_0_l|]. cbn. split; [|lia]. exists (drop len data). rewrite drop_0. by rewrite take_drop. }
  cut (pipe_inv maxTries data p ∧ take (tp_bytesRead p) data = (take 0 data ++ out)%list ∧
       (err = true → (0 ≤ maxTries)%Z ∧ tp_retries p = maxTries)).
  { intros ((_ & _ & Hr) & Ht & He). split; [done|]. split.
    - intros H0. split; [by apply Hr|]. by intros [_ ?]%He.
    - intros Hneg. destruct err; [|done]. destruct He; [done|lia]. }
  change 0 with (tp_bytesRead (newTarPipe data len)) at 1.
  revert Hrun Hinv. generalize (newTarPipe data len) as q. revert out.
  induction script as [|[next k] script IH]; intros out q E Hinv; cbn [read_all] in E.
  - injection E as <- <- <-. by rewrite app_nil_r.
  - destruct (Read maxTries data next k q) as [[q1 o1] e1] eqn:E1. destruct (Read_spec _ _ _ _ _ _ _ _ Hinv E1) as (Hi & Ht & He).
    destruct e1; [by injection E as <- <- <-|].
    destruct (read_all maxTries data q1 script) as [[q2 o2] e2] eqn:E2. injection E as <- <- <-.
    destruct (IH _ _ E2 Hi) as (Hi2 & Ht2 & He2). split; [done|]. split; [|done]. by rewrite Ht2, Ht, app_assoc.
Qed.

Lemma tar_pipe_exact_witness :
  ∃ p, read_all 2 [x01; x02; x03; x04; x05] (newTarPipe [x01; x02; x03; x04; x05] 2)
         [(0, 5); (2, 0); (0, 5); (9, 0); (0, 9)] = (p, [x01; x02; x03; x04; x05], false) ∧
    [x01; x02; x03; x04; x05] = take (tp_bytesRead p) [x01; x02; x03; x04; x05].
Proof.
  eexists. split; [vm_compute; reflexivity|].
  refine (proj1 (tar_pipe_exact 2 [x01; x02; x03; x04; x05] 2 [(0, 5); (2, 0); (0, 5); (9, 0); (0, 9)]
    _ [x01; x02; x03; x04; x05] false _)). vm_compute. reflexivity.
Defined.

(** ** Links *)

(** Links of an archive: a link to a link never gets the content, since following
    it writes the inner link instead; a link whose target has a shorter name than the
    prefix panics; a link to itself is followed forever. *)
Theorem linked_files disk prefix dest a b target fs data src dst
  (Hdisk : create_err disk dst = None)
  (Hab : h_Linkname a = h_Name b) (Hb : h_Linkname b = target)
  (Hat : h_Name a ≠ target) (Hbt : h_Name b ≠ target) (Hne : h_Name a ≠ h_Name b)
  (Hsrc : genDstFilename prefix dest target = Some src) (Hdst : genDstFilename prefix dest (h_Name b) = Some dst)
  (Hcopy : copy_err disk dst = None)
  (Hsd : resolve disk src ≠ resolve disk dst) (Hdata : files fs !! resolve disk src = Some data) :
  (∀ fuel, 2 ≤ fuel →
     copyFromLink disk prefix dest fuel [a; b] a fs =
       (MkLFS (<[resolve disk dst := data]> (files fs)) (made fs), Some (Ret tt))) ∧
  (∀ c fuel, String.length (h_Linkname c) < String.length prefix → h_Name c ≠ h_Linkname c → 1 ≤ fuel →
     copyFromLink disk prefix dest fuel [c] c fs = (fs, Some Panic)) ∧
  (∀ c fuel, h_Linkname c = h_Name c → copyFromLink disk prefix dest fuel [c] c fs = (fs, None)).
Proof.
  split_and!.
  - intros [|[|fuel]] Hf; [lia|lia|]. cbn [copyFromLink List.find].
    rewrite Hab. rewrite (bool_decide_false (h_Name a = h_Name b)) by done. rewrite (bool_decide_true (h_Name b = h_Name b)) by done.
    rewrite Hb. rewrite (bool_decide_false (h_Name a = target)), (bool_decide_false (h_Name b = target)) by done.
    rewrite Hsrc, Hdata, Hdst. rewrite bool_decide_false by done. unfold write_file. by rewrite Hdisk, Hcopy.
  - intros c [|fuel] Hlen Hself Hf; [lia|]. cbn [copyFromLink List.find]. rewrite bool_decide_false by done.
    unfold genDstFilename. apply Nat.ltb_lt in Hlen. by rewrite Hlen.
  - intros c fuel Hc. induction fuel as [|fuel IH]; [done|]. cbn [copyFromLink List.find].
    by rewrite bool_decide_true by done.
Qed.

Lemma linked_files_witness :
  files (fst (copyFromLink working_disk "d" "out" 2
     [MkHeader "d/a" "d/b" false []; MkHeader "d/b" "d/f" false []] (MkHeader "d/a" "d/b" false [])
     (MkLFS {["out/f"%string := [x41]; "out/a"%string := []]} []))) =
  {["out/b"%string := [x41]; "out/f"%string := [x41]; "out/a"%string := []]}.
Proof.
  pose proof (linked_files working_disk "d" "out" (MkHeader "d/a" "d/b" false []) (MkHeader "d/b" "d/f" false []) "d/f"
    (MkLFS {["out/f"%string := [x41]; "out/a"%string := []]} []) [x41] "out/f" "out/b") as H.
  destruct H as [H _]; [reflexivity || discriminate..|].
  rewrite H by lia. reflexivity.
Defined.

(** Only the first matched path is archived when it is a regular file. *)
Lemma glob_first glob fs depth srcDir srcFile destDir destFile p ps data :
  glob (local_Join srcDir srcFile) = Ret (p :: ps) → fs !! p = Some (NFile data) →
  recursiveTar glob fs (S depth) srcDir srcFile destDir destFile = Some (Ret [MkHeader destFile "" false data]).
Proof. intros Hg Hp. cbn [recursiveTar]. by rewrite Hg, Hp. Qed.

(** ** Uploads *)

Record CopyOptions := MkCopyOptions {
  co_Namespace : string; co_Container : string; co_NoPreserve : bool; co_args : list string; co_parent : string }.

(** [Complete]: the namespace and the clients of the factory. *)
Definition Complete (parent : option string) (namespace : outcome string) (clientset config : outcome unit) (args : list string)
    (o : CopyOptions) : outcome CopyOptions :=
  let path := default (co_parent o) parent in
  ns ← namespace; _ ← clientset; _ ← config;
  Ret (MkCopyOptions ns (co_Container o) (co_NoPreserve o) args path).

Definition Validate (o : CopyOptions) : option error :=
  if length (co_args o) =? 2 then None else Some (Errorf "source and destination are required").

(** A command in a container of a pod. *)
Record ExecRequest := MkExec {
  x_Namespace : string; x_PodName : string; x_ContainerName : string; x_Command : list string; x_Stdin : bool }.

(** [execute]: the request that is made, with the namespace and the container of the
    options. *)
Definition execute (o : CopyOptions) (r : ExecRequest) : ExecRequest :=
  MkExec (if bool_decide (x_Namespace r = EmptyString) then co_Namespace o else x_Namespace r) (x_PodName r)
    (if bool_decide (co_Container o = EmptyString) then x_ContainerName r else co_Container o) (x_Command r) (x_Stdin r).

Definition checkDestinationIsDir (dest : fileSpec) : ExecRequest :=
  MkExec (PodNamespace dest) (PodName dest) "" ["test"; "-d"; file_of (File dest)]%string false.

(** [copyToPod]: the requests in order and the error; [stat] of the local file, [run] a
    request in the cluster; the archive is made by a goroutine whose error ([tar]) is only
    logged. *)
Definition upload (o : CopyOptions) (stat : option error) (run : ExecRequest → option error)
    (tar : option (outcome (list Header))) (src dest : fileSpec) : list ExecRequest * option error :=
  match stat with
  | Some _ => ([], Some (Errorf (file_of (File src) +:+ " doesn't exist in local filesystem")))
  | None =>
      let test := execute o (checkDestinationIsDir dest) in
      let isDir := match run test with None => true | Some _ => false end in
      let destFile := upload_dest isDir (file_of (File src)) (file_of (File dest)) in
      let extract := execute o (MkExec (PodNamespace dest) (PodName dest) "" (upload_command (co_NoPreserve o) destFile) true) in
      ([test; extract], run extract)
  end.

(** An upload asks once whether the destination is a directory and then extracts into the
    directory of the file it makes, both in the pod, the container and the namespace of the
    destination (the options' where it has none); its error is that of the extraction, and
    whether the archive could be made plays no part. *)
Lemma upload_requests o run tar tar' src dest :
  let ns := if bool_decide (PodNamespace dest = EmptyString) then co_Namespace o else PodNamespace dest in
  let '(reqs, err) := upload o None run tar src dest in
  (∃ test extract, reqs = [test; extract] ∧ err = run extract ∧
     x_Command test = ["test"; "-d"; file_of (File dest)]%string ∧
     x_Command extract = upload_command (co_NoPreserve o)
       (if run test is Some _ then file_of (File dest) else remote_Join (file_of (File dest)) (local_Base (file_of (File src)))) ∧
     Forall (λ r, x_Namespace r = ns ∧ x_PodName r = PodName dest ∧ x_ContainerName r = co_Container o) reqs) ∧
  upload o None run tar' src dest = (reqs, err).
Proof.
  cbn. split; [|done]. eexists _, _. split; [reflexivity|]. split; [reflexivity|]. split; [reflexivity|]. split.
  - unfold upload_dest. by destruct (run _).
  - unfold execute. cbn. repeat constructor; cbn; case_bool_decide; congruence.
Qed.
