(* ===== verification/Cidr.v ===== *)
(** * The networks of the cluster

    [pkg/util/getcidr.go], [pkg/util/cidr.go] and [getCIDR] of
    [pkg/handler/connect.go]: the client finds out which networks to route into the
    tunnel, from flags of system pods, from process command lines, from the CNI
    configuration, from the error message of an invalid service and from the
    addresses of pods and services; it caches the result in the ConfigMap and leaves
    out the networks of the API server.  What the cluster answers is the record
    [View]; a [*net.IPNet] that may be nil is an [option].  [UnsortedList] of a set is
    modelled by insertion order. *)
From Stdlib Require Import ZArith Lia Ascii.
From Stdlib Require Import Strings.Byte.
From stdpp Require Import base countable gmap strings numbers list.
From S2P Require Import Prelude GoStrings GoNet Config KubeApi Allocator Dhcp.

Abbreviation netptr := (option IPNet).

(** [String] of the pointer, which is defined on nil. *)
Definition net_text (p : netptr) : string :=
  match p with Some n => IPNet_String n | None => "<nil>" end.

(** ** [Deduplicate] *)

Fixpoint dedup_go (seen : list string) (cidr : list netptr) : list netptr :=
  match cidr with
  | [] => []
  | n :: cidr =>
      (if bool_decide (net_text n ∈ seen) then [] else [n]) ++ dedup_go (net_text n :: seen) cidr
  end.
Definition Deduplicate (cidr : list netptr) : list netptr := dedup_go [] cidr.

(** ** The sources *)

Definition parseCIDRFromString (content : string) : list netptr :=
  if Contains content "cluster-cidr" || Contains content "service-cluster-ip-range" then
    match Split "=" content with
    | [_; cidrList] =>
        omap (λ cidr, '(_, c) ← ParseCIDR cidr; Some (Some c)) (Split "," cidrList)
    | _ => []
    end
  else [].

Record Container := MkContainer { co_Args : list string; co_Command : list string }.
Record Pod := MkPod {
  po_HostNetwork : bool; po_Containers : list Container; po_PodIP : string; po_PodIPs : list string }.
Record Service := MkService { sv_ClusterIP : string; sv_ClusterIPs : list string }.
(** A CNI plug-in: its type and its two pools. *)
Record Plugin := MkPlugin { pl_Type : string; pl_pools : list string; pl_pools6 : list string }.

(** What the cluster answers during one discovery. *)
Record View := MkView {
  v_system_pods : outcome (list Pod);         (** pods of kube-system *)
  v_cmdline : outcome string;                 (** the helper pod's [grep] *)
  v_conflist : outcome (option (list Plugin)); (** the CNI files, [None] if they do not parse *)
  v_create_svc : option string;               (** the error of creating a service, [None] if it succeeds *)
  v_pods : outcome (list Pod);                (** pods of the namespace *)
  v_services : outcome (list Service) }.

Definition getCIDRByDumpClusterInfo (v : View) : outcome (list netptr) :=
  pods ← v_system_pods v;
  let texts := item ← pods; container ← po_Containers item; co_Args container ++ co_Command container in
  Ret (Deduplicate (s ← texts; parseCIDRFromString s)).

Definition newline : ascii := "010".

Definition getCIDRFromCNI (v : View) : outcome (list netptr) :=
  content ← v_cmdline v;
  Ret (fold_left (λ result s, Deduplicate (result ++ parseCIDRFromString s))
         (Split newline content) []).

(** The configuration is dereferenced even when it did not parse. *)
Definition getPodCIDRFromCNI (v : View) : outcome (list netptr) :=
  conf ← v_conflist v;
  match conf with
  | None => Panic
  | Some plugins =>
      Ret (plugin ← plugins;
           if String.eqb (pl_Type plugin) "calico" then
             omap (λ s, '(_, n) ← ParseCIDR s; Some (Some n))
               (remove_dups (pl_pools plugin ++ pl_pools6 plugin))
           else [])
  end.

(** [strings.LastIndex] *)
Fixpoint LastIndexStr (s sub : string) : option nat :=
  match s with
  | EmptyString => if String.eqb sub "" then Some 0 else None
  | String _ s' =>
      match LastIndexStr s' sub with
      | Some i => Some (S i)
      | None => if String.prefix sub s then Some 0 else None
      end
  end.

Definition defaultCIDRIndex : string := "valid IPs is".

Definition getServiceCIDRByCreateSvc (v : View) : outcome netptr :=
  match v_create_svc v with
  | None => Ret None
  | Some msg =>
      match LastIndexStr msg defaultCIDRIndex with
      | Some idx =>
          match ParseCIDR (TrimSpace (str_drop (idx + String.length defaultCIDRIndex) msg)) with
          | Some (_, cidr) => Ret (Some cidr)
          | None => Fail (Errorf "invalid CIDR address")
          end
      | None => Fail (Errorf "can not found any keyword of service cidr info")
      end
  end.

(** The network of an address: /24 for IPv4, /64 for IPv6. *)
Definition mask_of (ip : list byte) : list byte :=
  match To4 ip with Some _ => CIDRMask 24 32 | None => CIDRMask 64 128 end.

Definition pod_texts (item : Pod) : list string := remove_dups (po_PodIP item :: po_PodIPs item).

Definition getPodCIDRFromPod (v : View) : outcome (list netptr) :=
  pods ← v_pods v;
  let items := remove_loop po_HostNetwork pods in
  let result := item ← items;
    omap (λ t, ip ← ParseIP t; Some (Some (MkIPNet ip (mask_of ip)))) (pod_texts item) in
  if length result =? 0 then Fail (Errorf "can not found pod cidr from pod list") else Ret result.

(** Appending a source's result when it has no error. *)
Definition append_ok (result : list netptr) (o : outcome (list netptr)) : outcome (list netptr) :=
  match o with
  | Ret l => Ret (result ++ l)
  | Fail _ => Ret result
  | Panic => Panic
  end.

(** [GetCIDRElegant].  The error for an empty result is assigned to [err], while the
    named result is [err1]: what the caller gets is nil. *)
Definition GetCIDRElegant (v : View) : outcome (list netptr) :=
  result ← append_ok [] (getCIDRByDumpClusterInfo v);
  result ← append_ok result (getCIDRFromCNI v);
  result ← append_ok result (getPodCIDRFromCNI v);
  result ← append_ok result ((λ n, [n]) <$> getServiceCIDRByCreateSvc v);
  result ← append_ok result (getPodCIDRFromPod v);
  Ret (Deduplicate result).

Definition masked (t : string) : option netptr :=
  ip ← ParseIP t; Some (Some (MkIPNet (IP_Mask ip (mask_of ip)) (mask_of ip))).

(** The list calls return an empty list next to an error, which is ignored. *)
Definition items {A} (o : outcome (list A)) : list A := match o with Ret l => l | _ => [] end.

Definition GetCIDRFromResourceUgly (v : View) : list netptr :=
  (pod ← items (v_pods v); if po_HostNetwork pod then [] else omap masked (pod_texts pod)) ++
  (service ← items (v_services v);
     omap masked (remove_dups (sv_ClusterIP service :: sv_ClusterIPs service))).

(** ** [getCIDR] *)

(** The removal loop of the deferred function: for every network, all addresses of
    the API server are tried, and each hit deletes the entry at the current index and
    steps the index back. *)
Definition nth_ptr (cidrs : list netptr) (i : Z) : outcome IPNet :=
  if (i <? 0)%Z then Panic
  else match cidrs !! Z.to_nat i with Some (Some n) => Ret n | _ => Panic end.

Fixpoint exclude_inner (ips : list (list byte)) (cidrs : list netptr) (i : Z)
  : outcome (list netptr * Z) :=
  match ips with
  | [] => Ret (cidrs, i)
  | ip :: ips =>
      n ← nth_ptr cidrs i;
      if IPNet_Contains n ip then exclude_inner ips (remove_at (Z.to_nat i) cidrs) (i - 1)%Z
      else exclude_inner ips cidrs i
  end.

(** Every iteration shortens what is left by one, so [length cidrs] are enough. *)
Fixpoint exclude_loop (fuel : nat) (ips : list (list byte)) (cidrs : list netptr) (i : Z)
  : outcome (list netptr) :=
  match fuel with
  | O => Ret cidrs
  | S fuel =>
      if (i <? Z.of_nat (length cidrs))%Z then
        '(cidrs, i) ← exclude_inner ips cidrs i; exclude_loop fuel ips cidrs (i + 1)%Z
      else Ret cidrs
  end.

Definition exclude_apiserver (ips : list (list byte)) (cidrs : list netptr) : outcome (list netptr) :=
  exclude_loop (length cidrs) ips cidrs 0.

(** The API server: the address the host text denotes, if it is one, then what the
    resolver answers; [None] when the URL has no host and port. *)
Definition api_ips (host : option string) (lookup : string → list (list byte)) : option (list (list byte)) :=
  h ← host; Some (match ParseIP h with Some ip => [ip] | None => [] end ++ lookup h).

Definition space : ascii := " ".

Section GetCIDR.
Context {S : Type} `{ConfigMapInterface S}.

(** One cached text. *)
Definition cache_step (cs : list netptr) (t : string) : list netptr :=
  match ParseCIDR t with
  | Some (_, n) => Deduplicate (cs ++ [Some n])
  | None => cs
  end.

(** The text that is cached: a set of texts, joined. *)
Definition pools_text (found ugly : list netptr) : string :=
  Join (String space EmptyString) (remove_dups (net_text <$> found ++ ugly)).

(** Before the deferred function; [cidrs] is [c.cidrs]. *)
Definition discover (s : S) (v : View) (cidrs : list netptr) : S * outcome (list netptr) :=
  let get := Get_ s KeyClusterIPv4POOLS in
  let cached := match get with
    | Ret value => fold_left cache_step (Split space value) cidrs
    | _ => cidrs
    end in
  match get with
  | Panic => (s, Panic)
  | _ =>
      if negb (length cached =? 0) then
        (s, match get with Fail e => Fail e | _ => Ret cached end)
      else match GetCIDRElegant v with
      | Ret found =>
          let ugly := GetCIDRFromResourceUgly v in
          match Set_ s KeyClusterIPv4POOLS (pools_text found ugly) with
          | (s, Panic) => (s, Panic)
          | (s, _) => (s, Ret (Deduplicate (found ++ ugly)))
          end
      | Fail _ => (s, Ret (GetCIDRFromResourceUgly v))
      | Panic => (s, Panic)
      end
  end.

Definition getCIDR (s : S) (v : View) (ips : option (list (list byte))) (cidrs : list netptr)
  : S * outcome (list netptr) :=
  match discover s v cidrs with
  | (s, Ret cidrs) =>
      match ips with
      | Some ips => (s, exclude_apiserver ips cidrs)
      | None => (s, Ret cidrs)
      end
  | r => r
  end.
End GetCIDR.

(** ** Lemmas: the removal loop *)

Section Exclude.
Context (ips : list (list byte)).

Definition hit (n : IPNet) : bool := existsb (IPNet_Contains n) ips.
Definition early_hit (n : IPNet) : bool := existsb (IPNet_Contains n) (removelast ips).
Definition miss (n : IPNet) : bool := negb (hit n).

(** Networks deleted from the front, one of them by an address that is not the last. *)
Fixpoint exclude_panics (ns : list IPNet) : bool :=
  match ns with
  | [] => false
  | n :: ns => hit n && (early_hit n || exclude_panics ns)
  end.
End Exclude.

Lemma nth_ptr_app (pre : list netptr) n post :
  nth_ptr (pre ++ Some n :: post) (Z.of_nat (length pre)) = Ret n.
Proof.
  unfold nth_ptr. destruct (Z.ltb_spec (Z.of_nat (length pre)) 0); [lia|].
  by rewrite Nat2Z.id, lookup_app_r, Nat.sub_diag by lia.
Qed.

Lemma exclude_inner_miss ips pre n post :
  hit ips n = false →
  exclude_inner ips (pre ++ Some n :: post) (Z.of_nat (length pre)) =
    Ret (pre ++ Some n :: post, Z.of_nat (length pre)).
Proof.
  induction ips as [|ip ips IH]; [done|]. cbn [hit existsb]. intros [H1 H2]%orb_false_iff.
  cbn [exclude_inner]. rewrite nth_ptr_app. cbn [mbind outcome_bind]. rewrite H1. by apply IH.
Qed.

(** A hit after a network that stays: only the network that was hit goes. *)
Lemma exclude_inner_hit ips pre y n post :
  hit ips y = false → hit ips n = true →
  exclude_inner ips (pre ++ Some y :: Some n :: post) (Z.of_nat (S (length pre))) =
    Ret (pre ++ Some y :: post, Z.of_nat (length pre)).
Proof.
  induction ips as [|ip ips IH]; [done|]. cbn [hit existsb]. intros [H1 H2]%orb_false_iff Hn.
  cbn [exclude_inner].
  replace (pre ++ Some y :: Some n :: post) with ((pre ++ [Some y]) ++ Some n :: post)
    by (by rewrite <-app_assoc).
  replace (Z.of_nat (S (length pre))) with (Z.of_nat (length (pre ++ [Some y])))
    by (rewrite length_app; cbn; lia).
  rewrite nth_ptr_app. cbn [mbind outcome_bind]. destruct (IPNet_Contains n ip) eqn:E; cbn [orb] in Hn.
  - rewrite Nat2Z.id, remove_at_app, <-app_assoc. cbn [app].
    replace (Z.of_nat (length (pre ++ [Some y])) - 1)%Z with (Z.of_nat (length pre))
      by (rewrite length_app; cbn; lia).
    by apply exclude_inner_miss.
  - rewrite <-app_assoc, length_app. cbn [app length]. rewrite Nat.add_1_r. by apply IH.
Qed.

(** A hit at the front: the index becomes -1, and is used if an address is left. *)
Lemma exclude_inner_front ips n post :
  hit ips n = true →
  exclude_inner ips (Some n :: post) 0 = if early_hit ips n then Panic else Ret (post, (-1)%Z).
Proof.
  unfold early_hit. induction ips as [|ip ips IH]; [done|]. cbn [hit existsb]. intros Hn.
  cbn [exclude_inner]. change (nth_ptr (Some n :: post) 0) with (Ret n). cbn [mbind outcome_bind].
  destruct (IPNet_Contains n ip) eqn:E; cbn [orb] in Hn.
  - destruct ips as [|ip' ips]; [done|]. cbn [removelast existsb]. rewrite E. done.
  - rewrite IH by done. destruct ips as [|ip' ips]; [done|]. cbn [removelast existsb].
    rewrite E. done.
Qed.

Abbreviation ptrs := (fmap (M := list) (@Some IPNet)).

Lemma exclude_loop_kept ips pre y ns fuel :
  hit ips y = false → length ns ≤ fuel →
  exclude_loop fuel ips (pre ++ Some y :: ptrs ns) (Z.of_nat (S (length pre))) =
    Ret (pre ++ Some y :: ptrs (List.filter (miss ips) ns)).
Proof.
  revert pre y ns. induction fuel as [|fuel IH]; intros pre y ns Hy Hf.
  { destruct ns; [done|cbn in Hf; lia]. }
  cbn [exclude_loop]. rewrite length_app. cbn [length]. rewrite length_fmap.
  destruct ns as [|n ns].
  { cbn [length]. rewrite Nat.add_1_r, Z.ltb_irrefl. done. }
  cbn [length] in *.
  destruct (Z.ltb_spec (Z.of_nat (S (length pre))) (Z.of_nat (length pre + S (S (length ns))))); [|lia].
  cbn [fmap list_fmap List.filter]. unfold miss at 1. destruct (hit ips n) eqn:Hn; cbn [negb].
  - rewrite exclude_inner_hit by done. cbn [mbind outcome_bind].
    replace (Z.of_nat (length pre) + 1)%Z with (Z.of_nat (S (length pre))) by lia.
    apply IH; [done|lia].
  - pose proof (exclude_inner_miss ips (pre ++ [Some y]) n (ptrs ns) Hn) as E.
    rewrite <-app_assoc, length_app, Nat.add_1_r in E. cbn [app] in E. rewrite E. clear E.
    cbn [mbind outcome_bind].
    specialize (IH (pre ++ [Some y]) n ns Hn ltac:(lia)).
    rewrite <-!app_assoc, length_app, Nat.add_1_r in IH. cbn [app] in IH.
    replace (Z.of_nat (S (length pre)) + 1)%Z with (Z.of_nat (S (S (length pre)))) by lia.
    exact IH.
Qed.

(** The loop in full. *)
Lemma exclude_apiserver_eq ips ns :
  exclude_apiserver ips (ptrs ns) =
    if exclude_panics ips ns then Panic else Ret (ptrs (List.filter (miss ips) ns)).
Proof.
  unfold exclude_apiserver. rewrite length_fmap.
  induction ns as [|n ns IH]; [done|]. cbn [length exclude_loop fmap list_fmap].
  destruct (Z.ltb_spec 0 (Z.of_nat (S (length (ptrs ns))))); [|lia].
  cbn [exclude_panics List.filter]. unfold miss at 1. destruct (hit ips n) eqn:Hn; cbn [andb negb].
  - rewrite exclude_inner_front by done. destruct (early_hit ips n); [done|].
    cbn [mbind outcome_bind orb]. change (-1 + 1)%Z with 0%Z. exact IH.
  - pose proof (exclude_inner_miss ips [] n (ptrs ns) Hn) as E. cbn [app length] in E.
    change (Z.of_nat 0) with 0%Z in E. rewrite E. cbn [mbind outcome_bind].
    apply (exclude_loop_kept ips [] n ns); [done|lia].
Qed.

(** ** Lemmas: networks and their text *)

(** An IPv4 network with a prefix mask, in either form of its address. *)
Definition v4net (n : IPNet) : Prop :=
  ∃ a b c d k, k ≤ 32 ∧ (net_IP n = [a; b; c; d] ∨ net_IP n = IPv4 a b c d) ∧
    net_Mask n = CIDRMask k 32.

Definition covers (p : netptr) (ip : list byte) : bool :=
  match p with Some n => IPNet_Contains n ip | None => false end.
Definition covered (l : list netptr) (ip : list byte) : Prop := ∃ p, p ∈ l ∧ covers p ip = true.

Definition v4ptr (p : netptr) : Prop := match p with Some n => v4net n | None => False end.

Lemma byte_and_idem a b : byte_and (byte_and a b) b = byte_and a b.
Proof.
  unfold byte_and. rewrite b2z_z2b. f_equal.
  assert (0 ≤ Z.land (b2z a) (b2z b) < 256)%Z as Hr.
  { pose proof (b2z_range a). pose proof (b2z_range b). split; [apply Z.land_nonneg; lia|].
    change 256%Z with (2 ^ 8)%Z.
    assert (Z.land (b2z a) (b2z b) = Z.land (b2z a) (b2z b) `mod` 2 ^ 8)%Z as ->.
    { rewrite <-Z.land_ones, <-Z.land_assoc, Z.land_ones, (Z.mod_small (b2z b)) by lia. done. }
    apply Z.mod_pos_bound. lia. }
  rewrite (Z.mod_small _ 256) by done. by rewrite <-Z.land_assoc, Z.land_diag.
Qed.

Lemma and_bytes_idem ip m : and_bytes (and_bytes ip m) m = and_bytes ip m.
Proof.
  unfold and_bytes. revert m. induction ip as [|a ip IH]; intros [|b m]; [done..|]. cbn.
  by rewrite byte_and_idem, IH.
Qed.

Lemma IPNet_Contains_v4 n a b c d k ip :
  k ≤ 32 → net_IP n = [a; b; c; d] ∨ net_IP n = IPv4 a b c d → net_Mask n = CIDRMask k 32 →
  IPNet_Contains n ip =
    bool_decide (length (default ip (To4 ip)) = 4) &&
    bool_decide (and_bytes [a; b; c; d] (CIDRMask k 32) = and_bytes (default ip (To4 ip)) (CIDRMask k 32)).
Proof.
  intros Hk Hip Hm. unfold IPNet_Contains, networkNumberAndMask. rewrite Hm, length_CIDRMask.
  by destruct Hip as [-> | ->].
Qed.

Definition net_of (a b c d : byte) (k : nat) : IPNet :=
  MkIPNet (and_bytes [a; b; c; d] (CIDRMask k 32)) (CIDRMask k 32).

Lemma ParseCIDR_text n a b c d k :
  k ≤ 32 → net_IP n = [a; b; c; d] ∨ net_IP n = IPv4 a b c d → net_Mask n = CIDRMask k 32 →
  ParseCIDR (IPNet_String n) = Some (IPv4 a b c d, net_of a b c d k).
Proof.
  intros Hk Hip Hm.
  assert (IPNet_String n = IPNet_String (MkIPNet (IPv4 a b c d) (CIDRMask k 32))) as ->.
  { unfold IPNet_String, networkNumberAndMask. rewrite Hm. cbn [net_IP net_Mask].
    by destruct Hip as [-> | ->]. }
  rewrite ParseCIDR_String4 by done. unfold net_of, IP_Mask. by rewrite length_CIDRMask.
Qed.

Lemma covers_net_of n a b c d k ip :
  k ≤ 32 → net_IP n = [a; b; c; d] ∨ net_IP n = IPv4 a b c d → net_Mask n = CIDRMask k 32 →
  IPNet_Contains (net_of a b c d k) ip = IPNet_Contains n ip.
Proof.
  intros Hk Hip Hm. rewrite (IPNet_Contains_v4 n a b c d k) by done.
  assert (length (and_bytes [a; b; c; d] (CIDRMask k 32)) = 4) as Hl.
  { unfold and_bytes. rewrite length_zip_with, length_CIDRMask. done. }
  destruct (and_bytes [a; b; c; d] (CIDRMask k 32)) as [|w [|x [|y [|z []]]]] eqn:E; try done.
  rewrite (IPNet_Contains_v4 (net_of a b c d k) w x y z k); [|done| |done].
  - by rewrite <-E, and_bytes_idem.
  - left. exact E.
Qed.

Lemma v4net_parse n :
  v4net n → ∃ ip n', ParseCIDR (IPNet_String n) = Some (ip, n') ∧ v4net n' ∧
    ∀ x, IPNet_Contains n' x = IPNet_Contains n x.
Proof.
  intros (a & b & c & d & k & Hk & Hip & Hm). exists (IPv4 a b c d), (net_of a b c d k).
  split_and!; [by apply ParseCIDR_text| |intros; by apply covers_net_of].
  assert (length (and_bytes [a; b; c; d] (CIDRMask k 32)) = 4) as Hl.
  { unfold and_bytes. rewrite length_zip_with, length_CIDRMask. done. }
  destruct (and_bytes [a; b; c; d] (CIDRMask k 32)) as [|w [|x [|y [|z []]]]] eqn:E; try done.
  exists w, x, y, z, k. split_and!; [done| |done]. left. exact E.
Qed.

(** Equal texts cover the same addresses. *)
Lemma covers_text p q ip : v4ptr p → v4ptr q → net_text p = net_text q → covers p ip = covers q ip.
Proof.
  destruct p as [n|], q as [n'|]; [|done..]. cbn. intros Hp Hq E.
  destruct (v4net_parse n Hp) as (i1 & m1 & P1 & _ & C1).
  destruct (v4net_parse n' Hq) as (i2 & m2 & P2 & _ & C2).
  rewrite E, P2 in P1. injection P1 as <- <-. by rewrite <-C1, C2.
Qed.

(** What deduplication keeps. *)
Lemma dedup_go_elem seen l p : p ∈ dedup_go seen l → p ∈ l ∧ net_text p ∉ seen.
Proof.
  revert seen. induction l as [|n l IH]; intros seen; cbn; [by intros ?%elem_of_nil|].
  rewrite elem_of_app. intros [H|H].
  - case_bool_decide as E; [by apply elem_of_nil in H|]. apply list_elem_of_singleton in H as ->. set_solver.
  - apply IH in H as [? ?]. set_solver.
Qed.

Lemma dedup_go_text seen l p :
  p ∈ l → net_text p ∉ seen → ∃ q, q ∈ dedup_go seen l ∧ net_text q = net_text p.
Proof.
  revert seen. induction l as [|n l IH]; intros seen; [by intros ?%elem_of_nil|].
  intros Hp Hs. cbn. destruct (decide (net_text n = net_text p)) as [E|E].
  - exists n. rewrite bool_decide_false by congruence. split; [set_solver|done].
  - apply elem_of_cons in Hp as [->|Hp]; [done|].
    destruct (IH (net_text n :: seen) Hp) as (q & Hq & Eq); [set_solver|].
    exists q. split; [set_solver|done].
Qed.

Lemma dedup_go_NoDup seen l : NoDup (net_text <$> dedup_go seen l).
Proof.
  revert seen. induction l as [|n l IH]; intros seen; cbn; [constructor|].
  case_bool_decide as E; cbn; [apply IH|]. constructor; [|apply IH].
  intros (p & E' & Hp)%list_elem_of_fmap. apply dedup_go_elem in Hp as [_ Hp]. set_solver.
Qed.

Lemma Deduplicate_v4 l : Forall v4ptr l → Forall v4ptr (Deduplicate l).
Proof.
  rewrite !Forall_forall. intros H p [Hp _]%dedup_go_elem. by apply H.
Qed.

Lemma covered_Deduplicate l ip : Forall v4ptr l → covered (Deduplicate l) ip ↔ covered l ip.
Proof.
  rewrite Forall_forall. intros Hv. split; intros (p & Hp & Hc).
  - apply dedup_go_elem in Hp as [Hp _]. by exists p.
  - destruct (dedup_go_text [] l p Hp) as (q & Hq & E); [set_solver|].
    exists q. split; [done|]. apply dedup_go_elem in Hq as Hq'. destruct Hq' as [Hq' _].
    rewrite <-Hc. apply covers_text; auto.
Qed.

Lemma Deduplicate_nonempty l p : p ∈ l → Deduplicate l ≠ [].
Proof.
  intros Hp E. destruct (dedup_go_text [] l p Hp) as (q & Hq & _); [set_solver|].
  unfold Deduplicate in E. rewrite E in Hq. set_solver.
Qed.

(** Reading a list of texts of IPv4 networks back. *)
Lemma cache_fold ts cs ip :
  Forall v4ptr cs → Forall (λ t, ∃ n, v4net n ∧ t = IPNet_String n) ts →
  let r := fold_left cache_step ts cs in
  (cs ≠ [] ∨ ts ≠ [] → r ≠ []) ∧
  (covered r ip ↔ covered cs ip ∨ ∃ n, v4net n ∧ IPNet_String n ∈ ts ∧ IPNet_Contains n ip = true).
Proof.
  revert cs. induction ts as [|t ts IH]; intros cs Hcs Hts.
  { cbn. split; [by intros [?|?]|]. split; [by left|]. intros [?|(n & _ & ?%elem_of_nil & _)]; done. }
  apply Forall_cons in Hts as [(n & Hn & ->) Hts]. cbn [fold_left]. cbv zeta.
  destruct (v4net_parse n Hn) as (i & n' & P & Hn' & C).
  assert (cache_step cs (IPNet_String n) = Deduplicate (cs ++ [Some n'])) as -> by (unfold cache_step; by rewrite P).
  assert (Forall v4ptr (cs ++ [Some n'])) as Hv by (apply Forall_app; by repeat constructor).
  destruct (IH (Deduplicate (cs ++ [Some n']))) as [H1 H2]; [by apply Deduplicate_v4|done|].
  split.
  - intros _. apply H1. left. eapply Deduplicate_nonempty, elem_of_app. right. by apply list_elem_of_singleton.
  - rewrite H2, covered_Deduplicate by done. split.
    + intros [(p & Hp & Hc)|(m & Hm & Ht & Hc)].
      * apply elem_of_app in Hp as [Hp|Hp%list_elem_of_singleton]; [left; by exists p|].
        subst p. right. exists n. cbn in Hc. rewrite C in Hc. split_and!; [done|by left|done].
      * right. exists m. split_and!; [done|by right|done].
    + intros [(p & Hp & Hc)|(m & Hm & Ht & Hc)].
      * left. exists p. split; [by apply elem_of_app; left|done].
      * apply elem_of_cons in Ht as [E|Ht]; [|right; by exists m].
        left. exists (Some n'). split; [apply elem_of_app; right; by apply list_elem_of_singleton|].
        cbn. rewrite C, <-Hc. symmetry. by apply (covers_text (Some m) (Some n)).
Qed.

Lemma v4net_text_nospace n : v4net n → Count space (IPNet_String n) = 0.
Proof.
  intros (a & b & c & d & k & Hk & Hip & Hm).
  assert (IPNet_String n = dotted [a; b; c; d] +:+ "/" +:+ Itoa (Z.of_nat k))%string as ->.
  { unfold IPNet_String, networkNumberAndMask. rewrite Hm, length_CIDRMask.
    destruct Hip as [-> | ->]; cbn [To4]; rewrite ?simpleMaskLength_32 by done.
    - change (To4 [a; b; c; d]) with (Some [a; b; c; d]). cbv iota.
      change (32 / 8) with 4. rewrite !bool_decide_true by done. by rewrite simpleMaskLength_32.
    - change (To4 (IPv4 a b c d)) with (Some [a; b; c; d]). cbv iota.
      change (32 / 8) with 4. rewrite !bool_decide_true by done. by rewrite simpleMaskLength_32. }
  rewrite !Count_app, dotted_Count, Count_Itoa by (done || lia). done.
Qed.

Lemma GetCIDRElegant_no_error v e : GetCIDRElegant v ≠ Fail e.
Proof.
  unfold GetCIDRElegant.
  assert (∀ r o, append_ok r o ≠ Fail e) as Ha by (by intros r []).
  repeat (apply outcome_bind_not_Fail; [apply Ha|intros ?]). done.
Qed.

(** ** Properties *)

(** C22. The API server stays outside the tunnel: with the addresses of the API server
    known, [getCIDR] returns exactly the discovered networks that contain none of
    them, in order, or it panics; it panics iff one of the networks deleted from the
    front of the list is hit by an address that is not the last one.  For a host
    given as an address that the resolver repeats, that is iff the first network
    contains it. *)
Theorem getCIDR_excludes_apiserver {S : Type} `{ConfigMapInterface S} (s s' : S) v cidrs ns ips
  (Hd : discover s v cidrs = (s', Ret (ptrs ns))) :
  getCIDR s v (Some ips) cidrs =
    (s', if exclude_panics ips ns then Panic else Ret (ptrs (List.filter (miss ips) ns))) ∧
  (∀ l p ip, getCIDR s v (Some ips) cidrs = (s', Ret l) → p ∈ l → ip ∈ ips → covers p ip = false) ∧
  (∀ ip, exclude_panics [ip; ip] ns = match ns with n :: _ => IPNet_Contains n ip | [] => false end).
Proof.
  assert (getCIDR s v (Some ips) cidrs =
    (s', if exclude_panics ips ns then Panic else Ret (ptrs (List.filter (miss ips) ns)))) as E
    by (unfold getCIDR; by rewrite Hd, exclude_apiserver_eq).
  split_and!; [done| |].
  - intros l p ip. rewrite E. destruct (exclude_panics ips ns); [done|]. intros [= <-] Hp Hip.
    apply list_elem_of_fmap in Hp as (n & -> & [_ Hn]%list_elem_of_In%filter_In).
    unfold miss, hit in Hn. apply negb_true_iff in Hn. cbn.
    destruct (IPNet_Contains n ip) eqn:Ec; [|done]. rewrite <-Hn. symmetry.
    apply existsb_exists. exists ip. by split; [apply list_elem_of_In|].
  - intros ip. destruct ns as [|n ns]; [done|]. cbn. by destruct (IPNet_Contains n ip).
Qed.

(** The cached pools: when discovery finds IPv4 networks and can store them, the
    next client (or the next connection) reads them back from the ConfigMap without
    asking the cluster, and routes exactly the same addresses; the list it reads has
    no two entries with the same text. *)
Theorem pools_cache_roundtrip {S : Type} `{ConfigMapLaws S} (s s1 : S) v found e
  (Hmiss : Get_ s KeyClusterIPv4POOLS = Fail e) (Hfound : GetCIDRElegant v = Ret found)
  (Hset : Set_ s KeyClusterIPv4POOLS (pools_text found (GetCIDRFromResourceUgly v)) = (s1, Ret tt))
  (Hv4 : Forall v4ptr (found ++ GetCIDRFromResourceUgly v)) (Hne : found ++ GetCIDRFromResourceUgly v ≠ []) :
  ∃ l1 l2, discover s v [] = (s1, Ret l1) ∧ (∀ v2, discover s1 v2 [] = (s1, Ret l2)) ∧
    (∀ ip, covered l1 ip ↔ covered l2 ip) ∧ NoDup (net_text <$> l1).
Proof.
  set (all := found ++ GetCIDRFromResourceUgly v) in *.
  exists (Deduplicate all), (fold_left cache_step (remove_dups (net_text <$> all)) []).
  assert (Forall (λ t, ∃ n, v4net n ∧ t = IPNet_String n) (remove_dups (net_text <$> all))) as Hts.
  { apply Forall_forall. intros t (p & -> & Hp)%elem_of_remove_dups%list_elem_of_fmap.
    rewrite Forall_forall in Hv4. specialize (Hv4 p Hp). destruct p as [n|]; [|done]. by exists n. }
  assert (remove_dups (net_text <$> all) ≠ []) as Hnt.
  { destruct all as [|p l]; [done|]. intros E.
    assert (net_text p ∈ remove_dups (net_text <$> p :: l)) as Hin
      by (apply elem_of_remove_dups; by left). rewrite E in Hin. by apply elem_of_nil in Hin. }
  split_and!.
  - unfold discover. rewrite Hmiss. cbn [length Nat.eqb negb]. rewrite Hfound, Hset. done.
  - intros v2. unfold discover. destruct (set_get s _ _ s1 Hset) as [-> _].
    unfold pools_text. fold all. rewrite Split_Join; [|done|].
    + destruct (cache_fold (remove_dups (net_text <$> all)) [] [] ltac:(constructor) Hts) as [Hr _].
      specialize (Hr (or_intror Hnt)). by destruct (fold_left cache_step _ _).
    + eapply Forall_impl; [exact Hts|]. intros t (n & Hn & ->). by apply v4net_text_nospace.
  - intros ip. rewrite covered_Deduplicate by done.
    destruct (cache_fold (remove_dups (net_text <$> all)) [] ip ltac:(constructor) Hts) as [_ ->].
    rewrite Forall_forall in Hv4. split.
    + intros (p & Hp & Hc). right. specialize (Hv4 p Hp). destruct p as [n|]; [|done].
      exists n. split_and!; [done| |done]. apply elem_of_remove_dups, list_elem_of_fmap. by exists (Some n).
    + intros [(p & ?%elem_of_nil & _)|(n & Hn & Ht & Hc)]; [done|].
      apply elem_of_remove_dups, list_elem_of_fmap in Ht as (p & E & Hp). exists p. split; [done|].
      rewrite <-Hc. symmetry. apply (covers_text (Some n) p); auto.
  - apply dedup_go_NoDup.
Qed.

(** Discovery never reports a failure: [GetCIDRElegant] returns a nil error even
    when it found nothing, so the fallback after it is never taken, and [getCIDR] of a
    new connection does not return an error, whatever the cluster answers; when
    nothing is cached and all sources are empty it succeeds with no network at all. *)
Theorem getCIDR_never_reports {S : Type} `{ConfigMapLaws S} (s : S) v ips e :
  GetCIDRElegant v ≠ Fail e ∧ snd (getCIDR s v ips []) ≠ Fail e ∧
  (∀ e', Get_ s KeyClusterIPv4POOLS = Fail e' →
     GetCIDRElegant v = Ret [] → GetCIDRFromResourceUgly v = [] → snd (getCIDR s v ips []) = Ret []).
Proof.
  assert (∀ x, snd (Set_ s KeyClusterIPv4POOLS x) ≠ Panic) as Hset.
  { intros x. unfold Set_. pose proof (get_no_panic s ConfigMapPodTrafficManager).
    destruct (cmGet s _) as [cm| |]; [|done..].
    pose proof (update_no_panic s (with_data cm (<[KeyClusterIPv4POOLS:=x]> (data_map cm)))).
    by destruct (cmUpdate s _) as [? []]. }
  assert (∀ l i, exclude_apiserver i l ≠ Fail e) as Hex.
  { intros l i. unfold exclude_apiserver. generalize 0%Z as k. generalize (length l) as f.
    intros f. revert l. induction f as [|f IH]; intros l k; [done|]. cbn [exclude_loop].
    destruct (k <? _)%Z; [|done]. apply outcome_bind_not_Fail; [|intros []; apply IH].
    clear. revert l k. induction i as [|ip i IH]; intros l k; [done|]. cbn [exclude_inner].
    apply outcome_bind_not_Fail; [unfold nth_ptr; by repeat case_match|].
    intros n. destruct (IPNet_Contains n ip); apply IH. }
  split_and!; [apply GetCIDRElegant_no_error| |].
  - unfold getCIDR. assert (snd (discover s v []) ≠ Fail e) as Hd.
    { unfold discover. destruct (Get_ s _) as [value|e'|]; [|..|done].
      - destruct (negb _); [done|].
        pose proof (GetCIDRElegant_no_error v e). destruct (GetCIDRElegant v); [|done..].
        by destruct (Set_ s _ _) as [? []].
      - cbn [length Nat.eqb negb]. destruct (GetCIDRElegant v); [|done..].
        by destruct (Set_ s _ _) as [? []]. }
    destruct (discover s v []) as [s1 [l| |]]; [|done..]. destruct ips; [apply Hex|done].
  - intros e' Hg Hf Hu. unfold getCIDR, discover. rewrite Hg, Hf, Hu. cbn [length Nat.eqb negb app].
    specialize (Hset (pools_text [] [])). destruct (Set_ s _ _) as [? []]; [..|done]; by destruct ips.
Qed.

(** ** Witnesses *)

Definition example_view : View :=
  MkView (Ret [MkPod true [MkContainer [] ["kube-apiserver"; "--service-cluster-ip-range=10.96.0.0/12"]%string]
                 "172.18.0.2" []]) (Fail (Errorf "forbidden")) (Fail (Errorf "cat"))
    (Some "the range of valid IPs is 10.96.0.0/12"%string)
    (Ret [MkPod false [] "10.244.0.7" ["10.244.0.7"%string]]) (Ret [MkService "10.96.0.1" []]).

Definition example_map : mem :=
  MkMem {[ConfigMapPodTrafficManager := MkConfigMap ConfigMapPodTrafficManager 1 (Some ∅)]} 1.

Definition example_found : list netptr := Eval vm_compute in items (GetCIDRElegant example_view).
Definition example_ugly : list netptr := Eval vm_compute in GetCIDRFromResourceUgly example_view.

(** With the API server at 10.96.0.1, the first network found contains it. *)
Lemma getCIDR_excludes_apiserver_witness :
  getCIDR example_map example_view (Some [IPv4 x0a x60 x00 x01; IPv4 x0a x60 x00 x01]) [] =
  (fst (discover example_map example_view []), Panic).
Proof.
  pose proof (getCIDR_excludes_apiserver (S := mem) example_map (fst (discover example_map example_view []))
    example_view [] (omap id (items (snd (discover example_map example_view []))))
    [IPv4 x0a x60 x00 x01; IPv4 x0a x60 x00 x01]) as H.
  destruct H as [H _]; [vm_compute; reflexivity|]. rewrite H. vm_compute. reflexivity.
Defined.

Ltac solve_v4net k :=
  do 4 eexists; exists k; split; [lia|]; split;
  [first [left; reflexivity|right; reflexivity]|vm_compute; reflexivity].

Lemma pools_cache_roundtrip_witness :
  ∃ l1 l2, discover example_map example_view [] =
      (fst (Set_ example_map KeyClusterIPv4POOLS (pools_text example_found example_ugly)), Ret l1) ∧
    ∀ ip, covered l1 ip ↔ covered l2 ip.
Proof.
  pose proof (pools_cache_roundtrip (S := mem) example_map
    (fst (Set_ example_map KeyClusterIPv4POOLS (pools_text example_found example_ugly)))
    example_view example_found (Errorf "can not get data")) as H.
  destruct H as (l1 & l2 & H1 & _ & H2 & _).
  - vm_compute. reflexivity.
  - vm_compute. reflexivity.
  - vm_compute. reflexivity.
  - change (Forall v4ptr (example_found ++ example_ugly)). unfold example_found, example_ugly. cbn [app].
    repeat (apply Forall_cons_2; [first [solve_v4net 12 | solve_v4net 24]|]). constructor.
  - discriminate.
  - exists l1, l2. split; [exact H1|exact H2].
Defined.

Lemma getCIDR_never_reports_witness :
  snd (getCIDR example_map (MkView (Fail Forbidden) (Fail Forbidden) (Fail Forbidden)
         (Some "forbidden"%string) (Fail Forbidden) (Fail Forbidden)) None []) = Ret [].
Proof.
  refine (proj2 (proj2 (getCIDR_never_reports (S := mem) example_map
    (MkView (Fail Forbidden) (Fail Forbidden) (Fail Forbidden) (Some "forbidden"%string)
       (Fail Forbidden) (Fail Forbidden)) None NotFound)) (Errorf "can not get data") _ _ _);
    vm_compute; reflexivity.
Defined.
