(* ===== verification/Node.v ===== *)
(** * Nodes, chains and servers

    [pkg/core/node.go], [chain.go], [route.go], the Linux tun device of [pkg/tun], and
    their callers: [startLocalTunServe] of [pkg/handler/connect.go] writes the node of
    a client as a URL that [GenerateServers] reads back, and [RentIPIfNeeded] of
    [pkg/handler/serve.go] completes the nodes of an injected pod. *)
From Stdlib Require Import ZArith Lia Ascii.
From Stdlib Require Import Strings.Byte.
From stdpp Require Import base gmap strings numbers list.
From S2P Require Import Prelude GoStrings GoNet Config Url Cidr.

(** ** Nodes *)

Definition ErrorInvalidNode : error := Errorf "invalid node".

(** [n_Client]: the connector and transporter of a chain node are set. *)
Record Node := MkNode {
  n_Addr : string; n_Protocol : string; n_Remote : string; n_Values : Values; n_Client : bool }.

(** [strings.Trim(s, "/")]. *)
Definition trim_slashes (s : string) : string :=
  TrimRightFunc (Ascii.eqb "/") (TrimLeftFunc (Ascii.eqb "/") s).

Definition ParseNode (s : string) : outcome Node :=
  let s := TrimSpace s in
  if bool_decide (s = EmptyString) then Fail ErrorInvalidNode
  else u ← Url.Parse s;
    Ret (MkNode (u_Host u) (u_Scheme u) (trim_slashes (EscapedPath u)) (Query u) false).

(** The first value that is not empty, else the first value, else nothing. *)
Definition Get (node : Node) (key : string) : string :=
  let values := default [] (n_Values node !! key) in
  match List.find (λ v, negb (bool_decide (v = EmptyString))) values with
  | Some v => v
  | None => default EmptyString (head values)
  end.

(** [strconv.Atoi] with its error dropped: an out of range number is the bound. *)
Definition GetInt (node : Node) (key : string) : Z := Atoi_value (Get node key).

(** ** Chains *)

Record Chain := MkChain { ch_Retries : Z; ch_node : option Node }.
Definition ErrorEmptyChain : error := Errorf "empty chain".

(** A nil chain is [None]. *)
Definition IsEmpty (c : option Chain) : bool :=
  match c with Some (MkChain _ (Some _)) => false | _ => true end.

Abbreviation Conn := nat.

(** What dialling meets: name resolution, the transporter and the connector, per attempt. *)
Record Net := MkNet {
  lookup_ip : string → option (list (list byte));
  dial_tcp : nat → string → outcome Conn;
  connect : nat → Conn → outcome Conn }.

Definition resolve (net : Net) (addr : string) : string :=
  match SplitHostPort addr with
  | Some (host, port) =>
      match lookup_ip net host with
      | Some (ip :: _) => JoinHostPort (IP_String ip) port
      | _ => addr
      end
  | None => addr
  end.

Definition getConn (net : Net) (i : nat) (c : option Chain) : outcome Conn :=
  match c with
  | Some (MkChain _ (Some node)) => dial_tcp net i (resolve net (n_Addr node))
  | _ => Fail ErrorEmptyChain
  end.

(** One attempt: the connections opened and closed, and its result. *)
Definition dial (net : Net) (i : nat) (c : option Chain) : list Conn * list Conn * outcome Conn :=
  if IsEmpty c then ([], [], Fail ErrorEmptyChain)
  else match getConn net i c with
       | Ret conn => match connect net i conn with
                     | Ret cc => ([conn], [], Ret cc)
                     | Fail e => ([conn], [conn], Fail e)
                     | Panic => ([conn], [], Panic)
                     end
       | Fail e => ([], [], Fail e)
       | Panic => ([], [], Panic)
       end.

(** The retry loop: attempt [i], [n] attempts left. *)
Fixpoint dial_loop (net : Net) (c : option Chain) (n i : nat) (err : outcome Conn)
  : list Conn * list Conn * outcome Conn :=
  match n with
  | O => ([], [], err)
  | S n =>
      let '(opened, closed, r) := dial net i c in
      match r with
      | Fail _ => let '(opened', closed', r') := dial_loop net c n (S i) r in
                  ((opened ++ opened')%list, (closed ++ closed')%list, r')
      | _ => (opened, closed, r)
      end
  end.

(** [c.Retries] of a nil chain is a nil dereference. *)
Definition DialContext (net : Net) (c : option Chain) : list Conn * list Conn * outcome Conn :=
  match c with
  | None => ([], [], Panic)
  | Some ch => dial_loop net c (Z.to_nat (Z.max 1 (ch_Retries ch))) 0 (Fail ErrorEmptyChain)
  end.

(** ** The tun device (Linux) *)

Record TunConfig := MkTun {
  t_Name : string; t_Addr : string; t_Addr6 : string; t_MTU : Z; t_Routes : list IPNet; t_Gateway : string }.

Record Device := MkDevice {
  d_mtu : Z; d_addrs : list (list byte * IPNet); d_routes : list string; d_local : option (list byte) }.

(** The operating system: the errors of its calls. *)
Record OS := MkOS {
  os_create : option error; os_name : option error; os_interface : option error; os_mtu : Z → option error;
  os_addr : list byte → IPNet → option error; os_up : option error; os_route : string → option error;
  os_interface2 : option error }.

Definition call (e : option error) : outcome unit := match e with Some e => Fail e | None => Ret tt end.

(** [addTunRoutes]; a route that exists already is no error. *)
Fixpoint addTunRoutes (os : OS) (done : list string) (routes : list IPNet) : outcome (list string) :=
  match routes with
  | [] => Ret done
  | dst :: routes =>
      let text := IPNet_String dst in
      if bool_decide (text = EmptyString) then addTunRoutes os done routes
      else match os_route os text with
           | None | Some AlreadyExists => addTunRoutes os (done ++ [text])%list routes
           | Some e => Fail (ErrorfV "ip route add" e)
           end
  end.

(** One address of the configuration, empty for none. *)
Definition addTunAddr (os : OS) (addr : string) (wrap : error → error) (addrs : list (list byte * IPNet))
  : outcome (option (list byte) * list (list byte * IPNet)) :=
  if bool_decide (addr = EmptyString) then Ret (None, addrs)
  else '(ip, net) ← of_option (Errorf "invalid CIDR address") (ParseCIDR addr);
    match os_addr os ip net with
    | Some e => Fail (wrap e)
    | None => Ret (Some ip, (addrs ++ [(ip, net)])%list)
    end.

Definition createTun (os : OS) (cfg : TunConfig) : outcome Device :=
  if bool_decide (t_Addr cfg = EmptyString) && bool_decide (t_Addr6 cfg = EmptyString)
  then Fail (Errorf "ipv4 address and ipv6 address can not be empty at same time")
  else
    let mtu := if (t_MTU cfg <=? 0)%Z then DefaultMTU else t_MTU cfg in
    _ ← call (os_create os);
    _ ← call (os_name os);
    _ ← call (ErrorfV "could not find interface name" <$> os_interface os);
    _ ← call (ErrorfV "can not setup mtu" <$> os_mtu os mtu);
    '(ipv4, addrs) ← addTunAddr os (t_Addr cfg) (ErrorfV "can not set ipv4 address") [];
    '(ipv6, addrs) ← addTunAddr os (t_Addr6 cfg) (ErrorfV "can not setup ipv6 address") addrs;
    _ ← call (ErrorfV "can not up device" <$> os_up os);
    routes ← addTunRoutes os [] (t_Routes cfg);
    _ ← call (os_interface2 os);
    Ret (MkDevice mtu addrs routes ipv4).

(** ** Servers of a route *)

Record Route := MkRoute { r_ServeNodes : list string; r_ChainNode : string; r_Retries : Z }.

Inductive Handler : Type :=
  | TunHandler (chain : option Chain) (node : Node)
  | TCPHandler | GvisorTCPHandler | GvisorUDPHandler.
Inductive Listener : Type :=
  | TunListener (config : TunConfig) (device : Device)
  | TCPListener (addr : string) | GvisorTCPListener (addr : string) | GvisorUDPListener (addr : string).
Record Server := MkServer { s_Listener : Listener; s_Handler : Handler }.

(** The process: its environment variables, the machine, the ports it can listen on. *)
Record Process := MkProcess { p_env : gmap string string; p_os : OS; p_listen : string → option error }.
Definition Getenv (env : gmap string string) (key : string) : string := default EmptyString (env !! key).

Definition parseChainNode (ns : string) : outcome Node :=
  node ← ParseNode ns;
  Ret (MkNode (n_Addr node) (n_Protocol node) (n_Remote node) (n_Values node) true).

Definition parseChain (r : Route) : outcome Chain :=
  node ← parseChainNode (r_ChainNode r); Ret (MkChain (r_Retries r) (Some node)).

(** Entries that are no networks are skipped. *)
Definition parseIPRoutes (routeStringList : string) : list IPNet :=
  if bool_decide (routeStringList = EmptyString) then []
  else omap (λ route, snd <$> ParseCIDR (TrimSpace route)) (Split "," routeStringList).

Definition tun_config (p : Process) (node : Node) : TunConfig :=
  MkTun (Get node "name") (Get node "net") (Getenv (p_env p) EnvInboundPodTunIPv6) (GetInt node "mtu")
    (parseIPRoutes (Get node "route")) (Get node "gw").

Definition listen (p : Process) (node : Node) (l : string → Listener) (h : Handler) : outcome Server :=
  match p_listen p (n_Addr node) with Some e => Fail e | None => Ret (MkServer (l (n_Addr node)) h) end.

Definition make_server (p : Process) (chain : option Chain) (serveNode : string) : outcome Server :=
  node ← ParseNode serveNode;
  if bool_decide (n_Protocol node = "tun"%string) then
    let cfg := tun_config p node in
    dev ← createTun (p_os p) cfg;
    Ret (MkServer (TunListener cfg dev) (TunHandler chain node))
  else if bool_decide (n_Protocol node = "tcp"%string) then listen p node TCPListener TCPHandler
  else if bool_decide (n_Protocol node = "gtcp"%string) then listen p node GvisorTCPListener GvisorTCPHandler
  else if bool_decide (n_Protocol node = "gudp"%string) then listen p node GvisorUDPListener GvisorUDPHandler
  else Fail (Errorf ("not support protocol " +:+ n_Protocol node)%string).

Fixpoint make_servers (p : Process) (chain : option Chain) (nodes : list string) : outcome (list Server) :=
  match nodes with
  | [] => Ret []
  | n :: nodes => s ← make_server p chain n; ss ← make_servers p chain nodes; Ret (s :: ss)
  end.

(** An empty chain node gives a nil chain. *)
Definition GenerateServers (p : Process) (r : Route) : outcome (list Server) :=
  match parseChain r with
  | Ret chain => make_servers p (Some chain) (r_ServeNodes r)
  | Fail e => if bool_decide (e = ErrorInvalidNode) then make_servers p None (r_ServeNodes r) else Fail e
  | Panic => Panic
  end.

(** [Parse] of [pkg/handler/connect.go]. *)
Definition ParseRoute (p : Process) (r : Route) : outcome (list Server) :=
  servers ← GenerateServers p r;
  if bool_decide (length servers = 0)
  then Fail (Errorf ("server is empty, server config: " +:+ Join "," (r_ServeNodes r))%string)
  else Ret servers.

(** ** The tunnel of a client *)

(** What [startLocalTunServe] reads of the connection. *)
Record TunServe := MkTunServe {
  ts_IPv4 : IPNet; ts_IPv6 : IPNet; ts_cidrs : list netptr; ts_ExtraCIDR : list string; ts_Engine : string }.

(** The networks routed into the tunnel, as texts: a set, in the order [order] lists it. *)
Definition route_texts (ts : TunServe) (lite : bool) : list string :=
  (if lite then [] else [IPNet_String CIDR]) ++ (net_text <$> ts_cidrs ts) ++ ts_ExtraCIDR ts.

Definition tun_node (ts : TunServe) (routes : list string) : string :=
  ("tun:/127.0.0.1:8422?net=" +:+ IPNet_String (ts_IPv4 ts) +:+ "&route=" +:+ Join "," routes +:+
   "&" +:+ ConfigKubeVPNTransportEngine +:+ "=" +:+ ts_Engine ts)%string.

Definition on_windows (ts : TunServe) : TunServe :=
  MkTunServe (MkIPNet (net_IP (ts_IPv4 ts)) (CIDRMask 0 32)) (ts_IPv6 ts) (ts_cidrs ts) (ts_ExtraCIDR ts) (ts_Engine ts).

Definition set_env (p : Process) (k v : string) : Process := MkProcess (<[k := v]> (p_env p)) (p_os p) (p_listen p).

Definition first_invalid (l : list string) : option string := List.find (λ s, bool_decide (ParseCIDR s = None)) l.

(** The servers started, with the process' environment. [order] is the order of
    [UnsortedList]. *)
Definition startLocalTunServe (windows : bool) (order : list string → list string) (p : Process) (ts : TunServe)
  (forwardAddress : string) (lite : bool) : Process * outcome (list Server) :=
  let ts := if windows then on_windows ts else ts in
  match first_invalid (ts_ExtraCIDR ts) with
  | Some s => (p, Fail (Errorf ("invalid extra-cidr " +:+ s)%string))
  | None =>
      let p := set_env p EnvInboundPodTunIPv6 (IPNet_String (ts_IPv6 ts)) in
      let r := MkRoute [tun_node ts (order (remove_dups (route_texts ts lite)))] forwardAddress 5 in
      (p, ParseRoute p r)
  end.

(** ** Renting in an injected pod *)

Definition GetTlsDomain (namespace : string) : string :=
  (ConfigMapPodTrafficManager +:+ "." +:+ namespace +:+ "." +:+ "svc")%string.

Record Request := MkRequest { q_Method : string; q_URL : URL; q_Header : gmap string string }.

(** [string(b)] of a byte: the code point as UTF-8. *)
Definition byte_string (a : ascii) : string :=
  let n := nat_of_ascii a in
  if n <? 128 then String a EmptyString
  else String (ascii_of_nat (192 + n / 64)) (String (ascii_of_nat (128 + n mod 64)) EmptyString).

Definition api_url (namespace api : string) : string :=
  ("https://" +:+ GetTlsDomain namespace +:+ ":80" +:+ api)%string.

(** The loop over the nodes; [ip] is the body of the answer. *)
Fixpoint complete_nodes (ip : string) (nodes : list string) : outcome (list string) :=
  match nodes with
  | [] => Ret []
  | n :: nodes =>
      node ← ParseNode n;
      let n := if bool_decide (n_Protocol node = "tun"%string) && bool_decide (Get node "net" = EmptyString)
               then match ip with
                    | String a _ => (n +:+ "&net=" +:+ byte_string a)%string
                    | EmptyString => n
                    end
               else n in
      ns ← complete_nodes ip nodes; Ret (n :: ns)
  end.

(** [do] is [util.DoReq].  The body is not empty where its first byte is used: it
    holds a comma. *)
Definition RentIPIfNeeded (env : gmap string string) (do : Request → outcome string) (r : Route)
  : gmap string string * outcome Route :=
  if bool_decide (env !! EnvInboundPodTunIPv4 = Some EmptyString) then
    let namespace := Getenv env EnvPodNamespace in
    if bool_decide (namespace = EmptyString) then (env, Fail (Errorf "can not get namespace"))
    else match Url.Parse (api_url namespace APIRentIP) with
    | Ret url =>
        let hdr := <[HeaderPodNamespace := namespace]> (<[HeaderPodName := Getenv env EnvPodName]> ∅) in
        match do (MkRequest "GET" url hdr) with
        | Ret ip =>
            match Split "," ip with
            | [ip4; ip6] =>
                let env := <[EnvInboundPodTunIPv6 := ip6]> (<[EnvInboundPodTunIPv4 := ip4]> env) in
                (env, ns ← complete_nodes ip (r_ServeNodes r);
                      Ret (MkRoute ns (r_ChainNode r) (r_Retries r)))
            | _ => (env, Fail (Errorf ("can not get ip from " +:+ ip)%string))
            end
        | Fail e => (env, Fail e)
        | Panic => (env, Panic)
        end
    | Fail e => (env, Fail (ErrorfV "can not new req, err" e))
    | Panic => (env, Panic)
    end
  else (env, Ret r).

(** What is sent when the pod stops. *)
Definition release_request (env : gmap string string) (url : URL) : Request :=
  MkRequest "DELETE" url
    (<[HeaderIPv6 := Getenv env EnvInboundPodTunIPv6]> (<[HeaderIPv4 := Getenv env EnvInboundPodTunIPv4]>
      (<[HeaderPodNamespace := Getenv env EnvPodNamespace]> (<[HeaderPodName := Getenv env EnvPodName]> ∅)))).

Definition ReleaseIPIfNeeded (env : gmap string string) (do : Request → outcome string) : outcome unit :=
  match Url.Parse (api_url (Getenv env EnvPodNamespace) APIReleaseIP) with
  | Ret url => _ ← do (release_request env url); Ret tt
  | Fail e => Fail (ErrorfV "can not new req, err" e)
  | Panic => Panic
  end.

(** The node of an injected pod: the variable [TunIPv4] is replaced by the shell. *)
Definition injected_node (tunIPv4 : string) : string :=
  ("tun:/localhost:8422?net=" +:+ tunIPv4 +:+ "&route=" +:+ IPNet_String CIDR)%string.

(** ** Reading back what was written *)

(** Characters a query may hold without ending it or being trimmed. *)
Definition query_char (a : ascii) : bool :=
  (33 <=? nat_of_ascii a) && negb (nat_of_ascii a =? 127) && negb (one_of "#?" a).

Lemma query_char_plain a : plain_char a = true → query_char a = true.
Proof. destruct a as [[] [] [] [] [] [] [] []]; vm_compute; congruence. Qed.

Lemma query_char_spec s :
  all_chars query_char s = true →
  Count "#" s = 0 ∧ Count "?" s = 0 ∧ stringContainsCTLByte s = false ∧ all_chars (λ a, negb (is_space a)) s = true.
Proof.
  intros H. repeat split.
  - by eapply all_chars_Count.
  - by eapply all_chars_Count.
  - unfold stringContainsCTLByte. apply negb_false_iff. eapply all_chars_impl; [|exact H].
    intros a. destruct a as [[] [] [] [] [] [] [] []]; vm_compute; congruence.
  - eapply all_chars_impl; [|exact H]. intros a. destruct a as [[] [] [] [] [] [] [] []]; vm_compute; congruence.
Qed.

Lemma Parse_tun q :
  q ≠ EmptyString → all_chars query_char q = true →
  Url.Parse ("tun:/127.0.0.1:8422?" +:+ q)%string = Ret (MkURL "tun" "" "/127.0.0.1:8422" "" q).
Proof.
  intros Hne (H1 & H2 & H3 & _)%query_char_spec. unfold Url.Parse.
  rewrite Cut_none by (rewrite Count_app, H1; reflexivity). unfold parse.
  assert (stringContainsCTLByte ("tun:/127.0.0.1:8422?" +:+ q) = false) as ->.
  { unfold stringContainsCTLByte in *. rewrite all_chars_app. exact H3. }
  rewrite (bool_decide_false (_ = "*"%string)) by done.
  change (getScheme ("tun:/127.0.0.1:8422?" +:+ q)) with (Ret ("tun", "/127.0.0.1:8422?" +:+ q)%string).
  cbn [mbind outcome_bind]. change (ToLower "tun") with "tun"%string.
  rewrite (HasSuffix_char _ q "?") by assumption. cbv iota.
  change ("/127.0.0.1:8422?" +:+ q)%string with ("/127.0.0.1:8422" +:+ String "?" q)%string.
  rewrite Cut_app by done. vm_compute (setPath _ _ _ _). reflexivity.
Qed.

Definition tun_query (ts : TunServe) (routes : list string) : list (string * string) :=
  [("net", IPNet_String (ts_IPv4 ts)); ("route", Join "," routes); (ConfigKubeVPNTransportEngine, ts_Engine ts)]%string.

Lemma tun_node_query ts routes :
  tun_node ts routes = ("tun:/127.0.0.1:8422?" +:+ write_query (tun_query ts routes))%string.
Proof.
  unfold tun_node, write_query, tun_query. cbn [fmap list_fmap fst snd Join]. by rewrite !str_app_assoc.
Qed.

Lemma write_query_chars l :
  Forall (λ kv, plain_string kv.1 ∧ plain_string kv.2) l → all_chars query_char (write_query l) = true.
Proof.
  intros Hl. apply all_chars_Join; [done|]. apply Forall_fmap. eapply Forall_impl; [exact Hl|].
  intros [k v] [Hk Hv]. cbn in *. rewrite !all_chars_app.
  rewrite (all_chars_impl _ _ _ query_char_plain Hk), (all_chars_impl _ _ _ query_char_plain Hv). done.
Qed.

(** A tun node with a plain query is read back with the query's values. *)
Lemma ParseNode_query l : l ≠ [] → Forall (λ kv, plain_string kv.1 ∧ plain_string kv.2) l →
  ParseNode ("tun:/127.0.0.1:8422?" +:+ write_query l)%string =
    Ret (MkNode "" "tun" "127.0.0.1:8422" (parseQuery (write_query l)) false).
Proof.
  intros Hl Hp. pose proof (write_query_chars l Hp) as Hq. destruct (query_char_spec _ Hq) as (_ & _ & _ & Hsp).
  assert (write_query l ≠ EmptyString) as Hne.
  { destruct l as [|[k v] [|kv l]]; [done|..]; unfold write_query; cbn; by destruct k. }
  unfold ParseNode. rewrite TrimSpace_id by (rewrite all_chars_app, Hsp; reflexivity).
  rewrite bool_decide_false by done. rewrite Parse_tun by done. reflexivity.
Qed.

Lemma Get_single v :
  match List.find (λ v, negb (bool_decide (v = EmptyString))) [v] with
  | Some v => v | None => default EmptyString (head [v]) end = v.
Proof. cbn. by case_bool_decide. Qed.

(** The node [startLocalTunServe] writes is read back as it was meant. *)
Lemma ParseNode_tun ts routes :
  plain_string (IPNet_String (ts_IPv4 ts)) → plain_string (Join "," routes) → plain_string (ts_Engine ts) →
  ∃ node, ParseNode (tun_node ts routes) = Ret node ∧ n_Protocol node = "tun"%string ∧
    n_Remote node = "127.0.0.1:8422"%string ∧ Get node "net" = IPNet_String (ts_IPv4 ts) ∧
    Get node "route" = Join "," routes ∧ Get node ConfigKubeVPNTransportEngine = ts_Engine ts ∧
    Get node "name" = EmptyString ∧ GetInt node "mtu" = 0%Z ∧ Get node "gw" = EmptyString.
Proof.
  intros HA HR HE. set (l := tun_query ts routes).
  assert (Forall (λ kv, plain_string kv.1 ∧ plain_string kv.2) l) as Hl by (repeat constructor; assumption).
  eexists. rewrite tun_node_query. split; [by apply ParseNode_query|].
  rewrite parseQuery_write by done. unfold tun_query, GetInt, Get. cbn [fold_left fst snd n_Values].
  set (A := IPNet_String (ts_IPv4 ts)). set (R := Join "," routes). set (E := ts_Engine ts).
  repeat split; simplify_map_eq; exact (Get_single _).
Qed.

Lemma parseIPRoutes_Join routes :
  Forall (λ s, is_Some (ParseCIDR s)) routes →
  parseIPRoutes (Join "," routes) = omap (λ s, snd <$> ParseCIDR s) routes.
Proof.
  intros H. unfold parseIPRoutes. destruct routes as [|s routes]; [done|].
  assert (Forall (λ s, Count "," s = 0) (s :: routes)) as Hc.
  { eapply Forall_impl; [exact H|]. intros t [r Hr]. by eapply ParseCIDR_plain. }
  rewrite bool_decide_false.
  - rewrite Split_Join by done. revert H. clear. induction 1 as [|t l [r Hr] _ IH]; [done|].
    cbn [omap list_omap]. rewrite TrimSpace_id by (eapply plain_no_space, ParseCIDR_plain; exact Hr). by rewrite IH.
  - inversion H as [|? ? [r Hr] _]; subst. intros E.
    assert (Split "," (Join "," (s :: routes)) = Split "," EmptyString) as E2 by (by rewrite E).
    rewrite Split_Join in E2 by done. injection E2 as -> _. discriminate Hr.
Qed.

Lemma routes_plain routes :
  Forall (λ s, is_Some (ParseCIDR s)) routes → plain_string (Join "," routes).
Proof.
  intros H. apply all_chars_Join; [done|]. eapply Forall_impl; [exact H|].
  intros t [r Hr]. by eapply ParseCIDR_plain.
Qed.

Lemma IPNet_String_nonempty n : IPNet_String n ≠ EmptyString.
Proof.
  assert (∀ a b, (a +:+ "/" +:+ b)%string ≠ EmptyString) as H by (by intros []).
  unfold IPNet_String. destruct (networkNumberAndMask n) as [[nn m]|]; [|done].
  destruct (simpleMaskLength m); apply H.
Qed.

(** A machine on which nothing fails. *)
Definition working_os : OS := MkOS None None None (λ _, None) (λ _ _, None) None (λ _, None) None.

Lemma addTunRoutes_working done routes :
  addTunRoutes working_os done routes = Ret (done ++ (IPNet_String <$> routes))%list.
Proof.
  revert done. induction routes as [|n routes IH]; intros done; cbn; [by rewrite app_nil_r|].
  rewrite bool_decide_false by apply IPNet_String_nonempty. rewrite IH, <-app_assoc. reflexivity.
Qed.

Lemma createTun_working cfg r4 r6 :
  ParseCIDR (t_Addr cfg) = Some r4 → ParseCIDR (t_Addr6 cfg) = Some r6 → t_MTU cfg = 0%Z →
  createTun working_os cfg = Ret (MkDevice DefaultMTU [r4; r6] (IPNet_String <$> t_Routes cfg) (Some (fst r4))).
Proof.
  intros H4 H6 Hm. unfold createTun, addTunAddr.
  assert (t_Addr cfg ≠ EmptyString) by (intros E; rewrite E in H4; discriminate).
  assert (t_Addr6 cfg ≠ EmptyString) by (intros E; rewrite E in H6; discriminate).
  rewrite !bool_decide_false by done. rewrite H4, H6, Hm. destruct r4, r6. cbn -[addTunRoutes].
  rewrite addTunRoutes_working. reflexivity.
Qed.

(** ** The chain node of a client *)

Definition host_char (a : ascii) : bool := is_digit a || one_of ".:" a.

Lemma unescape_host s : all_chars host_char s = true → unescape s encodeHost = Some s.
Proof.
  induction s as [|a s IH]; [done|]. cbn [all_chars]. intros [Ha Hs]%andb_true_iff. specialize (IH Hs).
  assert (unescape (String a s) encodeHost = String a <$> unescape s encodeHost) as ->; [|by rewrite IH].
  destruct a as [[] [] [] [] [] [] [] []]; vm_compute in Ha; try discriminate Ha; reflexivity.
Qed.

Lemma all_chars_Itoa z : (0 ≤ z)%Z → all_chars is_digit (Itoa z) = true.
Proof.
  intros Hz. apply Count_all_chars. intros c Hc. apply Count_Itoa; [|done].
  revert Hc. clear. destruct c as [[] [] [] [] [] [] [] []]; vm_compute; congruence.
Qed.

Lemma parseHost_port s :
  all_chars is_digit s = true → parseHost ("127.0.0.1:" +:+ s)%string = Ret ("127.0.0.1:" +:+ s)%string.
Proof.
  intros Hs. unfold parseHost. change (HasPrefix ("127.0.0.1:" +:+ s) "[") with false. cbv iota.
  change ("127.0.0.1:" +:+ s)%string with ("127.0.0.1" +:+ String ":" s)%string.
  rewrite LastIndex_app by (by apply (all_chars_Count is_digit)).
  change (str_drop (String.length "127.0.0.1") ("127.0.0.1" +:+ String ":" s)) with (String ":" s).
  unfold validOptionalPort. rewrite Hs. cbv iota. cbn [negb]. rewrite unescape_host; [reflexivity|].
  rewrite all_chars_app. cbn. eapply all_chars_impl; [|exact Hs]. intros a Ha. unfold host_char. by rewrite Ha.
Qed.

Lemma IndexStr_none s c : Count c s = 0 → IndexStr (String c EmptyString) s = None.
Proof.
  induction s as [|a s IH]; [done|]. cbn. rewrite Ascii.eqb_sym. intros H.
  destruct (ascii_dec c a) as [->|Hne]; [rewrite Ascii.eqb_refl in H; lia|].
  rewrite IH; [done|]. destruct (Ascii.eqb c a); lia.
Qed.

Lemma ParseNode_chain s :
  all_chars is_digit s = true →
  ∃ node, ParseNode ("tcp://127.0.0.1:" +:+ s)%string = Ret node ∧ n_Addr node = ("127.0.0.1:" +:+ s)%string ∧
    n_Protocol node = "tcp"%string ∧ n_Remote node = EmptyString.
Proof.
  intros Hs. assert (all_chars query_char s = true) as Hq.
  { eapply all_chars_impl; [|exact Hs]. intros a. destruct a as [[] [] [] [] [] [] [] []]; vm_compute; congruence. }
  destruct (query_char_spec _ Hq) as (H1 & H2 & H3 & H4).
  exists (MkNode ("127.0.0.1:" +:+ s)%string "tcp" "" ∅ false). split; [|done].
  unfold ParseNode. rewrite TrimSpace_id by (rewrite all_chars_app, H4; reflexivity).
  rewrite bool_decide_false by done. unfold Url.Parse.
  rewrite Cut_none by (rewrite Count_app, H1; reflexivity). unfold parse.
  assert (stringContainsCTLByte ("tcp://127.0.0.1:" +:+ s) = false) as ->.
  { unfold stringContainsCTLByte in *. rewrite all_chars_app. exact H3. }
  rewrite (bool_decide_false (_ = "*"%string)) by done.
  change (getScheme ("tcp://127.0.0.1:" +:+ s)) with (Ret ("tcp", "//127.0.0.1:" +:+ s)%string).
  cbn [mbind outcome_bind]. change (ToLower "tcp") with "tcp"%string.
  rewrite Count_app, H2. change (Count "?" "//127.0.0.1:" + 0 =? 1) with false. rewrite andb_false_r.
  rewrite Cut_none by (rewrite Count_app, H2; reflexivity).
  change (HasPrefix ("//127.0.0.1:" +:+ s) "/") with true.
  change (HasPrefix ("//127.0.0.1:" +:+ s) "//") with true.
  rewrite (bool_decide_false ("tcp"%string = EmptyString)) by done. cbn [negb andb orb].
  change (str_drop 2 ("//127.0.0.1:" +:+ s)) with ("127.0.0.1:" +:+ s)%string.
  rewrite IndexStr_none by (rewrite Count_app; change (Count "/" "127.0.0.1:") with 0; by apply (all_chars_Count is_digit)).
  unfold parseAuthority. rewrite LastIndex_none by (rewrite Count_app; change (Count "@" "127.0.0.1:") with 0; by apply (all_chars_Count is_digit)).
  rewrite parseHost_port by done. reflexivity.
Qed.

(** ** Theorems *)

(** Attempts that fail leave no connection open. *)
Lemma dial_failed net i c e o cl : dial net i c = (o, cl, Fail e) → o = cl.
Proof.
  unfold dial. destruct (IsEmpty c); [by intros [= <- <-]|]. destruct (getConn net i c) as [conn|e'|]; [|by intros [= <- <-]|done].
  destruct (connect net i conn); [done|by intros [= <- <- <-]|done].
Qed.

Lemma dial_loop_spec net c n i err :
  (∃ k cc, k < n ∧ (dial net (i + k) c).2 = Ret cc ∧ (∀ j, j < k → ∃ e, (dial net (i + j) c).2 = Fail e)) →
  ∃ k cc conn closed, k < n ∧ getConn net (i + k) c = Ret conn ∧ connect net (i + k) conn = Ret cc ∧
    dial_loop net c n i err = ((closed ++ [conn])%list, closed, Ret cc).
Proof.
  revert i err. induction n as [|n IH]; intros i err (k & cc & Hk & Hr & Hj); [lia|]. cbn [dial_loop].
  destruct (dial net i c) as [[o cl] r] eqn:E. destruct k as [|k].
  - rewrite Nat.add_0_r, E in Hr. cbn in Hr. subst r. unfold dial in E. destruct (IsEmpty c); [discriminate|].
    destruct (getConn net i c) as [conn| |] eqn:Eg; [|discriminate..].
    destruct (connect net i conn) as [cc'| |] eqn:Ec; [|discriminate..]. injection E as <- <- ->.
    exists 0, cc, conn, []. rewrite Nat.add_0_r. split_and!; [lia|done|done|reflexivity].
  - destruct (Hj 0 ltac:(lia)) as [e He]. rewrite Nat.add_0_r, E in He. cbn in He. subst r.
    destruct (IH (S i) (Fail e)) as (k' & cc' & conn & closed & Hk' & Hg & Hc & Hd).
    { exists k, cc. split; [lia|]. rewrite Nat.add_succ_comm. split; [done|].
      intros j Hlt. rewrite Nat.add_succ_comm. apply Hj. lia. }
    rewrite Hd. rewrite (dial_failed _ _ _ _ _ _ E). exists (S k'), cc', conn, (cl ++ closed)%list.
    rewrite <-!Nat.add_succ_comm. split_and!; [lia|done|done|by rewrite app_assoc].
Qed.

Lemma dial_loop_all net c n i err :
  (∀ k, k < n → ∃ e, (dial net (i + k) c).2 = Fail e) →
  ∃ closed, dial_loop net c n i err = (closed, closed, match n with O => err | S m => (dial net (i + m) c).2 end).
Proof.
  revert i err. induction n as [|n IH]; intros i err H; cbn [dial_loop]; [by exists []|].
  destruct (H 0 ltac:(lia)) as [e He]. rewrite Nat.add_0_r in He.
  destruct (dial net i c) as [[o cl] r] eqn:E. cbn in He. subst r.
  destruct (IH (S i) (Fail e)) as [closed Hc].
  { intros k Hk. rewrite Nat.add_succ_comm. apply H. lia. }
  rewrite Hc, (dial_failed _ _ _ _ _ _ E). exists (cl ++ closed)%list. f_equal.
  destruct n as [|n]; [by rewrite Nat.add_0_r, E|]. by rewrite Nat.add_succ_comm.
Qed.

(** Dialling the traffic manager makes progress and leaks nothing: with [Retries]
    attempts, one at least, it returns a connection whenever one of the attempts
    succeeds (the attempts before it having failed, none panicking), and then every
    other connection it opened has been closed; when all attempts fail it returns
    the error of the last one, with every connection closed. *)
Theorem dial_retries net ch opened closed r
  (n := Z.to_nat (Z.max 1 (ch_Retries ch)))
  (Hdial : DialContext net (Some ch) = (opened, closed, r)) :
  ((∃ k cc, k < n ∧ (dial net k (Some ch)).2 = Ret cc ∧ (∀ j, j < k → ∃ e, (dial net j (Some ch)).2 = Fail e)) →
     ∃ k cc conn, k < n ∧ getConn net k (Some ch) = Ret conn ∧ connect net k conn = Ret cc ∧
       r = Ret cc ∧ opened = (closed ++ [conn])%list) ∧
  ((∀ k, k < n → ∃ e, (dial net k (Some ch)).2 = Fail e) →
     opened = closed ∧ r = (dial net (n - 1) (Some ch)).2).
Proof.
  unfold DialContext in Hdial. fold n in Hdial. assert (0 < n) as Hn by (unfold n; lia). split.
  - intros H. destruct (dial_loop_spec net (Some ch) n 0 (Fail ErrorEmptyChain) H) as (k & cc & conn & cl & Hk & Hg & Hc & Hd).
    rewrite Hd in Hdial. injection Hdial as <- <- <-. by exists k, cc, conn.
  - intros H. destruct (dial_loop_all net (Some ch) n 0 (Fail ErrorEmptyChain) H) as [cl Hd].
    rewrite Hd in Hdial. injection Hdial as <- <- <-. split; [done|].
    destruct n as [|m]; [lia|]. cbn [Nat.add]. by replace (S m - 1) with m by lia.
Qed.

(** The third attempt succeeds, after a refused dial and a refused handshake. *)
Definition flaky_net : Net := MkNet (λ _, Some [IPv4 x0a x00 x00 x01])
  (λ i _, if i =? 0 then Fail (Errorf "refused") else Ret (10 + i))
  (λ i c, if i =? 1 then Fail (Errorf "handshake") else Ret c).
Definition example_chain : Chain :=
  MkChain 5 (Some (MkNode "manager:10800" "tcp" "" ∅ true)).

Lemma dial_retries_witness :
  DialContext flaky_net (Some example_chain) = ([11; 12], [11], Ret 12) ∧
  ∃ k cc conn, k < 5 ∧ getConn flaky_net k (Some example_chain) = Ret conn ∧
    connect flaky_net k conn = Ret cc ∧ Ret 12 = Ret cc ∧ [11; 12] = ([11] ++ [conn])%list.
Proof.
  split; [reflexivity|].
  refine (proj1 (dial_retries flaky_net example_chain [11; 12] [11] (Ret 12) eq_refl) _).
  exists 2, 12. split; [vm_compute; lia|]. split; [reflexivity|].
  intros j Hj. destruct j as [|[|j]]; [by eexists|by eexists|lia].
Defined.

Lemma omap_routes_spec (l : list string) n :
  n ∈ omap (λ s, snd <$> ParseCIDR s) l ↔ ∃ s, s ∈ l ∧ snd <$> ParseCIDR s = Some n.
Proof. apply list_elem_of_omap. Qed.

(** The networks meant to be routed. *)
Definition routed (ts : TunServe) (lite : bool) (n : IPNet) : Prop :=
  (lite = false ∧ n = CIDR) ∨ Some n ∈ ts_cidrs ts ∨ ∃ s, s ∈ ts_ExtraCIDR ts ∧ snd <$> ParseCIDR s = Some n.

Lemma route_texts_spec ts lite n :
  Forall (λ q, ∃ m, q = Some m ∧ snd <$> ParseCIDR (IPNet_String m) = Some m) (ts_cidrs ts) →
  (∃ s, s ∈ route_texts ts lite ∧ snd <$> ParseCIDR s = Some n) ↔ routed ts lite n.
Proof.
  intros Hc. unfold route_texts, routed. rewrite Forall_forall in Hc. split.
  - intros (s & Hs & Hn). apply elem_of_app in Hs as [Hs|[(q & -> & Hq)%list_elem_of_fmap|Hs]%elem_of_app].
    + left. destruct lite; [by apply not_elem_of_nil in Hs|]. apply list_elem_of_singleton in Hs as ->.
      split; [done|]. vm_compute in Hn. by injection Hn as <-.
    + right; left. destruct (Hc q Hq) as (m & -> & Hm). change (net_text (Some m)) with (IPNet_String m) in Hn. rewrite Hm in Hn. by injection Hn as ->.
    + right; right. by exists s.
  - intros [[-> ->]|[Hq|(s & Hs & Hn)]].
    + exists (IPNet_String CIDR). split; [set_solver|]. vm_compute. reflexivity.
    + destruct (Hc _ Hq) as (m & [= ->] & Hm). exists (IPNet_String m). split; [|done].
      apply elem_of_app; right. apply elem_of_app; left. apply list_elem_of_fmap. by exists (Some m).
    + exists s. split; [set_solver|done].
Qed.

Lemma first_invalid_none l : Forall (λ s, is_Some (ParseCIDR s)) l → first_invalid l = None.
Proof.
  induction 1 as [|s l [r Hr] _ IH]; [done|]. unfold first_invalid. cbn. rewrite Hr.
  rewrite bool_decide_false by done. exact IH.
Qed.

Lemma route_texts_parse ts lite :
  Forall (λ q, ∃ m, q = Some m ∧ snd <$> ParseCIDR (IPNet_String m) = Some m) (ts_cidrs ts) →
  Forall (λ s, is_Some (ParseCIDR s)) (ts_ExtraCIDR ts) →
  Forall (λ s, is_Some (ParseCIDR s)) (route_texts ts lite).
Proof.
  intros Hc He. unfold route_texts. apply Forall_app. split; [|apply Forall_app; split; [|done]].
  - destruct lite; [done|]. constructor; [|done]. vm_compute. by eexists.
  - apply Forall_fmap. eapply Forall_impl; [exact Hc|]. intros q (m & -> & Hm). cbn.
    by apply fmap_Some in Hm as (r & Hr & _); exists r.
Qed.

(** C13. The tunnel of a client is the one that was asked for: the node and the chain
    written as URLs are read back, and on a working machine the device gets both
    rented addresses, packets go to the local port that is forwarded to the traffic
    manager, the engine is the requested one, and the routed networks are exactly the
    inner pool (unless lite), the cluster's networks and the extra ones, whatever the
    order in which the set lists them. *)
Theorem client_tunnel order p ts port lite r4 r6
  (Horder : ∀ l, order l ≡ₚ l) (Hos : p_os p = working_os) (Hport : (0 ≤ port)%Z)
  (H4 : ParseCIDR (IPNet_String (ts_IPv4 ts)) = Some r4) (H6 : ParseCIDR (IPNet_String (ts_IPv6 ts)) = Some r6)
  (Hcidrs : Forall (λ q, ∃ m, q = Some m ∧ snd <$> ParseCIDR (IPNet_String m) = Some m) (ts_cidrs ts))
  (Hextra : Forall (λ s, is_Some (ParseCIDR s)) (ts_ExtraCIDR ts)) (Heng : plain_string (ts_Engine ts)) :
  ∃ p' cfg dev chain node,
    startLocalTunServe false order p ts ("tcp://127.0.0.1:" +:+ Itoa port)%string lite =
      (p', Ret [MkServer (TunListener cfg dev) (TunHandler (Some (MkChain 5 (Some chain))) node)]) ∧
    n_Addr chain = ("127.0.0.1:" +:+ Itoa port)%string ∧ n_Remote node = "127.0.0.1:8422"%string ∧
    Get node ConfigKubeVPNTransportEngine = ts_Engine ts ∧
    d_addrs dev = [r4; r6] ∧ d_mtu dev = DefaultMTU ∧ d_routes dev = IPNet_String <$> t_Routes cfg ∧
    (∀ n, n ∈ t_Routes cfg ↔ routed ts lite n).
Proof.
  set (routes := order (remove_dups (route_texts ts lite))).
  assert (∀ s, s ∈ routes ↔ s ∈ route_texts ts lite) as Hin.
  { intros s. unfold routes. by rewrite (Horder _), elem_of_remove_dups. }
  assert (Forall (λ s, is_Some (ParseCIDR s)) routes) as Hr.
  { apply Forall_forall. intros s Hs%Hin. pose proof (route_texts_parse ts lite Hcidrs Hextra) as Hp.
    rewrite Forall_forall in Hp. by apply Hp. }
  destruct (ParseNode_tun ts routes) as (node & Hn & Hpr & Hrem & Hnet & Hrt & Heg & Hname & Hmtu & Hgw);
    [by eapply ParseCIDR_plain|by apply routes_plain|done|].
  destruct (ParseNode_chain (Itoa port) (all_chars_Itoa _ Hport)) as (ch & Hch & Hca & _).
  set (p' := set_env p EnvInboundPodTunIPv6 (IPNet_String (ts_IPv6 ts))).
  set (cfg := tun_config p' node).
  assert (createTun (p_os p') cfg = Ret (MkDevice DefaultMTU [r4; r6] (IPNet_String <$> t_Routes cfg) (Some (fst r4)))) as Hdev.
  { change (p_os p') with (p_os p). rewrite Hos. apply createTun_working.
    - unfold cfg, tun_config. cbn [t_Addr]. by rewrite Hnet.
    - unfold cfg, tun_config, p', set_env, Getenv. cbn [t_Addr6 p_env]. by rewrite lookup_insert_eq.
    - exact Hmtu. }
  eexists p', cfg, _, _, node. split_and!.
  - unfold startLocalTunServe. rewrite first_invalid_none by done. fold routes p'. f_equal.
    unfold ParseRoute, GenerateServers, parseChain, parseChainNode. cbn [r_ChainNode r_ServeNodes r_Retries].
    rewrite Hch. cbn [mbind outcome_bind make_servers]. unfold make_server. rewrite Hn. cbn [mbind outcome_bind].
    rewrite Hpr. rewrite bool_decide_true by done. fold cfg. rewrite Hdev. reflexivity.
  - exact Hca.
  - exact Hrem.
  - exact Heg.
  - reflexivity.
  - reflexivity.
  - reflexivity.
  - intros n. unfold cfg, tun_config. cbn [t_Routes]. rewrite Hrt, parseIPRoutes_Join by done.
    rewrite omap_routes_spec, <-(route_texts_spec ts lite n Hcidrs). by setoid_rewrite Hin.
Qed.

Definition example_serve : TunServe :=
  MkTunServe (MkIPNet (IPv4 xdf xfe x00 x66) (CIDRMask 16 32))
    (MkIPNet (fst (parse_pool "efff:ffff:ffff:ffff:ffff:ffff:ffff:99ab/64")) (CIDRMask 64 128))
    [Some (MkIPNet [x0a; xe9; x00; x00] (CIDRMask 16 32))] ["192.168.1.0/24"%string] "mix".

Lemma client_tunnel_witness :
  ∃ p' cfg dev chain node,
    startLocalTunServe false (@rev string) (MkProcess ∅ working_os (λ _, None)) example_serve "tcp://127.0.0.1:40001" false =
      (p', Ret [MkServer (TunListener cfg dev) (TunHandler (Some (MkChain 5 (Some chain))) node)]) ∧
    d_routes dev = ["192.168.1.0/24"; "10.233.0.0/16"; "223.254.0.0/16"]%string ∧
    routed example_serve false CIDR.
Proof.
  destruct (client_tunnel (@rev string) (MkProcess ∅ working_os (λ _, None)) example_serve 40001 false
    (default (([] : list byte), MkIPNet [] []) (ParseCIDR (IPNet_String (ts_IPv4 example_serve))))
    (default (([] : list byte), MkIPNet [] []) (ParseCIDR (IPNet_String (ts_IPv6 example_serve)))))
    as (p' & cfg & dev & chain & node & E & _ & _ & _ & _ & _ & Hd & Hr).
  - intros l. symmetry. apply Permutation_rev.
  - reflexivity.
  - lia.
  - vm_compute. reflexivity.
  - vm_compute. reflexivity.
  - constructor; [|constructor]. eexists. split; [reflexivity|]. vm_compute. reflexivity.
  - constructor; [|constructor]. vm_compute. by eexists.
  - reflexivity.
  - exists p', cfg, dev, chain, node. split; [exact E|]. split; [|left; by split].
    rewrite Hd. assert (t_Routes cfg = [MkIPNet [xc0; xa8; x01; x00] (CIDRMask 24 32);
      MkIPNet [x0a; xe9; x00; x00] (CIDRMask 16 32); CIDR]) as ->; [|vm_compute; reflexivity].
    vm_compute in E. injection E as _ <- _ _ _. reflexivity.
Defined.
