(* ===== verification/Sidecar.v ===== *)
(** * Side-cars of a proxied workload

    [pkg/mesh/controller.go], [pkg/exchange/controller.go], the injection and removal
    code of [pkg/handler/envoy.go] and [pkg/handler/remote.go]: a workload is proxied
    by adding containers to its pod template and taking its probes away; the probes
    are kept as a JSON patch in an annotation, from which leaving restores them.
    The JSON libraries and the API server are interfaces with their laws,
    instantiated at the end; [config.Image] and the embedded Envoy bootstrap
    configuration are variables. *)
From Stdlib Require Import ZArith Lia Ascii.
From Stdlib Require Import Strings.Byte.
From stdpp Require Import base countable gmap strings numbers pretty list.
From S2P Require Import Prelude GoStrings GoNet Config KubeApi Base64 Cleaner ControlPlane Envoy.

Definition KubeVPNRestorePatchKey : string := "kubevpn-probe-restore-patch".

(** ** Data *)

(** An environment variable: a value, or the path of a field of the pod. *)
Record EnvVar := MkEnvVar { ev_Name : string; ev_Value : string; ev_FieldPath : option string }.
Record SecurityContext := MkSecurity { sc_Add : list string; sc_RunAsUser : Z; sc_Privileged : bool }.
Record Resources := MkResources { rs_Requests : list (string * string); rs_Limits : list (string * string) }.

Section Data.
Context {Probe : Type}.

Record Container := MkContainer {
  c_Name : string; c_Image : string; c_Command : list string; c_Args : list string;
  c_EnvFrom : list string;      (** names of secrets *)
  c_Env : list EnvVar; c_Resources : Resources; c_ImagePullPolicy : string;
  c_SecurityContext : option SecurityContext; c_Ports : list ContainerPort;
  c_ReadinessProbe : option Probe; c_LivenessProbe : option Probe; c_StartupProbe : option Probe }.

Record PodSpec := MkPodSpec { Containers : list Container; PriorityClassName : string }.

(** The value of a JSON patch operation: nil, a string, another JSON value (by its
    text), or, in a patch that is sent, a byte slice or a pod specification. *)
Inductive value :=
  | VNil | VStr (s : string) | VObj (text : string) | VBytes (b : list byte) | VSpec (s : PodSpec).
Record P := MkP { Op : string; Path : string; Value : value }.

(** A workload: its group resource and name, whether it has a pod template (a
    controller) or is a pod itself, the pod specification and the annotations. *)
Record Workload := MkWorkload {
  w_resource : string; w_name : string; w_controller : bool; w_spec : PodSpec;
  w_annotations : gmap string string }.
End Data.
Arguments Container : clear implicits.
Arguments PodSpec : clear implicits.
Arguments value : clear implicits.
Arguments P : clear implicits.
Arguments Workload : clear implicits.

(** ** The scripts of the containers *)

Definition nl : string := String "010" EmptyString.
Definition dq : string := String "034" EmptyString.

Definition serve_line (listen : string) : string :=
  ("kubevpn serve -L " +:+ dq +:+ listen +:+ dq +:+ " -F " +:+ dq +:+
   "tcp://${TrafficManagerService}:10800" +:+ dq)%string.

Definition mesh_script : string := Join nl
  [""; "sysctl -w net.ipv4.ip_forward=1"; "sysctl -w net.ipv6.conf.all.disable_ipv6=0";
   "sysctl -w net.ipv6.conf.all.forwarding=1";
   "update-alternatives --set iptables /usr/sbin/iptables-legacy";
   "iptables -F"; "ip6tables -F"; "iptables -P INPUT ACCEPT"; "ip6tables -P INPUT ACCEPT";
   "iptables -P FORWARD ACCEPT"; "ip6tables -P FORWARD ACCEPT";
   "iptables -t nat -A PREROUTING ! -p icmp ! -s 127.0.0.1 ! -d ${CIDR4} -j DNAT --to 127.0.0.1:15006";
   "ip6tables -t nat -A PREROUTING ! -p icmp ! -s 0:0:0:0:0:0:0:1 ! -d ${CIDR6} -j DNAT --to [0:0:0:0:0:0:0:1]:15006";
   "iptables -t nat -A POSTROUTING ! -p icmp ! -s 127.0.0.1 ! -d ${CIDR4} -j MASQUERADE";
   "ip6tables -t nat -A POSTROUTING ! -p icmp ! -s 0:0:0:0:0:0:0:1 ! -d ${CIDR6} -j MASQUERADE";
   serve_line "tun:/localhost:8422?net=${TunIPv4}&route=${CIDR4}"]%string.

Definition exchange_script : string := Join nl
  [""; "sysctl -w net.ipv4.ip_forward=1"; "sysctl -w net.ipv6.conf.all.disable_ipv6=0";
   "sysctl -w net.ipv6.conf.all.forwarding=1"; "sysctl -w net.ipv4.conf.all.route_localnet=1";
   "update-alternatives --set iptables /usr/sbin/iptables-legacy";
   "iptables -F"; "ip6tables -F"; "iptables -P INPUT ACCEPT"; "ip6tables -P INPUT ACCEPT";
   "iptables -P FORWARD ACCEPT"; "ip6tables -P FORWARD ACCEPT";
   "iptables -t nat -A PREROUTING ! -p icmp -j DNAT --to ${LocalTunIPv4}";
   "ip6tables -t nat -A PREROUTING ! -p icmp -j DNAT --to ${LocalTunIPv6}";
   "iptables -t nat -A POSTROUTING ! -p icmp -j MASQUERADE";
   "ip6tables -t nat -A POSTROUTING ! -p icmp -j MASQUERADE";
   "iptables -t nat -A OUTPUT -o lo ! -p icmp -j DNAT --to-destination ${LocalTunIPv4}";
   "ip6tables -t nat -A OUTPUT -o lo ! -p icmp -j DNAT --to-destination ${LocalTunIPv6}";
   serve_line "tun:/127.0.0.1:8422?net=${TunIPv4}&route=${CIDR4}"]%string.

Definition plain (name value : string) : EnvVar := MkEnvVar name value None.
Definition field (name path : string) : EnvVar := MkEnvVar name "" (Some path).

Definition sidecar_resources : Resources :=
  MkResources [("cpu", "128m"); ("memory", "128Mi")]%string [("cpu", "256m"); ("memory", "256Mi")]%string.
Definition privileged : SecurityContext := MkSecurity ["NET_ADMIN"%string] 0 true.

(** ** Containers *)

Section Containers.
Context {Probe : Type} (Image envoyConfig : string).
Abbreviation Container := (Container Probe).
Abbreviation PodSpec := (PodSpec Probe).

Definition mesh_env : list EnvVar :=
  [plain "CIDR4" (IPNet_String CIDR); plain "CIDR6" (IPNet_String CIDR6);
   plain EnvInboundPodTunIPv4 ""; plain EnvInboundPodTunIPv6 "";
   plain "TrafficManagerService" ConfigMapPodTrafficManager;
   field EnvPodNamespace "metadata.namespace"; field EnvPodName "metadata.name"].

Definition mesh_vpn_container : Container :=
  MkContainer ContainerSidecarVPN Image ["/bin/sh"; "-c"]%string [mesh_script]
    [ConfigMapPodTrafficManager] mesh_env sidecar_resources "IfNotPresent" (Some privileged) []
    None None None.

Definition envoy_container (nodeID : string) : Container :=
  MkContainer ContainerSidecarEnvoyProxy Image
    ["envoy"; "-l"; "error"; "--base-id"; "1"; "--service-node"; nodeID; "--service-cluster"; nodeID;
     "--config-yaml"]%string [envoyConfig] [] [] sidecar_resources "IfNotPresent" None []
    None None None.

Definition is_mesh_sidecar (c : Container) : bool :=
  bool_decide (c_Name c ∈ [ContainerSidecarEnvoyProxy; ContainerSidecarVPN]).

(** [mesh.RemoveContainers] *)
Definition RemoveContainers (spec : PodSpec) : PodSpec :=
  MkPodSpec (remove_loop is_mesh_sidecar (Containers spec)) (PriorityClassName spec).

Definition AddMeshContainer (spec : PodSpec) (nodeID : string) : PodSpec :=
  let spec := RemoveContainers spec in
  MkPodSpec (Containers spec ++ [mesh_vpn_container; envoy_container nodeID]) (PriorityClassName spec).

Definition exchange_env (c : PodRouteConfig) : list EnvVar :=
  [plain "LocalTunIPv4" (pr_v4 c); plain "LocalTunIPv6" (pr_v6 c);
   plain EnvInboundPodTunIPv4 ""; plain EnvInboundPodTunIPv6 "";
   plain "CIDR4" (IPNet_String CIDR); plain "CIDR6" (IPNet_String CIDR6);
   plain "TrafficManagerService" ConfigMapPodTrafficManager].

Definition exchange_container (c : PodRouteConfig) : Container :=
  MkContainer ContainerSidecarVPN Image ["/bin/sh"; "-c"]%string [exchange_script]
    [ConfigMapPodTrafficManager] (exchange_env c) sidecar_resources "IfNotPresent" (Some privileged) []
    None None None.

Definition is_vpn (c : Container) : bool := String.eqb (c_Name c) ContainerSidecarVPN.

(** [exchange.RemoveContainer] *)
Definition RemoveContainer (spec : PodSpec) : PodSpec :=
  MkPodSpec (remove_loop is_vpn (Containers spec)) (PriorityClassName spec).

Definition AddContainer (spec : PodSpec) (c : PodRouteConfig) : PodSpec :=
  let spec := RemoveContainer spec in
  MkPodSpec (Containers spec ++ [exchange_container c])
    (if String.eqb (PriorityClassName spec) "" then "system-cluster-critical" else PriorityClassName spec).

(** What a shallow copy of the template sees of its containers after [AddContainer]:
    the removal shifts the elements of the shared array, and the new container is
    appended into it when a slot has become free.  [arr] is the array up to its
    original length, [len] the length of the slice that is edited. *)
Definition shift_left (i len : nat) (arr : list Container) : list Container :=
  take i arr ++ take (len - S i) (drop (S i) arr) ++ drop (len - 1) arr.

Fixpoint alias_remove (fuel i len : nat) (arr : list Container) : list Container * nat :=
  match fuel with
  | O => (arr, len)
  | S fuel =>
      if i <? len then
        match arr !! i with
        | Some c => if is_vpn c then alias_remove fuel i (len - 1) (shift_left i len arr)
                    else alias_remove fuel (S i) len arr
        | None => (arr, len)
        end
      else (arr, len)
  end.

Definition alias_AddContainer (arr : list Container) (c : PodRouteConfig) : list Container :=
  let '(arr, len) := alias_remove (length arr) 0 (length arr) arr in
  <[len := exchange_container c]> arr.
End Containers.

(** ** Patches *)

(** The path [GetPodTemplateSpecPath] returns. *)
Definition template_path (controller : bool) : list string :=
  if controller then ["spec"; "template"]%string else [].

Definition slash_path (words : list string) : string := String "/" (Join "/" words).
Definition spec_path (path : list string) : string := slash_path (path ++ ["spec"%string]).
Definition probe_path (path : list string) (i : nat) (kind : string) : string :=
  slash_path (path ++ ["spec"; "containers"; Itoa (Z.of_nat i); kind]%string).
Definition restore_path : string := ("/metadata/annotations/" +:+ KubeVPNRestorePatchKey)%string.

Definition readiness : string := "readinessProbe".
Definition liveness : string := "livenessProbe".
Definition startup : string := "startupProbe".

(** The JSON libraries: probes, and patches as they are kept in the annotation. *)
Class JsonCodec (Probe : Type) := {
  probe_Marshal : Probe → string;
  probe_Unmarshal : string → option Probe;
  patch_Marshal : list (P Probe) → string;
  patch_Unmarshal : string → option (list (P Probe));
}.
Class JsonLaws (Probe : Type) `{JsonCodec Probe} : Prop := {
  probe_roundtrip p : probe_Unmarshal (probe_Marshal p) = Some p;
  probe_text_nonempty p : probe_Marshal p ≠ EmptyString;
  patch_roundtrip ps :
    Forall (λ p, ∃ s, Value p = VStr s) ps → patch_Unmarshal (patch_Marshal ps) = Some ps;
  (** an array is written with its bracket first *)
  patch_bracket ps : ps ≠ [] → ∃ s, patch_Marshal ps = String "[" s;
  (** no JSON text starts with a W *)
  patch_not_json s : patch_Unmarshal (String "W" s) = None;
}.

Section Patches.
Context {Probe : Type} `{JsonCodec Probe}.
Abbreviation Container := (Container Probe).
Abbreviation PodSpec := (PodSpec Probe).
Abbreviation P := (P Probe).

Definition probe_text (p : option Probe) : string :=
  match p with Some p => probe_Marshal p | None => "" end.

Definition replace (path : string) (v : value Probe) : P := MkP "replace" path v.

Definition container_remove (path : list string) (i : nat) (_ : Container) : list P :=
  [replace (probe_path path i readiness) VNil; replace (probe_path path i liveness) VNil;
   replace (probe_path path i startup) VNil].
Definition container_restore (path : list string) (i : nat) (c : Container) : list P :=
  [replace (probe_path path i readiness) (VStr (probe_text (c_ReadinessProbe c)));
   replace (probe_path path i liveness) (VStr (probe_text (c_LivenessProbe c)));
   replace (probe_path path i startup) (VStr (probe_text (c_StartupProbe c)))].

(** [patch]: the operations that remove the probes and those that restore them. *)
Definition patch (cs : list Container) (path : list string) : list P * list P :=
  (mjoin (imap (container_remove path) cs), mjoin (imap (container_restore path) cs)).

(** The decoded value of a restore operation is a string or another JSON value. *)
Definition probe_of (v : value Probe) : option Probe :=
  match v with
  | VNil => None
  | VStr s => if String.eqb s "" then None else probe_Unmarshal s
  | VObj text => probe_Unmarshal text
  | VBytes _ | VSpec _ => None
  end.

Definition set_readiness (c : Container) (o : option Probe) : Container :=
  MkContainer (c_Name c) (c_Image c) (c_Command c) (c_Args c) (c_EnvFrom c) (c_Env c) (c_Resources c)
    (c_ImagePullPolicy c) (c_SecurityContext c) (c_Ports c) o (c_LivenessProbe c) (c_StartupProbe c).
Definition set_liveness (c : Container) (o : option Probe) : Container :=
  MkContainer (c_Name c) (c_Image c) (c_Command c) (c_Args c) (c_EnvFrom c) (c_Env c) (c_Resources c)
    (c_ImagePullPolicy c) (c_SecurityContext c) (c_Ports c) (c_ReadinessProbe c) o (c_StartupProbe c).
Definition set_startup (c : Container) (o : option Probe) : Container :=
  MkContainer (c_Name c) (c_Image c) (c_Command c) (c_Args c) (c_EnvFrom c) (c_Env c) (c_Resources c)
    (c_ImagePullPolicy c) (c_SecurityContext c) (c_Ports c) (c_ReadinessProbe c) (c_LivenessProbe c) o.

(** The [switch] on the path of one operation, for container [i]. *)
Definition set_probe (path : list string) (i : nat) (c : Container) (p : P) : Container :=
  if String.eqb (Path p) (probe_path path i readiness) then set_readiness c (probe_of (Value p))
  else if String.eqb (Path p) (probe_path path i liveness) then set_liveness c (probe_of (Value p))
  else if String.eqb (Path p) (probe_path path i startup) then set_startup c (probe_of (Value p))
  else c.

Definition fromPatchToProbe (spec : PodSpec) (path : list string) (ps : list P) : PodSpec :=
  if negb (length ps =? 3 * length (Containers spec)) then spec
  else MkPodSpec (imap (λ i c, fold_left (set_probe path i) ps c) (Containers spec))
         (PriorityClassName spec).
End Patches.

(** ** The API server for workloads *)

Section Apply.
Context {Probe : Type}.

Definition clear_probes (path : list string) (p : P Probe) (i : nat) (c : Container Probe) : Container Probe :=
  if String.eqb (Path p) (probe_path path i readiness) then set_readiness c None
  else if String.eqb (Path p) (probe_path path i liveness) then set_liveness c None
  else if String.eqb (Path p) (probe_path path i startup) then set_startup c None
  else c.

(** A [replace] operation (RFC 6902) on the paths the program uses; a byte slice is
    sent as its base64 text. *)
Definition apply_op (o : Workload Probe) (p : P Probe) : Workload Probe :=
  let path := template_path (w_controller o) in
  let annotate t := MkWorkload (w_resource o) (w_name o) (w_controller o) (w_spec o)
                      (<[KubeVPNRestorePatchKey := t]> (w_annotations o)) in
  let with_spec s := MkWorkload (w_resource o) (w_name o) (w_controller o) s (w_annotations o) in
  match Value p with
  | VSpec s => if String.eqb (Path p) (spec_path path) then with_spec s else o
  | VStr t => if String.eqb (Path p) restore_path then annotate t else o
  | VBytes b => if String.eqb (Path p) restore_path then annotate (EncodeToString b) else o
  | VNil => with_spec (MkPodSpec (imap (clear_probes path p) (Containers (w_spec o)))
                         (PriorityClassName (w_spec o)))
  | VObj _ => o
  end.
Definition apply_patch (o : Workload Probe) (ps : list (P Probe)) : Workload Probe := fold_left apply_op ps o.
End Apply.

Class WorkloadInterface (W Probe : Type) := {
  wGet : W → string → outcome (Workload Probe);
  wPatch : W → string → list (P Probe) → W * outcome unit;
  wDelete : W → string → W * outcome unit;
  wCreate : W → string → Workload Probe → W * outcome unit;
  wRunning : W → string → bool;       (** the pod can be read and is running *)
}.
Class WorkloadLaws (W Probe : Type) `{WorkloadInterface W Probe} : Prop := {
  wpatch_ok w n ps w' o :
    wGet w n = Ret o → wPatch w n ps = (w', Ret tt) → wGet w' n = Ret (apply_patch o ps);
}.

(** ** Handlers *)

Section Handlers.
Context {Probe : Type} `{JC : JsonCodec Probe}.
Context {W : Type} `{WI : WorkloadInterface W Probe}.
Context {S : Type} `{API : ConfigMapInterface S} `{Y : YamlCodec}.
Context (Image envoyConfig : string).

(** The loop of [CreateAfterDeletePod]: a successful creation is an error without
    text, which is retried; the attempts end when the pod exists and is running. *)
Fixpoint create_loop (steps : nat) (n : string) (o : Workload Probe) (w : W) : W * outcome unit :=
  match steps with
  | O => (w, Ret tt)
  | Datatypes.S steps =>
      let '(w, r) := wCreate w n o in
      match r with
      | Panic => (w, Panic)
      | _ =>
          let err := match r with Fail e => e | _ => Errorf "" end in
          if bool_decide (err = AlreadyExists) && wRunning w n then (w, Fail err)
          else match steps with O => (w, Fail err) | _ => create_loop steps n o w end
      end
  end.

Definition CreateAfterDeletePod (w : W) (n : string) (o : Workload Probe) : W * outcome unit :=
  let '(w, _) := wDelete w n in
  match create_loop 10 n o w with
  | (w, Fail AlreadyExists) => (w, Ret tt)
  | r => r
  end.

Definition nodeID_of (o : Workload Probe) : string := (w_resource o +:+ "." +:+ w_name o)%string.

Definition with_containers (o : Workload Probe) (spec : PodSpec Probe) : Workload Probe :=
  MkWorkload (w_resource o) (w_name o) (w_controller o) spec (w_annotations o).

(** [InjectVPNAndEnvoySidecar]; [rollout] is the result of waiting for the roll-out. *)
Definition InjectVPNAndEnvoySidecar (s : S) (w : W) (workload : string) (c : PodRouteConfig)
    (headers : option (gmap string string)) (rollout : outcome unit) : S * W * outcome unit :=
  match wGet w workload with
  | Fail e => (s, w, Fail e)
  | Panic => (s, w, Panic)
  | Ret o =>
      let path := template_path (w_controller o) in
      let port := match mjoin (c_Ports <$> Containers (w_spec o)) with [] => None | l => Some l end in
      match addEnvoyConfig s (nodeID_of o) c headers port with
      | (s, Fail e) => (s, w, Fail e)
      | (s, Panic) => (s, w, Panic)
      | (s, Ret _) =>
          let names := c_Name <$> Containers (w_spec o) in
          if bool_decide (ContainerSidecarVPN ∈ names) && bool_decide (ContainerSidecarEnvoyProxy ∈ names)
          then (s, w, Ret tt)
          else
            let '(removePatch, restorePatch) := patch (Containers (w_spec o)) path in
            let b := patch_Marshal restorePatch in
            let spec := AddMeshContainer Image envoyConfig (w_spec o) (nodeID_of o) in
            let ps := [replace (spec_path path) (VSpec spec); replace restore_path (VStr b)] in
            match wPatch w workload (ps ++ removePatch) with
            | (w, Fail e) => (s, w, Fail e)
            | (w, Panic) => (s, w, Panic)
            | (w, Ret _) => (s, w, rollout)
            end
      end
  end.

(** [InjectVPNSidecar].  The copy the probes are read from shares its containers with
    the specification that is edited; for a pod the loop that clears the probes
    works on copies. *)
Definition InjectVPNSidecar (w : W) (workload : string) (c : PodRouteConfig) (rollout : outcome unit)
  : W * outcome unit :=
  match wGet w workload with
  | Fail e => (w, Fail e)
  | Panic => (w, Panic)
  | Ret o =>
      let path := template_path (w_controller o) in
      let spec := AddContainer Image (w_spec o) c in
      if negb (w_controller o) then
        let pod := with_containers o (MkPodSpec (Containers spec) "") in
        match CreateAfterDeletePod w workload pod with
        | (w, Ret _) => (w, rollout)
        | r => r
        end
      else
        let '(removePatch, restorePatch) := patch (alias_AddContainer Image (Containers (w_spec o)) c) path in
        let b := String.list_byte_of_string (patch_Marshal restorePatch) in
        let ps := [replace (spec_path path) (VSpec spec); replace restore_path (VBytes b)] in
        match wPatch w workload (ps ++ removePatch) with
        | (w, Ret _) => (w, rollout)
        | r => r
        end
  end.

Definition UnPatchContainer (s : S) (w : W) (workload localTunIPv4 : string) : S * W * outcome unit :=
  match wGet w workload with
  | Fail e => (s, w, Fail e)
  | Panic => (s, w, Panic)
  | Ret o =>
      let path := template_path (w_controller o) in
      match removeEnvoyConfig s (nodeID_of o) localTunIPv4 with
      | (s, Fail e) => (s, w, Fail e)
      | (s, Panic) => (s, w, Panic)
      | (s, Ret empty) =>
          let spec := RemoveContainers (w_spec o) in
          let patchStr := default "" (w_annotations o !! KubeVPNRestorePatchKey) in
          match (if String.eqb patchStr "" then Some spec
                 else ps ← patch_Unmarshal patchStr; Some (fromPatchToProbe spec path ps)) with
          | None => (s, w, Fail (Errorf "unmarshal json patch failed"))
          | Some spec =>
              if (empty : bool) then
                if negb (w_controller o) then
                  let pod := MkWorkload (w_resource o) (w_name o) (w_controller o) spec
                               (delete KubeVPNRestorePatchKey (w_annotations o)) in
                  let '(w, r) := CreateAfterDeletePod w workload pod in (s, w, r)
                else
                  let '(w, r) := wPatch w workload
                    [replace (spec_path path) (VSpec spec); replace restore_path (VStr "")] in
                  (s, w, r)
              else (s, w, Ret tt)
          end
      end
  end.

(** [CreateRemoteInboundPod]: the workloads in turn, until one fails. *)
Fixpoint CreateRemoteInboundPod (s : S) (w : W) (workloads : list string) (c : PodRouteConfig)
    (headers : option (gmap string string)) (rollout : string → outcome unit) : S * W * outcome unit :=
  match workloads with
  | [] => (s, w, Ret tt)
  | workload :: workloads =>
      let '(s, w, r) :=
        if negb (size (default ∅ headers) =? 0)
        then InjectVPNAndEnvoySidecar s w workload c headers (rollout workload)
        else let '(w, r) := InjectVPNSidecar w workload c (rollout workload) in (s, w, r) in
      match r with
      | Ret _ => CreateRemoteInboundPod s w workloads c headers rollout
      | r => (s, w, r)
      end
  end.

(** [removeInboundContainer]: a pod is deleted and then patched nevertheless. *)
Definition removeInboundContainer (w : W) (workload : string) : W * outcome unit :=
  match wGet w workload with
  | Fail e => (w, Fail e)
  | Panic => (w, Panic)
  | Ret o =>
      let path := template_path (w_controller o) in
      let ps := [replace (spec_path path) (VSpec (RemoveContainer (w_spec o)))] in
      if negb (w_controller o) then
        match wDelete w workload with
        | (w, Ret _) => wPatch w workload ps
        | r => r
        end
      else wPatch w workload ps
  end.
End Handlers.

(** ** Lemmas: paths *)

Lemma slash_path_inj l l' :
  l ≠ [] → l' ≠ [] → Forall (λ w, Count "/" w = 0) l → Forall (λ w, Count "/" w = 0) l' →
  slash_path l = slash_path l' → l = l'.
Proof.
  intros Hl Hl' Hc Hc' [= E]. rewrite <-(Split_Join "/" l), <-(Split_Join "/" l') by done. by rewrite E.
Qed.

Lemma template_path_words b : Forall (λ w, Count "/" w = 0) (template_path b).
Proof. destruct b; repeat constructor. Qed.

Lemma probe_path_words b i k :
  Count "/" k = 0 →
  Forall (λ w, Count "/" w = 0) (template_path b ++ ["spec"; "containers"; Itoa (Z.of_nat i); k]%string).
Proof.
  intros Hk. apply Forall_app. split; [apply template_path_words|].
  repeat constructor; [|done]. apply Count_Itoa; [done|lia].
Qed.

(** Different containers and different kinds of probe have different paths. *)
Lemma probe_path_inj b i j k k' :
  Count "/" k = 0 → Count "/" k' = 0 →
  probe_path (template_path b) i k = probe_path (template_path b) j k' → i = j ∧ k = k'.
Proof.
  intros Hk Hk' E. apply slash_path_inj in E; [|by destruct b|by destruct b|by apply probe_path_words|by apply probe_path_words].
  apply app_inv_head in E. injection E as E <-. split; [|done].
  unfold Itoa in E. apply (inj pretty) in E. lia.
Qed.

Lemma probe_path_eqb b i j k k' :
  Count "/" k = 0 → Count "/" k' = 0 →
  String.eqb (probe_path (template_path b) i k) (probe_path (template_path b) j k') =
    (i =? j) && String.eqb k k'.
Proof.
  intros Hk Hk'. destruct (String.eqb_spec (probe_path (template_path b) i k) (probe_path (template_path b) j k')) as [E|E].
  - apply probe_path_inj in E as [-> ->]; [|done..]. by rewrite Nat.eqb_refl, String.eqb_refl.
  - destruct (Nat.eqb_spec i j) as [->|]; [|done]. destruct (String.eqb_spec k k') as [->|]; [|done].
    by destruct E.
Qed.

(** ** Lemmas: applying patches to containers *)

Section ProbeOps.
Context {Probe : Type} `{JC : JsonCodec Probe}.
Abbreviation Container := (Container Probe).

(** Three operations per container, with given values. *)
Definition probe_ops (vr vl vs : Container → value Probe) (path : list string) (i : nat) (c : Container)
  : list (P Probe) :=
  [replace (probe_path path i readiness) (vr c); replace (probe_path path i liveness) (vl c);
   replace (probe_path path i startup) (vs c)].

Definition with_probes (c : Container) (r l s : option Probe) : Container :=
  set_startup (set_liveness (set_readiness c r) l) s.

Lemma set_probe_ops vr vl vs b i j c d :
  fold_left (set_probe (template_path b) i) (probe_ops vr vl vs (template_path b) j d) c =
  if j =? i then with_probes c (probe_of (vr d)) (probe_of (vl d)) (probe_of (vs d)) else c.
Proof.
  unfold probe_ops. cbn [fold_left]. unfold set_probe, replace. cbn [Path Value].
  rewrite !probe_path_eqb by done. by destruct (j =? i).
Qed.

Lemma fold_probe_ops vr vl vs b cs k i c :
  fold_left (set_probe (template_path b) i)
    (mjoin (imap (λ j d, probe_ops vr vl vs (template_path b) (k + j) d) cs)) c =
  match (if k <=? i then cs !! (i - k) else None) with
  | Some d => with_probes c (probe_of (vr d)) (probe_of (vl d)) (probe_of (vs d))
  | None => c
  end.
Proof.
  revert k c. induction cs as [|d cs IH]; intros k c; [by destruct (k <=? i)|].
  rewrite imap_cons. cbn [mjoin list_join]. rewrite fold_left_app, Nat.add_0_r, set_probe_ops.
  rewrite (imap_ext _ (λ j d, probe_ops vr vl vs (template_path b) (Datatypes.S k + j) d))
    by (intros; cbn; f_equal; lia).
  rewrite IH. destruct (Nat.eqb_spec k i) as [->|Hne].
  - rewrite (proj2 (Nat.leb_gt (Datatypes.S i) i)) by lia.
    by rewrite (proj2 (Nat.leb_le i i)), Nat.sub_diag by lia.
  - destruct (Nat.leb_spec k i).
    + rewrite (proj2 (Nat.leb_le (Datatypes.S k) i)) by lia.
      by replace (i - k) with (Datatypes.S (i - Datatypes.S k)) by lia.
    + by rewrite (proj2 (Nat.leb_gt (Datatypes.S k) i)) by lia.
Qed.

(** The whole patch on a list of containers that starts with one for each of [cs]. *)
Lemma imap_probe_ops vr vl vs b cs ds :
  length cs = length ds →
  imap (λ i c, fold_left (set_probe (template_path b) i)
          (mjoin (imap (probe_ops vr vl vs (template_path b)) ds)) c) cs =
  zip_with (λ c d, with_probes c (probe_of (vr d)) (probe_of (vl d)) (probe_of (vs d))) cs ds.
Proof.
  intros Hl. apply list_eq. intros i. rewrite list_lookup_imap, lookup_zip_with.
  destruct (cs !! i) as [c|] eqn:Ec; [|done]. cbn. apply lookup_lt_Some in Ec.
  pose proof (fold_probe_ops vr vl vs b ds 0 i c) as E. cbn [Nat.add Nat.leb] in E.
  rewrite Nat.sub_0_r in E.
  destruct (ds !! i) as [d|] eqn:Ed; [|apply lookup_ge_None in Ed; lia]. cbn.
  f_equal. exact E.
Qed.

Definition strip (c : Container) : Container := with_probes c None None None.

Lemma clear_probes_set b p i (c : Container) :
  Value p = VNil → clear_probes (template_path b) p i c = set_probe (template_path b) i c p.
Proof. intros E. unfold clear_probes, set_probe. by rewrite E. Qed.

Lemma apply_nil_ops ps (o : Workload Probe) :
  Forall (λ p, Value p = VNil) ps →
  apply_patch o ps = with_containers o (MkPodSpec
    (imap (λ i c, fold_left (set_probe (template_path (w_controller o)) i) ps c) (Containers (w_spec o)))
    (PriorityClassName (w_spec o))).
Proof.
  intros H. revert o. induction H as [|p ps Hp _ IH]; intros o.
  - cbn. destruct o as [? ? ? [cs ?] ?]. cbn. unfold with_containers. cbn. do 2 f_equal.
    symmetry. apply list_eq. intros i. rewrite list_lookup_imap. by destruct (cs !! i).
  - unfold apply_patch in *. cbn [fold_left]. rewrite IH. unfold apply_op. rewrite Hp. unfold with_containers. cbn.
    do 2 f_equal. apply list_eq. intros i. rewrite !list_lookup_imap.
    destruct (Containers (w_spec o) !! i); [|done]. cbn. by rewrite clear_probes_set.
Qed.

Lemma container_remove_ops : container_remove (Probe := Probe) = probe_ops (λ _, VNil) (λ _, VNil) (λ _, VNil).
Proof. done. Qed.
Lemma container_restore_ops :
  container_restore = probe_ops (λ c, VStr (probe_text (c_ReadinessProbe c)))
    (λ c, VStr (probe_text (c_LivenessProbe c))) (λ c, VStr (probe_text (c_StartupProbe c))).
Proof. done. Qed.

Lemma Forall_probe_ops (Q : P Probe → Prop) vr vl vs path cs :
  (∀ pa c, Q (replace pa (vr c)) ∧ Q (replace pa (vl c)) ∧ Q (replace pa (vs c))) →
  Forall Q (mjoin (imap (probe_ops vr vl vs path) cs)).
Proof.
  intros HQ. apply Forall_join. apply Forall_forall. intros l (i & c & -> & _)%elem_of_lookup_imap.
  destruct (HQ (probe_path path i readiness) c) as (? & _ & _).
  destruct (HQ (probe_path path i liveness) c) as (_ & ? & _).
  destruct (HQ (probe_path path i startup) c) as (_ & _ & ?).
  repeat constructor; done.
Qed.

Lemma length_probe_ops vr vl vs path cs :
  length (mjoin (imap (probe_ops vr vl vs path) cs)) = 3 * length cs.
Proof.
  generalize path. clear path. intros path.
  assert (∀ k, length (mjoin (imap (λ i c, probe_ops vr vl vs path (k + i) c) cs)) = 3 * length cs) as H.
  { induction cs as [|c cs IH]; intros k; [done|]. rewrite imap_cons. cbn [mjoin list_join length].
    rewrite length_app, (imap_ext _ (λ j d, probe_ops vr vl vs path (Datatypes.S k + j) d))
      by (intros; cbn; f_equal; lia).
    rewrite IH. cbn [length probe_ops]. lia. }
  exact (H 0).
Qed.

Context `{!JsonLaws Probe}.

Lemma probe_of_text (o : option Probe) : probe_of (VStr (probe_text o)) = o.
Proof.
  destruct o as [p|]; [|done]. cbn. pose proof (probe_text_nonempty p).
  destruct (String.eqb_spec (probe_Marshal p) ""); [done|]. apply probe_roundtrip.
Qed.

Lemma with_probes_strip c : with_probes (strip c) (c_ReadinessProbe c) (c_LivenessProbe c) (c_StartupProbe c) = c.
Proof. by destruct c. Qed.

(** Restoring what was stripped. *)
Lemma fromPatchToProbe_restore cs b prio :
  fromPatchToProbe (MkPodSpec (strip <$> cs) prio) (template_path b)
    (snd (patch cs (template_path b))) = MkPodSpec cs prio.
Proof.
  unfold fromPatchToProbe, patch. cbn [snd Containers PriorityClassName].
  rewrite container_restore_ops, length_probe_ops, length_fmap, Nat.eqb_refl. cbn [negb]. f_equal.
  rewrite imap_probe_ops by (by rewrite length_fmap). apply list_eq. intros i.
  rewrite lookup_zip_with, list_lookup_fmap. destruct (cs !! i) as [c|]; [|done]. cbn -[probe_of].
  by rewrite !probe_of_text, with_probes_strip.
Qed.
End ProbeOps.

(** ** Lemmas: handlers *)

Section Laws.
Context {Probe : Type} `{JC : JsonCodec Probe} `{!JsonLaws Probe}.
Context {W : Type} `{WI : WorkloadInterface W Probe} `{!WorkloadLaws W Probe}.
Context {S : Type} `{API : ConfigMapInterface S} `{!ConfigMapLaws S} `{Y : YamlCodec} `{!YamlLaws}.
Context (Image envoyConfig : string).
Abbreviation inject := (InjectVPNAndEnvoySidecar Image envoyConfig).

(** A pod template without side-cars. *)
Definition unproxied (o : Workload Probe) : Prop :=
  Containers (w_spec o) ≠ [] ∧ Forall (λ c, is_mesh_sidecar c = false) (Containers (w_spec o)).

Lemma RemoveContainers_none cs prio extra :
  Forall (λ c, is_mesh_sidecar (Probe := Probe) c = false) cs →
  Forall (λ c, is_mesh_sidecar c = true) extra →
  RemoveContainers (MkPodSpec (cs ++ extra) prio) = MkPodSpec cs prio.
Proof.
  intros Hcs Hex. unfold RemoveContainers. cbn [Containers PriorityClassName]. f_equal.
  rewrite remove_loop_app, remove_loop_id by (intros c Hc; by apply (proj1 (List.Forall_forall _ _) Hcs)).
  rewrite remove_loop_filter. induction Hex as [|c extra Hc _ IH]; [by rewrite app_nil_r|]. cbn.
  by rewrite Hc.
Qed.

Lemma strip_sidecar (c : Container Probe) : is_mesh_sidecar (strip c) = is_mesh_sidecar c.
Proof. done. Qed.

(** The object after the injection patch: [extra] are the added containers. *)
Definition injected (o : Workload Probe) (extra : list (Container Probe)) (t : string) : Workload Probe :=
  MkWorkload (w_resource o) (w_name o) (w_controller o)
    (MkPodSpec ((strip <$> Containers (w_spec o)) ++ extra) (PriorityClassName (w_spec o)))
    (<[KubeVPNRestorePatchKey := t]> (w_annotations o)).

Lemma spec_path_op (o : Workload Probe) spec :
  apply_op o (replace (spec_path (template_path (w_controller o))) (VSpec spec)) = with_containers o spec.
Proof. unfold apply_op, replace. cbn [Path Value]. by rewrite String.eqb_refl. Qed.

Lemma restore_path_op (o : Workload Probe) v t :
  v = VStr t ∨ (∃ b, v = VBytes b ∧ t = EncodeToString b) →
  apply_op o (replace restore_path v) =
    MkWorkload (w_resource o) (w_name o) (w_controller o) (w_spec o)
      (<[KubeVPNRestorePatchKey := t]> (w_annotations o)).
Proof. by intros [->|(b & -> & ->)]. Qed.

(** The three parts of an injection patch. *)
Lemma apply_injection o (cs : list (Container Probe)) extra prio v t :
  v = VStr t ∨ (∃ b, v = VBytes b ∧ t = EncodeToString b) →
  apply_patch o ([replace (spec_path (template_path (w_controller o))) (VSpec (MkPodSpec (cs ++ extra) prio));
                  replace restore_path v] ++ fst (patch cs (template_path (w_controller o)))) =
    MkWorkload (w_resource o) (w_name o) (w_controller o) (MkPodSpec ((strip <$> cs) ++ extra) prio)
      (<[KubeVPNRestorePatchKey := t]> (w_annotations o)).
Proof.
  intros Hv. unfold apply_patch. rewrite fold_left_app. cbn [fold_left].
  rewrite spec_path_op, (restore_path_op _ v t) by done. unfold with_containers. cbn [w_resource w_name w_controller w_spec w_annotations].
  match goal with |- fold_left _ ?ps ?o1 = ?r => change (apply_patch o1 ps = r) end.
  rewrite apply_nil_ops.
  2:{ unfold patch. cbn [fst]. rewrite container_remove_ops. by apply Forall_probe_ops. }
  unfold with_containers. cbn [w_resource w_name w_controller w_spec w_annotations Containers PriorityClassName].
  do 2 f_equal. unfold patch. cbn [fst]. rewrite container_remove_ops.
  apply list_eq. intros i. rewrite list_lookup_imap.
  pose proof (fold_probe_ops (Probe := Probe) (λ _, VNil) (λ _, VNil) (λ _, VNil) (w_controller o) cs 0 i) as Hf.
  cbn [Nat.leb] in Hf. rewrite Nat.sub_0_r in Hf.
  destruct (decide (i < length cs)) as [Hi|Hi].
  - rewrite !lookup_app_l by (rewrite ?length_fmap; lia). rewrite list_lookup_fmap.
    destruct (lookup_lt_is_Some_2 cs i Hi) as [c Hc]. rewrite Hc in *. cbn. f_equal. exact (Hf c).
  - rewrite !lookup_app_r by (rewrite ?length_fmap; lia). rewrite length_fmap.
    destruct (extra !! (i - length cs)) as [c|]; [|done]. cbn. f_equal.
    rewrite lookup_ge_None_2 in Hf by lia. exact (Hf c).
Qed.

Lemma patch_restore_text (cs : list (Container Probe)) path :
  cs ≠ [] → Forall (λ p, ∃ s, Value p = VStr s) (snd (patch cs path)) ∧ snd (patch cs path) ≠ [].
Proof.
  intros Hne. unfold patch. cbn [snd]. rewrite container_restore_ops. split.
  - apply Forall_probe_ops. intros pa c. split_and!; by eexists.
  - intros E. apply (f_equal length) in E. rewrite length_probe_ops in E. destruct cs; [done|cbn in E; lia].
Qed.

Lemma unproxied_names o n :
  unproxied o → n ∈ [ContainerSidecarEnvoyProxy; ContainerSidecarVPN] → n ∉ (c_Name <$> Containers (w_spec o)).
Proof.
  intros [_ Hf] Hn (c & -> & Hc)%list_elem_of_fmap. rewrite Forall_forall in Hf.
  specialize (Hf c Hc). unfold is_mesh_sidecar in Hf. by rewrite bool_decide_true in Hf.
Qed.

(** What a successful injection does, for a workload without side-cars. *)
Lemma inject_Ret s w wl c headers o s1 w1 :
  wGet w wl = Ret o → unproxied o → inject s w wl c headers (Ret tt) = (s1, w1, Ret tt) →
  (∃ port, addEnvoyConfig s (nodeID_of o) c headers port = (s1, Ret tt)) ∧
  wGet w1 wl = Ret (injected o [mesh_vpn_container Image; envoy_container Image envoyConfig (nodeID_of o)]
    (patch_Marshal (snd (patch (Containers (w_spec o)) (template_path (w_controller o)))))).
Proof.
  intros Hg Hun Hin. unfold InjectVPNAndEnvoySidecar in Hin. rewrite Hg in Hin.
  destruct (addEnvoyConfig s _ _ _ _) as [s' [[]| |]] eqn:Ea; [|done..].
  rewrite bool_decide_false in Hin by (apply unproxied_names; set_solver). cbn [andb] in Hin.
  destruct (patch (Containers (w_spec o)) (template_path (w_controller o))) as [rm rs] eqn:Ep.
  destruct (wPatch w wl _) as [w' [[]| |]] eqn:Ew; [|done..]. injection Hin as <- <-.
  split; [by eexists|]. apply (wpatch_ok _ _ _ _ o Hg) in Ew. rewrite Ew. f_equal.
  unfold AddMeshContainer. destruct Hun as [Hne Hf].
  pose proof (RemoveContainers_none (Containers (w_spec o)) (PriorityClassName (w_spec o)) [] Hf ltac:(constructor)) as Er.
  rewrite app_nil_r in Er.
  assert (MkPodSpec (Containers (w_spec o)) (PriorityClassName (w_spec o)) = w_spec o) as Eta by (by destruct (w_spec o)).
  rewrite Eta in Er. rewrite Er.
  replace rm with (fst (patch (Containers (w_spec o)) (template_path (w_controller o)))) by (by rewrite Ep).
  rewrite (apply_injection o (Containers (w_spec o)) _ _ _ (patch_Marshal rs)) by (by left). done.
Qed.

Lemma leave_injected s w wl ip o extra s2 w2 :
  w_controller o = true → unproxied o → Forall (λ c, is_mesh_sidecar c = true) extra →
  wGet w wl = Ret (injected o extra (patch_Marshal (snd (patch (Containers (w_spec o)) (template_path (w_controller o)))))) →
  removeEnvoyConfig s (nodeID_of o) ip = (s2, Ret true) →
  ∀ s', UnPatchContainer s w wl ip = (s', w2, Ret tt) →
  ∃ o2, wGet w2 wl = Ret o2 ∧ w_spec o2 = w_spec o ∧
    w_annotations o2 = <[KubeVPNRestorePatchKey := ""%string]> (w_annotations o).
Proof.
  intros Hctl [Hne Hf] Hex Hg Hrm s' Hout.
  destruct (patch_restore_text (Containers (w_spec o)) (template_path (w_controller o)) Hne) as [Hstr Hnn].
  destruct (patch_bracket _ Hnn) as [t' Et'].
  set (t := patch_Marshal _) in *. set (oi := injected o extra t) in *.
  unfold UnPatchContainer in Hout. rewrite Hg in Hout.
  change (nodeID_of oi) with (nodeID_of o) in Hout. change (w_controller oi) with (w_controller o) in Hout.
  change (w_spec oi) with (MkPodSpec ((strip <$> Containers (w_spec o)) ++ extra)
    (PriorityClassName (w_spec o))) in Hout.
  change (w_annotations oi) with (<[KubeVPNRestorePatchKey := t]> (w_annotations o)) in Hout.
  rewrite Hrm, lookup_insert_eq in Hout. cbn [default from_option id] in Hout.
  rewrite RemoveContainers_none in Hout; [|by apply Forall_fmap|done].
  destruct (String.eqb_spec t "") as [E|_] in Hout; [by rewrite E in Et'|].
  unfold t in Hout. rewrite patch_roundtrip in Hout by done.
  cbn [mbind option_bind] in Hout. rewrite fromPatchToProbe_restore, Hctl in Hout. cbn [negb] in Hout.
  destruct (wPatch w wl _) as [w' r] eqn:Ew. injection Hout as <- <- ->.
  apply (wpatch_ok _ _ _ _ _ Hg) in Ew. rewrite Ew. eexists. split; [done|].
  unfold apply_patch. cbn [fold_left].
  assert (true = w_controller oi) as Hoi by done. rewrite Hoi.
  rewrite spec_path_op, (restore_path_op _ _ "") by (by left). cbn [w_spec w_annotations with_containers].
  split; [by destruct (w_spec o)|].
  change (w_annotations oi) with (<[KubeVPNRestorePatchKey := t]> (w_annotations o)).
  apply insert_insert_eq.
Qed.

(** The base64 text of something that starts with a bracket starts with a W. *)
Lemma base64_bracket s : ∃ r, EncodeToString (String.list_byte_of_string (String "[" s)) = String "W" r.
Proof.
  change (String.list_byte_of_string (String "[" s)) with (x5b :: String.list_byte_of_string s).
  assert (∀ v, (91 * 65536 ≤ v < 92 * 65536)%Z → enc_char (sextet v 18) = "W"%char) as Hw.
  { intros v Hv. unfold sextet. rewrite Z.shiftr_div_pow2 by lia.
    assert (v `div` 2 ^ 18 = 22)%Z as -> by (Z.to_euclidean_division_equations; lia). done. }
  destruct (String.list_byte_of_string s) as [|b [|c l]]; cbn [EncodeToString].
  - eexists. rewrite Hw; [done|]. rewrite Z.shiftl_mul_pow2 by lia. cbn. lia.
  - eexists. rewrite Hw; [done|]. rewrite !Z.shiftl_mul_pow2 by lia. pose proof (b2z_range b). cbn [b2z]. 
    change (b2z x5b) with 91%Z. lia.
  - eexists. rewrite Hw; [done|]. rewrite !Z.shiftl_mul_pow2 by lia.
    pose proof (b2z_range b). pose proof (b2z_range c). change (b2z x5b) with 91%Z. lia.
Qed.

(** The aliased array keeps its length. *)
Lemma length_shift_left i len (arr : list (Container Probe)) :
  i < len → len ≤ length arr → length (shift_left i len arr) = length arr.
Proof. intros. unfold shift_left. rewrite !length_app, !length_take, !length_drop. lia. Qed.

Lemma alias_remove_length fuel i len (arr : list (Container Probe)) :
  len ≤ length arr → length (fst (alias_remove fuel i len arr)) = length arr.
Proof.
  revert i len arr. induction fuel as [|fuel IH]; intros i len arr Hl; [done|]. cbn [alias_remove].
  destruct (Nat.ltb_spec i len); [|done]. destruct (arr !! i) as [c|]; [|done].
  destruct (is_vpn c); [|by apply IH]. rewrite IH by (rewrite length_shift_left; lia).
  by apply length_shift_left.
Qed.

Lemma alias_AddContainer_nonempty c (cs : list (Container Probe)) :
  cs ≠ [] → alias_AddContainer Image cs c ≠ [].
Proof.
  intros Hne E. apply (f_equal length) in E. unfold alias_AddContainer in E.
  pose proof (alias_remove_length (length cs) 0 (length cs) cs (le_n _)) as Hl.
  destruct (alias_remove _ _ _ _) as [arr len]. rewrite length_insert in E. cbn in Hl, E.
  destruct cs; [done|]. cbn in *. lia.
Qed.

Lemma set_probe_name path i (c : Container Probe) p : c_Name (set_probe path i c p) = c_Name c.
Proof. unfold set_probe. by repeat case_match. Qed.

Lemma fold_set_probe_name path i ps (c : Container Probe) :
  c_Name (fold_left (set_probe path i) ps c) = c_Name c.
Proof.
  revert c. induction ps as [|p ps IH]; intros c; [done|]. cbn [fold_left].
  by rewrite IH, set_probe_name.
Qed.

(** Recreating a pod reports success when the old pod could not be deleted: it still
    exists and runs, which is what the loop takes for the end of its work. *)
Lemma recreate_masks_failed_delete w n (o : Workload Probe) e :
  wDelete w n = (w, Fail e) → wCreate w n o = (w, Fail AlreadyExists) → wRunning w n = true →
  CreateAfterDeletePod w n o = (w, Ret tt).
Proof.
  intros Hd Hc Hr. unfold CreateAfterDeletePod. rewrite Hd. cbn [create_loop]. by rewrite Hc, Hr.
Qed.

(** ** Properties *)

(** C24. Proxying a workload with headers and leaving it again restores it: for a
    workload with a pod template that nobody proxies and that has no side-car, after
    a successful injection its containers are the old ones without their probes
    followed by the two side-cars; when the client then leaves successfully, the pod
    template is exactly what it was, the probes of every container included, and the
    annotation is empty. *)
Theorem mesh_leave_restores s w o wl c headers s1 w1 s2 w2 cm v
  (Hget : wGet w wl = Ret o) (Hctl : w_controller o = true) (Hun : unproxied o)
  (Hcm : cmGet s N = Ret cm) (Hv : virtuals cm = Ret v)
  (Hnd : NoDup (Uid <$> v)) (Hnew : nodeID_of o ∉ (Uid <$> v))
  (Hin : inject s w wl c headers (Ret tt) = (s1, w1, Ret tt))
  (Hout : UnPatchContainer s1 w1 wl (pr_v4 c) = (s2, w2, Ret tt)) :
  (∃ o1, wGet w1 wl = Ret o1 ∧
     Containers (w_spec o1) = (strip <$> Containers (w_spec o)) ++
       [mesh_vpn_container Image; envoy_container Image envoyConfig (nodeID_of o)]) ∧
  ∃ o2, wGet w2 wl = Ret o2 ∧ w_spec o2 = w_spec o ∧
    w_annotations o2 = <[KubeVPNRestorePatchKey := ""%string]> (w_annotations o).
Proof.
  destruct (inject_Ret _ _ _ _ _ _ _ _ Hget Hun Hin) as [[port Hadd] Hg1].
  split; [eexists; by split; [exact Hg1|]|].
  destruct (removeEnvoyConfig s1 (nodeID_of o) (pr_v4 c)) as [s3 r] eqn:Hrm.
  assert (∃ b, r = Ret b) as [b ->].
  { unfold UnPatchContainer in Hout. rewrite Hg1 in Hout.
    change (nodeID_of (injected o _ _)) with (nodeID_of o) in Hout.
    rewrite Hrm in Hout. destruct r; [by eexists|done..]. }
  apply addEnvoyConfig_Ret in Hadd as (cm0 & cm1 & v0 & v1 & Hc0 & Hv0 & Ha & Hc1 & Hv1 & _ & _).
  rewrite Hcm in Hc0. injection Hc0 as <-. rewrite Hv in Hv0. injection Hv0 as <-.
  pose proof Hrm as Hrm'.
  eapply removeEnvoyConfig_Ret in Hrm' as (cm2 & v1' & v2 & Hv1' & Hr & _); [|done].
  rewrite Hv1 in Hv1'. injection Hv1' as <-.
  assert (fresh_client (nodeID_of o) c v) as Hfresh.
  { split; [exact Hnd|]. intros x Hx Hu. destruct Hnew. apply list_elem_of_fmap. by exists x. }
  rewrite (add_remove_fresh _ _ _ _ _ _ Hfresh Ha) in Hr.
  rewrite bool_decide_false in Hr by done. injection Hr as _ <-.
  eapply leave_injected; [done|done| |exact Hg1|exact Hrm|exact Hout].
  by repeat constructor.
Qed.

(** Proxying without headers cannot be undone: [InjectVPNSidecar] stores the
    restore patch as a byte slice, which is sent as base64; after it has succeeded on
    a workload with a pod template, no [UnPatchContainer] of any client succeeds, and
    none changes the workload: the side-car stays and the probes are lost. *)
Theorem exchange_leave_fails w o wl c w1
  (Hget : wGet w wl = Ret o) (Hctl : w_controller o = true) (Hne : Containers (w_spec o) ≠ [])
  (Hin : InjectVPNSidecar Image w wl c (Ret tt) = (w1, Ret tt)) :
  (∃ o1, wGet w1 wl = Ret o1 ∧ ContainerSidecarVPN ∈ (c_Name <$> Containers (w_spec o1))) ∧
  ∀ (s : S) ip, let '(_, w2, r) := UnPatchContainer s w1 wl ip in w2 = w1 ∧ r ≠ Ret tt.
Proof.
  unfold InjectVPNSidecar in Hin. rewrite Hget, Hctl in Hin. cbn [negb] in Hin.
  set (al := alias_AddContainer Image (Containers (w_spec o)) c) in *.
  destruct (patch al (template_path true)) as [rm rs] eqn:Ep.
  destruct (wPatch w wl _) as [w' r] eqn:Ew. assert (w' = w1 ∧ r = Ret tt) as [-> ->] by (by destruct r as [[]| |]; simplify_eq).
  clear Hin. apply (wpatch_ok _ _ _ _ o Hget) in Ew.
  assert (al ≠ []) as Hal by (by apply alias_AddContainer_nonempty).
  destruct (patch_restore_text al (template_path true) Hal) as [_ Hnn]. rewrite Ep in Hnn. cbn in Hnn.
  destruct (patch_bracket rs Hnn) as [t Et]. destruct (base64_bracket t) as [t' Et'].
  assert (Forall (λ p, Value p = VNil) rm) as Hrm.
  { replace rm with (fst (patch al (template_path true))) by (by rewrite Ep).
    unfold patch. cbn [fst]. rewrite container_remove_ops. by apply Forall_probe_ops. }
  unfold apply_patch in Ew. rewrite fold_left_app in Ew. cbn [fold_left] in Ew.
  rewrite <-Hctl, spec_path_op, Et in Ew.
  rewrite (restore_path_op _ _ (String "W" t')) in Ew by (right; eexists; split; [done|by rewrite Et']).
  match type of Ew with context [fold_left _ rm ?o1] => change (fold_left apply_op rm o1) with (apply_patch o1 rm) in Ew end.
  rewrite apply_nil_ops in Ew by done. unfold with_containers in Ew.
  cbn [w_resource w_name w_controller w_spec w_annotations] in Ew.
  match type of Ew with wGet w1 wl = Ret ?o1 => set (oi := o1) in Ew end. split.
  - exists oi. split; [done|]. unfold oi. cbn [w_spec Containers]. unfold AddContainer. cbn [Containers].
    rewrite imap_app, fmap_app. apply elem_of_app. right. cbn. rewrite fold_set_probe_name. by left.
  - intros s ip. unfold UnPatchContainer. rewrite Ew.
    change (w_annotations oi) with (<[KubeVPNRestorePatchKey := String "W" t']> (w_annotations o)).
    destruct (removeEnvoyConfig s (nodeID_of oi) ip) as [s' [b| |]]; [|done..].
    rewrite lookup_insert_eq. cbn [default from_option id]. cbn [String.eqb]. rewrite patch_not_json. done.
Qed.
End Laws.

(** ** Instances, and the properties on an example *)

Definition op_text (p : P string) : string * string * string :=
  (Op p, Path p, match Value p with VStr s => s | _ => ""%string end).
Definition text_op (t : string * string * string) : P string := MkP t.1.1 t.1.2 (VStr t.2).

Definition decode_ops (c : positive) : option (list (string * string * string)) := decode c.

(** Probes are written in braces, patches in brackets followed by the bits of a code. *)
#[export] Instance text_codec : JsonCodec string := {
  probe_Marshal p := String "{" p;
  probe_Unmarshal s := match s with String a p => if Ascii.eqb a "{" then Some p else None | _ => None end;
  patch_Marshal ps := String "[" (bits_text (encode (op_text <$> ps)));
  patch_Unmarshal s := match s with
    | String a t => if Ascii.eqb a "[" then map text_op <$> (text_bits t ≫= decode_ops) else None
    | _ => None end }.

#[export] Instance text_laws : JsonLaws string.
Proof.
  split; [done|done| |by eexists|done].
  intros ps Hps. unfold patch_Unmarshal, patch_Marshal, text_codec. cbn [Ascii.eqb Bool.eqb].
  rewrite text_bits_text. cbn [mbind option_bind]. unfold decode_ops. rewrite decode_encode. cbn [fmap option_fmap option_map].
  f_equal. induction Hps as [|p ps [s Hs] _ IH]; [done|]. cbn. rewrite IH. f_equal.
  destruct p as [o pa v]. cbn in Hs. by subst v.
Qed.

Abbreviation memW := (gmap string (Workload string)).

#[export] Instance memW_interface : WorkloadInterface memW string := {
  wGet w n := match w !! n with Some o => Ret o | None => Fail NotFound end;
  wPatch w n ps := match w !! n with
    | Some o => (<[n := apply_patch o ps]> w, Ret tt)
    | None => (w, Fail NotFound) end;
  wDelete w n := match w !! n with Some _ => (delete n w, Ret tt) | None => (w, Fail NotFound) end;
  wCreate w n o := match w !! n with Some _ => (w, Fail AlreadyExists) | None => (<[n := o]> w, Ret tt) end;
  wRunning w n := bool_decide (is_Some (w !! n)) }.

#[export] Instance memW_laws : WorkloadLaws memW string.
Proof.
  split. intros w n ps w' o. cbn. destruct (w !! n) as [o'|]; [|done]. intros [= <-] [= <-].
  by rewrite lookup_insert_eq.
Qed.

Definition example_container (name : string) (probe : string) : Container string :=
  MkContainer name "app:1" [] [] [] [] (MkResources [] []) "" None
    [MkPort "http" 0 9080 "TCP" ""] (Some probe) None (Some "slow"%string).

Definition example_workload : Workload string :=
  MkWorkload "deployments.apps" "ratings" true
    (MkPodSpec [example_container "app" "get /"; example_container "log" "exec"] "") ∅.

Definition example_w : memW := {["deployments.apps/ratings"%string := example_workload]}.

Lemma mesh_leave_restores_witness :
  ∃ s1 w1 s2 w2, InjectVPNAndEnvoySidecar "img" "cfg" (Envoy.example_store []) example_w
      "deployments.apps/ratings" example_client example_headers (Ret tt) = (s1, w1, Ret tt) ∧
    UnPatchContainer s1 w1 "deployments.apps/ratings" (pr_v4 example_client) = (s2, w2, Ret tt) ∧
    ∃ o2, wGet w2 "deployments.apps/ratings" = Ret o2 ∧ w_spec o2 = w_spec example_workload.
Proof.
  assert (match InjectVPNAndEnvoySidecar "img" "cfg" (Envoy.example_store []) example_w
      "deployments.apps/ratings" example_client example_headers (Ret tt) with
    | (s1, w1, Ret _) => snd (UnPatchContainer s1 w1 "deployments.apps/ratings" (pr_v4 example_client)) = Ret tt
    | _ => False end) as Hrun by (vm_compute; reflexivity).
  destruct (InjectVPNAndEnvoySidecar _ _ _ _ _ _ _ _) as [[s1 w1] [[]| |]] eqn:E1; [|contradiction..].
  destruct (UnPatchContainer s1 w1 _ _) as [[s2 w2] r] eqn:E2. cbn [snd] in Hrun. subst r.
  exists s1, w1, s2, w2. split; [reflexivity|split; [exact E2|]].
  pose proof (mesh_leave_restores (Probe := string) (W := memW) (S := mem) "img" "cfg" (Envoy.example_store []) example_w
    example_workload "deployments.apps/ratings" example_client example_headers s1 w1 s2 w2
    (MkConfigMap N 1 (Some {[KeyEnvoy := match yaml_Marshal [] with Ret t => t | _ => ""%string end]})) []) as H.
  destruct H as [_ (o2 & H1 & H2 & _)];
    [vm_compute; reflexivity|reflexivity| |vm_compute; reflexivity|vm_compute; reflexivity
    |constructor|intros H; inversion H|exact E1|exact E2|exists o2; split; [exact H1|exact H2]].
  split; [discriminate|]. repeat constructor.
Defined.

Lemma exchange_leave_fails_witness :
  ∃ w1, InjectVPNSidecar "img" example_w "deployments.apps/ratings" example_client (Ret tt) = (w1, Ret tt) ∧
    snd (UnPatchContainer (Envoy.example_store []) w1 "deployments.apps/ratings" "223.254.0.103") ≠ Ret tt.
Proof.
  assert (snd (InjectVPNSidecar "img" example_w "deployments.apps/ratings" example_client (Ret tt)) = Ret tt)
    as Hrun by (vm_compute; reflexivity).
  destruct (InjectVPNSidecar _ _ _ _ _) as [w1 r] eqn:E1. cbn [snd] in Hrun. subst r.
  exists w1. split; [reflexivity|].
  pose proof (exchange_leave_fails (Probe := string) (W := memW) (S := mem) "img" example_w example_workload
    "deployments.apps/ratings" example_client w1) as H.
  destruct H as [_ H]; [vm_compute; reflexivity|reflexivity|discriminate|exact E1|].
  specialize (H (Envoy.example_store []) "223.254.0.103"%string).
  destruct (UnPatchContainer _ _ _ _) as [[s2 w2] r]. exact (proj2 H).
Defined.
