(* ===== verification/Outbound.v ===== *)
(** * The traffic manager

    [createOutboundPod] of [pkg/handler/remote.go]: reuse the traffic manager of the
    namespace, or create its objects one after the other, and count this client.
    A creation error deletes what was created.  The model keeps which of the objects
    exist, the certificate in the secret and the one the webhook trusts; the answers
    of the API server are a record of inputs. *)
From Stdlib Require Import ZArith Lia Ascii.
From stdpp Require Import base countable gmap strings numbers list.
From S2P Require Import Prelude GoStrings GoNet Config KubeApi Cleaner.

(** A key pair; the certificate and its key belong together. *)
Abbreviation Cert := nat.

(** The objects called [kubevpn-traffic-manager]. *)
Record Cluster := MkCluster {
  o_label : bool;               (** the namespace's [ns] label *)
  o_ServiceAccount : bool;
  o_Role : bool;
  o_RoleBinding : bool;
  o_Service : bool;
  o_Secret : option Cert;
  o_Deployment : bool;
  o_Webhook : option Cert }.    (** its CA bundle *)

(** One run: the error of every call ([None] is success, up to an object that
    already exists), whether the deletions of a kind succeed, those at the start and
    those after an error. *)
Record OEnv := MkOEnv {
  e_get_service : option error;
  e_attachable : bool;          (** a pod of the service is found in time *)
  e_delete : kind → bool;
  e_redelete : kind → bool;
  e_get_ns : option error;
  e_update_ns : option error;
  e_sa : option error;
  e_role : option error;
  e_rolebinding : option error;
  e_service : option error;
  e_cert : outcome Cert;        (** the new key pair *)
  e_secret : option error;
  e_watch : option error;
  e_deployment : option error;
  e_ready : bool;               (** the pod becomes ready in time *)
  e_webhook : option error }.

(** Creating an object: the server's error, or that it exists. *)
Definition create (e : option error) (exists_ : bool) : outcome unit :=
  match e with
  | Some e => Fail e
  | None => if exists_ then Fail AlreadyExists else Ret tt
  end.

Definition checked (e : option error) : outcome unit := match e with Some e => Fail e | None => Ret tt end.

(** [deleteResource]: the secret is not among the objects it deletes. *)
Definition deleteResource (ok : kind → bool) (c : Cluster) : Cluster :=
  MkCluster (o_label c)
    (negb (ok KServiceAccount) && o_ServiceAccount c)
    (negb (ok KRole) && o_Role c)
    (negb (ok KRoleBinding) && o_RoleBinding c)
    (negb (ok KService) && o_Service c)
    (o_Secret c)
    (negb (ok KDeployment) && o_Deployment c)
    (if ok KWebhook then None else o_Webhook c).

(** A step of the creation: on error the rest is skipped. *)
Definition then_ (r : outcome unit) (c : Cluster) (k : Cluster → Cluster * outcome unit) : Cluster * outcome unit :=
  match r with Ret _ => k c | Fail e => (c, Fail e) | Panic => (c, Panic) end.

Definition set_label (c : Cluster) : Cluster :=
  MkCluster true (o_ServiceAccount c) (o_Role c) (o_RoleBinding c) (o_Service c) (o_Secret c)
    (o_Deployment c) (o_Webhook c).
Definition add_sa (c : Cluster) : Cluster :=
  MkCluster (o_label c) true (o_Role c) (o_RoleBinding c) (o_Service c) (o_Secret c) (o_Deployment c) (o_Webhook c).
Definition add_role (c : Cluster) : Cluster :=
  MkCluster (o_label c) (o_ServiceAccount c) true (o_RoleBinding c) (o_Service c) (o_Secret c)
    (o_Deployment c) (o_Webhook c).
Definition add_rolebinding (c : Cluster) : Cluster :=
  MkCluster (o_label c) (o_ServiceAccount c) (o_Role c) true (o_Service c) (o_Secret c)
    (o_Deployment c) (o_Webhook c).
Definition add_service (c : Cluster) : Cluster :=
  MkCluster (o_label c) (o_ServiceAccount c) (o_Role c) (o_RoleBinding c) true (o_Secret c)
    (o_Deployment c) (o_Webhook c).
Definition add_secret (k : Cert) (c : Cluster) : Cluster :=
  MkCluster (o_label c) (o_ServiceAccount c) (o_Role c) (o_RoleBinding c) (o_Service c) (Some k)
    (o_Deployment c) (o_Webhook c).
Definition add_deployment (c : Cluster) : Cluster :=
  MkCluster (o_label c) (o_ServiceAccount c) (o_Role c) (o_RoleBinding c) (o_Service c) (o_Secret c)
    true (o_Webhook c).
Definition add_webhook (k : Cert) (c : Cluster) : Cluster :=
  MkCluster (o_label c) (o_ServiceAccount c) (o_Role c) (o_RoleBinding c) (o_Service c) (o_Secret c)
    (o_Deployment c) (Some k).

(** From the secret on, with the new key pair [crt]. *)
Definition create_secret (env : OEnv) (crt : Cert) (c : Cluster) : Cluster * outcome unit :=
  match create (e_secret env) (bool_decide (is_Some (o_Secret c))) with
  | Ret _ => (add_secret crt c, Ret tt)
  | Fail AlreadyExists => (c, Ret tt)
  | r => (c, r)
  end.

Definition create_workload (env : OEnv) (crt : Cert) (c : Cluster) : Cluster * outcome unit :=
  let '(c, r) := create_secret env crt c in
  then_ r c (λ c,
  then_ (checked (e_watch env)) c (λ c,
  then_ (create (e_deployment env) (o_Deployment c)) c (λ c,
  let c := add_deployment c in
  if negb (e_ready env) then (c, Fail (Errorf "wait pod to be ready timeout"))
  else match create (e_webhook env) (bool_decide (is_Some (o_Webhook c))) with
       | Ret _ => (add_webhook crt c, Ret tt)
       | Fail Forbidden | Fail AlreadyExists => (c, Ret tt)
       | Fail e => (c, Fail (ErrorfV "failed to create MutatingWebhookConfigurations" e))
       | Panic => (c, Panic)
       end))).

(** The creation up to the reference count. *)
Definition create_objects (env : OEnv) (c : Cluster) : Cluster * outcome unit :=
  then_ (checked (e_get_ns env)) c (λ c,
  then_ (checked (e_update_ns env)) c (λ c,
  let c := set_label c in
  then_ (create (e_sa env) (o_ServiceAccount c)) c (λ c,
  let c := add_sa c in
  then_ (create (e_role env) (o_Role c)) c (λ c,
  let c := add_role c in
  then_ (create (e_rolebinding env) (o_RoleBinding c)) c (λ c,
  let c := add_rolebinding c in
  then_ (create (e_service env) (o_Service c)) c (λ c,
  let c := add_service c in
  match e_cert env with
  | Ret crt => create_workload env crt c
  | Fail e => (c, Fail e)
  | Panic => (c, Panic)
  end)))))).

Definition reuses (env : OEnv) (c : Cluster) : bool :=
  bool_decide (e_get_service env = None) && o_Service c && e_attachable env.

Section Outbound.
Context {S : Type} `{API : ConfigMapInterface S}.

Definition createOutboundPod (env : OEnv) (s : S) (c : Cluster) : S * Cluster * outcome unit :=
  if reuses env c then
    match updateRefCount s ConfigMapPodTrafficManager 1 with
    | (s, Ret _) => (s, c, Ret tt)
    | (s, Fail e) => (s, c, Fail e)
    | (s, Panic) => (s, c, Panic)
    end
  else
    let c := deleteResource (e_delete env) c in
    match create_objects env c with
    | (c, Ret _) =>
        match updateRefCount s ConfigMapPodTrafficManager 1 with
        | (s, Ret _) => (s, c, Ret tt)
        | (s, Fail e) => (s, deleteResource (e_redelete env) c, Fail e)
        | (s, Panic) => (s, c, Panic)
        end
    | (c, Fail e) => (s, deleteResource (e_redelete env) c, Fail e)
    | (c, Panic) => (s, c, Panic)
    end.
End Outbound.

(** ** The objects *)

Record ServicePort := MkServicePort { sp_Name : string; sp_Protocol : string; sp_Port : Z; sp_TargetPort : Z }.

Definition udp8422 : string := "8422-for-udp".
Definition tcp10800 : string := "10800-for-tcp".
Definition tcp9002 : string := "9002-for-envoy".
Definition tcp80 : string := "80-for-webhook".

Definition service_ports : list ServicePort :=
  [MkServicePort udp8422 "UDP" 8422 8422; MkServicePort tcp10800 "TCP" 10800 10800;
   MkServicePort tcp9002 "TCP" 9002 9002; MkServicePort tcp80 "TCP" 80 80]%string.

Record MgrContainer := MkMgr {
  mg_Name : string; mg_Command : list string; mg_Args : list string; mg_Secret : option string;
  mg_Env : list (string * string); mg_Ports : list (string * string * Z); mg_Mount : option string;
  mg_Requests : string * string; mg_Limits : string * string; mg_Privileged : bool }.

Definition nl : string := String "010" EmptyString.
Definition dq : string := String "034" EmptyString.
Definition quoted (s : string) : string := (dq +:+ s +:+ dq)%string.

Definition manager_script : string := Join nl
  [""; "sysctl -w net.ipv4.ip_forward=1"; "sysctl -w net.ipv6.conf.all.disable_ipv6=0";
   "sysctl -w net.ipv6.conf.all.forwarding=1";
   "update-alternatives --set iptables /usr/sbin/iptables-legacy";
   "iptables -F"; "ip6tables -F"; "iptables -P INPUT ACCEPT"; "ip6tables -P INPUT ACCEPT";
   "iptables -P FORWARD ACCEPT"; "ip6tables -P FORWARD ACCEPT";
   "iptables -t nat -A POSTROUTING -s ${CIDR4} -o eth0 -j MASQUERADE";
   "ip6tables -t nat -A POSTROUTING -s ${CIDR6} -o eth0 -j MASQUERADE";
   "kubevpn serve -L " +:+ quoted "tcp://:10800" +:+ " -L " +:+ quoted "tun://:8422?net=${TunIPv4}" +:+
   " -L " +:+ quoted "gtcp://:10801" +:+ " -L " +:+ quoted "gudp://:10802" +:+ " --debug=true"]%string.

(** The router's own addresses, [innerIpv4CIDR] and [innerIpv6CIDR]. *)
Definition innerIpv4CIDR : IPNet := MkIPNet RouterIP (net_Mask CIDR).
Definition innerIpv6CIDR : IPNet := MkIPNet RouterIP6 (net_Mask CIDR6).

Definition manager_containers : list MgrContainer :=
  [MkMgr ContainerSidecarVPN ["/bin/sh"; "-c"]%string [manager_script] (Some ConfigMapPodTrafficManager)
     [("CIDR4"%string, IPNet_String CIDR); ("CIDR6"%string, IPNet_String CIDR6);
      (EnvInboundPodTunIPv4, IPNet_String innerIpv4CIDR); (EnvInboundPodTunIPv6, IPNet_String innerIpv6CIDR)]
     [(udp8422, "UDP"%string, 8422%Z); (tcp10800, "TCP"%string, 10800%Z)] None
     ("500m", "512Mi")%string ("2000m", "2048Mi")%string true;
   MkMgr ContainerSidecarControlPlane ["kubevpn"]%string
     ["control-plane"; "--watchDirectoryFilename"; "/etc/envoy/envoy-config.yaml"]%string None []
     [(tcp9002, "TCP"%string, 9002%Z)] (Some "/etc/envoy"%string)
     ("100m", "128Mi")%string ("200m", "256Mi")%string false;
   MkMgr "webhook" ["kubevpn"]%string ["webhook"]%string (Some ConfigMapPodTrafficManager) []
     [(tcp80, "TCP"%string, 80%Z)] None ("100m", "128Mi")%string ("200m", "256Mi")%string false].

(** Every port of the service is a port of the deployment's pod, by name, protocol and
    number. *)
Lemma service_ports_served : ∀ p, p ∈ service_ports →
  ∃ c, c ∈ manager_containers ∧ (sp_Name p, sp_Protocol p, sp_TargetPort p) ∈ mg_Ports c.
Proof.
  intros p Hp. unfold service_ports in Hp. repeat (apply elem_of_cons in Hp as [->|Hp]).
  - eexists. split; [left|]. left.
  - eexists. split; [left|]. right. left.
  - eexists. split; [right; left|]. left.
  - eexists. split; [do 2 right; left|]. left.
  - by apply elem_of_nil in Hp.
Qed.

(** ** Lemmas *)

Lemma create_Ret e b : create e b = Ret tt ↔ e = None ∧ b = false.
Proof. destruct e, b; cbn; naive_solver. Qed.

Lemma then_Ret r c k c' : then_ r c k = (c', Ret tt) → r = Ret tt ∧ k c = (c', Ret tt).
Proof. destruct r as [[]| |]; cbn; naive_solver. Qed.

(** The secret: an old one stays. *)
Lemma create_secret_Ret env crt c c' :
  e_secret env ≠ Some AlreadyExists → create_secret env crt c = (c', Ret tt) →
  c' = match o_Secret c with Some _ => c | None => add_secret crt c end.
Proof.
  unfold create_secret, create. intros Hh. destruct (e_secret env) as [[]|]; try done.
  destruct (o_Secret c) as [k|] eqn:E.
  - rewrite bool_decide_true by (by eexists). by intros [= <-].
  - rewrite bool_decide_false by (by intros []). by intros [= <-].
Qed.

(** What a successful creation leaves. *)
Lemma create_workload_Ret env crt c c' :
  e_secret env ≠ Some AlreadyExists → create_workload env crt c = (c', Ret tt) →
  o_label c' = o_label c ∧ o_ServiceAccount c' = o_ServiceAccount c ∧ o_Role c' = o_Role c ∧
  o_RoleBinding c' = o_RoleBinding c ∧ o_Service c' = o_Service c ∧ o_Deployment c' = true ∧
  o_Secret c' = Some (default crt (o_Secret c)) ∧
  (o_Webhook c = None → e_webhook env = None → o_Webhook c' = Some crt).
Proof.
  unfold create_workload. intros Hh. destruct (create_secret env crt c) as [c1 r] eqn:Es.
  intros [-> [_ [_ H]%then_Ret]%then_Ret]%then_Ret. apply create_secret_Ret in Es; [|done].
  assert (o_Secret c1 = Some (default crt (o_Secret c)) ∧ o_label c1 = o_label c ∧
    o_ServiceAccount c1 = o_ServiceAccount c ∧ o_Role c1 = o_Role c ∧ o_RoleBinding c1 = o_RoleBinding c ∧
    o_Service c1 = o_Service c ∧ o_Webhook c1 = o_Webhook c) as (<- & <- & <- & <- & <- & <- & <-).
  { subst c1. by destruct (o_Secret c) eqn:E. }
  destruct (e_ready env); [|done]. cbn [negb] in H.
  destruct (create (e_webhook env) _) as [[]|e|] eqn:Ew.
  - injection H as <-. by split_and!.
  - assert (c' = add_deployment c1) as -> by (destruct e; by simplify_eq). split_and!; [done..|].
    intros Hn He. cbn in Ew. by rewrite Hn, He in Ew.
  - done.
Qed.

Lemma create_objects_Ret env c c' :
  e_secret env ≠ Some AlreadyExists → create_objects env c = (c', Ret tt) →
  o_label c' = true ∧ o_ServiceAccount c' = true ∧ o_Role c' = true ∧ o_RoleBinding c' = true ∧
  o_Service c' = true ∧ o_Deployment c' = true ∧
  ∃ crt, e_cert env = Ret crt ∧ o_Secret c' = Some (default crt (o_Secret c)) ∧
    (o_Webhook c = None → e_webhook env = None → o_Webhook c' = Some crt).
Proof.
  unfold create_objects. intros Hh H.
  do 6 (apply then_Ret in H as [_ H]). destruct (e_cert env) as [crt| |]; [|done..].
  apply create_workload_Ret in H as (-> & -> & -> & -> & -> & -> & Hs & Hw); [|done].
  split_and!; [done..|]. by exists crt.
Qed.

Lemma create_objects_label env c c' :
  create_objects env c = (c', Ret tt) → e_get_ns env = None ∧ e_update_ns env = None.
Proof.
  unfold create_objects, checked. intros [H1 [H2 _]%then_Ret]%then_Ret.
  by destruct (e_get_ns env), (e_update_ns env).
Qed.

(** Whether the object of a kind is there. *)
Definition present (k : kind) (c : Cluster) : bool :=
  match k with
  | KServiceAccount => o_ServiceAccount c
  | KRole => o_Role c
  | KRoleBinding => o_RoleBinding c
  | KService => o_Service c
  | KSecret => bool_decide (is_Some (o_Secret c))
  | KDeployment => o_Deployment c
  | KWebhook => bool_decide (is_Some (o_Webhook c))
  | _ => false
  end.

#[export] Instance kind_eq_dec : EqDecision kind.
Proof. solve_decision. Defined.

(** The kinds of which [createOutboundPod] makes an object. *)
Definition manager_kinds : list kind :=
  [KServiceAccount; KRole; KRoleBinding; KService; KSecret; KDeployment; KWebhook].

Lemma present_deleted ok k c :
  k ≠ KSecret → ok k = true → present k (deleteResource ok c) = false.
Proof. intros Hk H. destruct k; cbn; try done; by rewrite H. Qed.

Lemma create_objects_webhook env c c' :
  create_objects env c = (c', Ret tt) →
  present KWebhook c' = true ∨ e_webhook env = Some Forbidden ∨ e_webhook env = Some AlreadyExists.
Proof.
  unfold create_objects. intros H. do 6 (apply then_Ret in H as [_ H]).
  destruct (e_cert env) as [crt| |]; [|done..]. unfold create_workload in H.
  destruct (create_secret env crt _) as [c1 r]. do 3 (apply then_Ret in H as [_ H]).
  destruct (e_ready env); [|done]. cbn [negb] in H. unfold create in H.
  destruct (e_webhook env) as [[]|]; simplify_eq/=; auto.
  destruct (bool_decide (is_Some (o_Webhook c1))) eqn:E; simplify_eq; by left.
Qed.

(** What a creation that stops early does to the label and the secret. *)
Lemma create_objects_Fail env c c' e :
  create_objects env c = (c', Fail e) →
  o_label c' = (o_label c || bool_decide (e_get_ns env = None ∧ e_update_ns env = None)) ∧
  (o_Secret c' = o_Secret c ∨ o_Secret c = None ∧ ∃ crt, e_cert env = Ret crt ∧ o_Secret c' = Some crt).
Proof.
  unfold create_objects, checked. destruct (e_get_ns env), (e_update_ns env); cbn [then_].
  1-3: intros [= <- <-]; rewrite bool_decide_false by (by intros []); rewrite orb_false_r; by split; [|left].
  rewrite bool_decide_true, orb_true_r by done.
  unfold create_workload, create_secret, then_, checked, create.
  repeat (case_match; simplify_eq/=; try (by split; [|by left])).
  all: intros; simplify_eq; (split; [done|]).
  all: first [by left|right; split; [|by eexists]].
  all: by apply eq_None_not_Some; eapply bool_decide_eq_false_1.
Qed.

(** ** Properties *)

(** C19. The traffic manager is created completely, or its failed creation is undone, as
    far as the API server deletes: when it is not reused, a successful run leaves the
    labelled namespace, the secret, all other objects (the webhook too, unless the
    server answered that it is forbidden or exists) and the count of this client.  A
    failed one leaves, of the seven kinds of object, only those whose deletion after
    the error failed, and the secret, which is never deleted: an old one stays, and
    one this run created stays.  The namespace keeps a label it had, and has it if
    this run came to label it.  As the objects from before are deleted as well, a manager
    that other clients use but whose pod was not found in two seconds is gone after a
    failed attempt.  The server is taken at its word that a secret exists. *)
Theorem outbound_all_or_nothing {S : Type} `{ConfigMapLaws S} env (s s' : S) c c' r
  (Hnew : reuses env c = false) (Hhonest : e_secret env ≠ Some AlreadyExists)
  (Hrun : createOutboundPod env s c = (s', c', r)) :
  match r with
  | Ret _ => o_label c' = true ∧ (∀ k, k ∈ manager_kinds → k ≠ KWebhook → present k c' = true) ∧
             (present KWebhook c' = true ∨ e_webhook env = Some Forbidden ∨ e_webhook env = Some AlreadyExists) ∧
             ∃ n, updateRefCount s ConfigMapPodTrafficManager 1 = (s', Ret n)
  | Fail _ =>
      (∀ k, k ∈ manager_kinds → present k c' = true → k = KSecret ∨ e_redelete env k = false) ∧
      o_label c' = (o_label c || bool_decide (e_get_ns env = None ∧ e_update_ns env = None)) ∧
      (o_Secret c' = o_Secret c ∨ o_Secret c = None ∧ ∃ crt, e_cert env = Ret crt ∧ o_Secret c' = Some crt)
  | Panic => e_cert env = Panic ∨ snd (updateRefCount s ConfigMapPodTrafficManager 1) = Panic
  end.
Proof.
  unfold createOutboundPod in Hrun. rewrite Hnew in Hrun.
  assert (∀ k c0, present k (deleteResource (e_redelete env) c0) = true →
            k = KSecret ∨ e_redelete env k = false) as Hdel.
  { intros k c0 Hp. destruct (decide (k = KSecret)) as [|Hk]; [by left|right].
    destruct (e_redelete env k) eqn:Ek; [|done]. by rewrite present_deleted in Hp. }
  destruct (create_objects env (deleteResource (e_delete env) c)) as [c1 [[]|e|]] eqn:Ec.
  - pose proof (create_objects_label env _ _ Ec) as (Hns & Hup).
    pose proof (create_objects_webhook env _ _ Ec) as Hwh.
    apply create_objects_Ret in Ec as (? & ? & ? & ? & ? & ? & crt & Hcrt & Hs & _); [|done].
    destruct (updateRefCount s _ 1) as [s1 [n|e|]] eqn:Eu; simplify_eq.
    + split; [done|]. split; [|split; [done|by eexists]]. intros k Hk Hne. unfold manager_kinds in Hk.
      repeat (apply elem_of_cons in Hk as [->|Hk]; [by cbn; rewrite ?Hs|]). by apply elem_of_nil in Hk.
    + split; [by eauto|]. cbn [o_label o_Secret deleteResource] in *. split.
      { rewrite bool_decide_true, orb_true_r by done. done. }
      destruct (o_Secret c); [by left|right]. split; [done|]. by exists crt.
    + by right.
  - simplify_eq. apply create_objects_Fail in Ec as [Hl Hs]. split; [by eauto|]. by split.
  - simplify_eq. left. revert Ec. unfold create_objects, create_workload, create_secret, then_, checked, create.
    repeat (case_match; simplify_eq; try done).
Qed.

(** A recreated traffic manager can have a webhook nobody can call: the secret of
    an earlier manager is never deleted on this path and a second one is refused and
    ignored, while the webhook is registered with the new certificate; so whenever a
    secret is there and the manager is created anew, the pods serve the old
    certificate and the API server trusts only the new one. *)
Theorem recreated_webhook_distrusts {S : Type} `{ConfigMapLaws S} env (s s' : S) c c' old crt
  (Hdel : e_delete env KWebhook = true) (Hnew : reuses env c = false)
  (Hhonest : e_secret env ≠ Some AlreadyExists)
  (Hsecret : o_Secret c = Some old) (Hcert : e_cert env = Ret crt) (Hwh : e_webhook env = None)
  (Hrun : createOutboundPod env s c = (s', c', Ret tt)) :
  o_Secret c' = Some old ∧ o_Webhook c' = Some crt.
Proof.
  unfold createOutboundPod in Hrun. rewrite Hnew in Hrun.
  assert (o_Webhook (deleteResource (e_delete env) c) = None) as Hg by (cbn; by rewrite Hdel).
  destruct (create_objects env (deleteResource (e_delete env) c)) as [c1 [[]|e|]] eqn:Ec; [|done..].
  destruct (updateRefCount s _ 1) as [s1 [n|e|]] eqn:Eu; simplify_eq.
  apply create_objects_Ret in Ec as (_ & _ & _ & _ & _ & _ & crt' & Hc & Hs' & Hw); [|done].
  cbn in Hs'. rewrite Hsecret in Hs'. rewrite Hcert in Hc. injection Hc as <-. by rewrite Hw.
Qed.

(** ** Witnesses *)

Definition env_create (ready : bool) : OEnv :=
  MkOEnv None false (λ _, true) (λ _, true) None None None None None None (Ret 2) None None None ready None.

(** A manager whose pod is not ready in time, with its secret. *)
Definition example_cluster : Cluster := MkCluster true true true true true (Some 1) true (Some 1).

Lemma outbound_all_or_nothing_witness :
  let c' := snd (fst (createOutboundPod (env_create false) (example_counted "1") example_cluster)) in
  (∀ k, k ∈ manager_kinds → present k c' = true → k = KSecret ∨ e_redelete (env_create false) k = false) ∧
  o_label c' = true ∧ o_Secret c' = Some 1.
Proof.
  cbv zeta.
  assert (snd (createOutboundPod (env_create false) (example_counted "1") example_cluster) =
    Fail (Errorf "wait pod to be ready timeout")) as Hr by reflexivity.
  destruct (createOutboundPod _ _ _) as [[s' c'] r] eqn:E. cbn [snd fst] in *. subst r.
  pose proof (outbound_all_or_nothing (S := mem) (env_create false) (example_counted "1") s' example_cluster c'
    (Fail (Errorf "wait pod to be ready timeout"))) as H.
  destruct H as (H1 & H2 & H3); [reflexivity|discriminate|exact E|].
  split; [exact H1|]. split; [exact H2|]. destruct H3 as [H3|[H3 _]]; [exact H3|discriminate].
Defined.

Lemma recreated_webhook_distrusts_witness :
  let c' := snd (fst (createOutboundPod (env_create true) (example_counted "1") example_cluster)) in
  o_Secret c' = Some 1 ∧ o_Webhook c' = Some 2.
Proof.
  cbv zeta.
  assert (snd (createOutboundPod (env_create true) (example_counted "1") example_cluster) = Ret tt) as Hr
    by (vm_compute; reflexivity).
  destruct (createOutboundPod _ _ _) as [[s' c'] r] eqn:E. cbn [snd fst] in *. subst r.
  pose proof (recreated_webhook_distrusts (S := mem) (env_create true) (example_counted "1") s' example_cluster c' 1 2) as H.
  apply H; [reflexivity|reflexivity|discriminate|reflexivity|reflexivity|reflexivity|exact E].
Defined.
