(* ===== verification/Connect.v ===== *)
(** * Connecting

    [RentInnerIP], [InitDHCP] and [DoConnect] of [pkg/handler/connect.go]: the user
    daemon rents an address pair and hands it to the root daemon in the request's
    metadata, as text; the root daemon connects: networks, traffic manager, ports,
    tunnel, routes, DNS, in this order, and its caller cleans up when a step fails. *)
From Stdlib Require Import ZArith Lia.
From Stdlib Require Import Strings.Byte.
From stdpp Require Import base countable gmap strings numbers list.
From S2P Require Import Prelude GoStrings GoNet IPText Config KubeApi Allocator Dhcp Cleaner Cidr Outbound.

(** The incoming metadata: the values of the two headers. *)
Record Metadata := MkMetadata { md_IPv4 : list string; md_IPv6 : list string }.

(** The first value of a header, when it parses: the address with its network's mask. *)
Definition from_header (values : list string) (old : option IPNet) : option IPNet :=
  match values with
  | [] => old
  | v :: _ => match ParseCIDR v with
              | Some (ip, ipNet) => Some (MkIPNet ip (net_Mask ipNet))
              | None => old
              end
  end.

Definition with_ips (c : ConnectOptions) (v4 v6 : option IPNet) : ConnectOptions :=
  MkConnect (c_namespace c) v4 v6 (c_dhcp c) (c_clientset c).
Definition with_dhcp (c : ConnectOptions) : ConnectOptions :=
  MkConnect (c_namespace c) (c_localTunIPv4 c) (c_localTunIPv6 c) (Some NewDHCPManager) (c_clientset c).

Section Connect.
Context {S : Type} `{API : ConfigMapInterface S}.

Definition InitDHCP (s : S) (c : ConnectOptions) : S * ConnectOptions * outcome unit :=
  let '(s, r) := initDHCP s in (s, with_dhcp c, r).

(** The result is what is appended to the outgoing metadata, [None] for nothing. *)
Definition RentInnerIP (s : S) (c : ConnectOptions) (md : option Metadata) (addrs : outcome (list net_addr))
  : S * ConnectOptions * option (outcome (option Metadata)) :=
  let c := match md with
           | Some md => with_ips c (from_header (md_IPv4 md) (c_localTunIPv4 c))
                          (from_header (md_IPv6 md) (c_localTunIPv6 c))
           | None => c
           end in
  let '(s, c, r) := match c_dhcp c with
                    | None => InitDHCP s c
                    | Some _ => (s, c, Ret tt)
                    end in
  match r with
  | Fail e => (s, c, Some (Fail e))
  | Panic => (s, c, Some Panic)
  | Ret _ =>
      match c_localTunIPv4 c, c_localTunIPv6 c, c_dhcp c with
      | Some _, Some _, _ => (s, c, Some (Ret None))
      | _, _, None => (s, c, Some Panic)
      | _, _, Some d =>
          match RentIPBaseNICAddress d s addrs with
          | (s, Some (Ret (v4, v6))) =>
              (s, with_ips c (Some v4) (Some v6),
               Some (Ret (Some (MkMetadata [IPNet_String v4] [IPNet_String v6]))))
          | (s, Some (Fail e)) => (s, with_ips c None None, Some (Fail e))
          | (s, Some Panic) => (s, c, Some Panic)
          | (s, None) => (s, c, None)
          end
      end
  end.

(** The steps of [DoConnect] after the traffic manager, in order: [setImage], the three
    free ports, port forwarding, the tunnel, the routes, the extra routes, DNS. *)
Record LateSteps := MkLate {
  l_setImage : option error;
  l_rawPort : option error; l_gvisorTCPPort : option error; l_gvisorUDPPort : option error;
  l_portForward : option error;
  l_startLocalTunServe : option error;
  l_addRouteDynamic : option error;
  l_addExtraRoute : option error;
  l_setupDNS : option error }.

Fixpoint first_failure (l : list (option error)) : outcome unit :=
  match l with
  | [] => Ret tt
  | Some e :: _ => Fail e
  | None :: l => first_failure l
  end.

Definition late (l : LateSteps) : outcome unit :=
  first_failure [l_setImage l; l_rawPort l; l_gvisorTCPPort l; l_gvisorUDPPort l; l_portForward l;
    l_startLocalTunServe l; l_addRouteDynamic l; l_addExtraRoute l; l_setupDNS l].

Definition DoConnect (s : S) (cl : Cluster) (c : ConnectOptions) (v : View) (ips : option (list (list byte)))
    (env : OEnv) (l : LateSteps) : S * Cluster * ConnectOptions * outcome unit :=
  let '(s, c, r) := InitDHCP s c in
  match r with
  | Fail e => (s, cl, c, Fail e)
  | Panic => (s, cl, c, Panic)
  | Ret _ =>
      match getCIDR s v ips [] with
      | (s, Fail e) => (s, cl, c, Fail e)
      | (s, Panic) => (s, cl, c, Panic)
      | (s, Ret _) =>
          match createOutboundPod env s cl with
          | (s, cl, Fail e) => (s, cl, c, Fail e)
          | (s, cl, Panic) => (s, cl, c, Panic)
          | (s, cl, Ret _) => (s, cl, c, late l)
          end
      end
  end.

(** The root daemon's call: on an error the connection is cleaned up. *)
Definition connect_or_cleanup (s : S) (cl : Cluster) (c : ConnectOptions) (v : View)
    (ips : option (list (list byte))) (env : OEnv) (l : LateSteps) (unavailable : outcome Z)
  : S * Cluster * outcome unit :=
  let '(s, cl, c, r) := DoConnect s cl c v ips env l in
  match r with
  | Fail e => (fst (Cleanup s c unavailable), cl, Fail e)
  | r => (s, cl, r)
  end.
End Connect.

(** ** Lemmas: addresses of the pools as text *)

Lemma dhcp4_text o :
  (0 ≤ o < 65534)%Z →
  let n := MkIPNet (addIPOffset (r_base dhcp4) o) (net_Mask (d_cidr NewDHCPManager)) in
  ∃ net, ParseCIDR (IPNet_String n) = Some (net_IP n, net) ∧ net_Mask net = net_Mask n.
Proof.
  intros Ho. cbv zeta. unfold addIPOffset. rewrite dhcp4_base.
  replace (65535 * 2 ^ 32 + 3757965413 + o)%Z with (65535 * 2 ^ 32 + (3757965413 + o))%Z by lia.
  rewrite v4_bytes by lia. change (net_Mask (d_cidr NewDHCPManager)) with [xff; xff; x00; x00].
  assert ([xff; xff; x00; x00] = CIDRMask 16 32) as -> by (vm_compute; reflexivity).
  eexists. rewrite ParseCIDR_String4 by lia. cbn [net_IP]. split; [done|]. done.
Qed.

(** An address of the upper half of the IPv6 space is no IPv4 address. *)
Lemma To4_high z : (2 ^ 127 ≤ z < 2 ^ 128)%Z → To4 (be_fixed 16 z) = None.
Proof.
  intros Hz. unfold To4. rewrite length_be_fixed, !bool_decide_false; [done| |lia].
  change 16 with (1 + 15). rewrite be_fixed_app. intros [_ E].
  change (be_fixed 1 (z `div` 256 ^ Z.of_nat 15)) with [z2b (z `div` 256 ^ Z.of_nat 15)] in E.
  injection E as E _. apply z2b_is in E. change (b2z x00) with 0%Z in E.
  change (256 ^ Z.of_nat 15)%Z with (2 ^ 120)%Z in E.
  Z.to_euclidean_division_equations. lia.
Qed.

Lemma dhcp6_base : (2 ^ 127 ≤ r_base dhcp6 ∧ r_base dhcp6 + 65534 < 2 ^ 128)%Z.
Proof. split; vm_compute; done. Qed.

Lemma dhcp6_text o :
  (0 ≤ o < 65534)%Z →
  let n := MkIPNet (addIPOffset (r_base dhcp6) o) (net_Mask (d_cidr6 NewDHCPManager)) in
  ∃ net, ParseCIDR (IPNet_String n) = Some (net_IP n, net) ∧ net_Mask net = net_Mask n.
Proof.
  intros Ho. cbv zeta. pose proof dhcp6_base.
  assert (net_Mask (d_cidr6 NewDHCPManager) = CIDRMask 64 128) as -> by (vm_compute; reflexivity).
  eexists. rewrite ParseCIDR_String6; [done|apply length_be_fixed|apply To4_high; lia|lia].
Qed.

(** The two pools' sizes. *)
Lemma dhcp_max : bm_max (r_alloc dhcp4) = 65534%Z ∧ bm_max (r_alloc dhcp6) = 65534%Z.
Proof. split; vm_compute; reflexivity. Qed.

Section Laws.
Context {S : Type} `{API : ConfigMapInterface S} `{!ConfigMapLaws S}.

(** The addresses of a successful rent are addresses of the pools. *)
Lemma rented s addrs s' v4 v6 :
  RentIPBaseNICAddress NewDHCPManager s (Ret addrs) = (s', Some (Ret (v4, v6))) →
  (∃ o, (0 ≤ o < 65534)%Z ∧ v4 = MkIPNet (addIPOffset (r_base dhcp4) o) (net_Mask (d_cidr NewDHCPManager))) ∧
  (∃ o, (0 ≤ o < 65534)%Z ∧ v6 = MkIPNet (addIPOffset (r_base dhcp6) o) (net_Mask (d_cidr6 NewDHCPManager))) ∧
  ∃ cm cm', cmGet s N = Ret cm ∧ cmGet s' N = Ret cm' ∧
    ∀ key, key ≠ KeyDHCP → key ≠ KeyDHCP6 → data_map cm' !! key = data_map cm !! key.
Proof.
  unfold RentIPBaseNICAddress.
  destruct (updateDHCPConfigMap NewDHCPManager s (rent_closure addrs)) as [s1 [[[a4 a6]| |]|]] eqn:E; intros; simplify_eq.
  apply updateDHCPConfigMap_Ret in E as (cm & cm' & r4 & r6 & Hg & Hf & Hg' & Hd & _).
  destruct (rent_closure_Ret _ _ _ _ _ _ _ Hf) as [(_ & Hw4 & o4 & Ho4 & -> & _) (_ & Hw6 & o6 & Ho6 & -> & _)];
    [apply range_at_wf, stored_bits_nonneg..|].
  destruct (dhcp_written_data cm r4 r6 cm' Hd Hw4 Hw6) as (_ & _ & Hk).
  destruct dhcp_max as [H4 H6]. split_and!.
  - exists o4. split; [|done]. rewrite <-H4. exact Ho4.
  - exists o6. split; [|done]. rewrite <-H6. exact Ho6.
  - exists cm, cm'. split; [exact Hg|split; [exact Hg'|exact Hk]].
Qed.

(** After a successful [initDHCP] the object has the Envoy key. *)
Lemma initDHCP_Ret s s' :
  initDHCP s = (s', Ret tt) → ∃ cm, cmGet s' N = Ret cm ∧ is_Some (data_map cm !! KeyEnvoy).
Proof.
  unfold initDHCP. destruct (cmGet s N) as [cm|[]|] eqn:Hg; try done.
  - destruct (data_map cm !! KeyEnvoy) eqn:Hk.
    + intros [= <-]. exists cm. by rewrite Hk.
    + destruct (cmPatch s _ _) as [? []]; done.
  - destruct (cmCreate s _) as [s1 [cm| |]] eqn:Hc; [|done..]. intros [= <-].
    apply create_ok in Hc as (_ & Hg' & Hd). exists cm. split; [exact Hg'|].
    unfold data_map. rewrite Hd. cbn. by rewrite lookup_insert_eq.
Qed.

Lemma initDHCP_again s cm :
  cmGet s N = Ret cm → is_Some (data_map cm !! KeyEnvoy) → initDHCP s = (s, Ret tt).
Proof. intros Hg [v Hv]. unfold initDHCP. by rewrite Hg, Hv. Qed.

(** ** Properties *)

(** The address travels: what a new connection of the user daemon rents is exactly
    what the root daemon uses for the forwarded request, address and mask, IPv4 and
    IPv6, after printing, sending and parsing; the root daemon rents nothing and
    writes nothing. *)
Theorem rent_forwarded s c addrs s1 c1 md c0 addrs0
  (Hfresh : c_dhcp c = None) (Hnone : c_localTunIPv4 c = None) (Hroot : c_dhcp c0 = None)
  (Huser : RentInnerIP s c None (Ret addrs) = (s1, c1, Some (Ret (Some md)))) :
  is_Some (c_localTunIPv4 c1) ∧ is_Some (c_localTunIPv6 c1) ∧
  ∃ c2, RentInnerIP s1 c0 (Some md) addrs0 = (s1, c2, Some (Ret None)) ∧
    c_localTunIPv4 c2 = c_localTunIPv4 c1 ∧ c_localTunIPv6 c2 = c_localTunIPv6 c1.
Proof.
  unfold RentInnerIP in Huser. rewrite Hfresh in Huser. unfold InitDHCP in Huser.
  destruct (initDHCP s) as [s0 [[]| |]] eqn:Hi; [|done..]. cbn [c_localTunIPv4 with_dhcp c_dhcp] in Huser.
  rewrite Hnone in Huser.
  destruct (RentIPBaseNICAddress NewDHCPManager s0 (Ret addrs)) as [s' [[[v4 v6]| |]|]] eqn:Hr; [|done..].
  injection Huser as <- <- <-.
  destruct (rented _ _ _ _ _ Hr) as ((o4 & Ho4 & ->) & (o6 & Ho6 & ->) & cm & cm' & Hg & Hg' & Hk).
  apply initDHCP_Ret in Hi as (cm0 & Hg0 & He). rewrite Hg in Hg0. injection Hg0 as <-.
  assert (is_Some (data_map cm' !! KeyEnvoy)) as He' by (by rewrite Hk).
  split; [by eexists|]. split; [by eexists|].
  destruct (dhcp4_text o4 Ho4) as (n4 & P4 & M4). destruct (dhcp6_text o6 Ho6) as (n6 & P6 & M6).
  eexists. unfold RentInnerIP. cbn [md_IPv4 md_IPv6 from_header]. rewrite P4, P6.
  cbn [c_dhcp with_ips]. rewrite Hroot. unfold InitDHCP. rewrite (initDHCP_again s' cm' Hg' He').
  cbn [with_dhcp with_ips c_localTunIPv4 c_localTunIPv6]. split; [done|]. rewrite M4, M6. done.
Qed.

(** A failed connection takes another client's count: when the traffic manager is
    not reused and cannot be created, this client was never counted, but the clean-up
    that follows decrements the reference count: of [n] counted clients (two at
    least), [n - 1] are left. *)
Theorem failed_connect_uncounts s s0 s1 s3 cl cl' c v ips env l unavailable nets cm n k e
  (Hinit : initDHCP s = (s0, Ret tt)) (Hcidr : getCIDR s0 v ips [] = (s1, Ret nets))
  (Hnew : reuses env cl = false) (Hfail : create_objects env (deleteResource (e_delete env) cl) = (cl', Fail e))
  (Hclient : c_clientset c = true)
  (Hcm : cmGet s1 N = Ret cm) (Hn : Atoi (data_get cm KeyRefCount) = Some n) (Htwo : (2 ≤ n)%Z)
  (Hrel : snd (ReleaseIP NewDHCPManager s1 (leased_ips c)) = Some (Ret tt))
  (Hupd : updateRefCount (fst (ReleaseIP NewDHCPManager s1 (leased_ips c))) N (-1) = (s3, Ret k)) :
  connect_or_cleanup s cl c v ips env l unavailable = (s3, deleteResource (e_redelete env) cl', Fail e) ∧
  ∃ cm3, cmGet s3 N = Ret cm3 ∧ Atoi (data_get cm3 KeyRefCount) = Some (n - 1)%Z.
Proof.
  assert (k = n - 1 ∧ ∃ cm3, cmGet s3 N = Ret cm3 ∧ Atoi (data_get cm3 KeyRefCount) = Some (n - 1))%Z as [Hk Hc3].
  { destruct (ReleaseIP_keeps NewDHCPManager s1 (leased_ips c) cm KeyRefCount Hcm Hrel) as (cm2 & Hg2 & Hd2); [done..|].
    apply updateRefCount_Ret in Hupd as (cm2' & cm3 & Hg2' & Hg3 & -> & Hd3).
    rewrite Hg2 in Hg2'. injection Hg2' as <-.
    apply Atoi_value_Atoi in Hn as Hv. pose proof (Atoi_value_range (data_get cm KeyRefCount)).
    assert (next_count cm2 (-1) = n - 1)%Z as E.
    { unfold next_count. rewrite Hd2, Hv. rewrite wrap64_small by lia. lia. }
    rewrite E in *. split; [done|]. exists cm3. split; [done|].
    rewrite (data_get_insert _ _ _ _ Hd3). apply Atoi_Itoa. lia. }
  split; [|done]. unfold connect_or_cleanup, DoConnect, InitDHCP. rewrite Hinit, Hcidr.
  unfold createOutboundPod. rewrite Hnew, Hfail. unfold Cleanup.
  cbn [c_dhcp with_dhcp c_clientset]. change (leased_ips (with_dhcp c)) with (leased_ips c).
  rewrite Hclient, Hupd. destruct (Z.leb_spec k 0); [lia|]. done.
Qed.
End Laws.

(** ** Witnesses *)

Definition example_conn : ConnectOptions := MkConnect "default" None None None true.

Definition example_map (count : string) : mem :=
  MkMem {[N := MkConfigMap N 1 (Some {[KeyEnvoy := ""%string; KeyRefCount := count]})]} 1.

Lemma rent_forwarded_witness :
  ∃ s1 c1 md c2, RentInnerIP (example_map "1") example_conn None (Ret example_nic) =
      (s1, c1, Some (Ret (Some md))) ∧
    RentInnerIP s1 example_conn (Some md) (Fail NotFound) = (s1, c2, Some (Ret None)) ∧
    c_localTunIPv4 c2 = c_localTunIPv4 c1.
Proof.
  assert (match RentInnerIP (example_map "1") example_conn None (Ret example_nic) with
          | (_, _, Some (Ret (Some _))) => True | _ => False end) as Hrun by (vm_compute; exact I).
  destruct (RentInnerIP (example_map "1") example_conn None (Ret example_nic))
    as [[s1 c1] [[[md|]| |]|]] eqn:E; try contradiction.
  pose proof (rent_forwarded (S := mem) (example_map "1") example_conn example_nic s1 c1 md example_conn
    (Fail NotFound) eq_refl eq_refl eq_refl E) as (_ & _ & c2 & H1 & H2 & _).
  exists s1, c1, md, c2. split; [reflexivity|split; [exact H1|exact H2]].
Defined.

Definition example_late : LateSteps := MkLate None None None None None None None None None.

(** Two clients are connected, a third one fails to create the manager. *)
Lemma failed_connect_uncounts_witness :
  ∃ s3 cm3, fst (fst (connect_or_cleanup (example_map "2") (MkCluster true true true true true (Some 1) true (Some 1))
      example_conn example_view None (env_create false) example_late (Ret 0%Z))) = s3 ∧
    cmGet s3 N = Ret cm3 ∧ Atoi (data_get cm3 KeyRefCount) = Some 1%Z.
Proof.
  assert (match getCIDR (example_map "2") example_view None [] with
    | (s1, Ret _) => match cmGet s1 N with
        | Ret cm => Atoi (data_get cm KeyRefCount) = Some 2%Z ∧
            snd (updateRefCount s1 N (-1)) = Ret 1%Z
        | _ => False end
    | _ => False end) as Hrun by (vm_compute; split; reflexivity).
  destruct (getCIDR (example_map "2") example_view None []) as [s1 [nets| |]] eqn:Hc; try contradiction.
  destruct (cmGet s1 N) as [cm| |] eqn:Hg; try contradiction. destruct Hrun as [Hn Hk].
  destruct (updateRefCount s1 N (-1)) as [s3 r] eqn:Hu. cbn [snd] in Hk. subst r.
  pose proof (failed_connect_uncounts (S := mem) (example_map "2") (example_map "2") s1 s3
    (MkCluster true true true true true (Some 1) true (Some 1))
    (MkCluster true true true true true (Some 1) true None)
    example_conn example_view None (env_create false) example_late (Ret 0%Z) nets cm 2 1
    (Errorf "wait pod to be ready timeout")) as H.
  destruct H as [H (cm3 & H3 & H4)];
    [reflexivity|exact Hc|reflexivity|reflexivity|reflexivity|exact Hg|exact Hn|lia|reflexivity|exact Hu|].
  exists s3, cm3. rewrite H. split; [reflexivity|split; [exact H3|exact H4]].
Defined.
