(* ===== verification/Webhook.v ===== *)
(** * The admission webhook

    [pkg/webhook]: when a pod with the VPN side-car is created, the API server asks the
    webhook, which rents an address pair for it and patches it into the side-car's
    environment; when the pod is deleted, the pair is released.  [dhcp.go] does the
    same over HTTP for a pod that asks itself ([pkg/handler/serve.go]).
    Decoding of objects and JSON patches are an interface with its law. *)
From Stdlib Require Import ZArith Lia Ascii.
From Stdlib Require Import Strings.Byte.
From stdpp Require Import base countable gmap strings numbers list.
From S2P Require Import Prelude GoStrings GoNet IPText Url Config KubeApi Allocator Dhcp Outbound Connect Node Sidecar.

(** ** Data *)

Section Data.
Context {Probe : Type}.

(** A pod: the containers the webhook looks at. *)
Record Pod := MkPod {
  pd_Containers : list (Container Probe);
  pd_InitContainers : list (Container Probe);
  pd_EphemeralContainers : list (Container Probe) }.

Inductive Operation := OpCreate | OpDelete | OpOther.

Record AdmissionRequest (Raw : Type) := MkReview {
  rq_UID : string; rq_Resource : string * string * string; rq_Operation : Operation;
  rq_Object : Raw; rq_OldObject : Raw }.

Record AdmissionResponse (Patch : Type) := MkResponse {
  rs_UID : string; rs_Allowed : bool; rs_Patch : option Patch; rs_Result : option error }.

End Data.
Arguments rq_UID {Raw} _.
Arguments rq_Resource {Raw} _.
Arguments rq_Operation {Raw} _.
Arguments rq_Object {Raw} _.
Arguments rq_OldObject {Raw} _.
Arguments MkReview {Raw} _ _ _ _ _.
Arguments rs_UID {Patch} _.
Arguments rs_Allowed {Patch} _.
Arguments rs_Patch {Patch} _.
Arguments rs_Result {Patch} _.
Arguments MkResponse {Patch} _ _ _ _.

(** The universal deserializer, [json.Marshal] and [jsonpatch]: a patch made from two
    encoded pods, applied to the first, gives the second. *)
Class AdmissionCodec (Probe Raw Doc Patch : Type) := {
  decodePod : Raw → outcome (@Pod Probe);
  encodePod : @Pod Probe → outcome Doc;
  createPatch : Doc → Doc → outcome Patch;
  applyPatch : Patch → @Pod Probe → @Pod Probe }.

Class AdmissionCodecLaws (Probe Raw Doc Patch : Type) `{AdmissionCodec Probe Raw Doc Patch} : Prop := {
  patch_law p q d d' patch :
    encodePod p = Ret d → encodePod q = Ret d' → createPatch d d' = Ret patch → applyPatch patch p = q }.

(** ** Handlers *)

Definition podResource : string * string * string := ("", "v1", "pods")%string.

(** [ip, _, _ := net.ParseCIDR(s)]; nil is the empty address. *)
Definition cidr_ip (s : string) : list byte := match ParseCIDR s with Some (ip, _) => ip | None => [] end.

Definition tun_name (name : string) : bool :=
  bool_decide (name = EnvInboundPodTunIPv4) || bool_decide (name = EnvInboundPodTunIPv6).

(** The addresses an environment already has. *)
Definition old_ips (env : list EnvVar) : list (list byte) :=
  omap (λ e, if tun_name (ev_Name e) && negb (bool_decide (ev_Value e = EmptyString))
             then fst <$> ParseCIDR (ev_Value e) else None) env.

(** The second loop: the rented pair, if any, is written to its variables. *)
Definition set_pair (v : option (IPNet * IPNet)) (env : list EnvVar) : list EnvVar :=
  match v with
  | None => env
  | Some (v4, v6) =>
      (λ e, if bool_decide (ev_Name e = EnvInboundPodTunIPv4)
            then MkEnvVar (ev_Name e) (IPNet_String v4) (ev_FieldPath e)
            else if bool_decide (ev_Name e = EnvInboundPodTunIPv6)
            then MkEnvVar (ev_Name e) (IPNet_String v6) (ev_FieldPath e) else e) <$> env
  end.

Definition with_env {Probe} (c : Container Probe) (env : list EnvVar) : Container Probe :=
  MkContainer (c_Name c) (c_Image c) (c_Command c) (c_Args c) (c_EnvFrom c) env (c_Resources c)
    (c_ImagePullPolicy c) (c_SecurityContext c) (c_Ports c) (c_ReadinessProbe c) (c_LivenessProbe c)
    (c_StartupProbe c).

(** How the first loop over an environment ends: [break out], the end, or an error. *)
Inductive env_scan :=
  | ScanBreak (found : bool)
  | ScanDone (found : bool) (v : option (IPNet * IPNet))
  | ScanError (e : error)
  | ScanPanic.

Definition FindContainerByName {Probe} (pod : @Pod Probe) (name : string) : option (Container Probe) :=
  List.find (λ c, bool_decide (c_Name c = name))
    (pd_Containers pod ++ pd_InitContainers pod ++ pd_EphemeralContainers pod).

(** The addresses of a deleted pod: up to a variable that holds the router's. *)
Fixpoint pod_ips (env : list EnvVar) : list (list byte) :=
  match env with
  | [] => []
  | e :: env =>
      if IP_Equal RouterIP (cidr_ip (ev_Value e)) then []
      else match (if tun_name (ev_Name e) then ParseCIDR (ev_Value e) else None) with
           | Some (ip, _) => ip :: pod_ips env
           | None => pod_ips env
           end
  end.

Section Handlers.
Context {S : Type} `{API : ConfigMapInterface S}.
Context {Probe Raw Doc Patch : Type} `{Codec : AdmissionCodec Probe Raw Doc Patch}.
(** The addresses of the webhook's machine. *)
Variable addrs : outcome (list net_addr).

(** Renting always ends (see [Dhcp]); running out of fuel cannot happen. *)
Definition rent (s : S) : S * outcome (IPNet * IPNet) :=
  match RentIPRandom NewDHCPManager s addrs with
  | (s, Some r) => (s, r)
  | (s, None) => (s, Panic)
  end.

Fixpoint scan_env (s : S) (env todo : list EnvVar) (found : bool) (v : option (IPNet * IPNet)) : S * env_scan :=
  match todo with
  | [] => (s, ScanDone found v)
  | e :: todo =>
      if bool_decide (ev_Name e = EnvInboundPodTunIPv4) then
        if IP_Equal RouterIP (cidr_ip (ev_Value e)) then (s, ScanBreak found)
        else
          let s := if bool_decide (ev_Value e = EmptyString) then s
                   else fst (ReleaseIP NewDHCPManager s (old_ips env)) in
          match rent s with
          | (s, Ret v) => scan_env s env todo true (Some v)
          | (s, Fail err) => (s, ScanError err)
          | (s, Panic) => (s, ScanPanic)
          end
      else scan_env s env todo found v
  end.

Fixpoint admit_containers (s : S) (cs : list (Container Probe)) (found : bool)
  : S * outcome (list (Container Probe) * bool) :=
  match cs with
  | [] => (s, Ret ([], found))
  | c :: cs =>
      let next s c found :=
        match admit_containers s cs found with
        | (s, Ret (cs, found)) => (s, Ret (c :: cs, found))
        | r => r
        end in
      if bool_decide (c_Name c = ContainerSidecarVPN) then
        match scan_env s (c_Env c) (c_Env c) found None with
        | (s, ScanBreak found) => (s, Ret (c :: cs, found))
        | (s, ScanDone found v) => next s (with_env c (set_pair v (c_Env c))) found
        | (s, ScanError e) => (s, Fail e)
        | (s, ScanPanic) => (s, Panic)
        end
      else next s c found
  end.

Definition toV1AdmissionResponse (e : error) : AdmissionResponse Patch := MkResponse "" false None (Some e).

(** [applyPodPatch]; the nil it returns for another resource is never reached. *)
Definition applyPodPatch (ar : AdmissionRequest Raw) (patch : Patch) : outcome (AdmissionResponse Patch) :=
  if negb (bool_decide (rq_Resource ar = podResource)) then Panic
  else match decodePod (rq_Object ar) with
  | Ret pod =>
      let should := match FindContainerByName pod ContainerSidecarVPN with Some _ => true | None => false end in
      Ret (MkResponse "" true (if should then Some patch else None) None)
  | Fail e => Ret (toV1AdmissionResponse e)
  | Panic => Panic
  end.

Definition admit_create (s : S) (ar : AdmissionRequest Raw) : S * outcome (AdmissionResponse Patch) :=
  match decodePod (rq_Object ar) with
  | Fail e => (s, Ret (toV1AdmissionResponse e))
  | Panic => (s, Panic)
  | Ret pod =>
      match encodePod pod with
      | Fail e => (s, Ret (toV1AdmissionResponse e))
      | Panic => (s, Panic)
      | Ret from =>
          match admit_containers s (pd_Containers pod) false with
          | (s, Fail e) => (s, Ret (toV1AdmissionResponse e))
          | (s, Panic) => (s, Panic)
          | (s, Ret (_, false)) => (s, Ret (MkResponse (rq_UID ar) true None None))
          | (s, Ret (cs, true)) =>
              match (to ← encodePod (MkPod cs (pd_InitContainers pod) (pd_EphemeralContainers pod));
                     createPatch from to) with
              | Fail e => (s, Ret (toV1AdmissionResponse e))
              | Panic => (s, Panic)
              | Ret patch => (s, applyPodPatch ar patch)
              end
          end
      end
  end.

(** A failed release is only logged. *)
Definition admit_delete (s : S) (ar : AdmissionRequest Raw) : S * outcome (AdmissionResponse Patch) :=
  match decodePod (rq_OldObject ar) with
  | Fail e => (s, Ret (toV1AdmissionResponse e))
  | Panic => (s, Panic)
  | Ret pod =>
      let s := match FindContainerByName pod ContainerSidecarVPN with
               | Some container =>
                   let ips := pod_ips (c_Env container) in
                   if bool_decide (ips = []) then s else fst (ReleaseIP NewDHCPManager s ips)
               | None => s
               end in
      (s, Ret (MkResponse "" true None None))
  end.

Definition admitPods (s : S) (ar : AdmissionRequest Raw) : S * outcome (AdmissionResponse Patch) :=
  if negb (bool_decide (rq_Resource ar = podResource))
  then (s, Ret (toV1AdmissionResponse (Errorf "expect resource to be pods")))
  else match rq_Operation ar with
  | OpCreate => admit_create s ar
  | OpDelete => admit_delete s ar
  | OpOther => (s, Ret (toV1AdmissionResponse (Errorf "expect operation is CREATE or DELETE")))
  end.

(** ** HTTP *)

(** [convert.go]: the two versions of a review have the same fields here. *)
Definition convertAdmissionRequestToV1 (r : AdmissionRequest Raw) : AdmissionRequest Raw :=
  MkReview (rq_UID r) (rq_Resource r) (rq_Operation r) (rq_Object r) (rq_OldObject r).
Definition convertAdmissionResponseToV1beta1 (r : AdmissionResponse Patch) : AdmissionResponse Patch :=
  MkResponse (rs_UID r) (rs_Allowed r) (rs_Patch r) (rs_Result r).

(** A decoded body: a review of one of the versions, its request possibly nil. *)
Inductive Review :=
  | V1beta1 (r : option (AdmissionRequest Raw))
  | V1 (r : option (AdmissionRequest Raw))
  | OtherKind.

(** Status and body; no body is written when the content type is wrong. *)
Record HTTP := MkHTTP { h_Status : Z; h_Body : option (AdmissionResponse Patch) }.

Definition with_uid (uid : string) (r : AdmissionResponse Patch) : AdmissionResponse Patch :=
  MkResponse uid (rs_Allowed r) (rs_Patch r) (rs_Result r).

Definition answer (uid : string) (r : S * outcome (AdmissionResponse Patch)) : S * outcome HTTP :=
  match r with
  | (s, Ret resp) => (s, Ret (MkHTTP 200 (Some (with_uid uid resp))))
  | (s, Fail e) => (s, Fail e)
  | (s, Panic) => (s, Panic)
  end.

Definition serve (s : S) (contentType : string) (body : outcome Review) : S * outcome HTTP :=
  if negb (bool_decide (contentType = "application/json"%string)) then (s, Ret (MkHTTP 200 None))
  else match body with
  | Fail _ | Ret OtherKind => (s, Ret (MkHTTP 400 None))
  | Panic => (s, Panic)
  | Ret (V1beta1 None) | Ret (V1 None) => (s, Panic)
  | Ret (V1beta1 (Some r)) =>
      let '(s, out) := admitPods s (convertAdmissionRequestToV1 r) in
      answer (rq_UID r) (s, convertAdmissionResponseToV1beta1 <$> out)
  | Ret (V1 (Some r)) => answer (rq_UID r) (admitPods s r)
  end.

(** [dhcp.go]: status and body. *)
Definition rentIP (s : S) : S * outcome (Z * string) :=
  match rent s with
  | (s, Ret (v4, v6)) => (s, Ret (200%Z, (IPNet_String v4 +:+ "," +:+ IPNet_String v6)%string))
  | (s, Fail _) => (s, Ret (400%Z, EmptyString))
  | (s, Panic) => (s, Panic)
  end.

Definition releaseIP (s : S) (header : gmap string string) : S * outcome (Z * string) :=
  let ips := omap (λ t, fst <$> ParseCIDR t)
               [default EmptyString (header !! HeaderIPv4); default EmptyString (header !! HeaderIPv6)] in
  match ReleaseIP NewDHCPManager s ips with
  | (s, Some (Ret _)) => (s, Ret (200%Z, EmptyString))
  | (s, Some (Fail _)) => (s, Ret (400%Z, EmptyString))
  | (s, _) => (s, Panic)
  end.

(** [util.DoReq], the certificate being known: an answer other than 200 is an error. *)
Definition DoReq (resp : outcome (Z * string)) : outcome string :=
  '(status, body) ← resp;
  if (status =? 200)%Z then Ret body else Fail (Errorf ("http status is " +:+ Itoa status)%string).

(** The HTTP server, by path. *)
Definition dhcpServer (s : S) (q : Request) : S * outcome string :=
  if bool_decide (u_Path (q_URL q) = APIRentIP) then let '(s, r) := rentIP s in (s, DoReq r)
  else if bool_decide (u_Path (q_URL q) = APIReleaseIP) then let '(s, r) := releaseIP s (q_Header q) in (s, DoReq r)
  else (s, DoReq (Ret (404%Z, EmptyString))).
End Handlers.

(** ** The shape of an injected pod *)

(** The two variables, once each and empty; nothing else holds the router's address. *)
Definition fresh_env (env : list EnvVar) : Prop :=
  (∃ f4 f6, List.filter (λ e, tun_name (ev_Name e)) env =
     [MkEnvVar EnvInboundPodTunIPv4 "" f4; MkEnvVar EnvInboundPodTunIPv6 "" f6]) ∧
  Forall (λ e, IP_Equal RouterIP (cidr_ip (ev_Value e)) = false) env.

(** Both ways of proxying inject such a side-car. *)
Lemma mesh_fresh_env {Probe} image : fresh_env (c_Env (mesh_vpn_container (Probe := Probe) image)).
Proof. split; [by eexists _, _; vm_compute|]. repeat constructor; vm_compute; reflexivity. Qed.

Lemma tun_name_v4 name : name = EnvInboundPodTunIPv4 → tun_name name = true.
Proof. by intros ->. Qed.

Section Shape.
Context {S : Type} `{API : ConfigMapInterface S}.
Context {Probe : Type} (addrs : outcome (list net_addr)).

Lemma scan_env_none (s : S) env todo found v :
  List.filter (λ e, bool_decide (ev_Name e = EnvInboundPodTunIPv4)) todo = [] →
  scan_env addrs s env todo found v = (s, ScanDone found v).
Proof. induction todo as [|e todo IH]; [done|]. cbn. case_bool_decide; [done|]. exact IH. Qed.

Lemma scan_env_one (s : S) env todo found v f4 :
  List.filter (λ e, bool_decide (ev_Name e = EnvInboundPodTunIPv4)) todo = [MkEnvVar EnvInboundPodTunIPv4 "" f4] →
  scan_env addrs s env todo found v =
    match rent addrs s with
    | (s, Ret v) => (s, ScanDone true (Some v))
    | (s, Fail e) => (s, ScanError e)
    | (s, Panic) => (s, ScanPanic)
    end.
Proof.
  induction todo as [|e todo IH]; [done|]. cbn [List.filter scan_env]. case_bool_decide as He; [|exact IH].
  intros [= -> Hnil]. cbn [ev_Value]. change (IP_Equal RouterIP (cidr_ip "")) with false. cbv iota.
  rewrite bool_decide_true by done. destruct (rent addrs s) as [s1 [w| |]]; [|done..]. by apply scan_env_none.
Qed.

Lemma filter_v4 env f4 f6 :
  List.filter (λ e, tun_name (ev_Name e)) env =
    [MkEnvVar EnvInboundPodTunIPv4 "" f4; MkEnvVar EnvInboundPodTunIPv6 "" f6] →
  List.filter (λ e, bool_decide (ev_Name e = EnvInboundPodTunIPv4)) env = [MkEnvVar EnvInboundPodTunIPv4 "" f4].
Proof.
  intros H. transitivity (List.filter (λ e, bool_decide (ev_Name e = EnvInboundPodTunIPv4))
                            (List.filter (λ e, tun_name (ev_Name e)) env)); [|by rewrite H].
  clear H. induction env as [|e env IH]; [done|]. cbn. case_bool_decide as He.
  - rewrite (tun_name_v4 _ He). cbn. rewrite bool_decide_true by done. by rewrite IH.
  - destruct (tun_name (ev_Name e)); [|done]. cbn. by rewrite bool_decide_false.
Qed.

Lemma admit_others (s : S) (cs : list (Container Probe)) found :
  Forall (λ c, c_Name c ≠ ContainerSidecarVPN) cs → admit_containers addrs s cs found = (s, Ret (cs, found)).
Proof.
  induction 1 as [|c cs Hc _ IH]; [done|]. cbn. rewrite bool_decide_false by done. by rewrite IH.
Qed.

Lemma admit_injected (s : S) (pre post : list (Container Probe)) c found :
  Forall (λ c, c_Name c ≠ ContainerSidecarVPN) pre → Forall (λ c, c_Name c ≠ ContainerSidecarVPN) post →
  c_Name c = ContainerSidecarVPN → fresh_env (c_Env c) →
  admit_containers addrs s (pre ++ c :: post) found =
    match rent addrs s with
    | (s, Ret v) => (s, Ret ((pre ++ with_env c (set_pair (Some v) (c_Env c)) :: post)%list, true))
    | (s, Fail e) => (s, Fail e)
    | (s, Panic) => (s, Panic)
    end.
Proof.
  intros Hpre Hpost Hc [(f4 & f6 & Hf) _]. apply filter_v4 in Hf.
  induction Hpre as [|x pre Hx _ IH]; cbn [app admit_containers].
  - rewrite bool_decide_true by done. rewrite (scan_env_one _ _ _ _ _ _ Hf).
    destruct (rent addrs s) as [s1 [v| |]]; [|done..]. by rewrite admit_others.
  - rewrite bool_decide_false by done. rewrite IH. by destruct (rent addrs s) as [s1 [v| |]].
Qed.
End Shape.

(** ** The leased pair *)

Lemma RentIPRandom_eq {S : Type} `{ConfigMapInterface S} d s addrs :
  RentIPRandom d s addrs = RentIPBaseNICAddress d s addrs.
Proof. reflexivity. Qed.

Lemma addIPOffset_not_router base o :
  (0 ≤ base + o < 2 ^ 128)%Z → (base + o ≠ 65535 * 2 ^ 32 + 3757965412)%Z →
  IP_Equal RouterIP (addIPOffset base o) = false.
Proof.
  intros Hr Hne. unfold IP_Equal, addIPOffset. rewrite length_be_fixed.
  change (length RouterIP) with 16. rewrite (bool_decide_true (16 = 16)) by done.
  apply bool_decide_eq_false_2. intros E. apply (f_equal be_val) in E. rewrite be_val_fixed in E.
  change (256 ^ Z.of_nat 16)%Z with (2 ^ 128)%Z in E. rewrite Z.mod_small in E by lia.
  apply Hne. rewrite <-E. vm_compute. reflexivity.
Qed.

(** What renting promises about the pair: its texts parse back to its addresses, and
    neither is the router's. *)
Definition pair_ok (v4 v6 : IPNet) : Prop :=
  (∃ n, ParseCIDR (IPNet_String v4) = Some (net_IP v4, n)) ∧ (∃ n, ParseCIDR (IPNet_String v6) = Some (net_IP v6, n)) ∧
  IP_Equal RouterIP (net_IP v4) = false ∧ IP_Equal RouterIP (net_IP v6) = false ∧
  ∃ rest, IPNet_String v4 = String "2" rest.

Lemma rent_pair_ok {S : Type} `{ConfigMapLaws S} s addrs s1 v4 v6 :
  RentIPRandom NewDHCPManager s (Ret addrs) = (s1, Some (Ret (v4, v6))) → pair_ok v4 v6.
Proof.
  rewrite RentIPRandom_eq. intros ((o4 & Ho4 & ->) & (o6 & Ho6 & ->) & _)%rented.
  destruct (dhcp4_text o4 Ho4) as (n4 & E4 & _), (dhcp6_text o6 Ho6) as (n6 & E6 & _). pose proof dhcp6_base.
  split; [by exists n4|]. split; [by exists n6|]. split; [|split].
  - apply addIPOffset_not_router; rewrite dhcp4_base; lia.
  - apply addIPOffset_not_router; lia.
  - cbn [net_IP]. unfold addIPOffset. rewrite dhcp4_base.
    replace (65535 * 2 ^ 32 + 3757965413 + o4)%Z with (65535 * 2 ^ 32 + (3757965413 + o4))%Z by lia.
    rewrite v4_bytes by lia.
    assert (z2b ((3757965413 + o4) `div` 2 ^ 24) = xdf) as ->.
    { apply z2b_is. change (b2z xdf) with 223%Z. Z.to_euclidean_division_equations. lia. }
    eexists. unfold IPNet_String, networkNumberAndMask. cbn [net_IP net_Mask]. rewrite To4_v4. reflexivity.
Qed.

(** Membership of an upper IPv6 address in the IPv6 pool's network, by its upper half. *)
Lemma dhcp6_Contains z : (2 ^ 127 ≤ z < 2 ^ 128)%Z →
  IPNet_Contains (r_net dhcp6) (be_fixed 16 z) = bool_decide (z `div` 2 ^ 64 = 17293822569102704639)%Z.
Proof.
  intros Hz. unfold IPNet_Contains. rewrite To4_high by done.
  change (networkNumberAndMask (r_net dhcp6)) with
    (Some ([xef; xff; xff; xff; xff; xff; xff; xff; xff; xff; xff; xff; xff; xff; x99; x99],
      [xff; xff; xff; xff; xff; xff; xff; xff; x00; x00; x00; x00; x00; x00; x00; x00])).
  cbn [default id]. rewrite length_be_fixed, bool_decide_eq_true_2 by done. cbn [andb].
  change 16 with (8 + 8). rewrite be_fixed_app. change (256 ^ Z.of_nat 8)%Z with (2 ^ 64)%Z.
  assert (Hv : be_val (be_fixed 8 (z `div` 2 ^ 64)) = (z `div` 2 ^ 64)%Z).
  { rewrite be_val_fixed. change (256 ^ Z.of_nat 8)%Z with (2 ^ 64)%Z. apply Z.mod_small.
    split; [apply Z.div_pos; lia|]. apply Z.div_lt_upper_bound; lia. }
  pose proof (length_be_fixed 8 (z `div` 2 ^ 64)) as Hl. pose proof (length_be_fixed 8 z) as Hl2.
  revert Hl Hl2 Hv. generalize (be_fixed 8 (z `div` 2 ^ 64)) (be_fixed 8 z). intros l k Hl Hk Hv. rewrite <- Hv. clear Hv Hz z.
  do 8 (destruct l as [|? l]; [discriminate Hl|]). destruct l; [|discriminate Hl].
  do 8 (destruct k as [|? k]; [discriminate Hk|]). destruct k; [|discriminate Hk].
  unfold and_bytes. cbn [zip_with app]. rewrite !byte_and_ff, !byte_and_00. apply bool_decide_ext. split.
  - intros [= <- <- <- <- <- <- <- <-]. vm_compute. reflexivity.
  - intros E. assert (be_val [b; b0; b1; b2; b3; b4; b5; b6] = be_val [xef; xff; xff; xff; xff; xff; xff; xff]) as E'.
    { rewrite E. vm_compute. reflexivity. }
    apply be_val_inj in E'; [|done]. by injection E' as -> -> -> -> -> -> -> ->.
Qed.

(** The shape of the IPv6 pool: the address of an offset can be found again by [Release] if
    and only if the offset is at most 26213. *)
Lemma dhcp6_found o : (0 ≤ o < 65534)%Z →
  contains dhcp6 (addIPOffset (r_base dhcp6) o) = if (o <=? 26213)%Z then Some o else None.
Proof.
  intros Ho. assert (r_base dhcp6 = 17293822569102704639 * 2 ^ 64 + 18446744073709525402)%Z as Eb by (vm_compute; reflexivity).
  assert (IPNet_Contains (r_net dhcp6) (addIPOffset (r_base dhcp6) o) = (o <=? 26213)%Z) as Hc.
  { unfold addIPOffset. rewrite dhcp6_Contains by (rewrite Eb; lia). rewrite Eb.
    destruct (Z.leb_spec o 26213); [rewrite bool_decide_eq_true_2|rewrite bool_decide_eq_false_2];
      try done; Z.to_euclidean_division_equations; lia. }
  destruct (Z.leb_spec o 26213).
  - apply (contains_addIPOffset dhcp6 o Hc); [rewrite Eb; lia|rewrite Eb; lia| |]; change (r_max dhcp6) with 65534%Z; lia.
  - unfold contains. by rewrite Hc.
Qed.

(** What releasing a leased pair frees: the two offsets, if they can be found again. *)
Lemma releases_pair o4 o6 j :
  (0 ≤ o4 < 65534)%Z → (0 ≤ o6 < 65534)%Z →
  let ips := [addIPOffset (r_base dhcp4) o4; addIPOffset (r_base dhcp6) o6] in
  releases true dhcp4 ips j = (j =? o4)%Z && (o4 <=? 65434)%Z ∧
  releases false dhcp6 ips j = (j =? o6)%Z && (o6 <=? 26213)%Z.
Proof.
  intros H4 H6. cbv zeta. pose proof dhcp6_base as Hb.
  destruct (dhcp4_pool_shape o4 H4) as (_ & C4 & _). pose proof (dhcp6_found o6 H6) as C6.
  assert (is_Some (To4 (addIPOffset (r_base dhcp4) o4))) as T4.
  { unfold addIPOffset. rewrite dhcp4_base.
    replace (65535 * 2 ^ 32 + 3757965413 + o4)%Z with (65535 * 2 ^ 32 + (3757965413 + o4))%Z by lia.
    rewrite v4_bytes by lia. rewrite To4_v4. by eexists. }
  assert (To4 (addIPOffset (r_base dhcp6) o6) = None) as T6 by (apply To4_high; lia).
  unfold releases. cbn [existsb]. rewrite C4, C6, T6, (bool_decide_eq_true_2 _ T4).
  rewrite (bool_decide_eq_false_2 (is_Some None)) by (by intros []). cbn [eqb andb orb]. rewrite !orb_false_r.
  split.
  - destruct (Z.leb_spec o4 65434); [|by rewrite andb_false_r, bool_decide_eq_false_2].
    rewrite andb_true_r. destruct (Z.eqb_spec j o4) as [->|]; [by apply bool_decide_eq_true_2|].
    apply bool_decide_eq_false_2. congruence.
  - destruct (Z.leb_spec o6 26213); [|by rewrite andb_false_r, bool_decide_eq_false_2].
    rewrite andb_true_r. destruct (Z.eqb_spec j o6) as [->|]; [by apply bool_decide_eq_true_2|].
    apply bool_decide_eq_false_2. congruence.
Qed.

(** An address of a pool by its offset, free in [z] and leased in [z']. *)
Definition newly_leased (r : Range) (z z' : Z) (ip : list byte) (o : Z) : Prop :=
  (0 ≤ o < 65534)%Z ∧ ip = addIPOffset (r_base r) o ∧ Z.testbit z o = false ∧ Z.testbit z' o = true.

Lemma rent_leases {S : Type} `{ConfigMapLaws S} s addrs s1 v4 v6 :
  RentIPRandom NewDHCPManager s (Ret addrs) = (s1, Some (Ret (v4, v6))) →
  ∃ cm cm1 o4 o6, cmGet s N = Ret cm ∧ cmGet s1 N = Ret cm1 ∧
    newly_leased dhcp4 (leases cm KeyDHCP) (leases cm1 KeyDHCP) (net_IP v4) o4 ∧
    newly_leased dhcp6 (leases cm KeyDHCP6) (leases cm1 KeyDHCP6) (net_IP v6) o6.
Proof.
  rewrite RentIPRandom_eq. unfold RentIPBaseNICAddress.
  destruct (updateDHCPConfigMap NewDHCPManager s (rent_closure addrs)) as [s' [[[a4 a6]| |]|]] eqn:E; intros; simplify_eq.
  apply updateDHCPConfigMap_Ret in E as (cm & cm' & r4 & r6 & Hg & Hf & Hg' & Hd & _).
  destruct (rent_closure_Ret _ _ _ _ _ _ _ Hf) as [(_ & Hw4 & o4 & Ho4 & -> & F4 & T4 & _) (_ & Hw6 & o6 & Ho6 & -> & F6 & T6 & _)];
    [apply range_at_wf, stored_bits_nonneg..|].
  destruct (dhcp_written_data cm r4 r6 cm' Hd Hw4 Hw6) as (Hl4 & Hl6 & _).
  destruct dhcp_max as [M4 M6]. exists cm, cm', o4, o6. split; [exact Hg|]. split; [exact Hg'|].
  rewrite Hl4, Hl6. split; (split; [|split; [reflexivity|split; assumption]]).
  - rewrite <- M4. exact Ho4.
  - rewrite <- M6. exact Ho6.
Qed.

(** The leases after releasing the pair, when the object could be written. *)
Definition pair_freed (cm2 cm3 : ConfigMap) (o4 o6 : Z) : Prop :=
  (∀ j, Z.testbit (leases cm3 KeyDHCP) j = Z.testbit (leases cm2 KeyDHCP) j && negb ((j =? o4) && (o4 <=? 65434))%Z) ∧
  (∀ j, Z.testbit (leases cm3 KeyDHCP6) j = Z.testbit (leases cm2 KeyDHCP6) j && negb ((j =? o6) && (o6 <=? 26213))%Z) ∧
  ∀ key, key ≠ KeyDHCP → key ≠ KeyDHCP6 → data_map cm3 !! key = data_map cm2 !! key.

Lemma release_pair {S : Type} `{ConfigMapLaws S} (s2 s3 : S) o4 o6 :
  (0 ≤ o4 < 65534)%Z → (0 ≤ o6 < 65534)%Z →
  ReleaseIP NewDHCPManager s2 [addIPOffset (r_base dhcp4) o4; addIPOffset (r_base dhcp6) o6] = (s3, Some (Ret tt)) →
  ∃ cm2 cm3, cmGet s2 N = Ret cm2 ∧ cmGet s3 N = Ret cm3 ∧ pair_freed cm2 cm3 o4 o6.
Proof.
  intros H4 H6 Hr. apply release_exact in Hr as (cm2 & cm3 & Hg2 & Hg3 & L4 & L6 & Hk); [|done].
  exists cm2, cm3. split; [exact Hg2|]. split; [exact Hg3|]. split; [|split; [|exact Hk]]; intros j.
  - rewrite L4. f_equal. f_equal. exact (proj1 (releases_pair o4 o6 j H4 H6)).
  - rewrite L6. f_equal. f_equal. exact (proj2 (releases_pair o4 o6 j H4 H6)).
Qed.

Lemma pod_ips_filter env :
  Forall (λ e, IP_Equal RouterIP (cidr_ip (ev_Value e)) = false) env →
  pod_ips env = omap (λ e, fst <$> ParseCIDR (ev_Value e)) (List.filter (λ e, tun_name (ev_Name e)) env).
Proof.
  induction 1 as [|e env He _ IH]; [done|]. cbn [pod_ips List.filter]. rewrite He.
  destruct (tun_name (ev_Name e)); [|exact IH]. cbn [omap list_omap].
  destruct (ParseCIDR (ev_Value e)) as [[ip n]|]; cbn; by rewrite IH.
Qed.

Lemma filter_set_pair v env :
  List.filter (λ e, tun_name (ev_Name e)) (set_pair v env) = set_pair v (List.filter (λ e, tun_name (ev_Name e)) env).
Proof.
  destruct v as [[v4 v6]|]; [|done]. induction env as [|e env IH]; [done|].
  cbn [set_pair fmap list_fmap List.filter] in *.
  assert (∀ e, ev_Name (if bool_decide (ev_Name e = EnvInboundPodTunIPv4)
            then MkEnvVar (ev_Name e) (IPNet_String v4) (ev_FieldPath e)
            else if bool_decide (ev_Name e = EnvInboundPodTunIPv6)
            then MkEnvVar (ev_Name e) (IPNet_String v6) (ev_FieldPath e) else e) = ev_Name e) as Hn.
  { intros e'. by repeat case_bool_decide. }
  rewrite Hn. destruct (tun_name (ev_Name e)); [|exact IH]. cbn [fmap list_fmap]. by rewrite <-IH.
Qed.

(** The addresses read back from the patched environment are the pair. *)
Lemma pod_ips_pair v4 v6 env :
  pair_ok v4 v6 → fresh_env env → pod_ips (set_pair (Some (v4, v6)) env) = [net_IP v4; net_IP v6].
Proof.
  intros ((n4 & E4) & (n6 & E6) & R4 & R6 & _) [(f4 & f6 & Hf) HR]. rewrite pod_ips_filter.
  - rewrite filter_set_pair, Hf. cbn [set_pair fmap list_fmap ev_Name ev_Value].
    rewrite bool_decide_true by done. rewrite bool_decide_false, bool_decide_true by done.
    cbn [omap list_omap ev_Value]. by rewrite E4, E6.
  - apply Forall_fmap. eapply Forall_impl; [exact HR|]. intros e He. cbn.
    repeat case_bool_decide; cbn [ev_Value]; [unfold cidr_ip; by rewrite E4|unfold cidr_ip; by rewrite E6|done].
Qed.

(** ** Theorems *)

(** A pod with one VPN side-car [c], as injection makes it. *)
Definition injected_pod {Probe} (pod : Pod) (pre : list (Container Probe)) c post : Prop :=
  pd_Containers pod = (pre ++ c :: post)%list ∧ c_Name c = ContainerSidecarVPN ∧ fresh_env (c_Env c) ∧
  Forall (λ c, c_Name c ≠ ContainerSidecarVPN) pre ∧ Forall (λ c, c_Name c ≠ ContainerSidecarVPN) post.

Lemma find_injected {Probe} (pre post : list (Container Probe)) c rest :
  Forall (λ c, c_Name c ≠ ContainerSidecarVPN) pre → c_Name c = ContainerSidecarVPN →
  List.find (λ c, bool_decide (c_Name c = ContainerSidecarVPN)) ((pre ++ c :: post) ++ rest) = Some c.
Proof.
  intros Hpre Hc. induction Hpre as [|x pre Hx _ IH]; cbn.
  - by rewrite bool_decide_true.
  - by rewrite bool_decide_false.
Qed.

Section Theorems.
Context {S : Type} `{API : ConfigMapInterface S} `{!ConfigMapLaws S}.
Context {Probe Raw Doc Patch : Type} `{Codec : AdmissionCodec Probe Raw Doc Patch} `{!AdmissionCodecLaws Probe Raw Doc Patch}.

(** C14. The lease follows the pod: when the creation of an injected pod is admitted, the
    stored pools lease an address pair that was free, and the patch writes exactly this
    pair into the two variables of the side-car, changing nothing else of the pod.  When
    the pod with this patch is deleted, at whatever later state of the pools, the deletion
    is allowed, and if the release could be written (its error is only logged) the stored
    pools are as before without exactly this pair, so that it can be leased again; but of
    an IPv4 offset above 65434, or an IPv6 offset above 26213, whose addresses are outside
    the networks of the pools, the lease stays for ever. *)
Theorem lease_follows_pod (s s1 : S) addrs (ar : AdmissionRequest Raw) pod pre c post resp
  (Hdec : decodePod (rq_Object ar) = Ret pod) (Hinj : injected_pod pod pre c post) (Hop : rq_Operation ar = OpCreate)
  (Hadmit : admitPods (Ret addrs) s ar = (s1, Ret resp)) (Hok : rs_Allowed resp = true) :
  ∃ v4 v6 o4 o6 patch cm cm1,
    cmGet s N = Ret cm ∧ cmGet s1 N = Ret cm1 ∧
    newly_leased dhcp4 (leases cm KeyDHCP) (leases cm1 KeyDHCP) (net_IP v4) o4 ∧
    newly_leased dhcp6 (leases cm KeyDHCP6) (leases cm1 KeyDHCP6) (net_IP v6) o6 ∧
    rs_Patch resp = Some patch ∧
    applyPatch patch pod = MkPod (pre ++ with_env c (set_pair (Some (v4, v6)) (c_Env c)) :: post)
                             (pd_InitContainers pod) (pd_EphemeralContainers pod) ∧
    ∀ s2 del, rq_Resource del = podResource → rq_Operation del = OpDelete →
      decodePod (rq_OldObject del) = Ret (applyPatch patch pod) →
      ∃ s3, admitPods (Ret addrs) s2 del = (s3, Ret (MkResponse "" true None None)) ∧
        s3 = fst (ReleaseIP NewDHCPManager s2 [net_IP v4; net_IP v6]) ∧
        (snd (ReleaseIP NewDHCPManager s2 [net_IP v4; net_IP v6]) = Some (Ret tt) →
         ∃ cm2 cm3, cmGet s2 N = Ret cm2 ∧ cmGet s3 N = Ret cm3 ∧ pair_freed cm2 cm3 o4 o6).
Proof.
  destruct Hinj as (Hcs & Hname & Hfresh & Hpre & Hpost).
  unfold admitPods in Hadmit. rewrite Hop in Hadmit.
  destruct (bool_decide (rq_Resource ar = podResource)) eqn:Eres; cbn [negb] in Hadmit; [|by simplify_eq].
  unfold admit_create in Hadmit. rewrite Hdec, Hcs in Hadmit.
  destruct (encodePod pod) as [from| |] eqn:Ef; [|by simplify_eq..].
  rewrite admit_injected in Hadmit by done. unfold rent in Hadmit.
  destruct (RentIPRandom NewDHCPManager s (Ret addrs)) as [s' [[[v4 v6]| |]|]] eqn:Er; [|by simplify_eq..].
  set (pod' := MkPod _ _ _) in Hadmit. destruct (encodePod pod') as [to| |] eqn:Et; cbn [mbind outcome_bind] in Hadmit; [|by simplify_eq..].
  destruct (createPatch from to) as [patch| |] eqn:Ep; [|by simplify_eq..].
  injection Hadmit as -> Ha. unfold applyPodPatch in Ha. rewrite Eres, Hdec in Ha. cbn [negb] in Ha.
  unfold FindContainerByName in Ha. rewrite Hcs, find_injected in Ha by done. injection Ha as <-.
  pose proof (patch_law pod pod' from to patch Ef Et Ep) as Hpatch.
  destruct (rent_leases s addrs s1 v4 v6 Er) as (cm & cm1 & o4 & o6 & Hg & Hg1 & L4 & L6).
  exists v4, v6, o4, o6, patch, cm, cm1. do 4 (split; [assumption|]). split; [done|]. split; [exact Hpatch|].
  intros s2 del Hres Hdel Hold. exists (fst (ReleaseIP NewDHCPManager s2 [net_IP v4; net_IP v6])). split; [|split; [done|]].
  - unfold admitPods. rewrite Hres, Hdel, bool_decide_true by done. cbn [negb].
    unfold admit_delete. rewrite Hold, Hpatch. f_equal. unfold FindContainerByName, pod'. cbn [pd_Containers].
    rewrite find_injected by done. change (c_Env (with_env c ?e)) with e. cbn [c_Env with_env].
    rewrite pod_ips_pair; [by rewrite bool_decide_false|by eapply rent_pair_ok|done].
  - destruct L4 as (H4 & E4 & _), L6 as (H6 & E6 & _). rewrite E4, E6. intros Hs.
    apply (release_pair s2 _ o4 o6 H4 H6). destruct (ReleaseIP NewDHCPManager s2 _). cbn in Hs |- *. by rewrite Hs.
Qed.
End Theorems.

Section SelfRent.
Context {S : Type} `{API : ConfigMapInterface S} `{!ConfigMapLaws S}.

(** A pod that rents its address itself cannot use it: the webhook answers with a
    fresh pair, which the pod keeps in its environment and, when it stops, releases
    exactly; but the tun node is completed with the first character of the answer
    instead of the address, so on a working machine the server cannot be started. *)
Theorem pod_self_rent_fails (s s1 : S) addrs env r v4 v6 url url2
  (Henv : env !! EnvInboundPodTunIPv4 = Some EmptyString) (Hns : Getenv env EnvPodNamespace ≠ EmptyString)
  (Hurl : Url.Parse (api_url (Getenv env EnvPodNamespace) APIRentIP) = Ret url) (Hpath : u_Path url = APIRentIP)
  (Hurl2 : Url.Parse (api_url (Getenv env EnvPodNamespace) APIReleaseIP) = Ret url2) (Hpath2 : u_Path url2 = APIReleaseIP)
  (Hnode : r_ServeNodes r = [injected_node ""])
  (Hrent : RentIPRandom NewDHCPManager s (Ret addrs) = (s1, Some (Ret (v4, v6)))) :
  ∃ env' r', RentIPIfNeeded env (λ q, snd (dhcpServer (Ret addrs) s q)) r = (env', Ret r') ∧
    env' !! EnvInboundPodTunIPv4 = Some (IPNet_String v4) ∧ env' !! EnvInboundPodTunIPv6 = Some (IPNet_String v6) ∧
    (∀ p, p_env p = env' → p_os p = working_os → returns (parseChain r) = true →
       ParseRoute p r' = Fail (Errorf "invalid CIDR address")) ∧
    (∀ do, ReleaseIPIfNeeded env' do = (_ ← do (release_request env' url2); Ret tt)) ∧
    (∀ s2, fst (dhcpServer (Ret addrs) s2 (release_request env' url2)) =
             fst (ReleaseIP NewDHCPManager s2 [net_IP v4; net_IP v6])).
Proof.
  destruct (rent_pair_ok s addrs s1 v4 v6 Hrent) as ((n4 & E4) & (n6 & E6) & _ & _ & rest & Etext).
  set (body := (IPNet_String v4 +:+ "," +:+ IPNet_String v6)%string).
  assert (Split "," body = [IPNet_String v4; IPNet_String v6]) as Hsplit.
  { unfold body. change ("," +:+ IPNet_String v6)%string with (String "," (IPNet_String v6)).
    rewrite Split_app by (by eapply ParseCIDR_plain). by rewrite Split_word by (by eapply ParseCIDR_plain). }
  set (env' := <[EnvInboundPodTunIPv6 := IPNet_String v6]> (<[EnvInboundPodTunIPv4 := IPNet_String v4]> env)).
  set (node := (injected_node "" +:+ "&net=" +:+ "2")%string).
  assert (Getenv env' EnvPodNamespace = Getenv env EnvPodNamespace) as Hns'.
  { unfold Getenv, env'. by rewrite !lookup_insert_ne. }
  exists env', (MkRoute [node] (r_ChainNode r) (r_Retries r)). split_and!.
  - unfold RentIPIfNeeded. rewrite bool_decide_true by done. rewrite bool_decide_false by done.
    rewrite Hurl. unfold dhcpServer at 1. cbn [q_URL]. rewrite Hpath, bool_decide_true by done.
    unfold rentIP, rent. rewrite Hrent. cbn [snd DoReq mbind outcome_bind Z.eqb Pos.eqb]. fold body. rewrite Hsplit. fold env'.
    f_equal. rewrite Hnode. unfold body. rewrite Etext. vm_compute. reflexivity.
  - unfold env'. by simplify_map_eq.
  - unfold env'. by simplify_map_eq.
  - intros p Hp Hos Hc. unfold ParseRoute, GenerateServers.
    change (parseChain (MkRoute [node] (r_ChainNode r) (r_Retries r))) with (parseChain r).
    destruct (parseChain r) as [chain| |]; [|done..]. cbn [r_ServeNodes make_servers].
    assert (make_server p (Some chain) node = Fail (Errorf "invalid CIDR address")) as ->; [|reflexivity].
    destruct p as [pe po pl]. cbn in Hp, Hos. subst po. vm_compute. reflexivity.
  - intros do. unfold ReleaseIPIfNeeded. by rewrite Hns', Hurl2.
  - intros s2. unfold dhcpServer, release_request. cbn [q_URL q_Header]. rewrite Hpath2.
    rewrite bool_decide_false by done. rewrite bool_decide_true by done. unfold releaseIP.
    rewrite lookup_insert_eq, lookup_insert_ne, lookup_insert_eq by done. unfold Getenv, env'. simplify_map_eq.
    cbn [omap list_omap from_option id].
    by destruct (ReleaseIP NewDHCPManager s2 _) as [s3 [[[]| |]|]].
Qed.
End SelfRent.

(** ** Examples *)

(** Objects sent as they are; a patch is the pod it leads to. *)
#[export] Instance plain_codec : AdmissionCodec unit (@Pod unit) (@Pod unit) (@Pod unit) := {
  decodePod p := Ret p; encodePod p := Ret p; createPatch _ to := Ret to; applyPatch to _ := to }.
#[export] Instance plain_codec_laws : AdmissionCodecLaws unit (@Pod unit) (@Pod unit) (@Pod unit).
Proof. constructor. intros p q d d' patch [= <-] [= <-] [= <-]. reflexivity. Qed.

Definition app_container : Container unit :=
  MkContainer "app" "nginx" [] [] [] [] (MkResources [] []) "Always" None [] None None None.
Definition example_pod : @Pod unit := MkPod [app_container; mesh_vpn_container "kubevpn:latest"] [] [].
Definition example_create : AdmissionRequest (@Pod unit) :=
  MkReview "uid-1" podResource OpCreate example_pod (MkPod [] [] []).

Definition example_leased : mem := Eval vm_compute in fst (admitPods (Ret example_nic) example_store example_create).

Lemma example_admitted : fst (admitPods (Ret example_nic) example_store example_create) = example_leased.
Proof. vm_compute. reflexivity. Qed.

(** The object in memory can be written whatever is released. *)
Lemma example_release_ok s ip ip' : s = example_leased → snd (ReleaseIP NewDHCPManager s [ip; ip']) = Some (Ret tt).
Proof.
  intros ->. unfold ReleaseIP. cbn [length Nat.eqb].
  assert (∃ cm, cmGet example_leased N = Ret cm) as [cm Hg] by (eexists; vm_compute; reflexivity).
  rewrite (updateDHCPConfigMap_get _ _ cm _ Hg).
  destruct (release_closure_spec [ip; ip'] (range_at (d_cidr NewDHCPManager) (leases cm KeyDHCP))
    (range_at (d_cidr6 NewDHCPManager) (leases cm KeyDHCP6))) as (r4 & r6 & -> & _); [apply range_at_wf, stored_bits_nonneg..|].
  revert Hg. cbn. intros [= <-]. reflexivity.
Qed.

Lemma lease_follows_pod_witness :
  ∃ s1 resp patch s3 o4 o6 cm2 cm3, admitPods (Ret example_nic) example_store example_create = (s1, Ret resp) ∧
    rs_Patch resp = Some patch ∧
    admitPods (Ret example_nic) s1 (MkReview "uid-2" podResource OpDelete example_pod (applyPatch patch example_pod)) =
      (s3, Ret (MkResponse "" true None None)) ∧
    cmGet s1 N = Ret cm2 ∧ cmGet s3 N = Ret cm3 ∧ pair_freed cm2 cm3 o4 o6.
Proof.
  assert (match snd (admitPods (Ret example_nic) example_store example_create) with
          | Ret resp => rs_Allowed resp | _ => false end = true) as H by (vm_compute; reflexivity).
  destruct (admitPods (Ret example_nic) example_store example_create) as [s1 [resp| |]] eqn:E; [|discriminate H..].
  destruct (lease_follows_pod (S := mem) example_store s1 example_nic example_create example_pod [app_container]
    (mesh_vpn_container "kubevpn:latest") [] resp) as (v4 & v6 & o4 & o6 & patch & cm & cm1 & Hg & Hg1 & L4 & L6 & Hp & Ha & Hdel).
  - reflexivity.
  - split; [reflexivity|]. split; [reflexivity|]. split; [exact (mesh_fresh_env "kubevpn:latest")|].
    split; [constructor; [discriminate|constructor]|constructor].
  - reflexivity.
  - exact E.
  - exact H.
  - destruct (Hdel s1 (MkReview "uid-2" podResource OpDelete example_pod (applyPatch patch example_pod)))
      as (s3 & H1 & _ & H3); [reflexivity..|].
    destruct H3 as (cm2 & cm3 & H4 & H5 & H6).
    + apply example_release_ok. rewrite <- example_admitted. rewrite E. reflexivity.
    + exists s1, resp, patch, s3, o4, o6, cm2, cm3. split; [reflexivity|].
      split; [exact Hp|]. split; [exact H1|]. split; [exact H4|]. split; [exact H5|exact H6].
Defined.

Definition example_env : gmap string string :=
  <[EnvPodNamespace := "default"%string]> (<[EnvInboundPodTunIPv4 := EmptyString]> ∅).
Definition example_route : Route := MkRoute [injected_node ""] "tcp://kubevpn-traffic-manager:10800" 5.

Lemma pod_self_rent_fails_witness :
  ∃ env' r', fst (RentIPIfNeeded example_env (λ q, snd (dhcpServer (Ret example_nic) example_store q)) example_route) = env' ∧
    ParseRoute (MkProcess env' working_os (λ _, None)) r' = Fail (Errorf "invalid CIDR address") ∧
    r_ServeNodes r' = ["tun:/localhost:8422?net=&route=223.254.0.0/16&net=2"%string].
Proof.
  assert (match snd (RentIPRandom NewDHCPManager example_store (Ret example_nic)) with Some (Ret _) => True | _ => False end) as H
    by (vm_compute; exact I).
  destruct (RentIPRandom NewDHCPManager example_store (Ret example_nic)) as [s1 [[[v4 v6]| |]|]] eqn:E; [|contradiction..].
  destruct (pod_self_rent_fails (S := mem) example_store s1 example_nic example_env example_route v4 v6
    (MkURL "https" "kubevpn-traffic-manager.default.svc:80" APIRentIP "" "")
    (MkURL "https" "kubevpn-traffic-manager.default.svc:80" APIReleaseIP "" ""))
    as (env' & r' & Hr & _ & _ & Hp & _); [vm_compute; try reflexivity; try discriminate..|exact E|].
  exists env', r'. split; [by rewrite Hr|]. split.
  - apply Hp; reflexivity.
  - assert (snd (RentIPIfNeeded example_env (λ q, snd (dhcpServer (Ret example_nic) example_store q)) example_route) =
      Ret (MkRoute ["tun:/localhost:8422?net=&route=223.254.0.0/16&net=2"%string] "tcp://kubevpn-traffic-manager:10800" 5)) as Hc
      by (vm_compute; reflexivity).
    rewrite Hr in Hc. injection Hc as ->. reflexivity.
Defined.
