(* ===== verification/Workloads.v ===== *)
(** * The workloads a request names

    [pkg/util/unstructure.go], [GetTopOwnerReference] and
    [GetTopOwnerReferenceBySelector] of [pkg/util/pod.go], and [PreCheckResource] of
    [pkg/handler/connect.go]: a request names workloads the way kubectl does; the
    check replaces each by its topmost controller, and a service by the controller
    of its pods.  The kubectl resource builder and the API server are the class
    [Factory]; the order of a Go map is the argument [UnsortedList].

    Following the controllers is a loop without a bound.  [GetTopOwnerReference] takes
    fuel and returns [None] when it runs out; [GetTopOwnerReference_returns] says when
    the loop ends. *)
From Stdlib Require Import Ascii Lia.
From stdpp Require Import base gmap strings list relations.
From S2P Require Import Prelude GoStrings Clone.
Local Open Scope string_scope.

(** ** Objects *)

(** [meta.RESTMapping]: the plural name, the group and the kind. *)
Record Mapping := MkMapping { Resource : string; Group : string; Kind : string }.
#[export] Instance Mapping_eq_dec : EqDecision Mapping.
Proof. solve_decision. Defined.

(** [GroupKind.String] and [GroupResource.String]. *)
Definition group_text (x group : string) : string :=
  if String.eqb group "" then x else x +:+ "." +:+ group.

Definition GroupKind_String (m : Mapping) : string := group_text (Kind m) (Group m).
Definition GroupResource_String (m : Mapping) : string := group_text (Resource m) (Group m).

Record OwnerReference := MkOwner {
  or_APIVersion : string; or_Kind : string; or_Name : string; or_Controller : option bool }.

(** [resource.Info] with the parts of its object that are read. *)
Record Info := MkInfo {
  i_Mapping : Mapping; i_Name : string; i_Owners : list OwnerReference; i_Labels : gmap string string }.

(** [fmt.Sprintf("%s/%s", ...)]: how the code writes a workload. *)
Definition kind_name (i : Info) : string := GroupKind_String (i_Mapping i) +:+ "/" +:+ i_Name i.
Definition resource_name (i : Info) : string := GroupResource_String (i_Mapping i) +:+ "/" +:+ i_Name i.

Definition GetControllerOf (i : Info) : option OwnerReference :=
  List.find (λ r, bool_decide (or_Controller r = Some true)) (i_Owners i).

(** [schema.ParseGroupVersion] *)
Definition ParseGroupVersion (gv : string) : error + string * string :=
  if String.eqb gv "" || String.eqb gv "/" then inr ("", "")
  else match Count "/" gv with
  | 0 => inr ("", gv)
  | 1 => match Split "/" gv with
         | [group; version] => inr (group, version)
         | _ => inl (Errorf "unexpected GroupVersion string")
         end
  | _ => inl (Errorf "unexpected GroupVersion string")
  end.

(** The workload the loop of [GetTopOwnerReference] goes on with. *)
Definition owner_workload (i : Info) : option string :=
  match GetControllerOf i with
  | None => None
  | Some ref =>
      match ParseGroupVersion (or_APIVersion ref) with
      | inl _ => None
      | inr (group, _) => Some (group_text (or_Kind ref) group +:+ "/" +:+ or_Name ref)
      end
  end.

(** ** The cluster *)

Class Factory (F : Type) := {
  f_args : F → list string → error + list Info;      (** [ResourceTypeOrNameArgs(true, args...)] *)
  f_all : F → string → error + list Info;            (** the resources of [all] with a selector *)
  f_service : F → string → error + gmap string string; (** the selector of a service *)
  f_pods : F → string → error + list string;         (** the names of the pods of a selector *)
}.

(** A workload written by kind finds the object it was written for. *)
Class FactoryLaws (F : Type) `{Factory F} : Prop := {
  args_kind f args l i : f_args f args = inr l → i ∈ l → ∃ r, f_args f [kind_name i] = inr (i :: r);
}.

Section Lookup.
Context {F : Type} `{Factory F}.

Definition GetUnstructuredObject (f : F) (workload : string) : error + Info :=
  match f_args f [workload] with
  | inl e => inl e
  | inr [] => inl (Errorf "not found workloads")
  | inr (i :: _) => inr i
  end.

Definition GetUnstructuredObjectList (f : F) (workloads : list string) : error + list Info :=
  match f_args f workloads with
  | inl e => inl e
  | inr [] => inl (Errorf "not found resource")
  | inr l => inr l
  end.

Definition GetUnstructuredObjectBySelector (f : F) (selector : string) : error + list Info :=
  match f_all f selector with
  | inl e => inl e
  | inr [] => inl (Errorf "Not found")
  | inr l => inr l
  end.

Fixpoint GetTopOwnerReference (fuel : nat) (f : F) (workload : string) : option (error + Info) :=
  match fuel with
  | O => None
  | S fuel =>
      match GetUnstructuredObject f workload with
      | inl e => Some (inl e)
      | inr object =>
          match owner_workload object with
          | None => Some (inr object)
          | Some workload => GetTopOwnerReference fuel f workload
          end
      end
  end.

(** The loop over the objects of a selector: tops that are no services. *)
Fixpoint top_set (fuel : nat) (f : F) (l : list Info) (set : gset string) : option (gset string) :=
  match l with
  | [] => Some set
  | info :: l =>
      r ← GetTopOwnerReference fuel f (resource_name info);
      top_set fuel f l
        match r with
        | inr reference =>
            if String.eqb (Resource (i_Mapping reference)) "services" then set
            else {[ kind_name reference ]} ∪ set
        | inl _ => set
        end
  end.

Definition GetTopOwnerReferenceBySelector (fuel : nat) (f : F) (selector : string)
    : option (error + gset string) :=
  match GetUnstructuredObjectBySelector f selector with
  | inl e => Some (inl e)
  | inr l => inr <$> top_set fuel f l ∅
  end.

(** [polymorphichelpers.SelectorsForObject] of a service. *)
Definition SelectorsForObject (selector : gmap string string) : error + string :=
  if (size selector =? 0)%nat then inl (Errorf "Service is defined without a selector")
  else inr (labels_String selector).

(** ** [PreCheckResource] *)

Context (UnsortedList : gset string → list string).

(** The loop over normal workloads. *)
Fixpoint top_workloads (fuel : nat) (f : F) (workloads : list string) : option (list string) :=
  match workloads with
  | [] => Some []
  | workload :: workloads =>
      r ← GetTopOwnerReference fuel f workload;
      rest ← top_workloads fuel f workloads;
      Some (match r with inr ownerReference => kind_name ownerReference | inl _ => workload end :: rest)
  end.

(** A service's workload; [controller.UnsortedList()[0]] is some element. *)
Definition service_controller (fuel : nat) (f : F) (workload selector : string) : option (error + string) :=
  match f_pods f selector with
  | inr (pod :: _) =>
      r ← GetTopOwnerReference fuel f ("pods/" +:+ pod);
      Some (inr match r with inr ownerReference => kind_name ownerReference | inl _ => workload end)
  | _ =>
      r ← GetTopOwnerReferenceBySelector fuel f selector;
      Some match r with
           | inl _ => inl (Errorf "not support resources")
           | inr controller =>
               match UnsortedList controller with
               | [] => inl (Errorf "not support resources")
               | c :: _ => inr c
               end
           end
  end.

Definition service_workload (fuel : nat) (f : F) (workload : string) : option (error + string) :=
  match GetUnstructuredObject f workload with
  | inl e => Some (inl e)
  | inr object =>
      if negb (String.eqb (Resource (i_Mapping object)) "services") then Some (inr workload)
      else match f_service f (i_Name object) with
      | inl _ => Some (inr workload)
      | inr get =>
          match SelectorsForObject get with
          | inl _ => Some (inr workload)
          | inr selector => service_controller fuel f workload selector
          end
      end
  end.

(** The loop over services: the workloads replaced so far stay replaced. *)
Fixpoint service_workloads (fuel : nat) (f : F) (workloads : list string)
    : option (list string * outcome unit) :=
  match workloads with
  | [] => Some ([], Ret tt)
  | workload :: rest =>
      r ← service_workload fuel f workload;
      match r with
      | inl e => Some (workload :: rest, Fail e)
      | inr w =>
          '(ws, o) ← service_workloads fuel f rest;
          Some (w :: ws, o)
      end
  end.

Definition PreCheckResource (fuel : nat) (f : F) (workloads : list string)
    : option (list string * outcome unit) :=
  match workloads with
  | [] => Some ([], Ret tt)
  | _ =>
      match GetUnstructuredObjectList f workloads with
      | inl e => Some (workloads, Fail e)
      | inr l =>
          resources ← top_workloads fuel f (kind_name <$> l);
          service_workloads fuel f resources
      end
  end.
End Lookup.

(** ** Following the controllers *)

Section Controllers.
Context {F : Type} `{Factory F}.

(** [w'] is the controller the loop goes on with from [w]. *)
Definition controls (f : F) (w' w : string) : Prop :=
  ∃ o, GetUnstructuredObject f w = inr o ∧ owner_workload o = Some w'.

Lemma GetTopOwnerReference_more f fuel fuel' w r :
  GetTopOwnerReference fuel f w = Some r → (fuel ≤ fuel')%nat → GetTopOwnerReference fuel' f w = Some r.
Proof.
  revert fuel' w. induction fuel as [|fuel IH]; intros fuel' w; [done|].
  intros Hr Hle. destruct fuel' as [|fuel']; [lia|]. cbn in *.
  destruct (GetUnstructuredObject f w) as [e|o]; [done|].
  destruct (owner_workload o); [|done]. apply IH; [done|lia].
Qed.

Lemma GetTopOwnerReference_top f fuel w o :
  GetTopOwnerReference fuel f w = Some (inr o) →
  ∃ w', rtc (flip (controls f)) w w' ∧ GetUnstructuredObject f w' = inr o ∧ owner_workload o = None.
Proof.
  revert w. induction fuel as [|fuel IH]; intros w; [done|]. cbn.
  destruct (GetUnstructuredObject f w) as [e|i] eqn:Hi; [done|].
  destruct (owner_workload i) as [w1|] eqn:Ho.
  - intros (w' & Hr & Hw)%IH. exists w'. split; [|done]. eapply rtc_l; [|done]. by exists i.
  - intros [= <-]. by exists w.
Qed.

Lemma GetTopOwnerReference_Acc f fuel w r :
  GetTopOwnerReference fuel f w = Some r → Acc (controls f) w.
Proof.
  revert w. induction fuel as [|fuel IH]; intros w; [done|]. cbn. intros Hr.
  constructor. intros w' (o & Ho & Hw). rewrite Ho, Hw in Hr. by eapply IH.
Qed.

Lemma Acc_GetTopOwnerReference f w :
  Acc (controls f) w → ∃ fuel r, GetTopOwnerReference fuel f w = Some r.
Proof.
  induction 1 as [w _ IH]. destruct (GetUnstructuredObject f w) as [e|o] eqn:Ho.
  - exists 1%nat, (inl e). cbn. by rewrite Ho.
  - destruct (owner_workload o) as [w'|] eqn:Hw.
    + destruct (IH w') as (fuel & r & Hr); [by exists o|].
      exists (S fuel), r. cbn. by rewrite Ho, Hw.
    + exists 1%nat, (inr o). cbn. by rewrite Ho, Hw.
Qed.

(**  Following the controllers of a workload ends, with an object or an error,
    exactly when the chain of controllers from it is finite; a cycle of owner
    references makes the loop run for ever.  When it ends with an object, that is the
    object at the end of the chain: it has no controller whose API version parses. *)
Theorem GetTopOwnerReference_returns f w :
  ((∃ fuel r, GetTopOwnerReference fuel f w = Some r) ↔ Acc (controls f) w) ∧
  ∀ fuel o, GetTopOwnerReference fuel f w = Some (inr o) →
    ∃ w', rtc (flip (controls f)) w w' ∧ GetUnstructuredObject f w' = inr o ∧ owner_workload o = None.
Proof.
  split.
  - split; [|apply Acc_GetTopOwnerReference].
    intros (fuel & r & Hr). by eapply GetTopOwnerReference_Acc.
  - intros fuel o. apply GetTopOwnerReference_top.
Qed.

(** *** Enough fuel *)

(** [g] returns [r] with every fuel that is large enough. *)
Definition settles {A} (g : nat → option A) (r : A) : Prop := ∃ n, ∀ fuel, (n ≤ fuel)%nat → g fuel = Some r.
Definition ends {A} (g : nat → option A) : Prop := ∃ r, settles g r.

Lemma ends_ret {A} (a : A) : ends (λ _, Some a).
Proof. by exists a, 0%nat. Qed.

Lemma ends_bind {A B} (g : nat → option A) (k : nat → A → option B) :
  ends g → (∀ a, ends (λ fuel, k fuel a)) → ends (λ fuel, g fuel ≫= k fuel).
Proof.
  intros (a & n & Hg) Hk. destruct (Hk a) as (b & m & Hb). exists b, (n + m)%nat. intros fuel Hf.
  rewrite Hg by lia. cbn. apply Hb. lia.
Qed.

Context (f : F) (Hwf : ∀ w, Acc (controls f) w).

Lemma GetTopOwnerReference_ends w : ends (λ fuel, GetTopOwnerReference fuel f w).
Proof.
  destruct (Acc_GetTopOwnerReference f w (Hwf w)) as (n & r & Hr). exists r, n. intros fuel Hf.
  by eapply GetTopOwnerReference_more.
Qed.

Lemma top_set_ends l set : ends (λ fuel, top_set fuel f l set).
Proof.
  revert set. induction l as [|i l IH]; intros set; [apply ends_ret|]. cbn [top_set].
  apply ends_bind; [apply GetTopOwnerReference_ends|]. intros r. apply IH.
Qed.

Lemma top_workloads_ends ws : ends (λ fuel, top_workloads fuel f ws).
Proof.
  induction ws as [|w ws IH]; [apply ends_ret|]. cbn [top_workloads].
  apply ends_bind; [apply GetTopOwnerReference_ends|]. intros r. apply ends_bind; [exact IH|]. intros rest. apply ends_ret.
Qed.

Lemma GetTopOwnerReferenceBySelector_ends selector : ends (λ fuel, GetTopOwnerReferenceBySelector fuel f selector).
Proof.
  unfold GetTopOwnerReferenceBySelector. destruct (GetUnstructuredObjectBySelector f selector) as [e|l]; [apply ends_ret|].
  destruct (top_set_ends l ∅) as (set & n & Hs). exists (inr set), n. intros fuel Hf. by rewrite Hs.
Qed.

Lemma service_workload_ends UnsortedList w : ends (λ fuel, service_workload UnsortedList fuel f w).
Proof.
  unfold service_workload, service_controller.
  destruct (GetUnstructuredObject f w) as [e|o]; [apply ends_ret|]. destruct (negb _); [apply ends_ret|].
  destruct (f_service f (i_Name o)) as [e|get]; [apply ends_ret|].
  destruct (SelectorsForObject get) as [e|selector]; [apply ends_ret|].
  destruct (f_pods f selector) as [e|[|pod pods]].
  1, 2: apply ends_bind; [apply GetTopOwnerReferenceBySelector_ends|]; intros r; apply ends_ret.
  apply ends_bind; [apply GetTopOwnerReference_ends|]. intros r. apply ends_ret.
Qed.

(** The check of a request ends when no chain of controllers is endless. *)
Lemma PreCheckResource_ends UnsortedList ws : ends (λ fuel, PreCheckResource UnsortedList fuel f ws).
Proof.
  unfold PreCheckResource. destruct ws as [|w0 ws0]; [apply ends_ret|].
  destruct (GetUnstructuredObjectList f (w0 :: ws0)) as [e|l]; [apply ends_ret|].
  apply ends_bind; [apply top_workloads_ends|]. intros ws. induction ws as [|w ws IH]; [apply ends_ret|]. cbn [service_workloads].
  apply ends_bind; [apply service_workload_ends|]. intros [e|w']; [apply ends_ret|].
  apply ends_bind; [exact IH|]. intros [ws' o]. apply ends_ret.
Qed.
End Controllers.

Section Tops.
Context {F : Type} `{Factory F}.
Context `{!FactoryLaws F}.

Lemma found_kind f w o : GetUnstructuredObject f w = inr o → GetUnstructuredObject f (kind_name o) = inr o.
Proof.
  unfold GetUnstructuredObject. destruct (f_args f [w]) as [e|[|i l]] eqn:E; [done|done|].
  intros [= ->]. destruct (args_kind f [w] (o :: l) o E ltac:(left)) as [r Hr]. by rewrite Hr.
Qed.

(** [w] names an object that has no controller. *)
Definition top_level (f : F) (w : string) : Prop :=
  ∃ o, GetUnstructuredObject f w = inr o ∧ owner_workload o = None ∧ w = kind_name o.

Lemma top_is_top f fuel w o : GetTopOwnerReference fuel f w = Some (inr o) → top_level f (kind_name o).
Proof.
  intros (w' & _ & Hw & Ho)%GetTopOwnerReference_top. exists o. split; [|done]. by eapply found_kind.
Qed.

Lemma top_set_top f fuel l set set' c :
  top_set fuel f l set = Some set' → c ∈ set' → c ∈ set ∨ top_level f c.
Proof.
  revert set. induction l as [|i l IH]; intros set; cbn; [intros [= <-]; by left|].
  destruct (GetTopOwnerReference fuel f (resource_name i)) as [r|] eqn:Hr; [|done]. cbn.
  intros Hs Hc. destruct (IH _ Hs Hc) as [Hin|]; [|by right].
  destruct r as [e|o]; [by left|]. destruct (String.eqb _ _); [by left|].
  apply elem_of_union in Hin as [->%elem_of_singleton|]; [|by left].
  right. by eapply top_is_top.
Qed.

Lemma top_workloads_lookup f fuel ws ws' k w :
  top_workloads fuel f ws = Some ws' → ws !! k = Some w →
  ∃ r, GetTopOwnerReference fuel f w = Some r ∧
    ws' !! k = Some match r with inr o => kind_name o | inl _ => w end.
Proof.
  revert k ws'. induction ws as [|w0 ws IH]; intros k ws'; [done|]. cbn.
  destruct (GetTopOwnerReference fuel f w0) as [r|] eqn:Hr; [|done]. cbn.
  destruct (top_workloads fuel f ws) as [rest|]; [|done]. cbn. intros [= <-].
  destruct k as [|k]; cbn; [intros [= <-]; eauto|]. intros Hk. by eapply IH.
Qed.

Lemma top_workloads_length f fuel ws ws' : top_workloads fuel f ws = Some ws' → length ws' = length ws.
Proof.
  revert ws'. induction ws as [|w0 ws IH]; intros ws'; cbn; [by intros [= <-]|].
  destruct (GetTopOwnerReference fuel f w0) as [r|]; [|done]. cbn.
  destruct (top_workloads fuel f ws) as [rest|]; [|done]. cbn. intros [= <-]. cbn. by rewrite (IH rest).
Qed.

Section Checked.
Context (UnsortedList : gset string → list string).
Context (HU : ∀ X x, x ∈ UnsortedList X → x ∈ X).

Lemma service_workloads_lookup f fuel ws ws' :
  service_workloads UnsortedList fuel f ws = Some (ws', Ret tt) →
  Forall2 (λ w w', service_workload UnsortedList fuel f w = Some (inr w')) ws ws'.
Proof.
  clear HU. revert ws'. induction ws as [|w ws IH]; intros ws'; cbn; [intros [= <-]; constructor|].
  destruct (service_workload UnsortedList fuel f w) as [[e|w']|] eqn:Hw; [done| |done]. cbn.
  destruct (service_workloads UnsortedList fuel f ws) as [[ws1 o]|]; [|done]. cbn.
  intros [= <- ->]. constructor; [done|]. by apply IH.
Qed.

Lemma service_controller_top f fuel w sel w' :
  top_level f w → service_controller UnsortedList fuel f w sel = Some (inr w') → top_level f w'.
Proof.
  intros Hw. unfold service_controller. destruct (f_pods f sel) as [e|[|pod pods]].
  3: { destruct (GetTopOwnerReference fuel f _) as [[e|o]|] eqn:Hr; [|..|done]; cbn; intros [= <-]; [done|].
       by eapply top_is_top. }
  all: destruct (GetTopOwnerReferenceBySelector fuel f sel) as [[e'|set]|] eqn:Hs; [done| |done]; cbn.
  all: destruct (UnsortedList set) as [|c cs] eqn:Hu; [done|]; intros [= <-].
  all: unfold GetTopOwnerReferenceBySelector in Hs.
  all: destruct (GetUnstructuredObjectBySelector f sel) as [e''|l]; [done|].
  all: destruct (top_set fuel f l ∅) as [set'|] eqn:Ht; [|done]; cbn in Hs; injection Hs as ->.
  all: destruct (top_set_top f fuel l ∅ set c Ht) as [Hc|]; [|set_solver|done].
  all: apply HU; rewrite Hu; left.
Qed.

Lemma service_workload_top f fuel w w' :
  top_level f w → service_workload UnsortedList fuel f w = Some (inr w') →
  top_level f w' ∧
  ∀ o, GetUnstructuredObject f w = inr o → Resource (i_Mapping o) ≠ "services" → w' = w.
Proof.
  intros Hw. pose proof Hw as (o & Ho & _). unfold service_workload. rewrite Ho.
  destruct (String.eqb_spec (Resource (i_Mapping o)) "services") as [Hs|Hs]; cbn.
  - intros H'. split; [|by intros ? [= <-] ?].
    destruct (f_service f (i_Name o)) as [e|get]; [by injection H' as <-|].
    destruct (SelectorsForObject get) as [e|sel]; [by injection H' as <-|].
    by eapply service_controller_top.
  - intros [= <-]. by split.
Qed.
End Checked.
End Tops.

(** ** The check of a request *)

Lemma service_workloads_no_panic {F} `{Factory F} UnsortedList fuel (f : F) ws ws' :
  service_workloads UnsortedList fuel f ws ≠ Some (ws', Panic).
Proof.
  revert ws'. induction ws as [|w ws IH]; intros ws'; cbn; [done|].
  destruct (service_workload UnsortedList fuel f w) as [[e|w']|]; [done| |done]. cbn.
  destruct (service_workloads UnsortedList fuel f ws) as [[ws1 [[]| |]]|]; cbn; try done.
  by destruct (IH ws1).
Qed.

Lemma PreCheckResource_no_panic {F} `{Factory F} UnsortedList fuel (f : F) ws ws' :
  PreCheckResource UnsortedList fuel f ws ≠ Some (ws', Panic).
Proof.
  unfold PreCheckResource. destruct ws as [|w ws]; [done|].
  destruct (GetUnstructuredObjectList f _); [done|].
  destruct (top_workloads fuel f _); [|done]. apply service_workloads_no_panic.
Qed.

(**  When the objects a request names have controllers that exist, the check
    returns as many workloads as kubectl finds objects, each of them the name of an
    object without a controller; an object whose topmost controller is no service is
    replaced by exactly that controller. *)
Theorem PreCheckResource_resolves {F} `{FactoryLaws F} UnsortedList fuel (f : F) ws ws' l
    (HU : ∀ X x, x ∈ UnsortedList X → x ∈ X)
    (Hws : ws ≠ [])
    (Hl : f_args f ws = inr l)
    (Htop : ∀ i, i ∈ l → ∃ t, GetTopOwnerReference fuel f (kind_name i) = Some (inr t))
    (Hr : PreCheckResource UnsortedList fuel f ws = Some (ws', Ret tt)) :
  length ws' = length l ∧
  ∀ k i, l !! k = Some i →
    ∃ t w, GetTopOwnerReference fuel f (kind_name i) = Some (inr t) ∧ ws' !! k = Some w ∧
      top_level f w ∧ (Resource (i_Mapping t) ≠ "services" → w = kind_name t).
Proof.
  unfold PreCheckResource, GetUnstructuredObjectList in Hr. rewrite Hl in Hr.
  destruct ws as [|w0 ws]; [done|]. destruct l as [|i0 l]; [done|].
  remember (i0 :: l) as l0. clear Heql0.
  destruct (top_workloads fuel f (kind_name <$> l0)) as [tops|] eqn:Ht; [|done]. cbn in Hr.
  apply service_workloads_lookup in Hr.
  pose proof (top_workloads_length _ _ _ _ Ht) as Hlen. rewrite length_fmap in Hlen.
  split; [by rewrite <- (Forall2_length _ _ _ Hr)|].
  intros k i Hk. destruct (Htop i) as [t Hti]; [by eapply list_elem_of_lookup_2|].
  destruct (top_workloads_lookup f fuel _ _ k (kind_name i) Ht) as (r & Hr' & Hk').
  { by rewrite list_lookup_fmap, Hk. }
  rewrite Hti in Hr'. injection Hr' as <-.
  destruct (Forall2_lookup_l _ _ _ _ _ Hr Hk') as (w & Hw & Hsw).
  pose proof (top_is_top f fuel _ t Hti) as Htl.
  destruct (service_workload_top UnsortedList HU f fuel _ w Htl Hsw) as [Hw1 Hw2].
  exists t, w. split; [done|]. split; [done|]. split; [done|].
  destruct Htl as (o & Ho & _ & _). intros Hs.
  apply (Hw2 t); [|done]. by eapply GetTopOwnerReference_top in Hti as (w' & _ & Hf%found_kind & _).
Qed.

(** ** A cluster in memory *)

Record objects := MkObjects { os : list Info; services : gmap string (gmap string string) }.

Definition by_kind (f : objects) (arg : string) : option Info :=
  List.find (λ i, String.eqb (kind_name i) arg) (os f).

(** By kind, or by resource. *)
Definition find_object (f : objects) (arg : string) : option Info :=
  match by_kind f arg with
  | Some i => Some i
  | None =>
      i ← List.find (λ i, String.eqb (resource_name i) arg) (os f);
      by_kind f (kind_name i)
  end.

Definition labelled (f : objects) (selector : string) : list Info :=
  List.filter (λ i, String.eqb (labels_String (i_Labels i)) selector) (os f).

#[export] Instance objects_Factory : Factory objects := {
  f_args f args := match mapM (find_object f) args with None => inl NotFound | Some l => inr l end;
  f_all f selector := inr (labelled f selector);
  f_service f name := match services f !! name with Some s => inr s | None => inl NotFound end;
  f_pods f selector :=
    inr (i_Name <$> List.filter (λ i, String.eqb (Kind (i_Mapping i)) "Pod") (labelled f selector));
}.

Lemma find_object_kind f arg i : find_object f arg = Some i → by_kind f (kind_name i) = Some i.
Proof.
  unfold find_object. destruct (by_kind f arg) as [j|] eqn:E.
  - intros [= ->]. pose proof E as [_ <-%String.eqb_eq]%find_some. done.
  - destruct (List.find _ (os f)) as [j|]; [|done]. cbn. intros Hj.
    pose proof Hj as [_ ->%String.eqb_eq]%find_some. done.
Qed.

#[export] Instance objects_laws : FactoryLaws objects.
Proof.
  constructor. cbn. intros f args l i Hl Hi. exists [].
  destruct (mapM (find_object f) args) as [l'|] eqn:Hm; [|done]. injection Hl as ->.
  apply mapM_Some_1 in Hm. apply list_elem_of_lookup in Hi as [k Hk].
  destruct (Forall2_lookup_r _ _ _ _ _ Hm Hk) as (arg & _ & Harg%find_object_kind).
  unfold find_object at 1. by rewrite Harg.
Qed.

Definition example_owner (api kind name : string) : list OwnerReference := [MkOwner api kind name (Some true)].
Definition example_labels : gmap string string := {[ "app" := "ratings" ]}.
Definition example_pod_info : Info :=
  MkInfo (MkMapping "pods" "" "Pod") "ratings-5d-x" (example_owner "apps/v1" "ReplicaSet" "ratings-5d") example_labels.
Definition example_objects : objects :=
  MkObjects
    [example_pod_info;
     MkInfo (MkMapping "replicasets" "apps" "ReplicaSet") "ratings-5d" (example_owner "apps/v1" "Deployment" "ratings") ∅;
     MkInfo (MkMapping "deployments" "apps" "Deployment") "ratings" [] ∅;
     MkInfo (MkMapping "services" "" "Service") "ratings" [] ∅]
    {[ "ratings" := example_labels ]}.

(** A pod and a service of one deployment both resolve to the deployment. *)
Lemma example_check :
  PreCheckResource elements 3 example_objects ["pods/ratings-5d-x"; "services/ratings"] =
  Some (["Deployment.apps/ratings"; "Deployment.apps/ratings"], Ret tt).
Proof. vm_compute. reflexivity. Qed.

Lemma PreCheckResource_resolves_witness :
  ∃ t w, GetTopOwnerReference 3 example_objects (kind_name example_pod_info) = Some (inr t) ∧
    ["Deployment.apps/ratings"; "Deployment.apps/ratings"] !! 0 = Some w ∧
    top_level example_objects w ∧ (Resource (i_Mapping t) ≠ "services" → w = kind_name t).
Proof.
  pose (l := match f_args example_objects ["pods/ratings-5d-x"; "services/ratings"] with inr l => l | inl _ => [] end).
  refine (proj2 (PreCheckResource_resolves elements 3 example_objects _ _ l _ _ _ _ example_check) 0 example_pod_info _).
  - intros X x. by rewrite elem_of_elements.
  - discriminate.
  - vm_compute. reflexivity.
  - intros i Hi. vm_compute in Hi.
    apply elem_of_cons in Hi as [->|Hi]; [eexists; vm_compute; reflexivity|].
    apply elem_of_cons in Hi as [->|Hi]; [eexists; vm_compute; reflexivity|]. by apply elem_of_nil in Hi.
  - vm_compute. reflexivity.
Defined.

(** Two objects that are each other's controller. *)
Definition example_cycle : objects :=
  MkObjects [MkInfo (MkMapping "as" "x.io" "A") "a" (example_owner "x.io/v1" "B" "b") ∅;
             MkInfo (MkMapping "bs" "x.io" "B") "b" (example_owner "x.io/v1" "A" "a") ∅] ∅.

Lemma cycle_never_returns fuel :
  GetTopOwnerReference fuel example_cycle "A.x.io/a" = None ∧
  GetTopOwnerReference fuel example_cycle "B.x.io/b" = None.
Proof.
  induction fuel as [|fuel [IHa IHb]]; [done|]. cbn [GetTopOwnerReference].
  assert (controls example_cycle "B.x.io/b" "A.x.io/a" ∧ controls example_cycle "A.x.io/a" "B.x.io/b")
    as [(a & -> & ->) (b & -> & ->)]; [|done].
  split; eexists; split; vm_compute; reflexivity.
Qed.
