(* ===== verification/Handlers.v ===== *)
(** * The handlers over the modelled operations

    [pkg/daemon/action]: [Proxy], [Leave], [List], [Clone], [Remove], [ConfigAdd] and
    [ConfigRemove], with [IsSameCluster] of [pkg/util/ns.go] and
    [CloneOptions.Cleanup] of [pkg/handler/clone.go].  [Proxy] composes the check of
    the request (Workloads), the user daemon's own [Disconnect] and [Connect]
    (Daemon) and the injection of the side-cars (Sidecar); its state is the pair of
    daemons, the server's ConfigMaps and its workloads.  The clones of a session live
    in the target cluster, the class [Target]. *)
From Stdlib Require Import Ascii ZArith Lia.
From stdpp Require Import base gmap strings list numbers.
From S2P Require Import Prelude GoStrings Config KubeApi Clone Cleaner ControlPlane Envoy Daemon Sidecar Workloads.
Local Open Scope string_scope.

(** ** Which connection a request means *)

(** [IsSameCluster]: [a] and [b] are the UIDs of the two traffic manager maps. *)
Definition IsSameCluster (namespace namespaceB : string) (a b : error + string) : error + bool :=
  if negb (String.eqb namespace namespaceB) then inr false
  else match a with
  | inl e => inl e
  | inr a => match b with inl e => inl e | inr b => inr (String.eqb a b) end
  end.

(** The fields [ConnectOptions.Equal] compares; [reflect.DeepEqual] tells a nil slice
    from an empty one. *)
Record Settings := MkSettings {
  UseLocalDNS : bool; Engine : string; ExtraDomain : option (list string); ExtraCIDR : option (list string) }.

Definition Equal (c a : Settings) : bool :=
  Bool.eqb (UseLocalDNS c) (UseLocalDNS a) && String.eqb (Engine c) (Engine a) &&
  bool_decide (ExtraDomain c = ExtraDomain a) && bool_decide (ExtraCIDR c = ExtraCIDR a).

(** The condition of [Proxy], [Connect] and [ConnectFork]. *)
Definition same_connection (same : error + bool) (c a : Settings) : bool :=
  match same with inr true => Equal c a | _ => false end.

(** ** Proxy, Leave, List *)

Section Handlers.
Context {Probe : Type} `{JC : JsonCodec Probe}.
Context {W : Type} `{WI : WorkloadInterface W Probe}.
Context {S : Type} `{API : ConfigMapInterface S} `{Y : YamlCodec}.
Context {F : Type} `{FA : Factory F}.
Context (Image envoyConfig : string).
Context (UnsortedList : gset string → list string).
(** The tunnel addresses of a connection, as text; [None] is a nil address. *)
Context (tun : conn → option string * option string).

Record world := MkWorld { w_daemons : daemons; w_maps : S; w_objs : W }.

Definition tun_invalid : error := Errorf "local tun ip is invalid".

(** The whole [CreateRemoteInboundPod], its guard included. *)
Definition inbound (c : conn) (workloads : list string) (headers : option (gmap string string))
    (rollout : string → outcome unit) (s : S) (w : W) : S * W * outcome unit :=
  match tun c with
  | (Some v4, Some v6) =>
      CreateRemoteInboundPod Image envoyConfig s w workloads (MkPodRoute v4 v6) headers rollout
  | _ => (s, w, Fail tun_invalid)
  end.

(** Relaying a stream of the daemon itself: a failing [Send] ends the handler after
    the request had its effect. *)
Definition relay (send : option error) (r : result daemons) : result daemons :=
  match r_out r, send with
  | Ret _, Some e => MkResult (r_state r) (r_cleaned r) (Fail e)
  | _, _ => r
  end.

(** Leaving another cluster; [e] is the environment of [Proxy], [ed] of the request
    it makes. *)
Definition leave_other (e ed : Env) (req : conn) (d : daemons) : result daemons :=
  match connect (user d) with
  | None => MkResult d [] (Ret tt)
  | Some c =>
      if e_same e c req then MkResult d [] (Ret tt)
      else relay (e_send e) (Disconnect ed (MkDisconnect false (Some 0%Z)) d)
  end.

(** Connecting, when there is no connection; [ec], [es] are the environments of the
    request in the two daemons. *)
Definition connect_new (e ec es : Env) (req : conn) (d : daemons) : result daemons :=
  match connect (user d) with
  | Some _ => MkResult d [] (Ret tt)
  | None => relay (e_send e) (Connect ec es req d)
  end.

Definition ensure_connected (e ed ec es : Env) (req : conn) (d : daemons) : result daemons :=
  let r1 := leave_other e ed req d in
  match r_out r1 with
  | Ret _ =>
      let r2 := connect_new e ec es req (r_state r1) in
      MkResult (r_state r2) (r_cleaned r1 ++ r_cleaned r2) (r_out r2)
  | _ => r1
  end.

(** [Proxy]: what [PreCheckResource] resolves is dropped with the local
    [ConnectOptions]; the workloads of the request are proxied. *)
Definition Proxy (fuel : nat) (f : F) (e ed ec es : Env) (req : conn) (workloads : list string)
    (headers : option (gmap string string)) (rollout : string → outcome unit) (x : world)
    : option (world * list conn * outcome unit) :=
  match first_error [e_kubeconfig e; e_ssh e; e_init e] with
  | Some err => Some (x, [], Fail err)
  | None =>
      '(_, checked) ← PreCheckResource UnsortedList fuel f workloads;
      match checked with
      | Fail err => Some (x, [], Fail err)
      | Panic => Some (x, [], Panic)
      | Ret _ =>
          if negb (e_client e) then Some (x, [], Fail (Errorf "daemon is not avaliable"))
          else
            let r := ensure_connected e ed ec es req (w_daemons x) in
            let x1 := MkWorld (r_state r) (w_maps x) (w_objs x) in
            match r_out r with
            | Fail err => Some (x1, r_cleaned r, Fail err)
            | Panic => Some (x1, r_cleaned r, Panic)
            | Ret _ =>
                match connect (user (r_state r)) with
                | None => Some (x1, r_cleaned r, Panic)
                | Some c =>
                    let '(s, w, o) := inbound c workloads headers rollout (w_maps x) (w_objs x) in
                    Some (MkWorld (r_state r) s w, r_cleaned r, o)
                end
            end
      end
  end.

(** The loop of [Leave]: a workload that fails is logged and skipped. *)
Fixpoint leave_loop (ip : string) (workloads : list string) (s : S) (w : W) : S * W * outcome unit :=
  match workloads with
  | [] => (s, w, Ret tt)
  | workload :: workloads =>
      match UnPatchContainer s w workload ip with
      | (s, w, Panic) => (s, w, Panic)
      | (s, w, _) => leave_loop ip workloads s w
      end
  end.

Definition Leave (workloads : list string) (x : world) : world * outcome unit :=
  match connect (user (w_daemons x)) with
  | None => (x, Fail (Errorf "not proxy any resource in cluster"))
  | Some c =>
      let '(s, w, o) := leave_loop (default "" (tun c).1) workloads (w_maps x) (w_objs x) in
      (MkWorld (w_daemons x) s w, o)
  end.

Fixpoint rename_uids (v : list Virtual) : outcome (list Virtual) :=
  match v with
  | [] => Ret []
  | x :: v =>
      uid ← leave_uid (Uid x);
      v ← rename_uids v;
      Ret (MkVirtual uid (Ports x) (Rules x) :: v)
  end.

(** [List]: the text of the answer. *)
Definition List_ (x : world) : outcome string :=
  match connect (user (w_daemons x)) with
  | None => Fail (Errorf "not connect to any cluster")
  | Some _ =>
      cm ← cmGet (w_maps x) ConfigMapPodTrafficManager;
      v ← match data_map cm !! KeyEnvoy with Some str => yaml_Unmarshal str | None => Ret [] end;
      v ← rename_uids v;
      yaml_Marshal v
  end.
End Handlers.
Arguments world : clear implicits.

(** ** Clones of a session *)

(** The target cluster: the factory's queries, and the dynamic client's [Delete] of a
    resource by name ([None] is success).  [t_has] is what a query would see. *)
Class Target (T : Type) `{Factory T} := {
  t_delete : T → Mapping → string → T * option error;
  t_has : T → Mapping → string → bool;
}.
Class TargetLaws (T : Type) `{Target T} : Prop := {
  delete_gone t m n t' r : t_delete t m n = (t', r) → r = None ∨ r = Some NotFound → t_has t' m n = false;
  delete_other t m n t' r m' n' :
    t_delete t m n = (t', r) → (m', n') ≠ (m, n) → t_has t' m' n' = t_has t m' n';
  delete_no_new t m n t' r : t_delete t m n = (t', r) → t_has t' m n = true → t_has t m n = true;
}.

(** [CloneOptions] as the daemon keeps it: the workloads, and the object each function
    of [rollbackFuncList] deletes. *)
Record Session := MkSession { s_Workloads : list string; s_Rollback : list (Mapping * string) }.

Section Clones.
Context {F : Type} `{FA : Factory F}.
Context {T : Type} `{TA : Target T}.
Context (UnsortedList : gset string → list string).

(** The name part of [Kind.group/name]. *)
Definition clone_name (s : string) : string :=
  match Split "/" s with [_; name] => name | _ => s end.

Fixpoint delete_clones (m : Mapping) (names : list string) (t : T) : T * outcome unit :=
  match names with
  | [] => (t, Ret tt)
  | n :: names =>
      match t_delete t m (clone_name n) with
      | (t, Some e) =>
          if bool_decide (e = NotFound) then delete_clones m names t else (t, Fail e)
      | (t, None) => delete_clones m names t
      end
  end.

Definition clone_selector (origin : string) : string :=
  labels_String {[ ManageBy := ConfigMapPodTrafficManager; "origin-workload" := origin ]}.

Fixpoint cleanup_workloads (fuel : nat) (f : F) (client : option error) (workloads : list string) (t : T)
    : option (T * outcome unit) :=
  match workloads with
  | [] => Some (t, Ret tt)
  | workload :: workloads =>
      match GetUnstructuredObject f workload with
      | inl e => Some (t, Fail e)
      | inr object =>
          r ← GetTopOwnerReferenceBySelector fuel t (clone_selector (i_Name object));
          match r with
          | inl e => Some (t, Fail e)
          | inr controller =>
              match client with
              | Some e => Some (t, Fail e)
              | None =>
                  match delete_clones (i_Mapping object) (UnsortedList controller) t with
                  | (t, Ret _) => cleanup_workloads fuel f client workloads t
                  | (t, o) => Some (t, o)
                  end
              end
          end
      end
  end.

(** The functions of [rollbackFuncList]; an error is only logged. *)
Definition rollback (l : list (Mapping * string)) (t : T) : T :=
  fold_left (λ t d, (t_delete t d.1 d.2).1) l t.

Definition CloneOptions_Cleanup (fuel : nat) (f : F) (client : option error) (d : Session)
    (workloads : list string) (t : T) : option (T * outcome unit) :=
  let workloads := match workloads with [] => s_Workloads d | _ => workloads end in
  '(t, o) ← cleanup_workloads fuel f client workloads t;
  match o with
  | Ret _ => Some (rollback (s_Rollback d) t, Ret tt)
  | o => Some (t, o)
  end.

(** [Clone]: the answer of the daemon's own [Connect] ([NoClient]: [GetClient] returned
    nil, which is called all the same; [Canceled] stands for the gRPC codes that end
    the handler without an error), then the steps before [DoClone], and
    [doclone], the result of [DoClone]: the session it built, the target and the
    outcome. *)
Inductive conn_answer := Connected | NoClient | Canceled | ConnFailed (e : error).

Definition Clone (fuel : nat) (f : F) (client : option error) (answer : conn_answer) (steps : list (option error))
    (doclone : T → Session * T * outcome unit) (clone : option Session) (t : T)
    : option (option Session * T * outcome unit) :=
  match answer with
  | NoClient => Some (clone, t, Panic)
  | Canceled => Some (clone, t, Ret tt)
  | ConnFailed e => Some (clone, t, Fail e)
  | Connected =>
      match first_error steps with
      | Some e => Some (clone, t, Fail e)
      | None =>
          match doclone t with
          | (d, t, Ret _) => Some (Some d, t, Ret tt)
          | (d, t, Fail e) =>
              '(t, _) ← CloneOptions_Cleanup fuel f client d [] t;
              Some (clone, t, Fail e)
          | (_, t, Panic) => Some (clone, t, Panic)
          end
      end
  end.

(** [Remove]: the session is forgotten whatever [Cleanup] returns. *)
Definition Remove (fuel : nat) (f : F) (client : option error) (workloads : list string)
    (clone : option Session) (t : T) : option (option Session * T * outcome unit) :=
  match clone with
  | None => Some (None, t, Ret tt)
  | Some d =>
      '(t, o) ← CloneOptions_Cleanup fuel f client d workloads t;
      Some (None, t, o)
  end.
End Clones.

(** ** Kubeconfigs added behind a jump host *)

(** [CancelFunc]: a cancel function per path.  [ConfigAdd] stores it before it looks at
    the error of [SshJump]; [ConfigRemove] returns the function it calls, and the map
    keeps it. *)
Definition ConfigAdd (kubeconfig ssh : option error) (path : string) (cancel : nat) (m : gmap string nat)
    : gmap string nat * outcome string :=
  match kubeconfig with
  | Some e => (m, Fail e)
  | None =>
      (<[path := cancel]> m, match ssh with Some e => Fail e | None => Ret path end)
  end.

Definition ConfigRemove (cluster : string) (m : gmap string nat) : option nat := m !! cluster.

(** ** Lemmas: the requests a handler makes *)

Lemma Connect_no_panic eu es req d : r_out (Connect eu es req d) ≠ Panic.
Proof.
  unfold Connect. destruct (negb _); [done|]. destruct (user_prepare eu); [done|].
  destruct (match connect (user d) with Some c => _ | None => _ end); [done|].
  destruct (e_rent eu); [done|].
  assert (r_out (sudo_Connect es req (sudo d)) ≠ Panic) as Hs.
  { unfold sudo_Connect. by destruct (t_set (sudo d)), (prepare es), (e_do es). }
  by destruct (r_out (sudo_Connect es req (sudo d))), (e_send eu).
Qed.

Lemma Connect_new eu es req d :
  connect (user d) = None → r_out (Connect eu es req d) = Ret tt →
  let d' := r_state (Connect eu es req d) in
  connect (user d') = Some req ∧ connect (sudo d') = Some req ∧
  secondary (user d') = secondary (user d) ∧ secondary (sudo d') = secondary (sudo d) ∧
  r_cleaned (Connect eu es req d) = [].
Proof.
  intros Hn. unfold Connect. rewrite Hn. destruct (negb _); [done|]. destruct (user_prepare eu); [done|].
  destruct (e_rent eu); [done|]. unfold sudo_Connect. destruct (t_set (sudo d)); [done|].
  destruct (prepare es); [done|]. destruct (e_do es); [done|]. cbn. by destruct (e_send eu).
Qed.

(** What is cleaned up on leaving the full connection of a daemon. *)
Definition full_cleaned (svr : Server) : list conn := opt_list (connect svr) ++ opt_list (clone svr).

Lemma Disconnect_full ed d :
  let r := Disconnect ed (MkDisconnect false (Some 0%Z)) d in
  r_out r ≠ Panic ∧
  (r_out r = Ret tt →
   r_state r = MkDaemons (MkServer false None None (secondary (user d)))
                         (MkServer false None None (secondary (sudo d))) ∧
   r_cleaned r = (full_cleaned (sudo d) ++ full_cleaned (user d))%list).
Proof. unfold Disconnect. destruct (negb _); [done|]. cbn. by destruct (e_send ed). Qed.

Lemma relay_out send r : r_out (relay send r) = Ret tt → relay send r = r ∧ r_out r = Ret tt.
Proof.
  unfold relay. destruct (r_out r) as [[]|e|] eqn:E, send as [e'|]; cbn; rewrite ?E; done.
Qed.

Lemma relay_no_panic send r : r_out r ≠ Panic → r_out (relay send r) ≠ Panic.
Proof. unfold relay. destruct (r_out r) as [[]|e|] eqn:E, send as [e'|]; cbn; by rewrite ?E. Qed.

(** The connections that are left when [req] is not the one there is. *)
Definition left_for (d : daemons) : list conn :=
  match connect (user d) with None => [] | Some _ => full_cleaned (sudo d) ++ full_cleaned (user d) end.

Lemma ensure_connected_ok e ed ec es req d :
  let r := ensure_connected e ed ec es req d in
  r_out r ≠ Panic ∧
  (r_out r = Ret tt →
   (∃ c, connect (user d) = Some c ∧ e_same e c req = true ∧ r_state r = d ∧ r_cleaned r = []) ∨
   (connect (user (r_state r)) = Some req ∧ connect (sudo (r_state r)) = Some req ∧
    secondary (user (r_state r)) = secondary (user d) ∧
    secondary (sudo (r_state r)) = secondary (sudo d) ∧ r_cleaned r = left_for d)).
Proof.
  unfold ensure_connected, leave_other, left_for.
  destruct (connect (user d)) as [c|] eqn:Hc.
  - destruct (e_same e c req) eqn:Hsame.
    { cbn. unfold connect_new. rewrite Hc. cbn. split; [done|]. intros _. left. by exists c. }
    destruct (Disconnect_full ed d) as [Hp Hd].
    set (r0 := Disconnect ed _ d) in *.
    pose proof (relay_no_panic (e_send e) r0 Hp) as Hrp.
    destruct (r_out (relay (e_send e) r0)) as [[]|err|] eqn:Hr; cbn; [|by rewrite Hr|done].
    apply relay_out in Hr as [-> Hr]. destruct (Hd Hr) as [Hs Hcl]. rewrite Hs, Hcl.
    set (d1 := MkDaemons _ _). unfold connect_new. cbn [connect user d1].
    split; [apply relay_no_panic, Connect_no_panic|].
    intros [-> Ho]%relay_out. right.
    destruct (Connect_new ec es req d1 eq_refl Ho) as (? & ? & ? & ? & ->).
    rewrite app_nil_r. done.
  - cbn. unfold connect_new. rewrite Hc.
    split; [apply relay_no_panic, Connect_no_panic|].
    intros [-> Ho]%relay_out. right.
    destruct (Connect_new ec es req d Hc Ho) as (? & ? & ? & ? & ->). done.
Qed.

(** ** Proxying through the daemon *)

(** What a proxy request has done when it ends with [o]. *)
Definition proxied {Probe} `{JsonCodec Probe} {W} `{!WorkloadInterface W Probe} {S} `{ConfigMapInterface S} `{YamlCodec}
    Image envoyConfig tun (e : Env) (req : conn) workloads headers rollout (x x' : world W S) (cleaned : list conn)
    (o : outcome unit) : Prop :=
  match o with
  | Fail _ => True
  | Panic =>
      ∃ c, (inbound (Probe := Probe) Image envoyConfig tun c workloads headers rollout (w_maps x) (w_objs x)).2 = Panic
  | Ret _ =>
      ∃ c v4 v6, connect (user (w_daemons x')) = Some c ∧ tun c = (Some v4, Some v6) ∧
        CreateRemoteInboundPod (Probe := Probe) Image envoyConfig (w_maps x) (w_objs x) workloads (MkPodRoute v4 v6) headers
          rollout = (w_maps x', w_objs x', Ret tt) ∧
        (connection_shared (w_daemons x) → connect (sudo (w_daemons x')) = Some c) ∧
        ((connect (user (w_daemons x)) = Some c ∧ e_same e c req = true ∧
          w_daemons x' = w_daemons x ∧ cleaned = []) ∨
         (c = req ∧ connect (sudo (w_daemons x')) = Some req ∧
          secondary (user (w_daemons x')) = secondary (user (w_daemons x)) ∧
          secondary (sudo (w_daemons x')) = secondary (sudo (w_daemons x)) ∧
          cleaned = left_for (w_daemons x)))
  end.

Lemma Proxy_proxied {Probe} `{JsonCodec Probe} {W} `{!WorkloadInterface W Probe} {S} `{ConfigMapInterface S}
    `{YamlCodec} {F} `{Factory F} Image envoyConfig UnsortedList tun
    fuel (f : F) e ed ec es req workloads headers rollout (x : world W S) x' cleaned o :
  Proxy (Probe := Probe) Image envoyConfig UnsortedList tun fuel f e ed ec es req workloads headers
    rollout x = Some (x', cleaned, o) →
  proxied (Probe := Probe) Image envoyConfig tun e req workloads headers rollout x x' cleaned o.
Proof.
  intros HP. unfold Proxy in HP. unfold proxied. destruct (first_error _); [by simplify_eq|].
  destruct (PreCheckResource UnsortedList fuel f workloads) as [[ws [[]|err|]]|] eqn:Hpre; [| | |done];
    cbn in HP; [|by simplify_eq|by apply PreCheckResource_no_panic in Hpre].
  destruct (negb (e_client e)); [by simplify_eq|].
  destruct (ensure_connected_ok e ed ec es req (w_daemons x)) as [Hnp Hok].
  set (r := ensure_connected _ _ _ _ _ _) in *.
  destruct (r_out r) as [[]|err|] eqn:Hr; [|by simplify_eq|done].
  specialize (Hok eq_refl).
  assert (∃ c, connect (user (r_state r)) = Some c) as [c Hc].
  { destruct Hok as [(c & Hc & _ & -> & _)|(Hc & _)]; eauto. }
  rewrite Hc in HP.
  destruct (inbound _ _ _ c _ _ _ _ _) as [[s w] o'] eqn:Hin. simplify_eq.
  destruct o as [[]|err|]; [|done|exists c; by rewrite Hin].
  unfold inbound in Hin. destruct (tun c) as [[v4|] [v6|]] eqn:Ht; try done.
  exists c, v4, v6. split; [done|]. split; [done|]. split; [done|].
  destruct Hok as [(c' & Hc' & Hs & Hd & Hcl)|(Hu & Hs & Hsec & Hsec2 & Hcl)]; cbn in *.
  - rewrite Hd in Hc |- *. simplify_eq. split; [intros Hsh; by apply Hsh|]. by left.
  - simplify_eq. split; [done|]. by right.
Qed.


(** ** Listing *)

Lemma rename_uids_targets v :
  foldr (λ x acc, u ← leave_uid (Uid x); l ← acc; Ret (u :: l)) (Ret []) v =
  (λ v', Uid <$> v') <$> rename_uids v.
Proof.
  induction v as [|x v IH]; [done|]. cbn. rewrite IH.
  destruct (leave_uid (Uid x)); [|done..]. cbn. by destruct (rename_uids v).
Qed.

Lemma leave_uid_node r n : Count "." n = 0%nat → leave_uid (r +:+ "." +:+ n) = Ret (r +:+ "/" +:+ n).
Proof.
  intros Hn. unfold leave_uid. change ("." +:+ n) with (String "." n).
  rewrite LastIndex_app by done. rewrite str_take_app. do 2 f_equal. change ("/" +:+ n) with (String "/" n).
  f_equal. rewrite <- (str_drop_app (r +:+ ".") n) at 2. rewrite str_app_assoc, length_str_app. cbn.
  by rewrite Nat.add_comm.
Qed.

Definition same_rules (a b : Virtual) : Prop :=
  Ports b = Ports a ∧ Rules b = Rules a ∧
  ∀ r n, Uid a = r +:+ "." +:+ n → Count "." n = 0%nat → Uid b = r +:+ "/" +:+ n.

Lemma rename_uids_same v v' : rename_uids v = Ret v' → Forall2 same_rules v v'.
Proof.
  revert v'. induction v as [|x v IH]; intros v'; cbn; [by intros [= <-]|].
  destruct (leave_uid (Uid x)) as [u| |] eqn:Hu; [|done..]. cbn.
  destruct (rename_uids v) as [v1| |]; [|done..]. cbn. intros [= <-].
  constructor; [|by apply IH]. split; [done|]. split; [done|].
  intros r n Hx Hn. rewrite Hx, leave_uid_node in Hu by done. by injection Hu.
Qed.

(**  The answer of [List] reads back as the stored rules, one entry per workload
    with its ports and rules unchanged; the names it shows are exactly those on which
    leaving all proxied resources calls [UnPatchContainer], and the name shown for a
    workload whose own name has no dot is resource.group/name, as [Leave] takes it. *)
Theorem List_shows_leavable {W S} `{ConfigMapInterface S} `{YamlLaws} (x : world W S) text
    (HL : List_ x = Ret text) :
  ∃ cm v v',
    cmGet (w_maps x) ConfigMapPodTrafficManager = Ret cm ∧
    virtuals cm = Ret v ∧ yaml_Unmarshal text = Ret v' ∧ Forall2 same_rules v v' ∧
    leave_targets (w_maps x) = Ret (Uid <$> v').
Proof.
  unfold List_ in HL. destruct (connect _); [|done].
  apply outcome_bind_Ret in HL as (cm & Hcm & HL). apply outcome_bind_Ret in HL as (v & Hv & HL).
  apply outcome_bind_Ret in HL as (v' & Hv' & HL).
  exists cm, v, v'. split; [done|]. split; [done|].
  split; [by apply yaml_roundtrip|]. split; [by apply rename_uids_same|].
  unfold leave_targets, data_get. rewrite Hcm.
  destruct (data_map cm !! KeyEnvoy) as [str|]; cbn [default from_option id].
  - destruct (String.eqb_spec str "") as [->|_].
    + rewrite yaml_empty in Hv. injection Hv as <-. by injection Hv' as <-.
    + rewrite Hv. cbn [mbind outcome_bind]. by rewrite rename_uids_targets, Hv'.
  - injection Hv as <-. by injection Hv' as <-.
Qed.

(** A workload whose name has a dot is shown, and left, under a wrong name. *)
Lemma dotted_name_misread :
  leave_uid "deployments.apps.ratings.v1" = Ret "deployments.apps.ratings/v1".
Proof. reflexivity. Qed.

(** ** Cleaning up clones *)

Section Cleaning.
Context {T : Type} `{TargetLaws T}.

Lemma delete_has t m n m' n' :
  t_has (t_delete t m n).1 m' n' = true → t_has t m' n' = true.
Proof.
  destruct (t_delete t m n) as [t' r] eqn:E. cbn. intros Ht.
  destruct (decide ((m', n') = (m, n))) as [[= -> ->]|Hne].
  - by eapply delete_no_new.
  - by rewrite <- (delete_other _ _ _ _ _ _ _ E Hne).
Qed.

Lemma rollback_cons d l t : rollback (d :: l) t = rollback l (t_delete t d.1 d.2).1.
Proof. done. Qed.

Lemma rollback_has l t m n : t_has (rollback l t) m n = true → t_has t m n = true.
Proof.
  revert t. induction l as [|d l IH]; intros t; [done|]. rewrite rollback_cons.
  intros Ht%IH. by eapply delete_has.
Qed.

Lemma rollback_other l t m n : (m, n) ∉ l → t_has (rollback l t) m n = t_has t m n.
Proof.
  revert t. induction l as [|[m0 n0] l IH]; intros t Hni; [done|].
  rewrite rollback_cons, IH by set_solver. cbn. destruct (t_delete t m0 n0) as [t' r] eqn:E. cbn.
  eapply delete_other; [done|]. set_solver.
Qed.

Lemma rollback_gone l t m n :
  (∀ t, (t_delete t m n).2 = None ∨ (t_delete t m n).2 = Some NotFound) →
  (m, n) ∈ l → t_has (rollback l t) m n = false.
Proof.
  intros Hdel. revert t. induction l as [|d l IH]; intros t Hin; [by apply elem_of_nil in Hin|].
  rewrite rollback_cons. apply elem_of_cons in Hin as [<-|Hin]; [|by apply IH]. cbn.
  apply not_true_is_false. intros Ht%rollback_has.
  specialize (Hdel t). destruct (t_delete t m n) as [t' r] eqn:E. cbn in *.
  by rewrite (delete_gone _ _ _ _ _ E Hdel) in Ht.
Qed.

Lemma delete_clones_other m names t m' n' :
  (m' = m → n' ∉ clone_name <$> names) →
  t_has (delete_clones m names t).1 m' n' = t_has t m' n'.
Proof.
  revert t. induction names as [|n names IH]; intros t Hni; [done|]. cbn.
  destruct (t_delete t m (clone_name n)) as [t' r] eqn:E.
  assert (t_has t' m' n' = t_has t m' n') as Ht.
  { eapply delete_other; [done|]. intros [= -> ->]. apply (Hni eq_refl). left. }
  assert (m' = m → n' ∉ clone_name <$> names) as Hni'.
  { intros Hm Hin. apply (Hni Hm). by right. }
  destruct r as [e|]; [|by rewrite IH].
  case_bool_decide; [by rewrite IH|done].
Qed.

Context {F : Type} `{Factory F}.
Context (UnsortedList : gset string → list string).

(** [n] is the name of a top owner the clean-up found under the labels of the clones
    of one of [workloads]. *)
Definition found_clone (fuel : nat) (f : F) (workloads : list string) (m : Mapping) (n : string) : Prop :=
  ∃ w o t1 set c, w ∈ workloads ∧ GetUnstructuredObject f w = inr o ∧ m = i_Mapping o ∧
    GetTopOwnerReferenceBySelector fuel (t1 : T) (clone_selector (i_Name o)) = Some (inr set) ∧
    c ∈ UnsortedList set ∧ n = clone_name c.

Lemma found_clone_more fuel f w ws m n : found_clone fuel f ws m n → found_clone fuel f (w :: ws) m n.
Proof. intros (w' & o & t1 & set & c & Hw & Hr). exists w', o, t1, set, c. split; [by right|done]. Qed.

Lemma cleanup_workloads_frame fuel f client ws t t' o m n :
  cleanup_workloads UnsortedList fuel f client ws t = Some (t', o) →
  t_has t' m n = t_has t m n ∨ found_clone fuel f ws m n.
Proof.
  revert t. induction ws as [|w ws IH]; intros t; cbn; [intros [= <- <-]; by left|].
  destruct (GetUnstructuredObject f w) as [e|i] eqn:Hi; [intros [= <- <-]; by left|].
  destruct (GetTopOwnerReferenceBySelector fuel t _) as [[e|set]|] eqn:Hs; [|..|done]; cbn;
    [intros [= <- <-]; by left|].
  destruct client as [e|]; [intros [= <- <-]; by left|].
  destruct (decide (m = i_Mapping i ∧ n ∈ clone_name <$> UnsortedList set)) as [[-> Hn]|Hno].
  { intros _. right. apply list_elem_of_fmap in Hn as (c & -> & Hc).
    exists w, i, t, set, c. split; [left|done]. }
  assert (m = i_Mapping i → n ∉ clone_name <$> UnsortedList set) as Hni by naive_solver.
  pose proof (delete_clones_other (i_Mapping i) (UnsortedList set) t m n Hni) as Hd.
  destruct (delete_clones (i_Mapping i) (UnsortedList set) t) as [t1 [[]|e|]]; cbn in Hd.
  - intros [->|?]%IH; [by left|]. right. by apply found_clone_more.
  - intros [= <- <-]. by left.
  - intros [= <- <-]. by left.
Qed.
End Cleaning.

(**  Removing clones: when [Remove] succeeds the session is forgotten, every clone the
    session made is gone from the target cluster, whichever workloads the request
    named, and nothing else is deleted but objects found under the labels of the clones
    of the workloads it named (of all its workloads when it named none). *)
Theorem Remove_removes_all {T} `{TargetLaws T} {F} `{Factory F} UnsortedList
    fuel (f : F) client d ws (t t' : T) session
    (Hdel : ∀ t m n, (m, n) ∈ s_Rollback d →
       (t_delete t m n).2 = None ∨ (t_delete t m n).2 = Some NotFound)
    (HR : Remove UnsortedList fuel f client ws (Some d) t = Some (session, t', Ret tt)) :
  session = None ∧
  (∀ m n, (m, n) ∈ s_Rollback d → t_has t' m n = false) ∧
  (∀ m n, t_has t' m n ≠ t_has t m n →
     (m, n) ∈ s_Rollback d ∨
     found_clone (T := T) UnsortedList fuel f (match ws with [] => s_Workloads d | _ => ws end) m n).
Proof.
  unfold Remove, CloneOptions_Cleanup in HR. set (chosen := match ws with [] => _ | _ => _ end) in *.
  destruct (cleanup_workloads UnsortedList fuel f client chosen t) as [[t1 [[]|e|]]|] eqn:Hc; [|done..].
  cbn in HR. injection HR as <- <-. split; [done|]. split.
  - intros m n Hin. apply rollback_gone; [|done]. intros t0. by apply Hdel.
  - intros m n Hne. destruct (decide ((m, n) ∈ s_Rollback d)) as [|Hni]; [by left|]. right.
    rewrite rollback_other in Hne by done.
    by destruct (cleanup_workloads_frame UnsortedList fuel f client chosen t t1 (Ret tt) m n Hc).
Qed.

(** ** The properties on an example *)

(** A target cluster in memory: deleting removes the objects of that name. *)
#[export] Instance objects_Target : Target objects := {
  t_delete t m n :=
    if existsb (λ i, bool_decide (i_Mapping i = m) && String.eqb (i_Name i) n) (os t)
    then (MkObjects (List.filter (λ i, negb (bool_decide (i_Mapping i = m) && String.eqb (i_Name i) n)) (os t))
            (services t), None)
    else (t, Some NotFound);
  t_has t m n := existsb (λ i, bool_decide (i_Mapping i = m) && String.eqb (i_Name i) n) (os t);
}.

Lemma existsb_filter {A} (p q : A → bool) l :
  existsb p (List.filter q l) = existsb (λ x, p x && q x) l.
Proof.
  induction l as [|x l IH]; [done|]. cbn. destruct (q x); cbn; rewrite IH.
  - by rewrite andb_true_r.
  - by rewrite andb_false_r.
Qed.

#[export] Instance objects_target_laws : TargetLaws objects.
Proof.
  constructor; cbn.
  - intros t m n t' r. destruct (existsb _ (os t)) eqn:E; intros [= <- <-] _; [|done]. cbn.
    rewrite existsb_filter. apply Envoy.existsb_false. intros i _. apply andb_negb_r.
  - intros t m n t' r m' n'. destruct (existsb _ (os t)) eqn:E; intros [= <- <-] Hne; [|done]. cbn.
    rewrite existsb_filter. clear E. induction (os t) as [|i l IH]; [done|]. cbn. rewrite IH. f_equal.
    destruct (bool_decide (i_Mapping i = m')) eqn:E1, (String.eqb_spec (i_Name i) n') as [<-|]; [|done..].
    apply bool_decide_eq_true in E1. cbn. destruct (bool_decide (i_Mapping i = m)) eqn:E2; [|done].
    apply bool_decide_eq_true in E2. destruct (String.eqb_spec (i_Name i) n); [|done].
    exfalso. apply Hne. congruence.
  - intros t m n t' r. destruct (existsb _ (os t)) eqn:E; intros [= <- <-]; [done|]. congruence.
Qed.

Definition quiet_env : Env := MkEnv None None None None None None None (λ _ _, false) true None.
Definition example_daemons : daemons :=
  MkDaemons (MkServer true (Some 1) (Some 2) [3]) (MkServer true (Some 1) None [3]).
Definition example_world (v : list Virtual) : world memW mem :=
  MkWorld example_daemons (Envoy.example_store v) Sidecar.example_w.
Definition example_tun (_ : conn) : option string * option string := (Some "223.254.0.103", Some "efff::3").

Lemma example_objects_wf w : Acc (controls example_objects) w.
Proof.
  assert (∀ o, o ∈ os example_objects → match owner_workload o with
            | None => True | Some w => ∃ r, GetTopOwnerReference 3 example_objects w = Some r end) as Hall.
  { intros o Ho. cbn in Ho. repeat (apply elem_of_cons in Ho as [->|Ho]; [try exact I; eexists; vm_compute; reflexivity|]).
    by apply elem_of_nil in Ho. }
  constructor. intros w' (o & Ho & Hw). unfold GetUnstructuredObject in Ho.
  destruct (f_args example_objects [w]) as [e|[|i l]] eqn:Ef; [done|done|]. injection Ho as ->.
  assert (o ∈ os example_objects) as Hin.
  { unfold f_args, objects_Factory in Ef. cbn [mapM mbind option_bind] in Ef.
    destruct (find_object example_objects w) as [i|] eqn:Efo; [|done]. injection Ef as -> _.
    apply find_object_kind in Efo. unfold by_kind in Efo. apply list_elem_of_In. by apply find_some in Efo as [? _]. }
  specialize (Hall o Hin). rewrite Hw in Hall. destruct Hall as [r Hr]. by eapply GetTopOwnerReference_Acc.
Qed.

(** A connection and a lite connection, made by requests. *)
Definition example_requests : list request := [RConnect quiet_env quiet_env 1; RConnectFork quiet_env quiet_env 3].

Definition proxy_world : world memW mem :=
  MkWorld (fold_left handle example_requests (MkDaemons NewServer NewServer)) (Envoy.example_store []) Sidecar.example_w.


(** It succeeds, leaving the connection 1 in both daemons. *)
Example example_proxied :
  (λ r, (r.1.2, r.2)) <$> Proxy (Probe := string) "img" "cfg" elements example_tun 3 example_objects quiet_env quiet_env quiet_env
    quiet_env 7 ["deployments.apps/ratings"] Envoy.example_headers (λ _, Ret tt) proxy_world = Some ([1; 1], Ret tt).
Proof. vm_compute. reflexivity. Qed.

Definition example_listed : list Virtual := [MkVirtual "deployments.apps.ratings" None []].
Definition listed_text : string :=
  match List_ (example_world example_listed) with Ret t => t | _ => "" end.
Lemma listed_text_eq : List_ (example_world example_listed) = Ret listed_text.
Proof. vm_compute. reflexivity. Qed.

Lemma List_shows_leavable_witness :
  ∃ cm v v',
    cmGet (Envoy.example_store example_listed) ConfigMapPodTrafficManager = Ret cm ∧
    virtuals cm = Ret v ∧ yaml_Unmarshal listed_text = Ret v' ∧ Forall2 same_rules v v' ∧
    leave_targets (Envoy.example_store example_listed) = Ret (Uid <$> v').
Proof.
  exact (List_shows_leavable (S := mem) (example_world example_listed) listed_text listed_text_eq).
Defined.

Definition deployment : Mapping := MkMapping "deployments" "apps" "Deployment".
Definition clone_of (name origin : string) : Info :=
  MkInfo deployment name [] {[ ManageBy := ConfigMapPodTrafficManager; "origin-workload" := origin ]}.
Definition example_source : objects :=
  MkObjects [MkInfo deployment "ratings" [] ∅; MkInfo deployment "reviews" [] ∅] ∅.
Definition example_target : objects :=
  MkObjects [clone_of "ratings-clone-1" "ratings"; clone_of "reviews-clone-2" "reviews"] ∅.
Definition example_session : Session :=
  MkSession ["deployments.apps/ratings"; "deployments.apps/reviews"]
    [(deployment, "ratings-clone-1"); (deployment, "reviews-clone-2")].

(** Removing the clone of one workload removes both. *)
Lemma example_removed :
  Remove elements 1 example_source None ["deployments.apps/ratings"] (Some example_session) example_target =
  Some (None, MkObjects [] ∅, Ret tt).
Proof. vm_compute. reflexivity. Qed.

Lemma Remove_removes_all_witness :
  (@None Session) = None ∧
  (∀ m n, (m, n) ∈ s_Rollback example_session → t_has (MkObjects [] ∅) m n = false) ∧
  (∀ m n, t_has (MkObjects [] ∅) m n ≠ t_has example_target m n →
     (m, n) ∈ s_Rollback example_session ∨
     found_clone (T := objects) elements 1 example_source ["deployments.apps/ratings"] m n).
Proof.
  refine (Remove_removes_all (T := objects) elements 1 example_source None example_session
    ["deployments.apps/ratings"] example_target (MkObjects [] ∅) None _ example_removed).
  intros t m n _. cbn. destruct (existsb _ (os t)); [by left|by right].
Defined.
