(* ===== verification/Routes.v ===== *)
(** * Routes of a connection

    [pkg/handler/connect.go], [addRouteDynamic] and [addExtraRoute], and
    [GetDNSIPFromDnsPod] of [pkg/util/dns.go]: while a client is connected it adds a
    host route through its tunnel device for every pod and service it is told of, and
    one for every address of an extra domain.

    The operating system's answer to a route is the field [os_route] of [Node.OS]; the
    router is a snapshot of the routing table taken when the step begins, a function
    from an address to the device it is routed to.  Every address is handled by a
    goroutine of its own, so [addRouteDynamic] is a step relation: objects are seen in
    any order, and the goroutines run in any order. *)
From Stdlib Require Import Ascii ZArith Lia Strings.Byte.
From stdpp Require Import base gmap strings numbers relations list.
From S2P Require Import Prelude GoStrings GoNet IPText Cleaner Hosts PortForward Node.
Local Open Scope string_scope.

(** ** One address *)

(** The /32 or /128 network of an address. *)
Definition host_net (addr : IP) : IPNet :=
  MkIPNet addr (match To4 addr with Some _ => CIDRMask 32 32 | None => CIDRMask 128 128 end).

Definition Router : Type := IP → option string.

Section Address.
Context (os : OS) (r : Router) (tunName : string).

(** [tun.AddRoutes] of one host route; an error is only logged. *)
Definition AddHostRoute (addr : IP) (routes : list string) : list string :=
  match addTunRoutes os routes [host_net addr] with Ret routes => routes | _ => routes end.

(** The closure of [addExtraRoute]. *)
Definition addRouteFunc (ip : string) (routes : list string) : list string :=
  match ParseIP ip with
  | None => routes
  | Some addr => if bool_decide (r addr = Some tunName) then routes else AddHostRoute addr routes
  end.

(** The closure of [addRouteDynamic], which leaves out the API servers. *)
Definition addClusterRoute (apiServerIPs : list IP) (ip : string) (routes : list string) : list string :=
  match ParseIP ip with
  | None => routes
  | Some _ => if bool_decide (ip ∈ IP_String <$> apiServerIPs) then routes else addRouteFunc ip routes
  end.
End Address.

(** ** [addRouteDynamic] *)

(** An object of a list or of a watch event. *)
Inductive object :=
  | OPod (name ip : string) (hostNetwork : bool)
  | OService (name clusterIP : string)
  | OOther.

(** The address a goroutine is started for. *)
Definition spawned (o : object) : option string :=
  match o with
  | OPod _ ip hostNetwork => if hostNetwork then None else Some ip
  | OService _ ip => Some ip
  | OOther => None
  end.

Definition spawn_list (o : object) : list string := match spawned o with Some ip => [ip] | None => [] end.

(** Listing in all namespaces, or else in the connection's own. *)
Definition NamespaceAll : string := "".
Definition list_first (namespace : string) (listing : string → error + list object)
    : error + string * list object :=
  match listing NamespaceAll with
  | inr l => inr (NamespaceAll, l)
  | inl _ => match listing namespace with inr l => inr (namespace, l) | inl e => inl e end
  end.

(** What [addRouteDynamic] has started when it returns: the objects it has seen, and
    the kinds and namespaces it goes on watching. *)
Inductive watched := WatchPods (ns : string) | WatchServices (ns : string).

Definition addRouteDynamic (router : option error) (tun : outcome string) (namespace : string)
    (pods services : string → error + list object) : list object * list watched * outcome string :=
  match router with
  | Some e => ([], [], Fail e)
  | None =>
      match tun with
      | Fail e => ([], [], Fail e)
      | Panic => ([], [], Panic)
      | Ret tunName =>
          match list_first namespace pods with
          | inl e => ([], [], Fail e)
          | inr (podNs, ps) =>
              match list_first namespace services with
              | inl e => (ps, [WatchPods podNs], Fail (ErrorfV "can not list service to add it to route table" e))
              | inr (svcNs, ss) => ((ps ++ ss)%list, [WatchPods podNs; WatchServices svcNs], Ret tunName)
              end
          end
      end
  end.

(** The goroutines that are to run, the routes added so far and the objects seen. *)
Record RState := MkR { pending : list string; routes : list string; seen : list object }.

Section Dynamic.
Context (os : OS) (r : Router) (tunName : string) (apiServerIPs : list IP).

Inductive rstep : RState → RState → Prop :=
  | rstep_see o p rs l : rstep (MkR p rs l) (MkR (spawn_list o ++ p)%list rs (o :: l))
  | rstep_run p1 ip p2 rs l :
      rstep (MkR (p1 ++ ip :: p2)%list rs l)
            (MkR (p1 ++ p2)%list (addClusterRoute os r tunName apiServerIPs ip rs) l).

(** The state in which [addRouteDynamic] returns, with the device's routes. *)
Definition rstart (objs : list object) (rs : list string) : RState := MkR (objs ≫= spawn_list) rs objs.
End Dynamic.

(** ** [GetDNSIPFromDnsPod] *)

Record DnsPod := MkDnsPod { dp_running : bool; dp_deleting : bool; dp_PodIP : string }.

Definition GetDNSIPFromDnsPod (services : error + list string) (pods : error + list DnsPod)
    : outcome (list string) :=
  match services with
  | inl e => Fail e
  | inr clusterIPs =>
      let ips := List.filter (λ ip, negb (String.eqb ip "")) clusterIPs in
      let ips := match pods with
                 | inr l => (ips ++ (dp_PodIP <$> List.filter (λ p, dp_running p && negb (dp_deleting p)) l))%list
                 | inl _ => ips
                 end in
      match ips with [] => Fail (Errorf "can not found any dns service ip") | _ => Ret ips end
  end.

(** ** [addExtraRoute] *)

Inductive RR := RA (addr : IP) | RAAAA (addr : IP) | ROther.

(** [IP.IsLoopback] *)
Definition IsLoopback (ip : IP) : bool :=
  match To4 ip with
  | Some (a :: _) => bool_decide (b2z a = 127%Z)
  | Some [] => false
  | None => bool_decide (ip = replicate 15 x00 ++ [x01])%list
  end.

(** The routes, the entries of [c.extraHost] and the number of queries so far. *)
Record XState := MkX { x_routes : list string; x_hosts : list Entry; x_queries : nat }.

Section Extra.
Context (os : OS) (r : Router) (tunName : string).
(** [dig +short] in the pod; a query of the DNS client, by domain, server and number. *)
Context (dig : string → error + string) (exchange : string → string → nat → error + list RR).

Definition add_host (domain ip text : string) (x : XState) : XState :=
  MkX (addRouteFunc os r tunName ip (x_routes x)) (x_hosts x ++ [MkEntry text domain])%list (x_queries x).

(** The loop over [dig]; false is the jump to the DNS client. *)
Fixpoint dig_domains (domains : list string) (x : XState) : XState * bool :=
  match domains with
  | [] => (x, true)
  | domain :: domains =>
      match dig domain with
      | inl _ => (x, false)
      | inr ip =>
          match ParseIP ip with
          | None => (x, false)
          | Some addr => dig_domains domains (add_host domain ip (IP_String addr) x)
          end
      end
  end.

(** One record of an answer, with the flag [success]. *)
Definition answer_rr (domain : string) (xs : XState * bool) (rr : RR) : XState * bool :=
  match rr with
  | RA a | RAAAA a =>
      match ParseIP (IP_String a) with
      | Some ip => if IsLoopback ip then xs else (add_host domain (IP_String a) (IP_String a) xs.1, true)
      | None => xs
      end
  | ROther => xs
  end.

Definition no_retry : error := Errorf "No retry".

(** The function that is retried. *)
Definition query_once (domain server : string) (xs : XState * bool) : (XState * bool) * outcome unit :=
  let '(x, success) := xs in
  let x' := MkX (x_routes x) (x_hosts x) (S (x_queries x)) in
  match exchange domain server (x_queries x) with
  | inl e => ((x', success), Fail e)
  | inr [] => ((x', success), Fail no_retry)
  | inr answer => (fold_left (answer_rr domain) answer (x', success), Ret tt)
  end.

(** Every error is retried, the one called [no_retry] too. *)
Definition resolve_domain (server domain : string) (x : XState) : XState * outcome unit :=
  match OnError 1000 (λ _, true) (query_once domain server) (x, false) with
  | ((x, success), Fail e) =>
      if bool_decide (e = no_retry) then
        if (success : bool) then (x, Ret tt) else (x, Fail (Errorf "failed to resolve dns for domain"))
      else (x, Fail e)
  | ((x, success), Ret _) =>
      if (success : bool) then (x, Ret tt) else (x, Fail (Errorf "failed to resolve dns for domain"))
  | ((x, _), Panic) => (x, Panic)
  end.

Fixpoint resolve_domains (server : string) (domains : list string) (x : XState) : XState * outcome unit :=
  match domains with
  | [] => (x, Ret tt)
  | domain :: domains =>
      match resolve_domain server domain x with
      | (x, Ret _) => resolve_domains server domains x
      | r => r
      end
  end.

(** The turns of pinging before the time is up: the first address that answers. *)
Fixpoint ping_turns (turns : list (string → bool)) (ips : list string) : list string :=
  match turns with
  | [] => ips
  | pong :: turns => match List.find pong ips with Some ip => [ip] | None => ping_turns turns ips end
  end.

End Extra.

Definition addExtraRoute (os : OS) (r : Router) (dig : string → error + string)
    (exchange : string → string → nat → error + list RR) (domains : list string) (dns_ips : outcome (list string)) (router : option error)
    (tun : outcome string) (pods : outcome (list ManagerPod)) (turns : list (string → bool)) (x : XState)
    : XState * outcome unit :=
  match domains with
  | [] => (x, Ret tt)
  | _ =>
      match dns_ips with
      | Fail e => (x, Fail e)
      | Panic => (x, Panic)
      | Ret [] => (x, Fail (Errorf "can't found any dns server"))
      | Ret ips =>
          match router, tun with
          | Some e, _ | None, Fail e => (x, Fail e)
          | None, Panic => (x, Panic)
          | None, Ret tunName =>
              let x := MkX (fold_left (λ rs ip, addRouteFunc os r tunName ip rs) ips (x_routes x))
                           (x_hosts x) (x_queries x) in
              match pods with
              | Fail e => (x, Fail e)
              | Panic | Ret [] => (x, Panic)
              | Ret _ =>
                  match dig_domains os r tunName dig domains x with
                  | (x, true) => (x, Ret tt)
                  | (x, false) =>
                      match ping_turns turns ips with
                      | [] => (x, Panic)
                      | server :: _ => resolve_domains os r tunName exchange server domains x
                      end
                  end
              end
          end
      end
  end.

(** ** Lemmas: one address *)

(** A host route as the operating system shows it: the address with all its bits. *)
Definition host_text (addr : IP) : string :=
  IP_String addr +:+ (match To4 addr with Some _ => "/32" | None => "/128" end).

Lemma parseIPv4_length s ip : parseIPv4 s = Some ip → length ip = 16.
Proof.
  unfold parseIPv4. destruct (Split _ s) as [|a [|b [|c [|d [|]]]]]; try done. cbn.
  destruct (parse_octet a), (parse_octet b), (parse_octet c), (parse_octet d); try done. cbn. by intros [= <-].
Qed.

Lemma v6_loop_length fuel s out ell out' ell' s' :
  v6_loop fuel s out ell = Some (out', ell', s') → (length out + 2 * fuel ≤ 16)%nat → (length out' ≤ 16)%nat.
Proof.
  revert s out ell. induction fuel as [|fuel IH]; intros s out ell; cbn [v6_loop]; [intros [= <- _ _] ?; lia|].
  destruct (take_hex s 0 0) as [[[n acc] rest]|]; [|done]. cbn [mbind option_bind]. destruct (n =? 0)%nat; [done|].
  assert (length (out ++ be_fixed 2 acc)%list = length out + 2)%nat as Hl by (rewrite length_app, length_be_fixed; done).
  destruct rest as [|a rest].
  { intros H Hf. assert (out' = (out ++ be_fixed 2 acc)%list) as -> by congruence. lia. }
  destruct (ascii_dec a ".") as [->|Hdot].
  { destruct (_ && _); [done|]. destruct (Nat.ltb_spec 16 (length out + 4)); [done|].
    destruct (parseIPv4 s) as [ip4|] eqn:E4; [|done]. cbn. apply parseIPv4_length in E4.
    intros [= <- _ _] _. rewrite length_app, length_drop. lia. }
  destruct (ascii_dec a ":") as [->|Hcol].
  2: { destruct a as [[] [] [] [] [] [] [] []]; try done; exfalso; by (apply Hdot || apply Hcol). }
  destruct rest as [|a rest]; [done|]. destruct (Ascii.eqb a ":").
  - destruct ell; [done|]. destruct rest as [|c rest]; [intros H Hf; assert (out' = (out ++ be_fixed 2 acc)%list) as -> by congruence; lia|]. intros H Hf. eapply IH; [exact H|]. lia.
  - intros H Hf. eapply IH; [exact H|]. lia.
Qed.

Lemma ParseIP_length s ip : ParseIP s = Some ip → length ip = 16.
Proof.
  unfold ParseIP. generalize s at 2. intros rest. induction rest as [|a rest IH]; [done|]. cbn [ParseIP_go].
  destruct (Ascii.eqb a "."); [apply parseIPv4_length|]. destruct (Ascii.eqb a ":"); [|by destruct (Ascii.eqb a "%")].
  clear IH. unfold parseIPv6. destruct (match s with String _ _ => _ | EmptyString => _ end) as [t ell].
  case_bool_decide; [by intros [= <-]|]. destruct (v6_loop 8 t [] ell) as [[[out ell'] s']|] eqn:E; [|done]. cbn [mbind option_bind].
  apply v6_loop_length in E; [|cbn; lia]. case_bool_decide; [done|]. destruct (Nat.ltb_spec (length out) 16).
  - destruct ell' as [e|]; [|discriminate]. cbn [mbind option_bind]. intros Hs. injection Hs as <-. rewrite !length_app, length_replicate, length_take, length_drop. lia.
  - destruct ell'; [done|]. intros [= <-]. lia.
Qed.

(** The network that is given to the system is the host route of the address. *)
Lemma host_net_text addr : length addr = 16 → IPNet_String (host_net addr) = host_text addr.
Proof.
  intros Hl. unfold host_text, host_net, IPNet_String, networkNumberAndMask. cbn [net_IP net_Mask].
  destruct (To4 addr) as [ip4|] eqn:E4.
  - assert (length ip4 = 4) as H4.
    { unfold To4 in E4. rewrite bool_decide_eq_false_2 in E4 by lia. case_bool_decide; [|done]. injection E4 as <-.
      rewrite length_drop. lia. }
    rewrite length_CIDRMask. change (32 / 8)%nat with 4. rewrite !(bool_decide_eq_true_2 (4 = 4)) by done.
    rewrite (bool_decide_eq_true_2 (length ip4 = 4)) by done. rewrite simpleMaskLength_32 by lia.
    change ("/32") with ("/" +:+ Itoa (Z.of_nat 32)). f_equal. unfold IP_String. rewrite E4, Hl, H4. cbn.
    unfold To4. by rewrite (bool_decide_eq_true_2 (length ip4 = 4)).
  - rewrite (bool_decide_eq_true_2 (length addr = 16)) by done. rewrite length_CIDRMask. change (128 / 8)%nat with 16.
    rewrite (bool_decide_eq_false_2 (16 = 4)) by done. rewrite (bool_decide_eq_true_2 (16 = 16)) by done.
    rewrite (bool_decide_eq_false_2 (length addr = 4)) by lia. by rewrite simpleMaskLength_128 by lia.
Qed.

(** The operating system takes the route, or has it already. *)
Definition accepts (os : OS) (addr : IP) : Prop :=
  os_route os (host_text addr) = None ∨ os_route os (host_text addr) = Some AlreadyExists.

Section Lemmas.
Context (os : OS) (r : Router) (tunName : string).

Lemma AddHostRoute_cases addr rs : length addr = 16 →
  AddHostRoute os addr rs = (rs ++ [host_text addr])%list ∧ accepts os addr ∨
  AddHostRoute os addr rs = rs ∧ ¬ accepts os addr.
Proof.
  intros Hl. unfold AddHostRoute. cbn [addTunRoutes].
  rewrite bool_decide_false by apply IPNet_String_nonempty. rewrite host_net_text by done. unfold accepts.
  destruct (os_route os (host_text addr)) as [[]|]; naive_solver.
Qed.

(** What handling a text does: nothing, or one route more. *)
Definition adds (ip : string) (addr : IP) : Prop :=
  ParseIP ip = Some addr ∧ r addr ≠ Some tunName ∧ accepts os addr.

Lemma addRouteFunc_cases ip rs :
  addRouteFunc os r tunName ip rs = rs ∧ (∀ addr, ¬ adds ip addr) ∨
  (∃ addr, adds ip addr ∧ addRouteFunc os r tunName ip rs = (rs ++ [host_text addr])%list).
Proof.
  unfold addRouteFunc, adds. destruct (ParseIP ip) as [addr|] eqn:Hip; [|left; naive_solver].
  case_bool_decide as Hr; [left; naive_solver|].
  destruct (AddHostRoute_cases addr rs (ParseIP_length _ _ Hip)) as [[-> Ha]|[-> Ha]]; [right|left]; naive_solver.
Qed.

Lemma addRouteFunc_sub ip rs t : t ∈ rs → t ∈ addRouteFunc os r tunName ip rs.
Proof.
  destruct (addRouteFunc_cases ip rs) as [[-> _]|(addr & _ & ->)]; [done|].
  intros. apply elem_of_app. by left.
Qed.

(** [addr] leaves through the tunnel, or the system has refused its route. *)
Definition routed (addr : IP) (rs : list string) : Prop :=
  r addr = Some tunName ∨ host_text addr ∈ rs ∨ ¬ accepts os addr.

Lemma routed_more addr rs rs' : routed addr rs → (∀ t, t ∈ rs → t ∈ rs') → routed addr rs'.
Proof. unfold routed. naive_solver. Qed.

Lemma addRouteFunc_routed ip addr rs :
  ParseIP ip = Some addr → routed addr (addRouteFunc os r tunName ip rs).
Proof.
  intros Hip. unfold addRouteFunc, routed. rewrite Hip. case_bool_decide; [by left|]. right.
  destruct (AddHostRoute_cases addr rs (ParseIP_length _ _ Hip)) as [[-> _]|[-> ?]]; [left|by right].
  apply elem_of_app. right. by apply list_elem_of_singleton.
Qed.
End Lemmas.

(** ** Dynamic routes *)

Section DynamicLaws.
Context (os : OS) (r : Router) (tunName : string) (api : list IP) (rs0 : list string).

(** What [addRouteDynamic] is to route: the addresses of pods outside the host network
    and of services. *)
Inductive tells : object → string → Prop :=
  | tells_pod name ip : tells (OPod name ip false) ip
  | tells_service name ip : tells (OService name ip) ip.

Lemma spawned_tells o ip : spawned o = Some ip ↔ tells o ip.
Proof.
  split; [|by destruct 1]. destruct o as [name ip' []|name ip'|]; cbn; intros; simplify_eq; constructor.
Qed.

(** [ip] is an address of a pod or service that may be routed. *)
Definition wanted (l : list object) (ip : string) (addr : IP) : Prop :=
  ∃ o, o ∈ l ∧ tells o ip ∧ ParseIP ip = Some addr ∧ ip ∉ IP_String <$> api.

Definition sound (st : RState) : Prop :=
  (∀ ip, ip ∈ pending st → ∃ o, o ∈ seen st ∧ tells o ip) ∧
  ∀ t, t ∈ routes st → t ∈ rs0 ∨
    ∃ ip addr, wanted (seen st) ip addr ∧ r addr ≠ Some tunName ∧ t = host_text addr.

Definition complete (st : RState) : Prop :=
  ∀ ip addr, wanted (seen st) ip addr → ip ∈ pending st ∨ routed os r tunName addr (routes st).

Lemma addClusterRoute_sub ip rs t : t ∈ rs → t ∈ addClusterRoute os r tunName api ip rs.
Proof.
  unfold addClusterRoute. destruct (ParseIP ip); [|done]. case_bool_decide; [done|]. apply addRouteFunc_sub.
Qed.

Lemma wanted_more o l ip addr : wanted l ip addr → wanted (o :: l) ip addr.
Proof. intros (o' & Ho & Hr). exists o'. split; [by right|done]. Qed.

Lemma routes_sound_step st st' : rstep os r tunName api st st' → sound st → sound st'.
Proof.
  intros [o p rs l|p1 ip p2 rs l]; intros [Hp Hr]; cbn in *; split; cbn.
  - intros ip [Hin|Hin]%elem_of_app.
    + unfold spawn_list in Hin. destruct (spawned o) as [ip'|] eqn:Ho; [|by apply elem_of_nil in Hin].
      apply list_elem_of_singleton in Hin as ->. exists o. split; [left|by apply spawned_tells].
    + destruct (Hp ip Hin) as (o' & ? & ?). exists o'. split; [by right|done].
  - intros t Ht. destruct (Hr t Ht) as [|(ip & addr & Hw & Hx)]; [by left|]. right.
    exists ip, addr. split; [by apply wanted_more|done].
  - intros ip' Hin. apply Hp. set_solver.
  - intros t. unfold addClusterRoute. destruct (ParseIP ip) as [a|] eqn:Hip; [|apply Hr].
    case_bool_decide as Hapi; [apply Hr|].
    destruct (addRouteFunc_cases os r tunName ip rs) as [[-> _]|(addr & (Ha & Hn & _) & ->)]; [apply Hr|].
    intros [Ht| ->%list_elem_of_singleton]%elem_of_app; [by apply Hr|]. right. exists ip, addr.
    destruct (Hp ip) as (o & Ho & Hs); [set_solver|]. split; [by exists o|done].
Qed.

Lemma complete_step st st' : rstep os r tunName api st st' → complete st → complete st'.
Proof.
  unfold complete. intros [o p rs l|p1 ip p2 rs l] Hc ip' addr; cbn in *.
  - intros (o' & Ho & Hs & Hp & Ha). apply elem_of_cons in Ho as [->|Ho].
    + left. apply elem_of_app. left. apply spawned_tells in Hs. unfold spawn_list. rewrite Hs. by apply list_elem_of_singleton.
    + destruct (Hc ip' addr) as [|]; [by exists o'|left; set_solver|by right].
  - intros Hw. destruct (decide (ip' = ip)) as [->|Hne].
    + right. unfold addClusterRoute. pose proof Hw as (_ & _ & _ & Hip & Hapi). rewrite Hip.
      rewrite bool_decide_false by done. by apply addRouteFunc_routed.
    + destruct (Hc ip' addr Hw) as [|Hr]; [left; set_solver|]. right.
      eapply routed_more; [done|]. intros t. apply addClusterRoute_sub.
Qed.

Lemma rstart_ok objs : sound (rstart objs rs0) ∧ complete (rstart objs rs0).
Proof.
  split; [split|]; cbn.
  - intros ip (o & Hip & Ho)%list_elem_of_bind. exists o. split; [done|].
    apply spawned_tells. unfold spawn_list in Hip. destruct (spawned o); [|by apply elem_of_nil in Hip].
    by apply list_elem_of_singleton in Hip as ->.
  - intros t. by left.
  - intros ip addr (o & Ho & Hs & _). left. cbn. apply list_elem_of_bind. exists o. split; [|done].
    apply spawned_tells in Hs. unfold spawn_list. rewrite Hs. by apply list_elem_of_singleton.
Qed.

Lemma rstep_all objs st :
  rtc (rstep os r tunName api) (rstart objs rs0) st → sound st ∧ complete st ∧ ∀ o, o ∈ objs → o ∈ seen st.
Proof.
  intros Hrun. destruct (rstart_ok objs) as [H1 H2].
  assert (∀ o, o ∈ objs → o ∈ seen (rstart objs rs0)) as H3 by done.
  remember (rstart objs rs0) as st0 eqn:E. clear E.
  induction Hrun as [st0|st0 st1 st2 Hstep Hrun IH]; [done|].
  apply IH; [by eapply routes_sound_step|by eapply complete_step|].
  intros o Ho%H3. destruct Hstep; cbn in *; [by right|done].
Qed.
End DynamicLaws.

(** The list of a kind: of all namespaces, or of the connection's when that fails. *)
Definition listed (namespace : string) (listing : string → error + list object) (ns : string) (l : list object) : Prop :=
  listing ns = inr l ∧ (ns = NamespaceAll ∨ ns = namespace ∧ ∃ e, listing NamespaceAll = inl e).

Lemma list_first_listed namespace listing ns l :
  list_first namespace listing = inr (ns, l) → listed namespace listing ns l.
Proof.
  unfold list_first, listed. destruct (listing NamespaceAll) as [e|l0] eqn:E; [|intros [= <- <-]; by split; [|left]].
  destruct (listing namespace) as [|l0] eqn:E'; [done|]. intros [= <- <-]. split; [done|]. right. by split; [|exists e].
Qed.

Lemma str_app_inj_suffix (s t u : string) : s +:+ u = t +:+ u → s = t.
Proof.
  revert t. induction s as [|a s IH]; intros [|b t] H; [done| | |cbn in H; injection H as -> H; f_equal; by apply IH].
  all: apply (f_equal String.length) in H; rewrite !length_str_app in H; cbn in H; lia.
Qed.

Lemma str_snoc_last (s t : string) a b : s +:+ String a "" = t +:+ String b "" → a = b.
Proof.
  revert t. induction s as [|c s IH]; intros [|d t] H; [by injection H| | |cbn in H; injection H as -> H; by eapply IH].
  all: apply (f_equal String.length) in H; rewrite !length_str_app in H; cbn in H; lia.
Qed.

Lemma host_text_IP a b : host_text a = host_text b → IP_String a = IP_String b.
Proof.
  assert (∀ s t, s +:+ "/32" ≠ t +:+ "/128") as Hne.
  { intros s t H. change "/32" with ("/3" +:+ "2") in H. change "/128" with ("/12" +:+ "8") in H.
    rewrite <- !str_app_assoc in H. by apply str_snoc_last in H. }
  unfold host_text. destruct (To4 a), (To4 b); try apply str_app_inj_suffix; intros H; by apply Hne in H || by symmetry in H; apply Hne in H.
Qed.

(** C18.  When [addRouteDynamic] has returned without an error it has listed the pods and the
    services, of all namespaces or else of the connection's, and watches both there.
    However its watches and goroutines interleave, every route it has added is the /32 or
    /128 route of the address of a service or of a pod outside the host network that it
    was told of; the text of the address is not that of an API server's, and the address
    was not routed to the tunnel when the router was read.  When its goroutines have run,
    every such address, those of the lists included, leaves through the tunnel unless the
    system refused the route.  The API servers are compared by text: if the addresses it
    was told of are in their canonical form, no API server is routed into the tunnel. *)
Theorem dynamic_routes os r apiServerIPs router tun ns pods services objs ws tunName rs0 st
    (Hs : addRouteDynamic router tun ns pods services = (objs, ws, Ret tunName))
    (Hrun : rtc (rstep os r tunName apiServerIPs) (rstart objs rs0) st) :
  (∃ podNs ps svcNs ss, listed ns pods podNs ps ∧ listed ns services svcNs ss ∧
     ws = [WatchPods podNs; WatchServices svcNs] ∧ ∀ o, o ∈ ps ∨ o ∈ ss → o ∈ seen st) ∧
  (∀ t, t ∈ routes st → t ∈ rs0 ∨
     ∃ ip addr, wanted apiServerIPs (seen st) ip addr ∧ r addr ≠ Some tunName ∧ t = host_text addr) ∧
  (pending st = [] → ∀ ip addr, wanted apiServerIPs (seen st) ip addr →
     routed os r tunName addr (routes st)) ∧
  ((∀ o ip addr, o ∈ seen st → tells o ip → ParseIP ip = Some addr → IP_String addr = ip) →
   ∀ p, p ∈ apiServerIPs → host_text p ∈ routes st → host_text p ∈ rs0).
Proof.
  destruct (rstep_all os r tunName apiServerIPs rs0 objs st Hrun) as ([_ Hr] & Hc & Hseen). split_and!.
  - unfold addRouteDynamic in Hs. destruct router; [done|]. destruct tun as [t|e|]; [|done..].
    destruct (list_first ns pods) as [e|[podNs ps]] eqn:Ep; [done|].
    destruct (list_first ns services) as [e|[svcNs ss]] eqn:Es; [done|]. injection Hs as <- <- <-.
    exists podNs, ps, svcNs, ss. split; [by apply list_first_listed|]. split; [by apply list_first_listed|].
    split; [done|]. intros o Ho. apply Hseen. by apply elem_of_app.
  - exact Hr.
  - intros Hp ip addr Hw. destruct (Hc ip addr Hw) as [Hin|]; [|done]. rewrite Hp in Hin. by apply elem_of_nil in Hin.
  - intros Hcanon p Hp Hin. destruct (Hr _ Hin) as [|(ip & addr & (o & Ho & Ht & Hip & Hn) & _ & Heq)]; [done|].
    exfalso. apply Hn. rewrite <- (Hcanon o ip addr Ho Ht Hip), <- (host_text_IP _ _ Heq).
    apply list_elem_of_fmap. by exists p.
Qed.

(** ** Extra domains *)

(** What every attempt keeps, all of them keep. *)
Lemma OnError_inv {S} (P : S → Prop) steps retriable fn (s : S) :
  (∀ s, P s → P (fn s).1) → P s → P (OnError steps retriable fn s).1.
Proof.
  intros Hfn. revert s. induction steps as [|steps IH]; intros s Hs; [done|]. cbn.
  pose proof (Hfn s Hs) as Hs'. destruct (fn s) as [s' [a|e|]]; cbn in *; [done| |done].
  destruct (retriable e); [|done]. destruct steps; [done|]. by apply IH.
Qed.

Definition grows (x x' : XState) : Prop :=
  (∀ t, t ∈ x_routes x → t ∈ x_routes x') ∧ (∀ e, e ∈ x_hosts x → e ∈ x_hosts x').

#[export] Instance grows_preorder : PreOrder grows.
Proof. split; [by split|]. intros x y z [] []. split; naive_solver. Qed.

Section ExtraLaws.
Context (os : OS) (r : Router) (tunName : string).
Context (dig : string → error + string) (exchange : string → string → nat → error + list RR).

(** The domain has an entry, and its address leaves through the tunnel. *)
Definition resolved (domain : string) (x : XState) : Prop :=
  ∃ e addr, e ∈ x_hosts x ∧ e_Domain e = domain ∧
    (ParseIP (e_IP e) = Some addr ∨ e_IP e = IP_String addr) ∧ routed os r tunName addr (x_routes x).

Lemma resolved_grows domain x x' : grows x x' → resolved domain x → resolved domain x'.
Proof.
  intros [Hr Hh] (e & addr & He & Hd & Ht & Hro). exists e, addr. split; [by apply Hh|].
  split; [done|]. split; [done|]. by eapply routed_more.
Qed.

Lemma add_host_ok domain ip text addr x :
  ParseIP ip = Some addr → text = ip ∨ text = IP_String addr →
  let x' := add_host os r tunName domain ip text x in grows x x' ∧ resolved domain x'.
Proof.
  intros Hip Ht. split.
  - split; cbn; [intros t; apply addRouteFunc_sub|]. intros e He. apply elem_of_app. by left.
  - exists (MkEntry text domain), addr. cbn. split; [apply elem_of_app; right; by apply list_elem_of_singleton|].
    split; [done|]. split; [destruct Ht as [->| ->]; [by left|by right]|]. by apply addRouteFunc_routed.
Qed.

Lemma dig_domains_ok domains x x' b :
  dig_domains os r tunName dig domains x = (x', b) →
  grows x x' ∧ (b = true → Forall (λ d, resolved d x') domains).
Proof.
  revert x. induction domains as [|d ds IH]; intros x; cbn; [intros [= <- <-]; split; [done|constructor]|].
  destruct (dig d) as [e|ip]; [intros [= <- <-]; done|].
  destruct (ParseIP ip) as [addr|] eqn:Hip; [|intros [= <- <-]; done].
  intros [Hg Hf]%IH. destruct (add_host_ok d ip (IP_String addr) addr x Hip ltac:(by right)) as [Hg1 Hr1].
  split; [by etrans|]. intros Hb. constructor; [|by apply Hf]. by eapply resolved_grows.
Qed.

(** The state of the attempts for one domain. *)
Definition attempt_ok (domain : string) (x0 : XState) (xs : XState * bool) : Prop :=
  grows x0 xs.1 ∧ (xs.2 = true → resolved domain xs.1).

Lemma answer_rr_ok domain x0 xs rr :
  attempt_ok domain x0 xs → attempt_ok domain x0 (answer_rr os r tunName domain xs rr).
Proof.
  intros [Hg Hr]. unfold answer_rr. destruct rr as [a|a|]; [..|done].
  all: destruct (ParseIP (IP_String a)) as [ip|] eqn:Hip; [|done].
  all: destruct (IsLoopback ip); [done|].
  all: destruct (add_host_ok domain _ (IP_String a) ip xs.1 Hip ltac:(by left)) as [Hg1 Hr1].
  all: split; cbn; [by etrans|done].
Qed.

Lemma query_once_ok server domain x0 xs :
  attempt_ok domain x0 xs → attempt_ok domain x0 (query_once os r tunName exchange domain server xs).1.
Proof.
  destruct xs as [x b]. intros Hok. unfold query_once.
  assert (attempt_ok domain x0 (MkX (x_routes x) (x_hosts x) (S (x_queries x)), b)) as Hok' by exact Hok.
  destruct (exchange domain server (x_queries x)) as [e|[|rr rrs]]; cbn [fst]; [done|done|].
  generalize (rr :: rrs). intros l. clear Hok. revert Hok'.
  generalize (MkX (x_routes x) (x_hosts x) (S (x_queries x)), b). induction l as [|y l IH]; intros xs Hxs; [done|].
  cbn. by apply IH, answer_rr_ok.
Qed.

Lemma resolve_domain_ok server domain x x' o :
  resolve_domain os r tunName exchange server domain x = (x', o) →
  grows x x' ∧ (o = Ret tt → resolved domain x').
Proof.
  unfold resolve_domain.
  pose proof (OnError_inv (attempt_ok domain x) 1000 (λ _, true) (query_once os r tunName exchange domain server)
    (x, false) (λ xs, query_once_ok server domain x xs)) as Hinv.
  destruct (OnError _ _ _ _) as [[x1 b] [[]|e|]]; cbn in Hinv.
  all: destruct Hinv as [Hg Hr]; [by split|].
  - destruct b; intros [= <- <-]; (split; [done|]); [auto|done].
  - case_bool_decide; [|intros [= <- <-]; by split]. destruct b; intros [= <- <-]; (split; [done|]); [auto|done].
  - intros [= <- <-]. by split.
Qed.

Lemma resolve_domains_ok server domains x x' o :
  resolve_domains os r tunName exchange server domains x = (x', o) →
  grows x x' ∧ (o = Ret tt → Forall (λ d, resolved d x') domains).
Proof.
  revert x. induction domains as [|d ds IH]; intros x; cbn; [intros [= <- <-]; split; [done|constructor]|].
  destruct (resolve_domain _ _ _ _ _ _ _) as [x1 o1] eqn:Hd.
  apply resolve_domain_ok in Hd as [Hg1 Hr1]. destruct o1 as [[]|e|]; [|intros [= <- <-]; by split..].
  intros [Hg Hf]%IH. split; [by etrans|]. intros Ho. constructor; [|by apply Hf].
  eapply resolved_grows; [done|]. by apply Hr1.
Qed.
End ExtraLaws.

Lemma fold_routes_sub os r tunName ips rs t :
  t ∈ rs → t ∈ fold_left (λ rs ip, addRouteFunc os r tunName ip rs) ips rs.
Proof. revert rs. induction ips as [|ip ips IH]; intros rs Ht; [done|]. cbn. by apply IH, addRouteFunc_sub. Qed.

Ltac unchanged H := injection H as <- <-; split; [done || by etrans|done].

(**  When [addExtraRoute] returns without an error, every extra domain has an entry
    for the hosts file whose address leaves through the tunnel, unless the system has
    refused its route; nothing that was there before is lost, also when it fails. *)
Theorem addExtraRoute_resolves os r dig exchange domains dns_ips router tun pods turns x x' o
    (HX : addExtraRoute os r dig exchange domains dns_ips router tun pods turns x = (x', o)) :
  grows x x' ∧
  (o = Ret tt → domains = [] ∨
     ∃ tunName, tun = Ret tunName ∧ Forall (λ d, resolved os r tunName d x') domains).
Proof.
  unfold addExtraRoute in HX. destruct domains as [|d ds]; [injection HX as <- <-; split; [reflexivity|by left]|].
  remember (d :: ds) as domains. clear Heqdomains.
  destruct dns_ips as [[|ip ips]|e|]; [by unchanged HX| |by unchanged HX..].
  destruct router as [e|]; [by unchanged HX|].
  destruct tun as [tunName|e|]; [|by unchanged HX..].
  set (ips0 := ip :: ips) in *. set (x1 := MkX _ _ _) in HX.
  assert (grows x x1) as Hg1 by (split; [intros t; apply fold_routes_sub|done]).
  destruct pods as [[|pod ps]|e|]; [by unchanged HX| |by unchanged HX..].
  destruct (dig_domains os r tunName dig domains x1) as [x2 b] eqn:Hd.
  apply dig_domains_ok in Hd as [Hg2 Hf2].
  destruct b.
  { injection HX as <- <-. split; [by etrans|]. intros _. right. exists tunName. auto. }
  destruct (ping_turns turns ips0) as [|server l]; [injection HX as <- <-; split; [by etrans|done]|].
  apply resolve_domains_ok in HX as [Hg3 Hf3]. split; [by do 2 etrans|].
  intros Ho. right. exists tunName. auto.
Qed.

(** ** The properties on an example *)

Definition example_pods (ns : string) : error + list object :=
  if String.eqb ns "" then inl Forbidden
  else inr [OPod "web" "10.0.0.5" false; OPod "node-agent" "192.168.0.2" true].
Definition example_services (ns : string) : error + list object := inr [OService "kubernetes" "10.96.0.1"].
Definition example_objs : list object :=
  [OPod "web" "10.0.0.5" false; OPod "node-agent" "192.168.0.2" true; OService "kubernetes" "10.96.0.1"].
Definition example_api : list IP := [IPv4 x0a x60 x00 x01].
Definition example_end : RState := MkR [] ["10.0.0.5/32"] example_objs.

Lemma example_started :
  addRouteDynamic None (Ret "utun3") "default" example_pods example_services =
  (example_objs, [WatchPods "default"; WatchServices ""], Ret "utun3").
Proof. reflexivity. Qed.

Lemma example_run :
  rtc (rstep working_os (λ _, None) "utun3" example_api) (rstart example_objs []) example_end.
Proof.
  eapply rtc_l; [apply (rstep_run _ _ _ _ [] "10.0.0.5" ["10.96.0.1"])|].
  eapply rtc_l; [apply (rstep_run _ _ _ _ [] "10.96.0.1" [])|].
  apply rtc_refl.
Qed.

Lemma dynamic_routes_witness :
  (∀ t, t ∈ routes example_end → t ∈ [] ∨
     ∃ ip addr, wanted example_api (seen example_end) ip addr ∧ None ≠ Some "utun3" ∧ t = host_text addr) ∧
  (pending example_end = [] → ∀ ip addr, wanted example_api (seen example_end) ip addr →
     routed working_os (λ _, None) "utun3" addr (routes example_end)).
Proof.
  destruct (dynamic_routes working_os (λ _, None) example_api None (Ret "utun3") "default" example_pods
    example_services example_objs _ "utun3" [] example_end example_started example_run) as (_ & H1 & H2 & _).
  split; [exact H1|exact H2].
Defined.

Definition example_dig (d : string) : error + string :=
  if String.eqb d "a.example" then inr "10.0.0.9" else inl EOF.
Definition example_exchange (d server : string) (n : nat) : error + list RR :=
  match n with
  | O => inl EOF
  | S O => inr []
  | _ => inr [ROther; RA (IPv4 x0a x60 x00 x01)]
  end.
Definition example_x : XState := MkX [] [] 0.
Definition example_extra : XState * outcome unit :=
  addExtraRoute working_os (λ _, None) example_dig example_exchange ["a.example"; "b.example"]
    (Ret ["10.96.0.10"]) None (Ret "utun3") (Ret [example_pod "manager" false]) [] example_x.

(** A domain that [dig] had resolved gets a second entry from the DNS client, and an
    answer that names the API server is routed into the tunnel. *)
Lemma example_extra_eq :
  example_extra =
  (MkX ["10.96.0.10/32"; "10.0.0.9/32"; "10.96.0.1/32"; "10.96.0.1/32"]
     [MkEntry "10.0.0.9" "a.example"; MkEntry "10.96.0.1" "a.example"; MkEntry "10.96.0.1" "b.example"] 4, Ret tt).
Proof. vm_compute. reflexivity. Qed.

Lemma addExtraRoute_resolves_witness :
  grows example_x example_extra.1 ∧
  (example_extra.2 = Ret tt → ["a.example"; "b.example"] = [] ∨
     ∃ tunName, Ret "utun3" = Ret tunName ∧
       Forall (λ d, resolved working_os (λ _, None) tunName d example_extra.1) ["a.example"; "b.example"]).
Proof.
  apply (addExtraRoute_resolves working_os (λ _, None) example_dig example_exchange ["a.example"; "b.example"]
    (Ret ["10.96.0.10"]) None (Ret "utun3") (Ret [example_pod "manager" false]) [] example_x).
  apply surjective_pairing.
Defined.

(** The error called "No retry" is retried a thousand times. *)
Lemma empty_answers_retried :
  resolve_domain working_os (λ _, None) "utun3" (λ _ _ _, inr []) "10.96.0.10" "c.example" example_x =
  (MkX [] [] 1000, Fail (Errorf "failed to resolve dns for domain")).
Proof. vm_compute. reflexivity. Qed.

(** An answer without addresses, such as a lone alias, ends the attempts at once. *)
Lemma alias_not_retried :
  resolve_domain working_os (λ _, None) "utun3" (λ _ _ _, inr [ROther]) "10.96.0.10" "c.example" example_x =
  (MkX [] [] 1, Fail (Errorf "failed to resolve dns for domain")).
Proof. vm_compute. reflexivity. Qed.
