(* ===== verification/ServiceHosts.v ===== *)
(** * Service names in the hosts file

    [AddServiceNameToHosts] of [pkg/dns/dns.go], over [generateHostsEntry] and
    [updateHosts] of Hosts: the names of the services are written to the hosts file
    once, and again on every event of a watch that the rate limiter lets through.  The
    lines are formatted by [text/tabwriter], which is modelled for the cells this code
    writes.  What the resolver answered, the rate limiter and the API server's lists are
    part of an event. *)
From Stdlib Require Import Ascii ZArith Lia.
From stdpp Require Import base gmap strings numbers list sorting.
From S2P Require Import Prelude GoStrings GoNet Config Hosts.
Local Open Scope string_scope.

(** ** [tabwriter] with minimal width 1, padding 1 and blanks *)

Fixpoint blanks (n : nat) : string := match n with O => "" | S n => String " " (blanks n) end.

(** A cell of a column that is [width] wide without its padding. *)
Definition cell (width : nat) (s : string) : string := s +:+ blanks (width + 1 - String.length s).

Definition width (l : list string) : nat := list_max (String.length <$> l).

(** The columns of addresses, domains and empty cells; the last cell is not aligned. *)
Definition entry_line (es : list Entry) (e : Entry) : string :=
  cell (width (e_IP <$> es)) (e_IP e) +:+ cell (width (e_Domain <$> es)) (e_Domain e) +:+
  cell 0 "" +:+ HostsKeyWord.

Definition entry_lines (es : list Entry) : list string := entry_line es <$> es.

Definition hosts_text (es : list Entry) : string :=
  match es with [] => "" | _ => Join nl (entry_lines es) +:+ nl end.

(** ** The state: [c.Hosts], the last text written, and the file *)

Record HState := MkH { hs_hosts : list Entry; hs_last : string; hs_file : option string }.

(** [c.generateHostsEntry]. *)
Definition generate (hosts : list Entry) (services : list Service) (resolved : list Entry) (st : HState)
    : HState * string :=
  match generateHostsEntry (hs_hosts st) hosts services resolved (hs_file st) with
  | None => (st, "")
  | Some es => (MkH es (hs_last st) (hs_file st), hosts_text es)
  end.

(** [c.updateHosts], and [last] when it succeeded. *)
Definition write_entry (writable : bool) (entry : string) (st : HState) : outcome HState :=
  match hs_file st with
  | None => Ret st
  | Some file =>
      match updateHosts (hs_hosts st) entry file with
      | Ret s => if writable then Ret (MkH (hs_hosts st) entry (Some s)) else Ret st
      | Fail _ => Ret st
      | Panic => Panic
      end
  end.

(** Before the watch. *)
Definition first_update (hosts : list Entry) (services : error + list Service) (resolved : list Entry)
    (writable : bool) (st : HState) : outcome HState :=
  match services with
  | inr ((_ :: _) as l) =>
      let '(st, entry) := generate hosts l resolved st in
      if String.eqb entry "" then Ret st else write_entry writable entry st
  | _ => Ret st
  end.

(** An event of the watch: an error or a bookmark, or a change with the rate limiter's
    answer and the list, the resolver and the file that were found. *)
Inductive event :=
  | EIgnored
  | EChanged (accepted : bool) (services : error + list Service) (resolved : list Entry) (writable : bool).

Definition on_event (hosts : list Entry) (ev : event) (st : HState) : outcome HState :=
  match ev with
  | EIgnored | EChanged false _ _ _ | EChanged _ (inl _) _ _ => Ret st
  | EChanged true (inr l) resolved writable =>
      let '(st, entry) := generate hosts l resolved st in
      if String.eqb entry "" || String.eqb entry (hs_last st) then Ret st else write_entry writable entry st
  end.

Fixpoint on_events (hosts : list Entry) (evs : list event) (st : HState) : outcome HState :=
  match evs with
  | [] => Ret st
  | ev :: evs => st ← on_event hosts ev st; on_events hosts evs st
  end.

Definition AddServiceNameToHosts (hosts : list Entry) (services : error + list Service) (resolved : list Entry)
    (writable : bool) (evs : list event) (st : HState) : outcome HState :=
  st ← first_update hosts services resolved writable st;
  on_events hosts evs st.

(** ** Lemmas: the lines *)

Lemma HasPrefix_nil_r s : String.prefix "" s = true.
Proof. by destruct s. Qed.

Lemma Contains_prefix s t : String.prefix t s = true → Contains s t = true.
Proof. destruct s; cbn [Contains]; intros ->; done. Qed.

Lemma Contains_app a s b : Contains (a +:+ s +:+ b) s = true.
Proof.
  induction a as [|c a IH].
  - apply Contains_prefix. apply (HasPrefix_app s b).
  - rewrite str_app_cons. cbn [Contains]. rewrite IH. by destruct (String.prefix _ _).
Qed.

Lemma Contains_front s b : Contains (s +:+ b) s = true.
Proof. apply (Contains_app "" s b). Qed.

Lemma Count_blanks c n : c ≠ " "%char → Count c (blanks n) = 0.
Proof. intros Hc. induction n as [|n IH]; [done|]. cbn [blanks Count]. rewrite IH. by destruct (Ascii.eqb_spec " " c); [subst|]. Qed.

Lemma entry_line_marked es e : marked (entry_line es e) = true.
Proof.
  unfold marked, entry_line. rewrite <- !str_app_assoc.
  rewrite <- (str_app_nil_r (_ +:+ HostsKeyWord)), str_app_assoc. apply Contains_app.
Qed.

Lemma entry_line_names es e :
  Contains (entry_line es e) (e_IP e) = true ∧ Contains (entry_line es e) (e_Domain e) = true.
Proof.
  unfold entry_line, cell. split.
  - rewrite str_app_assoc. apply Contains_front.
  - rewrite (str_app_assoc (e_Domain e)). apply Contains_app.
Qed.

(** Entries that can be written on a line of their own. *)
Definition one_line (e : Entry) : Prop := Count newline (e_IP e) = 0 ∧ Count newline (e_Domain e) = 0.

Lemma entry_lines_marks es :
  Forall one_line es → Forall (λ l, marked l = true ∧ Count newline l = 0) (entry_lines es).
Proof.
  intros He. unfold entry_lines. apply Forall_fmap. eapply Forall_impl; [exact He|].
  intros e [H1 H2]. split; [apply entry_line_marked|].
  unfold entry_line, cell. rewrite !Count_app, !Count_blanks by done. rewrite H1, H2. done.
Qed.

Lemma fold_not_in_file lines es e :
  e ∈ es → e ∈ fold_left (λ es line, remove_loop (λ e, Contains line (e_Domain e) && Contains line (e_IP e)) es)
             lines es ∨ in_file lines e = true.
Proof.
  revert es. induction lines as [|line lines IH]; intros es He; [by left|]. cbn.
  destruct (Contains line (e_Domain e) && Contains line (e_IP e)) eqn:E; [by right|].
  destruct (IH (remove_loop (λ e, Contains line (e_Domain e) && Contains line (e_IP e)) es)) as [|]; [|by left|by right].
  rewrite remove_loop_filter. apply list_elem_of_In, filter_In. split; [by apply list_elem_of_In|]. by rewrite E.
Qed.

(** An entry of a service is generated, unless it resolves or is in the file. *)
Lemma generate_entries current hosts services resolved file es e :
  generateHostsEntry current hosts services resolved (Some file) = Some es →
  e ∈ services ≫= service_entries →
  e ∈ es ∨ e ∈ resolved ∨ in_file (Split newline file) e = true.
Proof.
  unfold generateHostsEntry. cbn. intros [= <-] He.
  destruct (decide (e ∈ resolved)) as [|Hr]; [right; by left|].
  destruct (fold_not_in_file (Split newline file)
    (remove_loop (λ e, bool_decide (e ∈ resolved))
       (merge_sort entry_before (remove_dups (current ++ hosts) ++ services ≫= service_entries))) e)
    as [|]; [|by left|right; by right].
  rewrite remove_loop_filter. apply list_elem_of_In, filter_In. split; [|by rewrite bool_decide_false].
  apply list_elem_of_In. rewrite merge_sort_Permutation. apply elem_of_app. by right.
Qed.

(** ** Runs *)

Definition unmarked (file : string) : list string := List.filter (λ l, negb (marked l)) (Split newline file).

Lemma CleanupHosts_unmarked file file' : unmarked file = unmarked file' → CleanupHosts file = CleanupHosts file'.
Proof. unfold unmarked, CleanupHosts. rewrite !remove_loop_filter. by intros ->. Qed.

(** The entries an update generates fit on lines, no marked line names two of them, and
    they are not the ones written last (whose lines would have been removed since). *)
Definition clean (hosts : list Entry) (l : list Service) (resolved : list Entry) (st : HState) : Prop :=
  ∀ file es, hs_file st = Some file →
    generateHostsEntry (hs_hosts st) hosts l resolved (Some file) = Some es →
    Forall one_line es ∧ (hosts_text es = hs_last st → es = []) ∧
    ∀ line, line ∈ Split newline file → marked line = true → (hits es line ≤ 1)%nat.

Definition clean_event (hosts : list Entry) (ev : event) (st : HState) : Prop :=
  match ev with EChanged true (inr l) resolved _ => clean hosts l resolved st | _ => True end.

Fixpoint clean_run (hosts : list Entry) (evs : list event) (st : HState) : Prop :=
  match evs with
  | [] => True
  | ev :: evs => clean_event hosts ev st ∧ ∀ st', on_event hosts ev st = Ret st' → clean_run hosts evs st'
  end.

(** The line of [e] gave way to another entry's: the file from before the update, [old],
    had a marked line of [e] that mentions the domain of an entry [e'], and [e'] has a
    line in the new one. *)
Definition replaced (old file : string) (e : Entry) : Prop :=
  ∃ line e', line ∈ Split newline old ∧ marked line = true ∧
    Contains line (e_Domain e) = true ∧ Contains line (e_IP e) = true ∧
    e' ≠ e ∧ Contains line (e_Domain e') = true ∧ in_file (Split newline file) e' = true.

(** [e] has a line in [file], unless it resolves or its line was replaced. *)
Definition named (resolved : list Entry) (old file : string) (e : Entry) : Prop :=
  e ∈ resolved ∨ in_file (Split newline file) e = true ∨ replaced old file e.

Lemma hosts_text_empty es : hosts_text es = "" → es = [].
Proof. destruct es as [|e es]; [done|]. unfold hosts_text. by destruct (Join _ _). Qed.

Lemma in_file_app l k e : in_file (l ++ k)%list e = in_file l e || in_file k e.
Proof. apply existsb_app. Qed.

Lemma in_entry_lines es e : e ∈ es → in_file (entry_lines es) e = true.
Proof.
  intros He. apply existsb_exists. exists (entry_line es e). split.
  - apply list_elem_of_In, list_elem_of_fmap. by exists e.
  - destruct (entry_line_names es e) as [-> ->]. done.
Qed.

Lemma in_file_stale es lines e :
  in_file lines e = true →
  in_file (List.filter (λ l, negb (stale es l)) lines) e = true ∨
  ∃ line e', line ∈ lines ∧ marked line = true ∧
    Contains line (e_Domain e) = true ∧ Contains line (e_IP e) = true ∧
    e' ∈ es ∧ Contains line (e_Domain e') = true.
Proof.
  intros (line & Hl & [Hd Hi]%andb_true_iff)%existsb_exists.
  destruct (stale es line) eqn:Hs.
  - right. unfold stale, hits in Hs. apply andb_true_iff in Hs as [Hm Hs%Nat.ltb_lt].
    destruct (List.filter _ es) as [|e' es'] eqn:Hf; [cbn in Hs; lia|].
    assert (In e' (List.filter (λ h, Contains line (e_Domain h)) es)) as [He' Hc]%filter_In
      by (rewrite Hf; by left).
    exists line, e'. split_and!; [by apply list_elem_of_In|done|done|done|by apply list_elem_of_In|done].
  - left. apply existsb_exists. exists line. split; [apply filter_In; by rewrite Hs|by rewrite Hd, Hi].
Qed.

(** One update that is written. *)
Lemma write_ok hosts l resolved writable st file :
  hs_file st = Some file → has_localhost (unmarked file) = true → clean hosts l resolved st →
  let '(st1, entry) := generate hosts l resolved st in
  entry ≠ "" → ∃ st' file', write_entry writable entry st1 = Ret st' ∧ hs_file st' = Some file' ∧
    unmarked file' = unmarked file ∧ hs_hosts st' = hs_hosts st1 ∧
    (writable = true → ∀ e, e ∈ l ≫= service_entries → named resolved file file' e).
Proof.
  intros Hf Hloc Hc. unfold generate. rewrite Hf.
  destruct (generateHostsEntry _ _ _ _ _) as [es|] eqn:Hg; [|done]. cbn [hs_file]. intros Hne.
  destruct (Hc file es Hf Hg) as (Hlines & _ & Hhits).
  assert (entry_lines es ≠ []) as Hels by (by destruct es).
  assert (hosts_text es = Join nl (entry_lines es) +:+ nl) as Et by (by destruct es).
  destruct (hosts_update_cleanup es file (entry_lines es) Hhits Hloc Hels (entry_lines_marks es Hlines))
    as (file' & Hu & Hsplit & _).
  unfold write_entry. cbn [hs_file hs_hosts]. rewrite Et, Hu. destruct writable.
  - eexists _, file'. split; [done|]. split; [done|]. split.
    { unfold unmarked. rewrite Hsplit, List.filter_app, filter_stale_unmarked.
      rewrite (filter_marks _ (entry_lines_marks es Hlines)), app_nil_r. done. }
    split; [done|]. intros _ e He. unfold named. rewrite Hsplit, in_file_app. cbn [hs_hosts].
    destruct (generate_entries _ _ _ _ _ _ e Hg He) as [Hin|[Hin|Hin]].
    + right; left. rewrite (in_entry_lines es e Hin). by rewrite orb_true_r.
    + by left.
    + right. destruct (in_file_stale es _ e Hin) as [Hk|(line & e' & Hk & Hm & Hd & Hi & He' & Hd')];
        [left; by rewrite Hk|].
      pose proof (in_entry_lines es e' He') as Hin'. destruct (decide (e' = e)) as [->|Hee].
      { left. by rewrite Hin', orb_true_r. }
      right. exists line, e'. rewrite Hsplit, in_file_app, Hin', orb_true_r. by split_and!.
  - eexists _, file. split; [done|]. by split_and!.
Qed.

Lemma generate_skip hosts l resolved st file :
  hs_file st = Some file →
  let '(st1, entry) := generate hosts l resolved st in
  hs_file st1 = Some file ∧ hs_last st1 = hs_last st ∧
  (entry = "" → ∀ e, e ∈ l ≫= service_entries → named resolved file file e).
Proof.
  intros Hf. unfold generate. rewrite Hf.
  destruct (generateHostsEntry _ _ _ _ _) as [es|] eqn:Hg; [|by unfold generateHostsEntry in Hg].
  split; [done|]. split; [done|]. intros Hz e He.
  apply hosts_text_empty in Hz as ->.
  destruct (generate_entries _ _ _ _ _ _ e Hg He) as [Hin|[Hin|Hin]]; [by apply elem_of_nil in Hin|by left|].
  right; by left.
Qed.

Lemma on_event_ok hosts ev st file :
  hs_file st = Some file → has_localhost (unmarked file) = true → clean_event hosts ev st →
  ∃ st' file', on_event hosts ev st = Ret st' ∧ hs_file st' = Some file' ∧ unmarked file' = unmarked file ∧
    (∀ l resolved, ev = EChanged true (inr l) resolved true →
       ∀ e, e ∈ l ≫= service_entries → named resolved file file' e).
Proof.
  intros Hf Hloc Hc. destruct ev as [|[] [err|l] resolved writable]; cbn in *.
  1, 2, 4, 5: by exists st, file.
  pose proof (write_ok hosts l resolved writable st file Hf Hloc Hc) as Hw.
  pose proof (generate_skip hosts l resolved st file Hf) as Hs.
  assert (∀ es, generateHostsEntry (hs_hosts st) hosts l resolved (Some file) = Some es →
            hosts_text es = hs_last st → es = []) as Hlast.
  { intros es Hg. by destruct (Hc file es Hf Hg) as (_ & ? & _). }
  destruct (generate hosts l resolved st) as [st1 entry] eqn:Hgen. destruct Hs as (Hf1 & Hl1 & Hs).
  destruct (String.eqb_spec entry "") as [->|Hne]; cbn [orb].
  { exists st1, file. split; [done|]. split; [done|]. split; [done|]. intros l' r' [= <- <- ->]. by apply Hs. }
  destruct (String.eqb_spec entry (hs_last st1)) as [->|_].
  { exfalso. unfold generate in Hgen. rewrite Hf in Hgen.
    destruct (generateHostsEntry _ _ _ _ _) as [es|] eqn:Hg; [|done]. injection Hgen as <- He. cbn in He, Hne.
    pose proof (Hlast es eq_refl He) as ->. by destruct Hne. }
  destruct (Hw Hne) as (st' & file' & H1 & H2 & H3 & H4 & H5). exists st', file'.
  split; [done|]. split; [done|]. split; [done|]. intros l' r' [= <- <- ->]. by apply H5.
Qed.

Lemma on_events_ok hosts evs st file :
  hs_file st = Some file → has_localhost (unmarked file) = true → clean_run hosts evs st →
  ∃ st' file', on_events hosts evs st = Ret st' ∧ hs_file st' = Some file' ∧ unmarked file' = unmarked file ∧
    (∀ evs0 l resolved, evs = (evs0 ++ [EChanged true (inr l) resolved true])%list →
       ∃ st0 old, on_events hosts evs0 st = Ret st0 ∧ hs_file st0 = Some old ∧
         ∀ e, e ∈ l ≫= service_entries → named resolved old file' e).
Proof.
  revert st file. induction evs as [|ev evs IH]; intros st file Hf Hloc Hc.
  { exists st, file. split_and!; [done..|]. by intros []. }
  destruct Hc as [Hc Hrun]. destruct (on_event_ok hosts ev st file Hf Hloc Hc) as (st1 & file1 & H1 & H2 & H3 & H4).
  destruct (IH st1 file1) as (st' & file' & H1' & H2' & H3' & H4'); [done|by rewrite H3|by apply Hrun|].
  exists st', file'. cbn. rewrite H1. split; [done|]. split; [done|]. split; [by rewrite H3'|].
  intros [|ev0 evs0] l resolved [= -> ->].
  - exists st, file. split; [done|]. split; [done|].
    cbn in H1'. injection H1' as <-. rewrite H2 in H2'. injection H2' as <-. by apply H4.
  - cbn [on_events]. rewrite H1. cbn [mbind outcome_bind]. by apply H4'.
Qed.


(** ** Examples *)

Definition example_web : Service := MkService "web" ["10.0.0.1"] [] "".
Definition example_db : Service := MkService "database" ["10.0.0.22"] [] "".
Definition example_start : HState := MkH [] "" (Some "127.0.0.1 localhost").

(** The text of a file, by its lines. *)
Definition lines_of (o : outcome HState) : option (list string) :=
  match o with Ret st => Split newline <$> hs_file st | _ => None end.

Lemma example_run_lines :
  lines_of (AddServiceNameToHosts [] (inr [example_web]) [] true
    [EChanged true (inr [example_web; example_db]) [] true] example_start) =
  Some ["127.0.0.1 localhost"; "10.0.0.1 web  # Add by KubeVPN"; "10.0.0.22 database  # Add by KubeVPN"].
Proof. vm_compute. reflexivity. Qed.

(** A service that gets a second address loses the line of the first. *)
Lemma second_address_replaces_first :
  lines_of (AddServiceNameToHosts [] (inr [example_web]) [] true
    [EChanged true (inr [MkService "web" ["10.0.0.1"; "10.0.0.2"] [] ""]) [] true] example_start) =
  Some ["127.0.0.1 localhost"; "10.0.0.2 web  # Add by KubeVPN"].
Proof. vm_compute. reflexivity. Qed.

(** After an update that found nothing new, [c.Hosts] is empty, and leaving the
    connection, which removes the lines of [c.Hosts], removes nothing. *)
Lemma unchanged_services_forgotten :
  (hs_hosts <$> AddServiceNameToHosts [] (inr [example_web]) [] true
    [EChanged true (inr [example_web]) [] true] example_start) = Ret [].
Proof. vm_compute. reflexivity. Qed.

Ltac clean_case :=
  let file := fresh "file" in let es := fresh "es" in let line := fresh "line" in
  let Hg := fresh "Hg" in let Hl := fresh "Hl" in
  intros file es [= <-] Hg; vm_compute in Hg; injection Hg as <-;
  split; [repeat constructor|]; split; [discriminate|];
  intros line Hl; vm_compute in Hl;
  repeat (apply elem_of_cons in Hl as [->|Hl]; [vm_compute; intros; first [discriminate|lia]|]);
  by apply elem_of_nil in Hl.

