(* ===== verification/SetupDns.v ===== *)
(** * DNS of a connection

    [setupDNS] of [pkg/handler/connect.go] and [GetDNSServiceIPFromPod] of
    [pkg/util/dns.go]: the resolver configuration of a pod of the traffic manager, with
    the cluster's DNS servers, becomes the configuration of the connection; it is set up
    by Resolv, and the service names are added to the hosts file by ServiceHosts. *)
From Stdlib Require Import Ascii ZArith Lia.
From stdpp Require Import base gmap strings numbers list.
From S2P Require Import Prelude GoStrings GoNet Config Hosts Resolv PortForward ServiceHosts.
Local Open Scope string_scope.

(** [shell] is the content of the pod's [/etc/resolv.conf]; a resolver reads three
    servers, of which one is left to the system. *)
Definition GetDNSServiceIPFromPod (shell : error + string) (dns_ips : outcome (list string))
    : outcome ClientConfig :=
  match shell with
  | inl e => Fail e
  | inr content =>
      let resolvConf := ClientConfigFromReader content in
      let resolvConf := match dns_ips with
                        | Ret ((_ :: _) as ips) => set_Servers ips resolvConf
                        | _ => resolvConf
                        end in
      Ret (if (2 <? length (Servers resolvConf))%nat
           then set_Servers (take 2 (Servers resolvConf)) resolvConf else resolvConf)
  end.

Definition set_Port (p : string) (c : ClientConfig) : ClientConfig :=
  MkClientConfig (Servers c) (Search c) p (Ndots c) (cc_Timeout c) (Attempts c).

(** What the cluster answers, and the name of the tunnel device. *)
Record DNSInput := MkDNSInput {
  di_pods : outcome (list ManagerPod);
  di_shell : error + string; di_dns : outcome (list string);
  di_namespaces : error + list string; di_services : error + list Service;
  di_tun : outcome string }.

Definition names {A} (o : error + list A) (f : A → string) : list string :=
  match o with inr l => f <$> l | inl _ => [] end.

Section setup.
(** The order of a Go map. *)
Context (UnsortedList : list string → list string).

Definition dns_config (i : DNSInput) (useLocalDNS lite : bool) (extraHost : list Entry) : outcome DNSConfig :=
  pods ← di_pods i;
  match pods with
  | [] => Panic
  | _ =>
      relovConf ← GetDNSServiceIPFromPod (di_shell i) (di_dns i);
      let relovConf := if String.eqb (cc_Port relovConf) "" then set_Port "53" relovConf else relovConf in
      let ns := remove_dups (names (di_namespaces i) id ++ names (di_services i) s_Name)%list in
      tunName ← di_tun i;
      Ret (MkDNSConfig relovConf (UnsortedList ns) useLocalDNS tunName lite extraHost)
  end.

Context (denied : string → bool) (exec : list string → Files → Files) (caddy_Start : string → option error).

(** The configuration, the files and the error; [resolved] and [evs] are what
    [AddServiceNameToHosts] finds at first and later. *)
Definition setupDNS (i : DNSInput) (useLocalDNS lite : bool) (extraHost : list Entry) (resolved : list Entry)
    (evs : list event) (fs : Files) : outcome (DNSConfig * Files * option error) :=
  c ← dns_config i useLocalDNS lite extraHost;
  '(conf, fs, err) ← SetupDNS denied exec caddy_Start c fs;
  let c := MkDNSConfig conf (d_Ns c) (d_UseLocalDNS c) (d_TunName c) (d_Lite c) (d_Hosts c) in
  match err with
  | Some e => Ret (c, fs, Some e)
  | None =>
      st ← AddServiceNameToHosts extraHost (di_services i) resolved (negb (denied GetHostFile)) evs
             (MkH (d_Hosts c) "" (fs !! GetHostFile));
      Ret (MkDNSConfig conf (d_Ns c) (d_UseLocalDNS c) (d_TunName c) (d_Lite c) (hs_hosts st),
           match hs_file st with Some file => <[GetHostFile := file]> fs | None => fs end, None)
  end.
End setup.

(** ** Lemmas *)

Lemma cluster_servers shell dns_ips c :
  GetDNSServiceIPFromPod shell dns_ips = Ret c → (length (Servers c) ≤ 2)%nat.
Proof.
  unfold GetDNSServiceIPFromPod. destruct shell as [e|content]; [done|]. intros [= <-].
  destruct (Nat.ltb_spec 2 (length (Servers match dns_ips with Ret ((_ :: _) as ips) =>
    set_Servers ips (ClientConfigFromReader content) | _ => ClientConfigFromReader content end))); [|done].
  cbn. rewrite length_take. lia.
Qed.

Lemma dns_config_servers U i useLocalDNS lite extraHost c :
  dns_config U i useLocalDNS lite extraHost = Ret c →
  (length (Servers (d_Config c)) ≤ 2)%nat ∧ d_UseLocalDNS c = useLocalDNS.
Proof.
  unfold dns_config. intros (pods & _ & H)%outcome_bind_Ret. destruct pods; [done|].
  apply outcome_bind_Ret in H as (conf & Hc & H). apply outcome_bind_Ret in H as (tun & _ & [= <-]).
  split; [|done]. apply cluster_servers in Hc. cbn. by destruct (String.eqb _ _).
Qed.

Lemma take_app_bound {A} (l k : list A) n x :
  (length l < n)%nat → head k = Some x → x ∈ take n (l ++ k)%list.
Proof.
  intros Hl Hk. destruct k as [|y k]; [done|]. injection Hk as ->.
  rewrite take_app, (take_ge l) by lia. apply elem_of_app. right.
  destruct (n - length l)%nat eqn:E; [lia|]. cbn. left.
Qed.

(** C27.  The first name server of the host stays among the three a resolver reads: the
    connection has at most two servers of the cluster, and after [SetupDNS] the
    resolver's file lists them (the first replaced by the local server when there is
    one) and then the host's. *)
Theorem host_server_kept U denied exec caddy_Start i useLocalDNS lite extraHost c fs s
    (Hc : dns_config U i useLocalDNS lite extraHost = Ret c)
    (Hs : head (existing fs).1 = Some s)
    (Hwrite : may_write denied) (Hexec : exec_keeps exec)
    (Hidx : indexable (d_Config c) = true) (Hstart : starts caddy_Start c fs = true)
    (Hwords : words_config (d_Config c)) (Hrange : in_ranges (d_Config c))
    (Hshort : short (resolv_content (merged c fs))) :
  (length (Servers (d_Config c)) ≤ 2)%nat ∧
  ∃ fs' c', SetupDNS denied exec caddy_Start c fs = Ret (merged c fs, fs', None) ∧
    ClientConfigFromReader <$> fs' !! resolv_conf = Some c' ∧ s ∈ take 3 (Servers c').
Proof.
  destruct (dns_config_servers _ _ _ _ _ _ Hc) as [H2 _]. split; [done|].
  destruct (SetupDNS_files denied exec caddy_Start c fs Hwrite Hidx Hstart) as (args & E). cbn zeta in E.
  eexists _, (written (merged c fs)). split; [exact E|]. split.
  - rewrite lookup_insert_eq. cbn. f_equal. destruct (merged_words c fs Hwords) as [Hw1 Hw2].
    apply resolv_content_read; try done.
    unfold indexable in Hidx. destruct (Search (d_Config c)) as [|? [|? [|]]] eqn:Es;
      [by rewrite andb_false_r in Hidx..|]. unfold merged. cbn. by rewrite Es.
  - unfold written, merged. cbn [Servers set_Search set_Servers]. apply take_app_bound; [|done].
    unfold indexable in Hidx. destruct (Servers (d_Config c)); [done|].
    destruct (d_UseLocalDNS c); cbn in *; lia.
Qed.

(** ** Examples *)

Definition example_pod_resolv : string :=
  "nameserver 172.21.0.10" +:+ Hosts.nl +:+
  "search default.svc.cluster.local svc.cluster.local cluster.local" +:+ Hosts.nl +:+ "options ndots:5" +:+ Hosts.nl.
Definition example_input : DNSInput :=
  MkDNSInput (Ret [example_pod "manager" false]) (inr example_pod_resolv)
    (Ret ["172.21.0.10"; "172.29.2.17"; "172.29.3.4"]) (inr ["default"]) (inr [example_web]) (Ret "utun0").
Definition example_conf : DNSConfig :=
  match dns_config id example_input false false [] with Ret c => c | _ => example_dns false end.
Lemma example_conf_eq : dns_config id example_input false false [] = Ret example_conf.
Proof. vm_compute. reflexivity. Qed.

Lemma host_server_kept_witness :
  (length (Servers (d_Config example_conf)) ≤ 2)%nat ∧
  ∃ fs' c', SetupDNS (λ _, false) (λ _ fs, fs) (λ _, None) example_conf example_files
      = Ret (merged example_conf example_files, fs', None) ∧
    ClientConfigFromReader <$> fs' !! resolv_conf = Some c' ∧ "192.168.1.1" ∈ take 3 (Servers c').
Proof.
  apply (host_server_kept id (λ _, false) (λ _ fs, fs) (λ _, None) example_input false false [] example_conf
    example_files "192.168.1.1" example_conf_eq).
  - vm_compute. reflexivity.
  - by intros p _.
  - by intros args fs p _.
  - vm_compute. reflexivity.
  - vm_compute. reflexivity.
  - split; apply (bool_decide_unpack _); vm_compute; exact I.
  - vm_compute. by split_and!.
  - vm_compute. reflexivity.
Defined.

(** The whole step: the service name is in the hosts file, the host's server is third. *)
Lemma example_setup :
  match setupDNS id (λ _, false) (λ _ fs, fs) (λ _, None) example_input false false [] [] [] example_files with
  | Ret (_, fs, None) => (Split Hosts.newline <$> fs !! GetHostFile, (Servers ∘ ClientConfigFromReader) <$> fs !! resolv_conf)
  | _ => (None, None)
  end = (Some ["127.0.0.1 localhost"; "10.0.0.1 web  # Add by KubeVPN"],
         Some ["172.21.0.10"; "172.29.2.17"; "192.168.1.1"]).
Proof. vm_compute. reflexivity. Qed.
