(* ===== verification/Docker.v ===== *)
(** * Container options

    [pkg/dev/dockeropts.go]: the options a user gives for the container of a workload,
    parsed to what the docker engine is asked for.  The ports ([nat]), the modes of
    [api/types/container] and the key-value lists of [opts] are vendored with the program
    and modelled from their sources; files, the parser of volumes and the validator of
    hardware addresses are parameters. *)
From Stdlib Require Import Ascii ZArith Lia.
From stdpp Require Import base gmap strings numbers pretty list.
From S2P Require Import Prelude GoStrings GoNet GoPath Url.
Local Open Scope string_scope.

(** ** Strings *)

(** [strings.Cut] with a separator of one character. *)
Fixpoint Cut (c : ascii) (s : string) : option (string * string) :=
  match s with
  | "" => None
  | String a s =>
      if Ascii.eqb a c then Some ("", s)
      else match Cut c s with Some (l, r) => Some (String a l, r) | None => None end
  end.

(** [strings.SplitN(s, c, n)] for a positive [n]. *)
Fixpoint SplitN (c : ascii) (s : string) (n : nat) : list string :=
  match n with
  | O | 1%nat => [s]
  | S n => match Cut c s with Some (l, r) => l :: SplitN c r n | None => [s] end
  end.

Definition ConvertKVStringsToMap (values : list string) : gmap string string :=
  fold_left (λ result value,
    match Cut "=" value with Some (k, v) => <[k := v]> result | None => <[value := ""]> result end) values ∅.

(** ** Data *)

Record PortBinding := MkBinding { HostIP : string; HostPort : string }.
Record DeviceMapping := MkDevice { PathOnHost : string; PathInContainer : string; CgroupPermissions : string }.
Record HealthConfig := MkHealth {
  hc_Test : list string; hc_Interval : Z; hc_Timeout : Z; hc_StartPeriod : Z; hc_Retries : Z }.
Record RestartPolicy := MkRestart { rp_Name : string; MaximumRetryCount : Z }.

(** A mount: its type, source and target, and whether it is a bind that is not
    recursive. *)
Record Mount := MkMount { mt_Type : string; mt_Source : string; mt_Target : string; mt_NonRecursive : bool }.

(** The limits that are copied from the options as they are. *)
Record Resources := MkResources {
  CgroupParent : string; Memory : Z; MemoryReservation : Z; MemorySwap : Z; MemorySwappiness : Z;
  KernelMemory : Z; OomKillDisable : bool; NanoCPUs : Z; CPUCount : Z; CPUPercent : Z; CPUShares : Z;
  CPUPeriod : Z; CpusetCpus : string; CpusetMems : string; CPUQuota : Z; CPURealtimePeriod : Z;
  CPURealtimeRuntime : Z; PidsLimit : Z; BlkioWeight : Z; BlkioWeightDevice : list (string * Z);
  BlkioDeviceReadBps : list (string * Z); BlkioDeviceWriteBps : list (string * Z);
  BlkioDeviceReadIOps : list (string * Z); BlkioDeviceWriteIOps : list (string * Z);
  IOMaximumIOps : Z; IOMaximumBandwidth : Z; Ulimits : list string; DeviceCgroupRules : list string;
  DeviceRequests : list string }.

(** [network.EndpointSettings]; the addresses of an [EndpointIPAMConfig] are IPv4, IPv6
    and link-local. *)
Record EndpointSettings := MkEndpoint {
  ep_Aliases : list string; ep_DriverOpts : gmap string string; ep_Links : list string;
  IPAMConfig : option (string * string * list string); ep_NetworkID : string }.

#[export] Instance EndpointSettings_eq_dec : EqDecision EndpointSettings.
Proof. solve_decision. Defined.

(** The labels of a container: a map of its own, or the map of the pod's template, which
    all containers of the pod refer to. *)
Inductive labels := PodLabels | OwnLabels (m : gmap string string).

(** [container.Config] *)
Record Config := MkConfig {
  Hostname : string; Domainname : string; User : string;
  AttachStdin : bool; AttachStdout : bool; AttachStderr : bool;
  ExposedPorts : option (gset string); Tty : bool; OpenStdin : bool; StdinOnce : bool;
  Env : list string; Cmd : list string; Healthcheck : option HealthConfig; Image : string;
  Volumes : option (gmap string unit); WorkingDir : string; Entrypoint : list string; MacAddress : string;
  Labels : labels; StopSignal : string; StopTimeout : option Z }.

(** The fields of [container.HostConfig] that only the parser of options sets. *)
Record HostRest := MkHostRest {
  ContainerIDFile : string; OomScoreAdj : Z; Links : list string; ExtraHosts : list string;
  IpcMode : string; UTSMode : string; UsernsMode : string; CgroupnsMode : string; CapDrop : list string;
  GroupAdd : list string; hr_RestartPolicy : RestartPolicy; StorageOpt : gmap string string; ReadonlyRootfs : bool;
  LogType : string; LogConfig : gmap string string; VolumeDriver : string; Isolation : string; ShmSize : Z;
  hr_Resources : Resources; Devices : list DeviceMapping; Tmpfs : gmap string string;
  Sysctls : gmap string string; Runtime : string; MaskedPaths : option (list string);
  ReadonlyPaths : option (list string); Init : option bool }.

Abbreviation PortMap := (gmap string (list PortBinding)).

Record HostConfig := MkHostConfig {
  Binds : list string; NetworkMode : string; PortBindings : option PortMap; AutoRemove : bool;
  VolumesFrom : list string; CapAdd : list string; DNS : list string; DNSOptions : list string;
  DNSSearch : list string; PidMode : string; Privileged : bool; PublishAllPorts : bool;
  SecurityOpt : list string; Mounts : list Mount; Rest : HostRest }.

(** [opts.NetworkAttachmentOpts] *)
Record NetworkAttachmentOpts := MkAttachment {
  Target : string; Aliases : list string; DriverOpts : gmap string string; na_Links : list string;
  na_IPv4 : string; na_IPv6 : string; na_LinkLocal : list string }.

Record containerConfig := MkContainerConfig {
  cc_Config : Config; cc_HostConfig : HostConfig; EndpointsConfig : gmap string EndpointSettings }.

(** ** Modes *)

Definition IsContainer (n : string) : bool :=
  match Cut ":" n with Some (m, _) => String.eqb m "container" | None => false end.
Definition ConnectedContainer (n : string) : string :=
  match Cut ":" n with Some (_, c) => c | None => "" end.
Definition IsUserDefined (n : string) : bool :=
  negb (String.eqb n "default") && negb (String.eqb n "bridge") && negb (String.eqb n "host") &&
  negb (String.eqb n "none") && negb (IsContainer n).

Definition PidMode_Valid (n : string) : bool :=
  match Split ":" n with
  | m :: rest =>
      if String.eqb m "" || String.eqb m "host" then true
      else if String.eqb m "container" then
        match rest with [c] => negb (String.eqb c "") | _ => false end
      else false
  | [] => false
  end.
(** [UTSMode.Valid] and [UsernsMode.Valid] *)
Definition hostMode_Valid (n : string) : bool :=
  match Split ":" n with m :: _ => String.eqb m "" || String.eqb m "host" | [] => false end.
Definition CgroupnsMode_Valid (n : string) : bool := bool_decide (n ∈ [""; "private"; "host"]).

Definition RestartPolicy_IsNone (p : RestartPolicy) : bool := bool_decide (rp_Name p ∈ ["no"; ""]).
Definition ParseRestartPolicy (policy : string) : outcome RestartPolicy :=
  if String.eqb policy "" then Ret (MkRestart "" 0)
  else let '(k, v) := match Cut ":" policy with Some kv => kv | None => (policy, "") end in
    if String.eqb v "" then Ret (MkRestart k 0)
    else match Atoi v with
         | Some count => Ret (MkRestart k count)
         | None => Fail (Errorf "invalid restart policy format: maximum retry count must be an integer")
         end.

(** ** Networks *)

(** [NetworkOpt.NetworkMode] *)
Definition netMode_NetworkMode (value : list NetworkAttachmentOpts) : string :=
  match value with n :: _ => Target n | [] => "default" end.

(** The old flags that apply to the first network. *)
Record NetFlags := MkNetFlags {
  nf_aliases : list string; nf_links : list string; nf_ipv4 : string; nf_ipv6 : string; nf_linkLocal : list string }.

Definition nonempty {A} (l : list A) : bool := match l with [] => false | _ => true end.
Definition given (s : string) : bool := negb (String.eqb s "").

Definition applyContainerOptions (n : NetworkAttachmentOpts) (f : NetFlags) : outcome NetworkAttachmentOpts :=
  if nonempty (Aliases n) && nonempty (nf_aliases f)
  then Fail (Errorf "conflicting options: cannot specify both --network-alias and per-network alias")
  else if nonempty (na_Links n) && nonempty (nf_links f)
  then Fail (Errorf "conflicting options: cannot specify both --link and per-network links")
  else if given (na_IPv4 n) && given (nf_ipv4 f)
  then Fail (Errorf "conflicting options: cannot specify both --ip and per-network IPv4 address")
  else if given (na_IPv6 n) && given (nf_ipv6 f)
  then Fail (Errorf "conflicting options: cannot specify both --ip6 and per-network IPv6 address")
  else Ret (MkAttachment (Target n)
    (if nonempty (nf_aliases f) then nf_aliases f else Aliases n) (DriverOpts n)
    (if nonempty (nf_links f) then nf_links f else na_Links n)
    (if given (nf_ipv4 f) then nf_ipv4 f else na_IPv4 n)
    (if given (nf_ipv6 f) then nf_ipv6 f else na_IPv6 n)
    (if nonempty (nf_linkLocal f) then nf_linkLocal f else na_LinkLocal n)).

Definition parseNetworkAttachmentOpt (ep : NetworkAttachmentOpts) : outcome EndpointSettings :=
  if String.eqb (TrimSpace (Target ep)) "" then Fail (Errorf "no name set for network")
  else if negb (IsUserDefined (Target ep)) && nonempty (Aliases ep)
  then Fail (Errorf "network-scoped aliases are only supported for user-defined networks")
  else if negb (IsUserDefined (Target ep)) && nonempty (na_Links ep)
  then Fail (Errorf "links are only supported for user-defined networks")
  else Ret (MkEndpoint (Aliases ep) (DriverOpts ep) (na_Links ep)
    (if given (na_IPv4 ep) || given (na_IPv6 ep) || nonempty (na_LinkLocal ep)
     then Some (na_IPv4 ep, na_IPv6 ep, na_LinkLocal ep) else None) "").

Definition empty_endpoint : EndpointSettings := MkEndpoint [] ∅ [] None "".

(** The loop over the networks, from the [i]th; [only]: there is one network. *)
Fixpoint network_loop (only : bool) (f : NetFlags) (i : nat) (nets : list NetworkAttachmentOpts)
    (endpoints : gmap string EndpointSettings) : outcome (gmap string EndpointSettings) :=
  match nets with
  | [] => Ret endpoints
  | n :: nets =>
      n ← (if (i =? 0)%nat then applyContainerOptions n f else Ret n);
      ep ← parseNetworkAttachmentOpt n;
      if bool_decide (is_Some (endpoints !! Target n))
      then Fail (Errorf "network is specified multiple times")
      else if (i =? 0)%nat && only && bool_decide (ep = empty_endpoint)
      then network_loop only f (S i) nets endpoints
      else network_loop only f (S i) nets (<[Target n := ep]> endpoints)
  end.

Definition parseNetworkOpts (netMode : list NetworkAttachmentOpts) (f : NetFlags)
    : outcome (gmap string EndpointSettings) :=
  endpoints ← network_loop (length netMode =? 1)%nat f 0 netMode ∅;
  if existsb (λ n, IsUserDefined (Target n)) netMode && existsb (λ n, negb (IsUserDefined (Target n))) netMode
  then Fail (Errorf "conflicting options: cannot attach both user-defined and non-user-defined network-modes")
  else Ret endpoints.

(** ** Ports *)

(** [nat.SplitProtoPort] *)
Definition SplitProtoPort (rawPort : string) : string * string :=
  match Split "/" rawPort with
  | "" :: _ | [] => ("", "")
  | [_] => ("tcp", rawPort)
  | p :: "" :: _ => ("tcp", p)
  | p :: proto :: _ => (proto, p)
  end.

(** [nat.ParsePortRange] *)
Definition ParsePortRange (ports : string) : option (Z * Z) :=
  if String.eqb ports "" then None
  else match Split "-" ports with
       | [_] => p ← ParseUint 16 ports; Some (p, p)
       | s :: e :: _ =>
           s ← ParseUint 16 s; e ← ParseUint 16 e;
           if (e <? s)%Z then None else Some (s, e)
       | [] => None
       end.

(** [nat.NewPort] of one port number *)
Definition NewPort (proto : string) (port : Z) : string := Itoa port +:+ "/" +:+ proto.

Definition splitParts (rawport : string) : string * string * string :=
  match rev (Split ":" rawport) with
  | [] => ("", "", "")
  | [c] => ("", "", c)
  | [c; h] => ("", h, c)
  | c :: h :: ip => (Join ":" (rev ip), h, c)
  end.

(** [nat.ParsePortSpec] *)
Definition ParsePortSpec (rawPort : string) : outcome (list (string * PortBinding)) :=
  let '(rawIP, hostPort, containerPort) := splitParts rawPort in
  let '(proto, containerPort) := SplitProtoPort containerPort in
  match SplitHostPort (rawIP +:+ ":") with
  | None => Fail (Errorf "Invalid ip address")
  | Some (ip, _) =>
      if given ip && negb (bool_decide (is_Some (ParseIP ip))) then Fail (Errorf "Invalid ip address")
      else if String.eqb containerPort "" then Fail (Errorf "No port specified")
      else match ParsePortRange containerPort with
      | None => Fail (Errorf "Invalid containerPort")
      | Some (startPort, endPort) =>
          match (if given hostPort then ParsePortRange hostPort else Some (0, 0)%Z) with
          | None => Fail (Errorf "Invalid hostPort")
          | Some (startHostPort, endHostPort) =>
              if given hostPort && negb (endPort - startPort =? endHostPort - startHostPort)%Z &&
                 negb (endPort =? startPort)%Z
              then Fail (Errorf "Invalid ranges specified for container and host Ports")
              else if negb (bool_decide (ToLower proto ∈ ["tcp"; "udp"; "sctp"]))
              then Fail (Errorf "Invalid proto")
              else Ret ((λ i : nat,
                let host := if given hostPort then Itoa (startHostPort + Z.of_nat i) else "" in
                let host := if (startPort =? endPort)%Z && negb (startHostPort =? endHostPort)%Z
                            then host +:+ "-" +:+ Itoa endHostPort else host in
                (NewPort (ToLower proto) (startPort + Z.of_nat i), MkBinding ip host))
                <$> seq 0 (Z.to_nat (endPort - startPort + 1)))
          end
      end
  end.

Definition add_mapping (m : gset string * PortMap) (p : string * PortBinding) : gset string * PortMap :=
  ({[p.1]} ∪ m.1, <[p.1 := (default [] (m.2 !! p.1) ++ [p.2])%list]> m.2).

Fixpoint ParsePortSpecs (ports : list string) (m : gset string * PortMap) : outcome (gset string * PortMap) :=
  match ports with
  | [] => Ret m
  | rawPort :: ports =>
      ms ← ParsePortSpec rawPort;
      ParsePortSpecs ports (fold_left add_mapping ms m)
  end.

(** The parameters of one published port in the long notation. *)
Fixpoint publish_params (l : list string) (params : gmap string string) : outcome (gmap string string) :=
  match l with
  | [] => Ret params
  | param :: l =>
      match Split "=" param with
      | k :: v :: _ => publish_params l (<[k := v]> params)
      | _ => Fail (Errorf "invalid publish opts format (should be name=value)")
      end
  end.

Fixpoint convertToStandardNotation (ports : list string) : outcome (list string) :=
  match ports with
  | [] => Ret []
  | publish :: ports =>
      o ← (if Contains publish "=" then
             params ← publish_params (Split "," publish) {["protocol" := "tcp"]};
             let get k := default "" (params !! k) in
             Ret (get "published" +:+ ":" +:+ get "target" +:+ "/" +:+ get "protocol")
           else Ret publish);
      l ← convertToStandardNotation ports;
      Ret (o :: l)
  end.

(** [--expose] *)
Fixpoint expose_loop (l : list string) (ports : gset string) : outcome (gset string) :=
  match l with
  | [] => Ret ports
  | e :: l =>
      if Contains e ":" then Fail (Errorf "invalid port format for --expose")
      else
        let '(proto, port) := SplitProtoPort e in
        match ParsePortRange port with
        | None => Fail (Errorf "invalid range format for --expose")
        | Some (start, stop) =>
            expose_loop l (list_to_set (NewPort proto <$> seqZ start (stop - start + 1)) ∪ ports)
        end
  end.

(** ** Security, storage, logging *)

Section files.
Context (ReadFile Compact : string → error + string).

Fixpoint parseSecurityOpts (securityOpts : list string) : outcome (list string) :=
  match securityOpts with
  | [] => Ret []
  | opt :: rest =>
      con ← (match SplitN "=" opt 2 with
             | [k] => if String.eqb k "no-new-privileges" then Ret [k]
                      else if Contains opt ":" then Ret (SplitN ":" opt 2)
                      else Fail (Errorf "Invalid --security-opt")
             | con => Ret con
             end);
      opt ← (match con with
             | k :: v :: _ =>
                 if String.eqb k "seccomp" && negb (String.eqb v "unconfined") then
                   match ReadFile v with
                   | inl e => Fail (ErrorfV "opening seccomp profile failed" e)
                   | inr f => match Compact f with
                              | inl e => Fail (ErrorfV "compacting json for seccomp profile failed" e)
                              | inr b => Ret ("seccomp=" +:+ b)
                              end
                   end
                 else Ret opt
             | [k] => if String.eqb k "seccomp" then Panic else Ret opt
             | [] => Panic
             end);
      rest ← parseSecurityOpts rest;
      Ret (opt :: rest)
  end.
End files.

(** The options left, and the masked and read-only paths: the daemon's when [None]. *)
Definition parseSystemPaths (securityOpts : list string) : list string * option (list string) * option (list string) :=
  let paths := if bool_decide ("systempaths=unconfined" ∈ securityOpts) then Some [] else None in
  (List.filter (λ opt, negb (String.eqb opt "systempaths=unconfined")) securityOpts, paths, paths).

Fixpoint parseStorageOpts (storageOpts : list string) (m : gmap string string) : outcome (gmap string string) :=
  match storageOpts with
  | [] => Ret m
  | option :: storageOpts =>
      match Cut "=" option with
      | Some (k, v) => parseStorageOpts storageOpts (<[k := v]> m)
      | None => Fail (Errorf "invalid storage option")
      end
  end.

Definition parseLoggingOpts (loggingDriver : string) (loggingOpts : list string) : outcome (gmap string string) :=
  if String.eqb loggingDriver "none" && nonempty loggingOpts
  then Fail (Errorf "invalid logging opts for driver") else Ret (ConvertKVStringsToMap loggingOpts).

(** ** Devices *)

Fixpoint legal_modes (legal : list ascii) (mode : string) : bool :=
  match mode with
  | "" => true
  | String c mode =>
      bool_decide (c ∈ legal) && legal_modes (List.filter (λ a, negb (Ascii.eqb a c)) legal) mode
  end.
Definition validDeviceMode (mode : string) : bool :=
  given mode && legal_modes ["r"; "w"; "m"]%char mode.

Definition validateLinuxPath (val : string) (validator : string → bool) : outcome string :=
  if (2 <? Count ":" val)%nat then Fail (Errorf "bad format for path")
  else
    '(containerPath, val) ← (match SplitN ":" val 3 with
      | "" :: _ | [] => Fail (Errorf "bad format for path")
      | [p] => Ret (p, Clean p)
      | [p; q] => if validator q then Ret (p, Clean p +:+ ":" +:+ q) else Ret (q, p +:+ ":" +:+ Clean q)
      | p :: q :: mode :: _ =>
          if validator mode then Ret (q, p +:+ ":" +:+ q +:+ ":" +:+ mode)
          else Fail (Errorf "bad mode specified")
      end);
    if HasPrefix containerPath "/" then Ret val else Fail (Errorf "not an absolute path").

Definition validateDevice (val serverOS : string) : outcome string :=
  if String.eqb serverOS "linux" then validateLinuxPath val validDeviceMode
  else if String.eqb serverOS "windows" then Ret val
  else Fail (Errorf "unknown server OS").

Definition parseLinuxDevice (device : string) : outcome DeviceMapping :=
  let make src dst permissions :=
    Ret (MkDevice src (if String.eqb dst "" then src else dst) permissions) in
  let middle src q permissions :=
    if validDeviceMode q then make src "" q else make src q permissions in
  match Split ":" device with
  | [src] => make src "" "rwm"
  | [src; q] => middle src q "rwm"
  | [src; q; mode] => middle src q mode
  | _ => Fail (Errorf "invalid device specification")
  end.

Definition parseDevice (device serverOS : string) : outcome DeviceMapping :=
  if String.eqb serverOS "linux" then parseLinuxDevice device
  else if String.eqb serverOS "windows" then Ret (MkDevice device "" "")
  else Fail (Errorf "unknown server OS").

Fixpoint device_loop (serverOS : string) (l : list string) : outcome (list DeviceMapping) :=
  match l with
  | [] => Ret []
  | device :: l =>
      validated ← validateDevice device serverOS;
      m ← parseDevice validated serverOS;
      ms ← device_loop serverOS l;
      Ret (m :: ms)
  end.

(** The regular expression of a rule: a type, two numbers or stars, one to three modes. *)
Definition number_or_star (s : string) : bool :=
  String.eqb s "*" || (given s && forallb (λ a, bool_decide (is_Some (digit a))) (String.list_ascii_of_string s)).
Definition validateDeviceCgroupRule (val : string) : outcome string :=
  let ok := match SplitN " " val 3 with
            | [t; nums; mode] =>
                bool_decide (t ∈ ["a"; "c"; "b"]) &&
                match Split ":" nums with
                | [major; minor] => number_or_star major && number_or_star minor
                | _ => false
                end &&
                (1 <=? String.length mode)%nat && (String.length mode <=? 3)%nat &&
                forallb (λ a, bool_decide (a ∈ ["r"; "w"; "m"]%char)) (String.list_ascii_of_string mode)
            | _ => false
            end in
  if ok then Ret val else Fail (Errorf "invalid device cgroup format").

Definition validateAttach (val : string) : outcome string :=
  let s := ToLower val in
  if bool_decide (s ∈ ["stdin"; "stdout"; "stderr"]) then Ret s
  else Fail (Errorf "valid streams are STDIN, STDOUT and STDERR").

(** ** All options *)

(** The options as the flags leave them; a flag whose value is copied to a field of
    [HostRest] or [Resources] has that field's type. *)
Record ContainerOptions := MkOptions {
  co_attach : list string; co_volumes : list string; co_tmpfs : list string; co_mounts : list Mount;
  co_env : list string; co_envFile : list string; co_labels : list string; co_labelsFile : list string;
  co_devices : list string; co_publish : list string; co_expose : list string; co_dns : list string;
  co_dnsSearch : list string; co_dnsOptions : list string; co_extraHosts : list string;
  co_volumesFrom : list string; co_capAdd : list string; co_capDrop : list string; co_groupAdd : list string;
  co_securityOpt : list string; co_storageOpt : list string; co_loggingOpts : list string;
  co_sysctls : gmap string string; co_privileged : bool; co_pidMode : string; co_utsMode : string;
  co_usernsMode : string; co_cgroupnsMode : string; co_publishAll : bool; co_stdin : bool; co_tty : bool;
  co_oomScoreAdj : Z; co_containerIDFile : string; co_entrypoint : string; co_hostname : string;
  co_domainname : string; co_user : string; co_workingDir : string; co_netMode : list NetworkAttachmentOpts;
  co_netFlags : NetFlags; co_macAddress : string; co_ipcMode : string; co_restartPolicy : string;
  co_readonlyRootfs : bool; co_loggingDriver : string; co_volumeDriver : string; co_stopSignal : string;
  co_stopTimeout : Z; co_isolation : string; co_shmSize : Z; co_noHealthcheck : bool; co_healthCmd : string;
  co_healthInterval : Z; co_healthTimeout : Z; co_healthStartPeriod : Z; co_healthRetries : Z;
  co_runtime : string; co_autoRemove : bool; co_init : bool; co_resources : Resources;
  co_Image : string; co_Args : list string }.

Definition attach_streams (c : ContainerOptions) : bool * bool * bool :=
  let get k := bool_decide (k ∈ co_attach c) in
  let all := negb (nonempty (co_attach c)) in
  (get "stdin" || co_stdin c, get "stdout" || all, get "stderr" || all).

Definition parse_tmpfs (l : list string) : gmap string string :=
  fold_left (λ tmpfs t, match Cut ":" t with Some (k, v) => <[k := v]> tmpfs | None => <[t := ""]> tmpfs end) l ∅.

Definition parse_health (c : ContainerOptions) : outcome (option HealthConfig) :=
  let haveHealthSettings := given (co_healthCmd c) || negb (co_healthInterval c =? 0)%Z ||
    negb (co_healthTimeout c =? 0)%Z || negb (co_healthStartPeriod c =? 0)%Z || negb (co_healthRetries c =? 0)%Z in
  if co_noHealthcheck c then
    if haveHealthSettings then Fail (Errorf "--no-healthcheck conflicts with --health-* options")
    else Ret (Some (MkHealth ["NONE"] 0 0 0 0))
  else if haveHealthSettings then
    if (co_healthInterval c <? 0)%Z then Fail (Errorf "--health-interval cannot be negative")
    else if (co_healthTimeout c <? 0)%Z then Fail (Errorf "--health-timeout cannot be negative")
    else if (co_healthRetries c <? 0)%Z then Fail (Errorf "--health-retries cannot be negative")
    else if (co_healthStartPeriod c <? 0)%Z then Fail (Errorf "--health-start-period cannot be negative")
    else Ret (Some (MkHealth (if given (co_healthCmd c) then ["CMD-SHELL"; co_healthCmd c] else [])
                (co_healthInterval c) (co_healthTimeout c) (co_healthStartPeriod c) (co_healthRetries c)))
  else Ret None.

Definition check {A} (ok : bool) (msg : string) (k : outcome A) : outcome A :=
  if ok then k else Fail (Errorf msg).

Section parse.
(** The validator of hardware addresses, the source and type of a volume, absolute paths,
    key-value files, files and the compaction of JSON, the order of a map. *)
Context (ValidateMACAddress : string → bool) (ParseVolume : string → string * string)
  (Abs : string → option string) (ReadKVEnvStrings ReadKVStrings : list string → list string → outcome (list string))
  (ReadFile Compact : string → error + string) (UnsortedList : list string → list string).

Definition to_bind (bind typ : string) : string :=
  if String.eqb typ "bind" then
    match Cut ":" bind with
    | Some (hostPart, rest) =>
        let hostPart := if HasPrefix hostPart "./" || String.eqb hostPart "."
                        then default hostPart (Abs hostPart) else hostPart in
        hostPart +:+ ":" +:+ rest
    | None => bind
    end
  else bind.

(** The bind mounts, and the volumes that are none. *)
Definition parse_volumes (l : list string) : list string * gset string :=
  fold_left (λ '(binds, volumes) bind,
    let '(source, typ) := ParseVolume bind in
    if given source then ((binds ++ [to_bind bind typ])%list, volumes ∖ {[bind]}) else (binds, volumes))
    (UnsortedList (remove_dups l)) ([], list_to_set l).

(** [changed] tells whether a flag was given. *)
Definition make_config (changed : string → bool) (c : ContainerOptions) (streams : bool * bool * bool) (ports : gset string)
    (volumes : gset string) (envVariables labels : list string) (healthConfig : option HealthConfig) : Config :=
  let '(attachStdin, attachStdout, attachStderr) := streams in
  let entrypoint := if given (co_entrypoint c) then [co_entrypoint c]
                    else if changed "entrypoint" then [""] else [] in
  MkConfig (co_hostname c) (co_domainname c) (co_user c) attachStdin attachStdout attachStderr
    (Some ports) (co_tty c) (co_stdin c) (co_stdin c && attachStdin) envVariables (co_Args c) healthConfig
    (co_Image c) (Some (gset_to_gmap tt volumes)) (co_workingDir c) entrypoint (co_macAddress c)
    (OwnLabels (ConvertKVStringsToMap labels)) (co_stopSignal c)
    (if changed "stop-timeout" then Some (co_stopTimeout c) else None).

Definition make_host (changed : string → bool) (c : ContainerOptions) (binds : list string) (portBindings : PortMap)
    (deviceMappings : list DeviceMapping) (restartPolicy : RestartPolicy) (loggingOpts : gmap string string)
    (security : list string * option (list string) * option (list string)) (storageOpts : gmap string string) : HostConfig :=
  let '(securityOpts, maskedPaths, readonlyPaths) := security in
  MkHostConfig binds (netMode_NetworkMode (co_netMode c)) (Some portBindings) (co_autoRemove c)
    (co_volumesFrom c) (co_capAdd c) (co_dns c) (co_dnsOptions c) (co_dnsSearch c) (co_pidMode c)
    (co_privileged c) (co_publishAll c) securityOpts (co_mounts c)
    (MkHostRest (co_containerIDFile c) (co_oomScoreAdj c) (nf_links (co_netFlags c)) (co_extraHosts c)
      (co_ipcMode c) (co_utsMode c) (co_usernsMode c) (co_cgroupnsMode c) (co_capDrop c) (co_groupAdd c)
      restartPolicy storageOpts (co_readonlyRootfs c) (co_loggingDriver c) loggingOpts (co_volumeDriver c)
      (co_isolation c) (co_shmSize c) (co_resources c) deviceMappings (parse_tmpfs (co_tmpfs c)) (co_sysctls c)
      (co_runtime c) maskedPaths readonlyPaths (if changed "init" then Some (co_init c) else None)).

Definition parse (changed : string → bool) (c : ContainerOptions) (serverOS : string) : outcome containerConfig :=
  let swappiness := MemorySwappiness (co_resources c) in
  check (negb (given (co_macAddress c)) || ValidateMACAddress (co_macAddress c)) "not a valid mac address" (
  check ((swappiness =? -1)%Z || ((0 <=? swappiness)%Z && (swappiness <=? 100)%Z))
    "invalid value. Valid memory swappiness range is 0-100" (
  let '(binds, volumes) := parse_volumes (co_volumes c) in
  convertedOpts ← convertToStandardNotation (co_publish c);
  '(ports, portBindings) ← ParsePortSpecs convertedOpts (∅, ∅);
  ports ← expose_loop (co_expose c) ports;
  deviceMappings ← device_loop serverOS (co_devices c);
  envVariables ← ReadKVEnvStrings (co_envFile c) (co_env c);
  labels ← ReadKVStrings (co_labelsFile c) (co_labels c);
  check (PidMode_Valid (co_pidMode c)) "--pid: invalid PID mode" (
  check (hostMode_Valid (co_utsMode c)) "--uts: invalid UTS mode" (
  check (hostMode_Valid (co_usernsMode c)) "--userns: invalid USER mode" (
  check (CgroupnsMode_Valid (co_cgroupnsMode c)) "--cgroupns: invalid CGROUP mode" (
  restartPolicy ← ParseRestartPolicy (co_restartPolicy c);
  loggingOpts ← parseLoggingOpts (co_loggingDriver c) (co_loggingOpts c);
  securityOpts ← parseSecurityOpts ReadFile Compact (co_securityOpt c);
  storageOpts ← parseStorageOpts (co_storageOpt c) ∅;
  healthConfig ← parse_health c;
  let config := make_config changed c (attach_streams c) ports volumes envVariables labels healthConfig in
  let hostConfig := make_host changed c binds portBindings deviceMappings restartPolicy loggingOpts
    (parseSystemPaths securityOpts) storageOpts in
  check (negb (co_autoRemove c) || RestartPolicy_IsNone restartPolicy) "Conflicting options: --restart and --rm" (
  endpoints ← parseNetworkOpts (co_netMode c) (co_netFlags c);
  Ret (MkContainerConfig config hostConfig endpoints)))))))).

(** [versions.LessThan] *)
Context (LessThan : string → string → bool).
Definition validateAPIVersion (c : containerConfig) (serverAPIVersion : string) : option error :=
  if existsb (λ m, mt_NonRecursive m && LessThan serverAPIVersion "1.40") (Mounts (cc_HostConfig c))
  then Some (Errorf "bind-nonrecursive requires API v1.40 or later") else None.
End parse.

Definition validatePullOpt (val : string) : option error :=
  if bool_decide (val ∈ ["always"; "missing"; "never"; ""]) then None else Some (Errorf "invalid pull option").

(** ** Lemmas on strings *)

Lemma Cut_spec c s :
  match Cut c s with
  | Some (l, r) => s = l +:+ String c r ∧ Count c l = 0%nat
  | None => Count c s = 0%nat
  end.
Proof.
  induction s as [|a s IH]; [done|]. cbn [Cut Count].
  destruct (Ascii.eqb_spec a c) as [->|Hn]; [done|].
  destruct (Cut c s) as [[l r]|]; [|done]. destruct IH as [-> Hl]. split; [done|]. cbn [Count].
  by destruct (Ascii.eqb_spec a c).
Qed.

Lemma Cut_word c s : Count c s = 0%nat → Cut c s = None.
Proof.
  induction s as [|a s IH]; [done|]. cbn [Cut Count].
  destruct (Ascii.eqb a c); [done|]. intros H. by rewrite IH.
Qed.

Lemma Cut_split c l r : Count c l = 0%nat → Cut c (l +:+ String c r) = Some (l, r).
Proof.
  induction l as [|a l IH]; [intros _; change ("" +:+ String c r) with (String c r); cbn [Cut]; by rewrite Ascii.eqb_refl|].
  rewrite str_app_cons. cbn [Cut Count].
  destruct (Ascii.eqb a c); [done|]. intros H. by rewrite IH.
Qed.

(** The words of a path survive [Clean]. *)
Lemma Count_Join c sep l :
  Count c sep = 0%nat → Forall (λ w, Count c w = 0%nat) l → Count c (Join sep l) = 0%nat.
Proof.
  intros Hs. induction 1 as [|w l Hw Hl IH]; [done|]. destruct l as [|v l]; [done|].
  rewrite Join_cons, !Count_app by done. lia.
Qed.

Lemma walk_Forall (P : string → Prop) r st ws :
  P ".." → Forall P ws → Forall P st → Forall P (walk r st ws).
Proof.
  intros Hd Hws. revert st. induction Hws as [|w ws Hw _ IH]; intros st Hst; [done|]. cbn. apply IH.
  unfold push. destruct (_ || _); [done|]. destruct (bool_decide (w = "..")).
  - destruct st as [|top rest]; [destruct r; by repeat constructor|]. inversion Hst. subst.
    destruct (bool_decide (top = "..")); by repeat constructor.
  - by constructor.
Qed.

Lemma Split_words c d s : Count c s = 0%nat → Forall (λ w, Count c w = 0%nat) (Split d s).
Proof.
  induction s as [|a s IH]; [by repeat constructor|]. cbn [Split Count]. intros H.
  destruct (Ascii.eqb a c) eqn:E; [done|]. specialize (IH H).
  destruct (Ascii.eqb a d); [by constructor|].
  destruct (Split d s) as [|w ws]; [by repeat constructor; cbn [Count]; rewrite E|].
  inversion IH. subst. constructor; [by cbn [Count]; rewrite E|done].
Qed.

Lemma Clean_no_colon s : Count ":" s = 0%nat → Count ":" (Clean s) = 0%nat.
Proof.
  intros H. unfold Clean, show. assert (Forall (λ w, Count ":" w = 0%nat) (elems (clean s))) as Hf.
  { unfold clean. cbn [elems]. apply Forall_rev, walk_Forall; [done| |done]. by apply Split_words. }
  destruct (elems (clean s)) as [|w l] eqn:E; [by destruct (rooted _)|].
  rewrite Count_app, (Count_Join ":" "/" (w :: l)) by done. by destruct (rooted _).
Qed.

Lemma Clean_abs s : HasPrefix s "/" = true → HasPrefix (Clean s) "/" = true.
Proof.
  intros H. unfold Clean, show, clean. cbn [elems rooted]. rewrite H.
  destruct (rev _); [done|]. apply (HasPrefix_char "/").
Qed.

Lemma Clean_idem s : Clean (Clean s) = Clean s.
Proof. unfold Clean at 1. unfold Clean. by rewrite clean_show by apply clean_clean_elems. Qed.

Lemma abs_not_empty s : HasPrefix s "/" = true → s ≠ "".
Proof. by intros H ->. Qed.

Lemma abs_not_mode s : HasPrefix s "/" = true → validDeviceMode s = false.
Proof.
  destruct s as [|a s]; [done|]. unfold HasPrefix. cbn [String.prefix].
  destruct (ascii_dec "/" a) as [<-|]; done.
Qed.

Lemma legal_modes_no_colon legal s :
  ":"%char ∉ legal → legal_modes legal s = true → Count ":" s = 0%nat.
Proof.
  revert legal. induction s as [|a s IH]; intros legal Hl; [done|]. cbn [legal_modes Count].
  intros [Ha H]%andb_prop. apply bool_decide_eq_true in Ha.
  destruct (Ascii.eqb_spec a ":") as [->|]; [done|]. apply (IH _) in H; [done|].
  intros Hin. apply list_elem_of_In, filter_In in Hin as [Hin _]. apply Hl. by apply list_elem_of_In.
Qed.

Lemma mode_no_colon s : validDeviceMode s = true → Count ":" s = 0%nat.
Proof. intros [_ H]%andb_prop. apply legal_modes_no_colon in H; [done|]. set_solver. Qed.

Lemma mode_not_empty s : validDeviceMode s = true → s ≠ "".
Proof. by intros H ->. Qed.

(** ** Devices *)

Lemma SplitN_Split c s n : (Count c s < n)%nat → SplitN c s n = Split c s.
Proof.
  revert s. induction n as [|n IH]; intros s H; [lia|]. pose proof (Cut_spec c s) as Hc.
  destruct n as [|n].
  { cbn. by rewrite Split_word by lia. }
  cbn [SplitN]. destruct (Cut c s) as [[l r]|].
  - destruct Hc as [-> Hl]. rewrite Split_app by done. f_equal. apply IH. revert H.
    rewrite Count_app. cbn [Count]. rewrite Ascii.eqb_refl. lia.
  - by rewrite Split_word.
Qed.

Lemma length_Split c s : length (Split c s) = S (Count c s).
Proof.
  induction s as [|a s IH]; [done|]. cbn [Split Count].
  destruct (Ascii.eqb a c); [cbn; by rewrite IH|]. by destruct (Split c s).
Qed.

(** [validateLinuxPath] by the words between the colons. *)
Definition validate_words (ws : list string) : outcome string :=
  '(containerPath, val) ← (match ws with
      | "" :: _ | [] => Fail (Errorf "bad format for path")
      | [p] => Ret (p, Clean p)
      | [p; q] => if validDeviceMode q then Ret (p, Clean p +:+ ":" +:+ q) else Ret (q, p +:+ ":" +:+ Clean q)
      | p :: q :: mode :: _ =>
          if validDeviceMode mode then Ret (q, p +:+ ":" +:+ q +:+ ":" +:+ mode)
          else Fail (Errorf "bad mode specified")
      end);
  if HasPrefix containerPath "/" then Ret val else Fail (Errorf "not an absolute path").

Lemma validate_by_words val :
  validateLinuxPath val validDeviceMode =
  if (3 <? length (Split ":" val))%nat then Fail (Errorf "bad format for path") else validate_words (Split ":" val).
Proof.
  unfold validateLinuxPath. rewrite length_Split.
  destruct (Nat.ltb_spec 2 (Count ":" val)), (Nat.ltb_spec 3 (S (Count ":" val))); try lia; [done|].
  by rewrite SplitN_Split by lia.
Qed.

Lemma validate_join ws :
  ws ≠ [] → (length ws ≤ 3)%nat → Forall (λ w, Count ":" w = 0%nat) ws →
  validateDevice (Join ":" ws) "linux" = validate_words ws ∧ Split ":" (Join ":" ws) = ws.
Proof.
  intros H0 H3 Hf. assert (Split ":" (Join ":" ws) = ws) as E by (by apply Split_Join).
  split; [|done]. unfold validateDevice. cbn [String.eqb Ascii.eqb]. rewrite validate_by_words, E.
  by destruct (Nat.ltb_spec 3 (length ws)); [lia|].
Qed.

(** What a device option may be once it is validated. *)
Inductive device : list string → Prop :=
  | device_path p : HasPrefix p "/" = true → Clean p = p → device [p]
  | device_mode p m : HasPrefix p "/" = true → Clean p = p → validDeviceMode m = true → device [p; m]
  | device_map h p : h ≠ "" → HasPrefix p "/" = true → Clean p = p → device [h; p]
  | device_full h p m : h ≠ "" → HasPrefix p "/" = true → validDeviceMode m = true → device [h; p; m].

Lemma validate_device ws v :
  Forall (λ w, Count ":" w = 0%nat) ws → validate_words ws = Ret v → (length ws ≤ 3)%nat →
  ∃ ws', v = Join ":" ws' ∧ device ws' ∧ Forall (λ w, Count ":" w = 0%nat) ws'.
Proof.
  intros Hf H H3. unfold validate_words in H.
  apply outcome_bind_Ret in H as ([path val] & Hm & H). destruct (HasPrefix path "/") eqn:Ha; [|done].
  injection H as <-. destruct ws as [|[|a p] [|q [|m [|]]]]; try done; [..|cbn in H3; lia].
  - injection Hm as <- <-. apply Forall_cons in Hf as [Hf _]. eexists [_]. split; [done|].
    split; [|constructor; [apply Clean_no_colon; exact Hf|done]].
    apply device_path; [by apply Clean_abs|apply Clean_idem].
  - apply Forall_cons in Hf as [Hp [Hq _]%Forall_cons]. destruct (validDeviceMode q) eqn:Em; injection Hm as <- <-.
    + eexists [_; _]. split; [done|]. split; [|repeat constructor; [by apply Clean_no_colon|done]].
      apply device_mode; [by apply Clean_abs|apply Clean_idem|done].
    + eexists [_; _]. split; [done|]. split; [|repeat constructor; [done|by apply Clean_no_colon]].
      apply device_map; [done|by apply Clean_abs|apply Clean_idem].
  - apply Forall_cons in Hf as [Hp [Hq [Hm' _]%Forall_cons]%Forall_cons].
    destruct (validDeviceMode m) eqn:Em; [|done]. injection Hm as <- <-.
    eexists [_; _; _]. split; [done|]. split; [by apply device_full|by repeat constructor].
Qed.

Lemma validate_stable ws : device ws → validate_words ws = Ret (Join ":" ws).
Proof.
  unfold validate_words. intros [p Ha Hc|p m Ha Hc Hm|h p Hh Ha Hc|h p m Hh Ha Hm].
  - destruct p; [done|]. cbn [mbind outcome_bind]. by rewrite Ha, Hc.
  - destruct p; [done|]. rewrite Hm. cbn [mbind outcome_bind]. by rewrite Ha, Hc.
  - destruct h; [done|]. rewrite abs_not_mode by done. cbn [mbind outcome_bind]. by rewrite Ha, Hc.
  - destruct h; [done|]. rewrite Hm. cbn [mbind outcome_bind]. by rewrite Ha.
Qed.

Lemma parse_stable ws :
  device ws → Split ":" (Join ":" ws) = ws →
  ∃ m, parseDevice (Join ":" ws) "linux" = Ret m ∧ HasPrefix (PathInContainer m) "/" = true ∧
    validDeviceMode (CgroupPermissions m) = true ∧ head ws = Some (PathOnHost m).
Proof.
  intros Hd Hs. unfold parseDevice. cbn [String.eqb Ascii.eqb]. unfold parseLinuxDevice. rewrite Hs.
  destruct Hd as [p Ha Hc|p m Ha Hc Hm|h p Hh Ha Hc|h p m Hh Ha Hm].
  - by eexists.
  - rewrite Hm. by eexists.
  - rewrite abs_not_mode by done. eexists. split; [done|]. cbn. by destruct p.
  - rewrite abs_not_mode by done. eexists. split; [done|]. cbn. by destruct p.
Qed.

(**  A device option that passes the validation for a Linux engine is parsed: the path
    in the container is absolute and the permissions are a set of [r], [w] and [m]; the
    validated text validates to itself. *)
Theorem device_validated val v (H : validateDevice val "linux" = Ret v) :
  validateDevice v "linux" = Ret v ∧
  ∃ m, parseDevice v "linux" = Ret m ∧ HasPrefix (PathInContainer m) "/" = true ∧
    validDeviceMode (CgroupPermissions m) = true.
Proof.
  unfold validateDevice in H. cbn [String.eqb Ascii.eqb] in H. rewrite validate_by_words in H.
  destruct (Nat.ltb_spec 3 (length (Split ":" val))) as [|H3]; [done|].
  apply validate_device in H as (ws & -> & Hd & Hf); [|apply Split_Count|done].
  assert (ws ≠ [] ∧ (length ws ≤ 3)%nat) as [Hne Hl] by (inversion Hd; split; cbn; done || lia).
  destruct (validate_join ws Hne Hl Hf) as [-> Hs]. split; [by apply validate_stable|].
  destruct (parse_stable ws Hd Hs) as (m & Hm & Ha & Hp & _). by exists m.
Qed.

Lemma device_validated_witness :
  validateDevice "/dev/sda://dev/../dev/xvdc:rw" "linux" = Ret "/dev/sda://dev/../dev/xvdc:rw" ∧
  validateDevice "/dev/fuse/" "linux" = Ret "/dev/fuse" ∧
  ∃ m, parseDevice "/dev/fuse" "linux" = Ret m ∧ HasPrefix (PathInContainer m) "/" = true ∧
    validDeviceMode (CgroupPermissions m) = true.
Proof.
  split; [vm_compute; reflexivity|]. split; [vm_compute; reflexivity|].
  refine (proj2 (device_validated "/dev/fuse/" "/dev/fuse" _)). vm_compute. reflexivity.
Defined.

(** ** Ports *)

Lemma add_mappings_dom ms m : dom m.2 ⊆ m.1 → dom (fold_left add_mapping ms m).2 ⊆ (fold_left add_mapping ms m).1.
Proof.
  revert m. induction ms as [|p ms IH]; intros m H; [done|]. cbn. apply IH. cbn.
  rewrite dom_insert. set_solver.
Qed.

Lemma ParsePortSpecs_dom ports m m' :
  ParsePortSpecs ports m = Ret m' → dom m.2 ⊆ m.1 → dom m'.2 ⊆ m'.1.
Proof.
  revert m. induction ports as [|raw ports IH]; intros m; cbn [ParsePortSpecs]; [by intros [= <-]|].
  intros (ms & _ & H)%outcome_bind_Ret Hd. apply (IH _ H). by apply add_mappings_dom.
Qed.

(** A port that [--expose] names. *)
Definition exposes (l : list string) (k : string) : Prop :=
  ∃ e proto port s t i, e ∈ l ∧ SplitProtoPort e = (proto, port) ∧ ParsePortRange port = Some (s, t) ∧
    (s ≤ i ≤ t)%Z ∧ k = NewPort proto i.

Lemma expose_loop_spec l ports ports' :
  expose_loop l ports = Ret ports' → ∀ k, k ∈ ports' ↔ k ∈ ports ∨ exposes l k.
Proof.
  revert ports. induction l as [|e l IH]; intros ports; cbn [expose_loop].
  { intros [= <-] k. split; [by left|]. intros [?|(e & ? & ? & ? & ? & ? & He & _)]; [done|]. by apply elem_of_nil in He. }
  destruct (Contains e ":"); [done|]. destruct (SplitProtoPort e) as [proto port] eqn:Es.
  destruct (ParsePortRange port) as [[s t]|] eqn:Er; [|done]. intros H k. rewrite (IH _ H k), elem_of_union, elem_of_list_to_set.
  split.
  - intros [[Hk|Hk]|(e' & proto' & port' & s' & t' & i & He & Hx)]; [..|].
    + right. apply list_elem_of_fmap in Hk as (i & -> & Hi). apply elem_of_seqZ in Hi.
      exists e, proto, port, s, t, i. repeat split; try done; [by left|lia..].
    + by left.
    + right. exists e', proto', port', s', t', i. split; [by right|done].
  - intros [Hk|(e' & proto' & port' & s' & t' & i & He & Hs & Hp & Hi & ->)]; [by left; right|].
    apply elem_of_cons in He as [->|He].
    + left. left. assert (proto' = proto ∧ port' = port) as [-> ->] by (rewrite Es in Hs; by injection Hs).
      assert (s' = s ∧ t' = t) as [-> ->] by (rewrite Er in Hp; by injection Hp).
      apply list_elem_of_fmap. exists i. split; [done|]. apply elem_of_seqZ. lia.
    + right. by exists e', proto', port', s', t', i.
Qed.

Lemma device_loop_valid l ms :
  device_loop "linux" l = Ret ms →
  Forall (λ m, HasPrefix (PathInContainer m) "/" = true ∧ validDeviceMode (CgroupPermissions m) = true) ms.
Proof.
  revert ms. induction l as [|d l IH]; intros ms; cbn [device_loop]; [by intros [= <-]|].
  intros (v & Hv & H)%outcome_bind_Ret. apply outcome_bind_Ret in H as (m & Hm & H).
  apply outcome_bind_Ret in H as (ms' & Hms & [= <-]). constructor; [|by apply IH].
  unfold validateDevice in Hv. cbn [String.eqb Ascii.eqb] in Hv. rewrite validate_by_words in Hv.
  destruct (Nat.ltb_spec 3 (length (Split ":" d))) as [|H3]; [done|].
  apply validate_device in Hv as (ws & -> & Hd & Hf); [|apply Split_Count|done].
  assert (ws ≠ []) by (by inversion Hd).
  destruct (parse_stable ws Hd) as (m' & Hm' & Ha & Hp & _); [by apply Split_Join|].
  rewrite Hm' in Hm. by injection Hm as <-.
Qed.

Lemma network_loop_dom only f i nets eps eps' :
  network_loop only f i nets eps = Ret eps' →
  ∀ t, is_Some (eps' !! t) → is_Some (eps !! t) ∨ t ∈ Target <$> nets.
Proof.
  revert i eps. induction nets as [|n nets IH]; intros i eps; cbn [network_loop].
  { intros [= <-]. by left. }
  intros (n' & Hn & H)%outcome_bind_Ret t Ht. apply outcome_bind_Ret in H as (ep & _ & H).
  assert (Target n' = Target n) as En.
  { destruct (i =? 0)%nat; [|by injection Hn as ->]. unfold applyContainerOptions in Hn.
    do 4 (destruct (_ && _); [done|]). by injection Hn as <-. }
  destruct (bool_decide (is_Some (eps !! Target n'))); [done|].
  destruct (_ && _ && _); apply (IH _ _ H) in Ht as [Ht|Ht]; cbn; rewrite ?elem_of_cons; [by left|by right; right| |by right; right].
  destruct (decide (t = Target n')) as [->|Hne]; [right; left; exact En|].
  rewrite lookup_insert_ne in Ht by done. by left.
Qed.

Lemma check_Ret {A} ok msg (k : outcome A) a : check ok msg k = Ret a → ok = true ∧ k = Ret a.
Proof. by destruct ok. Qed.

(** What a configuration made from options satisfies. *)
Record consistent (c : ContainerOptions) (serverOS : string) (cc : containerConfig) : Prop := {
  bound_exposed : ∃ P B, ExposedPorts (cc_Config cc) = Some P ∧ PortBindings (cc_HostConfig cc) = Some B ∧
    dom B ⊆ P ∧ ∀ k, exposes (co_expose c) k → k ∈ P;
  devices_ok : serverOS = "linux" → Forall (λ m, HasPrefix (PathInContainer m) "/" = true ∧
    validDeviceMode (CgroupPermissions m) = true) (Devices (Rest (cc_HostConfig cc)));
  networks_kind : (∀ n, n ∈ co_netMode c → IsUserDefined (Target n) = true) ∨
    (∀ n, n ∈ co_netMode c → IsUserDefined (Target n) = false);
  networks_named : ∀ t, is_Some (EndpointsConfig cc !! t) → t ∈ Target <$> co_netMode c;
  removed_once : AutoRemove (cc_HostConfig cc) = true → RestartPolicy_IsNone (hr_RestartPolicy (Rest (cc_HostConfig cc))) = true;
  stdin_once : StdinOnce (cc_Config cc) = OpenStdin (cc_Config cc) && AttachStdin (cc_Config cc);
  not_masked : MaskedPaths (Rest (cc_HostConfig cc)) = ReadonlyPaths (Rest (cc_HostConfig cc)) }.

Lemma existsb_none {A} (p : A → bool) l x : existsb p l = false → x ∈ l → p x = false.
Proof.
  intros H Hx. destruct (p x) eqn:E; [|done]. rewrite <-H. symmetry. apply existsb_exists.
  exists x. split; [by apply list_elem_of_In|done].
Qed.

Lemma parseNetworkOpts_spec nets f eps :
  parseNetworkOpts nets f = Ret eps →
  ((∀ n, n ∈ nets → IsUserDefined (Target n) = true) ∨ (∀ n, n ∈ nets → IsUserDefined (Target n) = false)) ∧
  ∀ t, is_Some (eps !! t) → t ∈ Target <$> nets.
Proof.
  unfold parseNetworkOpts. intros (eps' & Hl & H)%outcome_bind_Ret.
  destruct (existsb (λ n, IsUserDefined (Target n)) nets) eqn:E1.
  - cbn [andb] in H. destruct (existsb (λ n, negb (IsUserDefined (Target n))) nets) eqn:E2; [done|].
    injection H as <-. split.
    + left. intros n Hn. apply (existsb_none _ _ _ E2) in Hn. by apply negb_false_iff in Hn.
    + intros t Ht. apply (network_loop_dom _ _ _ _ _ _ Hl) in Ht as [[? Ht]|Ht]; [|done]. by rewrite lookup_empty in Ht.
  - injection H as <-. split.
    + right. intros n Hn. exact (existsb_none _ _ _ E1 Hn).
    + intros t Ht. apply (network_loop_dom _ _ _ _ _ _ Hl) in Ht as [[? Ht]|Ht]; [|done]. by rewrite lookup_empty in Ht.
Qed.

(** The steps of a successful parse that the properties below use. *)
Record parsed (c : ContainerOptions) (serverOS : string) (cc : containerConfig) (P : gset string) (B : PortMap)
    (labs : list string) (rp : RestartPolicy) : Prop := {
  parsed_ports : ∃ conv ports, ParsePortSpecs conv (∅, ∅) = Ret (ports, B) ∧ expose_loop (co_expose c) ports = Ret P;
  parsed_maps : ExposedPorts (cc_Config cc) = Some P ∧ PortBindings (cc_HostConfig cc) = Some B ∧
    is_Some (Volumes (cc_Config cc)) ∧ Labels (cc_Config cc) = OwnLabels (ConvertKVStringsToMap labs);
  parsed_devices : device_loop serverOS (co_devices c) = Ret (Devices (Rest (cc_HostConfig cc)));
  parsed_networks : parseNetworkOpts (co_netMode c) (co_netFlags c) = Ret (EndpointsConfig cc);
  parsed_remove : AutoRemove (cc_HostConfig cc) = co_autoRemove c ∧ hr_RestartPolicy (Rest (cc_HostConfig cc)) = rp ∧
    negb (co_autoRemove c) || RestartPolicy_IsNone rp = true;
  parsed_stdin : StdinOnce (cc_Config cc) = OpenStdin (cc_Config cc) && AttachStdin (cc_Config cc);
  parsed_paths : MaskedPaths (Rest (cc_HostConfig cc)) = ReadonlyPaths (Rest (cc_HostConfig cc)) }.

Lemma parse_inv mac volume abs envkv kv rf compact order changed c serverOS cc :
  parse mac volume abs envkv kv rf compact order changed c serverOS = Ret cc →
  ∃ P B labs rp, parsed c serverOS cc P B labs rp.
Proof.
  unfold parse. cbn zeta.
  intros [_ H]%check_Ret. apply check_Ret in H as [_ H]. destruct (parse_volumes _ _ _ _) as [binds volumes].
  apply outcome_bind_Ret in H as (conv & _ & H). apply outcome_bind_Ret in H as ([ports B] & HB & H).
  apply outcome_bind_Ret in H as (P & HP & H). apply outcome_bind_Ret in H as (devs & Hdev & H).
  apply outcome_bind_Ret in H as (env & _ & H). apply outcome_bind_Ret in H as (labs & _ & H).
  do 4 apply check_Ret in H as [_ H].
  apply outcome_bind_Ret in H as (rp & _ & H). do 4 apply outcome_bind_Ret in H as (? & _ & H).
  apply check_Ret in H as [Hr H]. apply outcome_bind_Ret in H as (eps & Heps & [= <-]).
  exists P, B, labs, rp. unfold make_config. destruct (attach_streams c) as [[sin sout] serr].
  split; try done; cbn. by exists conv, ports.
Qed.

(**  A configuration that the options of a container parse to is consistent: every
    bound port is exposed and every exposed range is covered; devices are mapped to
    absolute paths with legal permissions; the networks are all user-defined or none is,
    and only named networks get an endpoint; a container that is removed when it exits is
    not restarted. *)
Theorem parse_consistent mac volume abs envkv kv rf compact order changed c serverOS cc
    (H : parse mac volume abs envkv kv rf compact order changed c serverOS = Ret cc) :
  consistent c serverOS cc.
Proof.
  apply parse_inv in H as (P & B & labs & rp & [(conv & ports & HB & HP) (E1 & E2 & _) Hdev Hnet (E3 & E4 & Hr) Hin Hm]).
  apply parseNetworkOpts_spec in Hnet as [Hk Hn]. split; try done.
  - exists P, B. split; [done|]. split; [done|]. pose proof (expose_loop_spec _ _ _ HP) as Hspec.
    apply ParsePortSpecs_dom in HB; [|cbn; set_solver]. split.
    + intros k Hb. apply Hspec. left. by apply HB.
    + intros k He. apply Hspec. by right.
  - intros ->. by apply (device_loop_valid (co_devices c)).
  - rewrite E3, E4. by destruct (co_autoRemove c).
Qed.

(** ** The options when no flag is given *)

Definition no_resources : Resources :=
  MkResources "" 0 0 0 (-1) 0 false 0 0 0 0 0 "" "" 0 0 0 0 0 [] [] [] [] [] 0 0 [] [] [].
Definition no_flags : NetFlags := MkNetFlags [] [] "" "" [].

Definition options (publish expose devices capAdd : list string) (netMode : list NetworkAttachmentOpts)
    (autoRemove : bool) (image : string) (args : list string) : ContainerOptions :=
  MkOptions [] [] [] [] [] [] [] [] devices publish expose [] [] [] [] [] capAdd [] [] [] [] [] ∅ false "" "" "" ""
    false false false 0 "" "" "" "" "" "" netMode no_flags "" "" "no" false "" "" "" 0 "" 0 false "" 0 0 0 0 ""
    autoRemove false no_resources image args.

Definition example_options : ContainerOptions :=
  options ["published=8080,target=80"; "127.0.0.1:5005:5005/udp"] ["9000-9002"] ["/dev/fuse/:rw"] ["NET_ADMIN"] [] true
    "" ["sleep"].

Definition example_parse (c : ContainerOptions) : outcome containerConfig :=
  parse (λ _, true) (λ v, (v, "volume")) Some (λ _ l, Ret l) (λ _ l, Ret l) (λ _, inl NotFound) (λ s, inr s) id
    (λ _, false) c "linux".

Definition example_config : containerConfig :=
  match example_parse example_options with Ret cc => cc | _ =>
    MkContainerConfig (MkConfig "" "" "" false false false None false false false [] [] None "" None "" [] ""
      PodLabels "" None) (MkHostConfig [] "" None false [] [] [] [] [] "" false false [] []
      (MkHostRest "" 0 [] [] "" "" "" "" [] [] (MkRestart "" 0) ∅ false "" ∅ "" "" 0 no_resources [] ∅ ∅ "" None None
        None)) ∅ end.

Lemma example_parse_eq : example_parse example_options = Ret example_config.
Proof. vm_compute. reflexivity. Qed.

Example example_ports :
  ExposedPorts (cc_Config example_config) = Some {["80/tcp"; "5005/udp"; "9000/tcp"; "9001/tcp"; "9002/tcp"]} ∧
  PortBindings (cc_HostConfig example_config) =
    Some {["80/tcp" := [MkBinding "" "8080"]; "5005/udp" := [MkBinding "127.0.0.1" "5005"]]}.
Proof. split; vm_compute; reflexivity. Qed.

Lemma parse_consistent_witness : consistent example_options "linux" example_config.
Proof.
  pose proof example_parse_eq as E. unfold example_parse in E.
  exact (parse_consistent _ _ _ _ _ _ _ _ _ example_options "linux" example_config E).
Defined.
