(* ===== verification/Dev.v ===== *)
(** * Development mode: the containers of a workload

    [pkg/dev/convert.go], [option.go] and the network part of [Options.Main] of
    [main.go]: the containers of a pod template become configurations of local
    containers, the options of the user are merged into the chosen one, which becomes
    the first, and the pod's shared network is rebuilt: the last container owns it. *)
From Stdlib Require Import Ascii ZArith Lia.
From stdpp Require Import base gmap strings numbers pretty list.
From S2P Require Import Prelude GoStrings GoPath Config ControlPlane Envoy Resolv Docker.
From stdpp Require Import list.
Local Open Scope string_scope.

(** ** Data *)

Record VolumeMount := MkVolumeMount { vm_Name : string; vm_MountPath : string; vm_SubPath : string }.

(** [dc_Capabilities] are the added and dropped ones of the security context,
    [dc_Memory] the requested memory. *)
Record Container := MkContainer {
  dc_Name : string; dc_Image : string; dc_Command : list string; dc_Args : list string; dc_WorkingDir : string;
  dc_TTY : bool; dc_Stdin : bool; dc_Ports : list ContainerPort;
  dc_Capabilities : option (list string * list string); dc_Memory : option Z; dc_VolumeMounts : list VolumeMount }.

Record PodTemplate := MkPodTemplate {
  pt_Labels : option (gmap string string); pt_GracePeriod : option Z; pt_Hostname : string; pt_Subdomain : string;
  pt_Containers : list Container }.

Record Platform := MkPlatform { OS : string; Architecture : string; Variant : string }.

(** [RunOptions] with its [createOptions] *)
Record RunOptions := MkRunOptions {
  ro_Name : string; ro_Platform : string; ro_Untrusted : bool; ro_Pull : string; ro_Quiet : bool; ro_Detach : bool }.
Definition zero_options : RunOptions := MkRunOptions "" "" false "" false false.

Record RunConfig := MkRunConfig {
  containerName : string; k8sContainerName : string; config : Config; hostConfig : HostConfig;
  endpoints : option (gmap string EndpointSettings); platform : option Platform;
  rc_Options : RunOptions; Copts : option ContainerOptions }.

(** The options of [kubevpn dev] the functions below read. *)
Record Options := MkDevOptions {
  ContainerName : string; DockerImage : string; RunOpts : RunOptions; d_Copts : ContainerOptions }.

(** ** Conversion *)

Definition hostname_of (spec_hostname : string) (env : list string) : string :=
  if negb (String.eqb spec_hostname "") then spec_hostname
  else match find (λ e, match Split "=" e with [k; _] => String.eqb k "HOSTNAME" | _ => false end) env with
       | Some e => match Split "=" e with [_; v] => v | _ => "" end
       | None => ""
       end.

Definition port_key (p : ContainerPort) : string := Itoa (p_ContainerPort p) +:+ "/" +:+ Url.ToLower (p_Protocol p).
Definition port_binding (p : ContainerPort) : PortBinding :=
  MkBinding "" (Itoa (if (p_HostPort p =? 0)%Z then p_ContainerPort p else p_HostPort p)).

(** The port map and port set of a container. *)
Definition portmap (ports : list ContainerPort) : PortMap :=
  fold_left (λ m p, <[port_key p := [port_binding p]]> m) ports ∅.
Definition portset (ports : list ContainerPort) : gset string := list_to_set (port_key <$> ports).

Definition empty_rest (capDrop : list string) : HostRest :=
  MkHostRest "" 0 [] [] "" "" "" "" capDrop [] (MkRestart "" 0) ∅ false "" ∅ "" "" 0
    (MkResources "" 0 0 0 0 0 false 0 0 0 0 0 "" "" 0 0 0 0 0 [] [] [] [] [] 0 0 [] [] []) [] ∅ ∅ "" None None None.

(** [uuid] is the text of a new identifier, or the failure to make one. *)
Definition uuid_suffix (uuid : option string) : string :=
  match uuid with Some u => str_take 5 (GoStrings.Join "" (Split "-" u)) | None => "" end.

Definition ndots_option (c : ClientConfig) : string := "ndots=" +:+ Itoa (Ndots c).

Definition convert_container (namespace : string) (temp : PodTemplate) (envMap : gmap string (list string))
    (mountVolume : gmap string (list Mount)) (dnsConfig : ClientConfig) (uuid : option string) (c : Container) : RunConfig :=
  let env := default [] (envMap !! dc_Name c) in
  let '(capAdd, capDrop) := default ([], []) (dc_Capabilities c) in
  let conf := MkConfig (hostname_of (pt_Hostname temp) env) (pt_Subdomain temp) "root" false false false
    (Some (portset (dc_Ports c))) (dc_TTY c) (dc_Stdin c) false env (dc_Args c) None (dc_Image c) None
    (dc_WorkingDir c) (dc_Command c) "" PodLabels "" (pt_GracePeriod temp) in
  let host := MkHostConfig [] "" (Some (portmap (dc_Ports c))) false [] (["SYS_PTRACE"; "SYS_ADMIN"] ++ capAdd)%list
    (Servers dnsConfig) [ndots_option dnsConfig] (Search dnsConfig) "" true false
    ["apparmor=unconfined"; "seccomp=unconfined"] (default [] (mountVolume !! dc_Name c)) (empty_rest capDrop) in
  MkRunConfig (dc_Name c +:+ "_" +:+ namespace +:+ "_" +:+ "kubevpn" +:+ "_" +:+ uuid_suffix uuid) (dc_Name c)
    conf host (Some ∅) None zero_options None.

(** [uuids] gives the identifier made for the [i]th container. *)
Definition ConvertKubeResourceToContainer (namespace : string) (temp : PodTemplate)
    (envMap : gmap string (list string)) (mountVolume : gmap string (list Mount)) (dnsConfig : ClientConfig)
    (uuids : nat → option string) : list RunConfig :=
  imap (λ i, convert_container namespace temp envMap mountVolume dnsConfig (uuids i)) (pt_Containers temp).

(** [mesh.RemoveContainers] on the template *)
Definition RemoveContainers (temp : PodTemplate) : PodTemplate :=
  MkPodTemplate (pt_Labels temp) (pt_GracePeriod temp) (pt_Hostname temp) (pt_Subdomain temp)
    (remove_loop (λ c, bool_decide (dc_Name c ∈ [ContainerSidecarEnvoyProxy; ContainerSidecarVPN])) (pt_Containers temp)).

(** ** Merging the options of the user *)

Fixpoint index_of (name : string) (r : list RunConfig) : option nat :=
  match r with
  | [] => None
  | c :: r => if String.eqb (k8sContainerName c) name then Some 0%nat else S <$> index_of name r
  end.

(** [r[0], r[index] = r[index], r[0]] *)
Definition swap_first (i : nat) (r : list RunConfig) : list RunConfig :=
  match r !! 0%nat, r !! i with
  | Some a, Some b => <[i := a]> (<[0%nat := b]> r)
  | _, _ => r
  end.

(** The list with the chosen container first; a name that no container has chooses
    nothing. *)
Definition choose (name : string) (r : list RunConfig) : list RunConfig :=
  if String.eqb name "" then r
  else match index_of name r with Some i => swap_first i r | None => r end.

(** Writing the bindings of the pod to the map of the user, which may be nil. *)
Definition merge_bindings (user pod : option PortMap) : outcome (option PortMap) :=
  let pod := default ∅ pod in
  match user with
  | Some u => Ret (Some (union_with (λ v bindings, Some (v ++ bindings)%list) u pod))
  | None => if bool_decide (pod = ∅) then Ret None else Panic
  end.
Definition merge_exposed (user pod : option (gset string)) : outcome (option (gset string)) :=
  let pod := default ∅ pod in
  match user with
  | Some u => Ret (Some (u ∪ pod))
  | None => if bool_decide (pod = ∅) then Ret None else Panic
  end.

Definition labels_map (pod : option (gmap string string)) (l : labels) : option (gmap string string) :=
  match l with PodLabels => pod | OwnLabels m => Some m end.

(** [util.Merge] of labels writes to the first map; where that is the pod's, all
    containers of the pod see it.  The pod's map and the container's labels. *)
Definition merge_labels (pod : option (gmap string string)) (from to : labels)
    : outcome (option (gmap string string) * labels) :=
  m ← Envoy.Merge (labels_map pod from) (labels_map pod to);
  Ret match from, pod with
      | PodLabels, Some _ => (m, PodLabels)
      | PodLabels, None => (pod, to)
      | OwnLabels _, _ => (pod, OwnLabels (default ∅ m))
      end.

Section merge.
(** [platforms.Parse] *)
Context (parsePlatform : string → outcome Platform).

Definition merge_host (t p : HostConfig) : outcome HostConfig :=
  bindings ← merge_bindings (PortBindings t) (PortBindings p);
  Ret (MkHostConfig (Binds t) (NetworkMode t) bindings (AutoRemove t) (VolumesFrom t ++ VolumesFrom p)%list
    (CapAdd t ++ CapAdd p)%list (DNS t ++ DNS p)%list (DNSOptions t ++ DNSOptions p)%list
    (DNSSearch t ++ DNSSearch p)%list (PidMode t) (Privileged t) (PublishAllPorts t)
    (SecurityOpt t ++ SecurityOpt p)%list (Mounts t ++ Mounts p)%list (Rest t)).

Definition merge_config (pod : option (gmap string string)) (c p : Config) (image : string)
    : outcome (option (gmap string string) * Config) :=
  let '(entrypoint, args) := if nonempty (Entrypoint c) then (Entrypoint c, Cmd c) else (Entrypoint p, Cmd p) in
  let args := if nonempty (Cmd c) then Cmd c else args in
  '(pod, labels) ← merge_labels pod (Labels p) (Labels c);
  volumes ← Envoy.Merge (Volumes c) (Volumes p);
  exposed ← merge_exposed (ExposedPorts c) (ExposedPorts p);
  Ret (pod, MkConfig (Hostname c) (Domainname c) (if given (User c) then User c else User p)
    (AttachStdin c) (AttachStdout c) (AttachStderr c) exposed (Tty c) (OpenStdin c) (StdinOnce c)
    (Env p ++ Env c)%list args (Healthcheck c) image volumes
    (if given (WorkingDir c) then WorkingDir c else WorkingDir p) entrypoint (MacAddress c) labels
    (StopSignal c) (StopTimeout c)).

Definition set_Name (n : string) (o : RunOptions) : RunOptions :=
  MkRunOptions n (ro_Platform o) (ro_Untrusted o) (ro_Pull o) (ro_Quiet o) (ro_Detach o).

(** The labels of the pod and the containers; the chosen one is the first. *)
Definition mergeDockerOptions (pod : option (gmap string string)) (r : list RunConfig) (copts : Options)
    (temp : containerConfig) : outcome (option (gmap string string) * list RunConfig) :=
  match choose (ContainerName copts) r with
  | [] => Panic
  | rc :: rest =>
      let opts := RunOpts copts in
      let image := if given (DockerImage copts) then DockerImage copts else Image (config rc) in
      let name := if given (ro_Name opts) then ro_Name opts else containerName rc in
      p ← (if given (ro_Platform opts) then
             match parsePlatform (ro_Platform opts) with
             | Ret p => Ret (Some p)
             | Fail e => Fail (ErrorfV "error parsing specified platform" e)
             | Panic => Panic
             end
           else Ret (platform rc));
      host ← merge_host (cc_HostConfig temp) (hostConfig rc);
      eps ← Envoy.Merge (Some (EndpointsConfig temp)) (endpoints rc);
      '(pod, conf) ← merge_config pod (cc_Config temp) (config rc) image;
      Ret (pod, MkRunConfig name (k8sContainerName rc) conf host eps p (set_Name name opts) (Some (d_Copts copts)) :: rest)
  end.
End merge.

(** ** The network of the pod *)

(** No ports, name servers or host name of its own: the container uses the network [mode]
    and, if given, the processes [pid]. *)
Definition join_network (mode : string) (pid : option string) (rc : RunConfig) : RunConfig :=
  let c := config rc in let h := hostConfig rc in
  MkRunConfig (containerName rc) (k8sContainerName rc)
    (MkConfig "" (Domainname c) (User c) (AttachStdin c) (AttachStdout c) (AttachStderr c) None (Tty c) (OpenStdin c)
      (StdinOnce c) (Env c) (Cmd c) (Healthcheck c) (Image c) (Volumes c) (WorkingDir c) (Entrypoint c) (MacAddress c)
      (Labels c) (StopSignal c) (StopTimeout c))
    (MkHostConfig (Binds h) mode None (AutoRemove h) (VolumesFrom h) (CapAdd h) [] [] []
      (default (PidMode h) pid) (Privileged h) false (SecurityOpt h) (Mounts h) (Rest h))
    (endpoints rc) (platform rc) (rc_Options rc) (Copts rc).

Definition own_network (eps : gmap string EndpointSettings) (ports : gset string) (bindings : PortMap) (rc : RunConfig) : RunConfig :=
  let c := config rc in let h := hostConfig rc in
  MkRunConfig (containerName rc) (k8sContainerName rc)
    (MkConfig (Hostname c) (Domainname c) (User c) (AttachStdin c) (AttachStdout c) (AttachStderr c) (Some ports)
      (Tty c) (OpenStdin c) (StdinOnce c) (Env c) (Cmd c) (Healthcheck c) (Image c) (Volumes c) (WorkingDir c)
      (Entrypoint c) (MacAddress c) (Labels c) (StopSignal c) (StopTimeout c))
    (MkHostConfig (Binds h) (NetworkMode h) (Some bindings) (AutoRemove h) (VolumesFrom h) (CapAdd h) (DNS h)
      (DNSOptions h) (DNSSearch h) (PidMode h) (Privileged h) (PublishAllPorts h) (SecurityOpt h) (Mounts h) (Rest h))
    (Some eps) (platform rc) (rc_Options rc) (Copts rc).

(** All bindings and exposed ports of the pod: two containers that bind a port both do. *)
Definition pod_bindings (r : list RunConfig) : PortMap :=
  fold_left (λ m rc, union_with (λ v w, Some (v ++ w)%list) m (default ∅ (PortBindings (hostConfig rc)))) r ∅.
Definition pod_ports (r : list RunConfig) : gset string :=
  ⋃ ((λ rc, default ∅ (ExposedPorts (config rc))) <$> r).

(** With [--network] all containers use it; otherwise the last container is attached to
    the network [networkID] and the others use that container's. *)
Definition share_network (netMode : list NetworkAttachmentOpts) (networkID : outcome string) (r : list RunConfig)
    : outcome (list RunConfig) :=
  match netMode with
  | _ :: _ =>
      let mode := netMode_NetworkMode netMode in
      Ret (join_network mode (if IsContainer mode then Some mode else None) <$> r)
  | [] =>
      id ← networkID;
      match last r with
      | None => Panic
      | Some owner =>
          match endpoints owner with
          | None => Panic
          | Some eps =>
              let name := "container:" +:+ containerName owner in
              let eps := <[containerName owner := MkEndpoint [] ∅ [] None id]> eps in
              Ret ((join_network name (Some name) <$> take (length r - 1) r) ++
                   [own_network eps (pod_ports r) (pod_bindings r) owner])%list
          end
      end
  end.

(** The configurations [Options.Main] runs. *)
Definition dev_configs (parsePlatform : string → outcome Platform) (namespace : string) (temp : PodTemplate)
    (envMap : gmap string (list string)) (mountVolume : gmap string (list Mount)) (dnsConfig : ClientConfig)
    (uuids : nat → option string) (copts : Options) (cc : containerConfig) (networkID : outcome string)
    : outcome (option (gmap string string) * list RunConfig) :=
  let temp := RemoveContainers temp in
  let r := ConvertKubeResourceToContainer namespace temp envMap mountVolume dnsConfig uuids in
  '(pod, r) ← mergeDockerOptions parsePlatform (pt_Labels temp) r copts cc;
  r ← share_network (co_netMode (d_Copts copts)) networkID r;
  Ret (pod, r).

(** ** Lemmas *)

Lemma swap_first_cons a l i :
  swap_first (S i) (a :: l) = match l !! i with Some b => b :: <[i := a]> l | None => a :: l end.
Proof. unfold swap_first. cbn. by destruct (l !! i). Qed.

Lemma insert_perm {A} (l : list A) i (a b : A) : l !! i = Some b → b :: <[i := a]> l ≡ₚ a :: l.
Proof.
  intros H. assert (i < length l)%nat as Hi by (by apply lookup_lt_Some in H).
  rewrite insert_take_drop by done. rewrite <-(take_drop_middle l i b H) at 3.
  rewrite <-!Permutation_middle. constructor.
Qed.

Lemma choose_perm name r : choose name r ≡ₚ r.
Proof.
  unfold choose. destruct (String.eqb name ""); [done|]. destruct (index_of name r) as [i|]; [|done].
  destruct r as [|a l]; [done|]. destruct i as [|i].
  - unfold swap_first. cbn. by destruct l.
  - rewrite swap_first_cons. destruct (l !! i) as [b|] eqn:E; [|done]. by apply insert_perm.
Qed.

Lemma index_of_spec name r :
  match index_of name r with
  | Some i => ∃ rc, r !! i = Some rc ∧ k8sContainerName rc = name
  | None => name ∉ k8sContainerName <$> r
  end.
Proof.
  induction r as [|c r IH]; cbn [index_of]; [cbn; set_solver|].
  destruct (String.eqb_spec (k8sContainerName c) name) as [<-|Hn]; [by exists c|].
  destruct (index_of name r); cbn; [done|]. rewrite elem_of_cons. naive_solver.
Qed.

Lemma choose_head name r :
  name ≠ "" → name ∈ k8sContainerName <$> r →
  ∃ rc rest, choose name r = rc :: rest ∧ k8sContainerName rc = name.
Proof.
  intros Hn Hin. unfold choose. destruct (String.eqb_spec name ""); [done|].
  pose proof (index_of_spec name r) as Hi. destruct (index_of name r) as [i|]; [|done].
  destruct Hi as (rc & Hrc & Hk). destruct r as [|a l]; [done|]. destruct i as [|i].
  - injection Hrc as ->. exists rc, l. done.
  - rewrite swap_first_cons. change (l !! i = Some rc) in Hrc. rewrite Hrc. by eexists _, _.
Qed.

Definition ports_of (rc : RunConfig) : gset string := default ∅ (ExposedPorts (config rc)).
Definition bindings_of (rc : RunConfig) : PortMap := default ∅ (PortBindings (hostConfig rc)).

Lemma elem_of_pod_ports k r : k ∈ pod_ports r ↔ ∃ rc, rc ∈ r ∧ k ∈ ports_of rc.
Proof.
  unfold pod_ports. rewrite elem_of_union_list. split.
  - intros (X & HX & Hk). apply list_elem_of_fmap in HX as (rc & -> & Hrc). by exists rc.
  - intros (rc & Hrc & Hk). eexists. split; [|exact Hk]. apply list_elem_of_fmap. by exists rc.
Qed.

(** [b] is one of the bindings of the port [k]. *)
Definition binds (m : PortMap) (k : string) (b : PortBinding) : Prop := ∃ l, m !! k = Some l ∧ b ∈ l.

Lemma binds_union (m1 m2 : PortMap) k b :
  binds (union_with (λ v w, Some (v ++ w)%list) m1 m2) k b ↔ binds m1 k b ∨ binds m2 k b.
Proof.
  unfold binds. setoid_rewrite lookup_union_with. destruct (m1 !! k) as [l1|], (m2 !! k) as [l2|]; cbn.
  - split.
    + intros (l & [= <-] & Hb). apply elem_of_app in Hb as [?|?]; [left|right]; by eexists.
    + intros [(l & [= <-] & Hb)|(l & [= <-] & Hb)]; eexists; (split; [done|]); apply elem_of_app; auto.
  - naive_solver.
  - naive_solver.
  - naive_solver.
Qed.

Lemma pod_bindings_spec r k b : binds (pod_bindings r) k b ↔ ∃ rc, rc ∈ r ∧ binds (bindings_of rc) k b.
Proof.
  unfold pod_bindings. assert (∀ m, binds (fold_left (λ m rc, union_with (λ v w, Some (v ++ w)%list) m (bindings_of rc)) r m) k b
    ↔ binds m k b ∨ ∃ rc, rc ∈ r ∧ binds (bindings_of rc) k b) as H.
  { induction r as [|rc r IH]; intros m; cbn [fold_left].
    - split; [by left|]. intros [?|(rc & Hrc & _)]; [done|]. by apply elem_of_nil in Hrc.
    - rewrite IH, binds_union. setoid_rewrite elem_of_cons. naive_solver. }
  etransitivity; [apply H|]. split; [|by right]. intros [(l & Hl & _)|?]; [|done]. by rewrite lookup_empty in Hl.
Qed.

(** A container in the network of the container [owner]. *)
Record joined (owner : string) (rc : RunConfig) : Prop := {
  joined_net : NetworkMode (hostConfig rc) = "container:" +:+ owner;
  joined_pid : PidMode (hostConfig rc) = "container:" +:+ owner;
  joined_ports : ExposedPorts (config rc) = None;
  joined_bindings : PortBindings (hostConfig rc) = None;
  joined_publish : PublishAllPorts (hostConfig rc) = false;
  joined_dns : DNS (hostConfig rc) = [] ∧ DNSOptions (hostConfig rc) = [] ∧ DNSSearch (hostConfig rc) = [];
  joined_host : Hostname (config rc) = "" }.

(** What the network leaves alone: the names, the image, the environment and the command. *)
Definition main_part (rc : RunConfig) : string * string * (string * list string * list string * list string) :=
  (k8sContainerName rc, containerName rc,
   (Image (config rc), Env (config rc), Entrypoint (config rc), Cmd (config rc))).

Lemma share_network_spec id r :
  r ≠ [] → Forall (λ rc, endpoints rc ≠ None) r →
  ∃ others owner, share_network [] (Ret id) r = Ret (others ++ [owner])%list ∧
    main_part <$> (others ++ [owner])%list = main_part <$> r ∧
    Forall (joined (containerName owner)) others ∧
    (∀ k, k ∈ ports_of owner ↔ ∃ rc, rc ∈ r ∧ k ∈ ports_of rc) ∧
    (∀ k b, binds (bindings_of owner) k b ↔ ∃ rc, rc ∈ r ∧ binds (bindings_of rc) k b).
Proof.
  intros Hne He. destruct r as [|owner r' _] using rev_ind; [done|]. clear Hne.
  unfold share_network. cbn [mbind outcome_bind]. rewrite last_snoc, length_app. cbn [length].
  apply Forall_app in He as [_ [He _]%Forall_cons]. destruct (endpoints owner) as [eps|]; [|done].
  rewrite Nat.add_sub, take_app_length.
  eexists _, _. split; [reflexivity|]. split; [by rewrite !fmap_app, <-list_fmap_compose|]. split.
  { apply Forall_forall. intros rc Hrc. apply list_elem_of_fmap in Hrc as (c & -> & _). by split. }
  split; intros k; [apply elem_of_pod_ports|intros b; apply pod_bindings_spec].
Qed.

(** The maps of a configuration from options are made. *)
Definition maps_made (cc : containerConfig) (P : gset string) (B : PortMap) (ul : gmap string string) : Prop :=
  ExposedPorts (cc_Config cc) = Some P ∧ PortBindings (cc_HostConfig cc) = Some B ∧
  is_Some (Volumes (cc_Config cc)) ∧ Labels (cc_Config cc) = OwnLabels ul.

Lemma parse_maps_made mac volume abs envkv kv rf compact order changed c serverOS cc :
  parse mac volume abs envkv kv rf compact order changed c serverOS = Ret cc → ∃ P B ul, maps_made cc P B ul.
Proof.
  intros (P & B & labs & rp & Hp)%parse_inv. exists P, B, (ConvertKVStringsToMap labs). apply Hp.
Qed.

(** The first container after the merge. *)
Record merged (copts : Options) (cc : containerConfig) (P : gset string) (B : PortMap) (rc rc' : RunConfig) : Prop := {
  merged_k8s : k8sContainerName rc' = k8sContainerName rc;
  merged_name : containerName rc' = if given (ro_Name (RunOpts copts)) then ro_Name (RunOpts copts) else containerName rc;
  merged_image : Image (config rc') = if given (DockerImage copts) then DockerImage copts else Image (config rc);
  merged_env : Env (config rc') = (Env (config rc) ++ Env (cc_Config cc))%list;
  merged_entrypoint : Entrypoint (config rc') =
    if nonempty (Entrypoint (cc_Config cc)) then Entrypoint (cc_Config cc) else Entrypoint (config rc);
  merged_cmd : Cmd (config rc') =
    if nonempty (Entrypoint (cc_Config cc)) || nonempty (Cmd (cc_Config cc)) then Cmd (cc_Config cc) else Cmd (config rc);
  merged_ports : ports_of rc' = P ∪ ports_of rc;
  merged_bindings k b : binds (bindings_of rc') k b ↔ binds B k b ∨ binds (bindings_of rc) k b;
  merged_endpoints : endpoints rc' ≠ None }.

Definition platform_ok (parsePlatform : string → outcome Platform) (copts : Options) : Prop :=
  given (ro_Platform (RunOpts copts)) = true → returns (parsePlatform (ro_Platform (RunOpts copts))) = true.

Lemma merge_spec pp L r copts cc P B ul rc rest :
  choose (ContainerName copts) r = rc :: rest → Labels (config rc) = PodLabels → Volumes (config rc) = None →
  maps_made cc P B ul → platform_ok pp copts →
  ∃ rc', mergeDockerOptions pp (Some L) r copts cc = Ret (Some (ul ∪ L), rc' :: rest) ∧ merged copts cc P B rc rc'.
Proof.
  intros Hr Hl Hv (HP & HB & [V HV] & HL) Hp. unfold mergeDockerOptions. rewrite Hr. cbn zeta.
  assert (∃ p, (if given (ro_Platform (RunOpts copts)) then
             match pp (ro_Platform (RunOpts copts)) with
             | Ret p => Ret (Some p)
             | Fail e => Fail (ErrorfV "error parsing specified platform" e)
             | Panic => Panic
             end
           else Ret (platform rc)) = Ret p) as (p & ->).
  { unfold platform_ok in Hp. destruct (given _); [|by eexists]. specialize (Hp eq_refl).
    destruct (pp _); [by eexists|done..]. }
  cbn [mbind outcome_bind]. unfold merge_host. rewrite HB. cbn [merge_bindings mbind outcome_bind].
  unfold merge_config. cbn [Envoy.Merge mbind outcome_bind].
  rewrite (surjective_pairing (if nonempty (Entrypoint (cc_Config cc)) then _ else _)).
  rewrite Hl, HL, HV, HP, Hv. cbn [merge_labels labels_map Envoy.Merge mbind outcome_bind merge_exposed default].
  eexists. split; [reflexivity|].
  split; try done; cbn.
  - by destruct (nonempty (Entrypoint (cc_Config cc))).
  - by destruct (nonempty (Entrypoint (cc_Config cc))), (nonempty (Cmd (cc_Config cc))).
  - intros k b. unfold bindings_of at 1. cbn. apply binds_union.
Qed.

Section converted.
Context (ns : string) (temp : PodTemplate) (env : gmap string (list string)) (vols : gmap string (list Mount))
  (dns : ClientConfig) (uuids : nat → option string).
Let r := ConvertKubeResourceToContainer ns temp env vols dns uuids.

Lemma convert_fields i c :
  let rc := convert_container ns temp env vols dns (uuids i) c in
  k8sContainerName rc = dc_Name c ∧ Labels (config rc) = PodLabels ∧ Volumes (config rc) = None ∧
  endpoints rc ≠ None ∧ ports_of rc = portset (dc_Ports c) ∧ bindings_of rc = portmap (dc_Ports c).
Proof. unfold convert_container, ports_of, bindings_of. by destruct (default _ (dc_Capabilities c)) as [add drop]. Qed.

Lemma convert_names : k8sContainerName <$> r = dc_Name <$> pt_Containers temp.
Proof.
  unfold r, ConvertKubeResourceToContainer. rewrite fmap_imap. cbn. rewrite <-(list_fmap_id (dc_Name <$> _)).
  apply list_eq. intros i. rewrite list_lookup_imap, !list_lookup_fmap.
  destruct (pt_Containers temp !! i) as [c|]; [|done]. cbn. f_equal. apply (convert_fields i c).
Qed.

Lemma convert_elem rc :
  rc ∈ r ↔ ∃ i c, pt_Containers temp !! i = Some c ∧ rc = convert_container ns temp env vols dns (uuids i) c.
Proof.
  unfold r, ConvertKubeResourceToContainer. rewrite list_elem_of_lookup. setoid_rewrite list_lookup_imap.
  setoid_rewrite fmap_Some. naive_solver.
Qed.

(** Summing a property of the containers over the configurations. *)
Lemma convert_sum (A : RunConfig → Prop) (F : Container → Prop) :
  (∀ i c, A (convert_container ns temp env vols dns (uuids i) c) ↔ F c) →
  (∃ rc, rc ∈ r ∧ A rc) ↔ ∃ c, c ∈ pt_Containers temp ∧ F c.
Proof.
  intros HA. split.
  - intros (rc & (i & c & Hc & ->)%convert_elem & H). exists c. apply HA in H.
    split; [by eapply list_elem_of_lookup_2|done].
  - intros (c & [i Hc]%list_elem_of_lookup & H). exists (convert_container ns temp env vols dns (uuids i) c).
    split; [|by apply HA]. apply convert_elem. by exists i, c.
Qed.
End converted.

(** Replacing the first container of a permutation adds what the user gave. *)
Lemma merged_sum (A : RunConfig → Prop) (U : Prop) r rc rc' rest :
  rc :: rest ≡ₚ r → (A rc' ↔ U ∨ A rc) →
  (∃ x, x ∈ rc' :: rest ∧ A x) ↔ U ∨ ∃ x, x ∈ r ∧ A x.
Proof.
  intros Hp HA. setoid_rewrite <-Hp. setoid_rewrite elem_of_cons. naive_solver.
Qed.

(** C33.  Without [--network], the local containers of a workload rebuild its pod: no
    container is lost, the chosen one comes first, all but the last use the network and
    the processes of the last one, which exposes exactly the ports of the pod and of the
    user and has all their bindings; the labels of the user are added to those of the pod,
    which all containers have. *)
Theorem dev_pod mac volume abs envkv kv rf compact order changed serverOS pp ns temp env vols dns uuids copts cc id L
    (Hcs : pt_Containers (RemoveContainers temp) ≠ []) (HL : pt_Labels temp = Some L)
    (Hparse : parse mac volume abs envkv kv rf compact order changed (d_Copts copts) serverOS = Ret cc)
    (Hnet : co_netMode (d_Copts copts) = []) (Hpl : platform_ok pp copts) :
  let cs := pt_Containers (RemoveContainers temp) in
  ∃ P B ul others owner, maps_made cc P B ul ∧
    dev_configs pp ns temp env vols dns uuids copts cc (Ret id) = Ret (Some (ul ∪ L), (others ++ [owner])%list) ∧
    k8sContainerName <$> (others ++ [owner])%list ≡ₚ dc_Name <$> cs ∧
    (ContainerName copts ≠ "" → ContainerName copts ∈ dc_Name <$> cs →
     head (k8sContainerName <$> (others ++ [owner])%list) = Some (ContainerName copts)) ∧
    Forall (joined (containerName owner)) others ∧
    (∀ k, k ∈ ports_of owner ↔ k ∈ P ∨ ∃ c, c ∈ cs ∧ k ∈ portset (dc_Ports c)) ∧
    (∀ k b, binds (bindings_of owner) k b ↔ binds B k b ∨ ∃ c, c ∈ cs ∧ binds (portmap (dc_Ports c)) k b).
Proof.
  intros cs. subst cs. destruct (parse_maps_made _ _ _ _ _ _ _ _ _ _ _ _ Hparse) as (P & B & ul & Hm). exists P, B, ul.
  set (t := RemoveContainers temp) in *. set (r := ConvertKubeResourceToContainer ns t env vols dns uuids).
  pose proof (choose_perm (ContainerName copts) r) as Hperm.
  pose proof (convert_names ns t env vols dns uuids) as Hnames. fold r in Hnames.
  destruct (choose (ContainerName copts) r) as [|rc rest] eqn:Hc.
  { apply Permutation_nil_l in Hperm. rewrite <-Hperm in Hnames. by destruct (pt_Containers t). }
  assert (∀ x, x ∈ rc :: rest → Labels (config x) = PodLabels ∧ Volumes (config x) = None ∧ endpoints x ≠ None) as Hx.
  { intros x Hx. rewrite Hperm in Hx. apply convert_elem in Hx as (i & c & _ & ->).
    destruct (convert_fields ns t env vols dns uuids i c) as (_ & ? & ? & ? & _). done. }
  destruct (Hx rc (list_elem_of_here _ _)) as (Hlab & Hvol & _).
  destruct (merge_spec pp L r copts cc P B ul rc rest Hc Hlab Hvol Hm Hpl) as (rc' & Emerge & M).
  destruct (share_network_spec id (rc' :: rest)) as (others & owner & Eshare & Emain & Hj & Hp & Hb); [done| |].
  { constructor; [apply M|]. apply Forall_forall. intros x Hin. apply (Hx x). by right. }
  assert (k8sContainerName <$> (others ++ [owner])%list = k8sContainerName <$> rc :: rest) as Hk.
  { transitivity ((λ p, p.1.1) <$> (main_part <$> (others ++ [owner])%list)); [by rewrite <-list_fmap_compose|].
    rewrite Emain, <-list_fmap_compose. cbn. f_equal. apply M. }
  exists others, owner. split; [done|]. split.
  { unfold dev_configs. fold t. fold r. change (pt_Labels t) with (pt_Labels temp). rewrite HL, Emerge, Hnet.
    cbn [mbind outcome_bind]. by rewrite Eshare. }
  split; [by rewrite Hk, Hperm, Hnames|]. split.
  { intros Hne Hin. rewrite Hk. rewrite <-Hnames in Hin.
    destruct (choose_head _ _ Hne Hin) as (x & y & Exy & Hxy). rewrite Hc in Exy. injection Exy as <- <-. cbn. by rewrite Hxy. }
  split; [done|]. split.
  - intros k. rewrite Hp. rewrite (merged_sum (λ x, k ∈ ports_of x) (k ∈ P) r rc rc' rest Hperm) by (rewrite (merged_ports _ _ _ _ _ _ M); set_solver).
    apply or_iff_compat_l, (convert_sum ns t env vols dns uuids (λ x, k ∈ ports_of x) (λ c, k ∈ portset (dc_Ports c))).
    intros i c. destruct (convert_fields ns t env vols dns uuids i c) as (_ & _ & _ & _ & -> & _). done.
  - intros k b. rewrite Hb. rewrite (merged_sum (λ x, binds (bindings_of x) k b) (binds B k b) r rc rc' rest Hperm) by (apply M).
    apply or_iff_compat_l, (convert_sum ns t env vols dns uuids (λ x, binds (bindings_of x) k b) (λ c, binds (portmap (dc_Ports c)) k b)).
    intros i c. destruct (convert_fields ns t env vols dns uuids i c) as (_ & _ & _ & _ & _ & ->). done.
Qed.

(** ** A workload *)

Definition web : Container :=
  MkContainer "web" "nginx" [] [] "" false false [MkPort "http" 0 80 "TCP" ""; MkPort "" 8443 443 "TCP" ""] None None [].
Definition agent : Container :=
  MkContainer "agent" "agent:1" ["/agent"] ["-v"] "/" false false [MkPort "" 0 9100 "UDP" ""]
    (Some (["NET_RAW"], ["MKNOD"])) (Some (2 ^ 20)%Z) [].
Definition vpn : Container := MkContainer ContainerSidecarVPN "kubevpn" [] [] "" false false [] None None [].

Definition example_template : PodTemplate :=
  MkPodTemplate (Some {["app" := "shop"]}) None "" "" [web; agent; vpn].
Definition example_dns : ClientConfig := MkClientConfig ["10.96.0.10"] ["default.svc.cluster.local"] "53" 5 5 2.
Definition example_dev (name : string) : Options :=
  MkDevOptions name "shop:dev" zero_options example_options.
Definition example_uuid (i : nat) : option string := Some "01234567-89ab-11ee-8000-000000000000".

Definition example_configs (name : string) : outcome (option (gmap string string) * list RunConfig) :=
  dev_configs (λ _, Fail NotFound) "default" example_template {["web" := ["A=1"]; "agent" := ["HOSTNAME=shop-1"]]} ∅
    example_dns example_uuid (example_dev name) example_config (Ret "net0").

Definition summary (o : outcome (option (gmap string string) * list RunConfig)) : list (string * string * string * list string) :=
  match o with
  | Ret (_, r) => (λ rc, (containerName rc, Image (config rc), NetworkMode (hostConfig rc),
                          elements (default ∅ (ExposedPorts (config rc))))) <$> r
  | _ => []
  end.

Example example_agent_first : (λ x, x.1) <$> summary (example_configs "agent") =
  [("agent_default_kubevpn_01234", "shop:dev", "container:web_default_kubevpn_01234");
   ("web_default_kubevpn_01234", "nginx", "")].
Proof. vm_compute. reflexivity. Qed.

(** A container name that the workload does not have changes the first container. *)
Example unknown_container_ignored : summary (example_configs "agnet") = summary (example_configs "").
Proof. vm_compute. reflexivity. Qed.

(** A pod without labels and a user with one: the nil map of the pod is written to. *)
Example labels_need_pod_labels L :
  merge_labels None PodLabels (OwnLabels (<["a" := L]> ∅)) = Panic.
Proof.
  unfold merge_labels. cbn. rewrite bool_decide_eq_false_2; [done|]. apply insert_non_empty.
Qed.

Lemma dev_pod_witness :
  ∃ P B ul others owner, maps_made example_config P B ul ∧
    example_configs "agent" = Ret (Some (ul ∪ {["app" := "shop"]}), (others ++ [owner])%list) ∧
    k8sContainerName <$> (others ++ [owner])%list ≡ₚ dc_Name <$> [web; agent] ∧
    ("agent" ≠ "" → "agent" ∈ dc_Name <$> [web; agent] →
     head (k8sContainerName <$> (others ++ [owner])%list) = Some "agent") ∧
    Forall (joined (containerName owner)) others ∧
    (∀ k, k ∈ ports_of owner ↔ k ∈ P ∨ ∃ c, c ∈ [web; agent] ∧ k ∈ portset (dc_Ports c)) ∧
    (∀ k b, binds (bindings_of owner) k b ↔ binds B k b ∨ ∃ c, c ∈ [web; agent] ∧ binds (portmap (dc_Ports c)) k b).
Proof.
  pose proof example_parse_eq as E. unfold example_parse in E.
  assert (platform_ok (λ _, Fail NotFound) (example_dev "agent")) as Hp by (intros H; discriminate H).
  exact (dev_pod _ _ _ _ _ _ _ _ _ "linux" (λ _, Fail NotFound) "default" example_template
    {["web" := ["A=1"]; "agent" := ["HOSTNAME=shop-1"]]} ∅ example_dns example_uuid (example_dev "agent") example_config
    "net0" {["app" := "shop"]} ltac:(discriminate) eq_refl E eq_refl Hp).
Defined.
