(* ===== verification/DevRun.v ===== *)
(** * Development mode: running the containers

    [pkg/dev/run.go], [dockercreate.go], [ConfigList.Run] and [Remove] and the helpers of
    [main.go]: the containers of a workload are started from the last, which owns the
    network of the pod, to the first, which is the user's.  The docker engine is an
    interface of which only answers are asked; a recorder of what it is asked is put
    around any of its instances, and [toy] is one. *)
From Stdlib Require Import Ascii ZArith Lia.
From stdpp Require Import base gmap strings numbers pretty list.
From S2P Require Import Prelude GoStrings GoPath Config ControlPlane Docker Dev.
From stdpp Require Import list.
Local Open Scope string_scope.

(** ** The engine *)

Record ContainerState := MkState { Status : string; Running : bool; Dead : bool }.
Record NetworkResource := MkNetwork { n_ID : string; n_Name : string; n_Labels : option (gmap string string) }.

(** [ContainerInspect] passes the state because time passes; its [None] is a container
    without a state.  [ImageInspect] gives the operating system and the architecture,
    [ImagePull] takes a platform and an image. *)
Class Engine (S : Type) := {
  ImageInspect : S → string → outcome (string * string);
  ImagePull : S → string → string → S * option error;
  ContainerCreate : S → RunConfig → option Platform → string → S * outcome string;
  ContainerStart : S → string → S * option error;
  ContainerInspect : S → string → S * outcome (option ContainerState);
  ContainerRemove : S → string → S * option error;
  ContainerExecCreate : S → string → list string → S * outcome string;
  ContainerExecStart : S → string → S * option error;
  ContainerExecInspect : S → string → S * outcome bool;
  CopyToContainer : S → string → string → S * option error;
  NetworkDisconnect : S → string → string → S * option error;
  NetworkInspect : S → string → outcome nat;
  NetworkRemove : S → string → S * option error;
  NetworkList : S → outcome (list NetworkResource);
  NetworkCreate : S → string → gmap string string → S * outcome string;
  MemTotal : S → outcome Z;
}.

(** The files of identifiers, by path. *)
Abbreviation CidFiles := (gmap string string).

Section run.
Context {S : Type} `{Engine S}.

(** ** Running a container *)

(** [util.PullImage] *)
Definition PullImage (s : S) (p : option Platform) (img : string) : S * option error :=
  let plat := match p with
              | Some p => if given (Architecture p) && given (OS p) then OS p +:+ "/" +:+ Architecture p else ""
              | None => "" end in
  ImagePull s plat img.

(** One look at the container: go on waiting, or stop with the error. *)
Definition poll (o : outcome (option ContainerState)) : option (option error) :=
  match o with
  | Fail e => Some (Some e)
  | Panic => None
  | Ret (Some st) =>
      if String.eqb (Status st) "exited" || String.eqb (Status st) "dead" || Dead st
      then Some (Some (Errorf ("container status: " +:+ Status st)))
      else if Running st then Some None else None
  | Ret None => None
  end.

(** [wait.UntilWithContext]; [None]: still waiting. *)
Fixpoint wait_running (fuel : nat) (s : S) (id : string) : option (S * option error) :=
  match fuel with
  | O => None
  | Datatypes.S fuel =>
      let '(s, o) := ContainerInspect s id in
      match poll o with Some err => Some (s, err) | None => wait_running fuel s id end
  end.

Definition need_pull (img : outcome (string * string)) (p : option Platform) : outcome bool :=
  let other os arch := match p with
    | Some p => given (Architecture p) && given (OS p) &&
                (negb (String.eqb os (OS p)) || negb (String.eqb arch (Architecture p)))
    | None => false end in
  match img with
  | Ret (os, arch) => Ret (other os arch)
  | Fail NotFound => Ret true
  | Fail e => Fail e
  | Panic => Panic
  end.

(** The container is removed when it failed and is to be removed. *)
Definition run_failed (s : S) (rc : RunConfig) (id : string) (e : error) : S * outcome string :=
  (if AutoRemove (hostConfig rc) then fst (ContainerRemove s id) else s, Fail e).

Definition run (fuel : nat) (s : S) (rc : RunConfig) : option (S * outcome string) :=
  match need_pull (ImageInspect s (Image (config rc))) (platform rc) with
  | Fail e => Some (s, Fail e)
  | Panic => Some (s, Panic)
  | Ret needPull =>
      let '(s, err) := if needPull then PullImage s (platform rc) (Image (config rc)) else (s, None) in
      match err with
      | Some e => Some (s, Fail e)
      | None =>
          match ContainerCreate s rc (platform rc) (containerName rc) with
          | (s, Fail e) => Some (s, Fail e)
          | (s, Panic) => Some (s, Panic)
          | (s, Ret id) =>
              match ContainerStart s id with
              | (s, Some e) => Some (run_failed s rc id e)
              | (s, None) =>
                  match wait_running fuel s id with
                  | None => None
                  | Some (s, Some e) => Some (run_failed s rc id e)
                  | Some (s, None) => Some (s, Ret id)
                  end
              end
          end
      end
  end.

(** ** Creating the user's container *)

(** What [createContainer] is told by the outside: the reference of an image (whether it is
    named, and then whether tagged), the trusted reference of a tag, tagging it, the
    platform, whether the engine knows platforms, whether the file can be written. *)
Record CreateEnv := MkCreateEnv {
  ParseAnyReference : string → outcome (option bool); TrustedReference : string → outcome string;
  TagTrusted : string → option error; ParsePlatform : string → outcome Platform; knows_platform : bool;
  cid_create : string → option error; cid_write : string → option error }.

(** [newCIDFile]; [None] is the file that is none. *)
Definition newCIDFile (env : CreateEnv) (files : CidFiles) (path : string) : outcome (CidFiles * option string) :=
  if negb (given path) then Ret (files, None)
  else if bool_decide (is_Some (files !! path)) then Fail (Errorf "container ID file found")
  else match cid_create env path with
       | Some e => Fail (ErrorfV "failed to create the container ID file" e)
       | None => Ret (<[path := ""]> files, Some path)
       end.

(** [cidFile.Close] *)
Definition cid_Close (files : CidFiles) (cid : option string) (written : bool) : CidFiles :=
  match cid with Some path => if written then files else delete path files | None => files end.

Definition set_Image (image : string) (rc : RunConfig) : RunConfig :=
  let c := config rc in
  MkRunConfig (containerName rc) (k8sContainerName rc)
    (MkConfig (Hostname c) (Domainname c) (User c) (AttachStdin c) (AttachStdout c) (AttachStderr c) (ExposedPorts c)
      (Tty c) (OpenStdin c) (StdinOnce c) (Env c) (Cmd c) (Healthcheck c) image (Volumes c) (WorkingDir c)
      (Entrypoint c) (MacAddress c) (Labels c) (StopSignal c) (StopTimeout c))
    (hostConfig rc) (endpoints rc) (platform rc) (rc_Options rc) (Copts rc).

(** Pulling the image and tagging the trusted reference. *)
Definition pullAndTagImage (env : CreateEnv) (s : S) (rc : RunConfig) (trusted : bool) : S * option error :=
  match ImagePull s (ro_Platform (rc_Options rc)) (Image (config rc)) with
  | (s, Some e) => (s, Some e)
  | (s, None) => (s, if trusted then TagTrusted env (Image (config rc)) else None)
  end.

Definition create_or_pull (env : CreateEnv) (s : S) (rc : RunConfig) (named trusted : bool) (p : option Platform)
    : S * outcome string :=
  match ContainerCreate s rc p (ro_Name (rc_Options rc)) with
  | (s, Fail NotFound) =>
      if named && String.eqb (ro_Pull (rc_Options rc)) "missing" then
        match pullAndTagImage env s rc trusted with
        | (s, Some e) => (s, Fail e)
        | (s, None) => ContainerCreate s rc p (ro_Name (rc_Options rc))
        end
      else (s, Fail NotFound)
  | r => r
  end.

(** The part of [createContainer] between the opening and the closing of the file. *)
Definition create_steps (env : CreateEnv) (s : S) (rc : RunConfig) : S * outcome string :=
  let opts := rc_Options rc in
  match ParseAnyReference env (Image (config rc)) with
  | Fail e => (s, Fail e)
  | Panic => (s, Panic)
  | Ret ref =>
      let named := bool_decide (is_Some ref) in
      let trust := match ref with Some true => negb (ro_Untrusted opts) | _ => false end in
      match (if trust then image ← TrustedReference env (Image (config rc)); Ret (set_Image image rc) else Ret rc) with
      | Fail e => (s, Fail e)
      | Panic => (s, Panic)
      | Ret rc =>
          match (if given (ro_Platform opts) && knows_platform env
                 then match ParsePlatform env (ro_Platform opts) with
                      | Ret p => Ret (Some p)
                      | Fail e => Fail (ErrorfV "error parsing specified platform" e)
                      | Panic => Panic
                      end
                 else Ret None) with
          | Fail e => (s, Fail e)
          | Panic => (s, Panic)
          | Ret p =>
              if String.eqb (ro_Pull opts) "always" then
                match pullAndTagImage env s rc trust with
                | (s, Some e) => (s, Fail e)
                | (s, None) => create_or_pull env s rc named trust p
                end
              else create_or_pull env s rc named trust p
          end
      end
  end.

(** The identifier is returned also when writing it to the file fails. *)
Definition createContainer (env : CreateEnv) (s : S) (files : CidFiles) (rc : RunConfig)
    : S * CidFiles * outcome (string * option error) :=
  match newCIDFile env files (ContainerIDFile (Rest (hostConfig rc))) with
  | Fail e => (s, files, Fail e)
  | Panic => (s, files, Panic)
  | Ret (files, cid) =>
      match create_steps env s rc with
      | (s, Fail e) => (s, cid_Close files cid false, Fail e)
      | (s, Panic) => (s, cid_Close files cid false, Panic)
      | (s, Ret id) =>
          match cid with
          | None => (s, files, Ret (id, None))
          | Some path =>
              match cid_write env path with
              | Some e => (s, cid_Close files cid false,
                           Ret (id, Some (ErrorfV "failed to write the container ID to the file" e)))
              | None => (s, <[path := id]> files, Ret (id, None))
              end
          end
      end
  end.

(** ** Starting the user's container *)

(** The end of the stream the user is attached to. *)
Inductive hijack := StreamEnded | StreamDetached | StreamFailed (e : error).

(** The terminal, the attachment, its stream and the exit status of the container. *)
Record Console := MkConsole {
  CheckTty : bool → bool → option error; ContainerAttach : option error; stream : hijack; exit_status : Z;
  error_text : error → string }.

Definition runStartContainerErr (msg : string) : Z :=
  let trimmedErr := TrimPrefix msg "Error response from daemon: " in
  if Contains trimmedErr "executable file not found" || Contains trimmedErr "no such file or directory" ||
     Contains trimmedErr "system cannot find the file specified" then 127
  else if Contains trimmedErr "permission denied" then 126 else 125.

Definition set_attach (i o e once : bool) (rc : RunConfig) : RunConfig :=
  let c := config rc in
  MkRunConfig (containerName rc) (k8sContainerName rc)
    (MkConfig (Hostname c) (Domainname c) (User c) i o e (ExposedPorts c)
      (Tty c) (OpenStdin c) once (Env c) (Cmd c) (Healthcheck c) (Image c) (Volumes c) (WorkingDir c)
      (Entrypoint c) (MacAddress c) (Labels c) (StopSignal c) (StopTimeout c))
    (hostConfig rc) (endpoints rc) (platform rc) (rc_Options rc) (Copts rc).

Definition attached (rc : RunConfig) : bool :=
  AttachStdin (config rc) || AttachStdout (config rc) || AttachStderr (config rc).

(** What follows a successful start. *)
Definition after_start (con : Console) (rc : RunConfig) : outcome unit :=
  let finish :=
    if negb (AttachStdout (config rc)) && negb (AttachStderr (config rc)) then Ret tt
    else if (exit_status con =? 0)%Z then Ret tt else Fail (Errorf (Itoa (exit_status con))) in
  if attached rc then
    match stream con with
    | StreamEnded => finish
    | StreamDetached => Ret tt
    | StreamFailed e => Fail e
    end
  else finish.

Definition runFirst (env : CreateEnv) (con : Console) (s : S) (files : CidFiles) (rc : RunConfig)
    : S * CidFiles * outcome unit :=
  match CheckTty con (AttachStdin (config rc)) (Tty (config rc)) with
  | Some e => (s, files, Fail e)
  | None =>
      let detach := ro_Detach (rc_Options rc) in
      match (if detach then match Copts rc with
                            | Some c => if nonempty (co_attach c) then Fail (Errorf "Conflicting options: -a and -d")
                                        else Ret (set_attach false false false false rc)
                            | None => Panic
                            end
             else Ret rc) with
      | Fail e => (s, files, Fail e)
      | Panic => (s, files, Panic)
      | Ret rc =>
          match createContainer env s files rc with
          | (s, files, Fail e) => (s, files, Fail e)
          | (s, files, Panic) => (s, files, Panic)
          | (s, files, Ret (_, Some e)) => (s, files, Fail e)
          | (s, files, Ret (id, None)) =>
              match (if attached rc then ContainerAttach con else None) with
              | Some e => (s, files, Fail (ErrorfV "failed to attach to container" e))
              | None =>
                  match ContainerStart s id with
                  | (s, Some e) =>
                      (s, files, Fail (Errorf ("Status: , Code: " +:+ Itoa (runStartContainerErr (error_text con e)))))
                  | (s, None) => (s, files, after_start con rc)
                  end
              end
          end
      end
  end.

(** ** Copying volumes *)

(** The local side: whether a source is a directory, and the archive of it. *)
Record LocalFiles := MkLocal { Lstat : string → outcome bool; Archive : string → string → outcome string }.

Fixpoint wait_exec (fuel : nat) (s : S) (id : string) : option S :=
  match fuel with
  | O => None
  | Datatypes.S fuel =>
      match ContainerExecInspect s id with
      | (s, Ret false) => Some s
      | (s, _) => wait_exec fuel s id
      end
  end.

(** The caller only logs the error. *)
Definition createFolder (local : LocalFiles) (fuel : nat) (s : S) (id src target : string) : option (S * option error) :=
  match Lstat local src with
  | Fail e => Some (s, Some e)
  | Panic => None
  | Ret isDir =>
      let target := if isDir then target else Dir target in
      match ContainerExecCreate s id ["mkdir"; "-p"; target] with
      | (s, Ret ex) =>
          match ContainerExecStart s ex with
          | (s, Some e) => Some (s, Some e)
          | (s, None) => match wait_exec fuel s ex with Some s => Some (s, None) | None => None end
          end
      | (s, Fail e) => Some (s, Some e)
      | (s, Panic) => None
      end
  end.

Fixpoint copyToContainer (local : LocalFiles) (fuel : nat) (s : S) (id : string) (volume : list Mount)
    : option (S * option error) :=
  match volume with
  | [] => Some (s, None)
  | v :: volume =>
      match createFolder local fuel s id (mt_Source v) (mt_Target v) with
      | None => None
      | Some (s, _) =>
          match Archive local (mt_Source v) (mt_Target v) with
          | Ret dstDir =>
              let '(s, _) := CopyToContainer s id dstDir in
              copyToContainer local fuel s id volume
          | Fail e => Some (s, Some e)
          | Panic => None
          end
      end
  end.

(** ** All containers *)

Definition no_mounts (rc : RunConfig) : RunConfig :=
  let h := hostConfig rc in
  MkRunConfig (containerName rc) (k8sContainerName rc) (config rc)
    (MkHostConfig (Binds h) (NetworkMode h) (PortBindings h) (AutoRemove h) (VolumesFrom h) (CapAdd h) (DNS h)
      (DNSOptions h) (DNSSearch h) (PidMode h) (Privileged h) (PublishAllPorts h) (SecurityOpt h) [] (Rest h))
    (endpoints rc) (platform rc) (rc_Options rc) (Copts rc).

(** A container that does not start with its mounts is run without, and the volumes are
    copied into it. *)
Definition run_or_copy (local : LocalFiles) (volume : gmap string (list Mount)) (fuel : nat) (s : S) (rc : RunConfig)
    : option (S * outcome unit) :=
  match run fuel s rc with
  | None => None
  | Some (s, Ret _) => Some (s, Ret tt)
  | Some (s, Panic) => Some (s, Panic)
  | Some (s, Fail _) =>
      match run fuel s (no_mounts rc) with
      | None => None
      | Some (s, Fail e) => Some (s, Fail e)
      | Some (s, Panic) => Some (s, Panic)
      | Some (s, Ret id) =>
          match copyToContainer local fuel s id (default [] (volume !! k8sContainerName rc)) with
          | None => None
          | Some (s, Some e) => Some (s, Fail e)
          | Some (s, None) => Some (s, Ret tt)
          end
      end
  end.

(** The loop of [ConfigList.Run]: the containers still to run, last first. *)
Fixpoint run_loop (env : CreateEnv) (con : Console) (local : LocalFiles) (volume : gmap string (list Mount)) (fuel : nat)
    (s : S) (files : CidFiles) (l : list RunConfig) : option (S * CidFiles * outcome unit) :=
  match l with
  | [] => Some (s, files, Ret tt)
  | [rc] => Some (runFirst env con s files rc)
  | rc :: l =>
      match run_or_copy local volume fuel s rc with
      | None => None
      | Some (s, Ret _) => run_loop env con local volume fuel s files l
      | Some (s, Fail e) => Some (s, files, Fail e)
      | Some (s, Panic) => Some (s, files, Panic)
      end
  end.

Definition ConfigList_Run env con local volume fuel (s : S) (files : CidFiles) (l : list RunConfig) :=
  run_loop env con local volume fuel s files (rev l).

Fixpoint remove_all (s : S) (l : list RunConfig) : S :=
  match l with
  | [] => s
  | rc :: l =>
      let '(s, _) := NetworkDisconnect s (containerName rc) (containerName rc) in
      let '(s, _) := ContainerRemove s (containerName rc) in
      remove_all s l
  end.

Definition ConfigList_Remove (s : S) (l : list RunConfig) : S * option error :=
  if negb (existsb (λ rc, AutoRemove (hostConfig rc)) l) then (s, None)
  else
    let s := remove_all s l in
    match NetworkInspect s ConfigMapPodTrafficManager with
    | Ret O => NetworkRemove s ConfigMapPodTrafficManager
    | Ret _ => (s, None)
    | Fail e => (s, Some e)
    | Panic => (s, None)
    end.

(** ** The network and the memory of the engine *)

Definition network_owner : gmap string string := {["owner" := ConfigMapPodTrafficManager]}.

Definition find_network (s : S) : option string :=
  match NetworkList s with
  | Ret l => n_ID <$> find (λ n, bool_decide (n_Labels n = Some network_owner)) l
  | _ => None
  end.

Definition createKubevpnNetwork (s : S) : S * outcome string :=
  match find_network s with
  | Some id => (s, Ret id)
  | None =>
      match NetworkCreate s ConfigMapPodTrafficManager network_owner with
      | (s, Fail Forbidden) => match find_network s with Some id => (s, Ret id) | None => (s, Fail Forbidden) end
      | r => r
      end
  end.

(** An [int64] sum of the requested memory. *)
Definition requested (temp : PodTemplate) : Z :=
  fold_left (λ req c, match dc_Memory c with Some m => wrap64 (req + m) | None => req end) (pt_Containers temp) 0%Z.

Definition checkOutOfMemory (s : S) (temp : PodTemplate) : outcome bool :=
  total ← MemTotal s; Ret (total <? requested temp)%Z.
End run.

(** ** What is asked of the engine *)

(** The questions to the engine that concern a container, with the answers. *)
Inductive event :=
  | Created (rc : RunConfig) (name : string) (r : outcome string)
  | Started (id : string) (r : option error)
  | Inspected (id : string) (r : outcome (option ContainerState))
  | Removed (id : string) (r : option error)
  | Executed (id : string) (cmd : list string)
  | Copied (id dir : string).

(** Any engine, with a record of what it was asked: it answers as the engine does. *)
#[export] Instance recorder {S} `{Engine S} : Engine (S * list event) := {|
  ImageInspect s img := ImageInspect s.1 img;
  ImagePull s plat img := let '(s1, r) := ImagePull s.1 plat img in ((s1, s.2), r);
  ContainerCreate s rc p name :=
    let '(s1, r) := ContainerCreate s.1 rc p name in ((s1, (s.2 ++ [Created rc name r])%list), r);
  ContainerStart s id := let '(s1, r) := ContainerStart s.1 id in ((s1, (s.2 ++ [Started id r])%list), r);
  ContainerInspect s id := let '(s1, r) := ContainerInspect s.1 id in ((s1, (s.2 ++ [Inspected id r])%list), r);
  ContainerRemove s id := let '(s1, r) := ContainerRemove s.1 id in ((s1, (s.2 ++ [Removed id r])%list), r);
  ContainerExecCreate s id cmd :=
    let '(s1, r) := ContainerExecCreate s.1 id cmd in ((s1, (s.2 ++ [Executed id cmd])%list), r);
  ContainerExecStart s ex := let '(s1, r) := ContainerExecStart s.1 ex in ((s1, s.2), r);
  ContainerExecInspect s ex := let '(s1, r) := ContainerExecInspect s.1 ex in ((s1, s.2), r);
  CopyToContainer s id dir := let '(s1, r) := CopyToContainer s.1 id dir in ((s1, (s.2 ++ [Copied id dir])%list), r);
  NetworkDisconnect s n c := let '(s1, r) := NetworkDisconnect s.1 n c in ((s1, s.2), r);
  NetworkInspect s n := NetworkInspect s.1 n;
  NetworkRemove s n := let '(s1, r) := NetworkRemove s.1 n in ((s1, s.2), r);
  NetworkList s := NetworkList s.1;
  NetworkCreate s n l := let '(s1, r) := NetworkCreate s.1 n l in ((s1, s.2), r);
  MemTotal s := MemTotal s.1;
|}.

Definition created (tr : list event) (id : string) : Prop := ∃ rc name, Created rc name (Ret id) ∈ tr.

Definition seen_running (st : ContainerState) : Prop :=
  Running st = true ∧ Dead st = false ∧ Status st ≠ "exited" ∧ Status st ≠ "dead".

(** [rc] was created under its name, then started, and then reported running. *)
Definition up_as (tr : list event) (rc : RunConfig) : Prop :=
  ∃ id before mid st after,
    tr = (before ++ Created rc (containerName rc) (Ret id) :: Started id None :: mid ++
          Inspected id (Ret (Some st)) :: after)%list ∧ seen_running st.

Definition up (tr : list event) (rc : RunConfig) : Prop := up_as tr rc ∨ up_as tr (no_mounts rc).

(** The user's container was created under the name of the options, and then started. *)
Definition user_started (tr : list event) (rc : RunConfig) : Prop :=
  ∃ rc1 id before mid after,
    tr = (before ++ Created rc1 (ro_Name (rc_Options rc)) (Ret id) :: mid ++ Started id None :: after)%list ∧
    containerName rc1 = containerName rc ∧ NetworkMode (hostConfig rc1) = NetworkMode (hostConfig rc).

(** What may be asked after [before]: a container of the pod is created when all that
    follow it in the list have been up, and only containers that were created are
    touched. *)
Definition allowed (l : list RunConfig) (before : list event) (e : event) : Prop :=
  match e with
  | Created rc1 _ _ =>
      ∃ front rc back, l = (front ++ rc :: back)%list ∧ containerName rc1 = containerName rc ∧ Forall (up before) back
  | Started id _ | Inspected id _ | Removed id _ | Executed id _ | Copied id _ => created before id
  end.

Definition orderly (l : list RunConfig) (tr : list event) : Prop :=
  ∀ before e after, tr = (before ++ e :: after)%list → allowed l before e.

Lemma orderly_nil l : orderly l [].
Proof. intros before e after E. by destruct before. Qed.

Lemma orderly_snoc l tr e : orderly l tr → allowed l tr e → orderly l (tr ++ [e])%list.
Proof.
  intros Ht He before e' after E. destruct after as [|x after _] using rev_ind.
  - apply app_inj_tail in E as [-> ->]. done.
  - rewrite app_comm_cons, app_assoc in E. apply app_inj_tail in E as [-> _]. by eapply Ht.
Qed.

Lemma created_app tr k id : created tr id → created (tr ++ k)%list id.
Proof. intros (rc & name & Hin). exists rc, name. apply elem_of_app. by left. Qed.

Lemma created_snoc tr rc name id : created (tr ++ [Created rc name (Ret id)])%list id.
Proof. exists rc, name. apply elem_of_app. right. by apply list_elem_of_singleton. Qed.

Lemma up_app tr k rc : up tr rc → up (tr ++ k)%list rc.
Proof.
  intros [(id & b & m & st & a & -> & Hs)|(id & b & m & st & a & -> & Hs)]; [left|right];
    exists id, b, m, st, (a ++ k)%list; (split; [|done]); rewrite <-app_assoc; cbn; by rewrite <-app_assoc.
Qed.

Section recorded.
Context {S : Type} `{Engine S}.
Variable l : list RunConfig.

(** A step of the record: it stays orderly and only grows. *)
Definition extends (tr tr' : list event) : Prop := orderly l tr → orderly l tr' ∧ ∃ k, tr' = (tr ++ k)%list.

#[local] Instance extends_preorder : PreOrder extends.
Proof.
  split.
  - intros tr Ht. split; [done|]. exists []. by rewrite app_nil_r.
  - intros x y z Hxy Hyz Hx. destruct (Hxy Hx) as [Hy [k ->]]. destruct (Hyz Hy) as [Hz [k' ->]].
    split; [done|]. exists (k ++ k')%list. by rewrite app_assoc.
Qed.

Lemma extends_snoc tr e : allowed l tr e → extends tr (tr ++ [e])%list.
Proof. intros He Ht. split; [by apply orderly_snoc|by eexists]. Qed.

(** Waiting only looks at the container, and ends well when it was seen running. *)
Lemma wait_running_recorded fuel s tr id s' tr' err :
  wait_running fuel (s, tr) id = Some ((s', tr'), err) → created tr id →
  extends tr tr' ∧ created tr' id ∧
  (err = None → ∃ mid st, tr' = (tr ++ mid ++ [Inspected id (Ret (Some st))])%list ∧ seen_running st).
Proof.
  revert s tr. induction fuel as [|fuel IH]; intros s tr E Hc; [discriminate E|]. cbn [wait_running] in E.
  cbn [ContainerInspect recorder fst snd] in E. destruct (ContainerInspect s id) as [s1 o].
  pose proof (extends_snoc tr (Inspected id o) Hc) as Hx. pose proof (created_app tr [Inspected id o] id Hc) as Hc1.
  destruct (poll o) as [err1|] eqn:Ep.
  - injection E as <- <- <-. split; [done|]. split; [done|]. intros ->. exists [].
    destruct o as [[st|]|e|]; try discriminate Ep. exists st. split; [done|]. cbn [poll] in Ep.
    destruct (String.eqb_spec (Status st) "exited"); [discriminate Ep|].
    destruct (String.eqb_spec (Status st) "dead"); [discriminate Ep|].
    unfold seen_running. destruct (Dead st); [discriminate Ep|]. by destruct (Running st).
  - destruct (IH _ _ E Hc1) as (Hx1 & Hc2 & Hok). split; [by etrans|]. split; [done|]. intros He.
    destruct (Hok He) as (mid & st & -> & Hs). exists (Inspected id o :: mid), st. split; [|done].
    by rewrite <-app_assoc.
Qed.

Definition at_turn (rc : RunConfig) (tr : list event) : Prop :=
  ∃ front rc0 back, l = (front ++ rc0 :: back)%list ∧ containerName rc = containerName rc0 ∧ Forall (up tr) back.

Lemma at_turn_app rc tr k : at_turn rc tr → at_turn rc (tr ++ k)%list.
Proof.
  intros (f & rc0 & b & -> & En & Hb). exists f, rc0, b. split; [done|]. split; [done|].
  eapply Forall_impl; [exact Hb|]. intros x. apply up_app.
Qed.

Lemma at_turn_extends rc tr tr' : at_turn rc tr → orderly l tr → extends tr tr' → at_turn rc tr'.
Proof. intros Ht Ho Hx. destruct (Hx Ho) as [_ [k ->]]. by apply at_turn_app. Qed.

Lemma run_failed_recorded s tr rc id e s' tr' r :
  run_failed (s, tr) rc id e = ((s', tr'), r) → created tr id → extends tr tr' ∧ r = Fail e.
Proof.
  unfold run_failed. intros E Hc. destruct (AutoRemove (hostConfig rc)).
  - cbn [ContainerRemove recorder fst snd] in E. destruct (ContainerRemove s id) as [s1 er].
    injection E as <- <- <-. split; [by apply extends_snoc|done].
  - by injection E as <- <- <-.
Qed.

Lemma run_recorded fuel s tr rc s' tr' r :
  run fuel (s, tr) rc = Some ((s', tr'), r) → at_turn rc tr → orderly l tr →
  extends tr tr' ∧ (∀ id, r = Ret id → created tr' id ∧ up_as tr' rc).
Proof.
  intros E Ht Ho. unfold run in E. destruct (need_pull _ _) as [np|e|]; [|by injection E as <- <- <-..].
  set (pulled := if np then _ else _) in E.
  assert (∃ s0 e0, pulled = ((s0, tr), e0)) as (s0 & e0 & Ep).
  { unfold pulled, PullImage. destruct np; [|by eexists _, _]. cbn [ImagePull recorder fst snd].
    destruct (ImagePull s _ _) as [s0 e0]. by eexists _, _. }
  rewrite Ep in E. clear pulled Ep. destruct e0 as [e|]; [by injection E as <- <- <-|].
  cbn [ContainerCreate recorder fst snd] in E. destruct (ContainerCreate s0 rc (platform rc) (containerName rc)) as [s1 c].
  assert (extends tr (tr ++ [Created rc (containerName rc) c])%list) as H1 by (by apply extends_snoc).
  destruct c as [id|e|]; [|by injection E as <- <- <-..].
  pose proof (created_snoc tr rc (containerName rc) id) as Hc. set (tr1 := (tr ++ _)%list) in *.
  cbn [ContainerStart recorder fst snd] in E. destruct (ContainerStart s1 id) as [s2 st].
  assert (extends tr (tr1 ++ [Started id st])%list) as H2 by (etrans; [exact H1|by apply extends_snoc]).
  pose proof (created_app _ [Started id st] _ Hc) as Hc2.
  destruct st as [e|].
  { apply (inj Some) in E. apply run_failed_recorded in E as [Hx ->]; [|done]. split; [by etrans|done]. }
  destruct (wait_running fuel (s2, (tr1 ++ [Started id None])%list) id) as [[[s3 tr3] err]|] eqn:Ew; [|discriminate E].
  apply wait_running_recorded in Ew as (Hx & Hc3 & Hok); [|done]. destruct err as [e|].
  { apply (inj Some) in E. apply run_failed_recorded in E as [Hx' ->]; [|done]. split; [|done].
    etrans; [exact H2|]. by etrans. }
  injection E as <- <- <-. split; [by etrans|]. intros id' [= <-]. split; [done|].
  destruct (Hok eq_refl) as (mid & st & -> & Hs). exists id, tr, mid, st, []. split; [|done].
  unfold tr1. by rewrite <-!app_assoc.
Qed.

Lemma copyToContainer_recorded local fuel s tr id vol s' tr' err :
  copyToContainer local fuel (s, tr) id vol = Some ((s', tr'), err) → created tr id → extends tr tr' ∧ created tr' id.
Proof.
  revert s tr. induction vol as [|v vol IH]; intros s tr E Hc; cbn [copyToContainer] in E; [by injection E as <- <- <-|].
  assert (∀ fuel s tr ex s1 tr1, wait_exec fuel (s, tr) ex = Some (s1, tr1) → tr1 = tr) as Hwait.
  { clear. induction fuel as [|fuel IH]; intros s tr ex s1 tr1 E; [discriminate E|]. cbn [wait_exec] in E.
    cbn [ContainerExecInspect recorder fst snd] in E. destruct (ContainerExecInspect s ex) as [s2 [[]| |]]; [by eapply IH| |by eapply IH..].
    by injection E as _ <-. }
  destruct (createFolder local fuel (s, tr) id (mt_Source v) (mt_Target v)) as [[[s1 tr1] fe]|] eqn:Ef; [|discriminate E].
  assert (extends tr tr1 ∧ created tr1 id) as [Hx Hc1].
  { unfold createFolder in Ef. destruct (Lstat local (mt_Source v)) as [dir|e|]; [|by injection Ef as <- <- <-|discriminate Ef].
    cbn [ContainerExecCreate recorder fst snd] in Ef. set (cmd := ["mkdir"; "-p"; _]) in Ef.
    destruct (ContainerExecCreate s id cmd) as [s2 o].
    pose proof (extends_snoc tr (Executed id cmd) Hc) as Hx. pose proof (created_app tr [Executed id cmd] id Hc) as Hc1.
    destruct o as [ex|e|]; [|by injection Ef as <- <- <-|discriminate Ef].
    cbn [ContainerExecStart recorder fst snd] in Ef. destruct (ContainerExecStart s2 ex) as [s3 [e|]]; [by injection Ef as <- <- <-|].
    destruct (wait_exec fuel _ ex) as [[s4 tr4]|] eqn:Ew; [|discriminate Ef]. apply Hwait in Ew as ->. by injection Ef as <- <- <-. }
  destruct (Archive local (mt_Source v) (mt_Target v)) as [dir|e|]; [|by injection E as <- <- <-|discriminate E].
  cbn [CopyToContainer recorder fst snd] in E. destruct (CopyToContainer s1 id dir) as [s2 ce].
  pose proof (extends_snoc tr1 (Copied id dir) Hc1) as Hx2.
  destruct (IH _ _ E (created_app _ _ _ Hc1)) as [Hx3 Hc3]. split; [|done]. etrans; [exact Hx|]. by etrans.
Qed.

Lemma run_or_copy_recorded local vol fuel s tr rc s' tr' r :
  run_or_copy local vol fuel (s, tr) rc = Some ((s', tr'), r) → at_turn rc tr → orderly l tr →
  extends tr tr' ∧ (r = Ret tt → up tr' rc).
Proof.
  intros E Ht Ho. unfold run_or_copy in E. destruct (run fuel (s, tr) rc) as [[[s1 tr1] r1]|] eqn:E1; [|discriminate E].
  apply run_recorded in E1 as [Hx Hup]; [|done..]. destruct r1 as [id|e|].
  - injection E as <- <- <-. split; [done|]. intros _. left. by eapply Hup.
  - destruct (run fuel (s1, tr1) (no_mounts rc)) as [[[s2 tr2] r2]|] eqn:E2; [|discriminate E].
    apply run_recorded in E2 as [Hx2 Hup2]; [|by apply (at_turn_extends rc tr)|by apply Hx].
    assert (extends tr tr2) as Hx' by (by etrans).
    destruct r2 as [id|e2|]; [|by injection E as <- <- <-..].
    destruct (copyToContainer local fuel (s2, tr2) id _) as [[[s3 tr3] err]|] eqn:E3; [|discriminate E].
    destruct (Hup2 id eq_refl) as [Hc Hu]. apply copyToContainer_recorded in E3 as [Hx3 _]; [|done].
    assert (tr' = tr3) as -> by (by destruct err; injection E as _ <- _). split; [by etrans|]. intros _.
    destruct (Hx3 (proj1 (Hx' Ho))) as [_ [k ->]]. apply up_app. by right.
  - by injection E as <- <- <-.
Qed.

(** What the pulling and creating of the user's container records. *)
Lemma create_or_pull_recorded env s tr rc named trusted p s' tr' r :
  create_or_pull env (s, tr) rc named trusted p = ((s', tr'), r) → at_turn rc tr →
  extends tr tr' ∧ ∀ id, r = Ret id → ∃ before, tr' = (before ++ [Created rc (ro_Name (rc_Options rc)) (Ret id)])%list.
Proof.
  intros E Ht. unfold create_or_pull in E. cbn [ContainerCreate recorder fst snd] in E.
  destruct (ContainerCreate s rc p (ro_Name (rc_Options rc))) as [s1 c].
  assert (extends tr (tr ++ [Created rc (ro_Name (rc_Options rc)) c])%list) as Hx by (by apply extends_snoc).
  destruct c as [id|e|].
  - injection E as <- <- <-. split; [done|]. intros ? [= <-]. by eexists.
  - set (tr1 := (tr ++ [_])%list) in *. destruct e; try (by injection E as <- <- <-).
    destruct (named && _); [|by injection E as <- <- <-].
    unfold pullAndTagImage in E. cbn [ImagePull recorder fst snd] in E. destruct (ImagePull s1 _ _) as [s2 [e|]]; [by injection E as <- <- <-|].
    destruct (if trusted then _ else _) as [e|]; [by injection E as <- <- <-|]. cbn [fst snd] in E.
    destruct (ContainerCreate s2 rc p _) as [s3 c]. injection E as <- <- <-. split.
    + etrans; [exact Hx|]. apply extends_snoc. by apply (at_turn_app rc tr).
    + intros id ->. by eexists.
  - by injection E as <- <- <-.
Qed.

Lemma create_steps_recorded env s tr rc s' tr' r :
  create_steps env (s, tr) rc = ((s', tr'), r) → at_turn rc tr →
  extends tr tr' ∧ ∀ id, r = Ret id → ∃ rc1 before,
    tr' = (before ++ [Created rc1 (ro_Name (rc_Options rc)) (Ret id)])%list ∧
    containerName rc1 = containerName rc ∧ hostConfig rc1 = hostConfig rc.
Proof.
  intros E Ht. unfold create_steps in E.
  destruct (ParseAnyReference env (Image (config rc))) as [ref|e|]; [|by injection E as <- <- <-..].
  set (trust := match ref with Some true => _ | _ => _ end) in E.
  destruct (if trust then _ else Ret rc) as [rc1|e|] eqn:E1; [|by injection E as <- <- <-..].
  assert (containerName rc1 = containerName rc ∧ hostConfig rc1 = hostConfig rc ∧ rc_Options rc1 = rc_Options rc) as (En & Eh & Eo).
  { destruct trust; [|by injection E1 as <-]. destruct (TrustedReference env _); [|discriminate E1..]. by injection E1 as <-. }
  assert (at_turn rc1 tr) as Ht1 by (unfold at_turn; by rewrite En).
  destruct (if given _ && _ then _ else Ret None) as [p|e|]; [|by injection E as <- <- <-..].
  destruct (String.eqb _ "always").
  - unfold pullAndTagImage in E. cbn [ImagePull recorder fst snd] in E.
    destruct (ImagePull s _ _) as [s2 [e|]]; [by injection E as <- <- <-|].
    destruct (if trust then TagTrusted _ _ else _) as [e|]; [by injection E as <- <- <-|].
    apply create_or_pull_recorded in E as [Hx Hok]; [|done]. split; [done|]. intros id Hr.
    destruct (Hok id Hr) as [before ->]. exists rc1, before. by rewrite Eo.
  - apply create_or_pull_recorded in E as [Hx Hok]; [|done]. split; [done|]. intros id Hr.
    destruct (Hok id Hr) as [before ->]. exists rc1, before. by rewrite Eo.
Qed.

Lemma runFirst_recorded env con s tr files rc s' tr' files' r :
  runFirst env con (s, tr) files rc = ((s', tr'), files', r) → at_turn rc tr →
  extends tr tr' ∧ (r = Ret tt → user_started tr' rc).
Proof.
  intros E Ht. unfold runFirst in E. destruct (CheckTty con _ _); [by injection E as <- <- <- <-|].
  destruct (if ro_Detach (rc_Options rc) then _ else Ret rc) as [rc0|e|] eqn:E0; [|by injection E as <- <- <- <-..].
  assert (containerName rc0 = containerName rc ∧ hostConfig rc0 = hostConfig rc ∧ rc_Options rc0 = rc_Options rc) as (En & Eh & Eo).
  { destruct (ro_Detach _); [|by injection E0 as <-]. destruct (Copts rc) as [c|]; [|discriminate E0].
    destruct (nonempty _); [discriminate E0|]. by injection E0 as <-. }
  assert (at_turn rc0 tr) as Ht0 by (unfold at_turn; by rewrite En). unfold createContainer in E.
  destruct (newCIDFile env files _) as [[files1 cid]|e|]; [|by injection E as <- <- <- <-..].
  destruct (create_steps env (s, tr) rc0) as [[s1 tr1] r1] eqn:E1.
  apply create_steps_recorded in E1 as [Hx Hok]; [|done]. destruct r1 as [id|e|]; [|by injection E as <- <- <- <-..].
  destruct (Hok id eq_refl) as (rc1 & before & -> & En1 & Eh1). set (tr1 := (before ++ _)%list) in *.
  assert (∀ files2, (match (if attached rc0 then ContainerAttach con else None) with
    | Some e => ((s1, tr1), files2, Fail (ErrorfV "failed to attach to container" e))
    | None => match ContainerStart (s1, tr1) id with
       | (s2, Some e) => (s2, files2, Fail (Errorf ("Status: , Code: " +:+ Itoa (runStartContainerErr (error_text con e)))))
       | (s2, None) => (s2, files2, after_start con rc0) end end) = ((s', tr'), files', r) →
    extends tr tr' ∧ (r = Ret tt → user_started tr' rc)) as Hstart.
  { intros files2 E2. destruct (if attached rc0 then _ else _); [by injection E2 as <- <- <- <-|].
    cbn [ContainerStart recorder fst snd] in E2. destruct (ContainerStart s1 id) as [s2 st].
    assert (tr' = (tr1 ++ [Started id st])%list) as -> by (by destruct st; injection E2 as _ <- _ _). split.
    - etrans; [exact Hx|]. apply extends_snoc. apply created_snoc.
    - intros ->. destruct st; [discriminate E2|]. exists rc1, id, before, [], []. unfold tr1.
      rewrite <-app_assoc, Eo. split; [done|]. split; [congruence|]. by rewrite Eh1, Eh. }
  destruct cid as [path|]; [|by apply (Hstart files1)].
  destruct (cid_write env path); [by injection E as <- <- <- <-|by eapply Hstart].
Qed.

(** The loop: what is not yet run, last first, and what has been up. *)
Lemma run_loop_recorded env con local vol fuel todo up_ s tr files s' tr' files' r :
  l = (rev todo ++ up_)%list → (todo = [] → up_ = []) → Forall (up tr) up_ → orderly l tr →
  run_loop env con local vol fuel (s, tr) files todo = Some ((s', tr'), files', r) →
  orderly l tr' ∧ (r = Ret tt → ∀ main rest, l = main :: rest → user_started tr' main ∧ Forall (up tr') rest).
Proof.
  revert up_ s tr. induction todo as [|rc todo IH]; intros up_ s tr El Hne Hup Ho E.
  - injection E as <- <- <- <-. split; [done|]. intros _ main rest Hl. rewrite Hne in El by done. by rewrite Hl in El.
  - assert (at_turn rc tr) as Ht.
    { exists (rev todo), rc, up_. split; [|done]. rewrite El. cbn [rev]. by rewrite <-app_assoc. }
    destruct todo as [|rc2 todo].
    { cbn [run_loop] in E. apply (inj Some) in E. apply runFirst_recorded in E as [Hx Hok]; [|done].
      destruct (Hx Ho) as [Ho' [k ->]]. split; [done|]. intros Hr main rest Hl. rewrite El in Hl. injection Hl as <- <-.
      split; [by apply Hok|]. eapply Forall_impl; [exact Hup|]. intros x. apply up_app. }
    remember (rc2 :: todo) as todo1 eqn:Etodo. cbn [run_loop] in E. rewrite Etodo in E.
    destruct (run_or_copy local vol fuel (s, tr) rc) as [[[s1 tr1] r1]|] eqn:E1; [|discriminate E].
    apply run_or_copy_recorded in E1 as [Hx Hok]; [|done..]. destruct (Hx Ho) as [Ho' [k Ek]].
    destruct r1 as [[]|e|]; [|injection E as <- <- <- <-; by split..]. rewrite <-Etodo in E.
    apply (IH (rc :: up_) s1 tr1); [|by rewrite Etodo| |done|done].
    + rewrite El. cbn [rev]. by rewrite <-app_assoc.
    + constructor; [by apply Hok|]. rewrite Ek. eapply Forall_impl; [exact Hup|]. intros x. apply up_app.
Qed.
End recorded.

(** ** What the engine answers *)

(** Waiting is not in vain within [fuel] looks: a container that was started is at last
    reported running or ended (or the engine fails to answer), a command that was started
    ends.  Nothing else is asked of the engine: it may refuse to create or to start, and
    containers may end at any time.  [Lstat] and the archiver do not panic. *)
Record Answers {S} `{Engine S} (local : LocalFiles) (fuel : nat) : Prop := {
  start_settles s s' id : ContainerStart s id = (s', None) → is_Some (wait_running fuel s' id);
  exec_settles s s' ex : ContainerExecStart s ex = (s', None) → is_Some (wait_exec fuel s' ex);
  exec_answers s id cmd : (ContainerExecCreate s id cmd).2 ≠ Panic;
  lstat_answers src : Lstat local src ≠ Panic;
  archive_answers src dst : Archive local src dst ≠ Panic }.

Section ends.
Context {S : Type} `{Engine S}.
Variables (local : LocalFiles) (fuel : nat).
Hypothesis Hans : Answers (S := S) local fuel.

Lemma wait_running_ends n s tr id : is_Some (wait_running n s id) → is_Some (wait_running n (s, tr) id).
Proof.
  revert s tr. induction n as [|n IH]; intros s tr; [by intros []|]. cbn [wait_running].
  cbn [ContainerInspect recorder fst snd]. destruct (ContainerInspect s id) as [s1 o].
  destruct (poll o); [by eexists|apply IH].
Qed.

Lemma wait_exec_ends n s tr ex : is_Some (wait_exec n s ex) → is_Some (wait_exec n (s, tr) ex).
Proof.
  revert s. induction n as [|n IH]; intros s; [by intros []|]. cbn [wait_exec].
  cbn [ContainerExecInspect recorder fst snd]. destruct (ContainerExecInspect s ex) as [s1 [[]| |]];
    first [by apply IH|by eexists].
Qed.

Lemma run_ends s tr rc : is_Some (run fuel (s, tr) rc).
Proof.
  unfold run. destruct (need_pull _ _) as [np|e|]; [|by eexists..].
  destruct (if np then _ else _) as [[s0 tr0] [e|]]; [by eexists|].
  destruct (ContainerCreate (s0, tr0) _ _ _) as [[s1 tr1] [id|e|]]; [|by eexists..].
  cbn [ContainerStart recorder fst snd]. destruct (ContainerStart s1 id) as [s2 [e|]] eqn:E; [by eexists|].
  destruct (wait_running_ends fuel s2 (tr1 ++ [Started id None])%list id (start_settles _ _ Hans _ _ _ E)) as [[s3 [e|]] ->];
    by eexists.
Qed.

Lemma copyToContainer_ends s tr id vol : is_Some (copyToContainer local fuel (s, tr) id vol).
Proof.
  revert s tr. induction vol as [|v vol IH]; intros s tr; [by eexists|]. cbn [copyToContainer].
  assert (is_Some (createFolder local fuel (s, tr) id (mt_Source v) (mt_Target v))) as [[[s1 tr1] fe] ->].
  { unfold createFolder. pose proof (lstat_answers _ _ Hans (mt_Source v)).
    destruct (Lstat local (mt_Source v)) as [dir|e|]; [|by eexists|done].
    cbn [ContainerExecCreate recorder fst snd]. set (cmd := ["mkdir"; "-p"; _]).
    pose proof (exec_answers _ _ Hans s id cmd) as Hx. destruct (ContainerExecCreate s id cmd) as [s2 [ex|e|]]; [|by eexists|done].
    cbn [ContainerExecStart recorder fst snd]. destruct (ContainerExecStart s2 ex) as [s3 [e|]] eqn:E; [by eexists|].
    destruct (wait_exec_ends fuel s3 (tr ++ [Executed id cmd])%list ex (exec_settles _ _ Hans _ _ _ E)) as [s4 ->].
    by eexists. }
  pose proof (archive_answers _ _ Hans (mt_Source v) (mt_Target v)).
  destruct (Archive local _ _) as [dir|e|]; [|by eexists|done].
  destruct (CopyToContainer (s1, tr1) id dir) as [[s2 tr2] ce]. apply IH.
Qed.

Lemma run_or_copy_ends vol s tr rc : is_Some (run_or_copy local vol fuel (s, tr) rc).
Proof.
  unfold run_or_copy. destruct (run_ends s tr rc) as [[[s1 tr1] [id|e|]] ->]; [by eexists| |by eexists].
  destruct (run_ends s1 tr1 (no_mounts rc)) as [[[s2 tr2] [id|e2|]] ->]; [|by eexists..].
  destruct (copyToContainer_ends s2 tr2 id (default [] (vol !! k8sContainerName rc))) as [[[s3 tr3] [e3|]] ->]; by eexists.
Qed.

Lemma run_loop_ends env con vol s tr files todo : is_Some (run_loop env con local vol fuel (s, tr) files todo).
Proof.
  revert s tr. induction todo as [|rc todo IH]; intros s tr; [by eexists|]. destruct todo as [|rc2 todo]; [by eexists|].
  remember (rc2 :: todo) as todo1 eqn:Etodo. cbn [run_loop]. rewrite Etodo.
  destruct (run_or_copy_ends vol s tr rc) as [[[s1 tr1] [[]|e|]] ->]; [|by eexists..]. rewrite <-Etodo. apply IH.
Qed.

End ends.

(** ** An engine *)

Record CInfo := MkCInfo { ci_name : string; ci_mode : string; ci_running : bool }.

(** Containers by identifier, images (all for one platform) and networks. *)
Record toy := MkToy { t_cs : gmap string CInfo; t_images : list string; t_networks : list NetworkResource }.

Definition by_name (cs : gmap string CInfo) (ref : string) : option string :=
  if bool_decide (is_Some (cs !! ref)) then Some ref
  else fst <$> find (λ p, String.eqb (ci_name p.2) ref) (map_to_list cs).

Definition ready_b (cs : gmap string CInfo) (mode : string) : bool :=
  negb (IsContainer mode) ||
  existsb (λ p, String.eqb (ci_name p.2) (ConnectedContainer mode) && ci_running p.2) (map_to_list cs).
Definition free_b (cs : gmap string CInfo) (name : string) : bool :=
  negb (existsb (λ p, String.eqb (ci_name p.2) name) (map_to_list cs)).
Definition fresh_id (cs : gmap string CInfo) : string := fresh (dom cs).

#[export] Instance toy_engine : Engine toy := {|
  ImageInspect s img := if bool_decide (img ∈ t_images s) then Ret ("linux", "amd64") else Fail NotFound;
  ImagePull s _ img := (MkToy (t_cs s) (img :: t_images s) (t_networks s), None);
  ContainerCreate s rc _ name :=
    if negb (bool_decide (Image (config rc) ∈ t_images s)) then (s, Fail NotFound)
    else if negb (free_b (t_cs s) name) then (s, Fail Conflict)
    else let id := fresh_id (t_cs s) in
      (MkToy (<[id := MkCInfo name (NetworkMode (hostConfig rc)) false]> (t_cs s)) (t_images s) (t_networks s), Ret id);
  ContainerStart s id :=
    match t_cs s !! id with
    | None => (s, Some NotFound)
    | Some c =>
        if ready_b (t_cs s) (ci_mode c)
        then (MkToy (<[id := MkCInfo (ci_name c) (ci_mode c) true]> (t_cs s)) (t_images s) (t_networks s), None)
        else (s, Some (Errorf "cannot join network of a non running container"))
    end;
  ContainerInspect s id :=
    match t_cs s !! id with
    | None => (s, Fail NotFound)
    | Some c => (s, Ret (Some (if ci_running c then MkState "running" true false else MkState "created" false false)))
    end;
  ContainerRemove s ref :=
    match by_name (t_cs s) ref with
    | Some id => (MkToy (delete id (t_cs s)) (t_images s) (t_networks s), None)
    | None => (s, Some NotFound)
    end;
  ContainerExecCreate s id _ := (s, Ret id);
  ContainerExecStart s _ := (s, None);
  ContainerExecInspect s _ := (s, Ret false);
  CopyToContainer s _ _ := (s, None);
  NetworkDisconnect s _ _ := (s, None);
  NetworkInspect s name := if existsb (λ n, String.eqb (n_Name n) name) (t_networks s) then Ret (size (t_cs s)) else Fail NotFound;
  NetworkRemove s name := (MkToy (t_cs s) (t_images s) (List.filter (λ n, negb (String.eqb (n_Name n) name)) (t_networks s)), None);
  NetworkList s := Ret (t_networks s);
  NetworkCreate s name l := (MkToy (t_cs s) (t_images s) (MkNetwork name name (Some l) :: t_networks s), Ret name);
  MemTotal _ := Ret (2 ^ 34)%Z;
|}.

Definition run_env : CreateEnv :=
  MkCreateEnv (λ _, Ret (Some true)) (λ _, Fail NotFound) (λ _, None) (λ _, Fail NotFound) true (λ _, None) (λ _, None).
Definition run_console : Console := MkConsole (λ _ _, None) None StreamEnded 0 (λ _, "").
Definition run_local : LocalFiles := MkLocal (λ _, Ret true) (λ _ t, Ret t).

Definition run_options : RunOptions := MkRunOptions "" "" true "missing" false true.
Definition run_dev : Options := MkDevOptions "agent" "shop:dev" run_options example_options.
Definition run_configs : list RunConfig :=
  match dev_configs (λ _, Fail NotFound) "default" example_template ∅ ∅ example_dns example_uuid run_dev example_config (Ret "net0") with
  | Ret (_, r) => r
  | _ => []
  end.
Definition toy0 : toy := MkToy ∅ ["shop:dev"; "nginx"] [].

Definition run_toy (s : toy) (l : list RunConfig) : option (toy * CidFiles * outcome unit) :=
  ConfigList_Run run_env run_console run_local ∅ 1 s ∅ l.

(** Started from the first container on, the network to join is not there. *)
Example ascending_order_fails :
  snd <$> run_toy toy0 (rev run_configs) = Some (Fail (Errorf "cannot join network of a non running container")).
Proof. vm_compute. reflexivity. Qed.

(** A container that was created and did not start keeps its name, unless it is removed
    automatically: the second attempt of [ConfigList.Run] cannot create it again. *)
Example retry_conflicts :
  ∃ s, run_or_copy run_local ∅ 1 (MkToy ∅ ["nginx"] [])
    (join_network "container:gone" None (convert_container "default" example_template ∅ ∅ example_dns None web)) =
    Some (s, Fail Conflict).
Proof. eexists. vm_compute. reflexivity. Qed.


Lemma toy_answers : Answers (S := toy) run_local 1.
Proof.
  split; cbn; try done.
  intros s s' id. destruct (t_cs s !! id) as [c|]; [|done]. destruct (ready_b _ _); [|done]. intros [= <-].
  cbn. rewrite lookup_insert_eq. by eexists.
Qed.

