(* ===== verification/DevMain.v ===== *)
(** * Development mode: from the command to the containers

    [DoDev], [doConnect] and [Options.Main] of [pkg/dev/main.go], [GetVolume] of
    [convert.go], [GetEnv] of [pkg/util/pod.go] and the command of
    [cmd/kubevpn/cmds/dev.go]: the cluster is connected from the host, by the daemon, or
    from a container; then the containers of the workload are configured ([Dev]) and run
    ([DevRun]).  What the cluster, the daemon and the terminal answer are inputs; the
    calls that matter for what is left behind are recorded. *)
From Stdlib Require Import Ascii ZArith Lia.
From stdpp Require Import base gmap strings numbers pretty list.
From S2P Require Import Prelude GoStrings GoPath Config ControlPlane Resolv Docker Dev DevRun.
From stdpp Require Import list.
Local Open Scope string_scope.

(** ** What a pod tells *)

(** [util.GetEnv]: the output of [env] in every container. *)
Fixpoint GetEnv (Shell : string → outcome string) (cs : list Container) (result : gmap string (list string))
    : outcome (gmap string (list string)) :=
  match cs with
  | [] => Ret result
  | c :: cs => env ← Shell (dc_Name c); GetEnv Shell cs (<[dc_Name c := Split "010" env]> result)
  end.

(** What is undone at the end, in order. *)
Inductive rollback := RemoveAll (path : string) | RemoveList (l : list RunConfig) | CloseHandler (id : string).

(** Directories with a random name, and the copy of a path of a container. *)
Record VolumeEnv := MkVolumeEnv {
  TempDir : string; rand_Int : nat → Z; MkdirAll : string → option error;
  copy_Complete : string → string → option error; copy_Run : string → string → option error }.

(** The mounts of a container, the rollbacks and the number of random names used. *)
Fixpoint volume_loop (env : VolumeEnv) (ns pod : string) (vs : list VolumeMount) (m : list Mount) (rb : list rollback)
    (n : nat) : outcome (list Mount) * list rollback * nat :=
  match vs with
  | [] => (Ret m, rb, n)
  | v :: vs =>
      if String.eqb (vm_MountPath v) "/tmp" then volume_loop env ns pod vs m rb n
      else
        let join := PathJoin (TempDir env) (Itoa (rand_Int env n)) in
        match MkdirAll env join with
        | Some e => (Fail e, rb, S n)
        | None =>
            let join := if given (vm_SubPath v) then PathJoin join (vm_SubPath v) else join in
            let rb := (rb ++ [RemoveAll join])%list in
            let remotePath := ns +:+ "/" +:+ pod +:+ ":" +:+ vm_MountPath v in
            match copy_Complete env remotePath join with
            | Some e => (Fail e, rb, S n)
            | None =>
                match copy_Run env remotePath join with
                | Some _ => volume_loop env ns pod vs m rb (S n)
                | None => volume_loop env ns pod vs (m ++ [MkMount "bind" join (vm_MountPath v) false])%list rb (S n)
                end
            end
        end
  end.

Fixpoint GetVolume_go (env : VolumeEnv) (ns pod : string) (cs : list Container) (result : gmap string (list Mount))
    (rb : list rollback) (n : nat) : outcome (gmap string (list Mount)) * list rollback :=
  match cs with
  | [] => (Ret result, rb)
  | c :: cs =>
      if bool_decide (dc_Name c ∈ [ContainerSidecarVPN; ContainerSidecarEnvoyProxy])
      then GetVolume_go env ns pod cs result rb n
      else match volume_loop env ns pod (dc_VolumeMounts c) [] rb n with
           | (Ret m, rb, n) => GetVolume_go env ns pod cs (<[dc_Name c := m]> result) rb n
           | (Fail e, rb, _) => (Fail e, rb)
           | (Panic, rb, _) => (Panic, rb)
           end
  end.
Definition GetVolume (env : VolumeEnv) (ns pod : string) (cs : outcome (list Container)) (rb : list rollback)
    : outcome (gmap string (list Mount)) * list rollback :=
  match cs with
  | Ret cs => GetVolume_go env ns pod cs ∅ rb 0
  | Fail e => (Fail e, rb)
  | Panic => (Panic, rb)
  end.

(** ** Running the workload *)

(** What [Options.Main] finds in the cluster: the template of the workload, its first
    running pod with its containers, and the configuration of its resolver. *)
Record MainInput := MkMainInput {
  in_template : outcome PodTemplate; in_pod : outcome string; in_Shell : string → outcome string;
  in_containers : outcome (list Container); in_dns : outcome ClientConfig; in_volume : VolumeEnv;
  in_uuids : nat → option string; in_terminal : string → option error }.

Section main.
Context {S : Type} `{Engine S}.
Context (parsePlatform : string → outcome Platform) (cenv : CreateEnv) (con : Console) (local : LocalFiles).

(** The state of the engine, the files of identifiers, the rollbacks and the result. *)
Definition main_state : Type := S * CidFiles * list rollback * outcome unit.

Definition Main_configured (fuel : nat) (d : Options) (ns : string) (cc : containerConfig) (i : MainInput) (temp : PodTemplate)
    (env : gmap string (list string)) (volume : gmap string (list Mount)) (dns : ClientConfig)
    (s : S) (files : CidFiles) (rb : list rollback) : option main_state :=
  let temp := RemoveContainers temp in
  let r := ConvertKubeResourceToContainer ns temp env volume dns (in_uuids i) in
  match mergeDockerOptions parsePlatform (pt_Labels temp) r d cc with
  | Fail e => Some (s, files, rb, Fail e)
  | Panic => Some (s, files, rb, Panic)
  | Ret (_, r) =>
      match checkOutOfMemory s temp with
      | Ret true => Some (s, files, rb, Fail (Errorf "your pod resource request is bigger than docker-desktop resource, please adjust your docker-desktop resource"))
      | _ =>
          let '(s, networkID) := if nonempty (co_netMode (d_Copts d)) then (s, Ret "") else createKubevpnNetwork s in
          match share_network (co_netMode (d_Copts d)) networkID r with
          | Fail e => Some (s, files, rb, Fail e)
          | Panic => Some (s, files, rb, Panic)
          | Ret r =>
              let rb := (rb ++ [RemoveList r])%list in
              match ConfigList_Run cenv con local volume fuel s files r with
              | None => None
              | Some (s, files, Ret _) =>
                  Some (s, files, rb, match r with
                                      | rc :: _ => match in_terminal i (containerName rc) with Some e => Fail e | None => Ret tt end
                                      | [] => Panic
                                      end)
              | Some (s, files, o) => Some (s, files, rb, o)
              end
          end
      end
  end.

Definition Main (fuel : nat) (d : Options) (ns : string) (cc : containerConfig) (i : MainInput)
    (s : S) (files : CidFiles) (rb : list rollback) : option main_state :=
  match (temp ← in_template i; pod ← in_pod i; cs ← in_containers i; env ← GetEnv (in_Shell i) cs ∅; Ret (temp, pod, env)) with
  | Fail e => Some (s, files, rb, Fail e)
  | Panic => Some (s, files, rb, Panic)
  | Ret (temp, pod, env) =>
      match GetVolume (in_volume i) ns pod (in_containers i) rb with
      | (Fail e, rb) => Some (s, files, rb, Fail e)
      | (Panic, rb) => Some (s, files, rb, Panic)
      | (Ret volume, rb) =>
          match in_dns i with
          | Fail e => Some (s, files, rb, Fail e)
          | Panic => Some (s, files, rb, Panic)
          | Ret dns => Main_configured fuel d ns cc i temp env volume dns s files rb
          end
      end
  end.

(** ** Connecting *)

Inductive ConnectMode := ModeHost | ModeContainer | ModeOther (m : string).

(** The calls that change what is left when the command ends. *)
Inductive call := CallProxy (workloads : list string) | CallDisconnect (id : Z).

(** The connection options of the command. *)
Record DevConnect := MkDevConnect {
  dv_Mode : ConnectMode; dv_NoProxy : bool; dv_Headers : list (string * string); dv_ExtraCIDR : list string;
  dv_ExtraDomain : list string; dv_Engine : string; dv_Image : string }.

(** What connecting is told: the namespace of the client, the resolved workloads, whether the
    daemon is there and how the stream of its answers ends, the path of the kubeconfig, the
    logs of the connecting container and a new identifier. *)
Inductive logs := Enjoy | LogError (e : error) | LogCanceled.
Record ConnectInput := MkConnectInput {
  ci_InitClient : outcome string; ci_PreCheck : outcome (list string); ci_daemon : bool;
  ci_kubeconfig : outcome string; ci_Proxy : option error; ci_Recv : option error; ci_path : outcome string;
  ci_logs : string → outcome logs; ci_uuid : option string }.

Definition extra_flags (c : DevConnect) : list string :=
  (dv_ExtraCIDR c ≫= λ v, ["--extra-cidr"; v]) ++ (dv_ExtraDomain c ≫= λ v, ["--extra-domain"; v]).
Definition common_flags (c : DevConnect) (ns : string) : list string :=
  ["--foreground"; "-n"; ns; "--kubeconfig"; "/root/.kube/config"; "--image"; dv_Image c; "--engine"; dv_Engine c].
Definition connect_entrypoint (c : DevConnect) (ns : string) (workloads : list string) : outcome (list string) :=
  if dv_NoProxy c then Ret (["kubevpn"; "connect"] ++ common_flags c ns ++ extra_flags c)%list
  else match workloads with
       | [] => Panic
       | w :: _ => Ret (["kubevpn"; "proxy"; w] ++ common_flags c ns ++
                        (dv_Headers c ≫= λ h, ["--headers"; (h.1 +:+ "=" +:+ h.2)%string]) ++ extra_flags c)%list
       end.

Definition createConnectContainer (c : DevConnect) (ns : string) (workloads : list string) (path : string)
    (uuid : option string) (p : option Platform) (s : S) : S * outcome RunConfig :=
  match connect_entrypoint c ns workloads with
  | Fail e => (s, Fail e)
  | Panic => (s, Panic)
  | Ret entrypoint =>
      match createKubevpnNetwork s with
      | (s, Fail e) => (s, Fail e)
      | (s, Panic) => (s, Panic)
      | (s, Ret network) =>
          let name := "kubevpn_local_" +:+ uuid_suffix uuid in
          let conf := MkConfig "" "" "root" false false false None false false false ["DEPTH_SIGNED_BY_NAISON=1"] [] None
            (dv_Image c) None "" entrypoint "" (OwnLabels ∅) "" None in
          let rest := empty_rest [] in
          let host := MkHostConfig [path +:+ ":" +:+ "/root/.kube/config"] "" None false []
            ["SYS_PTRACE"; "SYS_ADMIN"] [] [] [] "" true false ["apparmor=unconfined"; "seccomp=unconfined"] []
            (MkHostRest "" 0 [] ["host.docker.internal:host-gateway"; "kubernetes:host-gateway"] "" "" "" "" [] []
              (MkRestart "" 0) ∅ false "" ∅ "" "" 0 (hr_Resources rest) [] ∅
              {["net.ipv6.conf.all.disable_ipv6" := "0"]} "" None None None) in
          (s, Ret (MkRunConfig name name conf host (Some {[name := MkEndpoint [] ∅ [] None network]}) p zero_options None))
      end
  end.

(** The workload and the workloads to connect for. *)
Definition dev_workload (c : DevConnect) (i : ConnectInput) : outcome (string * string * list string) :=
  ns ← ci_InitClient i;
  ws ← ci_PreCheck i;
  match ws with
  | [] => Fail (Errorf "you must provide resource to dev")
  | [w] => if dv_NoProxy c then
             if nonempty (dv_Headers c) then Fail (Errorf "not needs to provide headers if is no-proxy mode")
             else Ret (ns, w, [])
           else Ret (ns, w, ws)
  | _ => Fail (Errorf "can only dev one workloads at same time")
  end.

(** [netMode.Set]: another network. *)
Definition add_network (target : string) (netMode : list NetworkAttachmentOpts) : list NetworkAttachmentOpts :=
  (netMode ++ [MkAttachment target [] ∅ [] "" "" []])%list.

(** What [doConnect] leaves: the engine, the calls, the rollbacks, the networks of the
    options, whether there is a function to disconnect, and the namespace or the error. *)
Record Connected := MkConnected {
  cd_engine : S; cd_calls : list call; cd_rollbacks : list rollback; cd_netMode : list NetworkAttachmentOpts;
  cd_cancel : bool; cd_result : outcome (string * string) }.

Definition connect_host (i : ConnectInput) (ns w : string) (workloads : list string) (s : S) (rb : list rollback)
    (netMode : list NetworkAttachmentOpts) : Connected :=
  if negb (ci_daemon i) then MkConnected s [] rb netMode false (Fail (Errorf "get nil daemon client"))
  else match ci_kubeconfig i with
       | Fail e => MkConnected s [] rb netMode false (Fail e)
       | Panic => MkConnected s [] rb netMode false Panic
       | Ret _ =>
           match ci_Proxy i with
           | Some e => MkConnected s [CallProxy workloads] rb netMode true (Fail e)
           | None => MkConnected s [CallProxy workloads] rb netMode true
                       match ci_Recv i with Some e => Fail e | None => Ret (ns, w) end
           end
       end.

Definition connect_container (fuel : nat) (d : Options) (c : DevConnect) (i : ConnectInput) (ns w : string)
    (workloads : list string) (s : S) (rb : list rollback) (netMode : list NetworkAttachmentOpts) : option Connected :=
  let failed s rb o := Some (MkConnected s [] rb netMode false o) in
  match ci_path i with
  | Fail e => failed s rb (Fail e)
  | Panic => failed s rb Panic
  | Ret path =>
      match (if given (ro_Platform (RunOpts d)) then
               match parsePlatform (ro_Platform (RunOpts d)) with
               | Ret p => Ret p | Fail e => Fail (ErrorfV "error parsing specified platform" e) | Panic => Panic end
             else Ret (MkPlatform "" "" "")) with
      | Fail e => failed s rb (Fail e)
      | Panic => failed s rb Panic
      | Ret p =>
          match createConnectContainer c ns workloads path (ci_uuid i) (Some p) s with
          | (s, Fail e) => failed s rb (Fail e)
          | (s, Panic) => failed s rb Panic
          | (s, Ret rc) =>
              match run fuel s rc with
              | None => None
              | Some (s, Fail e) => failed s rb (Fail e)
              | Some (s, Panic) => failed s rb Panic
              | Some (s, Ret id) =>
                  let rb := (rb ++ [CloseHandler id])%list in
                  match ci_logs i id with
                  | Fail e => failed s rb (Fail e)
                  | Panic => failed s rb Panic
                  | Ret LogCanceled => failed s rb (Ret (ns, w))
                  | Ret (LogError e) => failed s rb (Fail e)
                  | Ret Enjoy => Some (MkConnected s [] rb (add_network ("container:" +:+ id) netMode) false (Ret (ns, w)))
                  end
              end
          end
      end
  end.

Definition doConnect (fuel : nat) (d : Options) (c : DevConnect) (i : ConnectInput) (s : S) (rb : list rollback)
    (netMode : list NetworkAttachmentOpts) : option Connected :=
  match dev_workload c i with
  | Fail e => Some (MkConnected s [] rb netMode false (Fail e))
  | Panic => Some (MkConnected s [] rb netMode false Panic)
  | Ret (ns, w, workloads) =>
      match dv_Mode c with
      | ModeHost => Some (connect_host i ns w workloads s rb netMode)
      | ModeContainer => connect_container fuel d c i ns w workloads s rb netMode
      | ModeOther m => Some (MkConnected s [] rb netMode false (Fail (Errorf ("unsupport connect mode: " +:+ m))))
      end
  end.
End main.
Arguments Connected : clear implicits.

(** ** The command *)

(** The parser of the options with the files and flags it reads, the proxy settings of the
    docker client and the version of its API. *)
Record ParseEnv := MkParseEnv {
  pe_mac : string → bool; pe_volume : string → string * string; pe_abs : string → option string;
  pe_envkv : list string → list string → outcome (list string); pe_kv : list string → list string → outcome (list string);
  pe_ReadFile : string → error + string; pe_Compact : string → error + string; pe_order : list string → list string;
  pe_changed : string → bool; pe_serverOS : string; pe_proxy : list string → list string;
  pe_LessThan : string → string → bool; pe_APIVersion : string }.

Definition parse_in (e : ParseEnv) (c : ContainerOptions) : outcome containerConfig :=
  parse (pe_mac e) (pe_volume e) (pe_abs e) (pe_envkv e) (pe_kv e) (pe_ReadFile e) (pe_Compact e) (pe_order e)
    (pe_changed e) c (pe_serverOS e).

Definition with_env_net (env : list string) (net : list NetworkAttachmentOpts) (c : ContainerOptions) : ContainerOptions :=
  MkOptions (co_attach c) (co_volumes c) (co_tmpfs c) (co_mounts c) env (co_envFile c) (co_labels c) (co_labelsFile c)
    (co_devices c) (co_publish c) (co_expose c) (co_dns c) (co_dnsSearch c) (co_dnsOptions c) (co_extraHosts c)
    (co_volumesFrom c) (co_capAdd c) (co_capDrop c) (co_groupAdd c) (co_securityOpt c) (co_storageOpt c)
    (co_loggingOpts c) (co_sysctls c) (co_privileged c) (co_pidMode c) (co_utsMode c) (co_usernsMode c)
    (co_cgroupnsMode c) (co_publishAll c) (co_stdin c) (co_tty c) (co_oomScoreAdj c) (co_containerIDFile c)
    (co_entrypoint c) (co_hostname c) (co_domainname c) (co_user c) (co_workingDir c) net (co_netFlags c)
    (co_macAddress c) (co_ipcMode c) (co_restartPolicy c) (co_readonlyRootfs c) (co_loggingDriver c)
    (co_volumeDriver c) (co_stopSignal c) (co_stopTimeout c) (co_isolation c) (co_shmSize c) (co_noHealthcheck c)
    (co_healthCmd c) (co_healthInterval c) (co_healthTimeout c) (co_healthStartPeriod c) (co_healthRetries c)
    (co_runtime c) (co_autoRemove c) (co_init c) (co_resources c) (co_Image c) (co_Args c).

Section dev.
Context {S : Type} `{Engine S}.
Context (parsePlatform : string → outcome Platform) (cenv : CreateEnv) (con : Console) (local : LocalFiles) (pe : ParseEnv).

(** The networks of the options once the surroundings are checked: the container that is
    named must run, and within a container its network is used. *)
Definition check_network (hostname : option (outcome string)) (s : S) (netMode : list NetworkAttachmentOpts)
    : S * outcome (list NetworkAttachmentOpts) :=
  let mode := netMode_NetworkMode netMode in
  if IsContainer mode then
    match ContainerInspect s (ConnectedContainer mode) with
    | (s, Fail e) => (s, Fail e)
    | (s, Panic) => (s, Panic)
    | (s, Ret None) => (s, Fail (Errorf "can not get container status, please make contianer name is valid"))
    | (s, Ret (Some st)) =>
        if Running st then (s, Ret netMode)
        else (s, Fail (Errorf "container status is not running, please make sure your outer docker name is correct"))
    end
  else if String.eqb mode "default" then
    match hostname with
    | None => (s, Ret netMode)
    | Some (Ret h) => (s, Ret (add_network ("container:" +:+ h) netMode))
    | Some (Fail e) => (s, Fail e)
    | Some Panic => (s, Panic)
    end
  else (s, Ret netMode).

(** What [DoDev] leaves. *)
Record Done := MkDone {
  dn_engine : S; dn_files : CidFiles; dn_calls : list call; dn_rollbacks : list rollback; dn_result : outcome unit }.

(** After connecting: the options are parsed and the workload runs. *)
Definition dev_connected (fuel : nat) (d : Options) (ns : string) (i : MainInput) (s : S) (files : CidFiles)
    (rb : list rollback) (netMode : list NetworkAttachmentOpts) : option (main_state (S := S)) :=
  match validatePullOpt (ro_Pull (RunOpts d)) with
  | Some e => Some (s, files, rb, Fail e)
  | None =>
      let copts := with_env_net (pe_proxy pe (co_env (d_Copts d))) netMode (d_Copts d) in
      match parse_in pe copts with
      | Fail e => Some (s, files, rb, Fail e)
      | Panic => Some (s, files, rb, Panic)
      | Ret cc =>
          match validateAPIVersion (pe_LessThan pe) cc (pe_APIVersion pe) with
          | Some e => Some (s, files, rb, Fail e)
          | None =>
              let d := MkDevOptions (ContainerName d) (DockerImage d) (RunOpts d) copts in
              Main parsePlatform cenv con local fuel d ns cc i s files rb
          end
      end
  end.

(** [hostname] is given within a container. *)
Definition DoDev (fuel : nat) (d : Options) (c : DevConnect) (ci : ConnectInput) (i : MainInput)
    (hostname : option (outcome string)) (s : S) (files : CidFiles) : option Done :=
  match check_network hostname s (co_netMode (d_Copts d)) with
  | (s, Fail e) => Some (MkDone s files [] [] (Fail e))
  | (s, Panic) => Some (MkDone s files [] [] Panic)
  | (s, Ret netMode) =>
      cd ← doConnect parsePlatform fuel d c ci s [] netMode;
      match cd_result cd with
      | Fail e => Some (MkDone (cd_engine cd) files (cd_calls cd) (cd_rollbacks cd) (Fail e))
      | Panic => Some (MkDone (cd_engine cd) files (cd_calls cd) (cd_rollbacks cd) Panic)
      | Ret (ns, _) =>
          '(s, files, rb, o) ← dev_connected fuel d ns i (cd_engine cd) files (cd_rollbacks cd) (cd_netMode cd);
          Some (MkDone s files (cd_calls cd ++ (if cd_cancel cd then [CallDisconnect 0] else []))%list rb o)
      end
  end.

(** The rollbacks of the command; the error of the command is the last that was set. *)
Fixpoint run_rollbacks (undo : rollback → S → S * option error) (rb : list rollback) (s : S) (err : option error)
    : S * option error :=
  match rb with
  | [] => (s, err)
  | f :: rb => let '(s, err) := undo f s in run_rollbacks undo rb s err
  end.

Definition dev_RunE (undo : rollback → S → S * option error) (dn : Done) : S * option error :=
  run_rollbacks undo (dn_rollbacks dn) (dn_engine dn)
    match dn_result dn with Fail e => Some e | _ => None end.

(** ** Lemmas *)

Lemma run_rollbacks_last undo rb s err :
  rb ≠ [] → ∃ s', (run_rollbacks undo rb s err).2 = (undo (List.last rb (CloseHandler "")) s').2.
Proof.
  revert s err. induction rb as [|f rb IH]; intros s err Hne; [done|]. cbn [run_rollbacks].
  destruct (undo f s) as [s1 e1] eqn:E. destruct rb as [|g rb].
  - exists s. cbn. by rewrite E.
  - destruct (IH s1 e1) as (s' & Hs); [done|]. by exists s'.
Qed.

(**  The command's result: with something to roll back it is the result of the last
    rollback, whatever [DoDev] returned; an error of [DoDev] is reported only when there
    was nothing to roll back. *)
Theorem dev_error_lost undo dn :
  (dn_rollbacks dn = [] → (dev_RunE undo dn).2 = match dn_result dn with Fail e => Some e | _ => None end) ∧
  (dn_rollbacks dn ≠ [] →
   (∀ f s, (undo f s).2 = None) → (dev_RunE undo dn).2 = None).
Proof.
  split; unfold dev_RunE.
  - by intros ->.
  - intros Hne Hu. destruct (run_rollbacks_last undo (dn_rollbacks dn) (dn_engine dn)
      match dn_result dn with Fail e => Some e | _ => None end Hne) as (s' & ->). apply Hu.
Qed.

Lemma doConnect_host fuel d c ci s rb nets cd :
  dv_Mode c = ModeHost → doConnect parsePlatform fuel d c ci s rb nets = Some cd →
  (cd_calls cd = [] ∧ returns (cd_result cd) = false) ∨
  (∃ ws, cd_calls cd = [CallProxy ws] ∧ cd_cancel cd = true ∧
    (returns (cd_result cd) = true ↔ ci_Proxy ci = None ∧ ci_Recv ci = None)).
Proof.
  intros Hm. unfold doConnect. destruct (dev_workload c ci) as [[[ns w] ws]|e|]; [|by intros [= <-]; left..].
  rewrite Hm. intros [= <-]. unfold connect_host. destruct (ci_daemon ci); [|by left]. cbn [negb].
  destruct (ci_kubeconfig ci); [|by left..]. right. exists ws.
  destruct (ci_Proxy ci), (ci_Recv ci); cbn; split; [done| |done| |done| |done|]; (split; [done|]); split; naive_solver.
Qed.

(**  In host mode the daemon is asked to disconnect at the end of the command exactly
    when its stream of answers ended well, however the rest of the command ends: a
    connection whose stream broke is left to the daemon. *)
Theorem dev_disconnects fuel d c ci i hostname s files dn
    (Hm : dv_Mode c = ModeHost)
    (Hd : DoDev fuel d c ci i hostname s files = Some dn) :
  dn_calls dn = [] ∨
  ∃ ws, dn_calls dn = if bool_decide (ci_Proxy ci = None ∧ ci_Recv ci = None)
                      then [CallProxy ws; CallDisconnect 0] else [CallProxy ws].
Proof.
  unfold DoDev in Hd. destruct (check_network hostname s _) as [s' [nets|e|]]; [|by injection Hd as <-; left..].
  destruct (doConnect _ fuel d c ci s' [] nets) as [cd|] eqn:Ec; [|done]. cbn [mbind option_bind] in Hd.
  destruct (doConnect_host _ _ _ _ _ _ _ _ Hm Ec) as [[Hc Hr]|(ws & Hc & Hcan & Hr)].
  - left. destruct (cd_result cd) as [[ns w]|e|]; [done|by injection Hd as <-..].
  - right. exists ws. rewrite Hc, Hcan in Hd.
    destruct (cd_result cd) as [[ns w]|e|].
    + destruct (dev_connected _ _ _ _ _ _ _ _) as [[[[? ?] ?] ?]|]; [|done]. injection Hd as <-.
      rewrite bool_decide_eq_true_2; [done|by apply Hr].
    + injection Hd as <-. rewrite bool_decide_eq_false_2; [done|]. intros Hn. apply Hr in Hn. done.
    + injection Hd as <-. rewrite bool_decide_eq_false_2; [done|]. intros Hn. apply Hr in Hn. done.
Qed.
End dev.

(** With a network of the user, the network of the connecting container comes second: it is
    not used, and together with a user-defined network it is refused. *)
Lemma user_network_first target nets : nets ≠ [] → netMode_NetworkMode (add_network target nets) = netMode_NetworkMode nets.
Proof. by destruct nets. Qed.

Lemma user_network_conflict pe c n id :
  IsUserDefined (Target n) = true → co_netMode c = add_network ("container:" +:+ id) [n] → returns (parse_in pe c) = false.
Proof.
  intros Hu Hn. destruct (parse_in pe c) as [cc|e|] eqn:E; [|done..]. unfold parse_in in E.
  apply parse_inv in E as (P & B & labs & rp & Hp).
  destruct (parseNetworkOpts_spec _ _ _ (parsed_networks _ _ _ _ _ _ _ Hp)) as [[Hk|Hk] _]; rewrite Hn in Hk.
  - specialize (Hk (MkAttachment ("container:" +:+ id) [] ∅ [] "" "" [])).
    assert (IsUserDefined ("container:" +:+ id) = true) as Hc by (apply Hk; unfold add_network; set_solver).
    unfold IsUserDefined, IsContainer in Hc.
    change ("container:" +:+ id) with ("container" +:+ String ":" id) in Hc. rewrite Cut_split in Hc by done.
    by rewrite andb_false_r in Hc.
  - rewrite (Hk n) in Hu; [done|]. unfold add_network. set_solver.
Qed.

(** ** A run of the command *)

Definition dev_pe : ParseEnv :=
  MkParseEnv (λ _, true) (λ v, (v, "volume")) Some (λ _ l, Ret l) (λ _ l, Ret l) (λ _, inl NotFound) (λ s, inr s) id
    (λ _, false) "linux" id (λ _ _, false) "1.43".
Definition dev_volumes : VolumeEnv := MkVolumeEnv "/tmp" Z.of_nat (λ _, None) (λ _ _, None) (λ _ _, None).
Definition dev_input : MainInput :=
  MkMainInput (Ret example_template) (Ret "shop-1") (λ _, Ret "A=1") (Ret [web; agent; vpn]) (Ret example_dns) dev_volumes
    example_uuid (λ _, None).
Definition dev_connect : DevConnect := MkDevConnect ModeHost false [] [] [] "raw" "kubevpn".
Definition dev_cluster (recv : option error) : ConnectInput :=
  MkConnectInput (Ret "default") (Ret ["deployments.apps/shop"]) true (Ret "kubeconfig") None recv (Ret "/kube")
    (λ _, Ret Enjoy) None.

Definition dev_run (recv : option error) : option (Done (S := toy)) :=
  DoDev (λ _, Fail NotFound) run_env run_console run_local dev_pe 1 run_dev dev_connect (dev_cluster recv) dev_input None
    toy0 ∅.

Definition calls_result (dn : Done (S := toy)) : list call * outcome unit := (dn_calls dn, dn_result dn).

Example dev_run_ok :
  calls_result <$> dev_run None = Some ([CallProxy ["deployments.apps/shop"]; CallDisconnect 0], Ret tt).
Proof. vm_compute. reflexivity. Qed.

Lemma dev_run_broken :
  ∃ dn, dev_run (Some UnexpectedEOF) = Some dn ∧ dn_result dn = Fail UnexpectedEOF.
Proof. eexists. vm_compute. split; reflexivity. Qed.

Lemma dev_disconnects_witness :
  match dev_run (Some UnexpectedEOF) with
  | Some dn => dn_calls dn = [] ∨
      ∃ ws, dn_calls dn = if bool_decide ((None : option error) = None ∧ Some UnexpectedEOF = None)
                          then [CallProxy ws; CallDisconnect 0] else [CallProxy ws]
  | None => False
  end.
Proof.
  destruct (dev_run (Some UnexpectedEOF)) as [dn|] eqn:E; [|vm_compute in E; discriminate E]. unfold dev_run in E.
  exact (dev_disconnects _ _ _ _ _ 1 run_dev dev_connect (dev_cluster (Some UnexpectedEOF)) dev_input None toy0 ∅ dn eq_refl E).
Defined.
