(* ===== verification/Ssh.v ===== *)
(** * SSH jump hosts

    [pkg/util/ssh.go], [SshJump], [SshJumpAndSetEnv] and [GetKubeconfigPath] of
    [pkg/handler/connect.go] and [ConvertHost] of [pkg/dev/utils.go]: the hosts of an
    [ssh_config] alias are dialled one through the other, and the kubeconfig is rewritten
    so that the API server is reached through the forwarded port.  The SSH client, the
    files of the machine and the kubeconfig loader are parameters; [ssh_config]'s lookup
    is vendored with the program and modelled from its source. *)
From Stdlib Require Import Ascii ZArith Lia.
From stdpp Require Import base gmap strings numbers pretty list.
From S2P Require Import Prelude GoStrings GoNet GoPath Url Node.
From stdpp Require Import list.
Local Open Scope string_scope.

(** ** Configuration *)

Record SshConfig := MkSsh {
  Addr : string; User : string; Password : string; Keyfile : string; ConfigAlias : string; RemoteKubeconfig : string }.
(** The same fields in the request of the daemon. *)
Record rpc_SshJump := MkSshJump {
  j_Addr : string; j_User : string; j_Password : string; j_Keyfile : string; j_ConfigAlias : string;
  j_RemoteKubeconfig : string }.

Definition ParseSshFromRPC (sshJump : option rpc_SshJump) : SshConfig :=
  match sshJump with
  | None => MkSsh "" "" "" "" "" ""
  | Some j => MkSsh (j_Addr j) (j_User j) (j_Password j) (j_Keyfile j) (j_ConfigAlias j) (j_RemoteKubeconfig j)
  end.
Definition ToRPC (s : SshConfig) : rpc_SshJump :=
  MkSshJump (Addr s) (User s) (Password s) (Keyfile s) (ConfigAlias s) (RemoteKubeconfig s).

(** A node of a configuration file: a directive, or an included file by its lookup. *)
Inductive cfg_node := KV (key value : string) | Include (get : string → string → string).
Record Host := MkHost { Matches : string → bool; Nodes : list cfg_node }.

Fixpoint node_get (alias key : string) (ns : list cfg_node) : option string :=
  match ns with
  | [] => None
  | KV k v :: ns => if String.eqb (ToLower k) (ToLower key) then Some v else node_get alias key ns
  | Include get :: ns => let v := get alias key in if String.eqb v "" then node_get alias key ns else Some v
  end.

(** [Config.Get]: the empty string, without an error, when there is no value. *)
Fixpoint Config_Get (hosts : list Host) (alias key : string) : string :=
  match hosts with
  | [] => ""
  | h :: hosts =>
      if Matches h alias then match node_get alias key (Nodes h) with Some v => v | None => Config_Get hosts alias key end
      else Config_Get hosts alias key
  end.

Section ssh.
(** [confList], the files that could be read and decoded, and [ssh_config.Get]. *)
Context (confList : list (list Host)) (default_Get : string → string → string).

Definition conf_Get (alias key : string) : string :=
  match confList with
  | c :: _ => Config_Get c alias key
  | [] => default_Get alias key
  end.

Definition getBastion (name : string) : SshConfig :=
  let host := conf_Get name "Hostname" in
  let port := conf_Get name "Port" in
  let port := if String.eqb port "" then "22" else port in
  MkSsh (JoinHostPort host port) (conf_Get name "User") "" (conf_Get name "IdentityFile") name "".

(** ** Dialling *)

(** The home directory, absolute paths, keys from files; dialling a server directly and
    through a client. *)
Context (HomeDir : string) (Abs : string → outcome string) {Auth Client : Type}
  (ReadKey : string → outcome Auth)
  (ssh_Dial : string → string → Auth + string → outcome Client)
  (client_Dial : Client → string → outcome unit)
  (NewClientConn : Client → string → string → Auth → outcome Client).

Definition publicKeyFile (file : string) : outcome Auth :=
  let file := match file with String "~" rest => PathJoin HomeDir rest | _ => file end in
  match Abs file with
  | Ret file => match ReadKey file with Fail e => Fail (ErrorfV "Cannot read SSH public key file" e) | r => r end
  | Fail e => Fail (ErrorfV "Cannot read SSH public key file" e)
  | Panic => Panic
  end.

Definition dial (from : SshConfig) : outcome Client :=
  authMethod ← publicKeyFile (Keyfile from);
  ssh_Dial (Addr from) (User from) (inl authMethod).

Definition jump (bClient : Client) (to : SshConfig) : outcome Client :=
  _ ← client_Dial bClient (Addr to);
  authMethod ← publicKeyFile (Keyfile to);
  NewClientConn bClient (Addr to) (User to) authMethod.

(** The hosts from [name] to the last jump host; the loop of the source has no bound:
    [None] is running out of fuel. *)
Fixpoint bastions (fuel : nat) (name : string) : option (list SshConfig) :=
  match fuel with
  | O => None
  | S fuel =>
      let value := conf_Get name "ProxyJump" in
      if String.eqb value "" then Some [getBastion name]
      else l ← bastions fuel value; Some (getBastion name :: l)
  end.

(** The last host is dialled, the others through the one after it. *)
Fixpoint dial_back (l : list SshConfig) (client : option Client) : outcome (option Client) :=
  match l with
  | [] => Ret client
  | b :: l =>
      c ← (match client with None => dial b | Some c => jump c b end);
      dial_back l (Some c)
  end.
Definition jumpRecursion (fuel : nat) (name : string) : option (outcome (option Client)) :=
  l ← bastions fuel name; Some (dial_back (rev l) None).

(** The client, and the configuration with its defaults filled in. *)
Definition DialSshRemote (fuel : nat) (conf : SshConfig) : option (SshConfig * outcome (option Client)) :=
  if negb (String.eqb (ConfigAlias conf) "") then
    r ← jumpRecursion fuel (ConfigAlias conf); Some (conf, r)
  else
    let keyfile := if String.eqb (Password conf) "" && String.eqb (Keyfile conf) ""
                   then PathJoin (PathJoin HomeDir ".ssh") "id_rsa" else Keyfile conf in
    let conf := MkSsh (Addr conf) (User conf) (Password conf) keyfile (ConfigAlias conf) (RemoteKubeconfig conf) in
    match (if negb (String.eqb (Password conf) "") then Ret (inr (Password conf))
           else a ← publicKeyFile keyfile; Ret (inl a)) with
    | Fail e => Some (conf, Fail e)
    | Panic => Some (conf, Panic)
    | Ret auth =>
        let addr := if (Count ":" (Addr conf) =? 0)%nat then JoinHostPort (Addr conf) "22" else Addr conf in
        let conf := MkSsh addr (User conf) (Password conf) keyfile (ConfigAlias conf) (RemoteKubeconfig conf) in
        Some (conf, Some <$> ssh_Dial addr (User conf) auth)
    end.
End ssh.

(** ** Kubeconfig files *)

Record Cluster := MkCluster { Server : string; TLSServerName : string; cl_Rest : string }.
(** [Contexts] names the cluster of a context. *)
Record KubeConfig := MkKubeConfig {
  CurrentContext : string; Contexts : option (gmap string string); Clusters : gmap string Cluster }.

Definition invalid : error := Errorf "kubeconfig is invalid".

Definition current_cluster (c : KubeConfig) : outcome (string * Cluster) :=
  match Contexts c with
  | None => Fail invalid
  | Some ctxs =>
      match ctxs !! CurrentContext c with
      | None => Fail invalid
      | Some name => match Clusters c !! name with None => Fail invalid | Some cl => Ret (name, cl) end
      end
  end.

Definition set_cluster (name : string) (cl : Cluster) (c : KubeConfig) : KubeConfig :=
  MkKubeConfig (CurrentContext c) (Contexts c) (<[name := cl]> (Clusters c)).

(** [URL.Hostname] and [URL.Port] *)
Definition url_splitHostPort (hostPort : string) : string * string :=
  let '(host, port) := match LastIndex hostPort ":" with
    | Some colon => if validOptionalPort (str_drop colon hostPort)
                    then (str_take colon hostPort, str_drop (S colon) hostPort) else (hostPort, "")
    | None => (hostPort, "")
    end in
  (if HasPrefix host "[" && HasSuffix host "]" then str_drop 1 (str_take (String.length host - 1) host) else host, port).

(** [netip.ParseAddrPort]: the address and the port. *)
Definition ParseAddrPort (s : string) : option (IP * Z) :=
  i ← LastIndex s ":";
  let ip := str_take i s in
  let port := str_drop (S i) s in
  if String.eqb ip "" || String.eqb port "" then None
  else
    let bracket := HasPrefix ip "[" in
    if bracket && negb (HasSuffix ip "]") then None
    else
      let ip := if bracket then str_drop 1 (str_take (String.length ip - 1) ip) else ip in
      port ← ParseUint 16 port;
      addr ← ParseIP ip;
      if Bool.eqb bracket (bool_decide (is_Some (parseIPv4 ip))) then None else Some (addr, port).

Definition server_port (u : URL) : outcome string :=
  let port := snd (url_splitHostPort (u_Host u)) in
  if negb (String.eqb port "") then Ret port
  else if String.eqb (u_Scheme u) "https" then Ret "443"
  else if String.eqb (u_Scheme u) "http" then Ret "80"
  else Fail (Errorf "kubeconfig is invalid: wrong protocol").

(** Where the API server of a kubeconfig is: the remote end of the forward. *)
Definition remote_endpoint (LookupHost : string → outcome (list string)) (u : URL) : outcome (IP * Z) :=
  port ← server_port u;
  ips ← LookupHost (fst (url_splitHostPort (u_Host u)));
  match ips with
  | [] => Fail (Errorf "kubeconfig: no IP associated with the hostname")
  | ip :: _ => match ParseAddrPort (JoinHostPort ip port) with
               | Some r => Ret r
               | None => Fail (Errorf "invalid address")
               end
  end.

(** The kubeconfig that reaches the API server through the local [port]. *)
Definition jump_config (u : URL) (name : string) (cl : Cluster) (port : Z) (c : KubeConfig) : KubeConfig :=
  set_cluster name (MkCluster (u_Scheme u +:+ "://" +:+ JoinHostPort "127.0.0.1" (Itoa port))
    (fst (url_splitHostPort (u_Host u))) (cl_Rest cl)) c.

(** The value of the kubeconfig flag: what was given, its default, and the value of a flag
    without one. *)
Record Flag := MkFlag { fl_Value : string; fl_DefValue : string; fl_NoOptDefVal : string }.

Definition flag_path (f : option Flag) : string :=
  match f with
  | None => ""
  | Some f => if negb (String.eqb (fl_Value f) "") then fl_Value f
              else if negb (String.eqb (fl_DefValue f) "") then fl_DefValue f else fl_NoOptDefVal f
  end.

(** The kubeconfig flag of the client configuration; [None] is the loader's default. *)
Definition flag_kubeconfig (f : option Flag) : option string :=
  match f with
  | None => None
  | Some f => if negb (String.eqb (fl_Value f) "") then Some (fl_Value f)
              else if negb (String.eqb (fl_DefValue f) "") then Some (fl_DefValue f) else None
  end.

(** What the jump is told: the kubeconfig on the remote host (read with a command), the loader
    of kubeconfig files, name resolution, a free port, whether the pre-check dial and the
    forward succeed, and the file that is written. *)
Record JumpInput := MkJumpInput {
  ji_RemoteRun : string → outcome KubeConfig; ji_Load : option string + KubeConfig → outcome KubeConfig;
  ji_LookupHost : string → outcome (list string); ji_port : outcome Z; ji_dial : option error; ji_forward : option error;
  ji_temp : outcome string }.

Definition remote_path (conf : SshConfig) : string :=
  match RemoteKubeconfig conf with
  | "" => PathJoin (PathJoin (PathJoin "/" (User conf)) ".kube") "config"
  | String "~" rest => PathJoin (PathJoin "/" (User conf)) rest
  | p => p
  end.

(** The path, and the kubeconfig written there; without a jump host the path of the flag.
    [changed]: the flag of the remote kubeconfig was given. *)
Definition SshJump (i : JumpInput) (conf : SshConfig) (flag : option Flag) (changed : bool)
    : outcome (string * option KubeConfig) :=
  if String.eqb (Addr conf) "" && String.eqb (ConfigAlias conf) "" then Ret (flag_path flag, None)
  else
    source ← (if negb (String.eqb (RemoteKubeconfig conf) "") || changed
              then k ← ji_RemoteRun i (remote_path conf); Ret (inr k)
              else Ret (inl (flag_kubeconfig flag)));
    rawConfig ← ji_Load i source;
    '(name, cl) ← current_cluster rawConfig;
    u ← Url.Parse (Server cl);
    _ ← remote_endpoint (ji_LookupHost i) u;
    port ← ji_port i;
    match ji_dial i with
    | Some e => Fail e
    | None =>
        match ji_forward i with
        | Some e => Fail e
        | None => path ← ji_temp i; Ret (path, Some (jump_config u name cl port rawConfig))
        end
    end.

(** The two variables set from the path; [None]: none. *)
Definition SshJumpAndSetEnv (i : JumpInput) (conf : SshConfig) (flag : option Flag) (changed : bool)
    : outcome (option string) :=
  if String.eqb (Addr conf) "" && String.eqb (ConfigAlias conf) "" then Ret None
  else '(path, _) ← SshJump i conf flag changed; Ret (Some path).

(** [ConvertHost]: the kubeconfig for a container, which reaches the machine as
    [kubernetes]. *)
Definition ConvertHost (rawConfig : outcome KubeConfig) : outcome KubeConfig :=
  rawConfig ← rawConfig;
  '(name, cl) ← current_cluster rawConfig;
  u ← Url.Parse (Server cl);
  match ParseAddrPort (u_Host u) with
  | None => Fail (Errorf "not an ip:port")
  | Some (_, port) =>
      Ret (set_cluster name (MkCluster (u_Scheme u +:+ "://" +:+ JoinHostPort "kubernetes" (Itoa port))
        (TLSServerName cl) (cl_Rest cl)) rawConfig)
  end.

(** ** Chains of jump hosts *)

Lemma ssh_rpc_roundtrip s : ParseSshFromRPC (Some (ToRPC s)) = s.
Proof. by destruct s. Qed.

Section chains.
Context (confList : list (list Host)) (default_Get : string → string → string).
Context (HomeDir : string) (Abs : string → outcome string) {Auth Client : Type}
  (ReadKey : string → outcome Auth)
  (ssh_Dial : string → string → Auth + string → outcome Client)
  (client_Dial : Client → string → outcome unit)
  (NewClientConn : Client → string → string → Auth → outcome Client).
Let get := conf_Get confList default_Get.
Let bastion := getBastion confList default_Get.
Let dial1 := dial HomeDir Abs ReadKey ssh_Dial.
Let jump1 := jump HomeDir Abs ReadKey client_Dial NewClientConn.

(** The aliases from [name] on, each reached through the next. *)
Inductive chain : string → list string → Prop :=
  | chain_last name : get name "ProxyJump" = "" → chain name [name]
  | chain_jump name l : get name "ProxyJump" ≠ "" → chain (get name "ProxyJump") l → chain name (name :: l).

(** Reaching the first host of a chain. *)
Fixpoint reach (l : list string) : outcome Client :=
  match l with
  | [] => Panic
  | [h] => dial1 (bastion h)
  | h :: l => c ← reach l; jump1 c (bastion h)
  end.

Lemma bastions_chain fuel name l :
  bastions confList default_Get fuel name = Some l ↔ ∃ hs, chain name hs ∧ (length hs ≤ fuel)%nat ∧ l = bastion <$> hs.
Proof.
  revert name l. induction fuel as [|fuel IH]; intros name l; cbn [bastions].
  { split; [done|]. intros (hs & Hc & Hl & _). destruct Hc; cbn in Hl; lia. }
  fold get. destruct (String.eqb_spec (get name "ProxyJump") "") as [E|E].
  - split.
    + intros [= <-]. exists [name]. split; [by constructor|]. cbn. split; [lia|done].
    + intros (hs & Hc & _ & ->). inversion Hc; subst; [done|congruence].
  - split.
    + destruct (bastions confList default_Get fuel (get name "ProxyJump")) as [l'|] eqn:Eb; [|done]. intros [= <-].
      apply IH in Eb as (hs & Hc & Hl & ->). exists (name :: hs). split; [by constructor|]. cbn. split; [lia|done].
    + intros (hs & Hc & Hl & ->). inversion Hc as [|? hs' ? Hc']; subst; [done|].
      rewrite (proj2 (IH (get name "ProxyJump") (bastion <$> hs'))); [done|].
      exists hs'. split; [done|]. cbn in Hl. split; [lia|done].
Qed.

Lemma dial_back_app l k c :
  dial_back HomeDir Abs ReadKey ssh_Dial client_Dial NewClientConn (l ++ k)%list c =
  (dial_back HomeDir Abs ReadKey ssh_Dial client_Dial NewClientConn l c ≫= λ c',
   dial_back HomeDir Abs ReadKey ssh_Dial client_Dial NewClientConn k c').
Proof.
  revert c. induction l as [|b l IH]; intros c; [done|]. cbn [app dial_back].
  destruct (match c with Some c => _ | None => _ end) as [c'|e|]; cbn [mbind outcome_bind]; [apply IH|done..].
Qed.

Lemma dial_back_reach name hs :
  chain name hs →
  dial_back HomeDir Abs ReadKey ssh_Dial client_Dial NewClientConn (rev (bastion <$> hs)) None = Some <$> reach hs.
Proof.
  induction 1 as [name Hn|name l Hn Hc IH].
  - cbn. fold dial1. by destruct (dial1 (bastion name)).
  - cbn [fmap list_fmap rev]. change (list_fmap _ _ bastion l) with (bastion <$> l). rewrite dial_back_app, IH.
    assert (∃ x k, l = x :: k) as (x & k & ->) by (inversion Hc; by eexists _, _).
    change (reach (name :: x :: k)) with (c ← reach (x :: k); jump1 c (bastion name)).
    destruct (reach (x :: k)) as [c|e|]; [|done..]. cbn. fold jump1. by destruct (jump1 c (bastion name)).
Qed.

(** C29.  [jumpRecursion] ends exactly when the chain of [ProxyJump] hosts is finite (and
    then with as much fuel as it has hosts); it dials the last host and every other one
    through the host after it, so that the client it returns is one of the alias. *)
Theorem jumpRecursion_chain fuel name r :
  jumpRecursion confList default_Get HomeDir Abs ReadKey ssh_Dial client_Dial NewClientConn fuel name = Some r ↔
  ∃ hs, chain name hs ∧ (length hs ≤ fuel)%nat ∧ r = Some <$> reach hs.
Proof.
  unfold jumpRecursion. split.
  - destruct (bastions confList default_Get fuel name) as [l|] eqn:E; [|done]. intros [= <-].
    apply bastions_chain in E as (hs & Hc & Hl & ->). exists hs. split; [done|]. split; [done|].
    by apply (dial_back_reach name).
  - intros (hs & Hc & Hl & ->). rewrite (proj2 (bastions_chain fuel name (bastion <$> hs))) by eauto. cbn.
    f_equal. by apply (dial_back_reach name).
Qed.
End chains.

(** The lookups of a file with one host. *)
Definition host (name : string) (kvs : list (string * string)) : Host :=
  MkHost (String.eqb name) ((λ kv, KV kv.1 kv.2) <$> kvs).

Definition example_conf : list Host :=
  [host "db" [("Hostname", "10.0.0.5"); ("ProxyJump", "edge"); ("User", "root"); ("IdentityFile", "~/k")];
   host "edge" [("Hostname", "192.0.2.1"); ("Port", "2222"); ("User", "ops"); ("IdentityFile", "~/k")];
   host "loop" [("ProxyJump", "loop")]].

(** A client as the addresses it goes through. *)
Definition example_jump (confList : list (list Host)) (fuel : nat) (name : string) : option (outcome (option (list string))) :=
  jumpRecursion confList (λ _ key, if String.eqb key "Port" then "22" else "") "/root" Ret (λ f, Ret f)
    (λ addr _ _, Ret [addr]) (λ _ _, Ret tt) (λ c addr _ _, Ret (c ++ [addr])%list) fuel name.

Example jump_db : example_jump [example_conf] 2 "db" = Some (Ret (Some ["192.0.2.1:2222"; "10.0.0.5:22"])).
Proof. vm_compute. reflexivity. Qed.

Example jump_loop : example_jump [example_conf] 1000 "loop" = None.
Proof. vm_compute. reflexivity. Qed.

(** An alias without a [Hostname] is dialled at the local machine, and a host of the second
    file is not found: the first file answers with an empty string. *)
Example alias_without_hostname : example_jump [example_conf] 1 "plain" = Some (Ret (Some [":22"])).
Proof. vm_compute. reflexivity. Qed.
Example system_config_ignored :
  example_jump [[]; example_conf] 2 "edge" = Some (Ret (Some [":22"])) ∧
  example_jump [example_conf] 2 "edge" = Some (Ret (Some ["192.0.2.1:2222"])).
Proof. split; vm_compute; reflexivity. Qed.

(** ** The kubeconfig of a jump *)

Lemma Parse_local sch s :
  sch ∈ ["https"; "http"] → all_chars is_digit s = true →
  Url.Parse (sch +:+ "://127.0.0.1:" +:+ s) = Ret (MkURL sch ("127.0.0.1:" +:+ s) "" "" "").
Proof.
  intros Hsch Hs. assert (all_chars query_char s = true) as Hq.
  { eapply all_chars_impl; [|exact Hs]. intros a. destruct a as [[] [] [] [] [] [] [] []]; vm_compute; congruence. }
  destruct (query_char_spec _ Hq) as (H1 & H2 & H3 & _).
  assert (∀ c, is_digit c = false → Count c s = 0%nat) as Hc by (intros c; by apply all_chars_Count).
  assert (getScheme (sch +:+ "://127.0.0.1:" +:+ s) = Ret (sch, "//127.0.0.1:" +:+ s) ∧ ToLower sch = sch ∧
    Count "#" sch = 0%nat ∧ stringContainsCTLByte (sch +:+ "://127.0.0.1:") = false ∧ sch ≠ "" ∧ HasPrefix sch "*" = false) as
    (Eg & El & E1 & E2 & E3 & E4).
  { apply elem_of_cons in Hsch as [->|[->|[]%elem_of_nil]%elem_of_cons]; repeat split; done. }
  unfold Url.Parse. rewrite Url.Cut_none by (rewrite !Count_app, E1, H1; reflexivity). unfold Url.parse.
  assert (stringContainsCTLByte (sch +:+ "://127.0.0.1:" +:+ s) = false) as ->.
  { rewrite <-str_app_assoc. unfold stringContainsCTLByte in *. rewrite all_chars_app. apply negb_false_iff in E2. rewrite E2. exact H3. }
  rewrite (bool_decide_false (_ = "*")) by (intros E; destruct sch; [done|]; injection E as -> _; by destruct sch).
  rewrite Eg. cbn [mbind outcome_bind]. rewrite El.
  rewrite Count_app, H2. change (Count "?" "//127.0.0.1:" + 0 =? 1)%nat with false. rewrite andb_false_r.
  rewrite Url.Cut_none by (rewrite Count_app, H2; reflexivity).
  change (HasPrefix ("//127.0.0.1:" +:+ s) "/") with true.
  change (HasPrefix ("//127.0.0.1:" +:+ s) "//") with true.
  rewrite (bool_decide_false (sch = EmptyString)) by done. cbn [negb andb orb].
  change (str_drop 2 ("//127.0.0.1:" +:+ s)) with ("127.0.0.1:" +:+ s).
  rewrite IndexStr_none by (rewrite Count_app; change (Count "/" "127.0.0.1:") with 0%nat; by apply Hc).
  unfold parseAuthority. rewrite LastIndex_none by (rewrite Count_app; change (Count "@" "127.0.0.1:") with 0%nat; by apply Hc).
  rewrite parseHost_port by done. reflexivity.
Qed.

Lemma ParseAddrPort_local port :
  (0 ≤ port < 65536)%Z → ∃ ip, ParseAddrPort ("127.0.0.1:" +:+ Itoa port) = Some (ip, port).
Proof.
  intros Hp. unfold ParseAddrPort. assert (Count ":" (Itoa port) = 0%nat) as Hc.
  { apply (all_chars_Count is_digit); [|done]. apply all_chars_Itoa. lia. }
  change ("127.0.0.1:" +:+ Itoa port) with ("127.0.0.1" +:+ String ":" (Itoa port)). rewrite LastIndex_app by done.
  cbn [mbind option_bind]. rewrite str_take_app.
  change (str_drop (S (String.length "127.0.0.1")) ("127.0.0.1" +:+ String ":" (Itoa port))) with (Itoa port).
  assert (ParseUint 16 (Itoa port) = Some port) as Hu by (apply ParseUint_Itoa; lia).
  destruct (String.eqb_spec (Itoa port) "") as [E|E]; [by rewrite E in Hu|].
  cbn [String.eqb Ascii.eqb Bool.eqb orb]. change (HasPrefix "127.0.0.1" "[") with false. cbn [andb].
  rewrite Hu. cbn [mbind option_bind]. vm_compute (ParseIP "127.0.0.1"). cbn [mbind option_bind].
  vm_compute (bool_decide (is_Some (parseIPv4 "127.0.0.1"))). by eexists.
Qed.

Lemma current_set_cluster c name cl cl' :
  current_cluster c = Ret (name, cl) → current_cluster (set_cluster name cl' c) = Ret (name, cl').
Proof.
  unfold current_cluster. cbn. destruct (Contexts c) as [ctxs|]; [|done]. destruct (ctxs !! CurrentContext c) as [n|]; [|done].
  destruct (Clusters c !! n); [|done]. intros [= -> _]. by rewrite lookup_insert_eq.
Qed.

(**  The kubeconfig a jump writes differs from the loaded one in its current cluster
    only, which is reached at the local port under the name of its certificate; and
    [ConvertHost] makes of it the one a container uses, with the same port and name. *)
Theorem jump_then_convert i conf flag changed path k
    (Hj : SshJump i conf flag changed = Ret (path, Some k))
    (Hport : ∀ p, ji_port i = Ret p → (0 ≤ p < 65536)%Z) :
  ∃ source raw name cl u port, ji_Load i source = Ret raw ∧ current_cluster raw = Ret (name, cl) ∧
    Url.Parse (Server cl) = Ret u ∧ ji_port i = Ret port ∧
    let host := fst (url_splitHostPort (u_Host u)) in
    k = set_cluster name (MkCluster (u_Scheme u +:+ "://127.0.0.1:" +:+ Itoa port) host (cl_Rest cl)) raw ∧
    (u_Scheme u ∈ ["https"; "http"] →
     ConvertHost (Ret k) = Ret (set_cluster name (MkCluster (u_Scheme u +:+ "://kubernetes:" +:+ Itoa port) host (cl_Rest cl)) k)).
Proof.
  unfold SshJump in Hj. destruct (_ && _); [done|].
  apply outcome_bind_Ret in Hj as (source & _ & Hj). apply outcome_bind_Ret in Hj as (raw & Hl & Hj).
  apply outcome_bind_Ret in Hj as ([name cl] & Hc & Hj). apply outcome_bind_Ret in Hj as (u & Hu & Hj).
  apply outcome_bind_Ret in Hj as (remote & _ & Hj). apply outcome_bind_Ret in Hj as (port & Hp & Hj).
  destruct (ji_dial i); [done|]. destruct (ji_forward i); [done|].
  apply outcome_bind_Ret in Hj as (p & _ & [= _ <-]).
  exists source, raw, name, cl, u, port. do 4 (split; [done|]). intros host. split; [done|]. intros Hs.
  specialize (Hport port Hp). unfold ConvertHost, jump_config. cbn [mbind outcome_bind].
  rewrite (current_set_cluster raw name cl) by done. cbn [mbind outcome_bind Server].
  assert (JoinHostPort "127.0.0.1" (Itoa port) = "127.0.0.1:" +:+ Itoa port) as -> by done.
  change (u_Scheme u +:+ "://" +:+ "127.0.0.1:" +:+ Itoa port) with (u_Scheme u +:+ "://127.0.0.1:" +:+ Itoa port).
  rewrite Parse_local by (done || (apply all_chars_Itoa; lia)). cbn [mbind outcome_bind u_Host u_Scheme].
  by destruct (ParseAddrPort_local port Hport) as (ip & ->).
Qed.

Definition example_kube : KubeConfig :=
  MkKubeConfig "dev" (Some {["dev" := "east"; "prod" := "west"]})
    {["east" := MkCluster "https://api.example.com" "" "ca"; "west" := MkCluster "https://10.0.0.1:6443" "" "ca2"]}.
Definition example_input : JumpInput :=
  MkJumpInput (λ _, Fail NotFound) (λ _, Ret example_kube) (λ _, Ret ["203.0.113.7"]) (Ret 40001%Z) None None (Ret "/tmp/k").
Definition example_ssh : SshConfig := MkSsh "192.0.2.1:22" "root" "" "" "" "".

Definition example_jumped : KubeConfig :=
  MkKubeConfig "dev" (Some {["dev" := "east"; "prod" := "west"]})
    {["east" := MkCluster "https://127.0.0.1:40001" "api.example.com" "ca"; "west" := MkCluster "https://10.0.0.1:6443" "" "ca2"]}.

Lemma example_jump_eq : SshJump example_input example_ssh None false = Ret ("/tmp/k", Some example_jumped).
Proof. vm_compute. reflexivity. Qed.

Lemma example_port p : ji_port example_input = Ret p → (0 ≤ p < 65536)%Z.
Proof. intros [= <-]. lia. Qed.

Lemma jump_then_convert_witness :
  ∃ source raw name cl u port, ji_Load example_input source = Ret raw ∧ current_cluster raw = Ret (name, cl) ∧
    Url.Parse (Server cl) = Ret u ∧ ji_port example_input = Ret port ∧
    let host := fst (url_splitHostPort (u_Host u)) in
    example_jumped = set_cluster name (MkCluster (u_Scheme u +:+ "://127.0.0.1:" +:+ Itoa port) host (cl_Rest cl)) raw ∧
    (u_Scheme u ∈ ["https"; "http"] →
     ConvertHost (Ret example_jumped) =
       Ret (set_cluster name (MkCluster (u_Scheme u +:+ "://kubernetes:" +:+ Itoa port) host (cl_Rest cl)) example_jumped)).
Proof.
  exact (jump_then_convert example_input example_ssh None false "/tmp/k" example_jumped example_jump_eq example_port).
Defined.
