(* ===== verification/Rollout.v ===== *)
(** * Images, roll-outs and waiting for pods

    [setImage] and [UpdateImage] of [pkg/handler/connect.go], [RolloutStatus] of
    [pkg/util/util.go] with the status of a deployment from the vendored kubectl, and
    [WaitPod], [WaitPodToBeReady], [PrintStatus] and [AllContainerIsRunning] of
    [pkg/util/pod.go].  A watch is the list of its events.  References of images and
    versions come from vendored parsers: they are parameters, with the order of versions
    as a hypothesis. *)
From Stdlib Require Import Ascii ZArith Lia.
From stdpp Require Import base gmap strings numbers pretty list.
From S2P Require Import Prelude GoStrings.
From stdpp Require Import list.
Local Open Scope string_scope.

(** ** Deployments *)

Record Deployment := MkDeployment {
  d_Generation : Z; d_ObservedGeneration : Z; d_Replicas : option Z; d_StatusReplicas : Z; d_Updated : Z;
  d_Available : Z; d_Conditions : list (string * string) }.

Inductive progress := Waiting | Finished | ProgressFailed (e : error).

Definition GetDeploymentCondition (conditions : list (string * string)) (typ : string) : option string :=
  snd <$> find (λ c, String.eqb c.1 typ) conditions.

(** [DeploymentStatusViewer.Status] at the current revision. *)
Definition deployment_status (d : Deployment) : progress :=
  if (d_Generation d <=? d_ObservedGeneration d)%Z then
    if bool_decide (GetDeploymentCondition (d_Conditions d) "Progressing" = Some "ProgressDeadlineExceeded")
    then ProgressFailed (Errorf "deployment exceeded its progress deadline")
    else if match d_Replicas d with Some r => (d_Updated d <? r)%Z | None => false end then Waiting
    else if (d_Updated d <? d_StatusReplicas d)%Z then Waiting
    else if (d_Available d <? d_Updated d)%Z then Waiting
    else Finished
  else Waiting.

(** An event of a watch; [ErrorEvent] is any other type than those of an object. *)
Inductive event A := Added (a : A) | Modified (a : A) | Deleted (a : A) | ErrorEvent.
Arguments Added {A} a.
Arguments Modified {A} a.
Arguments Deleted {A} a.
Arguments ErrorEvent {A}.

(** The events [UntilWithSync] delivers until the time is over. *)
Fixpoint rollout_events {A} (Status : A → progress) (evs : list (event A)) : outcome unit :=
  match evs with
  | [] => Fail (Errorf "timed out waiting for the condition")
  | (Added a | Modified a) :: evs =>
      match Status a with
      | Finished => Ret tt
      | Waiting => rollout_events Status evs
      | ProgressFailed e => Fail e
      end
  | Deleted _ :: _ => Fail (Errorf "object has been deleted")
  | ErrorEvent :: _ => Fail (Errorf "internal error: unexpected event")
  end.

(** [infos] is the number of objects the name resolves to, [viewer] the status of its kind. *)
Definition RolloutStatus {A} (infos : outcome nat) (viewer : outcome (A → progress)) (evs : list (event A)) : outcome unit :=
  n ← infos;
  if negb (n =? 1)%nat then Fail (Errorf "rollout status is only supported on individual resources and resource collections")
  else Status ← viewer; rollout_events Status evs.

(** ** Images *)

Section image.
(** [reference.ParseNormalizedNamed]: the domain and the tag; [goversion.NewVersion] and
    [GreaterThanOrEqual]. *)
Context (ParseNormalizedNamed : string → outcome (string * option string)) {V : Type} (NewVersion : string → option V)
  (GreaterThanOrEqual : V → V → bool).

(** Whether the image [new] replaces the image [old]. *)
Definition newer (new old : string) : outcome bool :=
  newImg ← ParseNormalizedNamed new;
  match newImg with
  | (_, None) => Ret false
  | (newDomain, Some newTag) =>
      oldImg ← ParseNormalizedNamed old;
      match oldImg with
      | (_, None) => Ret false
      | (oldDomain, Some oldTag) =>
          if negb (String.eqb newDomain oldDomain) then Ret false
          else match NewVersion oldTag, NewVersion newTag with
               | Some oldVersion, Some newVersion => Ret (negb (GreaterThanOrEqual oldVersion newVersion))
               | _, _ => Ret false
               end
      end
  end.

(** What the API answers: the deployment's images, the objects a patch is computed for, the
    patch, and the roll-out. *)
Record UpdateInput := MkUpdate {
  up_get : outcome (list string); up_infos : option error; up_patch : option error; up_rollout : outcome unit }.

(** The images after the call, and the result. *)
Definition setImage (i : UpdateInput) (image : string) : list string * outcome unit :=
  match up_get i with
  | Fail e => ([], Fail e)
  | Panic => ([], Panic)
  | Ret images =>
      match images with
      | [] => (images, match ParseNormalizedNamed image with
                       | Ret (_, None) => Ret tt | Ret (_, Some _) => Panic | Fail e => Fail e | Panic => Panic end)
      | old :: _ =>
          match newer image old with
          | Fail e => (images, Fail e)
          | Panic => (images, Panic)
          | Ret false => (images, Ret tt)
          | Ret true =>
              match up_infos i with
              | Some e => (images, Fail e)
              | None => match up_patch i with
                        | Some e => (images, Fail e)
                        | None => ((λ _, image) <$> images, up_rollout i)
                        end
              end
          end
      end
  end.

(** [UpdateImage] sends a merge patch of the object it read. *)
Definition UpdateImage (i : UpdateInput) (image : string) : list string * outcome unit :=
  match up_get i with
  | Fail e => ([], Fail e)
  | Panic => ([], Panic)
  | Ret images =>
      match images with
      | [] => (images, match ParseNormalizedNamed image with
                       | Ret (_, None) => Ret tt | Ret (_, Some _) => Panic | Fail e => Fail e | Panic => Panic end)
      | old :: _ =>
          match newer image old with
          | Fail e => (images, Fail e)
          | Panic => (images, Panic)
          | Ret false => (images, Ret tt)
          | Ret true =>
              match up_patch i with
              | Some e => (images, Fail e)
              | None => ((λ _, image) <$> images, up_rollout i)
              end
          end
      end
  end.

(** How the API server answers the calls of one client; without an error the deployment
    is read as it is. *)
Record Answers := MkAnswers {
  a_get : option error; a_infos : option error; a_patch : option error; a_rollout : outcome unit }.

(** The images after a client with an image. *)
Definition after_client (images : list string) (c : string * Answers) : list string :=
  match a_get c.2 with
  | Some _ => images
  | None => fst (setImage (MkUpdate (Ret images) (a_infos c.2) (a_patch c.2) (a_rollout c.2)) c.1)
  end.

(** Clients, one after the other. *)
Definition upgrades (clients : list (string * Answers)) (images : list string) : list string :=
  fold_left after_client clients images.
End image.

(** ** Pods *)

Record ContainerStatus := MkStatus {
  cs_Name : string; cs_Ready : bool; cs_Waiting : option (string * string); cs_Running : bool;
  cs_Terminated : option (string * string) }.
Record PodCondition := MkCondition { pc_Type : string; pc_Status : string; pc_Reason : string; pc_Message : string }.
Record Pod := MkPod {
  p_Name : string; p_Phase : string; p_Deleting : bool; p_Conditions : list PodCondition; p_Statuses : list ContainerStatus }.

(** The lines of [PrintStatus], before the tab writer aligns them. *)
Definition PrintStatus (pod : Pod) : list (string * string * string) :=
  match p_Statuses pod with
  | [] => ("Type", "Reason", "Message") ::
      ((λ c, (pc_Type c, pc_Reason c, pc_Message c)) <$> List.filter (λ c, String.eqb (pc_Status c) "False") (p_Conditions pod))
  | ss => ("Container", "Reason", "Message") ::
      (ss ≫= λ s, match cs_Waiting s with Some (r, m) => [(cs_Name s, r, m)] | None => [] end ++
                  (if cs_Running s then [(cs_Name s, "ContainerRunning", "")] else []) ++
                  match cs_Terminated s with Some (r, m) => [(cs_Name s, r, m)] | None => [] end)%list
  end.

Definition IsPodReady (pod : Pod) : bool :=
  match find (λ c, String.eqb (pc_Type c) "Ready") (p_Conditions pod) with
  | Some c => String.eqb (pc_Status c) "True"
  | None => false
  end.

Definition AllContainerIsRunning (pod : Pod) : bool :=
  if negb (IsPodReady pod) then false else forallb cs_Ready (p_Statuses pod).

(** What a watch of pods gives: an event, a closed channel, or the end of the time. *)
Inductive watched := PodEvent (pod : option Pod) | Closed | TimeOver.

(** [WaitPod]: a closed channel gives empty events for ever, so that only the end of the
    time ends the loop; [None]: still waiting. *)
Fixpoint WaitPod (checker : Pod → bool) (ws : list watched) : option (outcome unit) :=
  match ws with
  | [] => None
  | PodEvent (Some pod) :: ws => if checker pod then Some (Ret tt) else WaitPod checker ws
  | PodEvent None :: ws | Closed :: ws => WaitPod checker ws
  | TimeOver :: _ => Some (Fail (Errorf "wait for pod to be ready timeout"))
  end.

(** [TimeOver] is an hour without any event: the timer starts anew with each. *)
Fixpoint WaitPodToBeReady (ws : list watched) : option (outcome unit) :=
  match ws with
  | [] => None
  | Closed :: _ => Some (Fail (Errorf "can not wait pod to be ready because of watch chan has closed"))
  | TimeOver :: _ => Some (Fail (Errorf "wait pod to be ready timeout"))
  | PodEvent None :: ws => WaitPodToBeReady ws
  | PodEvent (Some pod) :: ws =>
      if p_Deleting pod then WaitPodToBeReady ws
      else if IsPodReady pod && forallb cs_Ready (p_Statuses pod) then Some (Ret tt)
      else WaitPodToBeReady ws
  end.

(** ** Roll-outs *)

(** All replicas that are wanted run the current template, and no others. *)
Record rolled_out (d : Deployment) : Prop := {
  ro_observed : (d_Generation d ≤ d_ObservedGeneration d)%Z;
  ro_updated : ∀ r, d_Replicas d = Some r → (r ≤ d_Updated d)%Z;
  ro_old : (d_StatusReplicas d ≤ d_Updated d)%Z;
  ro_available : (d_Updated d ≤ d_Available d)%Z }.

Lemma deployment_finished d : deployment_status d = Finished → rolled_out d.
Proof.
  unfold deployment_status. destruct (Z.leb_spec (d_Generation d) (d_ObservedGeneration d)); [|done].
  case_bool_decide; [done|]. destruct (match d_Replicas d with Some r => _ | None => _ end) eqn:Er; [done|].
  destruct (Z.ltb_spec (d_Updated d) (d_StatusReplicas d)); [done|].
  destruct (Z.ltb_spec (d_Available d) (d_Updated d)); [done|]. intros _. split; [lia| |lia|lia].
  intros r Hr. rewrite Hr in Er. by apply Z.ltb_ge in Er.
Qed.

(** An event that reports a state of the object. *)
Definition reports {A} (e : event A) (a : A) : Prop := e = Added a ∨ e = Modified a.

Lemma rollout_events_spec {A} (Status : A → progress) evs :
  rollout_events Status evs = Ret tt ↔
  ∃ pre e a post, evs = (pre ++ e :: post)%list ∧ reports e a ∧ Status a = Finished ∧
    Forall (λ e', ∃ b, reports e' b ∧ Status b = Waiting) pre.
Proof.
  induction evs as [|e evs IH]; cbn [rollout_events].
  { split; [done|]. intros (pre & e & a & post & H & _). by destruct pre. }
  assert (∀ a, reports e a →
    (match Status a with Finished => Ret tt | Waiting => rollout_events Status evs | ProgressFailed e => Fail e end = Ret tt ↔
     ∃ pre e0 a post, (e :: evs)%list = (pre ++ e0 :: post)%list ∧ reports e0 a ∧ Status a = Finished ∧
       Forall (λ e', ∃ b, reports e' b ∧ Status b = Waiting) pre)) as Hrep.
  { intros a Ha. assert (∀ b, reports e b → b = a) as Huniq.
    { intros b Hb. destruct Ha as [->| ->], Hb as [Hb|Hb]; congruence. }
    destruct (Status a) eqn:Es.
    - rewrite IH. split.
      + intros (pre & e0 & b & post & -> & Hr & Hf & Hp). exists (e :: pre), e0, b, post. repeat split; try done.
        constructor; [by exists a|done].
      + intros (pre & e0 & b & post & Heq & Hr & Hf & Hp). destruct pre as [|x pre].
        * injection Heq as <- <-. rewrite (Huniq b Hr), Es in Hf. done.
        * injection Heq as <- ->. apply Forall_cons in Hp as [_ Hp]. by exists pre, e0, b, post.
    - split; [|done]. intros _. by exists [], e, a, evs.
    - split; [done|]. intros (pre & e1 & b & post & Heq & Hr & Hf & Hp). destruct pre as [|x pre].
      + injection Heq as <- <-. rewrite (Huniq b Hr), Es in Hf. done.
      + injection Heq as <- _. apply Forall_cons in Hp as [(b' & Hb & Hw) _]. rewrite (Huniq b' Hb), Es in Hw. done. }
  destruct e as [a|a|a|]; [by apply (Hrep a); left|by apply (Hrep a); right| |];
    (split; [done|]); intros (pre & e0 & b & post & Heq & Hr & Hf & Hp); destruct pre as [|x pre];
    injection Heq as <- _; try (by destruct Hr); apply Forall_cons in Hp as [(b' & [Hb|Hb] & _) _]; done.
Qed.

(** C21.  [RolloutStatus] of a deployment succeeds exactly when an event reports it rolled
    out and all events before it report progress; at that event every wanted replica is
    updated and available, and no old one is left. *)
Theorem RolloutStatus_rolled_out evs :
  RolloutStatus (Ret 1%nat) (Ret deployment_status) evs = Ret tt ↔
  ∃ pre e d post, evs = (pre ++ e :: post)%list ∧ reports e d ∧ deployment_status d = Finished ∧ rolled_out d ∧
    Forall (λ e', ∃ b, reports e' b ∧ deployment_status b = Waiting) pre.
Proof.
  change (RolloutStatus (Ret 1%nat) (Ret deployment_status) evs) with (rollout_events deployment_status evs).
  rewrite rollout_events_spec. split.
  - intros (pre & e & d & post & H1 & H2 & H3 & H4). exists pre, e, d, post. split_and!; try done. by apply deployment_finished.
  - intros (pre & e & d & post & H1 & H2 & H3 & _ & H4). by exists pre, e, d, post.
Qed.

Lemma WaitPodToBeReady_running ws :
  WaitPodToBeReady ws = Some (Ret tt) → ∃ pod, PodEvent (Some pod) ∈ ws ∧ p_Deleting pod = false ∧ AllContainerIsRunning pod = true.
Proof.
  induction ws as [|w ws IH]; [done|]. cbn [WaitPodToBeReady]. setoid_rewrite elem_of_cons.
  destruct w as [[pod|]| |]; [|intros H; destruct (IH H) as (p & ? & ?); by eauto|done..].
  destruct (p_Deleting pod) eqn:Ed; [intros H; destruct (IH H) as (p & ? & ?); by eauto|].
  destruct (IsPodReady pod && forallb cs_Ready (p_Statuses pod)) eqn:Er.
  - intros _. exists pod. split; [by left|]. split; [done|]. unfold AllContainerIsRunning.
    by apply andb_prop in Er as [-> ->].
  - intros H. destruct (IH H) as (p & ? & ?). by eauto.
Qed.

(** ** Upgrades *)

Section upgrades.
Context (ParseNormalizedNamed : string → outcome (string * option string)) {V : Type} (NewVersion : string → option V)
  (GreaterThanOrEqual : V → V → bool).

(** The order of versions is a total preorder. *)
Class VersionOrder : Prop := {
  ge_trans a b c : GreaterThanOrEqual a b = true → GreaterThanOrEqual b c = true → GreaterThanOrEqual a c = true;
  ge_total a b : GreaterThanOrEqual a b = true ∨ GreaterThanOrEqual b a = true }.

(** An image of the domain [D] with the version [v]. *)
Definition versioned (D image : string) (v : V) : Prop :=
  ∃ tag, ParseNormalizedNamed image = Ret (D, Some tag) ∧ NewVersion tag = Some v.

(** The calls of the client before the roll-out succeed. *)
Definition works (a : Answers) : Prop := a_get a = None ∧ a_infos a = None ∧ a_patch a = None.

Abbreviation newer' := (newer ParseNormalizedNamed NewVersion GreaterThanOrEqual).
Abbreviation after_client' := (after_client ParseNormalizedNamed NewVersion GreaterThanOrEqual).
Abbreviation upgrades' := (upgrades ParseNormalizedNamed NewVersion GreaterThanOrEqual).

Lemma versioned_inj D D' im v v' : versioned D im v → versioned D' im v' → D = D' ∧ v = v'.
Proof. intros (t & Ht & Hv) (t' & Ht' & Hv'). rewrite Ht in Ht'. injection Ht' as <- <-. by rewrite Hv in Hv'; injection Hv'. Qed.

(** [newer] is decided by the versions of two images of one domain. *)
Lemma newer_spec new old :
  newer' new old = Ret true ↔ ∃ D v w, versioned D new v ∧ versioned D old w ∧ GreaterThanOrEqual w v = false.
Proof.
  unfold newer, versioned. split.
  - destruct (ParseNormalizedNamed new) as [[D [t|]]| |] eqn:Hn; cbn; try done.
    destruct (ParseNormalizedNamed old) as [[D' [u|]]| |] eqn:Ho; cbn; try done.
    destruct (String.eqb_spec D D') as [<-|]; [|done]. cbn.
    destruct (NewVersion u) as [w|] eqn:Hw, (NewVersion t) as [v|] eqn:Hv; try done. intros [= Hg].
    exists D, v, w. split; [by exists t|]. split; [by exists u|]. by apply negb_true_iff in Hg.
  - intros (D & v & w & (t & Ht & Hv) & (u & Hu & Hw) & Hg). rewrite Ht. cbn. rewrite Hu. cbn.
    by rewrite String.eqb_refl, Hw, Hv, Hg.
Qed.

Lemma ge_refl `{VersionOrder} a : GreaterThanOrEqual a a = true.
Proof. by destruct (ge_total a a). Qed.

(** One client changes all images to its own when that is newer than the first and its
    calls succeed, and nothing otherwise. *)
Lemma after_client_spec base rest im a :
  after_client' (base :: rest) (im, a) = replicate (S (length rest)) im ∧ works a ∧ newer' im base = Ret true ∨
  after_client' (base :: rest) (im, a) = base :: rest ∧ (works a → newer' im base ≠ Ret true).
Proof.
  unfold after_client, works. cbn [fst snd].
  destruct (a_get a); [right; split; [done|by intros []]|]. unfold setImage. cbn [up_get up_infos up_patch].
  destruct (newer _ _ _ im base) as [[]| |]; [|by right; split; [|intros _]..].
  destruct (a_infos a); [right; split; [done|by intros (_ & ? & _)]|].
  destruct (a_patch a); [right; split; [done|by intros (_ & _ & ?)]|].
  left. split; [|done]. cbn. f_equal. by apply const_fmap.
Qed.

(** What the images are after some clients: [im] is the first one. *)
Record upgraded (base : string) (rest : list string) (clients : list (string * Answers)) (im : string) : Prop := {
  ug_images : upgrades' clients (base :: rest) = base :: rest ∧ im = base ∨
              upgrades' clients (base :: rest) = replicate (S (length rest)) im;
  ug_origin : im = base ∨ ∃ a, (im, a) ∈ clients ∧ works a;
  ug_newest : ∀ D v, versioned D base v → ∃ w, versioned D im w ∧ GreaterThanOrEqual w v = true ∧
    ∀ im' a v', (im', a) ∈ clients → works a → versioned D im' v' → GreaterThanOrEqual w v' = true;
  ug_unversioned : (∀ D v, ¬ versioned D base v) → im = base }.

Lemma upgraded_step `{VersionOrder} base rest clients im c :
  upgraded base rest clients im → ∃ im', upgraded base rest (clients ++ [c]) im'.
Proof.
  intros [Himg Ho Hn Hu]. destruct c as [i a].
  assert (∃ r, upgrades' clients (base :: rest) = im :: r ∧ length r = length rest) as (r & Er & Hlen).
  { destruct Himg as [[-> ->]| ->]; [by exists rest|]. exists (replicate (length rest) im). by rewrite length_replicate. }
  assert (∀ l, upgrades' (clients ++ [(i, a)])%list l = after_client' (upgrades' clients l) (i, a)) as Esnoc
    by (intros l; unfold upgrades; by rewrite fold_left_app).
  destruct (after_client_spec im r i a) as [(E & Hw & Hnew)|[E Hold]].
  - exists i. apply newer_spec in Hnew as (D & v & w & Hv & Hw' & Hg). split.
    + right. by rewrite Esnoc, Er, E, Hlen.
    + right. exists a. split; [set_solver|done].
    + intros D' v0 Hb. destruct (Hn D' v0 Hb) as (w' & Hiw & Hge & Hall).
      destruct (versioned_inj _ _ _ _ _ Hw' Hiw) as [<- <-]. exists v. split; [done|].
      assert (GreaterThanOrEqual v w = true) as Hvw by (by destruct (ge_total v w); [|congruence]).
      split; [by apply (ge_trans _ w)|]. intros im' a' v' [Hin|Hin]%elem_of_app Hwk Hv'.
      * apply (ge_trans _ w); [done|]. by eapply Hall.
      * apply list_elem_of_singleton in Hin as [= -> ->].
        destruct (versioned_inj _ _ _ _ _ Hv Hv') as [_ <-]. apply ge_refl.
    + intros Hno. destruct (Hno D w). by rewrite <- (Hu Hno).
  - exists im. split.
    + rewrite Esnoc, Er, E, <- Er. done.
    + destruct Ho as [|(a' & ? & ?)]; [by left|right]. exists a'. split; [set_solver|done].
    + intros D v0 Hb. destruct (Hn D v0 Hb) as (w & Hiw & Hge & Hall). exists w. split; [done|]. split; [done|].
      intros im' a' v' [Hin|Hin]%elem_of_app Hwk Hv'; [by eapply Hall|].
      apply list_elem_of_singleton in Hin as [= -> ->].
      destruct (GreaterThanOrEqual w v') eqn:Hg; [done|]. destruct (Hold Hwk). apply newer_spec. by exists D, v', w.
    + done.
Qed.


Lemma setImage_UpdateImage i image :
  up_infos i = None →
  setImage ParseNormalizedNamed NewVersion GreaterThanOrEqual i image =
  UpdateImage ParseNormalizedNamed NewVersion GreaterThanOrEqual i image.
Proof. intros Hi. unfold setImage, UpdateImage. by rewrite Hi. Qed.
End upgrades.

(** ** Examples *)

(** Images ["naison/kubevpn:vN"] with one number. *)
Definition example_ref (s : string) : outcome (string * option string) :=
  match Split ":" s with [d; t] => Ret (d, Some t) | [d] => Ret (d, None) | _ => Fail (Errorf "invalid reference") end.
Definition example_version (t : string) : option Z := Atoi (TrimPrefix t "v").
Definition example_ge (a b : Z) : bool := (b <=? a)%Z.

#[export] Instance example_order : VersionOrder example_ge.
Proof.
  split; unfold example_ge.
  - intros a b c H1%Z.leb_le H2%Z.leb_le. apply Z.leb_le. lia.
  - intros a b. destruct (Z.leb_spec b a); [by left|]. right. apply Z.leb_le. lia.
Qed.

Definition example_answers (patch : option error) : Answers := MkAnswers None None patch (Ret tt).

(** The newest client is not allowed to patch, and one has an image without a version. *)
Definition example_clients : list (string * Answers) :=
  [("kubevpn:v1", example_answers None); ("kubevpn:v4", example_answers None);
   ("kubevpn:v9", example_answers (Some Forbidden)); ("mine", example_answers None);
   ("kubevpn:v3", example_answers None)].


(** Two clients that both read before either writes: the patch carries no version of the
    object, and the older image may be written last. *)
Example concurrent_downgrade :
  let newer := newer example_ref example_version example_ge in
  newer "kubevpn:v3" "kubevpn:v1" = Ret true ∧ newer "kubevpn:v2" "kubevpn:v1" = Ret true ∧
  newer "kubevpn:v2" "kubevpn:v3" = Ret false.
Proof. split_and!; vm_compute; reflexivity. Qed.

(** A closed watch does not end [WaitPod]. *)
Example closed_watch_spins : WaitPod (λ p, String.eqb (p_Phase p) "Running") (replicate 1000 Closed) = None.
Proof. vm_compute. reflexivity. Qed.
