(* ===== verification/ClientDevice.v ===== *)
(** * The device of a client

    [pkg/core/tunhandlerclient.go] and the reads and writes of [pkg/tun/tun.go]: packets
    read from the device are queued for the transport; each connection to the server has a
    goroutine that takes packets from the queue and one that reads replies.  When a
    connection ends the first keeps waiting for a packet.  The goroutines are a step
    relation. *)
From Stdlib Require Import ZArith Lia.
From Stdlib Require Import Strings.Byte.
From stdpp Require Import base gmap strings numbers list.
From S2P Require Import Prelude GoNet Tunnel.
From stdpp Require Import list.

(** ** The device *)

Definition MessageTransportHeaderSize : nat := 16.
Definition MessageTransportOffsetContent : nat := 16.
(** [device.MaxSegmentSize] on most systems. *)
Definition MaxSegmentSize : nat := 256 * 256 - 1.

(** [tunConn.Read]: what the device read at the offset, copied to a buffer of [cap] bytes. *)
Definition tun_Read (cap : nat) (read : error + list byte) : error + list byte :=
  match read with
  | inl e => inl e
  | inr data =>
      if (length data =? 0) || (MaxSegmentSize - MessageTransportHeaderSize <? length data) then inr []
      else inr (take cap data)
  end.

(** [tunConn.Write]: the bytes given to the device; a buffer of the pool has [pool] bytes. *)
Definition tun_Write (pool : nat) (b : list byte) : outcome (option (list byte)) :=
  if length b <? MessageTransportHeaderSize then Ret None
  else if pool <? MessageTransportOffsetContent + length b then Panic
  else Ret (Some b).

(** ** The transport *)

(** [getRemotePacketConn]: over the chain of the node, or a UDP socket. *)
Definition getRemotePacketConn {C} (empty : bool) (dial : outcome C) (packet : C → bool) (listen : outcome C) : outcome C :=
  if negb empty then
    cc ← dial;
    if packet cc then Ret cc else Fail (Errorf "not a packet connection")
  else listen.

(** The goroutine of a connection that takes packets, and the packet it holds. *)
Record writer := MkWriter { w_conn : nat; w_held : option DataElem }.

(** The queue, the open connection, the goroutines, the connections made so far, and the
    packets that were sent, returned to the device, lost and queued in all. *)
Record device := MkDevice {
  inq : list DataElem; current : option nat; writers : list writer; made : nat;
  sent : list DataElem; looped : list DataElem; lost : list DataElem; queued : list DataElem }.

Definition device0 : device := MkDevice [] None [] 0 [] [] [] [].
Definition MaxSize : nat := 1000.

Inductive dstep : device → device → Prop :=
  (** the device or the heartbeats queue a packet *)
  | ds_queue e d : length (inq d) < MaxSize →
      dstep d (MkDevice (inq d ++ [e]) (current d) (writers d) (made d) (sent d) (looped d) (lost d) (queued d ++ [e]))
  (** the loop of [HandleClient] has a connection, [transportTunClient] starts *)
  | ds_connect d : current d = None →
      dstep d (MkDevice (inq d) (Some (made d)) (writers d ++ [MkWriter (made d) None]) (S (made d)) (sent d) (looped d)
                 (lost d) (queued d))
  (** a goroutine takes a packet for the server, or one the device sent to itself *)
  | ds_take d i c e q b p : writers d !! i = Some (MkWriter c None) → inq d = e :: q →
      transportTunClient_out e = ToServer b p →
      dstep d (MkDevice q (current d) (<[i := MkWriter c (Some e)]> (writers d)) (made d) (sent d) (looped d) (lost d) (queued d))
  | ds_loop d i c e q : writers d !! i = Some (MkWriter c None) → inq d = e :: q →
      transportTunClient_out e = LoopBack e →
      dstep d (MkDevice q (current d) (writers d) (made d) (sent d) (looped d ++ [e]) (lost d) (queued d))
  (** it writes the packet to its connection, which must be open *)
  | ds_write d i c e : writers d !! i = Some (MkWriter c (Some e)) → current d = Some c →
      dstep d (MkDevice (inq d) (current d) (<[i := MkWriter c None]> (writers d)) (made d) (sent d ++ [e]) (looped d) (lost d) (queued d))
  (** or the write fails, and it ends *)
  | ds_fail d i c e : writers d !! i = Some (MkWriter c (Some e)) →
      dstep d (MkDevice (inq d) (current d) (remove_at i (writers d)) (made d) (sent d) (looped d) (lost d ++ [e]) (queued d))
  (** an error of either goroutine ends [transportTunClient], which closes the connection *)
  | ds_break d c : current d = Some c →
      dstep d (MkDevice (inq d) None (writers d) (made d) (sent d) (looped d) (lost d) (queued d)).

Abbreviation reachable := (rtc dstep device0).

(** ** Invariants *)

Definition held (d : device) : list DataElem := omap w_held (writers d).

(** A packet for the server, and one the machine sent to itself. *)
Definition outward (e : DataElem) : Prop := transportTunClient_out e = ToServer (payload e) true.
Definition own (e : DataElem) : Prop := transportTunClient_out e = LoopBack e.

(** The packet that can still be sent: held by the goroutine of the open connection. *)
Definition held_by (c : nat) (ws : list writer) : list DataElem :=
  omap (λ w, if decide (w_conn w = c) then w_held w else None) ws.
Definition pending (d : device) : list DataElem :=
  match current d with Some c => held_by c (writers d) | None => [] end.

Record device_inv (d : device) : Prop := {
  di_conns : NoDup (w_conn <$> writers d);
  di_fresh : Forall (λ w, w_conn w < made d) (writers d);
  di_lost : length (lost d) + length (writers d) = made d;
  di_all : queued d ≡ₚ sent d ++ looped d ++ lost d ++ held d ++ inq d;
  di_order : sublist (sent d ++ pending d ++ inq d) (queued d);
  di_out : Forall outward (sent d ++ lost d ++ held d);
  di_own : Forall own (looped d);
  di_bound : length (inq d) ≤ MaxSize }.

Lemma insert_middle {A} (l1 l2 : list A) x y : <[length l1 := y]> (l1 ++ x :: l2) = l1 ++ y :: l2.
Proof. by rewrite insert_app_r_alt, Nat.sub_diag by lia. Qed.

Lemma held_by_none c ws : c ∉ w_conn <$> ws → held_by c ws = [].
Proof.
  induction ws as [|w ws IH]; [done|]. cbn [held_by omap list_omap fmap list_fmap].
  rewrite not_elem_of_cons. intros [Hw Hs]. rewrite decide_False by congruence. by apply IH.
Qed.

Lemma held_by_app c ws ws' : held_by c (ws ++ ws') = held_by c ws ++ held_by c ws'.
Proof. apply omap_app. Qed.

Lemma held_by_one c c' h ws :
  held_by c (MkWriter c' h :: ws) = (if decide (c' = c) then option_list h else []) ++ held_by c ws.
Proof.
  unfold held_by at 1. cbn [omap list_omap w_conn w_held]. fold (held_by c ws).
  case_decide; [destruct h|]; done.
Qed.

(** The goroutine of a connection is the only one that can hold a packet for it. *)
Lemma held_by_middle c c' h l1 l2 : NoDup (w_conn <$> l1 ++ MkWriter c' h :: l2) →
  held_by c (l1 ++ MkWriter c' h :: l2) =
  if decide (c' = c) then option_list h else held_by c (l1 ++ l2).
Proof.
  rewrite fmap_app, fmap_cons, NoDup_app, NoDup_cons. cbn [w_conn]. intros (_ & H1 & H2 & _).
  rewrite !held_by_app, held_by_one. case_decide; [subst c'|done].
  rewrite !held_by_none; [by rewrite app_nil_r|done|].
  intros Hc. apply (H1 c Hc). set_solver.
Qed.

Lemma own_not_outward e : own e → outward e → False.
Proof. unfold own, outward. congruence. Qed.

Lemma took_outward e b p : transportTunClient_out e = ToServer b p → outward e.
Proof. unfold outward, transportTunClient_out. by destruct (IP_Equal _ _). Qed.

Lemma held_middle c h l1 l2 :
  omap w_held (l1 ++ MkWriter c h :: l2) = omap w_held l1 ++ option_list h ++ omap w_held l2.
Proof. rewrite omap_app. by destruct h. Qed.

Ltac dev_simpl := cbn [inq current writers made sent looped lost queued] in *.

Ltac options := unfold option_list, option_rect in *.
(** Both sides of a permutation with their single elements in front. *)
Ltac permute := options; rewrite <-?app_assoc; cbn [app]; rewrite <-?Permutation_middle; done.

Lemma device0_inv : device_inv device0.
Proof. split; cbn; auto with lia; constructor. Qed.

Lemma dstep_queue d e : length (inq d) < MaxSize → device_inv d →
  device_inv (MkDevice (inq d ++ [e]) (current d) (writers d) (made d) (sent d) (looped d) (lost d) (queued d ++ [e])).
Proof.
  intros Hq [????????]. split; dev_simpl; try done.
  - change (held _) with (held d). rewrite di_all0. by rewrite <-!app_assoc.
  - change (pending _) with (pending d). rewrite !app_assoc. rewrite <-(app_assoc (sent d)).
    by apply sublist_app.
  - rewrite length_app. cbn. lia.
Qed.

Lemma dstep_connect d : current d = None → device_inv d →
  device_inv (MkDevice (inq d) (Some (made d)) (writers d ++ [MkWriter (made d) None]) (S (made d)) (sent d)
                (looped d) (lost d) (queued d)).
Proof.
  intros Hc [????????].
  assert (Hn : made d ∉ w_conn <$> writers d).
  { intros (w & E & Hw)%list_elem_of_fmap. rewrite Forall_forall in di_fresh0.
    specialize (di_fresh0 w Hw). lia. }
  assert (Hh : omap w_held (writers d ++ [MkWriter (made d) None]) = held d).
  { rewrite omap_app. apply app_nil_r. }
  unfold held in *; split; unfold held; dev_simpl; rewrite ?Hh; try done.
  - rewrite fmap_app. apply NoDup_app. split_and!; [done| |apply NoDup_singleton].
    cbn. set_solver.
  - apply Forall_app. split; [|by repeat constructor]. eapply Forall_impl; [done|]. cbn. lia.
  - rewrite length_app. cbn. lia.
  - unfold pending in *. dev_simpl. rewrite Hc in di_order0.
    rewrite held_by_app, held_by_none, held_by_one, decide_True by done. done.
Qed.

(** What the other steps do to the goroutine [i] of a connection. *)
Lemma dstep_writer d i c h : device_inv d → writers d !! i = Some (MkWriter c h) → ∃ l1 l2,
  writers d = l1 ++ MkWriter c h :: l2 ∧ i = length l1 ∧
  NoDup (w_conn <$> l1 ++ l2) ∧ c ∉ w_conn <$> l1 ++ l2.
Proof.
  intros [Hn _ _ _ _ _ _ _] (l1 & l2 & E & ->)%list_elem_of_split_length.
  exists l1, l2. split_and!; [done..| |].
  all: rewrite E, fmap_app, fmap_cons, NoDup_app, NoDup_cons in Hn; cbn [w_conn] in Hn;
    destruct Hn as (N1 & N12 & N2 & N3).
  - rewrite fmap_app. apply NoDup_app. split_and!; [done| |done]. set_solver.
  - rewrite fmap_app, elem_of_app. intros [H|H]; [|done]. apply (N12 c H). set_solver.
Qed.

Lemma dstep_take d i c e q b p : writers d !! i = Some (MkWriter c None) → inq d = e :: q →
  transportTunClient_out e = ToServer b p → device_inv d →
  device_inv (MkDevice q (current d) (<[i := MkWriter c (Some e)]> (writers d)) (made d) (sent d) (looped d) (lost d) (queued d)).
Proof.
  intros Hw Hq Ho%took_outward Hd. destruct (dstep_writer _ _ _ _ Hd Hw) as (l1 & l2 & E & -> & Hn & Hc).
  destruct Hd, d; dev_simpl; subst. rewrite insert_middle.
  assert (Hc' : NoDup (w_conn <$> l1 ++ MkWriter c (Some e) :: l2)) by (rewrite fmap_app in *; done).
  unfold held, pending in *. dev_simpl. rewrite held_middle in *.
  split; unfold held, pending; dev_simpl; rewrite ?held_middle; try done.
  - apply Forall_app in di_fresh0 as [F1 [F2 F3]%Forall_cons]. apply Forall_app; split; [done|]. by constructor.
  - rewrite !length_app in *. cbn [length] in *. lia.
  - rewrite di_all0. permute.
  - etrans; [|done]. apply sublist_app; [done|]. destruct current0 as [c'|]; [|by apply sublist_cons].
    rewrite !held_by_middle by done. case_decide; options; cbn [app]; [done|].
    apply sublist_app; [done|]. by apply sublist_cons.
  - options. rewrite !Forall_app, Forall_cons in *. naive_solver.
  - cbn [length] in *. lia.
Qed.

Lemma dstep_loop d i c e q : writers d !! i = Some (MkWriter c None) → inq d = e :: q → own e → device_inv d →
  device_inv (MkDevice q (current d) (writers d) (made d) (sent d) (looped d ++ [e]) (lost d) (queued d)).
Proof.
  intros _ Hq Ho []. rewrite Hq in *. split; dev_simpl; try done.
  - change (held (MkDevice _ _ _ _ _ _ _ _)) with (held d). rewrite di_all0. permute.
  - etrans; [|done]. apply sublist_app; [done|]. apply sublist_app; [done|]. by apply sublist_cons.
  - apply Forall_app. by split; [|repeat constructor].
  - cbn [length] in *. lia.
Qed.

Lemma dstep_write d i c e : writers d !! i = Some (MkWriter c (Some e)) → current d = Some c → device_inv d →
  device_inv (MkDevice (inq d) (current d) (<[i := MkWriter c None]> (writers d)) (made d) (sent d ++ [e]) (looped d)
                (lost d) (queued d)).
Proof.
  intros Hw Hq Hd. destruct (dstep_writer _ _ _ _ Hd Hw) as (l1 & l2 & E & -> & Hn & Hc).
  destruct Hd, d; dev_simpl; subst. rewrite insert_middle.
  assert (Hc' : NoDup (w_conn <$> l1 ++ MkWriter c None :: l2)) by (rewrite fmap_app in *; done).
  unfold held, pending in *. dev_simpl. rewrite held_middle in *.
  split; unfold held, pending; dev_simpl; rewrite ?held_middle; try done.
  - apply Forall_app in di_fresh0 as [F1 [F2 F3]%Forall_cons]. apply Forall_app; split; [done|]. by constructor.
  - rewrite !length_app in *. cbn [length] in *. lia.
  - rewrite di_all0. permute.
  - rewrite held_by_middle, decide_True in * by done. by rewrite <-app_assoc.
  - options. rewrite !Forall_app, Forall_cons in *. naive_solver.
Qed.

Lemma dstep_fail d i c e : writers d !! i = Some (MkWriter c (Some e)) → device_inv d →
  device_inv (MkDevice (inq d) (current d) (remove_at i (writers d)) (made d) (sent d) (looped d) (lost d ++ [e]) (queued d)).
Proof.
  intros Hw Hd. destruct (dstep_writer _ _ _ _ Hd Hw) as (l1 & l2 & E & -> & Hn & Hc).
  destruct Hd, d; dev_simpl; subst. rewrite remove_at_app.
  unfold held, pending in *. dev_simpl. rewrite held_middle in *.
  split; unfold held, pending; dev_simpl; rewrite ?omap_app; try done.
  - apply Forall_app in di_fresh0 as [F1 [F2 F3]%Forall_cons]. by apply Forall_app.
  - rewrite !length_app in *. cbn [length] in *. lia.
  - rewrite di_all0. permute.
  - etrans; [|done]. apply sublist_app; [done|]. apply sublist_app; [|done].
    destruct current0 as [c'|]; [|done]. rewrite held_by_middle by done. case_decide; [|done].
    subst. rewrite held_by_none by done. apply sublist_nil_l.
  - options. rewrite !Forall_app, Forall_cons in *. naive_solver.
Qed.

Lemma dstep_break d : device_inv d →
  device_inv (MkDevice (inq d) None (writers d) (made d) (sent d) (looped d) (lost d) (queued d)).
Proof.
  intros []. split; dev_simpl; try done. etrans; [|done]. apply sublist_app; [done|].
  unfold pending at 1. dev_simpl. apply sublist_inserts_l. done.
Qed.

Lemma dstep_inv d d' : dstep d d' → device_inv d → device_inv d'.
Proof.
  destruct 1; intros; eauto using dstep_queue, dstep_connect, dstep_take, dstep_loop, dstep_write, dstep_fail, dstep_break.
Qed.

Lemma reachable_inv d : reachable d → device_inv d.
Proof. intros H. eapply (rtc_ind_r (R := dstep) device_inv); [apply device0_inv| |done]. eauto using dstep_inv. Qed.

Lemma length_held ws : length (omap w_held ws) ≤ length ws.
Proof. induction ws as [|[c [e|]] ws IH]; cbn in *; lia. Qed.

(** C9.  However the client's goroutines and its reconnections interleave, every packet that
    was queued is in exactly one place (written to a connection, returned to the device,
    lost, in the hands of one goroutine, or still queued); the packets written are packets
    for the server in the order they were queued; those returned are the machine's packets
    to itself; at most one packet is lost per connection made, and the queue is bounded. *)
Theorem client_device d (H : reachable d) :
  queued d ≡ₚ sent d ++ looped d ++ lost d ++ held d ++ inq d ∧
  sublist (sent d ++ inq d) (queued d) ∧
  Forall outward (sent d ++ lost d) ∧ Forall own (looped d) ∧
  length (lost d) + length (held d) ≤ made d ∧ length (inq d) ≤ MaxSize.
Proof.
  apply reachable_inv in H as []. split_and!; try done.
  - etrans; [|done]. apply sublist_app; [done|]. by apply sublist_inserts_l.
  - rewrite app_assoc, Forall_app in di_out0. naive_solver.
  - rewrite <-di_lost0. pose proof (length_held (writers d)). unfold held. lia.
Qed.

(** *** A reconnection *)

Definition example_out (n : byte) : DataElem := MkElem "" [x45; n] 2 (IPv4 xdf xfe x00 x67) (IPv4 x0a x00 x00 n).
Definition reconnected : device :=
  MkDevice [] (Some 1) [MkWriter 1 None] 2 [example_out x02] [] [example_out x01] [example_out x01; example_out x02].

Ltac run_step r := eapply rtc_l;
  [eapply r; first [reflexivity | by apply Nat.ltb_lt]|]; dev_simpl; cbn [insert list_insert app].

(** The first packet after a reconnection is taken by the goroutine of the broken connection
    and lost; the next one is sent. *)
Lemma reconnected_reachable : reachable reconnected.
Proof.
  unfold device0. run_step ds_connect. run_step (λ d, ds_break d 0). run_step ds_connect.
  run_step (ds_queue (example_out x01)). run_step (ds_queue (example_out x02)).
  run_step (λ d, ds_take d 0). run_step (λ d, ds_take d 1). run_step (λ d, ds_write d 1). run_step (λ d, ds_fail d 0).
  apply rtc_refl.
Qed.

Lemma client_device_witness :
  lost reconnected = [example_out x01] ∧
  sublist (sent reconnected ++ inq reconnected) (queued reconnected) ∧ length (lost reconnected) + length (held reconnected) ≤ 2.
Proof.
  destruct (client_device reconnected reconnected_reachable) as (_ & H1 & _ & _ & H2 & _).
  split; [reflexivity|]. split; [exact H1|exact H2].
Defined.

(** *** Writes to the device *)

(** A packet shorter than a header of wireguard is dropped without an error. *)
Example short_write_dropped pool : tun_Write pool (replicate 15 x45) = Ret None.
Proof. reflexivity. Qed.

(** A buffer of the pool has no room for a packet of its own size. *)
Lemma full_write_panics pool b :
  length b ≤ pool → pool < MessageTransportOffsetContent + length b → MessageTransportHeaderSize ≤ length b → tun_Write pool b = Panic.
Proof.
  intros H1 H2 H3. unfold tun_Write. rewrite (proj2 (Nat.ltb_ge _ _)) by done. by rewrite (proj2 (Nat.ltb_lt _ _)).
Qed.
