(* ===== verification/Endpoint.v ===== *)
(** * The endpoint of a client

    [pkg/core/tunendpoint.go]: what [Attach] starts, together with the device of
    [ClientDevice] with which it shares the two channels.  One goroutine reads the tun
    device and gives each packet to the user-space stack or to the queue of the transport,
    one takes the packets of the stack, one writes to the tun device what is on the
    outbound channel: packets of the stack, replies of the server, and packets the machine
    sent to itself. *)
From Stdlib Require Import ZArith Lia.
From Stdlib Require Import Strings.Byte.
From stdpp Require Import base gmap strings numbers relations list.
From S2P Require Import Prelude GoNet Config Framing Tunnel ClientDevice.
From stdpp Require Import list.

(** Where an element of the outbound channel comes from. *)
Inductive origin := FromStack | FromServer | Looped.

#[export] Instance origin_eq_dec : EqDecision origin.
Proof. solve_decision. Defined.

(** The endpoint: whether its goroutines were started and which have ended, the packets
    the stack has written, the outbound channel, and the rest of the client; and the
    history of what the tun device gave, what went to the stack, what was put on the
    outbound channel and what was written to the device. *)
Record endpoint := MkEndpoint {
  e_started : bool; e_cancelled : bool; e_exited : bool; e_read_over : bool; e_pump_over : bool;
  e_stack : list (list byte); e_out : list DataElem; e_dev : device;
  h_stack : list (list byte); h_read : list (list byte); h_injected : list (list byte);
  h_enqueued : list (origin * DataElem); h_written : list (list byte) }.

Definition endpoint0 : endpoint :=
  MkEndpoint false false false false false [] [] device0 [] [] [] [] [].

(** [NewDataElem] of a buffer. *)
Definition elem_of_packet (b src dst : list byte) : DataElem := MkElem "" b (length b) src dst.

(** The packet of the stack in a buffer of the pool. *)
Definition pooled (b : list byte) : DataElem := elem_of_packet (take (Z.to_nat LargeBufferSize) b) [] [].

Definition enqueue (o : origin) (l : list DataElem) (e : endpoint) : endpoint :=
  MkEndpoint (e_started e) (e_cancelled e) (e_exited e) (e_read_over e) (e_pump_over e) (e_stack e) (e_out e ++ l) (e_dev e)
    (h_stack e) (h_read e) (h_injected e) (h_enqueued e ++ (pair o <$> l)) (h_written e).
Definition with_dev (d : device) (e : endpoint) : endpoint :=
  MkEndpoint (e_started e) (e_cancelled e) (e_exited e) (e_read_over e) (e_pump_over e) (e_stack e) (e_out e) d
    (h_stack e) (h_read e) (h_injected e) (h_enqueued e) (h_written e).
Definition with_stack (q : list (list byte)) (e : endpoint) : endpoint :=
  MkEndpoint (e_started e) (e_cancelled e) (e_exited e) (e_read_over e) (e_pump_over e) q (e_out e) (e_dev e)
    (h_stack e) (h_read e) (h_injected e) (h_enqueued e) (h_written e).
Definition with_flags (started cancelled exited read_over pump_over : bool) (e : endpoint) : endpoint :=
  MkEndpoint started cancelled exited read_over pump_over (e_stack e) (e_out e) (e_dev e)
    (h_stack e) (h_read e) (h_injected e) (h_enqueued e) (h_written e).
Definition reads (b : list byte) (injected : list (list byte)) (e : endpoint) : endpoint :=
  MkEndpoint (e_started e) (e_cancelled e) (e_exited e) (e_read_over e) (e_pump_over e) (e_stack e) (e_out e) (e_dev e)
    (h_stack e) (h_read e ++ [b]) (h_injected e ++ injected) (h_enqueued e) (h_written e).

(** The queue of the transport with one more packet. *)
Definition queue_elem (x : DataElem) (d : device) : device :=
  MkDevice (inq d ++ [x]) (current d) (writers d) (made d) (sent d) (looped d) (lost d) (queued d ++ [x]).

Section steps.
Context (engine : Engine).

Inductive estep : endpoint → endpoint → Prop :=
  (** [Attach], which starts the goroutines the first time *)
  | es_attach e : e_exited e = false →
      estep e (with_flags true (e_cancelled e) false (e_read_over e) (e_pump_over e) e)
  | es_cancel e : e_exited e = false →
      estep e (with_flags (e_started e) true false (e_read_over e) (e_pump_over e) e)
  (** the stack writes a packet *)
  | es_stack b e : e_exited e = false →
      estep e (MkEndpoint (e_started e) (e_cancelled e) false (e_read_over e) (e_pump_over e) (e_stack e ++ [b]) (e_out e) (e_dev e)
                 (h_stack e ++ [b]) (h_read e) (h_injected e) (h_enqueued e) (h_written e))
  (** it is taken to the outbound channel *)
  | es_pump b q e : e_exited e = false → e_started e = true → e_pump_over e = false → e_stack e = b :: q → length (e_out e) < MaxSize →
      estep e (enqueue FromStack [pooled b] (with_stack q e))
  | es_pump_over e : e_exited e = false → e_started e = true → e_cancelled e = true →
      estep e (with_flags true true false (e_read_over e) true e)
  (** a packet is read from the tun device: for the stack, for the transport, or dropped *)
  | es_inject b e : e_exited e = false → e_started e = true → e_read_over e = false →
      endpoint_read engine CIDR CIDR6 b = InjectInbound b → estep e (reads b [b] e)
  | es_inbound b src dst e : e_exited e = false → e_started e = true → e_read_over e = false →
      endpoint_read engine CIDR CIDR6 b = ToInbound b src dst → length (inq (e_dev e)) < MaxSize →
      estep e (with_dev (queue_elem (elem_of_packet b src dst) (e_dev e)) (reads b [] e))
  | es_skip b e : e_exited e = false → e_started e = true → e_read_over e = false →
      endpoint_read engine CIDR CIDR6 b = Skip → estep e (reads b [] e)
  (** a read fails: the end of the goroutine after the context's, otherwise of the process *)
  | es_read_error e : e_exited e = false → e_started e = true → e_read_over e = false →
      estep e (with_flags true (e_cancelled e) (negb (e_cancelled e)) true (e_pump_over e) e)
  (** a packet is written to the tun device, or that fails, which ends the process *)
  | es_write x q e : e_exited e = false → e_started e = true → e_out e = x :: q →
      estep e (MkEndpoint true (e_cancelled e) false (e_read_over e) (e_pump_over e) (e_stack e) q (e_dev e)
                 (h_stack e) (h_read e) (h_injected e) (h_enqueued e) (h_written e ++ [payload x]))
  | es_write_error x q e : e_exited e = false → e_started e = true → e_out e = x :: q →
      estep e (with_flags true (e_cancelled e) true (e_read_over e) (e_pump_over e) e)
  (** the server replies *)
  | es_reply x e : e_exited e = false → length (e_out e) < MaxSize → estep e (enqueue FromServer [x] e)
  (** the rest of the client: what it returns to the machine goes on the channel *)
  | es_dev d e : e_exited e = false → dstep (e_dev e) d →
      length (e_out e) + (length (looped d) - length (looped (e_dev e))) ≤ MaxSize →
      estep e (enqueue Looped (drop (length (looped (e_dev e))) (looped d)) (with_dev d e)).
End steps.

(** ** The split, by the bytes of a packet

    What the comment of the goroutine says, independently of the parsers: with the engine
    "gvisor" TCP and UDP go to the stack, with "mix" those to the cluster's networks, that
    is to addresses outside the pools 223.254.0.0/16 and efff:ffff:ffff:ffff::/64. *)

Definition first_byte (b : list byte) : Z := match b with b0 :: _ => b2z b0 | [] => 0 end.

(** A complete header: of IPv4 at least 20 bytes and as many words as it says, of IPv6 40
    bytes. *)
Definition ipv4_packet (b : list byte) : bool :=
  (first_byte b / 16 =? 4)%Z && (20 <=? length b) && (4 * (first_byte b `mod` 16) <=? Z.of_nat (length b))%Z.
Definition ipv6_packet (b : list byte) : bool := (first_byte b / 16 =? 6)%Z && (40 <=? length b).
Definition ip_packet (b : list byte) : bool := ipv4_packet b || ipv6_packet b.

(** TCP, UDP and UDP-Lite. *)
Definition transport_packet (b : list byte) : bool :=
  match b !! (if ipv4_packet b then 9 else 6) with
  | Some p => bool_decide (b2z p ∈ [6; 17; 136]%Z)
  | None => false
  end.

(** The destination is in a pool; an IPv6 destination may hold an IPv4 address. *)
Definition pool_destination (b : list byte) : bool :=
  if ipv4_packet b then bool_decide (take 2 (drop 16 b) = [xdf; xfe])
  else bool_decide (take 8 (drop 24 b) = [xef; xff; xff; xff; xff; xff; xff; xff]) ||
       bool_decide (take 14 (drop 24 b) = replicate 10 x00 ++ [xff; xff; xdf; xfe]).

Definition stack_takes (engine : Engine) (b : list byte) : bool :=
  ip_packet b && transport_packet b &&
  (String.eqb engine "gvisor" || (String.eqb engine "mix" && negb (pool_destination b))).

Definition source_of (b : list byte) : list byte :=
  if ipv4_packet b then replicate 10 x00 ++ [xff; xff] ++ take 4 (drop 12 b) else take 16 (drop 8 b).
Definition destination_of (b : list byte) : list byte :=
  if ipv4_packet b then replicate 10 x00 ++ [xff; xff] ++ take 4 (drop 16 b) else take 16 (drop 24 b).

(** What the transport gets of a packet. *)
Definition for_transport (engine : Engine) (b : list byte) : option DataElem :=
  if ip_packet b && negb (stack_takes engine b) then Some (elem_of_packet b (source_of b) (destination_of b)) else None.

Lemma take_4 {A} (l : list A) : 4 ≤ length l → ∃ a b c d, take 4 l = [a; b; c; d].
Proof. destruct l as [|a [|b [|c [|d l]]]]; cbn; try lia. intros _. by eexists _, _, _, _. Qed.
Lemma take_16 {A} (l : list A) : 16 ≤ length l →
  ∃ a b c d e f g h i j k m n o p q, take 16 l = [a; b; c; d; e; f; g; h; i; j; k; m; n; o; p; q].
Proof. intros H. do 16 (destruct l as [|? l]; [cbn in H; lia|]). by repeat eexists. Qed.

(** The pools among 16 bytes. *)
Lemma pools_contain (ip : list byte) : length ip = 16 →
  negb (IPNet_Contains CIDR ip) && negb (IPNet_Contains CIDR6 ip) =
  negb (bool_decide (take 8 ip = [xef; xff; xff; xff; xff; xff; xff; xff]) ||
        bool_decide (take 14 ip = replicate 10 x00 ++ [xff; xff; xdf; xfe])).
Proof.
  intros H. destruct (take_16 ip) as (a & b & c & d & e & f & g & h & i & j & k & m & n & o & p & q & E); [lia|].
  rewrite take_ge in E by lia. subst ip. clear H. rewrite <- negb_orb. f_equal. cbn [take replicate app].
  destruct (decide ([a; b; c; d; e; f; g; h; i; j; k; m] = v4InV6Prefix)) as [[= -> -> -> -> -> -> -> -> -> -> -> ->]|Hn].
  - change [x00; x00; x00; x00; x00; x00; x00; x00; x00; x00; xff; xff; n; o; p; q] with (IPv4 n o p q).
    rewrite CIDR_Contains_v4, CIDR6_Contains_v4, orb_false_r.
    rewrite (bool_decide_eq_false_2 (_ = [xef; _; _; _; _; _; _; _])) by done. cbn [orb].
    apply bool_decide_ext. split; [by intros [-> ->]|by intros [= -> ->]].
  - assert (To4 [a; b; c; d; e; f; g; h; i; j; k; m; n; o; p; q] = None) as Ht.
    { unfold To4. rewrite bool_decide_eq_false_2 by done. rewrite bool_decide_eq_false_2; [done|]. by intros [_ ?]. }
    unfold IPNet_Contains. rewrite Ht.
    change (networkNumberAndMask CIDR) with (Some ([xdf; xfe; x00; x00], [xff; xff; x00; x00])). cbn [default id length].
    rewrite (bool_decide_eq_false_2 (16 = 4)) by done. cbn [andb orb].
    change (networkNumberAndMask CIDR6) with (Some ([xef; xff; xff; xff; xff; xff; xff; xff; x00; x00; x00; x00; x00; x00; x00; x00],
      [xff; xff; xff; xff; xff; xff; xff; xff; x00; x00; x00; x00; x00; x00; x00; x00])). cbn [length].
    rewrite (bool_decide_eq_true_2 (16 = 16)) by done. unfold and_bytes. cbn [zip_with].
    rewrite !byte_and_ff, !byte_and_00. cbn [andb].
    rewrite (bool_decide_eq_false_2 (_ = [x00; _; _; _; _; _; _; _; _; _; _; _; _; _])).
    2: { intros [= -> -> -> -> -> -> -> -> -> -> -> -> _ _]. by apply Hn. }
    rewrite orb_false_r. apply bool_decide_ext. split; [|by intros [= -> -> -> -> -> -> -> ->]].
    by intros [= <- <- <- <- <- <- <- <-].
Qed.

Lemma transport_iff (p : byte) :
  (b2z p =? IPProtocolUDP)%Z || (b2z p =? IPProtocolUDPLite)%Z || (b2z p =? IPProtocolTCP)%Z =
  bool_decide (b2z p ∈ [6; 17; 136]%Z).
Proof.
  symmetry. unfold IPProtocolUDP, IPProtocolUDPLite, IPProtocolTCP.
  destruct (Z.eqb_spec (b2z p) 17), (Z.eqb_spec (b2z p) 136), (Z.eqb_spec (b2z p) 6); cbn [orb];
    first [apply bool_decide_eq_true_2; set_solver|apply bool_decide_eq_false_2; set_solver].
Qed.

(** The headers the parsers accept. *)
Lemma parse_v4_spec b0 r (b := b0 :: r) : version b0 = 4%Z →
  match parse_v4_header b with
  | Some (proto, src, dst) => ipv4_packet b = true ∧ (∃ p, b !! 9 = Some p ∧ proto = b2z p) ∧
      src = source_of b ∧ dst = destination_of b ∧
      ∃ d0 d1 d2 d3, take 4 (drop 16 b) = [d0; d1; d2; d3] ∧ dst = IPv4 d0 d1 d2 d3
  | None => ip_packet b = false
  end.
Proof.
  intros Hv. pose proof (b2z_range b0) as Hb.
  assert (first_byte b / 16 = 4)%Z as Hf.
  { unfold version in Hv. rewrite Z.shiftr_div_pow2 in Hv by lia. exact Hv. }
  assert (Z.shiftl (Z.land (b2z b0) 15) 2 = 4 * (b2z b0 `mod` 16))%Z as Hi.
  { change 15%Z with (Z.ones 4). rewrite Z.land_ones, Z.shiftl_mul_pow2 by lia. change (2 ^ 4)%Z with 16%Z. lia. }
  unfold parse_v4_header, source_of, destination_of, ip_packet, ipv6_packet, ipv4_packet. rewrite Hf.
  cbn [first_byte b]. rewrite Z.eqb_refl. cbn [andb Z.eqb Pos.eqb]. rewrite orb_false_r.
  destruct (Nat.ltb_spec (length b) 20) as [Hl|Hl].
  { destruct (Nat.leb_spec 20 (length b)); [lia|done]. }
  destruct (Nat.leb_spec 20 (length b)); [|lia]. cbn [andb]. fold b. rewrite Hi.
  destruct (Z.ltb_spec (Z.of_nat (length b)) (4 * (b2z b0 `mod` 16))) as [Hx|Hx].
  { destruct (Z.leb_spec (4 * (b2z b0 `mod` 16)) (Z.of_nat (length b))); [lia|done]. }
  destruct (Z.leb_spec (4 * (b2z b0 `mod` 16)) (Z.of_nat (length b))); [|lia].
  rewrite !ipv4_at_Ret by lia. destruct (lookup_lt_is_Some_2 b 9) as [p Hp]; [lia|]. rewrite Hp.
  split; [done|]. split; [by exists p|].
  destruct (take_4 (drop 16 b)) as (d0 & d1 & d2 & d3 & Ed); [rewrite length_drop; lia|].
  split; [done|]. split; [done|]. exists d0, d1, d2, d3. by rewrite Ed.
Qed.

Lemma parse_v6_spec b0 r (b := b0 :: r) : version b0 = 6%Z →
  match parse_v6_header b with
  | Some (proto, src, dst) => ipv4_packet b = false ∧ ipv6_packet b = true ∧ (∃ p, b !! 6 = Some p ∧ proto = b2z p) ∧
      src = take 16 (drop 8 b) ∧ dst = take 16 (drop 24 b) ∧ length dst = 16
  | None => ip_packet b = false
  end.
Proof.
  intros Hv. assert (first_byte b / 16 = 6)%Z as Hf.
  { unfold version in Hv. rewrite Z.shiftr_div_pow2 in Hv by lia. exact Hv. }
  unfold parse_v6_header, ip_packet, ipv6_packet, ipv4_packet. rewrite Hf. cbn [Z.eqb Pos.eqb andb orb].
  destruct (Nat.ltb_spec (length b) 40) as [Hl|Hl].
  { destruct (Nat.leb_spec 40 (length b)); [lia|done]. }
  destruct (Nat.leb_spec 40 (length b)); [|lia].
  destruct (lookup_lt_is_Some_2 b 6) as [p Hp]; [lia|]. rewrite Hp.
  split; [done|]. split; [done|]. split; [by exists p|].
  assert (drop 8 (take 24 b) = take 16 (drop 8 b)) as -> by (by rewrite take_drop_commute).
  assert (drop 24 (take 40 b) = take 16 (drop 24 b)) as -> by (by rewrite take_drop_commute).
  split; [done|]. split; [done|]. rewrite length_take, length_drop. lia.
Qed.

(** The code agrees with the specification on every packet. *)
Lemma endpoint_read_split engine b :
  endpoint_read engine CIDR CIDR6 b =
  if stack_takes engine b then InjectInbound b
  else if ip_packet b then ToInbound b (source_of b) (destination_of b) else Skip.
Proof.
  destruct b as [|b0 r]; [done|]. unfold endpoint_read, stack_takes, EngineGvisor, EngineMix.
  destruct (Z.eqb_spec (version b0) 4) as [H4|H4]; [|destruct (Z.eqb_spec (version b0) 6) as [H6|H6]].
  - pose proof (parse_v4_spec b0 r H4) as Hp. destruct (parse_v4_header _) as [[[proto src] dst]|]; [|by rewrite Hp].
    destruct Hp as (H & (p & Hb & ->) & -> & Ed & d0 & d1 & d2 & d3 & Et & Hd).
    rewrite <- Ed, Hd, CIDR_Contains_v4, CIDR6_Contains_v4, transport_iff, <- Hd, Ed. cbn [negb]. rewrite andb_true_r.
    unfold ip_packet, transport_packet, pool_destination. rewrite H, Hb. cbn [orb andb].
    assert (take 2 (drop 16 (b0 :: r)) = [d0; d1]) as ->.
    { transitivity (take 2 (take 4 (drop 16 (b0 :: r)))); [by rewrite take_take|by rewrite Et]. }
    assert (bool_decide (d0 = xdf ∧ d1 = xfe) = bool_decide ([d0; d1] = [xdf; xfe])) as ->.
    { apply bool_decide_ext. split; [by intros [-> ->]|by intros [= -> ->]]. }
    done.
  - pose proof (parse_v6_spec b0 r H6) as Hp. destruct (parse_v6_header _) as [[[proto src] dst]|]; [|by rewrite Hp].
    destruct Hp as (H & H' & (p & Hb & ->) & -> & -> & Hl). rewrite transport_iff, (pools_contain _ Hl).
    unfold ip_packet, transport_packet, pool_destination, source_of, destination_of. rewrite H, H', Hb. cbn [orb andb].
    rewrite !take_take. done.
  - assert (ip_packet (b0 :: r) = false) as ->; [|done]. unfold version in H4, H6. rewrite Z.shiftr_div_pow2 in H4, H6 by lia.
    unfold ip_packet, ipv4_packet, ipv6_packet. cbn [first_byte].
    destruct (Z.eqb_spec (b2z b0 / 16) 4) as [|_]; [done|]. by destruct (Z.eqb_spec (b2z b0 / 16) 6).
Qed.

(** ** Invariant *)

(** The elements of an origin. *)
Definition from (o : origin) (l : list (origin * DataElem)) : list DataElem :=
  omap (λ x, if bool_decide (fst x = o) then Some (snd x) else None) l.
#[global] Arguments from : simpl never.
#[global] Arguments pooled : simpl never.

Lemma from_app o l k : from o (l ++ k) = from o l ++ from o k.
Proof. apply omap_app. Qed.
Lemma from_pair o o' l : from o (pair o' <$> l) = if bool_decide (o' = o) then l else [].
Proof.
  unfold from. induction l as [|x l IH]; cbn; [by case_bool_decide|]. case_bool_decide; cbn in *; by rewrite IH.
Qed.
Lemma omap_snoc {A B} (f : A → option B) l x : omap f (l ++ [x]) = omap f l ++ option_list (f x).
Proof. rewrite omap_app. cbn. by destruct (f x). Qed.

Record endpoint_inv (engine : Engine) (e : endpoint) : Prop := {
  ei_dev : reachable (e_dev e);
  ei_stack : ∃ pumped, h_stack e = pumped ++ e_stack e ∧ from FromStack (h_enqueued e) = pooled <$> pumped;
  ei_looped : from Looped (h_enqueued e) = looped (e_dev e);
  ei_out : (payload ∘ snd) <$> h_enqueued e = h_written e ++ (payload <$> e_out e);
  ei_injected : h_injected e = List.filter (stack_takes engine) (h_read e);
  ei_inbound : sublist (omap (for_transport engine) (h_read e)) (queued (e_dev e));
  ei_bound : length (e_out e) ≤ MaxSize }.

Lemma endpoint0_inv engine : endpoint_inv engine endpoint0.
Proof. split; cbn; try done; [by exists []|lia]. Qed.

(** A step of the rest of the client only adds to what was returned and queued. *)
Lemma dstep_grows d d' : dstep d d' →
  (∃ l, looped d' = looped d ++ l) ∧ sublist (queued d) (queued d').
Proof.
  destruct 1; cbn; (split; [first [by eexists|exists []; by rewrite app_nil_r]|first [done|by apply sublist_inserts_r]]).
Qed.

Lemma enqueue_inv engine o l e :
  endpoint_inv engine e → o ≠ FromStack → o ≠ Looped → length (e_out e) + length l ≤ MaxSize → endpoint_inv engine (enqueue o l e).
Proof.
  intros [] Ho Hl Hb. split; cbn; try done.
  - destruct ei_stack0 as (pumped & H1 & H2). exists pumped. split; [done|].
    rewrite from_app, from_pair, bool_decide_eq_false_2 by done. by rewrite app_nil_r.
  - rewrite from_app, from_pair, bool_decide_eq_false_2 by done. by rewrite app_nil_r.
  - rewrite fmap_app, ei_out0, fmap_app, app_assoc. f_equal. by rewrite <-list_fmap_compose.
  - by rewrite length_app.
Qed.

Lemma pump_inv engine b q e :
  endpoint_inv engine e → e_stack e = b :: q → length (e_out e) < MaxSize →
  endpoint_inv engine (enqueue FromStack [pooled b] (with_stack q e)).
Proof.
  intros [] Hs Hb. split; cbn; try done.
  - destruct ei_stack0 as (pumped & H1 & H2). exists (pumped ++ [b]). split; [by rewrite H1, Hs, <-app_assoc|].
    by rewrite from_app, H2, fmap_app.
  - rewrite from_app. change (from Looped [(FromStack, pooled b)]) with (@nil DataElem). by rewrite app_nil_r.
  - by rewrite fmap_app, ei_out0, fmap_app, app_assoc.
  - rewrite length_app. cbn. lia.
Qed.

Lemma dev_inv engine d e :
  endpoint_inv engine e → dstep (e_dev e) d →
  length (e_out e) + (length (looped d) - length (looped (e_dev e))) ≤ MaxSize →
  endpoint_inv engine (enqueue Looped (drop (length (looped (e_dev e))) (looped d)) (with_dev d e)).
Proof.
  intros [] Hd Hb. destruct (dstep_grows _ _ Hd) as [[l Hl] Hq]. rewrite Hl, drop_app_length in *.
  rewrite length_app in Hb. split; cbn; try done.
  - by eapply rtc_r.
  - destruct ei_stack0 as (pumped & H1 & H2). exists pumped. split; [done|].
    rewrite from_app, from_pair. cbn. by rewrite app_nil_r.
  - rewrite from_app, from_pair, bool_decide_eq_true_2 by done. by rewrite ei_looped0, Hl.
  - rewrite fmap_app, ei_out0, fmap_app, app_assoc. f_equal. by rewrite <-list_fmap_compose.
  - by etrans.
  - rewrite length_app. lia.
Qed.

Lemma read_inv engine b injected e :
  endpoint_inv engine e → (if stack_takes engine b then [b] else []) = injected → for_transport engine b = None →
  endpoint_inv engine (reads b injected e).
Proof.
  intros [] Hi Ht. split; cbn; try done.
  - rewrite List.filter_app, ei_injected0, <- Hi. cbn. by destruct (stack_takes engine b).
  - rewrite omap_snoc, Ht. cbn. by rewrite app_nil_r.
Qed.

Lemma inbound_inv engine b x e :
  endpoint_inv engine e → stack_takes engine b = false → for_transport engine b = Some x → length (inq (e_dev e)) < MaxSize →
  endpoint_inv engine (with_dev (queue_elem x (e_dev e)) (reads b [] e)).
Proof.
  intros [] Hs Ht Hb. split; cbn; try done.
  - eapply rtc_r; [done|]. by apply ds_queue.
  - rewrite List.filter_app, ei_injected0. cbn. by rewrite Hs.
  - rewrite omap_snoc, Ht. cbn. by apply sublist_app.
Qed.

Lemma estep_inv engine e e' : estep engine e e' → endpoint_inv engine e → endpoint_inv engine e'.
Proof.
  destruct 1 as [e|e|b e Hx|b q e Hx Hst Hp Hs Hl|e|b e Hx Hst Hr E|b src dst e Hx Hst Hr E Hl|b e Hx Hst Hr E|e|x q e Hx Hst Ho|x q e|x e Hx Hl|d e Hx Hd Hl];
    intros He; try (by destruct He).
  - destruct He. split; cbn; try done. destruct ei_stack0 as (pumped & H1 & H2). exists pumped. by rewrite H1, <-app_assoc.
  - by apply pump_inv.
  - rewrite endpoint_read_split in E. destruct (stack_takes engine b) eqn:Ht; [|by destruct (ip_packet b)].
    apply read_inv; [done|by rewrite Ht|unfold for_transport; by rewrite Ht, andb_false_r].
  - rewrite endpoint_read_split in E. destruct (stack_takes engine b) eqn:Ht; [done|].
    destruct (ip_packet b) eqn:Hi; [|done]. injection E as <- <-.
    apply inbound_inv; [done|done|unfold for_transport; by rewrite Ht, Hi|done].
  - rewrite endpoint_read_split in E. destruct (stack_takes engine b) eqn:Ht; [done|].
    destruct (ip_packet b) eqn:Hi; [done|]. apply read_inv; [done|by rewrite Ht|unfold for_transport; by rewrite Hi].
  - destruct He. split; cbn; try done.
    + rewrite ei_out0, Ho. cbn. by rewrite <-app_assoc.
    + rewrite Ho in ei_bound0. cbn in ei_bound0. lia.
  - apply enqueue_inv; [done..|]. cbn. lia.
  - by apply dev_inv.
Qed.

Lemma endpoint_reachable_inv engine e : rtc (estep engine) endpoint0 e → endpoint_inv engine e.
Proof. intros H. eapply (rtc_ind_r (R := estep engine) (endpoint_inv engine)); [apply endpoint0_inv| |done]. eauto using estep_inv. Qed.

(** ** The endpoint *)

(** C7.  However the goroutines of the endpoint, of the stack, of the transport and of the
    server interleave, and however often the endpoint is attached: the stack is given, in
    order, exactly the packets of the tun device with a complete IPv4 or IPv6 header that
    are TCP, UDP or UDP-Lite, when the engine is "gvisor", or when it is "mix" and the
    destination is in neither of the pools 223.254.0.0/16 and efff:ffff:ffff:ffff::/64
    ([stack_takes], by the bytes of the packet); every other packet with a complete header
    was queued for the transport, in order and with the addresses of its header, and what
    was queued is in exactly one place (sent, returned to the machine, lost, held or
    queued); what is written to the tun device is, in order, what was put on the outbound
    channel, and the rest is still there; the packets of the stack reach that channel in
    order and none is skipped, and those returned to the machine are its packets to
    itself. *)
Theorem client_endpoint engine e (H : rtc (estep engine) endpoint0 e) :
  h_injected e = List.filter (stack_takes engine) (h_read e) ∧
  sublist (omap (for_transport engine) (h_read e)) (queued (e_dev e)) ∧
  queued (e_dev e) ≡ₚ sent (e_dev e) ++ looped (e_dev e) ++ lost (e_dev e) ++ held (e_dev e) ++ inq (e_dev e) ∧
  (payload ∘ snd) <$> h_enqueued e = h_written e ++ (payload <$> e_out e) ∧
  (∃ pumped, h_stack e = pumped ++ e_stack e ∧ from FromStack (h_enqueued e) = pooled <$> pumped) ∧
  from Looped (h_enqueued e) = looped (e_dev e) ∧ Forall own (looped (e_dev e)) ∧
  length (e_out e) ≤ MaxSize.
Proof.
  destruct (endpoint_reachable_inv _ _ H). pose proof (reachable_inv _ ei_dev0) as [].
  split_and!; done.
Qed.

(** The channel can always be written to the tun device. *)
Lemma drain_out engine c ro po st dev hs hr hi he out w :
  rtc (estep engine) (MkEndpoint true c false ro po st out dev hs hr hi he w)
    (MkEndpoint true c false ro po st [] dev hs hr hi he (w ++ (payload <$> out))).
Proof.
  revert w. induction out as [|x out IH]; intros w; cbn; [by rewrite app_nil_r|].
  eapply rtc_l; [by eapply es_write|]. cbn.
  replace (w ++ payload x :: (payload <$> out)) with ((w ++ [payload x]) ++ (payload <$> out)) by (by rewrite <-app_assoc). apply IH.
Qed.

(** The stack's packets come out of the tun device: from every state in which the
    goroutines run, the packets on the channel and those of the stack can be written, and
    nothing else is needed. *)
Lemma endpoint_drains engine e :
  e_exited e = false → e_started e = true → e_pump_over e = false →
  ∃ e', rtc (estep engine) e e' ∧ e_stack e' = [] ∧ e_out e' = [] ∧
    h_written e' = h_written e ++ (payload <$> e_out e) ++ ((payload ∘ pooled) <$> e_stack e).
Proof.
  destruct e as [s c x ro po st out dev hs hr hi he w]. cbn. intros -> -> ->.
  revert he out w. induction st as [|b st IH]; intros he out w.
  { eexists. split; [apply drain_out|]. cbn. by rewrite app_nil_r. }
  edestruct (IH (he ++ [(FromStack, pooled b)]) [pooled b] (w ++ (payload <$> out))) as (e' & R & H1 & H2 & H3).
  exists e'. split_and!; [|done|done|cbn in *; by rewrite H3, <-!app_assoc].
  etrans; [apply drain_out|]. eapply rtc_l; [eapply es_pump; cbn; try done; unfold MaxSize; lia|exact R].
Qed.

(** *** A run *)

(** A packet for the cluster and one for the server's network, with the engine "mix". *)
Definition example_tcp : list byte := take 9 example_v4 ++ [x06] ++ take 6 (drop 10 example_v4) ++ [x0a; x00; x00; x05].
Definition example_end : endpoint :=
  MkEndpoint true false false false false [] [] (queue_elem (elem_of_packet example_v4 (IPv4 xdf xfe x00 x67) (IPv4 xdf xfe x00 x64)) device0)
    [example_tcp] [example_tcp; example_v4] [example_tcp] [(FromStack, pooled example_tcp)] [payload (pooled example_tcp)].

Lemma client_endpoint_witness :
  h_injected example_end = List.filter (stack_takes EngineMix) [example_tcp; example_v4] ∧ h_injected example_end = [example_tcp] ∧
  from FromStack (h_enqueued example_end) = [pooled example_tcp].
Proof.
  destruct (client_endpoint EngineMix example_end) as (H1 & _ & _ & _ & (pumped & H2 & H3) & _).
  - eapply rtc_l; [apply es_attach; reflexivity|].
    eapply rtc_l; [apply (es_inject EngineMix example_tcp); [reflexivity..|vm_compute; reflexivity]|].
    eapply rtc_l; [apply (es_inbound EngineMix example_v4 (IPv4 xdf xfe x00 x67) (IPv4 xdf xfe x00 x64)); [reflexivity..|vm_compute; reflexivity|cbn; unfold MaxSize; lia]|].
    eapply rtc_l; [apply (es_stack EngineMix example_tcp); reflexivity|].
    eapply rtc_l; [eapply es_pump; [reflexivity..|cbn; unfold MaxSize; lia]|].
    eapply rtc_l; [eapply es_write; reflexivity|]. apply rtc_refl.
  - split; [exact H1|]. split; [reflexivity|]. rewrite H3. cbn in H2. rewrite app_nil_r in H2. rewrite <-H2. reflexivity.
Defined.
