(* ===== verification/ServerDevice.v ===== *)
(** * The device of the server

    The goroutines of [pkg/core/tunhandler.go] and the channels between them: packets read
    from the device pass [tunInboundRaw], the parsers and [tunInbound] to [routeTUN];
    packets of UDP peers pass [connInbound], the parsers and [parsedConnInfo] to
    [routePeer], and packets of TCP peers come to it from the shared channel [Chan].  What
    goes to the device waits in [tunOutbound].  When a goroutine of a peer fails, the handler of
    the device listens again and makes a new peer; the goroutines of the old one stay.  One
    step of one goroutine is an event; [exec] runs an event where it is possible. *)
From Stdlib Require Import ZArith Lia.
From Stdlib Require Import Strings.Byte.
From stdpp Require Import base gmap strings numbers list.
From S2P Require Import Prelude GoStrings GoNet Config Framing NatTable Tunnel ClientDevice.
From stdpp Require Import list.

(** ** State *)

(** What all goroutines share: the channels between a device and its peers, the route tables,
    whether a goroutine has panicked (which ends the process); and the payloads received, sent
    on, and dropped so far. *)
Record shared := MkShared {
  tunIn : list DataElem; tunOut : list DataElem; tcpChan : list datagramPacket;
  sh_nat : NAT; sh_conns : ConnNAT; crashed : bool;
  ins : list (list byte); outs : list (list byte); drops : list (list byte) }.

(** A [parseHeader] goroutine: its flags and the packet it waits to send. *)
Record parser := MkParser { ps_flags : bool * bool; ps_held : option DataElem }.

(** A [Peer]: the socket, the channels, the packet [readFromTCPConn] waits to send, [routePeer]
    ([None] when it has ended, else the packet it waits to send to the device), whether
    [routeTUN] and [readFromConn] still run, and whether [errChan] holds an error. *)
Record peer := MkPeer {
  pr_open : bool; connIn : list DataElem; pr_parsers : list parser; pr_tcp : option DataElem;
  parsedConn : list DataElem; pr_router : option (option DataElem); pr_routeTUN : bool; pr_readConn : bool; pr_err : bool }.

Definition new_peer : peer :=
  MkPeer true [] (replicate 10 (MkParser (true, true) None)) None [] (Some None) true true false.

(** The [Device]: the parsers' packets, its two ends, and its peers, the last of which is
    the current one; [listening] ends when the UDP socket cannot be opened. *)
Record server := MkServer {
  sv : shared; raw : list DataElem; dparsers : list (option DataElem); sv_reader : bool; sv_writer : bool;
  listening : bool; peers : list peer }.

Definition shared0 : shared := MkShared [] [] [] NewNAT ∅ false [] [] [].
Definition server0 : server := MkServer shared0 [] (replicate 10 None) true true true [new_peer].

(** ** Steps of a peer *)

Inductive pevent :=
  | PRead (e : DataElem)
  | PReadErr
  | PParseTake (i : nat)
  | PParseSend (i : nat)
  | PTcpTake
  | PTcpSend
  | PRoute (rnd : nat) (werr : option error)
  | PRouteSend
  | PTun (rnd : nat) (werr : option error).

Section setters.
Variable s : shared.
Definition set_in l := MkShared l (tunOut s) (tcpChan s) (sh_nat s) (sh_conns s) (crashed s) (ins s) (outs s) (drops s).
Definition set_out l := MkShared (tunIn s) l (tcpChan s) (sh_nat s) (sh_conns s) (crashed s) (ins s) (outs s) (drops s).
Definition set_tcp l := MkShared (tunIn s) (tunOut s) l (sh_nat s) (sh_conns s) (crashed s) (ins s) (outs s) (drops s).
Definition set_nat n := MkShared (tunIn s) (tunOut s) (tcpChan s) n (sh_conns s) (crashed s) (ins s) (outs s) (drops s).
Definition set_conns c := MkShared (tunIn s) (tunOut s) (tcpChan s) (sh_nat s) c (crashed s) (ins s) (outs s) (drops s).
Definition received b :=
  MkShared (tunIn s) (tunOut s) (tcpChan s) (sh_nat s) (sh_conns s) (crashed s) (ins s ++ [b]) (outs s) (drops s).
Definition delivered b :=
  MkShared (tunIn s) (tunOut s) (tcpChan s) (sh_nat s) (sh_conns s) (crashed s) (ins s) (outs s ++ [b]) (drops s).
Definition dropped b :=
  MkShared (tunIn s) (tunOut s) (tcpChan s) (sh_nat s) (sh_conns s) (crashed s) (ins s) (outs s) (drops s ++ [b]).
Definition crash b :=
  MkShared (tunIn s) (tunOut s) (tcpChan s) (sh_nat s) (sh_conns s) true (ins s) (outs s) (drops s ++ [b]).
End setters.

Definition room {A} (l : list A) : bool := length l <? MaxSize.

(** A write on the UDP socket of a closed peer fails. *)
Definition can_write (opened : bool) (a : action) (werr : option error) : bool :=
  match a, werr with SendUDP _ _, None => opened | _, _ => true end.

Definition frame_payload (pk : datagramPacket) : list byte := take (Z.to_nat (DataLength pk)) (Data pk).

(** [routePeer] and [routeTUN] after the lookup: the packet is written, dropped for want of a
    route, or its write fails, which ends the goroutine. *)
Definition after_route (s : shared) (e : DataElem) (r : routed) : shared :=
  match r_stop r, r_action r with
  | Some _, _ => dropped s (payload e)
  | None, NoRoute => dropped s (payload e)
  | None, _ => delivered s (payload e)
  end.

Definition is_none {A} (o : option A) : bool := match o with None => true | _ => false end.

Definition pexec (ev : pevent) (s : shared) (p : peer) : option (shared * peer) :=
  let '(MkPeer opened cin pars tcp parsed router rtun rconn err) := p in
  match ev with
  | PRead e =>
      if rconn && opened && room cin
      then Some (received s (payload e), MkPeer opened (cin ++ [e]) pars tcp parsed router rtun rconn err) else None
  | PReadErr =>
      if rconn then Some (s, MkPeer opened cin pars tcp parsed router rtun false true) else None
  | PParseTake i =>
      match pars !! i, cin with
      | Some (MkParser flags None), e :: q =>
          match parseHeader flags (sh_nat s) e with
          | Ret (flags', n, Some e') =>
              Some (set_nat s n, MkPeer opened q (<[i := MkParser flags' (Some e')]> pars) tcp parsed router rtun rconn err)
          | Ret (flags', n, None) =>
              Some (dropped s (payload e), MkPeer opened q (<[i := MkParser flags' None]> pars) tcp parsed router rtun rconn err)
          | _ => Some (crash s (payload e), MkPeer opened q pars tcp parsed router rtun rconn err)
          end
      | _, _ => None
      end
  | PParseSend i =>
      match pars !! i with
      | Some (MkParser flags (Some e)) =>
          if room parsed
          then Some (s, MkPeer opened cin (<[i := MkParser flags None]> pars) tcp (parsed ++ [e]) router rtun rconn err)
          else None
      | _ => None
      end
  | PTcpTake =>
      match tcp, tcpChan s with
      | None, pk :: q =>
          match readFromTCPConn pk with
          | Ret (Some e) => Some (set_tcp s q, MkPeer opened cin pars (Some e) parsed router rtun rconn err)
          | Ret None => Some (dropped (set_tcp s q) (frame_payload pk), p)
          | _ => Some (crash (set_tcp s q) (frame_payload pk), p)
          end
      | _, _ => None
      end
  | PTcpSend =>
      match tcp with
      | Some e => if room parsed then Some (s, MkPeer opened cin pars None (parsed ++ [e]) router rtun rconn err) else None
      | None => None
      end
  | PRoute rnd werr =>
      match router, parsed with
      | Some None, e :: q =>
          let r := routePeer (sh_nat s) (sh_conns s) rnd werr e in
          if can_write opened (r_action r) werr then
            match r_action r with
            | ToTun e' => Some (s, MkPeer opened cin pars tcp q (Some (Some e')) rtun rconn err)
            | _ => Some (after_route s e r,
                     MkPeer opened cin pars tcp q (if is_none (r_stop r) then Some None else None) rtun rconn
                       (err || negb (is_none (r_stop r))))
            end
          else None
      | _, _ => None
      end
  | PRouteSend =>
      match router with
      | Some (Some e) =>
          if room (tunOut s)
          then Some (set_out s (tunOut s ++ [e]), MkPeer opened cin pars tcp parsed (Some None) rtun rconn err)
          else None
      | _ => None
      end
  | PTun rnd werr =>
      match rtun, tunIn s with
      | true, e :: q =>
          let r := routeTUN (sh_nat s) (sh_conns s) rnd werr e in
          if can_write opened (r_action r) werr then
            Some (after_route (set_in s q) e r,
              MkPeer opened cin pars tcp parsed router (is_none (r_stop r)) rconn (err || negb (is_none (r_stop r))))
          else None
      | _, _ => None
      end
  end.

(** ** Steps of the server *)

Inductive event :=
  | EvTunRead (e : DataElem)
  | EvTunReadErr
  | EvParseTake (i : nat)
  | EvParseSend (i : nat)
  | EvBeat (e : DataElem)
  | EvTunWrite (werr : bool)
  | EvFrame (src : string) (c : Conn) (pk : datagramPacket)
  | EvForget (c : Conn)
  | EvPeer (i : nat) (ev : pevent)
  | EvListen (ok : bool).

(** [transportTun] returns when a goroutine of its peer has reported an error, and closes the
    socket. *)
Definition close_peer (p : peer) : peer :=
  MkPeer false (connIn p) (pr_parsers p) (pr_tcp p) (parsedConn p) (pr_router p) (pr_routeTUN p) (pr_readConn p) (pr_err p).

Definition pool_size : nat := Z.to_nat LargeBufferSize.

(** One event; nothing happens after a panic. *)
Definition exec (ev : event) (d : server) : option server :=
  let '(MkServer s rw dps rd wr li ps) := d in
  if crashed s then None
  else match ev with
  | EvTunRead e => if rd && room rw then Some (MkServer (received s (payload e)) (rw ++ [e]) dps rd wr li ps) else None
  | EvTunReadErr => if rd then Some (MkServer s rw dps false wr li ps) else None
  | EvParseTake i =>
      match dps !! i, rw with
      | Some None, e :: q =>
          match parseIPHeader e with
          | Ret (Some e') => Some (MkServer s q (<[i := Some e']> dps) rd wr li ps)
          | Ret None => Some (MkServer (dropped s (payload e)) q dps rd wr li ps)
          | _ => Some (MkServer (crash s (payload e)) q dps rd wr li ps)
          end
      | _, _ => None
      end
  | EvParseSend i =>
      match dps !! i with
      | Some (Some e) =>
          if room (tunIn s) then Some (MkServer (set_in s (tunIn s ++ [e])) rw (<[i := None]> dps) rd wr li ps) else None
      | _ => None
      end
  | EvBeat e =>
      if room (tunIn s) then Some (MkServer (set_in (received s (payload e)) (tunIn s ++ [e])) rw dps rd wr li ps) else None
  | EvTunWrite werr =>
      match wr, tunOut s with
      | true, e :: q =>
          match tun_Write pool_size (payload e) with
          | Ret (Some b) =>
              if werr then Some (MkServer (dropped (set_out s q) b) rw dps rd false li ps)
              else Some (MkServer (delivered (set_out s q) b) rw dps rd wr li ps)
          | Ret None => Some (MkServer (dropped (set_out s q) (payload e)) rw dps rd wr li ps)
          | _ => Some (MkServer (crash (set_out s q) (payload e)) rw dps rd wr li ps)
          end
      | _, _ => None
      end
  | EvFrame src c pk =>
      if room (tcpChan s)
      then Some (MkServer (set_conns (set_tcp (received s (frame_payload pk)) (tcpChan s ++ [pk])) (learn_conn (sh_conns s) src c))
                   rw dps rd wr li ps)
      else None
  | EvForget c => Some (MkServer (set_conns s (forget_conn (sh_conns s) c)) rw dps rd wr li ps)
  | EvPeer i pe =>
      p ← ps !! i;
      sp ← pexec pe s p;
      Some (MkServer (fst sp) rw dps rd wr li (<[i := snd sp]> ps))
  | EvListen ok =>
      match li, reverse ps with
      | true, p :: rest =>
          if pr_err p then
            let ps := reverse rest ++ [close_peer p] in
            Some (if (ok : bool) then MkServer s rw dps rd wr li (ps ++ [new_peer]) else MkServer s rw dps rd wr false ps)
          else None
      | _, _ => None
      end
  end.

Definition run (evs : list event) (d : server) : option server := foldl (λ d ev, d ← d; exec ev d) (Some d) evs.

(** ** Conservation *)

(** How often [b] occurs in a list of payloads. *)
Definition occ (b : list byte) (l : list (list byte)) : nat := count_occ (List.list_eq_dec Byte.byte_eq_dec) l b.

Lemma occ_app b l k : occ b (l ++ k) = occ b l + occ b k.
Proof. apply count_occ_app. Qed.
Lemma occ_cons b x l : occ b (x :: l) = occ b [x] + occ b l.
Proof. unfold occ. cbn. by destruct (List.list_eq_dec _ x b). Qed.
Lemma occ_nil b : occ b [] = 0.
Proof. reflexivity. Qed.
Lemma occ_Permutation l k : l ≡ₚ k ↔ ∀ b, occ b l = occ b k.
Proof. apply Permutation_count_occ. Qed.

(** The payloads of packets, and of the packet a goroutine may hold. *)
Definition loads (l : list DataElem) : list (list byte) := payload <$> l.

Definition in_shared (s : shared) : list (list byte) :=
  loads (tunIn s) ++ loads (tunOut s) ++ (frame_payload <$> tcpChan s).
Definition in_peer (p : peer) : list (list byte) :=
  loads (connIn p) ++ loads (omap ps_held (pr_parsers p)) ++ loads (option_list (pr_tcp p)) ++
  loads (parsedConn p) ++ loads (option_list (mjoin (pr_router p))).
Definition inside (d : server) : list (list byte) :=
  in_shared (sv d) ++ loads (raw d) ++ loads (omap id (dparsers d)) ++ (peers d ≫= in_peer).

Lemma loads_app l k : loads (l ++ k) = loads l ++ loads k.
Proof. apply fmap_app. Qed.
Lemma loads_cons e l : loads (e :: l) = payload e :: loads l.
Proof. reflexivity. Qed.
Lemma loads_nil : loads [] = [].
Proof. reflexivity. Qed.

Lemma occ_held {A} (f : A → option DataElem) b l i x y : l !! i = Some x →
  occ b (loads (omap f (<[i := y]> l))) + occ b (loads (option_list (f x))) =
  occ b (loads (omap f l)) + occ b (loads (option_list (f y))).
Proof.
  intros (l1 & l2 & -> & ->)%list_elem_of_split_length. rewrite insert_middle, !omap_app. cbn [omap list_omap].
  destruct (f x), (f y); options; rewrite ?loads_app, ?loads_cons, ?occ_app, ?loads_nil, ?occ_nil, ?(occ_cons _ _ (loads _)),
    ?loads_nil, ?occ_nil; lia.
Qed.

Lemma occ_peers b l i p p' : l !! i = Some p →
  occ b (<[i := p']> l ≫= in_peer) + occ b (in_peer p) = occ b (l ≫= in_peer) + occ b (in_peer p').
Proof.
  intros (l1 & l2 & -> & ->)%list_elem_of_split_length. rewrite insert_middle, !bind_app. cbn [mbind list_bind].
  rewrite !occ_app. lia.
Qed.

(** The parsers only add the addresses. *)
Lemma parseIPHeader_payload e e' : parseIPHeader e = Ret (Some e') → payload e' = payload e.
Proof. unfold parseIPHeader. destruct (parse_ips _ _) as [[[??]|]| |]; cbn; intros; by simplify_eq. Qed.

Lemma parseHeader_payload flags n e flags' n' e' : parseHeader flags n e = Ret (flags', n', Some e') → payload e' = payload e.
Proof.
  unfold parseHeader. destruct (parse_ips _ _) as [[[??]|]| |], flags as [f4 f6]; cbn; try congruence.
  destruct (f4 || f6); [|intros; by simplify_eq].
  destruct (IsIPv4 _); cbn; intros; by simplify_eq.
Qed.

Lemma readFromTCPConn_payload pk e : readFromTCPConn pk = Ret (Some e) → payload e = frame_payload pk.
Proof. unfold readFromTCPConn. destruct (parse_ips _ _) as [[[??]|]| |]; cbn; intros; by simplify_eq. Qed.

Lemma routePeer_ToTun n conns rnd werr e e' : r_action (routePeer n conns rnd werr e) = ToTun e' → payload e' = payload e.
Proof.
  unfold routePeer. destruct (RouteTo _ _ _); [done|]. destruct (conns !! _), werr; cbn; intros; by simplify_eq.
Qed.

Definition total (b : list byte) (s : shared) : nat := occ b (outs s) + occ b (drops s) + occ b (in_shared s).

Ltac sh_simpl := cbn [tunIn tunOut tcpChan sh_nat sh_conns crashed ins outs drops set_in set_out set_tcp set_nat set_conns
  received delivered dropped crash connIn pr_parsers pr_tcp parsedConn pr_router fst snd sv raw dparsers peers] in *.
Ltac occs := unfold total, in_shared, in_peer, mjoin, option_join, loads in *; sh_simpl; options;
  repeat rewrite ?fmap_app, ?fmap_cons, ?fmap_nil, ?occ_app, ?occ_nil, ?(occ_cons _ _ (_ <$> _)) in *; sh_simpl.
Ltac cases := repeat case_match; simplify_eq; sh_simpl.

Lemma after_route_total b s e r : total b (after_route s e r) = total b s + occ b [payload e] ∧ ins (after_route s e r) = ins s.
Proof. unfold after_route. repeat case_match; split; try done; occs; lia. Qed.

Lemma pexec_conserves ev s p s' p' b : pexec ev s p = Some (s', p') →
  total b s' + occ b (in_peer p') + occ b (ins s) = total b s + occ b (in_peer p) + occ b (ins s').
Proof.
  destruct p as [opened cin pars tcp parsed router rtun rconn err]. intros H.
  destruct ev; cbn [pexec] in H.
  - cases. occs. lia.
  - cases. occs. lia.
  - destruct (pars !! i) as [[flags [e|]]|] eqn:Ei; [done| |done]. destruct cin as [|e q]; [done|].
    destruct (parseHeader flags (sh_nat s) e) as [[[flags' n] [e'|]]| |] eqn:E; cases.
    + apply parseHeader_payload in E. pose proof (occ_held ps_held b pars i _ (MkParser flags' (Some e')) Ei) as Hh.
      cbn [ps_held] in Hh. occs. rewrite E in Hh. rewrite ?occ_nil in *. lia.
    + pose proof (occ_held ps_held b pars i _ (MkParser flags' None) Ei). cbn [ps_held] in *. occs. lia.
    + occs. lia.
    + occs. lia.
  - destruct (pars !! i) as [[flags [e|]]|] eqn:Ei; [|done..]. cases.
    pose proof (occ_held ps_held b pars i _ (MkParser flags None) Ei). cbn [ps_held] in *. occs. lia.
  - destruct tcp as [e|]; [done|]. destruct (tcpChan s) as [|pk q] eqn:Eq; [done|].
    destruct (readFromTCPConn pk) as [[e|]| |] eqn:E; cases; occs; rewrite ?Eq.
    + apply readFromTCPConn_payload in E. rewrite E. occs. lia.
    + occs. lia.
    + occs. lia.
    + occs. lia.
  - cases. occs. lia.
  - destruct router as [[|]|]; [done| |done]. destruct parsed as [|e q]; [done|].
    destruct (can_write _ _ _); [|done].
    set (r := routePeer _ _ _ _ _) in *.
    destruct (after_route_total b s e r) as [Ht Hi].
    destruct (r_action r) eqn:Er; simplify_eq; rewrite ?Ht, ?Hi.
    1,2,4: unfold in_peer; sh_simpl; destruct (is_none _); occs; lia.
    apply routePeer_ToTun in Er. occs. rewrite Er. lia.
  - cases. occs. lia.
  - destruct rtun; [|done]. destruct (tunIn s) as [|e q] eqn:Eq; [done|].
    destruct (can_write _ _ _); [|done]. set (r := routeTUN _ _ _ _ _) in *.
    destruct (after_route_total b (set_in s q) e r) as [Ht Hi]. simplify_eq. rewrite Ht, Hi.
    occs. rewrite Eq. occs. lia.
Qed.

Definition occ_inside (b : list byte) (d : server) : nat :=
  total b (sv d) + occ b (loads (raw d)) + occ b (loads (omap id (dparsers d))) + occ b (peers d ≫= in_peer).

Lemma occ_inside_all b d : occ_inside b d = occ b (outs (sv d) ++ drops (sv d) ++ inside d).
Proof. unfold occ_inside, total, inside. rewrite !occ_app. lia. Qed.

Lemma in_peer_close p : in_peer (close_peer p) = in_peer p.
Proof. reflexivity. Qed.

Lemma tun_Write_same pool b b' : tun_Write pool b = Ret (Some b') → b' = b.
Proof. unfold tun_Write. repeat case_match; congruence. Qed.

Lemma exec_conserves ev d d' b : exec ev d = Some d' →
  occ_inside b d' + occ b (ins (sv d)) = occ_inside b d + occ b (ins (sv d')).
Proof.
  destruct d as [s rw dps rd wr li ps]. unfold exec. destruct (crashed s) eqn:Ec; [done|]. intros H.
  unfold occ_inside. destruct ev.
  - cases. occs. lia.
  - cases. occs. lia.
  - destruct (dps !! i) as [[e|]|] eqn:Ei; [done| |done]. destruct rw as [|e q]; [done|].
    destruct (parseIPHeader e) as [[e'|]| |] eqn:E; cases.
    + apply parseIPHeader_payload in E. pose proof (occ_held id b dps i _ (Some e') Ei) as Hh. unfold id in *.
      occs. rewrite E in Hh. rewrite ?occ_nil in *. lia.
    + occs. lia.
    + occs. lia.
    + occs. lia.
  - destruct (dps !! i) as [[e|]|] eqn:Ei; [|done..]. cases.
    pose proof (occ_held id b dps i _ None Ei). unfold id in *. occs. lia.
  - cases. occs. lia.
  - destruct wr; [|done]. destruct (tunOut s) as [|e q] eqn:Eq; [done|].
    destruct (tun_Write _ _) as [[b'|]| |] eqn:E; [apply tun_Write_same in E as ->|..]; cases; occs; rewrite Eq; occs; lia.
  - cases. occs. lia.
  - cases. occs. lia.
  - destruct (ps !! i) as [p|] eqn:Ei; [|done]. cbn [mbind option_bind] in H.
    destruct (pexec ev s p) as [[s' p']|] eqn:E; [|done]. cbn [mbind option_bind] in H. simplify_eq. sh_simpl.
    pose proof (pexec_conserves _ _ _ _ _ b E). pose proof (occ_peers b ps i p p' Ei). lia.
  - destruct li; [|done]. destruct (reverse ps) as [|p rest] eqn:Er; [done|]. destruct (pr_err p); [|done].
    apply (f_equal reverse) in Er. rewrite reverse_involutive, reverse_cons in Er. subst ps.
    destruct ok; simplify_eq; sh_simpl; rewrite ?bind_app, ?occ_app; cbn [mbind list_bind];
      rewrite ?in_peer_close, ?app_nil_r; [change (in_peer new_peer) with (@nil (list byte)); rewrite ?occ_nil|]; lia.
Qed.

Lemma run_cons ev evs d : run (ev :: evs) d = (d' ← exec ev d; run evs d').
Proof.
  unfold run. cbn [foldl]. cbn [mbind option_bind]. destruct (exec ev d) as [d'|]; [done|].
  cbn [option_bind]. induction evs; [done|]. cbn. done.
Qed.

Lemma run_conserves evs d d' b : run evs d = Some d' →
  occ_inside b d' + occ b (ins (sv d)) = occ_inside b d + occ b (ins (sv d')).
Proof.
  revert d. induction evs as [|ev evs IH]; intros d H; [unfold run in H; simplify_eq/=; lia|].
  rewrite run_cons in H. destruct (exec ev d) as [d1|] eqn:E; [|done].
  pose proof (exec_conserves _ _ _ b E). pose proof (IH _ H). lia.
Qed.

(** ** Bounds *)

Definition peer_bounded (p : peer) : Prop :=
  length (connIn p) ≤ MaxSize ∧ length (parsedConn p) ≤ MaxSize ∧ length (pr_parsers p) = 10.
Definition shared_bounded (s : shared) : Prop :=
  length (tunIn s) ≤ MaxSize ∧ length (tunOut s) ≤ MaxSize ∧ length (tcpChan s) ≤ MaxSize.
Record bounded (d : server) : Prop := {
  bd_shared : shared_bounded (sv d);
  bd_raw : length (raw d) ≤ MaxSize;
  bd_dparsers : length (dparsers d) = 10;
  bd_peers : Forall peer_bounded (peers d) }.

Lemma room_lt {A} (l : list A) : room l = true → length l < MaxSize.
Proof. apply Nat.ltb_lt. Qed.

Ltac rooms := repeat match goal with
  | H : room _ = true |- _ => apply room_lt in H
  | H : _ && _ = true |- _ => apply andb_prop in H as [? ?] end.

Lemma after_route_chans s e r :
  tunIn (after_route s e r) = tunIn s ∧ tunOut (after_route s e r) = tunOut s ∧ tcpChan (after_route s e r) = tcpChan s ∧
  crashed (after_route s e r) = crashed s.
Proof. unfold after_route. by repeat case_match. Qed.

(** What a step says of lengths: the channels it read from, and those [after_route] keeps. *)
Ltac chans := repeat match goal with
  | H : tcpChan _ = _ :: _ |- _ => rewrite H in *; clear H
  | H : tunIn _ = _ :: _ |- _ => rewrite H in *; clear H
  | H : tunOut _ = _ :: _ |- _ => rewrite H in *; clear H
  | |- context [after_route ?s ?e ?r] =>
      let E := fresh in pose proof (after_route_chans s e r) as E;
      let x := fresh in generalize dependent (after_route s e r); intros x E; sh_simpl; destruct E as (E1 & E2 & E3 & E4); rewrite ?E1, ?E2, ?E3, ?E4
  end; sh_simpl.

Lemma pexec_bounded ev s p s' p' : pexec ev s p = Some (s', p') →
  shared_bounded s → peer_bounded p → shared_bounded s' ∧ peer_bounded p'.
Proof.
  destruct p as [opened cin pars tcp parsed router rtun rconn err]. intros H Hs Hp.
  destruct ev; cbn [pexec] in H; cases; rooms; unfold shared_bounded, peer_bounded in *; chans;
    rewrite ?length_app, ?length_insert; cbn [length] in *; try congruence; split; lia.
Qed.

Lemma new_peer_bounded : peer_bounded new_peer.
Proof. split_and!; cbn [new_peer connIn parsedConn pr_parsers length]; [lia..|done]. Qed.

Lemma exec_bounded ev d d' : exec ev d = Some d' → bounded d → bounded d'.
Proof.
  destruct d as [s rw dps rd wr li ps]. unfold exec. destruct (crashed s); [done|]. intros H [Hs Hr Hd Hp].
  destruct ev; [..|destruct li; [|done]; destruct (reverse ps) as [|p rest] eqn:Er; [done|]].
  9: { destruct (ps !! i) as [p|] eqn:Ei; [|done]. cbn [mbind option_bind] in H.
    destruct (pexec ev s p) as [[s' p']|] eqn:E; [|done]. cbn [mbind option_bind] in H. simplify_eq. sh_simpl.
    destruct (pexec_bounded _ _ _ _ _ E Hs) as [Hs' Hp']; [by eapply Forall_lookup_1|].
    split; [done..|]. by apply Forall_insert. }
  9: { destruct (pr_err p); [|done]. apply (f_equal reverse) in Er. rewrite reverse_involutive, reverse_cons in Er. sh_simpl. subst ps.
    pose proof new_peer_bounded as Hn.
    apply Forall_app in Hp as [Hp [Hq _]%Forall_cons].
    destruct ok; simplify_eq; split; sh_simpl; try done; rewrite ?Forall_app, ?Forall_singleton; split_and!; done. }
  all: cases; rooms; split; unfold shared_bounded in *; chans; rewrite ?length_app, ?length_insert; cbn [length] in *; try done; lia.
Qed.

Lemma server0_bounded : bounded server0.
Proof.
  split; [split_and!; apply Nat.le_0_l|apply Nat.le_0_l|done|]. apply Forall_singleton, new_peer_bounded.
Qed.

Lemma run_bounded evs d d' : run evs d = Some d' → bounded d → bounded d'.
Proof.
  revert d. induction evs as [|ev evs IH]; intros d H Hd; [unfold run in H; by simplify_eq/=|].
  rewrite run_cons in H. destruct (exec ev d) as [d1|] eqn:E; [|done]. eauto using exec_bounded.
Qed.

Lemma length_omap_le {A B} (f : A → option B) l : length (omap f l) ≤ length l.
Proof. induction l as [|x l IH]; cbn; [lia|]. destruct (f x); cbn; lia. Qed.

Lemma in_peer_length p : peer_bounded p → length (in_peer p) ≤ 2 * MaxSize + 12.
Proof.
  intros (H1 & H2 & H3). unfold in_peer, loads. rewrite !length_app, !length_fmap.
  pose proof (length_omap_le ps_held (pr_parsers p)).
  assert (Ho : ∀ o : option DataElem, length (option_list o) ≤ 1) by (intros [|]; cbn; lia).
  pose proof (Ho (pr_tcp p)). pose proof (Ho (mjoin (pr_router p))). lia.
Qed.

Lemma inside_length d : bounded d → length (inside d) ≤ 4 * MaxSize + 10 + length (peers d) * (2 * MaxSize + 12).
Proof.
  intros [(H1 & H2 & H3) Hr Hd Hp]. unfold inside, in_shared, loads. rewrite !length_app, !length_fmap.
  pose proof (length_omap_le id (dparsers d)).
  assert (length (peers d ≫= in_peer) ≤ length (peers d) * (2 * MaxSize + 12)); [|lia].
  induction Hp as [|p ps Hp Hps IH]; cbn [mbind list_bind length]; [lia|].
  rewrite length_app. pose proof (in_peer_length p Hp). cbn [mbind] in IH. lia.
Qed.

Lemma run_all evs d : run evs server0 = Some d → ins (sv d) ≡ₚ outs (sv d) ++ drops (sv d) ++ inside d.
Proof.
  intros H. apply occ_Permutation. intros b. rewrite <-occ_inside_all.
  pose proof (run_conserves _ _ _ b H) as Hc. cbn [server0 sv shared0 ins] in Hc. rewrite occ_nil in Hc.
  assert (occ_inside b server0 = 0) by reflexivity. lia.
Qed.

(** C10.  However the goroutines of the server interleave, fail and are started anew, every
    packet received from the device, a UDP socket or a TCP connection is, with its bytes
    unchanged and once, sent on, dropped or in a channel; and what waits in channels is
    bounded by the number of peers. *)
Theorem server_conserves evs d (H : run evs server0 = Some d) :
  ins (sv d) ≡ₚ outs (sv d) ++ drops (sv d) ++ inside d ∧
  length (inside d) ≤ 4 * MaxSize + 10 + length (peers d) * (2 * MaxSize + 12).
Proof.
  split; [by apply (run_all evs)|apply inside_length; by eapply run_bounded, server0_bounded].
Qed.

(** ** Draining *)

(** The steps a goroutine takes on packets that are already inside, with writes that succeed. *)
Definition internal (ev : event) : bool :=
  match ev with
  | EvParseTake _ | EvParseSend _ | EvTunWrite false => true
  | EvPeer _ (PParseTake _ | PParseSend _ | PTcpTake | PTcpSend | PRoute _ None | PRouteSend | PTun _ None) => true
  | _ => false
  end.

(** How many steps a packet is from the end of its way. *)
Definition held_count {A B} (f : A → option B) (l : list A) : nat := length (omap f l).
Definition opt_count {A} (o : option A) : nat := match o with Some _ => 1 | None => 0 end.
Definition peer_weight (p : peer) : nat :=
  8 * length (connIn p) + 7 * held_count ps_held (pr_parsers p) + 7 * opt_count (pr_tcp p) +
  6 * length (parsedConn p) + 5 * opt_count (mjoin (pr_router p)).
Definition shared_weight (s : shared) : nat := 4 * length (tunIn s) + 4 * length (tunOut s) + 8 * length (tcpChan s).
Definition weight (d : server) : nat :=
  shared_weight (sv d) + 6 * length (raw d) + 5 * held_count id (dparsers d) + sum_list (peer_weight <$> peers d).

Lemma held_count_insert {A B} (f : A → option B) l i x y : l !! i = Some x →
  held_count f (<[i := y]> l) + opt_count (f x) = held_count f l + opt_count (f y).
Proof.
  unfold held_count. intros (l1 & l2 & -> & ->)%list_elem_of_split_length. rewrite insert_middle, !omap_app, !length_app.
  cbn [omap list_omap]. destruct (f x), (f y); cbn; lia.
Qed.

Lemma peers_sum_insert l i p p' : l !! i = Some p →
  sum_list (peer_weight <$> <[i := p']> l) + peer_weight p = sum_list (peer_weight <$> l) + peer_weight p'.
Proof.
  intros (l1 & l2 & -> & ->)%list_elem_of_split_length. rewrite insert_middle, !fmap_app, !fmap_cons, !sum_list_with_app.
  cbn. lia.
Qed.

Ltac weights := unfold peer_weight, shared_weight, mjoin, option_join in *; chans;
  cbn [connIn pr_parsers pr_tcp parsedConn pr_router opt_count ps_held] in *;
  rewrite ?length_app in *; cbn [length] in *.

Lemma pexec_decreases ev s p s' p' : internal (EvPeer 0 ev) = true → pexec ev s p = Some (s', p') →
  shared_weight s' + peer_weight p' < shared_weight s + peer_weight p.
Proof.
  destruct p as [opened cin pars tcp parsed router rtun rconn err]. intros Hi H.
  destruct ev as [| |i|i| | |rnd [|]| |rnd [|]]; try done; cbn [pexec] in H.
  - destruct (pars !! i) as [[flags [e|]]|] eqn:Ei; [done| |done]. destruct cin as [|e q]; [done|].
    destruct (parseHeader flags (sh_nat s) e) as [[[flags' n] [e'|]]| |] eqn:E; simplify_eq.
    + pose proof (held_count_insert ps_held pars i _ (MkParser flags' (Some e')) Ei). weights. lia.
    + pose proof (held_count_insert ps_held pars i _ (MkParser flags' None) Ei). weights. lia.
    + weights. lia.
    + weights. lia.
  - destruct (pars !! i) as [[flags [e|]]|] eqn:Ei; [|done..]. cases.
    pose proof (held_count_insert ps_held pars i _ (MkParser flags None) Ei). weights. lia.
  - cases; weights; lia.
  - cases; weights; lia.
  - destruct router as [[|]|]; [done| |done]. destruct parsed as [|e q]; [done|].
    destruct (can_write _ _ _); [|done]. destruct (r_action _) eqn:Er; simplify_eq; try destruct (is_none _); weights; lia.
  - cases; weights; lia.
  - destruct rtun; [|done]. destruct (tunIn s) as [|e q] eqn:Eq; [done|]. destruct (can_write _ _ _); [|done].
    simplify_eq. weights. lia.
Qed.

Lemma exec_decreases ev d d' : internal ev = true → exec ev d = Some d' → weight d' < weight d.
Proof.
  destruct d as [s rw dps rd wr li ps]. intros Hi H. unfold exec in H. destruct (crashed s); [done|]. unfold weight.
  destruct ev as [| |i|i| |[|]| | |i ev|]; try done.
  - destruct (dps !! i) as [[e|]|] eqn:Ei; [done| |done]. destruct rw as [|e q]; [done|].
    destruct (parseIPHeader e) as [[e'|]| |]; simplify_eq;
      [pose proof (held_count_insert id dps i _ (Some e') Ei); unfold id in *|..]; sh_simpl; weights; lia.
  - destruct (dps !! i) as [[e|]|] eqn:Ei; [|done..]. cases.
    pose proof (held_count_insert id dps i _ None Ei); unfold id in *. weights. lia.
  - cases; weights; lia.
  - destruct (ps !! i) as [p|] eqn:Ei; [|done]. cbn [mbind option_bind] in H.
    destruct (pexec ev s p) as [[s' p']|] eqn:E; [|done]. cbn [mbind option_bind] in H. simplify_eq. sh_simpl.
    pose proof (pexec_decreases _ _ _ _ _ Hi E). pose proof (peers_sum_insert ps i p p' Ei). lia.
Qed.

(** Packets whose headers are complete, and payloads that fit in a buffer of the pool behind the
    offset of the device. *)
Definition parses (e : DataElem) : Prop := ∃ o, parse_ips (el_data e) (el_length e) = Ret o.
Definition frame_parses (pk : datagramPacket) : Prop := ∃ o, parse_ips (Data pk) (length (Data pk)) = Ret o.
Definition fits (b : list byte) : Prop := MessageTransportOffsetContent + length b ≤ pool_size.

Definition peer_healthy (p : peer) : Prop :=
  pr_open p = true ∧ is_Some (pr_router p) ∧ pr_routeTUN p = true ∧ pr_parsers p ≠ [] ∧ Forall parses (connIn p).
(** No goroutine has failed so far, and no packet inside makes one panic. *)
Record healthy (d : server) : Prop := {
  h_alive : crashed (sv d) = false;
  h_writer : sv_writer d = true;
  h_dparsers : dparsers d ≠ [];
  h_peer : ∃ p, peers d = [p] ∧ peer_healthy p;
  h_raw : Forall parses (raw d);
  h_frames : Forall frame_parses (tcpChan (sv d));
  h_fits : Forall fits (inside d) }.

Lemma parseIPHeader_ok e : parses e → ∃ o, parseIPHeader e = Ret o.
Proof. intros [o E]. unfold parseIPHeader. rewrite E. by eexists. Qed.

Lemma readFromTCPConn_ok pk : frame_parses pk → ∃ o, readFromTCPConn pk = Ret o.
Proof. intros [o E]. unfold readFromTCPConn. rewrite E. by eexists. Qed.

Lemma parseHeader_ok flags n e : parses e → ∃ flags' n' o, parseHeader flags n e = Ret (flags', n', o).
Proof.
  intros [o E]. unfold parseHeader. rewrite E. cbn. destruct o as [[src dst]|]; [|eauto]. destruct flags as [f4 f6].
  destruct (f4 || f6); [|eauto]. unfold payload, with_ips. cbn [el_data el_length].
  unfold parse_ips in E. destruct (take (el_length e) (el_data e)); [done|]. cbn. eauto.
Qed.

Lemma tun_Write_ok b : fits b → ∃ o, tun_Write pool_size b = Ret o.
Proof.
  unfold fits, tun_Write. intros H. destruct (_ <? MessageTransportHeaderSize); [eauto|].
  rewrite (proj2 (Nat.ltb_ge _ _)) by done. eauto.
Qed.

(** What has left stays out. *)
Definition grows (s s' : shared) : Prop := ins s' = ins s ∧ prefix (outs s) (outs s') ∧ prefix (drops s) (drops s').

Lemma after_route_grows s e r : grows s (after_route s e r).
Proof. unfold after_route, grows. repeat case_match; sh_simpl; split_and!; try done; by apply prefix_app_r. Qed.

Lemma pexec_grows ev s p s' p' : internal (EvPeer 0 ev) = true → pexec ev s p = Some (s', p') → grows s s'.
Proof.
  destruct p as [opened cin pars tcp parsed router rtun rconn err]. intros Hi H.
  destruct ev as [| |i|i| | |rnd [|]| |rnd [|]]; try done; cbn [pexec] in H; cases; try apply after_route_grows.
  all: try apply (after_route_grows (set_in s _)).
  all: unfold grows; sh_simpl; split_and!; try done; by apply prefix_app_r.
Qed.

Lemma exec_grows ev d d' : internal ev = true → exec ev d = Some d' → grows (sv d) (sv d').
Proof.
  destruct d as [s rw dps rd wr li ps]. intros Hi H. unfold exec in H. destruct (crashed s); [done|].
  destruct ev as [| |i|i| |[|]| | |i ev|]; try done.
  4: { destruct (ps !! i) as [p|] eqn:Ei; [|done]. cbn [mbind option_bind] in H.
    destruct (pexec ev s p) as [[s' p']|] eqn:E; [|done]. cbn [mbind option_bind] in H. simplify_eq. sh_simpl.
    by eapply pexec_grows. }
  all: cases; unfold grows; sh_simpl; split_and!; try done; by apply prefix_app_r.
Qed.

Lemma occ_prefix b l k : prefix l k → occ b l ≤ occ b k.
Proof. intros [k' ->]. rewrite occ_app. lia. Qed.

(** Nothing new comes inside. *)
Lemma exec_inside ev d d' : internal ev = true → exec ev d = Some d' → ∀ b, b ∈ inside d' → b ∈ inside d.
Proof.
  intros Hi H b Hb. destruct (exec_grows _ _ _ Hi H) as (En & Ho & Hd).
  pose proof (exec_conserves _ _ _ b H) as Hc. rewrite En, !occ_inside_all, !occ_app in Hc.
  pose proof (occ_prefix b _ _ Ho). pose proof (occ_prefix b _ _ Hd).
  apply list_elem_of_In, (count_occ_In (List.list_eq_dec Byte.byte_eq_dec)) in Hb. apply list_elem_of_In, (count_occ_In (List.list_eq_dec Byte.byte_eq_dec)).
  unfold occ in *. lia.
Qed.

Lemma routePeer_runs n conns rnd e : r_stop (routePeer n conns rnd None e) = None.
Proof. unfold routePeer. by repeat case_match. Qed.
Lemma routeTUN_runs n conns rnd e : r_stop (routeTUN n conns rnd None e) = None.
Proof. unfold routeTUN. by repeat case_match. Qed.

Lemma insert_nonempty {A} (l : list A) i x : l ≠ [] → <[i := x]> l ≠ [].
Proof. destruct l, i; done. Qed.

Lemma pexec_healthy ev s p s' p' : internal (EvPeer 0 ev) = true → pexec ev s p = Some (s', p') →
  crashed s = false → peer_healthy p → Forall frame_parses (tcpChan s) →
  crashed s' = false ∧ peer_healthy p' ∧ Forall frame_parses (tcpChan s').
Proof.
  destruct p as [opened cin pars tcp parsed router rtun rconn err]. intros Hi H Hc (Ho & Hr & Ht & Hp & Hin) Hf.
  cbn [pr_open pr_router pr_routeTUN pr_parsers connIn] in Ho, Hr, Ht, Hp, Hin.
  unfold peer_healthy.
  destruct ev as [| |i|i| | |rnd [|]| |rnd [|]]; try done; cbn [pexec] in H.
  - destruct (pars !! i) as [[flags [e|]]|] eqn:Ei; [done| |done]. destruct cin as [|e q]; [done|].
    apply Forall_cons in Hin as [He Hq]. destruct (parseHeader_ok flags (sh_nat s) e He) as (flags' & n & o & E).
    rewrite E in H. destruct o; simplify_eq; cbn; eauto 10 using insert_nonempty.
  - destruct (pars !! i) as [[flags [e|]]|] eqn:Ei; [|done..]. cases. cbn. eauto 10 using insert_nonempty.
  - destruct tcp; [done|]. destruct (tcpChan s) as [|pk q] eqn:Eq; [done|]. apply Forall_cons in Hf as [Hpk Hq].
    destruct (readFromTCPConn_ok pk Hpk) as [o E]. rewrite E in H. destruct o; simplify_eq; cbn; eauto 10.
  - cases; cbn; eauto 10.
  - destruct router as [[|]|]; [done| |done]. destruct parsed as [|e q]; [done|].
    destruct (can_write _ _ _); [|done]. rewrite routePeer_runs in H.
    destruct (r_action _) eqn:Er; simplify_eq; chans; cbn; eauto 10; congruence || idtac.
    all: rewrite ?E3, ?E4; cbn; eauto 10.
  - cases; cbn; eauto 10.
  - destruct rtun; [|done]. destruct (tunIn s) as [|e q] eqn:Eq; [done|]. destruct (can_write _ _ _); [|done].
    rewrite routeTUN_runs in H. simplify_eq. chans. cbn. eauto 10.
Qed.

Lemma out_inside e d : e ∈ tunOut (sv d) → payload e ∈ inside d.
Proof. intros H. unfold inside, in_shared, loads. rewrite !elem_of_app. left. right. left. by apply list_elem_of_fmap_2. Qed.

Lemma exec_healthy ev d d' : internal ev = true → exec ev d = Some d' → healthy d → healthy d'.
Proof.
  intros Hi H Hd. assert (Hfits : Forall fits (inside d')).
  { apply Forall_forall. intros b Hb. destruct Hd. rewrite Forall_forall in h_fits0. eauto using exec_inside. }
  assert (Hok : ∀ e, e ∈ tunOut (sv d) → ∃ o, tun_Write pool_size (payload e) = Ret o).
  { intros e He. apply tun_Write_ok. destruct Hd. rewrite Forall_forall in h_fits0. by apply h_fits0, out_inside. }
  destruct Hd as [Ha Hw Hdp (p & Hp & Hph) Hr Hf _]. destruct d as [s rw dps rd wr li ps]. sh_simpl. subst ps.
  unfold exec in H. rewrite Ha in H.
  destruct ev as [| |i|i| |[|]| | |i ev|]; try done.
  - destruct (dps !! i) as [[e|]|] eqn:Ei; [done| |done]. destruct rw as [|e q]; [done|]. apply Forall_cons in Hr as [He Hr].
    destruct (parseIPHeader_ok e He) as [o E]. rewrite E in H.
    destruct o; simplify_eq; split; sh_simpl; eauto using insert_nonempty.
  - destruct (dps !! i) as [[e|]|] eqn:Ei; [|done..]. destruct (room _); [|done]. simplify_eq.
    split; sh_simpl; eauto using insert_nonempty.
  - cbn [sv_writer] in Hw. subst wr. destruct (tunOut s) as [|e q] eqn:Eq; [done|].
    destruct (Hok e) as [o E]; [set_solver|]. rewrite E in H. destruct o; simplify_eq; split; sh_simpl; eauto.
  - destruct i as [|i]; [|done]. cbn [lookup list_lookup mbind option_bind] in H.
    destruct (pexec ev s p) as [[s' p']|] eqn:E; [|done]. cbn [mbind option_bind] in H. simplify_eq. sh_simpl.
    destruct (pexec_healthy _ _ _ _ _ Hi E Ha Hph Hf) as (Hc' & Hp' & Hf'). split; sh_simpl; eauto.
Qed.

(** A goroutine of a list waits to send, or all are idle. *)
Lemma holds_or_idle {A B} (f : A → option B) l :
  (∃ i x y, l !! i = Some x ∧ f x = Some y) ∨ omap f l = [] ∧ Forall (λ x, f x = None) l.
Proof.
  induction l as [|x l [(i & x' & y & H1 & H2)|[H1 H2]]]; [by right| |].
  - left. exists (S i), x', y. done.
  - destruct (f x) as [y|] eqn:E; [left; by exists 0, x, y|right]. cbn. rewrite E. split; [done|by constructor].
Qed.

Lemma can_write_open a werr : can_write true a werr = true.
Proof. by destruct a, werr. Qed.

Lemma peer_progress s p : peer_healthy p → tunOut s = [] → in_peer p ≠ [] ∨ tunIn s ≠ [] ∨ tcpChan s ≠ [] →
  ∃ ev s' p', internal (EvPeer 0 ev) = true ∧ pexec ev s p = Some (s', p').
Proof.
  destruct p as [opened cin pars tcp parsed router rtun rconn err]. intros (Ho & [h Hr] & Ht & Hp & _) Eout Hin.
  cbn [pr_open pr_router pr_routeTUN pr_parsers connIn] in Ho, Hr, Ht, Hp. subst opened router rtun.
  destruct h as [e|]. { exists PRouteSend. cbn [pexec]. unfold room. rewrite Eout. cbn. eauto. }
  destruct parsed as [|e q].
  2: { exists (PRoute 0 None). cbn [pexec]. rewrite can_write_open.
    destruct (r_action _); eauto. }
  destruct tcp as [e|]. { exists PTcpSend. cbn. eauto. }
  destruct (tcpChan s) as [|pk q] eqn:Etcp.
  2: { exists PTcpTake. cbn [pexec]. rewrite Etcp. destruct (readFromTCPConn pk) as [[|]| |]; eauto. }
  destruct (holds_or_idle ps_held pars) as [(i & [flags o] & y & Ei & Ey)|[Hpar Hidle]].
  { exists (PParseSend i). cbn [pexec]. rewrite Ei. cbn in Ey. subst o. cbn. eauto. }
  destruct cin as [|e q].
  2: { exists (PParseTake 0). destruct pars as [|[flags o] pars]; [done|]. apply Forall_cons in Hidle as [Hn _]. cbn in Hn. subst o.
    cbn [pexec lookup list_lookup]. destruct (parseHeader flags (sh_nat s) e) as [[[? ?] [|]]| |]; eauto. }
  destruct (tunIn s) as [|e q] eqn:Ein.
  2: { exists (PTun 0 None). cbn [pexec]. rewrite Ein, can_write_open. eauto. }
  destruct Hin as [Hin|[Hin|Hin]]; [|done..]. unfold in_peer in Hin. cbn [connIn pr_parsers pr_tcp parsedConn pr_router] in Hin.
  by rewrite Hpar in Hin.
Qed.

(** A healthy server that still has a packet inside can take a step. *)
Lemma server_progress d : healthy d → inside d ≠ [] → ∃ ev d', internal ev = true ∧ exec ev d = Some d'.
Proof.
  intros [Ha Hw Hdp (p & Hp & Hph) Hr Hf Hfits] Hin. destruct d as [s rw dps rd wr li ps]. sh_simpl. cbn in Hw. subst ps wr.
  destruct (tunOut s) as [|e q] eqn:Eout.
  2: { exists (EvTunWrite false). unfold exec. rewrite Ha, Eout. destruct (tun_Write _ _) as [[|]| |]; eauto. }
  assert (Hpeer : in_peer p ≠ [] ∨ tunIn s ≠ [] ∨ tcpChan s ≠ [] → ∃ ev d', internal ev = true ∧
    exec ev (MkServer s rw dps rd true li [p]) = Some d').
  { intros H. destruct (peer_progress s p Hph Eout H) as (ev & s' & p' & Hi & E). exists (EvPeer 0 ev).
    unfold exec. rewrite Ha. cbn [lookup list_lookup mbind option_bind]. rewrite E. cbn. by eauto. }
  destruct (tunIn s) as [|] eqn:Ein; [|apply Hpeer; by right; left].
  destruct (tcpChan s) as [|] eqn:Etcp; [|apply Hpeer; by right; right].
  destruct (in_peer p) as [|] eqn:Epeer; [|apply Hpeer; by left]. clear Hpeer.
  destruct (holds_or_idle id dps) as [(i & o & y & Ei & Ey)|[Hpar Hidle]].
  { exists (EvParseSend i). unfold exec, id in *. subst o. rewrite Ha, Ei, Ein. cbn. eauto. }
  destruct rw as [|e q].
  - exfalso. apply Hin. unfold inside, in_shared. sh_simpl. rewrite Ein, Eout, Etcp, Hpar. cbn. by rewrite Epeer.
  - exists (EvParseTake 0). unfold exec. rewrite Ha. destruct dps as [|o dps]; [done|].
    apply Forall_cons in Hidle as [Hn _]. unfold id in Hn. subst o. cbn [lookup list_lookup].
    destruct (parseIPHeader e) as [[|]| |]; eauto.
Qed.

Lemma run_healthy evs d d' : Forall (λ ev, internal ev = true) evs → run evs d = Some d' → healthy d →
  healthy d' ∧ length evs + weight d' ≤ weight d ∧ ins (sv d') = ins (sv d).
Proof.
  intros Hi. revert d. induction Hi as [|ev evs Hev _ IH]; intros d H Hd.
  - unfold run in H. simplify_eq/=. by split_and!.
  - rewrite run_cons in H. destruct (exec ev d) as [d1|] eqn:E; [|done]. cbn [mbind option_bind] in H.
    destruct (IH _ H (exec_healthy _ _ _ Hev E Hd)) as (Hh & Hl & Hn).
    pose proof (exec_decreases _ _ _ Hev E). destruct (exec_grows _ _ _ Hev E) as [En _].
    split_and!; [done| |congruence]. cbn [length]. lia.
Qed.

Lemma run_events_app evs evs' d d' : run evs d = Some d' → run (evs ++ evs') d = run evs' d'.
Proof. intros H. unfold run in *. by rewrite foldl_app, H. Qed.

(** C11.  The server's goroutines do not block each other: from any state it can reach in
    which none has failed and no packet inside has a truncated header or is too long for the
    device, no schedule of its goroutines takes more than a fixed number of steps, none
    panics, and where a schedule cannot be continued every packet received has been sent on or
    dropped. *)
Theorem server_drains evs0 d evs d' (H : run evs0 server0 = Some d) (Hh : healthy d)
    (Hi : Forall (λ ev, internal ev = true) evs) (Hr : run evs d = Some d') :
  length evs ≤ weight d ∧ crashed (sv d') = false ∧
  ((∃ ev d'', internal ev = true ∧ exec ev d' = Some d'') ∨ ins (sv d) ≡ₚ outs (sv d') ++ drops (sv d')).
Proof.
  destruct (run_healthy _ _ _ Hi Hr Hh) as (Hh' & Hl & Hn). split_and!; [lia|by destruct Hh'|].
  destruct (decide (inside d' = [])) as [E|E]; [right|left; by apply server_progress].
  rewrite <-Hn, (run_all (evs0 ++ evs) d'); [by rewrite E, app_nil_r|]. by rewrite (run_events_app _ _ _ _ H).
Qed.

(** *** A frame from one client to another *)

Definition example_packet (src dst : byte) : list byte :=
  x45 :: replicate 11 x00 ++ [xdf; xfe; x00; src; xdf; xfe; x00; dst].
Definition example_frame (src dst : byte) : datagramPacket := newDatagramPacket (example_packet src dst).
Definition example_input : list event :=
  [EvFrame "223.254.0.104" 8 (example_frame x68 x67); EvFrame "223.254.0.103" 7 (example_frame x67 x68)].
Definition example_route : list event := EvPeer 0 <$> [PTcpTake; PTcpSend; PRoute 0 None; PTcpTake; PTcpSend; PRoute 0 None].
Definition example_state (evs : list event) : server := default server0 (run evs server0).

Lemma server_conserves_witness :
  outs (sv (example_state (example_input ++ take 3 example_route))) = [example_packet x68 x67] ∧
  ins (sv (example_state (example_input ++ take 3 example_route))) ≡ₚ
    [example_packet x68 x67] ++ [] ++ inside (example_state (example_input ++ take 3 example_route)).
Proof.
  split; [vm_compute; reflexivity|].
  apply (server_conserves (example_input ++ take 3 example_route)). vm_compute. reflexivity.
Defined.

Lemma example_fits src dst : fits (example_packet src dst).
Proof.
  unfold fits, pool_size. apply Nat2Z.inj_le. rewrite Z2Nat.id by done.
  change LargeBufferSize with 65535%Z. change (Z.of_nat _) with 36%Z. lia.
Qed.

Lemma example_healthy : healthy (example_state example_input).
Proof.
  split.
  - vm_compute. reflexivity.
  - vm_compute. reflexivity.
  - vm_compute. discriminate.
  - exists new_peer. split; [vm_compute; reflexivity|]. split_and!; [done..|]. constructor.
  - constructor.
  - replace (tcpChan _) with [example_frame x68 x67; example_frame x67 x68] by (vm_compute; reflexivity).
    repeat constructor; eexists; reflexivity.
  - replace (inside _) with [example_packet x68 x67; example_packet x67 x68] by (vm_compute; reflexivity).
    rewrite !Forall_cons. split_and!; [apply example_fits..|constructor].
Qed.

Lemma server_drains_witness :
  crashed (sv (example_state (example_input ++ example_route))) = false ∧ 6 ≤ weight (example_state example_input).
Proof.
  assert (Hr : run example_route (example_state example_input) = Some (example_state (example_input ++ example_route)))
    by (vm_compute; reflexivity).
  assert (Hi : Forall (λ ev, internal ev = true) example_route) by (repeat constructor).
  assert (H : run example_input server0 = Some (example_state example_input)) by (vm_compute; reflexivity).
  destruct (server_drains example_input _ example_route _ H example_healthy Hi Hr) as (H1 & H2 & _).
  split; [exact H2|exact H1].
Defined.

(** ** A peer whose [routePeer] has ended *)

Lemma pexec_dead ev s p s' p' : pexec ev s p = Some (s', p') → pr_router p = None →
  pr_router p' = None ∧ prefix (parsedConn p) (parsedConn p').
Proof.
  destruct p as [opened cin pars tcp parsed router rtun rconn err]. intros H Hr. cbn in Hr. subst router.
  destruct ev; cbn [pexec] in H; cases; cbn; split; try done; by apply prefix_app_r.
Qed.

(** The other goroutines of such a peer go on: what they parse for it, frames of any TCP
    client included, is never routed. *)
Lemma dead_peer_keeps ev d d' i p : exec ev d = Some d' → peers d !! i = Some p → pr_router p = None →
  ∃ p', peers d' !! i = Some p' ∧ pr_router p' = None ∧ prefix (parsedConn p) (parsedConn p').
Proof.
  destruct d as [s rw dps rd wr li ps]. intros H Hp Hr. unfold exec in H. destruct (crashed s); [done|]. cbn [peers] in Hp.
  destruct ev as [| | | | | | | |j ev|ok].
  10: { destruct li; [|done]. destruct (reverse ps) as [|q rest] eqn:Er; [done|]. destruct (pr_err q); [|done].
    apply (f_equal reverse) in Er. rewrite reverse_involutive, reverse_cons in Er. subst ps.
    assert (Hl : ∃ p', (reverse rest ++ [close_peer q]) !! i = Some p' ∧ pr_router p' = None ∧ parsedConn p' = parsedConn p).
    { apply lookup_app_Some in Hp as [Hp|[Hi Hp]]; [exists p; by rewrite lookup_app_l by by eapply lookup_lt_Some|].
      rewrite lookup_app_r by done. destruct (i - _); [|done]. cbn in *. simplify_eq. by exists (close_peer p). }
    destruct Hl as (p' & Hl & Hn & Heq). exists p'. rewrite Heq.
    destruct ok; simplify_eq; cbn [peers]; [rewrite lookup_app_l by by eapply lookup_lt_Some|]; done. }
  9: { destruct (ps !! j) as [q|] eqn:Ej; [|done]. cbn [mbind option_bind] in H.
    destruct (pexec ev s q) as [[s' q']|] eqn:E; [|done]. cbn [mbind option_bind] in H. simplify_eq. cbn [peers].
    destruct (decide (i = j)) as [->|Hne]; [|by exists p; rewrite list_lookup_insert_ne].
    simplify_eq. exists q'. rewrite list_lookup_insert_eq by by eapply lookup_lt_Some. split; [done|]. by eapply pexec_dead. }
  all: cases; cbn [peers]; eauto.
Qed.

(** After the connection of one client breaks, a frame of another is taken by the old peer and
    lost, although a new peer runs. *)
Definition example_failure : list event :=
  [EvFrame "223.254.0.104" 8 (example_frame x68 x67); EvFrame "223.254.0.103" 7 (example_frame x67 x68);
   EvPeer 0 PTcpTake; EvPeer 0 PTcpSend; EvPeer 0 (PRoute 0 (Some (Errorf "broken pipe"))); EvListen true;
   EvPeer 0 PTcpTake; EvPeer 0 PTcpSend].
Example frame_lost_in_old_peer :
  let d := example_state example_failure in
  length (peers d) = 2 ∧ drops (sv d) = [example_packet x68 x67] ∧
  (loads <$> (parsedConn <$> peers d)) = [[example_packet x67 x68]; []] ∧ (pr_router <$> peers d) = [None; Some None].
Proof. vm_compute. done. Qed.

(** A read of no bytes from the device makes a parser panic. *)
Example empty_read_panics data src dst :
  crashed (sv (example_state [EvTunRead (MkElem "" data 0 src dst); EvParseTake 0])) = true.
Proof. reflexivity. Qed.
