(* ===== verification/DaemonProc.v ===== *)
(** * The processes of the daemons

    [pkg/daemon/client.go] and [daemon.go], [cmd/kubevpn/cmds/daemon.go], [quit.go] and
    [upgrade.go], [pkg/daemon/action/upgrade.go]: a command of the user finds the two daemons
    by their sockets, or starts them after killing the process their pid file names.  The
    state is the machine: its processes, the socket and the pid file of each daemon. *)
From Stdlib Require Import ZArith Lia.
From stdpp Require Import base gmap strings numbers list.
From S2P Require Import Prelude GoStrings.
From stdpp Require Import list.

Local Open Scope string_scope.

(** ** The machine *)

Inductive process := DaemonProcess (isSudo : bool) (version commit : string) | Unrelated (name : string).

#[global] Instance process_eq_dec : EqDecision process.
Proof. solve_decision. Defined.

(** [socks] has the process that listens on the socket of each daemon, [pids] the contents of its
    pid file. *)
Record machine := MkMachine { procs : gmap Z process; socks : gmap bool Z; pids : gmap bool string }.

Definition daemon_at (m : machine) (isSudo : bool) : option (string * string) :=
  pid ← socks m !! isSudo;
  p ← procs m !! pid;
  match p with DaemonProcess b v c => if Bool.eqb b isSudo then Some (v, c) else None | Unrelated _ => None end.

(** The health check and [Status] succeed. *)
Definition serving (m : machine) (isSudo : bool) : bool := match daemon_at m isSudo with Some _ => true | None => false end.

(** The process a pid file names. *)
Definition pid_named (m : machine) (isSudo : bool) : option Z :=
  content ← pids m !! isSudo;
  Atoi (TrimSpace content).

(** ** The daemon *)

(** [CmdDaemon]: [PreRunE] writes the pid file, [Start] listens on the socket. *)
Definition daemon_Start (isSudo : bool) (pid : Z) (version commit : string) (m : machine) : machine :=
  MkMachine (<[pid := DaemonProcess isSudo version commit]> (procs m)) (<[isSudo := pid]> (socks m))
    (<[isSudo := Itoa pid]> (pids m)).

(** [SvrOption.Stop], after which the process ends: the socket is removed.  [PostRun] would remove
    the pid file too, but cobra runs it only when [RunE] returns no error, and
    [http.Server.Serve] always returns one. *)
Definition daemon_Stop (isSudo : bool) (m : machine) : machine :=
  match socks m !! isSudo with
  | Some pid => MkMachine (delete pid (procs m)) (delete isSudo (socks m)) (pids m)
  | None => m
  end.

Lemma serving_lookup m b : serving m b = true ↔ ∃ pid v c, socks m !! b = Some pid ∧ procs m !! pid = Some (DaemonProcess b v c).
Proof.
  unfold serving, daemon_at. destruct (socks m !! b) as [pid|]; cbn; [|split; [done|naive_solver]].
  destruct (procs m !! pid) as [[b' v c|]|] eqn:E; cbn; [destruct (Bool.eqb b' b) eqn:Eb|..]; split; try done.
  - intros _. apply Bool.eqb_prop in Eb as ->. by exists pid, v, c.
  - intros (? & ? & ? & ? & ?). simplify_eq. by rewrite Bool.eqb_reflx in Eb.
  - naive_solver.
  - naive_solver.
Qed.
(** ** Clients *)

Section client.
(** What the new process of a daemon does: the pid it has when it comes up, with its version;
    which processes may be killed, and which files may not be removed. *)
Context (start : machine → bool → option (Z * string * string)) (may_kill : machine → Z → bool) 
  (denied_sock denied_pid : bool → option error).

(** [GetClient]: the clients that are set, among [daemonClient] and [sudoDaemonClient], are not
    checked again. *)
Definition GetClient (m : machine) (cached : gset bool) (isSudo : bool) : bool * gset bool :=
  match socks m !! isSudo with
  | None => (false, cached)
  | Some _ =>
      if bool_decide (isSudo ∈ cached) then (true, cached)
      else if serving m isSudo then (true, {[isSudo]} ∪ cached)
      else (false, cached)
  end.

Definition kill (m : machine) (pid : Z) : machine :=
  if may_kill m pid then MkMachine (delete pid (procs m)) (socks m) (pids m) else m.

(** [runDaemon] up to the start of the new process. *)
Definition clear_daemon (m : machine) (isSudo : bool) : machine * outcome unit :=
  match denied_sock isSudo with
  | Some e => (m, Fail e)
  | None =>
      let m := MkMachine (procs m) (delete isSudo (socks m)) (pids m) in
      match pids m !! isSudo with
      | None => (m, Ret tt)
      | Some content =>
          let m := match Atoi (TrimSpace content) with Some pid => kill m pid | None => m end in
          match denied_pid isSudo with
          | Some e => (m, Fail e)
          | None => (MkMachine (procs m) (socks m) (delete isSudo (pids m)), Ret tt)
          end
      end
  end.

(** The wait for the socket ends when it exists or the context is cancelled. *)
Definition runDaemon (m : machine) (cached : gset bool) (isSudo : bool) : machine * gset bool * outcome unit :=
  match clear_daemon m isSudo with
  | (m, Ret _) =>
      let m := match start m isSudo with Some (pid, v, c) => daemon_Start isSudo pid v c m | None => m end in
      match GetClient m cached isSudo with
      | (true, cached) => (m, cached, if serving m isSudo then Ret tt else Fail (Errorf "unavailable"))
      | (false, cached) => (m, cached, Fail (Errorf "can not get daemon server client"))
      end
  | (m, o) => (m, cached, o)
  end.

(** One daemon of [StartupDaemon]: the variable is assigned the result of [GetClient]. *)
Definition startup_one (m : machine) (cached : gset bool) (isSudo : bool) : machine * gset bool * outcome unit :=
  match GetClient m cached isSudo with
  | (true, cached) => (m, cached, Ret tt)
  | (false, cached) => runDaemon m (cached ∖ {[isSudo]}) isSudo
  end.

Definition StartupDaemon (m : machine) (cached : gset bool) : machine * gset bool * outcome unit :=
  match startup_one m cached false with
  | (m, cached, Ret _) => startup_one m cached true
  | (m, cached, o) => (m, cached, o)
  end.

(** ** Lemmas *)

Lemma GetClient_uncached m cached b : b ∉ cached →
  GetClient m cached b = (serving m b, if serving m b then {[b]} ∪ cached else cached).
Proof.
  intros Hb. unfold GetClient, serving, daemon_at. destruct (socks m !! b) as [pid|]; [|done]. cbn [mbind option_bind].
  rewrite bool_decide_false by done. destruct (procs m !! pid) as [[b' v c|]|]; cbn [mbind option_bind]; try done.
  by destruct (Bool.eqb b' b).
Qed.

(** A process that is started has a new pid. *)
Definition fresh_pids : Prop := ∀ m b pid v c, start m b = Some (pid, v, c) → procs m !! pid = None.

Lemma kill_keeps m pid q p : procs m !! q = Some p → q ≠ pid → procs (kill m pid) !! q = Some p.
Proof. intros H Hne. unfold kill. destruct (may_kill m pid); [|done]. cbn. by rewrite lookup_delete_ne. Qed.
Lemma kill_files m pid : socks (kill m pid) = socks m ∧ pids (kill m pid) = pids m.
Proof. unfold kill. by destruct (may_kill m pid). Qed.

(** What a step on the files of one daemon keeps: the other's files, and all processes but the one
    the pid file names. *)
Definition keeps (m m' : machine) (b : bool) : Prop :=
  socks m' !! negb b = socks m !! negb b ∧ pids m' !! negb b = pids m !! negb b ∧
  ∀ pid p, procs m !! pid = Some p → procs m' !! pid = Some p ∨ pid_named m b = Some pid.

Lemma clear_keeps m b m' o : clear_daemon m b = (m', o) → keeps m m' b.
Proof.
  assert (Hb : b ≠ negb b) by by destruct b.
  unfold clear_daemon, keeps. destruct (denied_sock b); [intros; simplify_eq; by eauto|]. cbn [pids].
  destruct (pids m !! b) as [content|] eqn:E; [|intros; simplify_eq; cbn; rewrite lookup_delete_ne by done; by eauto].
  set (m1 := MkMachine _ _ _).
  set (m2 := match Atoi (TrimSpace content) with Some _ => _ | None => _ end).
  assert (Hm : socks m2 = socks m1 ∧ pids m2 = pids m1 ∧
    ∀ pid p, procs m !! pid = Some p → procs m2 !! pid = Some p ∨ pid_named m b = Some pid).
  { unfold m2, pid_named. rewrite E. cbn [mbind option_bind]. destruct (Atoi (TrimSpace content)) as [q|]; [|by eauto].
    destruct (kill_files m1 q) as [H1 H2]. split_and!; [done..|]. intros pid p Hp.
    destruct (decide (pid = q)) as [->|Hne]; [by right|left]. by apply kill_keeps. }
  clearbody m2. destruct Hm as (H1 & H2 & H3).
  destruct (denied_pid b); intros; simplify_eq; cbn [socks pids procs]; rewrite ?H1, ?H2; unfold m1; cbn [socks pids procs];
    rewrite ?lookup_delete_ne by done; by eauto.
Qed.

Lemma start_keeps m b pid v c : procs m !! pid = None → keeps m (daemon_Start b pid v c m) b.
Proof.
  intros Hn. unfold daemon_Start. split_and!; cbn [socks pids procs]; [by rewrite lookup_insert_ne by (by destruct b)..|].
  intros q p Hq. left. by rewrite lookup_insert_ne by congruence.
Qed.

Lemma startup_one_spec m cached b m' cached' : fresh_pids → b ∉ cached → startup_one m cached b = (m', cached', Ret tt) →
  serving m' b = true ∧ cached' = {[b]} ∪ cached ∧ keeps m m' b ∧ (serving m b = true → m' = m).
Proof.
  intros Hf Hb. unfold startup_one. rewrite GetClient_uncached by done. destruct (serving m b) eqn:Es.
  { intros [= -> <-]. split_and!; try done. unfold keeps; eauto. }
  unfold runDaemon. destruct (clear_daemon m b) as [m1 [ [] |e| ] ] eqn:Ec; [|done..].
  pose proof (clear_keeps _ _ _ _ Ec) as (K1 & K2 & K3). set (m2 := match start m1 b with Some _ => _ | None => _ end).
  rewrite GetClient_uncached by set_solver. destruct (serving m2 b) eqn:E2; [|done]. intros [= <- <-].
  split_and!; [done|set_solver| |done].
  unfold m2. destruct (start m1 b) as [ [[pid v] c] |] eqn:Est; [|done].
  destruct (start_keeps m1 b pid v c (Hf _ _ _ _ _ Est)) as (L1 & L2 & L3).
  split_and!; [congruence..|]. intros q p Hq. destruct (K3 q p Hq) as [Hq'|]; [|by right].
  unfold daemon_Start in *. cbn [procs] in *. left. rewrite lookup_insert_ne; [done|]. intros ->. by rewrite (Hf _ _ _ _ _ Est) in Hq'.
Qed.
End client.

(** ** Starting the daemons *)

(** A daemon keeps serving while the files of the other change, unless the other's pid file
    names its process. *)
Lemma serving_kept m m' b : keeps m m' (negb b) → serving m b = true →
  serving m' b = true ∨ ∃ pid, socks m' !! b = Some pid ∧ pid_named m (negb b) = Some pid.
Proof.
  unfold keeps. rewrite negb_involutive, !serving_lookup. intros (H1 & _ & H3) (pid & v & c & Hs & Hp).
  destruct (H3 _ _ Hp) as [Hp'|Hn]; [left|right]; [exists pid, v, c|exists pid]; split; congruence.
Qed.

(** A step on the files of the other daemon keeps the process of a daemon, unless the
    other's pid file names it. *)
Lemma process_kept m m' b pid : keeps m m' (negb b) → serving m b = true → socks m !! b = Some pid →
  (socks m' !! b = Some pid ∧ pids m' !! b = pids m !! b ∧ procs m' !! pid = procs m !! pid) ∨
  pid_named m (negb b) = Some pid.
Proof.
  unfold keeps. rewrite negb_involutive, serving_lookup. intros (H1 & H2 & H3) (q & v & c & Hs & Hp) Hq.
  rewrite Hs in Hq. injection Hq as ->. destruct (H3 _ _ Hp) as [Hp'|Hn]; [left|by right].
  split; [congruence|]. split; [done|congruence].
Qed.

(** C36.  When [StartupDaemon] succeeds in a new command, which has no client yet, the root
    daemon serves, and so does the user daemon, unless the pid file of the root daemon
    named its process, which is killed then.  A daemon that served before is left alone,
    its process, its socket and its pid file, unless the pid file of the other daemon
    names its process; when both served nothing changes.  No process is killed but those
    that the two pid files name.  In a command that has used a client before, nothing is
    checked ([cached_client_unchecked]). *)
Theorem startup_serves start may_kill denied_sock denied_pid m m' cached'
    (Hf : fresh_pids start)
    (H : StartupDaemon start may_kill denied_sock denied_pid m ∅ = (m', cached', Ret tt)) :
  serving m' true = true ∧
  (serving m' false = true ∨ ∃ pid, socks m' !! false = Some pid ∧ pid_named m true = Some pid) ∧
  (serving m false = true → serving m true = true → m' = m) ∧
  (∀ b pid, serving m b = true → socks m !! b = Some pid →
     (socks m' !! b = Some pid ∧ pids m' !! b = pids m !! b ∧ procs m' !! pid = procs m !! pid) ∨
     pid_named m (negb b) = Some pid) ∧
  (∀ pid p, procs m !! pid = Some p → procs m' !! pid = Some p ∨ pid_named m false = Some pid ∨ pid_named m true = Some pid).
Proof.
  unfold StartupDaemon in H. destruct (startup_one _ _ _ _ m ∅ false) as [[m1 cached1] [[]|e|]] eqn:E1; [|done..].
  apply startup_one_spec in E1 as (S1 & -> & K1 & I1); [|done|set_solver].
  apply startup_one_spec in H as (S2 & _ & K2 & I2); [|done|set_solver].
  assert (Hn : pid_named m1 true = pid_named m true).
  { unfold pid_named. destruct K1 as (_ & K1 & _). cbn [negb] in K1. by rewrite K1. }
  split_and!; [done| | | |].
  - destruct (serving_kept m1 m' false K2 S1) as [Hs|(pid & Hs & Hp)]; [by left|right]. exists pid. by rewrite <-Hn.
  - intros H1 H2. rewrite I1 in I2 by done. rewrite I1 in Hn by done. by apply I2.
  - intros [] pid Hs Hp.
    + destruct (process_kept m m1 true pid K1 Hs Hp) as [(Hp1 & Hq1 & Hr1)|]; [left|by right].
      rewrite I2; [done|]. apply serving_lookup in Hs as (q & v & c & Hq & Hq').
      rewrite Hp in Hq. injection Hq as ->. apply serving_lookup. exists q, v, c. by rewrite Hr1.
    + rewrite I1 in K2 by done. by apply (process_kept m m' false).
  - intros pid p Hp. destruct K1 as (_ & _ & K1), K2 as (_ & _ & K2). destruct (K1 _ _ Hp) as [Hp'|]; [|by eauto].
    rewrite <-Hn. destruct (K2 _ _ Hp'); eauto.
Qed.

(** *** Examples *)

Definition example_start (m : machine) (b : bool) : option (Z * string * string) :=
  let pid := if b then 901%Z else 900%Z in
  if decide (procs m !! pid = None) then Some (pid, "v2.0.0", "abc") else None.
Definition all_kill (_ : machine) (_ : Z) : bool := true.
Definition allowed (_ : bool) : option error := None.
(** The user has quit a root daemon with the pid 42, and an editor has the pid now. *)
Definition after_quit : machine := MkMachine {[42%Z := Unrelated "editor"]} ∅ {[true := "42"]}.

Lemma example_start_fresh : fresh_pids example_start.
Proof. intros m b pid v c. unfold example_start. case_decide; [|done]. intros [= <- _ _]. done. Qed.

Definition started : machine := (StartupDaemon example_start all_kill allowed allowed after_quit ∅).1.1.

Lemma startup_serves_witness : serving started true = true ∧ pid_named after_quit true = Some 42%Z.
Proof.
  split; [|vm_compute; reflexivity].
  apply (startup_serves example_start all_kill allowed allowed after_quit started {[false; true]} example_start_fresh).
  vm_compute. reflexivity.
Defined.

(** The pid file outlives its daemon. *)
Lemma Stop_keeps_pid_file b m : pids (daemon_Stop b m) = pids m.
Proof. unfold daemon_Stop. by destruct (socks m !! b). Qed.

(** Starting the daemons again kills the process that has the pid of a daemon that was quit. *)
Example unrelated_process_killed :
  daemon_Stop true (daemon_Start true 42 "v1.0.0" "abc" (MkMachine ∅ ∅ ∅)) = MkMachine ∅ ∅ {[true := "42"]} ∧
  procs started !! 42%Z = None.
Proof. split; vm_compute; reflexivity. Qed.

(** A client that the command has used before is not checked: the daemon is not started while its
    socket is still there. *)
Lemma cached_client_unchecked start may_kill denied_sock denied_pid procs0 pids0 p q :
  StartupDaemon start may_kill denied_sock denied_pid (MkMachine procs0 {[false := p; true := q]} pids0) {[false; true]} =
    (MkMachine procs0 {[false := p; true := q]} pids0, {[false; true]}, Ret tt).
Proof.
  unfold StartupDaemon, startup_one, GetClient. cbn [socks].
  assert (E1 : ({[false := p; true := q]} : gmap bool Z) !! false = Some p) by done.
  assert (E2 : ({[false := p; true := q]} : gmap bool Z) !! true = Some q) by done.
  rewrite E1, bool_decide_true by set_solver. cbn [socks]. by rewrite E2, bool_decide_true by set_solver.
Qed.
