(* ===== verification/Upgrade.v ===== *)
(** * Upgrades

    [pkg/util/upgarde.go], [pkg/upgrade/upgrade.go], [pkg/daemon/action/upgrade.go] and the upgrade
    command: which file of the latest release is downloaded, how the executable is replaced,
    and which daemons are started anew.  Versions and their order are parameters. *)
From Stdlib Require Import ZArith Lia.
From stdpp Require Import base gmap strings numbers list.
From S2P Require Import Prelude GoStrings DaemonProc.
From stdpp Require Import list.

Local Open Scope string_scope.

(** ** The release *)

Record AssetsEntity := MkAsset { a_Name : string; a_Url : string }.
Record RootEntity := MkRoot { TagName : string; TargetCommitish : string; Assets : list AssetsEntity }.

(** The answer that is used: every address is asked, and each answer or error replaces the one
    before. *)
Definition last_response {R} (answers : list (outcome R)) : option R :=
  foldl (λ _ a, match a with Ret r => Some r | _ => None end) None answers.

Definition find_asset (os arch : string) (assets : list AssetsEntity) : option AssetsEntity :=
  List.find (λ a, Contains (a_Name a) arch && Contains (a_Name a) os) assets.

(** [GetManifest]; the answers hold the bodies that were read and decoded. *)
Definition GetManifest (answers : list (outcome (outcome RootEntity))) (os arch : string) : outcome (string * string * string) :=
  match last_response answers with
  | None => Fail (Errorf "failed to call github api")
  | Some body =>
      m ← body;
      let url := match find_asset os arch (Assets m) with Some a => a_Url a | None => "" end in
      if negb (String.eqb url "") then Ret (TagName m, TargetCommitish m, url)
      else if bool_decide (os ∈ ["windows"; "darwin"]) then Fail (Errorf "Can not found latest version url of KubeVPN")
      else match find_asset "linux" arch (Assets m) with
      | Some a => Ret (TagName m, TargetCommitish m, a_Url a)
      | None => Fail (Errorf "Can not found latest version url of KubeVPN")
      end
  end.

(** [UnzipKubeVPNIntoFile]: the first entry whose name contains "kubevpn". *)
Definition unzip (archive : list (string * string)) : option string :=
  snd <$> List.find (λ f, Contains (fst f) "kubevpn") archive.

(** ** The executable *)

Section upgrade.
Context {V : Type} (NewVersion : string → outcome V) (GreaterThan Equal : V → V → bool).

(** Files by their path. *)
Abbreviation fs := (gmap string string).

Definition Rename (failing : string → string → option error) (src dst : string) (f : fs) : fs * outcome unit :=
  match failing src dst, f !! src with
  | Some e, _ => (f, Fail e)
  | None, None => (f, Fail (Errorf "no such file or directory"))
  | None, Some c => (<[dst := c]> (delete src f), Ret tt)
  end.

(** What [upgrade.Main] did: it returned, or it ran the command again with more privileges and
    left. *)
Inductive upgrade_result := Returned (f : fs) (o : outcome unit) | Elevated.

(** [upgrade.Main]: [probe] is the error of the file made to test for permission, [None] for none,
    [Some None] for a lack of permission; [newfile] and [old] are names of temporary files that
    do not exist; the archive is what the download gives. *)
Definition upgrade_Main (version commit latestVersion latestCommit : string) (exe : string) (probe : option (option error))
    (isAdmin : bool) (archive : outcome (list (string * string))) (newfile old : string)
    (failing : string → string → option error) (f : fs) : upgrade_result :=
  match NewVersion version, NewVersion latestVersion with
  | Ret cVersion, Ret dVersion =>
      if GreaterThan cVersion dVersion || (Equal cVersion dVersion && String.eqb commit latestCommit) then Returned f (Ret tt)
      else match probe with
      | Some None => Elevated
      | Some (Some e) => Returned f (Fail e)
      | None =>
          if negb isAdmin then Elevated
          else match archive with
          | Ret entries =>
              match unzip entries with
              | None => Returned f (Fail (Errorf "can not found kubevpn"))
              | Some bin =>
                  let f := <[newfile := bin]> f in
                  match Rename failing exe old f with
                  | (f, Ret _) => let '(f, o) := Rename failing newfile exe f in Returned f o
                  | (f, o) => Returned f o
                  end
              end
          | o => Returned f (_ ← o; Ret tt)
          end
      end
  | Ret _, o => Returned f (_ ← o; Ret tt)
  | o, _ => Returned f (_ ← o; Ret tt)
  end.

(** Whatever happens, the executable is the old one, or the new one after a success; only a failure
    of the second renaming leaves none, with the old one under its temporary name. *)
Lemma upgrade_Main_replaces version commit latestVersion latestCommit exe probe isAdmin archive newfile old failing f f' o
    (Hn : newfile ≠ exe) (Ho : old ≠ exe) (Hno : newfile ≠ old)
    (H : upgrade_Main version commit latestVersion latestCommit exe probe isAdmin archive newfile old failing f = Returned f' o) :
  f' !! exe = f !! exe ∨
  (o = Ret tt ∧ ∃ entries, archive = Ret entries ∧ f' !! exe = unzip entries) ∨
  (∃ e, o = Fail e ∧ failing newfile exe = Some e ∧ f' !! exe = None ∧ f' !! old = f !! exe).
Proof.
  unfold upgrade_Main in H. destruct (NewVersion version), (NewVersion latestVersion); try (simplify_eq/=; by left). destruct (_ || _); [by simplify_eq; left|].
  destruct probe as [[e|]|]; [by simplify_eq; left|done|]. destruct isAdmin; [|done].
  destruct archive as [entries| |]; [|by simplify_eq/=; left..]. cbn [negb] in H.
  destruct (unzip entries) as [bin|] eqn:Eb; [|by simplify_eq; left].
  unfold Rename at 1 in H. destruct (failing exe old); [simplify_eq; left; by rewrite lookup_insert_ne|].
  rewrite lookup_insert_ne in H by done. destruct (f !! exe) as [c|] eqn:Ee; [|simplify_eq; left; by rewrite lookup_insert_ne].
  unfold Rename in H. destruct (failing newfile exe) as [e|] eqn:Ef.
  - simplify_eq. right; right. exists e. split_and!; [done..| |by rewrite lookup_insert_eq].
    by rewrite lookup_insert_ne, lookup_delete_eq.
  - rewrite lookup_insert_ne, lookup_delete_ne, lookup_insert_eq in H by done. simplify_eq. right; left.
    split; [done|]. exists entries. by rewrite lookup_insert_eq.
Qed.
End upgrade.

(** ** The daemons *)

Section daemons.
Context {V : Type} (NewVersion : string → outcome V) (GreaterThan Equal : V → V → bool).
Context (latestVersion latestCommit : string).

(** [Server.Upgrade] of a daemon with the given version: whether it needs to be started anew. *)
Definition Server_Upgrade (version commit : string) : outcome bool :=
  clientVersion ← NewVersion latestVersion;
  daemonVersion ← NewVersion version;
  Ret (GreaterThan clientVersion daemonVersion || (Equal clientVersion daemonVersion && negb (String.eqb latestCommit commit))).

(** [quit]: the daemon ends before the stream of its messages does. *)
Definition quit (m : machine) (isSudo : bool) : machine := if serving m isSudo then daemon_Stop isSudo m else m.

Definition upgrade_one (st : machine * gset bool) (isSudo : bool) : machine * gset bool :=
  let '(m, cached) := st in
  match GetClient m cached isSudo with
  | (false, cached) => (m, cached)
  | (true, cached) =>
      match daemon_at m isSudo with
      | Some (v, c) =>
          match Server_Upgrade v c with
          | Ret false => (m, cached)
          | _ => (quit m isSudo, cached)
          end
      | None => (quit m isSudo, cached)
      end
  end.

(** A daemon that needs no upgrade. *)
Definition current (m : machine) (b : bool) : Prop := ∃ v c, daemon_at m b = Some (v, c) ∧ Server_Upgrade v c = Ret false.

(** A daemon that [StartupDaemon] will find, or start. *)
Definition ready (m : machine) (cached : gset bool) (b : bool) : Prop :=
  if decide (b ∈ cached) then socks m !! b = None ∨ current m b else serving m b = false.

Lemma quit_keeps m b b' : b' ≠ b →
  socks (quit m b) !! b' = socks m !! b' ∧ daemon_at (quit m b) b' = daemon_at m b' ∧ pids (quit m b) = pids m.
Proof.
  intros Hb. unfold quit. destruct (serving m b) eqn:Es; [|done].
  apply serving_lookup in Es as (pid & v & c & H1 & H2). unfold daemon_Stop, daemon_at. rewrite H1. cbn [socks procs pids].
  rewrite lookup_delete_ne by done. split_and!; [done| |done].
  destruct (socks m !! b') as [q|]; [|done]. cbn [mbind option_bind].
  destruct (decide (q = pid)) as [->|Hne]; [|by rewrite lookup_delete_ne].
  rewrite lookup_delete_eq, H2. cbn. by rewrite (proj2 (Bool.eqb_false_iff _ _)).
Qed.

Lemma serving_at m m' b : daemon_at m' b = daemon_at m b → serving m' b = serving m b.
Proof. unfold serving. by intros ->. Qed.

Lemma ready_kept m m' cached cached' b : socks m' !! b = socks m !! b → daemon_at m' b = daemon_at m b →
  (b ∈ cached' ↔ b ∈ cached) → ready m cached b → ready m' cached' b.
Proof.
  intros H1 H2 H3. unfold ready, current. rewrite H1, H2, (serving_at m m' b H2). destruct (decide (b ∈ cached)), (decide (b ∈ cached')); naive_solver.
Qed.

Lemma upgrade_one_spec m cached b m' cached' : b ∉ cached → upgrade_one (m, cached) b = (m', cached') →
  ready m' cached' b ∧ pids m' = pids m ∧
  (∀ b', b' ≠ b → socks m' !! b' = socks m !! b' ∧ daemon_at m' b' = daemon_at m b' ∧ (b' ∈ cached' ↔ b' ∈ cached)).
Proof.
  intros Hb. unfold upgrade_one. rewrite GetClient_uncached by done.
  destruct (serving m b) eqn:Es.
  2: { intros [= <- <-]. split_and!; [|done|naive_solver]. unfold ready. by rewrite decide_False. }
  assert (Hq : ready (quit m b) ({[b]} ∪ cached) b).
  { unfold ready. rewrite decide_True by set_solver. left. unfold quit. rewrite Es. unfold daemon_Stop.
    apply serving_lookup in Es as (pid & v & c & H1 & _). rewrite H1. cbn. by rewrite lookup_delete_eq. }
  assert (Hd : quit m b = m' → {[b]} ∪ cached = cached' →
    ready m' cached' b ∧ pids m' = pids m ∧
    (∀ b', b' ≠ b → socks m' !! b' = socks m !! b' ∧ daemon_at m' b' = daemon_at m b' ∧ (b' ∈ cached' ↔ b' ∈ cached))).
  { intros <- <-. split_and!; [done|by apply (quit_keeps m b (negb b)); destruct b|].
    intros b' Hb'. destruct (quit_keeps m b b' Hb') as (H1 & H2 & _). split_and!; [done..|set_solver]. }
  destruct (daemon_at m b) as [[v c]|] eqn:Ed; [|intros [= ? ?]; by apply Hd].
  destruct (Server_Upgrade v c) as [[|]| |] eqn:Eu; intros [= H1 H2]; try (by apply Hd).
  subst. split_and!; [|done|set_solver]. unfold ready. rewrite decide_True by set_solver. right. by exists v, c.
Qed.
Lemma upgraded_ready m m2 cached2 : foldl upgrade_one (m, ∅) [false; true] = (m2, cached2) →
  pids m2 = pids m ∧ ∀ b, ready m2 cached2 b.
Proof.
  cbn [foldl]. destruct (upgrade_one (m, ∅) false) as [m1 cached1] eqn:E1. intros E2.
  apply upgrade_one_spec in E1 as (R1 & P1 & O1); [|set_solver].
  destruct (O1 true) as (_ & _ & O1c); [done|].
  apply upgrade_one_spec in E2 as (R2 & P2 & O2); [|set_solver]. destruct (O2 false) as (H1 & H2 & H3); [done|].
  split; [congruence|]. intros [|]; [done|]. by eapply ready_kept.
Qed.
(** No step on one daemon makes a process of the other. *)
Definition no_new (m m' : machine) (b : bool) : Prop :=
  ∀ pid v c, procs m' !! pid = Some (DaemonProcess (negb b) v c) → procs m !! pid = Some (DaemonProcess (negb b) v c).

Lemma current_kept m m' b : keeps m m' (negb b) → current m b →
  current m' b ∨ ∃ pid, socks m' !! b = Some pid ∧ pid_named m (negb b) = Some pid.
Proof.
  unfold keeps, current, daemon_at. rewrite negb_involutive. intros (H1 & _ & H3) (v & c & Hd & Hu).
  rewrite H1. destruct (socks m !! b) as [pid|]; [|done]. cbn [mbind option_bind] in *.
  destruct (procs m !! pid) as [p|] eqn:Ep; [|done]. destruct (H3 _ _ Ep) as [->|Hn]; [left|right]; eauto.
Qed.

Lemma ready_other m m' cached cached' b : keeps m m' (negb b) → no_new m m' (negb b) → (b ∈ cached' ↔ b ∈ cached) →
  ready m cached b → ready m' cached' b ∨ b ∈ cached' ∧ ∃ pid, socks m' !! b = Some pid ∧ pid_named m (negb b) = Some pid.
Proof.
  intros K Hnew Hc. unfold ready. destruct (decide (b ∈ cached)) as [Hb|Hb].
  - rewrite decide_True by naive_solver. intros [Hs|Hr].
    + left. left. destruct K as (K1 & _). rewrite negb_involutive in K1. congruence.
    + destruct (current_kept _ _ _ K Hr); naive_solver.
  - rewrite decide_False by naive_solver. intros Hs. left. destruct (serving m' b) eqn:E; [|done].
    apply serving_lookup in E as (pid & v & c & H1 & H2). unfold no_new in Hnew. rewrite negb_involutive in Hnew.
    rewrite <-Hs. symmetry. apply serving_lookup. destruct K as (K1 & _). rewrite negb_involutive in K1.
    exists pid, v, c. split; [congruence|by apply Hnew].
Qed.

Context (start : machine → bool → option (Z * string * string)) (may_kill : machine → Z → bool)
  (denied_sock denied_pid : bool → option error).

(** [CmdUpgrade] after the executable was replaced. *)
Definition upgrade_daemons (m : machine) : machine * gset bool * outcome unit :=
  let '(m, cached) := foldl upgrade_one (m, ∅) [false; true] in
  StartupDaemon start may_kill denied_sock denied_pid m cached.

Abbreviation startup := (startup_one start may_kill denied_sock denied_pid).
Abbreviation clear := (clear_daemon may_kill denied_sock denied_pid).

Lemma clear_subset m b m' o : clear m b = (m', o) → procs m' ⊆ procs m.
Proof.
  unfold DaemonProc.clear_daemon. destruct (denied_sock b); [intros; by simplify_eq|]. cbn [pids].
  destruct (pids m !! b) as [content|]; [|intros; by simplify_eq].
  set (m2 := match Atoi (TrimSpace content) with Some _ => _ | None => _ end).
  assert (Hs : procs m2 ⊆ procs m).
  { unfold m2, kill. destruct (Atoi _); [|done]. destruct (may_kill _ _); [|done]. apply delete_subseteq. }
  clearbody m2. destruct (denied_pid b); intros; by simplify_eq.
Qed.

Lemma clear_sock m b m' : clear m b = (m', Ret tt) → socks m' !! b = None.
Proof.
  unfold DaemonProc.clear_daemon. destruct (denied_sock b); [done|]. cbn [pids].
  destruct (pids m !! b) as [content|]; [|intros; simplify_eq; cbn [socks]; by rewrite lookup_delete_eq].
  destruct (denied_pid b); [done|]. intros; simplify_eq. cbn [socks].
  destruct (Atoi _); [rewrite (proj1 (kill_files _ _ _))|]; cbn [socks]; by rewrite lookup_delete_eq.
Qed.

(** A daemon that had to be started is the new one. *)
Lemma runDaemon_new m cached b m' cached' : fresh_pids start → b ∉ cached →
  runDaemon start may_kill denied_sock denied_pid m cached b = (m', cached', Ret tt) →
  ∃ m1 pid v c, start m1 b = Some (pid, v, c) ∧ daemon_at m' b = Some (v, c) ∧ keeps m m' b ∧ no_new m m' b ∧
    cached' = {[b]} ∪ cached.
Proof.
  intros Hf Hb. unfold runDaemon. destruct (clear m b) as [m1 [[]|e|]] eqn:Ec; [|done..].
  pose proof (clear_sock _ _ _ Ec) as Hs. pose proof (clear_subset _ _ _ _ Ec) as Hsub.
  apply clear_keeps in Ec as (K1 & K2 & K3). rewrite GetClient_uncached by done.
  destruct (start m1 b) as [[[pid v] c]|] eqn:Est.
  2: { unfold serving, daemon_at. by rewrite Hs. }
  assert (Hd : daemon_at (daemon_Start b pid v c m1) b = Some (v, c)).
  { unfold daemon_at, daemon_Start. cbn [socks procs]. rewrite !lookup_insert_eq. cbn [mbind option_bind]. rewrite lookup_insert_eq.
    cbn. by rewrite Bool.eqb_reflx. }
  unfold serving at 1 2 3. rewrite Hd. intros [= <- <-]. exists m1, pid, v, c.
  destruct (start_keeps m1 b pid v c (Hf _ _ _ _ _ Est)) as (L1 & L2 & L3). split_and!; try done.
  - split_and!; [congruence..|]. intros q p Hq. destruct (K3 q p Hq) as [Hq'|]; [|by right]. left.
    unfold daemon_Start. cbn [procs]. rewrite lookup_insert_ne; [done|]. intros ->. by rewrite (Hf _ _ _ _ _ Est) in Hq'.
  - intros q v' c'. unfold daemon_Start. cbn [procs].
    destruct (decide (q = pid)) as [->|Hne]; [rewrite lookup_insert_eq; by destruct b|].
    rewrite lookup_insert_ne by done. intros Hq. by eapply lookup_weaken.
Qed.

(** The new executable has the latest version. *)
Definition starts_latest : Prop := ∀ m b pid v c, start m b = Some (pid, v, c) → v = latestVersion ∧ c = latestCommit.

Lemma startup_current m cached b m' cached' :
  fresh_pids start → starts_latest → Server_Upgrade latestVersion latestCommit = Ret false →
  ready m cached b → startup m cached b = (m', cached', Ret tt) →
  current m' b ∧ keeps m m' b ∧ no_new m m' b ∧ (negb b ∈ cached' ↔ negb b ∈ cached).
Proof.
  intros Hf Hl Hu Hr. unfold DaemonProc.startup_one, ready in *.
  assert (Hrun : runDaemon start may_kill denied_sock denied_pid m (cached ∖ {[b]}) b = (m', cached', Ret tt) →
    current m' b ∧ keeps m m' b ∧ no_new m m' b ∧ (negb b ∈ cached' ↔ negb b ∈ cached)).
  { intros (m1 & pid & v & c & H1 & H2 & H3 & H4 & ->)%runDaemon_new; [|done|set_solver].
    destruct (Hl _ _ _ _ _ H1) as [-> ->]. split_and!; [by exists latestVersion, latestCommit|done|done|].
    assert (negb b ≠ b) by by destruct b. set_solver. }
  case_decide as Hc.
  - unfold GetClient. destruct (socks m !! b) eqn:Es; [|exact Hrun]. rewrite bool_decide_true by done.
    destruct Hr as [|Hr]; [done|]. intros [= <- <-]. split_and!; [done|unfold keeps; eauto|intros ? ? ? Hp; exact Hp|done].
  - rewrite GetClient_uncached, Hr by done. exact Hrun.
Qed.

End daemons.

(**  After the upgrade command has replaced the executable and started the daemons, each
    daemon serves and needs no upgrade, whether it was kept or started anew; only a daemon whose
    process is pid_named by the pid file of the other may be lost. *)
Theorem upgrade_current {V} (NewVersion : string → outcome V) GreaterThan Equal start may_kill denied_sock denied_pid
    latestVersion latestCommit v m m' cached'
    (Hf : fresh_pids start) (Hl : starts_latest latestVersion latestCommit start)
    (Hv : NewVersion latestVersion = Ret v) (Hirr : GreaterThan v v = false)
    (H : upgrade_daemons NewVersion GreaterThan Equal latestVersion latestCommit start may_kill denied_sock denied_pid m =
      (m', cached', Ret tt)) b :
  current NewVersion GreaterThan Equal latestVersion latestCommit m' b ∨
  ∃ pid, socks m' !! b = Some pid ∧ pid_named m (negb b) = Some pid.
Proof.
  assert (Hu : Server_Upgrade NewVersion GreaterThan Equal latestVersion latestCommit latestVersion latestCommit = Ret false).
  { unfold Server_Upgrade. rewrite Hv. cbn. by rewrite Hirr, String.eqb_refl, andb_false_r. }
  unfold upgrade_daemons in H. destruct (foldl _ _ _) as [m2 cached2] eqn:E2. apply upgraded_ready in E2 as [Hp Hr].
  assert (Hn : ∀ b, pid_named m b = pid_named m2 b) by (intros b'; unfold pid_named; by rewrite Hp). rewrite Hn.
  unfold StartupDaemon in H. destruct (startup_one _ _ _ _ m2 cached2 false) as [[m3 cached3] [[]|e|]] eqn:E3; [|done..].
  eapply startup_current in E3 as (C3 & K3 & N3 & I3); eauto.
  assert (Hn3 : pid_named m3 true = pid_named m2 true).
  { unfold pid_named. destruct K3 as (_ & K3 & _). cbn [negb] in K3. by rewrite K3. }
  destruct (ready_other NewVersion GreaterThan Equal latestVersion latestCommit m2 m3 cached2 cached3 true K3 N3 I3 (Hr true)) as [R3|(Hc & pid & Hs & Hp3)].
  - eapply startup_current in H as (C & K & _ & _); eauto. destruct b; [by left|]. cbn [negb]. rewrite <-Hn3. by eapply (current_kept _ _ _ _ _ _ _ false).
  - unfold startup_one, GetClient in H. rewrite Hs, bool_decide_true in H by done. injection H as <- <-.
    destruct b; [right; by exists pid|by left].
Qed.

(** *** Examples *)

Definition example_version (s : string) : outcome nat :=
  match s with "v1.0.0" => Ret 1 | "v2.0.0" => Ret 2 | _ => Fail (Errorf "Malformed version") end.
Definition example_gt (a b : nat) : bool := Nat.ltb b a.
(** An old user daemon, and a root daemon of the latest version. *)
Definition before_upgrade : machine :=
  daemon_Start true 11 "v2.0.0" "abc" (daemon_Start false 10 "v1.0.0" "aaa" (MkMachine ∅ ∅ ∅)).
Definition upgraded : machine :=
  (upgrade_daemons example_version example_gt Nat.eqb "v2.0.0" "abc" example_start all_kill allowed allowed before_upgrade).1.1.

Lemma example_latest : starts_latest "v2.0.0" "abc" example_start.
Proof. intros m b pid v c. unfold example_start. case_decide; [|done]. by intros [= _ <- <-]. Qed.

Lemma upgrade_current_witness :
  daemon_at upgraded false = Some ("v2.0.0", "abc") ∧ socks upgraded !! true = Some 11%Z ∧
  (current example_version example_gt Nat.eqb "v2.0.0" "abc" upgraded true ∨
   ∃ pid, socks upgraded !! true = Some pid ∧ pid_named before_upgrade false = Some pid).
Proof.
  split; [vm_compute; reflexivity|]. split; [vm_compute; reflexivity|].
  apply (upgrade_current example_version example_gt Nat.eqb example_start all_kill allowed allowed "v2.0.0" "abc" 2
    before_upgrade upgraded {[false; true]} example_start_fresh example_latest eq_refl eq_refl).
  vm_compute. reflexivity.
Defined.

(** The first address is asked in vain: only the answer of the last one counts. *)
Lemma only_last_address os arch first : GetManifest [first; Fail (Errorf "timeout")] os arch = Fail (Errorf "failed to call github api").
Proof. reflexivity. Qed.

(** A name contains the architecture [arm] also when it is [arm64]. *)
Example arm_gets_arm64 :
  GetManifest [Ret (Ret (MkRoot "v2.0.0" "abc" [MkAsset "kubevpn_v2.0.0_linux_arm64.zip" "u64"; MkAsset "kubevpn_v2.0.0_linux_arm.zip" "u32"]))]
    "linux" "arm" = Ret ("v2.0.0", "abc", "u64").
Proof. vm_compute. reflexivity. Qed.

(** What is downloaded belongs to the release and to the architecture, and to the system unless
    the release has nothing for it. *)
Lemma GetManifest_asset answers os arch v c url : GetManifest answers os arch = Ret (v, c, url) →
  ∃ m a, last_response answers = Some (Ret m) ∧ a ∈ Assets m ∧ a_Url a = url ∧ TagName m = v ∧ TargetCommitish m = c ∧
    Contains (a_Name a) arch = true ∧ (Contains (a_Name a) os = true ∨ Contains (a_Name a) "linux" = true ∧ os ∉ ["windows"; "darwin"]).
Proof.
  assert (Hfind : ∀ o assets a, find_asset o arch assets = Some a →
    a ∈ assets ∧ Contains (a_Name a) arch = true ∧ Contains (a_Name a) o = true).
  { intros o assets a [H1 H2]%List.find_some. apply andb_prop in H2. by rewrite list_elem_of_In. }
  unfold GetManifest. destruct (last_response answers) as [[m| |]|]; [|done..]. cbn [mbind outcome_bind].
  destruct (find_asset os arch (Assets m)) as [a|] eqn:Ea.
  - destruct (negb (String.eqb (a_Url a) "")); [intros; simplify_eq; exists m, a; apply Hfind in Ea; naive_solver|].
    case_bool_decide; [done|]. destruct (find_asset "linux" arch (Assets m)) as [a'|] eqn:El; [|done].
    intros; simplify_eq. exists m, a'. apply Hfind in El. naive_solver.
  - cbn [negb String.eqb]. case_bool_decide; [done|]. destruct (find_asset "linux" arch (Assets m)) as [a'|] eqn:El; [|done].
    intros; simplify_eq. exists m, a'. apply Hfind in El. naive_solver.
Qed.
