(* ===== verification/Relay.v ===== *)
(** * Relays: two connections and the goroutines that copy between them

    A gvisor forwarder ([pkg/core/gvisortcpforwarder.go], [gvisorudpforwarder.go]), a
    gvisor handler of the server ([gvisortcphandler.go], [gvisorudphandler.go]) and an
    SSH tunnel ([pkg/util/ssh.go:handleClient]) all have the same shape: one goroutine
    copies from the first connection to the second, another one copies back, each sends
    its result to a channel when it is done, and the function waits for the FIRST result
    only, and then returns and closes what its deferred calls close.

    A connection is what its peer has delivered, in the pieces [Read] returns (for TCP
    any pieces of the byte stream, for UDP one datagram each), how its incoming half
    ends, what was written to it, and whether it was closed here.  A run is a sequence
    of events: a goroutine makes one call ([Read] or [Write]), the function returns, or
    a peer acts. *)
From Stdlib Require Import ZArith Lia.
From Stdlib Require Import Strings.Byte.
From stdpp Require Import base strings relations numbers list.
From S2P Require Import Prelude Framing.

(** [net.ErrClosed]: what a call on a connection closed here returns. *)
Definition ErrClosed : error := Errorf "use of closed network connection".

Abbreviation chunk := (list byte).

(** [incoming] is [None] while the peer may still send, then [EOF] or the error of
    [Read]; [wfail] is [Some (n, e)] when the next [Write] fails with [e] after [n]
    bytes. *)
Record socket := MkSocket {
  got : list chunk; inbox : list chunk; incoming : option error;
  sent : list chunk; wfail : option (nat * error); closed : bool }.

Definition fresh : socket := MkSocket [] [] None [] None false.

(** [CopyBuffer] skips a [Read] of no bytes. *)
Definition nonempty (l : list chunk) : list chunk := filter (λ d, d ≠ []) l.

Definition sock_write (d : chunk) (s : socket) : socket * option error :=
  if closed s then (s, Some ErrClosed)
  else match wfail s with
       | Some (n, e) => (MkSocket (got s) (inbox s) (incoming s) (sent s ++ nonempty [take n d]) (wfail s) false, Some e)
       | None => (MkSocket (got s) (inbox s) (incoming s) (sent s ++ [d]) None false, None)
       end.

Definition sock_pop (s : socket) (rest : list chunk) : socket :=
  MkSocket (got s) rest (incoming s) (sent s) (wfail s) (closed s).
Definition sock_close (s : socket) : socket :=
  MkSocket (got s) (inbox s) (incoming s) (sent s) (wfail s) true.

(** Where a copying goroutine is: about to read, about to write what it has read, done
    (with the error it sent, [nil] at the end of the stream), or gone without a word. *)
Inductive copier := CRead | CWrite (d : chunk) | CDone (err : option error) | CGone.

(** What distinguishes the users: [empty_fails]: an empty read ends the copying with an
    error ([handle] of the UDP handler) instead of being skipped ([io.CopyBuffer]);
    [watches_ctx]: the goroutine looks at the context before each read and, when it is
    done, leaves without sending a result; [close_b]: the function closes the second connection when
    it returns (all of them close the first one). *)
Record policy := MkPolicy { empty_fails : bool; watches_ctx : bool; close_b : bool }.

Record relay_state := MkRelay {
  ra : socket; rb : socket; up : copier; down : copier;
  errChan : list (option error); main : option (option error); cancelled : bool }.

(** One call of a copying goroutine; [None] is a [Read] that blocks (or no goroutine).
    The goroutine of [handle] looks at its context between a [Write] and the next [Read];
    one that is already blocked in [Read] does not notice the cancellation. *)
Definition copy_step (p : policy) (cancel : bool) (src dst : socket) (c : copier)
  : option (socket * socket * copier) :=
  match c with
  | CDone _ | CGone => None
  | CRead =>
      if closed src then Some (src, dst, CDone (Some ErrClosed))
      else match inbox src with
           | d :: rest =>
               let src := sock_pop src rest in
               if bool_decide (d = []) then
                 if empty_fails p then Some (src, dst, CDone (Some zero_length)) else Some (src, dst, CRead)
               else Some (src, dst, CWrite d)
           | [] => match incoming src with
                   | None => None
                   | Some EOF => Some (src, dst, CDone (if empty_fails p then Some EOF else None))
                   | Some e => Some (src, dst, CDone (Some e))
                   end
           end
  | CWrite d =>
      match sock_write d dst with
      | (dst, None) => Some (src, dst, if watches_ctx p && cancel then CGone else CRead)
      | (dst, Some e) => Some (src, dst, CDone (Some e))
      end
  end.

(** [errChan <- err] when the goroutine is done; the channel has room for both. *)
Definition report (c : copier) : list (option error) :=
  match c with CDone e => [e] | _ => [] end.

Inductive side := A | B.

Inductive event :=
  | Up | Down | Return | Cancel
  | Deliver (s : side) (d : chunk)
  | Finish (s : side) (e : error)
  | Break (s : side) (n : nat) (e : error).

Definition sock_of (s : side) (r : relay_state) : socket := match s with A => ra r | B => rb r end.
Definition set_sock (s : side) (k : socket) (r : relay_state) : relay_state :=
  match s with
  | A => MkRelay k (rb r) (up r) (down r) (errChan r) (main r) (cancelled r)
  | B => MkRelay (ra r) k (up r) (down r) (errChan r) (main r) (cancelled r)
  end.

(** The peer of a connection sends a piece, ends its half or breaks the connection for
    our writes. *)
Definition peer_step (ev : event) (k : socket) : option socket :=
  match ev with
  | Deliver _ d =>
      if bool_decide (incoming k = None)
      then Some (MkSocket (got k ++ [d]) (inbox k ++ [d]) None (sent k) (wfail k) (closed k)) else None
  | Finish _ e =>
      if bool_decide (incoming k = None)
      then Some (MkSocket (got k) (inbox k) (Some e) (sent k) (wfail k) (closed k)) else None
  | Break _ n e =>
      if bool_decide (wfail k = None)
      then Some (MkSocket (got k) (inbox k) (incoming k) (sent k) (Some (n, e)) (closed k)) else None
  | _ => None
  end.

Definition step (p : policy) (ev : event) (r : relay_state) : option relay_state :=
  match ev with
  | Up => '(a, b, c) ← copy_step p (cancelled r) (ra r) (rb r) (up r);
      Some (MkRelay a b c (down r) (errChan r ++ report c) (main r) (cancelled r))
  | Down => '(b, a, c) ← copy_step p (cancelled r) (rb r) (ra r) (down r);
      Some (MkRelay a b (up r) c (errChan r ++ report c) (main r) (cancelled r))
  | Return => (* [err = <-errChan], and the deferred calls *)
      match main r, errChan r with
      | None, e :: rest =>
          Some (MkRelay (sock_close (ra r)) (if close_b p then sock_close (rb r) else rb r)
                  (up r) (down r) rest (Some e) (cancelled r))
      | _, _ => None
      end
  | Cancel => Some (MkRelay (ra r) (rb r) (up r) (down r) (errChan r) (main r) true)
  | Deliver s _ | Finish s _ | Break s _ _ => k ← peer_step ev (sock_of s r); Some (set_sock s k r)
  end.

Definition relay_start (a b : socket) : relay_state := MkRelay a b CRead CRead [] None false.

Fixpoint run (p : policy) (evs : list event) (r : relay_state) : option relay_state :=
  match evs with
  | [] => Some r
  | ev :: evs => r ← step p ev r; run p evs r
  end.

(** ** Invariant of a direction *)

(** [out] is what a goroutine has written of the pieces [l]: the first pieces, the last
    one perhaps cut short by a failing [Write]. *)
Definition written (out l : list chunk) : Prop :=
  out `prefix_of` l ∨ ∃ l1 d l2 k, l = l1 ++ d :: l2 ∧ out = l1 ++ nonempty [take k d].

Definition dir_inv (src dst : socket) (c : copier) : Prop :=
  match c with
  | CRead => nonempty (got src) = sent dst ++ nonempty (inbox src)
  | CWrite d => nonempty (got src) = sent dst ++ d :: nonempty (inbox src)
  | CDone None => nonempty (got src) = sent dst ∧ inbox src = [] ∧ incoming src = Some EOF
  | CDone (Some _) | CGone => written (sent dst) (nonempty (got src))
  end.

Definition relay_inv (r : relay_state) : Prop :=
  dir_inv (ra r) (rb r) (up r) ∧ dir_inv (rb r) (ra r) (down r).

Lemma written_prefix out l k : nonempty l = out ++ k → written out (nonempty l).
Proof. intros ->. left. by apply prefix_app_r. Qed.

Lemma written_app out l k : written out l → written out (l ++ k).
Proof.
  intros [H|(l1 & d & l2 & n & -> & ->)]; [left; by apply prefix_app_r|right].
  exists l1, d, (l2 ++ k), n. by rewrite <-app_assoc.
Qed.

Lemma nonempty_app l k : nonempty (l ++ k) = nonempty l ++ nonempty k.
Proof. apply filter_app. Qed.

Lemma nonempty_cons d l : d ≠ [] → nonempty (d :: l) = d :: nonempty l.
Proof. intros. unfold nonempty. by rewrite filter_cons_True. Qed.

Lemma nonempty_nil l : nonempty ([] :: l) = nonempty l.
Proof. unfold nonempty. rewrite filter_cons_False; naive_solver. Qed.

Lemma concat_nonempty l : concat (nonempty l) = concat l.
Proof.
  induction l as [|[|x d] l IH]; [done|by rewrite nonempty_nil|].
  rewrite nonempty_cons by done. cbn. by rewrite IH.
Qed.

Lemma nonempty_Forall (P : chunk → Prop) l : Forall P l → Forall P (nonempty l).
Proof. rewrite !Forall_forall. intros H d [_ Hd]%list_elem_of_filter. by apply H. Qed.

Lemma nonempty_idemp l : nonempty (nonempty l) = nonempty l.
Proof.
  induction l as [|[|x d] l IH]; [done|by rewrite nonempty_nil|].
  rewrite nonempty_cons by done. rewrite nonempty_cons by done. by rewrite IH.
Qed.

Lemma written_bytes out l : written out l → concat out `prefix_of` concat l.
Proof.
  intros [[k ->]|(l1 & d & l2 & n & -> & ->)]; rewrite !concat_app; [by apply prefix_app_r|].
  apply prefix_app. rewrite concat_nonempty. cbn. rewrite app_nil_r.
  exists (drop n d ++ concat l2). by rewrite app_assoc, take_drop.
Qed.

(** *** What each call does to the invariant *)

Ltac relay_simpl := repeat (case_match || simplify_option_eq || (progress simpl in * )).

Lemma dir_inv_deliver src dst c d k :
  dir_inv src dst c → peer_step (Deliver A d) src = Some k → dir_inv k dst c.
Proof.
  cbn [peer_step]. destruct (decide (incoming src = None)) as [Hi|];
    [rewrite bool_decide_true by done|rewrite bool_decide_false by done; done].
  intros H [= <-]. destruct c as [|w|[e|]|]; cbn in *.
  - rewrite !nonempty_app, H. by rewrite <-app_assoc.
  - rewrite !nonempty_app, H. by rewrite <-app_assoc.
  - rewrite nonempty_app. by apply written_app.
  - naive_solver.
  - rewrite nonempty_app. by apply written_app.
Qed.

(** A socket that has received and sent the same, in the same open state for [Read]. *)
Definition same_in (k k' : socket) : Prop :=
  got k = got k' ∧ inbox k = inbox k' ∧ (incoming k = incoming k' ∨ incoming k = None).

#[local] Instance same_in_refl : Reflexive same_in.
Proof. intros k. unfold same_in; auto. Qed.

Lemma dir_inv_same src dst c src' dst' :
  dir_inv src dst c → same_in src src' → sent dst = sent dst' → dir_inv src' dst' c.
Proof. intros H (Hg & Hi & He) Hs. destruct c as [|w|[e|]|]; cbn in *; rewrite <-?Hg, <-?Hi, <-?Hs; naive_solver congruence. Qed.

Lemma peer_step_dir src dst c ev k :
  dir_inv src dst c → peer_step ev src = Some k → dir_inv k dst c.
Proof.
  intros H Hp. destruct ev as [| | | |s d|s e|s n e]; try done.
  - by eapply dir_inv_deliver.
  - cbn in Hp. case_bool_decide; simplify_eq. eapply dir_inv_same; [done|..|done].
    unfold same_in; naive_solver.
  - cbn in Hp. case_bool_decide; simplify_eq. eapply dir_inv_same; [done|..|done].
    unfold same_in; naive_solver.
Qed.

Lemma peer_step_sent ev k k' : peer_step ev k = Some k' → sent k = sent k'.
Proof. destruct ev; cbn; intros; repeat case_bool_decide; naive_solver. Qed.

Lemma sock_write_same d k k' e : sock_write d k = (k', e) → same_in k k' ∧ closed k = closed k' ∧ wfail k = wfail k'.
Proof. unfold sock_write, same_in. intros. repeat case_match; naive_solver. Qed.

Lemma sock_write_sent d k k' : sock_write d k = (k', None) → sent k' = sent k ++ [d].
Proof. unfold sock_write. intros. repeat case_match; naive_solver. Qed.

Lemma sock_write_fail d k k' e l :
  sock_write d k = (k', Some e) → written (sent k') (sent k ++ d :: l).
Proof.
  unfold sock_write. intros. repeat case_match; simplify_eq/=.
  - left. by apply prefix_app_r.
  - right. eauto 10.
Qed.

(** A call of the goroutine of a direction keeps the invariant of that direction. *)
Lemma copy_step_dir p cancel src dst c src' dst' c' :
  dir_inv src dst c → copy_step p cancel src dst c = Some (src', dst', c') → dir_inv src' dst' c'.
Proof.
  intros H Hs. destruct c as [|d| |]; cbn [copy_step] in Hs; try done.
  - destruct (closed src); [simplify_eq; by eapply written_prefix|].
    destruct (inbox src) as [|d rest] eqn:Ei.
    + cbn in H. rewrite Ei, app_nil_r in H.
      destruct (incoming src) as [[]|] eqn:Ein; simplify_eq; cbn; try (left; by rewrite H).
      destruct (empty_fails p); cbn; [left; by rewrite H|done].
    + cbn in H. rewrite Ei in H. case_bool_decide as Hd; [subst d; rewrite nonempty_nil in H|].
      * destruct (empty_fails p); simplify_eq; cbn; [by eapply written_prefix|done].
      * rewrite nonempty_cons in H by done. by simplify_eq.
  - cbn in H. destruct (sock_write d dst) as [k [e|]] eqn:E; simplify_eq.
    + cbn. rewrite H. by eapply sock_write_fail.
    + apply sock_write_sent in E. destruct (_ && _); cbn; rewrite E.
      * eapply written_prefix. rewrite <-app_assoc. exact H.
      * by rewrite <-app_assoc.
Qed.

(** ... and that of the other direction. *)
Lemma copy_step_other p cancel src dst c src' dst' c' o :
  copy_step p cancel src dst c = Some (src', dst', c') → dir_inv dst src o → dir_inv dst' src' o.
Proof.
  intros Hs H. destruct c as [|d| |]; cbn [copy_step] in Hs; try done.
  - destruct (closed src); [by simplify_eq|]. destruct (inbox src) as [|d rest].
    + destruct (incoming src) as [[]|]; by simplify_eq.
    + case_bool_decide; [destruct (empty_fails p)|]; simplify_eq; by eapply dir_inv_same; [done|reflexivity|].
  - destruct (sock_write d dst) as [k [e|]] eqn:E; simplify_eq;
      apply sock_write_same in E as (Hk & _); by eapply dir_inv_same.
Qed.

Lemma set_sock_inv ev s k r :
  relay_inv r → peer_step ev (sock_of s r) = Some k → relay_inv (set_sock s k r).
Proof.
  intros [Hu Hd] E. destruct s; cbn in *; split; cbn;
    eauto using peer_step_dir, dir_inv_same, same_in_refl, peer_step_sent.
Qed.

Lemma step_inv p ev r r' : relay_inv r → step p ev r = Some r' → relay_inv r'.
Proof.
  intros Hi Hs. pose proof Hi as [Hu Hd].
  destruct ev as [| | | |s d|s e|s n e]; cbn [step] in Hs.
  - apply bind_Some in Hs as ([[a b] c] & E & [= <-]).
    split; cbn; eauto using copy_step_dir, copy_step_other.
  - apply bind_Some in Hs as ([[b a] c] & E & [= <-]).
    split; cbn; eauto using copy_step_dir, copy_step_other.
  - destruct (main r), (errChan r); simplify_eq.
    split; cbn; (eapply dir_inv_same; [done|..]); unfold same_in; destruct (close_b p); cbn; auto.
  - by simplify_eq.
  - apply bind_Some in Hs as (k & E & [= <-]). by eapply set_sock_inv.
  - apply bind_Some in Hs as (k & E & [= <-]). by eapply set_sock_inv.
  - apply bind_Some in Hs as (k & E & [= <-]). by eapply set_sock_inv.
Qed.

Lemma start_inv : relay_inv (relay_start fresh fresh).
Proof. done. Qed.

Lemma run_inv p evs r r' : relay_inv r → run p evs r = Some r' → relay_inv r'.
Proof.
  revert r; induction evs as [|ev evs IH]; intros r Hi Hr; [by unfold run in Hr; simplify_eq|].
  cbn in Hr. apply bind_Some in Hr as (r1 & E & Hr). eauto using step_inv.
Qed.

(** ** What a relay has delivered *)

Lemma dir_inv_written src dst c : dir_inv src dst c → written (sent dst) (nonempty (got src)).
Proof.
  destruct c as [|d|[e|]|]; cbn; intros H; try done; [by eapply written_prefix..|].
  destruct H as (H & _). left. by rewrite H.
Qed.

Lemma dir_inv_bytes src dst c : dir_inv src dst c → concat (sent dst) `prefix_of` concat (got src).
Proof. intros. rewrite <-(concat_nonempty (got src)). eapply written_bytes, dir_inv_written; eauto. Qed.

(** In every state of a run the second connection has been sent a prefix of the bytes
    the first one received, and the other way round. *)
Lemma relay_bytes p evs r :
  run p evs (relay_start fresh fresh) = Some r →
  concat (sent (rb r)) `prefix_of` concat (got (ra r)) ∧
  concat (sent (ra r)) `prefix_of` concat (got (rb r)).
Proof. intros [Hu Hd]%run_inv; [|done]. eauto using dir_inv_bytes. Qed.

(** What one event adds to what was written and received. *)
Lemma copy_step_history p cancel src dst c src' dst' c' :
  copy_step p cancel src dst c = Some (src', dst', c') →
  got src' = got src ∧ got dst' = got dst ∧ sent src' = sent src ∧ sent dst `prefix_of` sent dst'.
Proof.
  intros Hs. destruct c as [|d| |]; cbn [copy_step] in Hs; try done.
  - destruct (closed src); [by simplify_eq|]. destruct (inbox src) as [|d rest].
    + destruct (incoming src) as [[]|]; by simplify_eq.
    + case_bool_decide; [destruct (empty_fails p)|]; by simplify_eq.
  - destruct (sock_write d dst) as [k o] eqn:E.
    assert (src' = src ∧ dst' = k) as [-> ->] by (destruct o; naive_solver).
    pose proof (sock_write_same _ _ _ _ E) as ((Hg & _) & _). split_and!; [done..|].
    unfold sock_write in E. repeat case_match; simplify_eq; try done; by apply prefix_app_r.
Qed.

Lemma copy_step_closed p cancel src dst c src' dst' c' :
  copy_step p cancel src dst c = Some (src', dst', c') → closed src' = closed src ∧ closed dst' = closed dst.
Proof.
  intros Hs. destruct c as [|d| |]; cbn [copy_step] in Hs; try done.
  - destruct (closed src) eqn:Ec; [by simplify_eq|]. destruct (inbox src) as [|d rest].
    + destruct (incoming src) as [[]|]; by simplify_eq.
    + case_bool_decide; [destruct (empty_fails p)|]; by simplify_eq.
  - destruct (sock_write d dst) as [k o] eqn:E.
    pose proof (sock_write_same _ _ _ _ E) as (_ & Hc & _). destruct o; by simplify_eq.
Qed.

Definition side_eqb (s s' : side) : bool := match s, s' with A, A | B, B => true | _, _ => false end.

Lemma step_history p ev r r' s :
  step p ev r = Some r' →
  got (sock_of s r') = got (sock_of s r) ++
    (match ev with Deliver s' d => if side_eqb s s' then [d] else [] | _ => [] end) ∧
  sent (sock_of s r) `prefix_of` sent (sock_of s r').
Proof.
  intros Hs. assert (Hpeer : ∀ s' k, peer_step ev (sock_of s' r) = Some k → r' = set_sock s' k r →
    match ev with Deliver t _ | Finish t _ | Break t _ _ => t = s' | _ => True end →
    got (sock_of s r') = got (sock_of s r) ++
      (match ev with Deliver s' d => if side_eqb s s' then [d] else [] | _ => [] end) ∧
    sent (sock_of s r) `prefix_of` sent (sock_of s r')).
  { intros s' k E -> Ht. destruct ev as [| | | |t d|t e|t n e]; try done; subst;
      destruct s, s'; cbn in *; repeat case_bool_decide; simplify_eq; cbn; by rewrite ?app_nil_r. }
  destruct ev as [| | | |t d|t e|t n e]; cbn [step] in Hs;
    try (apply bind_Some in Hs as (k & E & [= <-]); by eapply Hpeer); rewrite app_nil_r.
  - apply bind_Some in Hs as ([[a b] c] & (?&?&Hss&?)%copy_step_history & [= <-]).
    destruct s; cbn; rewrite ?Hss; done.
  - apply bind_Some in Hs as ([[a b] c] & (?&?&Hss&?)%copy_step_history & [= <-]).
    destruct s; cbn; rewrite ?Hss; done.
  - destruct (main r), (errChan r); simplify_eq. destruct s; cbn; by destruct (close_b p).
  - simplify_eq. by destruct s.
Qed.

(** *** Whole pieces: connections whose [Write] is all or nothing *)

Definition whole (ev : event) : Prop := match ev with Break _ n _ => n = 0 | _ => True end.
Definition whole_writes (k : socket) : Prop := ∀ n e, wfail k = Some (n, e) → n = 0.

Definition dir_pre (src dst : socket) : Prop := sent dst `prefix_of` nonempty (got src).

Definition pre_inv (r : relay_state) : Prop :=
  relay_inv r ∧ whole_writes (ra r) ∧ whole_writes (rb r) ∧
  dir_pre (ra r) (rb r) ∧ dir_pre (rb r) (ra r).

Lemma copy_step_pre p cancel src dst c src' dst' c' :
  dir_inv src dst c → whole_writes src → whole_writes dst → dir_pre src dst →
  copy_step p cancel src dst c = Some (src', dst', c') →
  whole_writes src' ∧ whole_writes dst' ∧ dir_pre src' dst' ∧
  got dst' = got dst ∧ sent src' = sent src.
Proof.
  intros H Hws Hwd Hp Hs. destruct c as [|d| |]; cbn [copy_step] in Hs; try done.
  - destruct (closed src); [by simplify_eq|]. destruct (inbox src) as [|d rest].
    + destruct (incoming src) as [[]|]; by simplify_eq.
    + case_bool_decide; [destruct (empty_fails p)|]; by simplify_eq.
  - destruct (sock_write d dst) as [k o] eqn:E.
    assert (src' = src ∧ dst' = k) as [-> ->] by (destruct o; naive_solver).
    pose proof (sock_write_same _ _ _ _ E) as ((Hg & _) & _ & Hf).
    split_and!; [done|by unfold whole_writes; rewrite <-Hf| |done|done].
    unfold dir_pre. unfold sock_write in E. cbn in H.
    destruct (closed dst); [by simplify_eq|]. destruct (wfail dst) as [[n e]|] eqn:Ef; simplify_eq/=.
    + rewrite (Hwd _ _ Ef). cbn. by rewrite app_nil_r.
    + rewrite H. exists (nonempty (inbox src)). by rewrite <-app_assoc.
Qed.

Lemma peer_step_pre ev k k' :
  whole ev → whole_writes k → peer_step ev k = Some k' →
  whole_writes k' ∧ got k `prefix_of` got k' ∧ sent k' = sent k.
Proof.
  unfold whole_writes. intros Hw Hk E.
  destruct ev as [| | | |s d|s e|s n e]; cbn in E; repeat case_bool_decide; simplify_eq; cbn;
    (split_and!; [naive_solver| |done]); auto. by apply prefix_app_r.
Qed.

Lemma nonempty_prefix l k : l `prefix_of` k → nonempty l `prefix_of` nonempty k.
Proof. intros [x ->]. rewrite nonempty_app. by apply prefix_app_r. Qed.

Lemma step_pre p ev r r' : whole ev → pre_inv r → step p ev r = Some r' → pre_inv r'.
Proof.
  intros Hw (Hi & Ha & Hb & Hu & Hd) Hs. split; [by eapply step_inv|].
  destruct Hi as [Iu Id].
  assert (Hpeer : ∀ s k, peer_step ev (sock_of s r) = Some k → r' = set_sock s k r →
    whole_writes (ra r') ∧ whole_writes (rb r') ∧ dir_pre (ra r') (rb r') ∧ dir_pre (rb r') (ra r')).
  { intros s k E ->. destruct s; cbn in *;
      (apply peer_step_pre in E as (H1 & H2 & H3); [|done..]);
      unfold dir_pre in *; rewrite H3; split_and!; try done; etrans; eauto using nonempty_prefix. }
  destruct ev as [| | | |s d|s e|s n e]; cbn [step] in Hs;
    try (apply bind_Some in Hs as (k & E & [= <-]); by eapply Hpeer).
  - apply bind_Some in Hs as ([[a b] c] & E & [= <-]).
    eapply copy_step_pre in E as (? & ? & ? & Eg & Es); try done. cbn.
    split_and!; try done. unfold dir_pre. by rewrite Eg, Es.
  - apply bind_Some in Hs as ([[b a] c] & E & [= <-]).
    eapply copy_step_pre in E as (? & ? & ? & Eg & Es); try done. cbn.
    split_and!; try done. unfold dir_pre. by rewrite Eg, Es.
  - destruct (main r), (errChan r); simplify_eq; cbn. by destruct (close_b p).
  - by simplify_eq.
Qed.

Lemma start_pre : pre_inv (relay_start fresh fresh).
Proof. split; [apply start_inv|]. unfold whole_writes, dir_pre; cbn. naive_solver. Qed.

(** ... and a prefix of the pieces themselves, empty ones left out. *)
Lemma relay_pieces p evs r :
  Forall whole evs → run p evs (relay_start fresh fresh) = Some r →
  sent (rb r) `prefix_of` nonempty (got (ra r)) ∧ sent (ra r) `prefix_of` nonempty (got (rb r)).
Proof.
  assert (∀ evs r0 r, Forall whole evs → pre_inv r0 → run p evs r0 = Some r → pre_inv r) as Hrun.
  { clear. induction evs as [|ev evs IH]; intros r0 r Hw Hi Hr; [by unfold run in Hr; simplify_eq|].
    apply Forall_cons_1 in Hw as [Hw Hws]. cbn in Hr. apply bind_Some in Hr as (r1 & E & Hr).
    eauto using step_pre. }
  intros Hw Hr. by eapply Hrun in Hr as (_ & _ & _ & ? & ?); [|done|apply start_pre].
Qed.

(** *** Progress: the goroutines alone *)

Definition copier_weight (c : copier) : nat :=
  match c with CRead => 1 | CWrite _ => 2 | _ => 0 end.
Definition dir_weight (src : socket) (c : copier) : nat := 2 * length (inbox src) + copier_weight c.
Definition work (r : relay_state) : nat := dir_weight (ra r) (up r) + dir_weight (rb r) (down r).

Lemma copy_step_work p cancel src dst c src' dst' c' :
  copy_step p cancel src dst c = Some (src', dst', c') →
  dir_weight src' c' < dir_weight src c ∧ inbox dst' = inbox dst.
Proof.
  intros Hs. destruct c as [|d| |]; cbn [copy_step] in Hs; try done.
  - destruct (closed src); [simplify_eq; cbn; split; [lia|done]|].
    unfold dir_weight. destruct (inbox src) as [|d rest] eqn:Ei.
    + destruct (incoming src) as [[]|]; simplify_eq; rewrite Ei; cbn; split; (lia || done).
    + case_bool_decide; [destruct (empty_fails p)|]; simplify_eq; cbn; split; (lia || done).
  - destruct (sock_write d dst) as [k o] eqn:E.
    pose proof (sock_write_same _ _ _ _ E) as ((_ & Hi & _) & _). unfold dir_weight.
    destruct o; simplify_eq; [|destruct (_ && _)]; cbn; split; (lia || done).
Qed.

(** Steps of the two goroutines, nothing else happening. *)
Definition copying (p : policy) (r r' : relay_state) : Prop :=
  step p Up r = Some r' ∨ step p Down r = Some r'.

Lemma copying_work p r r' : copying p r r' → work r' < work r.
Proof.
  unfold work. intros [Hs|Hs]; cbn [step] in Hs;
    apply bind_Some in Hs as ([[x y] c] & [Hw Hi]%copy_step_work & [= <-]); cbn;
    unfold dir_weight in *; rewrite ?Hi; lia.
Qed.

(** Left alone the goroutines stop after at most [work] calls. *)
Lemma copying_bounded p n r r' : nsteps (copying p) n r r' → n + work r' ≤ work r.
Proof.
  induction 1 as [|n r1 r2 r3 Hs _ IH]; [lia|]. apply copying_work in Hs. lia.
Qed.

(** A direction is settled when its goroutine has delivered all the peer sent so far and
    waits for more, or has seen the end of it, or has given up. *)
Definition settled (src dst : socket) (c : copier) : Prop :=
  match c with
  | CRead | CDone None => nonempty (got src) = sent dst ∧ inbox src = []
  | CWrite _ => False
  | CDone (Some _) | CGone => True
  end.

Lemma copy_stuck p cancel src dst c :
  dir_inv src dst c → copy_step p cancel src dst c = None → settled src dst c.
Proof.
  intros H Hs. destruct c as [|d|[e|]|]; cbn [copy_step] in Hs; cbn in *; try done.
  - destruct (closed src); [done|]. destruct (inbox src) as [|d rest] eqn:Ei.
    + by rewrite app_nil_r in H.
    + case_bool_decide; [by destruct (empty_fails p)|done].
  - by destruct (sock_write d dst) as [k [e|]].
  - naive_solver.
Qed.

Lemma relay_settles p evs r r' :
  run p evs (relay_start fresh fresh) = Some r → rtc (copying p) r r' →
  (∀ r2, ¬ copying p r' r2) →
  settled (ra r') (rb r') (up r') ∧ settled (rb r') (ra r') (down r').
Proof.
  intros Hr%run_inv Hc Hn; [|apply start_inv].
  assert (relay_inv r') as [Hu Hd].
  { clear Hn. induction Hc as [|r1 r2 r3 [Hs|Hs] _ IH]; eauto using step_inv. }
  split; eapply copy_stuck; eauto.
  - destruct (copy_step _ _ _ _ _) as [[[a b] c]|] eqn:E; [|done].
    exfalso. eapply Hn. left. cbn. by rewrite E.
  - destruct (copy_step _ _ _ _ _) as [[[a b] c]|] eqn:E; [|done].
    exfalso. eapply Hn. right. cbn. by rewrite E.
Qed.

(** *** The first result decides *)

Definition heard (r : relay_state) (v : option error) : Prop := up r = CDone v ∨ down r = CDone v.
Definition chan_inv (r : relay_state) : Prop :=
  Forall (heard r) (errChan r) ∧ (∀ v, main r = Some v → heard r v).

Lemma copy_step_not_done p cancel src dst c x : copy_step p cancel src dst c = Some x → ∀ v, c ≠ CDone v.
Proof. by destruct c. Qed.

Lemma step_chan p ev r r' : chan_inv r → step p ev r = Some r' → chan_inv r'.
Proof.
  intros [He Hm] Hs.
  assert (Hk : ∀ s k, chan_inv (set_sock s k r)) by (by intros []).
  destruct ev as [| | | |s d|s e|s n e]; cbn [step] in Hs;
    try (apply bind_Some in Hs as (k & E & [= <-]); apply Hk).
  - apply bind_Some in Hs as ([[a b] c] & E & [= <-]).
    pose proof (copy_step_not_done _ _ _ _ _ _ E) as Hc.
    assert (∀ v, heard r v → heard (MkRelay a b c (down r) (errChan r ++ report c) (main r) (cancelled r)) v)
      by (unfold heard; naive_solver).
    split; cbn; [|naive_solver]. apply Forall_app; split; [by eapply Forall_impl|].
    destruct c; cbn; repeat constructor; naive_solver.
  - apply bind_Some in Hs as ([[a b] c] & E & [= <-]).
    pose proof (copy_step_not_done _ _ _ _ _ _ E) as Hc.
    assert (∀ v, heard r v → heard (MkRelay b a (up r) c (errChan r ++ report c) (main r) (cancelled r)) v)
      by (unfold heard; naive_solver).
    split; cbn; [|naive_solver]. apply Forall_app; split; [by eapply Forall_impl|].
    destruct c; cbn; repeat constructor; unfold heard; naive_solver.
  - destruct (main r), (errChan r); simplify_eq. apply Forall_cons_1 in He as [H1 H2].
    split; cbn; [done|]. naive_solver.
  - by simplify_eq.
Qed.

(** The function has returned [v] only because one of its goroutines had ended with [v];
    when [v] is [nil], everything the peer of that direction ever sent has been passed on. *)
Lemma relay_returns p evs r v :
  run p evs (relay_start fresh fresh) = Some r → main r = Some v → heard r v.
Proof.
  assert (∀ evs r0 r, chan_inv r0 → run p evs r0 = Some r → chan_inv r) as Hrun.
  { clear. induction evs as [|ev evs IH]; intros r0 r Hi Hr; [by unfold run in Hr; simplify_eq|].
    cbn in Hr. apply bind_Some in Hr as (r1 & E & Hr). eauto using step_chan. }
  intros Hr Hm. apply Hrun in Hr as [_ H]; [by apply H|]. by split; [constructor|].
Qed.
