(* ===== verification/Gvisor.v ===== *)
(** * Connections of the user-space network stack, end to end

    With the gvisor engine the client's network stack ([gvisorstack.go]) accepts every
    TCP connection and UDP flow of the applications.  For each of them
    [pkg/core/gvisortcpforwarder.go:TCPForwarder] or [gvisorudpforwarder.go:UDPForwarder]
    opens a TCP connection to the traffic manager, writes the identity of the flow as a
    header and relays; there [gvisorTCPHandler.Handle] or [gvisorUDPHandler.Handle]
    reads the header, dials the destination and relays too.  TCP flows travel as they
    are, UDP datagrams as frames ([gvisorFakeUDPTunnelConn]).

    The file models the set-up of a request on both sides with the connections it
    leaves open, and a flow as the composition of the two relays ([Relay]) and the TCP
    connection between them; what a connection carries is an interface, [Wire], with an
    instance for each protocol. *)
From Stdlib Require Import ZArith Lia.
From Stdlib Require Import Strings.Byte.
From stdpp Require Import base strings relations numbers pretty list.
From S2P Require Import Prelude GoStrings GoNet Config Url Cidr Framing ProxyInfo Node Relay.

(** ** Connectors *)

(** The socket options both connectors set on a TCP connection: [SetNoDelay],
    [SetKeepAlive], [SetKeepAlivePeriod] with their errors. *)
Record tcp_options := MkOptions {
  no_delay : option error; keep_alive : option error; keep_alive_period : option error }.

Definition set_options (tcp : bool) (o : tcp_options) : outcome unit :=
  if tcp then _ ← call (no_delay o); _ ← call (keep_alive o); call (keep_alive_period o) else Ret tt.

Definition gvisorTCPTunnelConnector_ConnectContext (tcp : bool) (o : tcp_options) (conn : Conn) : outcome Conn :=
  _ ← set_options tcp o; Ret conn.

(** The connection is wrapped into a [gvisorFakeUDPTunnelConn]; it is the same socket. *)
Definition gvisorUDPOverTCPTunnelConnector_ConnectContext (tcp : bool) (o : tcp_options) (conn : Conn) : outcome Conn :=
  _ ← set_options tcp o; Ret conn.

(** [tcpKeepAliveListener.Accept]: the connection it hands out, and whether it is open
    (an option that cannot be set loses it). *)
Definition tcpKeepAliveListener_Accept (accepted : outcome Conn) (o : tcp_options) : outcome Conn :=
  conn ← accepted; _ ← call (keep_alive o); _ ← call (keep_alive_period o); _ ← call (no_delay o); Ret conn.

(** ** A request on the client *)

(** What a request of the forwarder left behind: connections opened and closed, bytes
    written to the traffic manager, whether the endpoint of the application was made, and
    the connection to relay to. *)
Record attempt := MkAttempt {
  at_opened : list Conn; at_closed : list Conn; at_wire : list byte; at_endpoint : bool; at_result : outcome Conn }.

Definition forward_chain (addr : string) : outcome (option Chain) :=
  node ← ParseNode addr;
  Ret (Some (MkChain 5 (Some (MkNode (n_Addr node) (n_Protocol node) (n_Remote node) (n_Values node) true)))).

Definition outcome_error {X Y} (o : outcome X) : outcome Y :=
  match o with Fail e => Fail e | _ => Panic end.

(** [TCPForwarder]: dial, then the header, then the endpoint ([CreateEndpoint]). *)
Definition TCPForwarder (net : Net) (GvisorTCPForwardAddr : string) (id : TransportEndpointID)
    (wr : write_result) (createEndpoint : option error) : attempt :=
  match forward_chain GvisorTCPForwardAddr with
  | Ret chain =>
      match dial net 0 chain with
      | (o, c, Ret remote) =>
          match WriteProxyInfo [] id wr with
          | (w, Some e) => MkAttempt o c w false (Fail e)
          | (w, None) => match createEndpoint with
                         | Some e => MkAttempt o c w false (Fail e)
                         | None => MkAttempt o c w true (Ret remote)
                         end
          end
      | (o, c, r) => MkAttempt o c [] false r
      end
  | r => MkAttempt [] [] [] false (outcome_error r)
  end.

(** [UDPForwarder]: the endpoint comes first; the chain only dials, and the connector
    runs after the header is written. *)
Definition UDPForwarder (net : Net) (GvisorUDPForwardAddr : string) (id : TransportEndpointID)
    (wr : write_result) (createEndpoint : option error) : attempt :=
  match createEndpoint with
  | Some e => MkAttempt [] [] [] false (Fail e)
  | None =>
      match forward_chain GvisorUDPForwardAddr with
      | Ret chain =>
          match getConn net 0 chain with
          | Ret c =>
              match WriteProxyInfo [] id wr with
              | (w, Some e) => MkAttempt [c] [] w true (Fail e)
              | (w, None) => MkAttempt [c] [] w true (connect net 0 c)
              end
          | r => MkAttempt [] [] [] true r
          end
      | r => MkAttempt [] [] [] true (outcome_error r)
      end
  end.

(** ** A connection on the server *)

Inductive handled :=
  | NoHeader (e : error)                     (* the connection is closed, nothing dialled *)
  | NoTarget (target : string) (e : error)   (* the destination cannot be dialled *)
  | Relaying (target : string) (consumed : nat).

(** [gvisorTCPHandler.Handle] up to its relay, on a connection that has carried the bytes
    [stream]; [text] is gvisor's [Address.String], [dial] is [net.DialTimeout]. *)
Definition gvisorTCPHandler_Handle (text : Address → string) (dial : string → option error)
    (stream : list byte) : handled :=
  match ParseProxyInfo stream with
  | (_, _, Some e) => NoHeader e
  | (payload, endpointID, None) =>
      let addr := JoinHostPort (text (LocalAddress endpointID)) (pretty (LocalPort endpointID)) in
      match dial addr with
      | Some e => NoTarget addr e
      | None => Relaying addr (length stream - length payload)
      end
  end.

(** [gvisorUDPHandler.Handle]: the same with [net.DialUDP], on the bytes of the address;
    [handle] relays. *)
Definition gvisorUDPHandler_relays (dial : string → option error)
    (stream : list byte) : handled :=
  match gvisorUDPHandler_Handle stream with
  | GiveUp e => NoHeader e
  | DialTarget ip port payload =>
      let addr := JoinHostPort (IP_String ip) (pretty port) in
      match dial addr with
      | Some e => NoTarget addr e
      | None => Relaying addr (length stream - length payload)
      end
  end.

(** How each of the four copies and what it closes. *)
Definition TCPForwarder_policy : policy := MkPolicy false false true.
Definition UDPForwarder_policy : policy := MkPolicy false false true.
Definition gvisorTCPHandler_policy : policy := MkPolicy false false false.
Definition handle_policy : policy := MkPolicy true true true.

(** ** What the connection between the two carries *)

(** [encode]: the bytes a [Write] of a piece puts on the connection; [decode n]: what the
    next [Read] makes of the bytes that have not been read yet, and how many it takes ([n]
    is how many happen to be there); [piece_ok]: the pieces it can carry; [partial]:
    whether a failing [Write] may leave a part behind that is read as data. *)
Class Wire := {
  encode : chunk → list byte;
  decode : nat → list byte → option (chunk * nat);
  piece_ok : chunk → bool;
  partial : bool }.

Definition stream_of `{Wire} (l : list chunk) : list byte := concat (encode <$> l).

(** A byte stream. *)
Definition tcp_wire : Wire := {|
  encode := λ d, d;
  decode := λ n s, let d := take n s in if bool_decide (d = []) then None else Some (d, length d);
  piece_ok := λ _, true;
  partial := true |}.

(** Frames: [gvisorFakeUDPTunnelConn.Write] and [readDatagramPacket], with the pool
    buffers [pool] and [buf]. *)
Definition udp_wire (pool buf : list byte) : Wire := {|
  encode := λ d, frame_bytes pool (newDatagramPacket d);
  decode := λ _ s, match readDatagramPacket s buf with
                   | (rest, _, Ret dgram) => Some (Data dgram, length s - length rest)
                   | _ => None
                   end;
  piece_ok := λ d, (Z.of_nat (length d) <=? LargeBufferSize - 2)%Z;
  partial := false |}.

(** ** A flow *)

Record flow := MkFlow {
  client : relay_state; server : option (string * relay_state); header : list byte;
  up_off : nat; down_off : nat }.

Inductive flow_event :=
  | Client (ev : event) | Server (ev : event)
  | Accept
  | LinkUp (n : nat) | LinkDown (n : nat)
  | LinkUpEnd | LinkDownEnd.

(** What may happen on one side: its goroutines, its outer peer, and failures of the
    connection between the two sides ([inner]); the data and the end of that connection
    come from the other side. *)
Definition allowed `{Wire} (inner : side) (ev : event) : bool :=
  match ev with
  | Up | Down | Return | Cancel => true
  | Deliver s d => match inner, s with A, A | B, B => false | _, _ => piece_ok d end
  | Finish s e => match inner, s with A, A | B, B => negb (bool_decide (e = EOF)) | _, _ => true end
  | Break _ n _ => partial || (n =? 0)
  end.

Section Flow.
Context `{W : Wire} (pc ps : policy) (handler : list byte → handled).

(** The bytes written towards the server, the header included, and back. *)
Definition up_stream (f : flow) : list byte := header f ++ stream_of (sent (rb (client f))).
Definition down_stream (r : relay_state) : list byte := stream_of (sent (ra r)).

Definition with_client (f : flow) (r : relay_state) : flow := MkFlow r (server f) (header f) (up_off f) (down_off f).
Definition with_server (f : flow) (t : string) (r : relay_state) : flow :=
  MkFlow (client f) (Some (t, r)) (header f) (up_off f) (down_off f).

Definition flow_step (ev : flow_event) (f : flow) : option flow :=
  match ev with
  | Client ev => if allowed B ev then r ← step pc ev (client f); Some (with_client f r) else None
  | Server ev =>
      '(t, r) ← server f;
      if allowed A ev then r ← step ps ev r; Some (with_server f t r) else None
  | Accept =>
      match server f, handler (up_stream f) with
      | None, Relaying t consumed => Some (MkFlow (client f) (Some (t, relay_start fresh fresh)) (header f) consumed (down_off f))
      | _, _ => None
      end
  | LinkUp n =>
      '(t, r) ← server f; '(d, k) ← decode n (drop (up_off f) (up_stream f));
      r ← step ps (Deliver A d) r;
      Some (MkFlow (client f) (Some (t, r)) (header f) (up_off f + k) (down_off f))
  | LinkDown n =>
      '(t, r) ← server f; '(d, k) ← decode n (drop (down_off f) (down_stream r));
      c ← step pc (Deliver B d) (client f);
      Some (MkFlow c (server f) (header f) (up_off f) (down_off f + k))
  | LinkUpEnd => (* the client has closed its end and everything has arrived *)
      '(t, r) ← server f;
      if closed (rb (client f)) && bool_decide (up_off f = length (up_stream f))
      then r ← step ps (Finish A EOF) r; Some (with_server f t r) else None
  | LinkDownEnd =>
      '(t, r) ← server f;
      if closed (ra r) && bool_decide (down_off f = length (down_stream r))
      then c ← step pc (Finish B EOF) (client f); Some (with_client f c) else None
  end.

Fixpoint flow_run (evs : list flow_event) (f : flow) : option flow :=
  match evs with
  | [] => Some f
  | ev :: evs => f ← flow_step ev f; flow_run evs f
  end.

End Flow.

(** The flow of a request whose set-up succeeded: both connections of the client are
    open, the header is on its way. *)
Definition flow_start (hd : list byte) : flow := MkFlow (relay_start fresh fresh) None hd 0 0.

(** ** Laws of a wire *)

(** [agrees w g off]: of the pieces [w] that were written, [g] has been read and [off]
    bytes are consumed. *)
Class WireLaws (W : Wire) := {
  agrees : list chunk → list chunk → nat → Prop;
  agrees_start : agrees [] [] 0;
  agrees_write w g off d : agrees w g off → agrees (w ++ [d]) g off;
  agrees_read w g off n d k :
    Forall piece_ok w → agrees w g off → decode n (drop off (stream_of w)) = Some (d, k) →
    agrees w (g ++ [d]) (off + k) ∧ (0 < k) ∧ piece_ok d;
  agrees_done w g off :
    Forall piece_ok w → agrees w g off → (∀ n, decode n (drop off (stream_of w)) = None) →
    off = length (stream_of w) ∧ concat g = concat w;
  agrees_bytes w g off : agrees w g off → concat g `prefix_of` concat w;
  agrees_le w g off : agrees w g off → off ≤ length (stream_of w);
  encode_take n d : length (encode (take n d)) ≤ length (encode d);
  agrees_pieces w g off : partial = false → agrees w g off → g `prefix_of` w;
  partial_ok : partial = true → ∀ d, piece_ok d }.

#[export] Instance tcp_laws : WireLaws tcp_wire.
Proof.
  assert (Hs : ∀ w, @stream_of tcp_wire w = concat w) by (intros w; unfold stream_of; by rewrite list_fmap_id).
  refine {| agrees := λ w g off, off ≤ length (concat w) ∧ concat g = take off (concat w) |}; cbn.
  - done.
  - intros w g off d [Hl Hg]. rewrite concat_app, length_app. split; [lia|].
    by rewrite take_app_le by lia.
  - intros w g off n d k _ [Hl Hg]. rewrite Hs. case_bool_decide as Hd; [done|]. intros [= <- <-].
    rewrite length_take, length_drop. split_and!; [lia| | |done].
    + rewrite concat_app, Hg. cbn. rewrite app_nil_r.
      rewrite <-(take_take_drop (concat w) off (min _ _)) at 1. f_equal.
      destruct (Nat.le_ge_cases n (length (concat w) - off)) as [H|H].
      * by rewrite Nat.min_l by lia.
      * rewrite Nat.min_r by lia. rewrite !take_ge; rewrite ?length_drop; try lia. done.
    + destruct (take n (drop off (concat w))) eqn:E; [done|].
      apply (f_equal length) in E. rewrite length_take, length_drop in E. cbn in E. lia.
  - intros w g off _ [Hl Hg] Hn. rewrite Hs in *. specialize (Hn (length (concat w))).
    case_bool_decide as Hd; [|done]. apply (f_equal length) in Hd.
    rewrite length_take, length_drop in Hd. cbn in Hd.
    assert (off = length (concat w)) as -> by lia. split; [done|]. by rewrite Hg, take_ge.
  - intros w g off [_ ->]. eexists. by rewrite take_drop.
  - intros w g off [H _]. by rewrite Hs.
  - intros n d. rewrite length_take. lia.
  - done.
  - done.
Qed.

(** The frame of a datagram the wire can carry is read back exactly. *)
Lemma udp_decode pool buf d rest n :
  Z.of_nat (length pool) = LargeBufferSize → Z.of_nat (length buf) = LargeBufferSize →
  @piece_ok (udp_wire pool buf) d →
  @decode (udp_wire pool buf) n (@encode (udp_wire pool buf) d ++ rest) =
    Some (d, length (@encode (udp_wire pool buf) d)).
Proof.
  cbn. intros Hp Hb Hd%Is_true_true_1%Z.leb_le.
  destruct (frame_roundtrip pool d rest buf Hp Hb Hd) as (b' & _ & ->). cbn.
  do 2 f_equal. rewrite length_app. lia.
Qed.

Lemma length_frame_bytes_eq pool d :
  Z.of_nat (length pool) = LargeBufferSize →
  length (frame_bytes pool (newDatagramPacket d)) = min (length pool - 2) (length d) + 2.
Proof.
  intros Hp. change LargeBufferSize with 65535%Z in Hp. unfold frame_bytes. cbn [Data newDatagramPacket].
  rewrite length_take, !length_app, length_be_fixed, length_take, length_drop. lia.
Qed.

Lemma length_frame_bytes pool d :
  Z.of_nat (length pool) = LargeBufferSize → 2 ≤ length (frame_bytes pool (newDatagramPacket d)).
Proof. intros. rewrite length_frame_bytes_eq by done. lia. Qed.

Lemma stream_of_app {W : Wire} l k : stream_of (l ++ k) = stream_of l ++ stream_of k.
Proof. unfold stream_of. by rewrite fmap_app, concat_app. Qed.

Lemma stream_of_le {W : Wire} l k : l `prefix_of` k → length (stream_of l) ≤ length (stream_of k).
Proof. intros [x ->]. rewrite stream_of_app, length_app. lia. Qed.

#[export] Instance udp_laws pool buf
  (Hp : Z.of_nat (length pool) = LargeBufferSize) (Hb : Z.of_nat (length buf) = LargeBufferSize) :
  WireLaws (udp_wire pool buf).
Proof.
  set (W := udp_wire pool buf).
  assert (Hnil : ∀ n, @decode W n [] = None).
  { intros n. cbn. unfold readDatagramPacket, read_frame. change LargeBufferSize with 65535%Z in Hb.
    assert ((length buf <? 2) = false) as -> by (apply Nat.ltb_ge; lia).
    by rewrite ReadFull_short by (cbn; lia). }
  assert (Hnext : ∀ g d l n, @piece_ok W d →
    @decode W n (drop (length (@stream_of W g)) (@stream_of W (g ++ d :: l))) = Some (d, length (@encode W d))).
  { intros g d l n Hd. rewrite stream_of_app, drop_app_length. by apply udp_decode. }
  refine {| agrees := λ w g off, g `prefix_of` w ∧ off = length (@stream_of W g) |}.
  - done.
  - intros w g off d [Hg ->]. split; [by apply prefix_app_r|done].
  - intros w g off n d k Hw [[[|d' l] ->] ->].
    { rewrite stream_of_app, drop_app_length, Hnil. done. }
    apply Forall_app in Hw as [_ [Hd' _]%Forall_cons_1]. rewrite Hnext by done. intros [= <- <-].
    split_and!; [|..|done].
    + exists l. by rewrite <-app_assoc.
    + rewrite stream_of_app, length_app. unfold stream_of at 3. cbn [fmap list_fmap concat].
      by rewrite app_nil_r.
    + pose proof (length_frame_bytes pool d' Hp). cbn. lia.
  - intros w g off Hw [[[|d l] ->] ->] Hn; [by rewrite app_nil_r|].
    apply Forall_app in Hw as [_ [Hd _]%Forall_cons_1]. specialize (Hn 0). by rewrite Hnext in Hn.
  - intros w g off [[l ->] _]. rewrite concat_app. by apply prefix_app_r.
  - intros w g off [[l ->] ->]. rewrite stream_of_app, length_app. lia.
  - intros n d. cbn. rewrite !length_frame_bytes_eq by done. rewrite length_take. lia.
  - by intros w g off _ [H _].
  - done.
Qed.

(** ** Invariant of a flow *)

Section FlowInv.
Context {W : Wire} {L : WireLaws W} (pc ps : policy) (handler : list byte → handled).
Context (hd : list byte) (target : string).
(** The server reads exactly the header, whatever follows it. *)
Context (Hhandler : ∀ rest t n, handler (hd ++ rest) = Relaying t n → t = target ∧ n = length hd).

(** A relay of the flow; [outer] is the connection to the application or the service. *)
Definition relay_ok (outer : socket) (r : relay_state) : Prop :=
  relay_inv r ∧ (partial = false → pre_inv r) ∧ Forall piece_ok (got outer).

Definition flow_inv (f : flow) : Prop :=
  header f = hd ∧ relay_ok (ra (client f)) (client f) ∧
  match server f with
  | None => got (rb (client f)) = [] ∧ down_off f = 0
  | Some (t, r) =>
      t = target ∧ relay_ok (rb r) r ∧
      (∃ off, up_off f = length hd + off ∧ agrees (sent (rb (client f))) (got (ra r)) off) ∧
      agrees (sent (ra r)) (got (rb (client f))) (down_off f)
  end.

Lemma agrees_writes w w' g off : agrees w g off → w `prefix_of` w' → agrees w' g off.
Proof.
  intros H [l ->]. revert w H; induction l as [|d l IH]; intros w H; [by rewrite app_nil_r|].
  rewrite cons_middle, app_assoc. by apply IH, agrees_write.
Qed.

Lemma allowed_whole s ev : allowed s ev → partial = false → whole ev.
Proof.
  intros H Hp. destruct ev as [| | | | | |t n e]; cbn in *; try done. rewrite Hp in H. cbn in H.
  by apply Is_true_true, Nat.eqb_eq in H.
Qed.

(** Steps that are allowed keep a relay good, whichever side is the inner one. *)
Lemma relay_ok_step (p : policy) (s : side) ev r r' :
  relay_ok (sock_of s r) r → (partial = false → whole ev) →
  (∀ d, ev = Deliver s d → piece_ok d) → step p ev r = Some r' →
  relay_ok (sock_of s r') r'.
Proof.
  intros (Hi & Hp & Hg) Hw Hd Hs. split_and!; [by eapply step_inv|eauto using step_pre|].
  apply (step_history _ _ _ _ s) in Hs as [-> _]. apply Forall_app; split; [done|].
  destruct ev as [| | | |t d|t e|t n e]; try done. destruct s, t; cbn; try done; eauto.
Qed.

(** The link of the two sides delivers to, or ends, the inner connection. *)
Lemma relay_ok_link (p : policy) (s : side) ev r r' :
  relay_ok (sock_of s r) r → step p ev r = Some r' →
  match ev with Deliver t _ | Finish t _ => side_eqb s t = false | _ => False end →
  relay_ok (sock_of s r') r'.
Proof.
  intros Hr Hs Hev. eapply relay_ok_step; [done|..|done].
  - intros _. by destruct ev.
  - intros d ->. by destruct s.
Qed.

Lemma allowed_outer s t ev d : side_eqb s t = false → allowed s ev → ev = Deliver t d → piece_ok d.
Proof. intros Hst H ->. by destruct s, t. Qed.

Lemma allowed_inner p s ev r r' :
  allowed s ev → step p ev r = Some r' → got (sock_of s r') = got (sock_of s r).
Proof.
  intros Ha Hs. apply (step_history _ _ _ _ s) in Hs as [-> _].
  destruct ev as [| | | |t d|t e|t n e]; rewrite ?app_nil_r; try done.
  destruct s, t; cbn in *; by rewrite ?app_nil_r.
Qed.

(** What was written to the connection between the sides is what it can carry. *)
Lemma written_ok r : relay_ok (ra r) r → Forall piece_ok (sent (rb r)).
Proof.
  intros (_ & Hp & Hg). destruct (@partial W) eqn:E.
  - apply Forall_forall. intros. by apply partial_ok.
  - destruct (Hp eq_refl) as (_ & _ & _ & [l Hl] & _).
    assert (Forall piece_ok (sent (rb r) ++ l)) as [H _]%Forall_app; [|done].
    rewrite <-Hl. by apply nonempty_Forall.
Qed.

Lemma written_ok_down r : relay_ok (rb r) r → Forall piece_ok (sent (ra r)).
Proof.
  intros (_ & Hp & Hg). destruct (@partial W) eqn:E.
  - apply Forall_forall. intros. by apply partial_ok.
  - destruct (Hp eq_refl) as (_ & _ & _ & _ & [l Hl]).
    assert (Forall piece_ok (sent (ra r) ++ l)) as [H _]%Forall_app; [|done].
    rewrite <-Hl. by apply nonempty_Forall.
Qed.

Lemma drop_header f off :
  header f = hd → drop (length hd + off) (up_stream f) = drop off (stream_of (sent (rb (client f)))).
Proof. intros Hh. unfold up_stream. rewrite Hh. by rewrite <-drop_drop, drop_app_length. Qed.

Lemma flow_step_client ev f f' :
  flow_inv f → flow_step pc ps handler (Client ev) f = Some f' → flow_inv f'.
Proof.
  intros (Hh & Hc & Hs) E. cbn [flow_step] in E. destruct (allowed B ev) eqn:Ha; [|done].
  apply bind_Some in E as (r & E & [= <-]). apply Is_true_true in Ha.
  split_and!; [done|eapply (relay_ok_step pc A); eauto using allowed_whole; intros d; by apply (allowed_outer B)|].
  pose proof (allowed_inner _ _ _ _ _ Ha E) as Hg. apply (step_history _ _ _ _ B) in E as [_ Hp].
  cbn in Hg, Hp |- *. destruct (server f) as [[t sr]|]; [|by rewrite Hg].
  destruct Hs as (Ht & Hr & (off & Ho & Hu) & Hd). split_and!; [done|done| |by rewrite Hg].
  exists off. eauto using agrees_writes.
Qed.

Lemma flow_step_server ev f f' :
  flow_inv f → flow_step pc ps handler (Server ev) f = Some f' → flow_inv f'.
Proof.
  intros (Hh & Hc & Hs) E. cbn [flow_step] in E. apply bind_Some in E as ([t sr] & Es & E). rewrite Es in Hs.
  destruct (allowed A ev) eqn:Ha; [|done]. apply bind_Some in E as (r & E & [= <-]).
  apply Is_true_true in Ha. destruct Hs as (Ht & Hr & (off & Ho & Hu) & Hd).
  pose proof (allowed_inner _ _ _ _ _ Ha E) as Hg. pose proof (step_history _ _ _ _ A E) as [_ Hp].
  cbn in Hg, Hp. split_and!; [done|done|]. cbn. split_and!; [done| | |].
  - eapply (relay_ok_step ps B); eauto using allowed_whole; intros d; by apply (allowed_outer A).
  - exists off. by rewrite Hg.
  - eauto using agrees_writes.
Qed.

Lemma flow_step_link ev f f' :
  flow_inv f → match ev with Client _ | Server _ => False | _ => True end →
  flow_step pc ps handler ev f = Some f' → flow_inv f'.
Proof.
  intros (Hh & Hc & Hs) Hev E. destruct ev as [| | |n|n| |]; try done; cbn [flow_step] in E.
  - destruct (server f) as [[]|] eqn:Es; [done|]. destruct Hs as [Hg Hd].
    destruct (handler (up_stream f)) as [| |t c] eqn:Eh; simplify_eq.
    unfold up_stream in Eh. rewrite Hh in Eh. apply Hhandler in Eh as [-> ->].
    split_and!; [done|done|]. cbn. split_and!; [done| | |].
    + split_and!; [apply start_inv|intros _; apply start_pre|constructor].
    + exists 0. split; [lia|]. eapply agrees_writes; [apply agrees_start|]. apply prefix_nil.
    + rewrite Hg, Hd. apply agrees_start.
  - apply bind_Some in E as ([t sr] & Es & E). rewrite Es in Hs.
    destruct Hs as (Ht & Hr & (off & Ho & Hu) & Hd).
    apply bind_Some in E as ([d k] & Ed & E). apply bind_Some in E as (r & E & [= <-]).
    rewrite Ho, drop_header in Ed by done.
    eapply agrees_read in Ed as (Hu' & _ & Hok); [|by apply written_ok|done].
    split_and!; [done|done|]. cbn. pose proof (step_history _ _ _ _ A E) as [Hg Hp].
    cbn in Hg, Hp. split_and!; [done| | |].
    + by eapply (relay_ok_link ps B).
    + exists (off + k). split; [lia|]. by rewrite Hg.
    + eauto using agrees_writes.
  - apply bind_Some in E as ([t sr] & Es & E). rewrite Es in Hs.
    destruct Hs as (Ht & Hr & (off & Ho & Hu) & Hd).
    apply bind_Some in E as ([d k] & Ed & E). apply bind_Some in E as (r & E & [= <-]).
    eapply agrees_read in Ed as (Hd' & _ & Hok); [|by apply written_ok_down|done].
    pose proof (step_history _ _ _ _ B E) as [Hg Hp]. cbn in Hg, Hp.
    split_and!; [done|by eapply (relay_ok_link pc A)|]. cbn. rewrite Es.
    split_and!; [done|done| |by rewrite Hg]. exists off. eauto using agrees_writes.
  - apply bind_Some in E as ([t sr] & Es & E). rewrite Es in Hs.
    destruct Hs as (Ht & Hr & (off & Ho & Hu) & Hd).
    destruct (_ && _); [|done]. apply bind_Some in E as (r & E & [= <-]).
    pose proof (step_history _ _ _ _ A E) as [Hg Hp]. cbn in Hg, Hp. rewrite app_nil_r in Hg.
    split_and!; [done|done|]. cbn. split_and!; [done|by eapply (relay_ok_link ps B)| |].
    + exists off. by rewrite Hg.
    + eauto using agrees_writes.
  - apply bind_Some in E as ([t sr] & Es & E). rewrite Es in Hs.
    destruct Hs as (Ht & Hr & (off & Ho & Hu) & Hd).
    destruct (_ && _); [|done]. apply bind_Some in E as (r & E & [= <-]).
    pose proof (step_history _ _ _ _ B E) as [Hg Hp]. cbn in Hg, Hp. rewrite app_nil_r in Hg.
    split_and!; [done|by eapply (relay_ok_link pc A)|]. cbn. rewrite Es.
    split_and!; [done|done| |by rewrite Hg]. exists off. eauto using agrees_writes.
Qed.

Lemma flow_step_inv ev f f' : flow_inv f → flow_step pc ps handler ev f = Some f' → flow_inv f'.
Proof.
  intros Hi E. destruct ev;
    [by eapply flow_step_client|by eapply flow_step_server|by eapply flow_step_link; [exact Hi| |exact E]..].
Qed.

Lemma flow_start_inv : flow_inv (flow_start hd).
Proof. split_and!; [done| |done]. split_and!; [apply start_inv|intros _; apply start_pre|constructor]. Qed.

Lemma flow_run_inv evs f : flow_run pc ps handler evs (flow_start hd) = Some f → flow_inv f.
Proof.
  assert (∀ f0, flow_inv f0 → flow_run pc ps handler evs f0 = Some f → flow_inv f) as H.
  { induction evs as [|ev evs IH]; intros f0 Hi E; [by unfold flow_run in E; simplify_eq|].
    cbn in E. apply bind_Some in E as (f1 & E1 & E). eauto using flow_step_inv. }
  apply H, flow_start_inv.
Qed.

(** The bytes that arrive at the service are a prefix of those the application sent, and
    back; with whole pieces, the pieces are. *)
Lemma flow_inv_bytes f t r :
  flow_inv f → server f = Some (t, r) →
  t = target ∧ concat (sent (rb r)) `prefix_of` concat (got (ra (client f))) ∧
  concat (sent (ra (client f))) `prefix_of` concat (got (rb r)).
Proof.
  intros (_ & ((Hcu & Hcd) & _) & Hs) E. rewrite E in Hs.
  destruct Hs as (-> & ((Hsu & Hsd) & _) & (off & _ & Hu) & Hd). split; [done|].
  split; (etrans; [by eapply dir_inv_bytes|]); (etrans; [by eapply agrees_bytes|]); by eapply dir_inv_bytes.
Qed.

Lemma flow_inv_pieces f t r :
  partial = false → flow_inv f → server f = Some (t, r) →
  t = target ∧ sent (rb r) `prefix_of` nonempty (got (ra (client f))) ∧
  sent (ra (client f)) `prefix_of` nonempty (got (rb r)).
Proof.
  intros Hp (_ & (_ & Hc & _) & Hs) E. rewrite E in Hs.
  destruct Hs as (-> & (_ & Hr & _) & (off & _ & Hu) & Hd). split; [done|].
  destruct (Hc Hp) as (_ & _ & _ & Hcu & Hcd), (Hr Hp) as (_ & _ & _ & Hsu & Hsd).
  apply agrees_pieces in Hu; [|done]. apply agrees_pieces in Hd; [|done].
  unfold dir_pre in *. split.
  - etrans; [exact Hsu|]. rewrite <-(nonempty_idemp (got (ra (client f)))). apply nonempty_prefix. etrans; [exact Hu|exact Hcu].
  - etrans; [exact Hcd|]. rewrite <-(nonempty_idemp (got (rb r))). apply nonempty_prefix. etrans; [exact Hd|exact Hsd].
Qed.

(** *** Progress of a flow *)

(** The goroutines of both sides and the connection between them, nothing else. *)
Definition moving (f f' : flow) : Prop :=
  ∃ ev, flow_step pc ps handler ev f = Some f' ∧
  match ev with
  | Client ev | Server ev => ev = Up ∨ ev = Down
  | LinkUp _ | LinkDown _ => True
  | _ => False
  end.

Definition piece_weight (d : chunk) : nat := 2 + 3 * length (encode d).
Definition entry_copier (c : copier) : nat :=
  match c with CRead => 1 | CWrite d => piece_weight d | _ => 0 end.
(** The calls a piece still needs that has not crossed the connection. *)
Definition entry_weight (src : socket) (c : copier) : nat := sum_list_with piece_weight (inbox src) + entry_copier c.
Definition flow_work (f : flow) : nat :=
  match server f with
  | None => 0
  | Some (_, r) =>
      entry_weight (ra (client f)) (up (client f)) + 3 * (length (up_stream f) - up_off f) + dir_weight (ra r) (up r) +
      (entry_weight (rb r) (down r) + 3 * (length (down_stream r) - down_off f) +
       dir_weight (rb (client f)) (down (client f)))
  end.

Lemma entry_step p cancel src dst c src' dst' c' :
  copy_step p cancel src dst c = Some (src', dst', c') →
  entry_weight src' c' + 3 * length (stream_of (sent dst')) < entry_weight src c + 3 * length (stream_of (sent dst)).
Proof.
  intros Hs. unfold entry_weight. destruct c as [|d| |]; cbn [copy_step] in Hs; try done.
  - destruct (closed src); [simplify_eq; cbn; lia|].
    destruct (inbox src) as [|d rest] eqn:Ei.
    + destruct (incoming src) as [[]|]; simplify_eq; rewrite Ei; cbn; lia.
    + case_bool_decide; [destruct (empty_fails p)|]; simplify_eq; cbn; unfold piece_weight; lia.
  - destruct (sock_write d dst) as [k o] eqn:E.
    assert (length (stream_of (sent k)) ≤ length (stream_of (sent dst)) + length (encode d)) as Hk.
    { unfold sock_write in E. destruct (closed dst); [simplify_eq; lia|].
      destruct (wfail dst) as [[n e]|]; simplify_eq; cbn [sent];
        rewrite stream_of_app, length_app; unfold stream_of at 2.
      - destruct (take n d) eqn:Et; [rewrite nonempty_nil; cbn; lia|]. rewrite <-Et, nonempty_cons by (by rewrite Et).
        cbn. rewrite app_nil_r. pose proof (encode_take n d). lia.
      - cbn. rewrite app_nil_r. lia. }
    destruct o; simplify_eq; [|destruct (_ && _)]; cbn; unfold piece_weight; lia.
Qed.

(** The link takes [k] bytes off the connection and adds one piece. *)
Lemma deliver_weight p s d r r' :
  step p (Deliver s d) r = Some r' →
  ∃ k, r' = set_sock s k r ∧ inbox k = inbox (sock_of s r) ++ [d] ∧ sent k = sent (sock_of s r).
Proof.
  cbn [step]. intros E. apply bind_Some in E as (k & E & [= <-]). cbn in E.
  case_bool_decide; simplify_eq. by eexists.
Qed.

Lemma flow_offsets f t r :
  flow_inv f → server f = Some (t, r) →
  up_off f ≤ length (up_stream f) ∧ down_off f ≤ length (down_stream r).
Proof.
  intros (Hh & _ & Hs) E. rewrite E in Hs. destruct Hs as (_ & _ & (off & Ho & Hu%agrees_le) & Hd%agrees_le).
  unfold up_stream, down_stream. rewrite Hh, length_app. lia.
Qed.

Lemma client_move f f' ev t r :
  flow_inv f → server f = Some (t, r) → ev = Up ∨ ev = Down →
  flow_step pc ps handler (Client ev) f = Some f' → server f' = Some (t, r) ∧ flow_work f' < flow_work f.
Proof.
  intros Hi Es Hev E. pose proof (flow_offsets _ _ _ Hi Es) as [Ho1 Ho2].
  unfold flow_work, up_stream, down_stream in *. rewrite Es.
  cbn [flow_step] in E. destruct (allowed B ev); [|done]. apply bind_Some in E as (c & E & [= <-]).
  split; [done|]. cbn [server client header up_off down_off with_client]. rewrite Es.
  rewrite !length_app in *. destruct Hev as [-> | ->]; cbn [step] in E;
    apply bind_Some in E as ([[x y] k] & E & [= <-]); cbn [ra rb up down];
    pose proof (copy_step_work _ _ _ _ _ _ _ _ E) as [H1 H2];
    pose proof (copy_step_history _ _ _ _ _ _ _ _ E) as (_ & _ & H3 & H4%stream_of_le).
  - apply entry_step in E. unfold dir_weight in *. rewrite H2. lia.
  - unfold entry_weight. rewrite H2, H3. lia.
Qed.

Lemma server_move f f' ev t r :
  flow_inv f → server f = Some (t, r) → ev = Up ∨ ev = Down →
  flow_step pc ps handler (Server ev) f = Some f' →
  (∃ r', server f' = Some (t, r')) ∧ flow_work f' < flow_work f.
Proof.
  intros Hi Es Hev E. pose proof (flow_offsets _ _ _ Hi Es) as [Ho1 Ho2].
  unfold flow_work, up_stream, down_stream in *. rewrite Es. cbn [flow_step] in E. rewrite Es in E. cbn in E.
  destruct (allowed A ev); [|done]. apply bind_Some in E as (c & E & [= <-]).
  split; [by eexists|]. cbn [server client header up_off down_off with_server].
  rewrite !length_app in *. destruct Hev as [-> | ->]; cbn [step] in E;
    apply bind_Some in E as ([[x y] k] & E & [= <-]); cbn [ra rb up down];
    pose proof (copy_step_work _ _ _ _ _ _ _ _ E) as [H1 H2];
    pose proof (copy_step_history _ _ _ _ _ _ _ _ E) as (_ & _ & H3 & H4%stream_of_le).
  - unfold entry_weight. rewrite H2, H3. lia.
  - apply entry_step in E. unfold dir_weight in *. rewrite H2. lia.
Qed.

Lemma link_move f f' ev t r :
  flow_inv f → server f = Some (t, r) → (∃ n, ev = LinkUp n ∨ ev = LinkDown n) →
  flow_step pc ps handler ev f = Some f' →
  (∃ r', server f' = Some (t, r')) ∧ flow_work f' < flow_work f.
Proof.
  intros Hi Es [n Hev] E.
  pose proof (flow_step_inv _ _ _ Hi E) as Hi'. pose proof Hi as (Hh & Hc & Hs). rewrite Es in Hs.
  destruct Hs as (_ & Hr & (off & Ho & Hu) & Hd).
  destruct Hev as [-> | ->]; cbn [flow_step] in E; rewrite Es in E; cbn [mbind option_bind] in E.
  - apply bind_Some in E as ([d k] & Ed & E). apply bind_Some in E as (c & E & [= <-]).
    pose proof (flow_offsets _ _ _ Hi' eq_refl) as [Ho1 _]. cbn [up_off] in Ho1.
    rewrite Ho, drop_header in Ed by done.
    eapply agrees_read in Ed as (_ & Hk & _); [|by apply written_ok|done].
    split; [by eexists|]. apply deliver_weight in E as (kk & -> & Hb & Hsent). unfold flow_work. rewrite Es.
    unfold up_stream, down_stream, dir_weight in *. cbn in *. rewrite Hb, Hsent. rewrite !length_app in *. cbn. lia.
  - apply bind_Some in E as ([d k] & Ed & E). apply bind_Some in E as (c & E & [= <-]).
    pose proof (flow_offsets _ _ _ Hi' eq_refl) as [_ Ho2]. cbn [down_off] in Ho2.
    eapply agrees_read in Ed as (_ & Hk & _); [|by apply written_ok_down|done].
    split; [by eexists|]. apply deliver_weight in E as (kk & -> & Hb & Hsent). unfold flow_work. rewrite Es.
    unfold up_stream, down_stream, dir_weight in *. cbn in *. rewrite Hb, Hsent. rewrite !length_app in *. cbn. lia.
Qed.

Lemma moving_work f f' t r :
  flow_inv f → server f = Some (t, r) → moving f f' →
  flow_inv f' ∧ (∃ r', server f' = Some (t, r')) ∧ flow_work f' < flow_work f.
Proof.
  intros Hi Es (ev & E & Hev). split; [by eapply flow_step_inv|].
  destruct ev as [ev|ev| |n|n| |]; try done.
  - destruct (client_move _ _ _ _ _ Hi Es Hev E). split; [by eexists|done].
  - by eapply server_move.
  - eapply link_move; [done|done| |done]. eauto.
  - eapply link_move; [done|done| |done]. eauto.
Qed.

(** Left alone a flow stops moving after at most [flow_work] steps. *)
Lemma moving_bounded n f f' t r :
  flow_inv f → server f = Some (t, r) → nsteps moving n f f' →
  flow_inv f' ∧ (∃ r', server f' = Some (t, r')) ∧ n + flow_work f' ≤ flow_work f.
Proof.
  intros Hi Es Hn. revert r Hi Es. induction Hn as [f|n f1 f2 f3 Hm _ IH]; intros r Hi Es.
  { split_and!; [done|by eexists|lia]. }
  eapply moving_work in Hm as (Hi' & (r' & Es') & Hw); [|done..].
  destruct (IH _ Hi' Es') as (? & ? & ?). split_and!; [done|done|lia].
Qed.

(** Nothing has ended and the connection between the two sides is up. *)
Definition healthy (f : flow) (r : relay_state) : Prop :=
  up (client f) = CRead ∧ down (client f) = CRead ∧ up r = CRead ∧ down r = CRead ∧
  incoming (ra r) = None ∧ incoming (rb (client f)) = None.

Lemma stuck_read p ev r :
  relay_inv r → (ev = Up ∧ up r = CRead ∨ ev = Down ∧ down r = CRead) → step p ev r = None →
  match ev with
  | Up => nonempty (got (ra r)) = sent (rb r)
  | _ => nonempty (got (rb r)) = sent (ra r)
  end.
Proof.
  intros [Hu Hd] [[-> Hc]|[-> Hc]] E; cbn [step] in E.
  - destruct (copy_step _ _ _ _ _) as [[[a b] c]|] eqn:Ec; [done|].
    apply copy_stuck in Ec; [|done]. rewrite Hc in Ec. apply Ec.
  - destruct (copy_step _ _ _ _ _) as [[[a b] c]|] eqn:Ec; [done|].
    apply copy_stuck in Ec; [|done]. rewrite Hc in Ec. apply Ec.
Qed.

(** A flow that cannot move has delivered everything, in both directions. *)
Lemma flow_settled f t r :
  flow_inv f → server f = Some (t, r) → healthy f r → (∀ f', ¬ moving f f') →
  concat (sent (rb r)) = concat (got (ra (client f))) ∧
  concat (sent (ra (client f))) = concat (got (rb r)).
Proof.
  intros (Hh & Hc & Hs) Es (Hcu & Hcd & Hsu & Hsd & Hia & Hib) Hn. rewrite Es in Hs.
  destruct Hs as (_ & Hr & (off & Ho & Hu) & Hd).
  assert (Hstuck : ∀ ev, match ev with Client ev | Server ev => ev = Up ∨ ev = Down
    | LinkUp _ | LinkDown _ => True | _ => False end → flow_step pc ps handler ev f = None).
  { intros ev Hev. destruct (flow_step _ _ _ ev f) as [f'|] eqn:E; [|done].
    exfalso. apply (Hn f'). by exists ev. }
  assert (Hcl : ∀ ev, ev = Up ∨ ev = Down → step pc ev (client f) = None).
  { intros ev Hev. specialize (Hstuck (Client ev) Hev). cbn [flow_step] in Hstuck.
    destruct (step pc ev (client f)); [by destruct Hev as [-> | ->]|done]. }
  assert (Hsv : ∀ ev, ev = Up ∨ ev = Down → step ps ev r = None).
  { intros ev Hev. specialize (Hstuck (Server ev) Hev). cbn [flow_step] in Hstuck. rewrite Es in Hstuck.
    cbn [mbind option_bind] in Hstuck. destruct (step ps ev r); [by destruct Hev as [-> | ->]|done]. }
  pose proof (stuck_read pc Up _ (proj1 Hc) (or_introl (conj eq_refl Hcu)) (Hcl Up (or_introl eq_refl))) as E1.
  pose proof (stuck_read pc Down _ (proj1 Hc) (or_intror (conj eq_refl Hcd)) (Hcl Down (or_intror eq_refl))) as E2.
  pose proof (stuck_read ps Up _ (proj1 Hr) (or_introl (conj eq_refl Hsu)) (Hsv Up (or_introl eq_refl))) as E3.
  pose proof (stuck_read ps Down _ (proj1 Hr) (or_intror (conj eq_refl Hsd)) (Hsv Down (or_intror eq_refl))) as E4.
  cbn in E1, E2, E3, E4.
  apply agrees_done in Hu as [_ Hu]; [|by apply written_ok|].
  2:{ intros n. specialize (Hstuck (LinkUp n) I). cbn [flow_step] in Hstuck. rewrite Es in Hstuck.
      cbn [mbind option_bind] in Hstuck. rewrite Ho, drop_header in Hstuck by done.
      destruct (decode n _) as [[d k]|]; [|done]. cbn in Hstuck. by rewrite Hia in Hstuck. }
  apply agrees_done in Hd as [_ Hd]; [|by apply written_ok_down|].
  2:{ intros n. specialize (Hstuck (LinkDown n) I). cbn [flow_step] in Hstuck. rewrite Es in Hstuck.
      cbn [mbind option_bind] in Hstuck.
      destruct (decode n _) as [[d k]|]; [|done]. cbn in Hstuck. by rewrite Hib in Hstuck. }
  rewrite <-E3, <-E2, !concat_nonempty, Hu, Hd, <-E1, <-E4, !concat_nonempty. done.
Qed.

End FlowInv.

(** Whole pieces that carry the same bytes are the same. *)
Lemma prefix_pieces_eq l k : l `prefix_of` nonempty k → concat l = concat k → l = nonempty k.
Proof.
  intros [x E] Hc. rewrite E. rewrite <-(concat_nonempty k), E, concat_app in Hc.
  assert (concat x = []) as Hx.
  { apply (f_equal length) in Hc. rewrite length_app in Hc. apply nil_length_inv. lia. }
  destruct x as [|d x]; [by rewrite app_nil_r|]. exfalso.
  assert (d ∈ nonempty k) as [Hd _]%list_elem_of_filter by (rewrite E; set_solver).
  cbn in Hx. by apply app_eq_nil in Hx as [-> _].
Qed.

(** ** The header of a flow *)

Definition header_of (id : TransportEndpointID) : list byte := fst (WriteProxyInfo [] id Written).

Lemma Relaying_consumed (x rest : list byte) t t' n :
  Relaying t (length (x ++ rest) - length rest) = Relaying t' n → t' = t ∧ n = length x.
Proof. rewrite length_app. intros [= <- <-]. split; [done|lia]. Qed.

Lemma tcp_handler_header text dial id rest t n :
  id_wf id → gvisorTCPHandler_Handle text dial (header_of id ++ rest) = Relaying t n →
  t = JoinHostPort (text (LocalAddress id)) (pretty (LocalPort id)) ∧ n = length (header_of id).
Proof.
  intros Hid. unfold gvisorTCPHandler_Handle, header_of. rewrite ParseProxyInfo_app by done.
  destruct (dial _); [done|]. apply Relaying_consumed.
Qed.

Lemma udp_handler_header dial id rest t n :
  id_wf id → gvisorUDPHandler_relays dial (header_of id ++ rest) = Relaying t n →
  t = JoinHostPort (IP_String (AsSlice (LocalAddress id))) (pretty (LocalPort id)) ∧ n = length (header_of id).
Proof.
  intros Hid. unfold gvisorUDPHandler_relays, gvisorUDPHandler_Handle, header_of.
  rewrite ParseProxyInfo_app by done.
  destruct (dial _); [done|]. apply Relaying_consumed.
Qed.

(** Both sides of a TCP flow and of a UDP flow. *)
Definition tcp_run (text : Address → string) (dial : string → option error) (evs : list flow_event) (id : TransportEndpointID) :=
  flow_run (W := tcp_wire) TCPForwarder_policy gvisorTCPHandler_policy (gvisorTCPHandler_Handle text dial) evs (flow_start (header_of id)).
Definition tcp_moving text dial := moving (W := tcp_wire) TCPForwarder_policy gvisorTCPHandler_policy (gvisorTCPHandler_Handle text dial).

Definition udp_run (pool buf : list byte) (dial : string → option error) (evs : list flow_event) (id : TransportEndpointID) :=
  flow_run (W := udp_wire pool buf) UDPForwarder_policy handle_policy (gvisorUDPHandler_relays dial) evs (flow_start (header_of id)).
Definition udp_moving pool buf dial :=
  moving (W := udp_wire pool buf) UDPForwarder_policy handle_policy (gvisorUDPHandler_relays dial).

(** ** Examples and what goes wrong *)

Definition address_text (a : Address) : string := IP_String (AsSlice a).
Definition dials : string → option error := λ _, None.

(** Three bytes of a request, two of which have arrived. *)
Definition tcp_example : list flow_event :=
  [Client (Deliver A [x01; x02; x03]); Client Up; Client Up; Accept; LinkUp 2; Server Up; Server Up].

(** A half-closed connection: the application sends its request and shuts down its
    sending side, as the response is already on its way at the server. *)
Definition half_close : list flow_event :=
  [Client (Deliver A [x01]); Client Up; Client Up; Accept; LinkUp 1; Server Up; Server Up;
   Server (Deliver B [x0a]); Client (Finish A EOF); Client Up; Client Return; LinkUpEnd; Server Up; Server Return;
   Server Down; Server Down].

(** ** Properties *)

(** C2. A TCP connection through the user-space stack, end to end: in every run of the
    two relays and the connection between them (pieces cut anywhere, failures, closes),
    once the server has accepted it, it has dialled exactly the address and port the
    application connected to; the service has received a prefix of what the application
    sent and the application a prefix of what the service sent; left alone, the flow
    stops after at most [flow_work] steps, and if nothing has ended by then, everything
    sent has arrived on the other side, in both directions. *)
Theorem tcp_flow_end_to_end text dial evs id f t r
  (Hid : id_wf id)
  (Hrun : tcp_run text dial evs id = Some f)
  (Hserver : server f = Some (t, r)) :
  t = JoinHostPort (text (LocalAddress id)) (pretty (LocalPort id)) ∧
  concat (sent (rb r)) `prefix_of` concat (got (ra (client f))) ∧
  concat (sent (ra (client f))) `prefix_of` concat (got (rb r)) ∧
  ∀ n f', nsteps (tcp_moving text dial) n f f' →
    n ≤ flow_work (W := tcp_wire) f ∧
    ∃ r', server f' = Some (t, r') ∧
      ((∀ f2, ¬ tcp_moving text dial f' f2) → healthy f' r' →
       concat (sent (rb r')) = concat (got (ra (client f'))) ∧
       concat (sent (ra (client f'))) = concat (got (rb r'))).
Proof.
  set (tg := JoinHostPort (text (LocalAddress id)) (pretty (LocalPort id))).
  assert (Hh := λ rest t n, tcp_handler_header text dial id rest t n Hid). fold tg in Hh.
  eapply (flow_run_inv _ _ _ _ tg) in Hrun; [|exact Hh].
  destruct (flow_inv_bytes _ _ _ _ _ Hrun Hserver) as (Ht & H1 & H2). split_and!; [done..|].
  intros n f' Hn. eapply moving_bounded in Hn as (Hi & (r' & Hr') & Hw); [|exact Hh|done..].
  split; [lia|]. exists r'. split; [done|]. intros. by eapply flow_settled.
Qed.

Lemma tcp_example_sent :
  match tcp_run address_text dials tcp_example example_id with
  | Some f => match server f with
              | Some (t, r) => t = "10.233.0.1:9080"%string ∧ sent (rb r) = [[x01; x02]] ∧
                               got (ra (client f)) = [[x01; x02; x03]]
              | None => False
              end
  | None => False
  end.
Proof. vm_compute. done. Qed.

Lemma tcp_flow_end_to_end_witness :
  ∃ f t r, tcp_run address_text dials tcp_example example_id = Some f ∧ server f = Some (t, r) ∧
    sent (rb r) = [[x01; x02]] ∧ concat (sent (rb r)) `prefix_of` concat (got (ra (client f))).
Proof.
  pose proof tcp_example_sent as H.
  destruct (tcp_run address_text dials tcp_example example_id) as [f|] eqn:E; [|destruct H].
  destruct (server f) as [[t r]|] eqn:Es; [|destruct H]. destruct H as (_ & H & _).
  exists f, t, r. split; [reflexivity|]. split; [exact Es|]. split; [exact H|].
  exact (proj1 (proj2 (tcp_flow_end_to_end address_text dials tcp_example example_id f t r
    example_id_wf E Es))).
Defined.

(** C3. A UDP flow through the user-space stack, end to end: the server dials the
    address and port the application sent to; the datagrams that reach the service are
    the first of the application's datagrams in order, each unchanged and none split or
    merged, empty ones left out, and the same back; left alone the flow stops, and if
    nothing has ended by then all of them have arrived. *)
Theorem udp_flow_end_to_end pool buf dial evs id f t r
  (Hpool : Z.of_nat (length pool) = LargeBufferSize)
  (Hbuf : Z.of_nat (length buf) = LargeBufferSize)
  (Hid : id_wf id)
  (Hrun : udp_run pool buf dial evs id = Some f)
  (Hserver : server f = Some (t, r)) :
  t = JoinHostPort (IP_String (AsSlice (LocalAddress id))) (pretty (LocalPort id)) ∧
  sent (rb r) `prefix_of` nonempty (got (ra (client f))) ∧
  sent (ra (client f)) `prefix_of` nonempty (got (rb r)) ∧
  ∀ n f', nsteps (udp_moving pool buf dial) n f f' →
    n ≤ flow_work (W := udp_wire pool buf) f ∧
    ∃ r', server f' = Some (t, r') ∧
      ((∀ f2, ¬ udp_moving pool buf dial f' f2) → healthy f' r' →
       sent (rb r') = nonempty (got (ra (client f'))) ∧ sent (ra (client f')) = nonempty (got (rb r'))).
Proof.
  pose proof (udp_laws pool buf Hpool Hbuf) as L.
  set (tg := JoinHostPort (IP_String (AsSlice (LocalAddress id))) (pretty (LocalPort id))).
  assert (Hh := λ rest t n, udp_handler_header dial id rest t n Hid). fold tg in Hh.
  eapply (flow_run_inv _ _ _ _ tg) in Hrun; [|exact Hh].
  destruct (flow_inv_pieces (W := udp_wire pool buf) _ _ _ _ _ eq_refl Hrun Hserver) as (Ht & H1 & H2). split_and!; [done..|].
  intros n f' Hn. eapply moving_bounded in Hn as (Hi & (r' & Hr') & Hw); [|exact Hh|done..].
  split; [lia|]. exists r'. split; [done|]. intros Hm Hl.
  destruct (flow_inv_pieces (W := udp_wire pool buf) _ _ _ _ _ eq_refl Hi Hr') as (_ & P1 & P2).
  eapply flow_settled in Hl as [E1 E2]; [|done..].
  split; by eapply prefix_pieces_eq.
Qed.

(** Two datagrams and an empty one between them. *)
Definition udp_example : list flow_event :=
  [Client (Deliver A [x01; x02]); Client (Deliver A []); Client (Deliver A [x03]);
   Client Up; Client Up; Client Up; Client Up; Client Up;
   Accept; LinkUp 0; LinkUp 0; Server Up; Server Up; Server Up; Server Up].
Definition zero_buffer : list byte := replicate (Z.to_nat LargeBufferSize) x00.

Lemma zero_buffer_length : Z.of_nat (length zero_buffer) = LargeBufferSize.
Proof. unfold zero_buffer. rewrite length_replicate. by apply Z2Nat.id. Qed.

Lemma udp_example_sent :
  match udp_run zero_buffer zero_buffer dials udp_example example_id with
  | Some f => match server f with
              | Some (t, r) => t = "10.233.0.1:9080"%string ∧ sent (rb r) = [[x01; x02]; [x03]] ∧
                               got (ra (client f)) = [[x01; x02]; []; [x03]]
              | None => False
              end
  | None => False
  end.
Proof. vm_compute. done. Qed.

Lemma udp_flow_end_to_end_witness :
  ∃ f t r, udp_run zero_buffer zero_buffer dials udp_example example_id = Some f ∧ server f = Some (t, r) ∧
    sent (rb r) = [[x01; x02]; [x03]] ∧ sent (rb r) `prefix_of` nonempty (got (ra (client f))).
Proof.
  pose proof udp_example_sent as H.
  destruct (udp_run zero_buffer zero_buffer dials udp_example example_id) as [f|] eqn:E; [|destruct H].
  destruct (server f) as [[t r]|] eqn:Es; [|destruct H]. destruct H as (_ & H & _).
  exists f, t, r. split; [reflexivity|]. split; [exact Es|]. split; [exact H|].
  exact (proj1 (proj2 (udp_flow_end_to_end zero_buffer zero_buffer dials udp_example example_id f t r
    zero_buffer_length zero_buffer_length example_id_wf E Es))).
Defined.

(** Closing one direction ends both: the application has only shut down its sending
    side, nothing has failed, and yet the response the service sent is lost, because each
    side returns at the first goroutine that is done and closes the connection under the
    other one; the server has not even closed its connection to the service. *)
Lemma half_close_loses_response :
  ∃ f t r, tcp_run address_text dials half_close example_id = Some f ∧ server f = Some (t, r) ∧
    main (client f) = Some None ∧ main r = Some None ∧
    got (rb r) = [[x0a]] ∧ sent (ra (client f)) = [] ∧ sent (ra r) = [] ∧ down r = CDone (Some ErrClosed) ∧
    closed (rb r) = false.
Proof. eexists _, _, _. split; [vm_compute; reflexivity|]. repeat split. Qed.

(** [gvisorTCPHandler.Handle] never closes the connection it has dialled. *)
Lemma tcp_handler_leaves_remote_open evs r :
  run gvisorTCPHandler_policy evs (relay_start fresh fresh) = Some r → closed (rb r) = false.
Proof.
  assert (∀ ev r0 r1, closed (rb r0) = false → step gvisorTCPHandler_policy ev r0 = Some r1 → closed (rb r1) = false) as Hstep.
  { clear. intros ev r0 r1 Hc E. destruct ev as [| | | |s d|s e|s n e]; cbn [step] in E.
    - apply bind_Some in E as ([[a b] c] & E & [= <-]). cbn. apply copy_step_closed in E as [_ ->]. done.
    - apply bind_Some in E as ([[b a] c] & E & [= <-]). cbn. apply copy_step_closed in E as [-> _]. done.
    - destruct (main r0), (errChan r0); by simplify_eq.
    - by simplify_eq.
    - apply bind_Some in E as (k & E & [= <-]). destruct s; cbn in *; repeat case_bool_decide; by simplify_eq.
    - apply bind_Some in E as (k & E & [= <-]). destruct s; cbn in *; repeat case_bool_decide; by simplify_eq.
    - apply bind_Some in E as (k & E & [= <-]). destruct s; cbn in *; repeat case_bool_decide; by simplify_eq. }
  assert (∀ r0, closed (rb r0) = false → run gvisorTCPHandler_policy evs r0 = Some r → closed (rb r) = false) as H.
  { induction evs as [|ev evs IH]; intros r0 Hc E; [by unfold run in E; simplify_eq|].
    cbn in E. apply bind_Some in E as (r1 & E1 & E). eauto. }
  exact (H (relay_start fresh fresh) eq_refl).
Qed.

(** A TCP request that fails after dialling leaves that connection open. *)
Lemma TCPForwarder_leaks net addr id wr ep remote o :
  (forward_chain addr ≫= λ chain, Ret (dial net 0 chain)) = Ret (o, [], Ret remote) →
  (∃ n e, wr = Broken n e) ∨ (∃ e, ep = Some e) →
  at_closed (TCPForwarder net addr id wr ep) = [] ∧ at_opened (TCPForwarder net addr id wr ep) = o ∧
  returns (at_result (TCPForwarder net addr id wr ep)) = false.
Proof.
  intros H Hf. unfold TCPForwarder. destruct (forward_chain addr) as [chain| |]; try done. cbn in H.
  assert (dial net 0 chain = (o, [], Ret remote)) as -> by congruence. unfold WriteProxyInfo, conn_write.
  destruct Hf as [(n & e & ->)|(e & ->)]; [by cbn|]. by destruct wr.
Qed.

(** A UDP request whose dialling fails has made the endpoint of the application, which
    nothing reads or closes. *)
Lemma UDPForwarder_leaves_endpoint net addr id wr e :
  (forward_chain addr ≫= λ chain, getConn net 0 chain) = Fail e →
  at_endpoint (UDPForwarder net addr id wr None) = true ∧ at_result (UDPForwarder net addr id wr None) = Fail e.
Proof.
  intros H. unfold UDPForwarder. destruct (forward_chain addr) as [chain| |]; cbn in *; simplify_eq; [|done].
  by rewrite H.
Qed.

(** An empty datagram from the service ends the UDP flow for good. *)
Lemma empty_reply_ends_flow :
  ∃ r, run handle_policy [Deliver B []; Down; Return; Up] (relay_start fresh fresh) = Some r ∧
    main r = Some (Some zero_length) ∧ up r = CDone (Some ErrClosed) ∧ closed (ra r) = true.
Proof. eexists. by split; [vm_compute; reflexivity|]. Qed.

(** When its context is cancelled, [handle] can be left waiting for ever: both goroutines
    have gone without a word, and it has not closed anything. *)
Lemma cancelled_handle_waits :
  ∃ r, run handle_policy [Deliver A [x01]; Deliver B [x02]; Up; Down; Cancel; Up; Down] (relay_start fresh fresh) = Some r ∧
    up r = CGone ∧ down r = CGone ∧ main r = None ∧ closed (ra r) = false ∧
    step handle_policy Return r = None ∧ step handle_policy Up r = None ∧ step handle_policy Down r = None.
Proof. eexists. split; [vm_compute; reflexivity|]. repeat split. Qed.
