(* ===== verification/Wiring.v ===== *)
(** * The three paths of a connection

    A client reaches the traffic manager over three local ports: one for the packets of
    its tunnel, two for the TCP and UDP flows of its user-space stack.  [DoConnect] of
    [pkg/handler/connect.go] picks the ports, forwards them to ports of the manager's pod
    and tells the tunnel and the stack where to dial; the manager's container listens with
    one server for each.  This file composes [PortForward], [Node], [Gvisor] and [Outbound]
    and shows that the ends fit. *)
From Stdlib Require Import ZArith Lia Ascii.
From Stdlib Require Import Strings.Byte.
From stdpp Require Import base gmap strings numbers list.
From S2P Require Import Prelude GoStrings GoNet Config Url Cidr Node Outbound PortForward ProxyInfo Gvisor.
From stdpp Require Import list.

Local Open Scope string_scope.

(** ** The steps of [DoConnect] *)

(** The port pairs and the addresses, made of the three ports. *)
Definition forward_pairs (raw tcp udp : Z) : list string :=
  [Itoa raw +:+ ":10800"; Itoa tcp +:+ ":10801"; Itoa udp +:+ ":10802"].
Definition forward_address (port : Z) : string := "tcp://127.0.0.1:" +:+ Itoa port.

(** What is in place afterwards: the forwarded pairs, the global addresses of the stack's
    forwarders and the local servers. *)
Record wiring := MkWiring { w_pairs : list string; w_GvisorTCP : string; w_GvisorUDP : string; w_servers : list Node.Server }.

(** From the free ports to the start of the tunnel (the driver file that Windows needs in
    between is in [Host]; its errors are only logged). *)
Definition connect_ports (raw tcp udp : outcome Z) (forward : list string → option error) (windows : bool)
    (order : list string → list string) (p : Process) (ts : TunServe) (lite : bool) : Process * outcome wiring :=
  match (r ← raw; t ← tcp; u ← udp; Ret (r, t, u)) with
  | Fail e => (p, Fail e)
  | Panic => (p, Panic)
  | Ret (r, t, u) =>
      match forward (forward_pairs r t u) with
      | Some e => (p, Fail e)
      | None =>
          let '(p, o) := startLocalTunServe windows order p ts (forward_address r) lite in
          (p, servers ← o; Ret (MkWiring (forward_pairs r t u) (forward_address t) (forward_address u) servers))
      end
  end.

(** ** The traffic manager *)

(** The nodes of the command in the manager's container; the address is the value of the
    variable in its environment. *)
Definition manager_nodes (TunIPv4 : string) : list string :=
  ["tcp://:10800"; "tun://:8422?net=" +:+ TunIPv4; "gtcp://:10801"; "gudp://:10802"].
Definition manager_route : Route := MkRoute (manager_nodes (IPNet_String innerIpv4CIDR)) "" 0.

(** The command says so, and the variable is set. *)
Lemma manager_nodes_script :
  Forall (λ n, Contains manager_script ("-L " +:+ quoted n) = true) (manager_nodes "${TunIPv4}") ∧
  ∃ c, c ∈ manager_containers ∧ mg_Args c = [manager_script] ∧
    (EnvInboundPodTunIPv4, IPNet_String innerIpv4CIDR) ∈ mg_Env c.
Proof.
  split; [repeat constructor; vm_compute; reflexivity|]. eexists. split; [left|]. cbn. split; [done|]. set_solver.
Qed.

(** The process in the manager's container. *)
Definition manager_process : Process :=
  MkProcess {[EnvInboundPodTunIPv4 := IPNet_String innerIpv4CIDR; EnvInboundPodTunIPv6 := IPNet_String innerIpv6CIDR]} working_os (λ _, None).

(** ** The ends fit *)

(** Where a connection to a local port goes: the ports are listened on in order, and a
    pair whose socket is bound already opens none ([listen_taken]), so that the first pair
    with the port gets it. *)
Definition forwarded_to (fs : list ForwardedPort) (local : Z) : option Z :=
  Remote <$> find (λ f, (Local f =? local)%Z) fs.

Lemma listen_taken refuses pick addrs p os :
  Local p ≠ 0%Z → (∀ a, a ∈ addrs → (address a, Local p) ∈ os) →
  (listenOnPort refuses pick addrs p os).1 = (p, [], os).
Proof.
  intros Hp Ha. unfold listenOnPort. generalize (MkCounters 0 0 0 0).
  induction addrs as [|a addrs IH]; intros c; [done|]. cbn [listen_addresses].
  unfold listenOnPortAndAddress, Listen. rewrite (proj2 (Z.eqb_neq _ _) Hp).
  rewrite (bool_decide_true ((address a, Local p) ∈ os)) by (apply Ha; left).
  rewrite orb_true_r. cbn [mbind outcome_bind]. apply IH. intros a' Ha'. apply Ha. by right.
Qed.

(** A chain dials a local port, and what it sends reaches a port of the manager where there
    is a server with the handler. *)
Definition path (c : option Chain) (local : Z) (fs : list ForwardedPort) (ms : list Node.Server)
    (listener : string → Listener) (handler : Handler) : Prop :=
  ∃ ch n remote, c = Some ch ∧ ch_node ch = Some n ∧ n_Protocol n = "tcp" ∧ n_Addr n = "127.0.0.1:" +:+ Itoa local ∧
    forwarded_to fs local = Some remote ∧
    MkServer (listener (":" +:+ Itoa remote)) handler ∈ ms.

Lemma make_server_chain p chain n s c node :
  make_server p chain n = Ret s → s_Handler s = TunHandler c node → c = chain.
Proof.
  unfold make_server, listen. intros E H. apply outcome_bind_Ret in E as (nd & _ & E).
  destruct (bool_decide _); [apply outcome_bind_Ret in E as (dev & _ & [= <-]); cbn in H; by injection H|].
  repeat (destruct (bool_decide _); [destruct (p_listen p (n_Addr nd)); [done|]; injection E as <-; done|]). done.
Qed.

Lemma make_servers_chain p chain nodes ss s c node :
  make_servers p chain nodes = Ret ss → s ∈ ss → s_Handler s = TunHandler c node → c = chain.
Proof.
  revert ss. induction nodes as [|n nodes IH]; intros ss E Hs Hh; cbn in E.
  { injection E as <-. by apply not_elem_of_nil in Hs. }
  apply outcome_bind_Ret in E as (s1 & E1 & E). apply outcome_bind_Ret in E as (ss' & E2 & [= <-]).
  apply elem_of_cons in Hs as [->|Hs]; [by eapply make_server_chain|by eapply IH].
Qed.

(** The node of a chain that dials a forwarded port. *)
Lemma chain_of_port port : (0 ≤ port)%Z →
  ∃ n, parseChainNode (forward_address port) = Ret n ∧ n_Protocol n = "tcp" ∧ n_Addr n = "127.0.0.1:" +:+ Itoa port.
Proof.
  intros Hp. destruct (ParseNode_chain (Itoa port)) as (n & E & Ha & Hpr & _); [by apply all_chars_Itoa|].
  unfold parseChainNode, forward_address. rewrite E. cbn. by eexists.
Qed.

Lemma parse_pair port remote s :
  (0 < port < 65536)%Z → Count ":"%char s = 0 → ParseUint 16 s = Some remote → remote ≠ 0%Z →
  parse_port (Itoa port +:+ ":" +:+ s) = Ret (MkForwardedPort port remote).
Proof.
  intros Hp Hc Hs Hr. apply parse_port_denotes, denotes_pair; try done.
  - rewrite Itoa_nonneg by lia. apply pretty_N_nonempty.
  - apply Count_Itoa; [done|lia].
  - apply ParseUint_Itoa; lia.
Qed.

Lemma parse_pairs raw tcp udp :
  (0 < raw < 65536)%Z → (0 < tcp < 65536)%Z → (0 < udp < 65536)%Z →
  parsePorts (forward_pairs raw tcp udp) = Ret [MkForwardedPort raw 10800; MkForwardedPort tcp 10801; MkForwardedPort udp 10802].
Proof.
  intros H1 H2 H3. unfold forward_pairs. cbn [parsePorts].
  change (":10800") with (":" +:+ "10800"). change (":10801") with (":" +:+ "10801"). change (":10802") with (":" +:+ "10802").
  rewrite (parse_pair raw 10800), (parse_pair tcp 10801), (parse_pair udp 10802) by (done || (vm_compute; reflexivity) || lia).
  reflexivity.
Qed.

Definition manager_servers : list Node.Server := match ParseRoute manager_process manager_route with Ret ms => ms | _ => [] end.

(** The servers of the manager, by the port they listen on. *)
Lemma manager_servers_listen :
  ParseRoute manager_process manager_route = Ret manager_servers ∧
  (∀ remote, MkServer (TCPListener (":" +:+ Itoa remote)) TCPHandler ∈ manager_servers ↔ Itoa remote = "10800") ∧
  (∀ remote, MkServer (GvisorTCPListener (":" +:+ Itoa remote)) GvisorTCPHandler ∈ manager_servers ↔ Itoa remote = "10801") ∧
  (∀ remote, MkServer (GvisorUDPListener (":" +:+ Itoa remote)) GvisorUDPHandler ∈ manager_servers ↔ Itoa remote = "10802").
Proof.
  split; [vm_compute; reflexivity|].
  assert (∃ s c n, s_Handler s = TunHandler c n ∧
    manager_servers = [MkServer (TCPListener ":10800") TCPHandler; s; MkServer (GvisorTCPListener ":10801") GvisorTCPHandler;
      MkServer (GvisorUDPListener ":10802") GvisorUDPHandler]) as (s & c & n & Hh & ->).
  { eexists _, _, _. split; [|vm_compute; reflexivity]. reflexivity. }
  split_and!; intros r; rewrite !elem_of_cons, elem_of_nil; split.
  all: try (intros ->; tauto).
  all: intros H; destruct_or!; try (exfalso; assumption); try (injection H as H; exact H); try discriminate H.
  all: rewrite <- H in Hh; discriminate Hh.
Qed.

(** A chain to a forwarded port reaches a server exactly when the first pair of the port
    leads to it. *)
Lemma path_iff port remote c ch n fs ms listener handler text :
  c = Some ch → ch_node ch = Some n → n_Protocol n = "tcp" → n_Addr n = "127.0.0.1:" +:+ Itoa port →
  forwarded_to fs port = Some remote →
  (∀ r, MkServer (listener (":" +:+ Itoa r)) handler ∈ ms ↔ Itoa r = text) →
  path c port fs ms listener handler ↔ Itoa remote = text.
Proof.
  intros Hc Hn Hp Ha Hf Hm. rewrite <- Hm. split.
  - intros (? & ? & r & _ & _ & _ & _ & Hr & Hin). congruence.
  - intros Hin. by exists ch, n, remote.
Qed.

Lemma forward_chain_path port remote fs ms listener handler text :
  (0 ≤ port)%Z → forwarded_to fs port = Some remote →
  (∀ r, MkServer (listener (":" +:+ Itoa r)) handler ∈ ms ↔ Itoa r = text) →
  ∃ c, forward_chain (forward_address port) = Ret c ∧ (path c port fs ms listener handler ↔ Itoa remote = text).
Proof.
  intros Hp Hf Hm. destruct (chain_of_port port Hp) as (n & E & Hpr & Ha). unfold parseChainNode in E.
  apply outcome_bind_Ret in E as (n0 & E0 & [= <-]). cbn in Hpr, Ha.
  eexists. split; [unfold forward_chain; rewrite E0; reflexivity|]. by eapply path_iff.
Qed.

(** Which pair the three ports lead to. *)
Lemma forwarded_pairs raw tcp udp :
  let fs := [MkForwardedPort raw 10800; MkForwardedPort tcp 10801; MkForwardedPort udp 10802] in
  forwarded_to fs raw = Some 10800%Z ∧
  forwarded_to fs tcp = Some (if (raw =? tcp)%Z then 10800%Z else 10801%Z) ∧
  forwarded_to fs udp = Some (if (raw =? udp)%Z then 10800%Z else if (tcp =? udp)%Z then 10801%Z else 10802%Z).
Proof.
  cbv zeta. unfold forwarded_to. cbn [find Local]. rewrite !Z.eqb_refl. split; [done|].
  split; [by destruct (raw =? tcp)%Z|]. by destruct (raw =? udp)%Z; [|destruct (tcp =? udp)%Z].
Qed.


(** *** A connection *)

Definition example_wired : Process * outcome wiring :=
  connect_ports (Ret 40001%Z) (Ret 40002%Z) (Ret 40003%Z) (λ _, None) false (λ l, l) (MkProcess ∅ working_os (λ _, None)) example_serve false.
Definition example_wiring : wiring := match snd example_wired with Ret w => w | _ => MkWiring [] "" "" [] end.

Lemma example_wired_ok : example_wired = (fst example_wired, Ret example_wiring).
Proof. vm_compute. reflexivity. Qed.

