(* ===== verification/Streams.v ===== *)
(** * Forwarded connections: port forwarding, SSH tunnels, attached containers

    The other places that copy between two streams, each with its own way to end:
    - [PortConn]: [pkg/util/portforward.go:handleConnection], one local connection over
      two streams of the connection to the pod, and [waitForConnection];
    - [SshTunnel]: [pkg/util/ssh.go:Main] and [handleClient], the local port of an SSH
      jump host;
    - [Hijack]: [pkg/dev/hijack.go], the terminal attached to a container.
    The goroutines that copy are those of [Relay]. *)
From Stdlib Require Import ZArith Lia.
From Stdlib Require Import Strings.Byte.
From stdpp Require Import base strings relations numbers list.
From S2P Require Import Prelude GoStrings Framing Relay.

(** [io.Copy] as every function here uses it. *)
Definition Copy_policy : policy := MkPolicy false false true.

(** A call of [io.Copy(dst, src)]: a step of its goroutine. *)
Definition copy (src dst : socket) (c : copier) : option (socket * socket * copier) := copy_step Copy_policy false src dst c.

Module PortConn.

(** The goroutine that reads the error stream: reading, blocked in sending its message to
    the unbuffered [errorChan], or done with the channel closed. *)
Inductive errors := EReading | ESending (msg : string) | EClosed.

(** Why the [select] went on. *)
Inductive reason := RemoteDone | LocalError | Stopped.

Record pconn := MkPconn {
  pc_conn : socket; pc_data : socket;         (* the local connection, the data stream *)
  pc_up : copier; pc_down : copier;           (* local -> remote, remote -> local *)
  pc_data_closed : bool;                      (* [dataStream.Close()] was called *)
  pc_errors : errors; pc_stop : bool;         (* [stopChan] is closed *)
  pc_main : option reason;
  pc_reported : list string;                  (* [runtime.HandleError] *)
  pc_errChan : option string }.               (* [pf.errChan], of capacity one *)

Definition opened : pconn := MkPconn fresh fresh CRead CRead false EReading false None [] None.

Inductive port_event :=
  | PUp | PDown
  | PErrors (msg : option string)   (* [io.ReadAll] of the error stream returns *)
  | PStop | PSelect (r : reason)
  | PPeer (s : side) (ev : event).  (* A is the local connection, B the data stream *)

(** The error text contains "use of closed network connection". *)
Definition is_closed (e : error) : bool := bool_decide (e = ErrClosed).

Definition select_ready (c : pconn) (r : reason) : bool :=
  match r with
  | RemoteDone => match pc_down c with CDone _ => true | _ => false end
  | LocalError => match pc_up c with CDone (Some e) => negb (is_closed e) | _ => false end
  | Stopped => pc_stop c
  end.

Definition copy_report (what : string) (c : copier) : list string :=
  match c with CDone (Some e) => if is_closed e then [] else [what] | _ => [] end.

(** The end of [handleConnection]: the second [select] with its default, the report, and
    the deferred [conn.Close()]. *)
Definition finish (c : pconn) (r : reason) : pconn :=
  let lost := match r with Stopped => ["lost connection to pod"] | _ => [] end in
  let err := match pc_errors c with ESending m => Some m | _ => None end in
  let errors := match pc_errors c with ESending _ => EClosed | e => e end in
  let errChan := match err, pc_errChan c with
                 | Some m, None => if Contains m "failed to find socat" then Some m else None
                 | _, old => old
                 end in
  MkPconn (sock_close (pc_conn c)) (pc_data c) (pc_up c) (pc_down c) (pc_data_closed c) errors (pc_stop c)
    (Some r) (pc_reported c ++ lost ++ option_list err) errChan.

Definition port_step (ev : port_event) (c : pconn) : option pconn :=
  match ev with
  | PUp =>
      '(a, b, k) ← copy (pc_conn c) (pc_data c) (pc_up c);
      let over := match k with CDone _ => true | _ => pc_data_closed c end in
      Some (MkPconn a b k (pc_down c) over (pc_errors c) (pc_stop c) (pc_main c)
              (pc_reported c ++ copy_report "error copying from local connection to remote stream" k) (pc_errChan c))
  | PDown =>
      '(b, a, k) ← copy (pc_data c) (pc_conn c) (pc_down c);
      Some (MkPconn a b (pc_up c) k (pc_data_closed c) (pc_errors c) (pc_stop c) (pc_main c)
              (pc_reported c ++ copy_report "error copying from remote stream to local connection" k) (pc_errChan c))
  | PErrors msg =>
      match pc_errors c with
      | EReading => Some (MkPconn (pc_conn c) (pc_data c) (pc_up c) (pc_down c) (pc_data_closed c)
                            (match msg with Some m => ESending m | None => EClosed end)
                            (pc_stop c) (pc_main c) (pc_reported c) (pc_errChan c))
      | _ => None
      end
  | PStop => Some (MkPconn (pc_conn c) (pc_data c) (pc_up c) (pc_down c) (pc_data_closed c) (pc_errors c) true
                     (pc_main c) (pc_reported c) (pc_errChan c))
  | PSelect r =>
      if bool_decide (pc_main c = None) && select_ready c r then Some (finish c r) else None
  | PPeer A ev => k ← peer_step ev (pc_conn c);
      Some (MkPconn k (pc_data c) (pc_up c) (pc_down c) (pc_data_closed c) (pc_errors c) (pc_stop c) (pc_main c) (pc_reported c) (pc_errChan c))
  | PPeer B ev => k ← peer_step ev (pc_data c);
      Some (MkPconn (pc_conn c) k (pc_up c) (pc_down c) (pc_data_closed c) (pc_errors c) (pc_stop c) (pc_main c) (pc_reported c) (pc_errChan c))
  end.

Fixpoint port_run (evs : list port_event) (c : pconn) : option pconn :=
  match evs with [] => Some c | ev :: evs => c ← port_step ev c; port_run evs c end.

(** [waitForConnection]: one handler per accepted connection, until [Accept] fails; the
    report unless the listener was closed. *)
Fixpoint waitForConnection (accepts : list (outcome nat)) : list nat * list error :=
  match accepts with
  | Ret conn :: rest => let '(l, e) := waitForConnection rest in (conn :: l, e)
  | Fail e :: _ => ([], if is_closed e then [] else [e])
  | _ => ([], [])
  end.

#[global] Instance reason_eq_dec : EqDecision reason.
Proof. solve_decision. Defined.

(** ** Invariant *)

Definition inv (c : pconn) : Prop :=
  dir_inv (pc_conn c) (pc_data c) (pc_up c) ∧ dir_inv (pc_data c) (pc_conn c) (pc_down c) ∧
  (pc_data_closed c = true ↔ ∃ e, pc_up c = CDone e) ∧
  (∀ r, pc_main c = Some r → select_ready c r) ∧
  (pc_main c = None → closed (pc_conn c) = false) ∧ closed (pc_data c) = false.

Lemma peer_step_closed ev k k' : peer_step ev k = Some k' → closed k' = closed k.
Proof. destruct ev; cbn; intros; repeat case_bool_decide; by simplify_eq. Qed.

Lemma port_step_inv ev c c' : inv c → port_step ev c = Some c' → inv c'.
Proof.
  intros (Hu & Hd & Hc & Hm & Ho & Hdc) E. unfold inv.
  destruct ev as [| |msg| |r|[] ev]; cbn [port_step] in E.
  - apply bind_Some in E as ([[a b] k] & E & [= <-]). cbn. unfold copy in E.
    pose proof (copy_step_closed _ _ _ _ _ _ _ _ E) as [-> ->].
    pose proof (copy_step_not_done _ _ _ _ _ _ E) as Hn.
    split_and!; [exact (copy_step_dir _ _ _ _ _ _ _ _ Hu E)|exact (copy_step_other _ _ _ _ _ _ _ _ _ E Hd)| | |done|done].
    + destruct k; (split; [|by intros [e [=]]]); intros H; [..|by eexists|]; apply Hc in H as [e He]; by destruct (Hn e).
    + intros r Hr. specialize (Hm r Hr). destruct r; cbn in *; [done| |done].
      by destruct (pc_up c).
  - apply bind_Some in E as ([[b a] k] & E & [= <-]). cbn. unfold copy in E.
    pose proof (copy_step_closed _ _ _ _ _ _ _ _ E) as [-> ->].
    pose proof (copy_step_not_done _ _ _ _ _ _ E) as Hn.
    split_and!; [exact (copy_step_other _ _ _ _ _ _ _ _ _ E Hu)|exact (copy_step_dir _ _ _ _ _ _ _ _ Hd E)|done| |done|done].
    intros r Hr. specialize (Hm r Hr). destruct r; cbn in *; [|done|done].
    by destruct (pc_down c).
  - destruct (pc_errors c); simplify_eq. done.
  - simplify_eq. split_and!; try done. intros r Hr. specialize (Hm r Hr). by destruct r.
  - case_bool_decide as Hn; [|done].
    destruct (select_ready c r) eqn:Er; cbn [andb] in E; simplify_eq. cbn.
    split_and!; [| | | |done|done].
    + eapply dir_inv_same; [done|by repeat split; auto|done].
    + eapply dir_inv_same; [done|by repeat split; auto|done].
    + done.
    + intros r' [= <-]. apply Is_true_true. by destruct r.
  - apply bind_Some in E as (k & E & [= <-]). cbn. rewrite (peer_step_closed _ _ _ E).
    split_and!; [by eapply peer_step_dir| |done|done|done|done].
    eapply dir_inv_same; [done|by repeat split; auto|by eapply peer_step_sent].
  - apply bind_Some in E as (k & E & [= <-]). cbn. rewrite (peer_step_closed _ _ _ E).
    split_and!; [|by eapply peer_step_dir|done|done|done|done].
    eapply dir_inv_same; [done|by repeat split; auto|by eapply peer_step_sent].
Qed.

Lemma port_run_inv evs c : port_run evs opened = Some c → inv c.
Proof.
  assert (∀ c0, inv c0 → port_run evs c0 = Some c → inv c) as H.
  { induction evs as [|ev evs IH]; intros c0 Hi E; [by unfold port_run in E; simplify_eq|].
    cbn in E. apply bind_Some in E as (c1 & E1 & E). eauto using port_step_inv. }
  apply H. unfold inv. cbn. split_and!; try done; naive_solver.
Qed.

(** A forwarded connection, in every run: each side has received a prefix of what the
    other one sent; the end of the local side's data alone ends nothing, the pod is told
    (its stream is closed for sending, after all of the data) and the connection goes on;
    [handleConnection] returns only when the pod's data has ended or failed, when copying
    to the pod has failed, or when forwarding stops; and when the pod's data has ended
    without an error, all of it has been passed on. *)
Lemma handleConnection_ends evs c :
  port_run evs opened = Some c →
  (concat (sent (pc_data c)) `prefix_of` concat (got (pc_conn c)) ∧
   concat (sent (pc_conn c)) `prefix_of` concat (got (pc_data c))) ∧
  (pc_up c = CDone None → pc_data_closed c = true ∧ concat (sent (pc_data c)) = concat (got (pc_conn c))) ∧
  (∀ r, pc_main c = Some r →
    match r with
    | RemoteDone => ∃ e, pc_down c = CDone e
    | LocalError => ∃ e, pc_up c = CDone (Some e) ∧ e ≠ ErrClosed
    | Stopped => pc_stop c = true
    end) ∧
  (pc_down c = CDone None → concat (sent (pc_conn c)) = concat (got (pc_data c)) ∧ incoming (pc_data c) = Some EOF).
Proof.
  intros (Hu & Hd & Hc & Hm & _)%port_run_inv. split; [by eauto using dir_inv_bytes|]. split_and!.
  - intros E. rewrite E in Hu. destruct Hu as (Hg & _ & _). split; [apply Hc; by eexists|].
    by rewrite <-Hg, concat_nonempty.
  - intros r Hr. specialize (Hm r Hr). destruct r; cbn in Hm.
    + destruct (pc_down c); try done. by eexists.
    + destruct (pc_up c) as [| |[e|]|]; try done. exists e. split; [done|]. intros ->.
      unfold is_closed in Hm. by rewrite bool_decide_true in Hm.
    + by apply Is_true_true.
  - intros E. rewrite E in Hd. destruct Hd as (Hg & _ & Hi). split; [by rewrite <-Hg, concat_nonempty|done].
Qed.

(** The report of the pod's error stream is lost when its reader is not yet waiting as
    the data ends, and the reader then blocks for ever. *)
Lemma error_report_lost :
  ∃ c, port_run [PPeer B (Finish B EOF); PDown; PSelect RemoteDone; PErrors (Some "failed to find socat")] opened = Some c ∧
    pc_errChan c = None ∧ pc_reported c = [] ∧ pc_errors c = ESending "failed to find socat".
Proof. eexists. split; [vm_compute; reflexivity|]. done. Qed.

End PortConn.

Module SshTunnel.

(** A connection accepted on the local port: its goroutine dials the endpoint through the
    SSH client, then [handleClient] relays. *)
Inductive link := Dialling | Tunnelled (r : relay_state) | Refused.

(** Where [Main] is: before the look at its context, in [Accept], or back. *)
Inductive main_state := LoopHead | Accepting | Returned (e : error).

Record tunnel := MkTunnel { tn_cancelled : bool; tn_main : main_state; tn_links : list link }.

(** [handleClient] and the deferred [conn.Close()], [local.Close()]. *)
Definition handleClient_policy : policy := MkPolicy false false true.

(** The start of [Main]: the SSH client, the listener, the [done] signal; and whether the
    SSH client is left open, which nothing closes. *)
Definition Main_start (sshClient : outcome unit) (listen : option error) : outcome tunnel * bool * bool :=
  match sshClient with
  | Ret _ => match listen with
             | Some e => (Fail e, false, true)
             | None => (Ret (MkTunnel false LoopHead []), true, true)
             end
  | Fail e => (Fail e, false, false)
  | Panic => (Panic, false, false)
  end.

Inductive tevent :=
  | Look | Accept (e : option error) | Dialled (i : nat) (e : option error)
  | Relayed (i : nat) (ev : event) | Cancel.

Definition tunnel_step (ev : tevent) (t : tunnel) : option tunnel :=
  match ev with
  | Look => match tn_main t with
            | LoopHead => Some (MkTunnel (tn_cancelled t) (if tn_cancelled t then Returned ctx_err else Accepting) (tn_links t))
            | _ => None
            end
  | Accept e => match tn_main t with
                | Accepting => Some (match e with
                                     | Some e => MkTunnel true (Returned e) (tn_links t) (* the deferred [cancelFunc] *)
                                     | None => MkTunnel (tn_cancelled t) LoopHead (tn_links t ++ [Dialling])
                                     end)
                | _ => None
                end
  | Dialled i e =>
      match tn_links t !! i with
      | Some Dialling => Some (match e with
                               | Some _ => MkTunnel true (tn_main t) (<[i := Refused]> (tn_links t))
                               | None => MkTunnel (tn_cancelled t) (tn_main t) (<[i := Tunnelled (relay_start fresh fresh)]> (tn_links t))
                               end)
      | _ => None
      end
  | Relayed i ev =>
      match tn_links t !! i with
      | Some (Tunnelled r) => r ← Relay.step handleClient_policy ev r;
          Some (MkTunnel (tn_cancelled t) (tn_main t) (<[i := Tunnelled r]> (tn_links t)))
      | _ => None
      end
  | Cancel => Some (MkTunnel true (tn_main t) (tn_links t))
  end.

Fixpoint tunnel_run (evs : list tevent) (t : tunnel) : option tunnel :=
  match evs with [] => Some t | ev :: evs => t ← tunnel_step ev t; tunnel_run evs t end.

(** ** Invariant *)

Definition link_ok (cancelled : bool) (l : link) : Prop :=
  match l with Dialling => True | Tunnelled r => relay_inv r | Refused => cancelled = true end.

Definition inv (t : tunnel) : Prop := Forall (link_ok (tn_cancelled t)) (tn_links t).

Lemma link_ok_cancel b l : link_ok b l → link_ok true l.
Proof. by destruct l. Qed.

Lemma tunnel_step_inv ev t t' : inv t → tunnel_step ev t = Some t' → inv t'.
Proof.
  unfold inv. intros Hi E. destruct ev as [|e|i e|i ev|]; cbn [tunnel_step] in E.
  - destruct (tn_main t); by simplify_eq.
  - destruct (tn_main t); simplify_eq. destruct e; cbn.
    + eauto using Forall_impl, link_ok_cancel.
    + apply Forall_app. by repeat constructor.
  - destruct (tn_links t !! i) as [[]|] eqn:El; simplify_eq. destruct e; cbn; apply Forall_insert; try done.
    eauto using Forall_impl, link_ok_cancel.
  - destruct (tn_links t !! i) as [[]|] eqn:El; try done. apply bind_Some in E as (r' & E & [= <-]). cbn.
    apply Forall_insert; [done|]. eapply Relay.step_inv; [|done].
    exact (Forall_lookup_1 _ _ _ _ Hi El).
  - simplify_eq. cbn. eauto using Forall_impl, link_ok_cancel.
Qed.

(** How many connections a tunnel can still accept once its context is cancelled. *)
Definition allowance (m : main_state) : nat := match m with Accepting => 1 | _ => 0 end.

Lemma step_allowance ev t t' :
  tn_cancelled t = true → tunnel_step ev t = Some t' →
  tn_cancelled t' = true ∧
  length (tn_links t') + allowance (tn_main t') ≤ length (tn_links t) + allowance (tn_main t).
Proof.
  intros Hc E. destruct ev as [|e|i e|i ev|]; cbn [tunnel_step] in E.
  - destruct (tn_main t); simplify_eq. rewrite Hc. cbn. split; [done|lia].
  - destruct (tn_main t); simplify_eq. destruct e; cbn; rewrite ?length_app; cbn; split; (done || lia).
  - destruct (tn_links t !! i) as [[]|]; simplify_eq. destruct e; cbn; rewrite length_insert; split; (done || lia).
  - destruct (tn_links t !! i) as [[]|]; try done. apply bind_Some in E as (r' & _ & [= <-]). cbn.
    rewrite length_insert. split; (done || lia).
  - simplify_eq. cbn. split; [done|lia].
Qed.

(** The local port of a jump host: every connection it relays has received on each side a
    prefix of what the other side sent; a connection that could not be dialled has
    cancelled the tunnel; and a tunnel whose context is cancelled accepts at most one more
    connection, the one [Accept] was waiting for. *)
Lemma ssh_tunnel_links evs t :
  tunnel_run evs (MkTunnel false LoopHead []) = Some t →
  (∀ i r, tn_links t !! i = Some (Tunnelled r) →
    concat (sent (rb r)) `prefix_of` concat (got (ra r)) ∧ concat (sent (ra r)) `prefix_of` concat (got (rb r))) ∧
  (Refused ∈ tn_links t → tn_cancelled t = true) ∧
  (tn_cancelled t = true → ∀ evs' t', tunnel_run evs' t = Some t' → length (tn_links t') ≤ S (length (tn_links t))).
Proof.
  intros Hr.
  assert (inv t) as Hi.
  { assert (∀ t0, inv t0 → tunnel_run evs t0 = Some t → inv t) as H; [|by apply (H (MkTunnel false LoopHead []) (List.Forall_nil _) Hr)].
    clear. induction evs as [|ev evs IH]; intros t0 Hi E; [by unfold tunnel_run in E; simplify_eq|].
    cbn in E. apply bind_Some in E as (t1 & E1 & E). eauto using tunnel_step_inv. }
  split_and!.
  - intros i r Hl. pose proof (Forall_lookup_1 _ _ _ _ Hi Hl) as [Hu Hd]. eauto using dir_inv_bytes.
  - intros Hin. exact (proj1 (Forall_forall _ _) Hi _ Hin).
  - intros Hc evs' t' E.
    assert (∀ t0, tn_cancelled t0 = true → tunnel_run evs' t0 = Some t' →
      length (tn_links t') + allowance (tn_main t') ≤ length (tn_links t0) + allowance (tn_main t0)) as H.
    { clear. induction evs' as [|ev evs IH]; intros t0 Hc E; [by unfold tunnel_run in E; simplify_eq|].
      cbn in E. apply bind_Some in E as (t1 & E1 & E).
      destruct (step_allowance _ _ _ Hc E1) as [Hc1 H1]. specialize (IH t1 Hc1 E). lia. }
    specialize (H t Hc E). destruct (tn_main t); cbn in H; lia.
Qed.

End SshTunnel.

Module Hijack.

(** What the streamer was given: an input stream, an output stream, an error stream, a
    terminal. *)
Record streamer := MkStreamer { h_input : bool; h_output : bool; h_error : bool; h_tty : bool; h_detachKeys : string }.

(** The state of the terminal: input and output raw, how often it was restored, how often
    the input stream was closed. *)
Record terminal := MkTerminal { in_raw : bool; out_raw : bool; restored : nat; in_closed : nat }.
Definition cooked : terminal := MkTerminal false false 0 0.

Definition defaultEscapeKeys : list Z := [16; 17]%Z.

(** [setRawTerminal]: the input first; an error of the output leaves the input raw. *)
Definition setRawTerminal (in_err out_err : option error) (t : terminal) : terminal * option error :=
  match in_err with
  | Some e => (t, Some e)
  | None => match out_err with
            | Some e => (MkTerminal true (out_raw t) (restored t) (in_closed t), Some e)
            | None => (MkTerminal true true (restored t) (in_closed t), None)
            end
  end.

(** [restoreTerminal]; [unix]: neither darwin nor windows, where the input is not closed. *)
Definition restoreTerminal (unix : bool) (t : terminal) : terminal :=
  MkTerminal false false (S (restored t)) (if unix then S (in_closed t) else in_closed t).

(** The keys to look for; [ToBytes] is the parser of the terminal library. *)
Definition escape_keys (ToBytes : string → option (list Z)) (h : streamer) : list Z :=
  if bool_decide (h_detachKeys h = EmptyString) then defaultEscapeKeys
  else default defaultEscapeKeys (ToBytes (h_detachKeys h)).

(** [setupInput]: the terminal, and whether the restore function does anything. *)
Definition setupInput (h : streamer) (in_err out_err : option error) : terminal * outcome bool :=
  if negb (h_input h) || negb (h_tty h) then (cooked, Ret false)
  else match setRawTerminal in_err out_err cooked with
       | (t, Some e) => (t, Fail (ErrorfV "unable to set IO streams as raw terminal" e))
       | (t, None) => (t, Ret true)
       end.

(** The goroutine of an output stream: absent, copying, blocked in sending its result, or
    done; that of the input: copying, blocked in sending the escape, or done with
    [inputDone] closed. *)
Inductive out_state := ONone | OCopying | OSending (e : option error) | OGone.
Inductive in_state := ICopying | IDetaching (e : error) | IDone | IGone.
Inductive main_state := Selecting | Draining | Returned (e : option error).

Record session := MkSession {
  s_term : terminal; s_once : bool; s_out : out_state; s_in : in_state; s_eof : bool; s_ctx : option error; s_main : main_state }.

Inductive hevent :=
  | InputEnd (detach : option error)   (* [io.Copy] of the input returned, with the escape error or not *)
  | OutputEnd (e : option error)
  | Cancelled (e : error)
  | TakeOutput | TakeInput | TakeDetached | TakeCtx.

Section Run.
Context (h : streamer) (needed unix : bool).

(** [beginOutputStream], [beginInputStream]. *)
Definition begin_streams (t : terminal) : session :=
  MkSession t false (if h_output h || h_error h then OCopying else ONone) ICopying false None Selecting.

(** The restore function: at most once. *)
Definition restoreInput (s : session) : session :=
  if negb needed || s_once s then s
  else MkSession (restoreTerminal unix (s_term s)) true (s_out s) (s_in s) (s_eof s) (s_ctx s) (s_main s).

Definition with_in (s : session) (i : in_state) (eof : bool) : session :=
  MkSession (s_term s) (s_once s) (s_out s) i eof (s_ctx s) (s_main s).
Definition with_out (s : session) (o : out_state) : session :=
  MkSession (s_term s) (s_once s) o (s_in s) (s_eof s) (s_ctx s) (s_main s).
Definition with_main (s : session) (m : main_state) : session :=
  MkSession (s_term s) (s_once s) (s_out s) (s_in s) (s_eof s) (s_ctx s) m.

(** [return] runs the deferred restore. *)
Definition return_ (s : session) (e : option error) : session := with_main (restoreInput s) (Returned e).

Definition hstep (ev : hevent) (s : session) : option session :=
  match ev with
  | InputEnd detach =>
      match s_in s with
      | ICopying =>
          if h_input h then
            let s := restoreInput s in
            Some (match detach with
                  | Some e => with_in s (IDetaching e) (s_eof s)
                  | None => with_in s IDone true
                  end)
          else match detach with None => Some (with_in s IDone true) | Some _ => None end
      | _ => None
      end
  | OutputEnd e =>
      match s_out s with
      | OCopying => Some (with_out (if h_output h && h_tty h then restoreInput s else s) (OSending e))
      | _ => None
      end
  | Cancelled e => match s_ctx s with
                   | None => Some (MkSession (s_term s) (s_once s) (s_out s) (s_in s) (s_eof s) (Some e) (s_main s))
                   | Some _ => None
                   end
  | TakeOutput =>
      match s_out s, s_main s with
      | OSending e, (Selecting | Draining) => Some (return_ (with_out s OGone) e)
      | _, _ => None
      end
  | TakeInput =>
      match s_in s, s_main s with
      | IDone, Selecting => if h_output h || h_error h then Some (with_main s Draining) else Some (return_ s None)
      | _, _ => None
      end
  | TakeDetached =>
      match s_in s, s_main s with
      | IDetaching e, Selecting => Some (return_ (with_in s IGone (s_eof s)) (Some e))
      | _, _ => None
      end
  | TakeCtx =>
      match s_ctx s, s_main s with
      | Some e, (Selecting | Draining) => Some (return_ s (Some e))
      | _, _ => None
      end
  end.

Fixpoint hrun (evs : list hevent) (s : session) : option session :=
  match evs with [] => Some s | ev :: evs => s ← hstep ev s; hrun evs s end.

End Run.

(** [stream]: set up, then the session. *)
Definition attach_stream (h : streamer) (in_err out_err : option error) (unix : bool) (evs : list hevent) : option session + terminal * error :=
  match setupInput h in_err out_err with
  | (t, Ret needed) => inl (hrun h needed unix evs (begin_streams h t))
  | (t, Fail e) => inr (t, ErrorfV "unable to setup input stream" e)
  | (t, Panic) => inl None
  end.

(** ** Properties of a session *)

Definition inv (h : streamer) (needed : bool) (s : session) : Prop :=
  (restored (s_term s) = if needed && s_once s then 1 else 0) ∧
  (needed = false → in_raw (s_term s) = false ∧ out_raw (s_term s) = false) ∧
  (s_once s = true → in_raw (s_term s) = false ∧ out_raw (s_term s) = false) ∧
  (∀ e, s_main s = Returned e →
    (needed = true → s_once s = true) ∧
    (s_out s = OGone ∨ s_ctx s = e ∧ is_Some e ∨ s_in s = IGone ∨ (h_output h || h_error h) = false)) ∧
  (s_main s = Draining → s_in s = IDone) ∧
  (s_out s = OGone → ∃ e, s_main s = Returned e).

Lemma restoreInput_inv h needed unix s : inv h needed s → inv h needed (restoreInput needed unix s).
Proof.
  unfold restoreInput. intros Hi. destruct needed; [|done]. destruct (s_once s) eqn:E; [by cbn|].
  destruct Hi as (H1 & H2 & H3 & H4 & H5 & H6). rewrite E in H1. cbn in *.
  unfold inv. cbn. rewrite H1. split_and!; try done. intros e He. split; [done|]. apply (H4 e He).
Qed.

Lemma restoreInput_fields needed unix s :
  s_out (restoreInput needed unix s) = s_out s ∧ s_in (restoreInput needed unix s) = s_in s ∧
  s_ctx (restoreInput needed unix s) = s_ctx s ∧ s_main (restoreInput needed unix s) = s_main s ∧
  (needed = true → s_once (restoreInput needed unix s) = true).
Proof.
  unfold restoreInput. destruct needed, (s_once s) eqn:E; cbn; rewrite ?E; done.
Qed.

Lemma with_in_inv h needed s i eof : inv h needed s → s_in s = ICopying → inv h needed (with_in s i eof).
Proof.
  intros (H1 & H2 & H3 & H4 & H5 & H6) Hi. unfold inv. cbn. split_and!; try done.
  - intros e He. destruct (H4 e He) as [? [?|[?|[?|?]]]]; auto. congruence.
  - intros Hd. specialize (H5 Hd). congruence.
Qed.

Lemma with_out_inv h needed s e : inv h needed s → s_out s = OCopying → inv h needed (with_out s (OSending e)).
Proof.
  intros (H1 & H2 & H3 & H4 & H5 & H6) Ho. unfold inv. cbn. split_and!; try done.
  intros e' He. destruct (H4 e' He) as [? [?|[?|[?|?]]]]; auto. congruence.
Qed.

(** [return] from a session that has not returned, with a reason. *)
Lemma return_inv h needed unix s o i e :
  inv h needed s → (∀ e, s_main s ≠ Returned e) →
  o = OGone ∨ o = s_out s ∧ (s_ctx s = e ∧ is_Some e ∨ i = IGone ∨ (h_output h || h_error h) = false) →
  inv h needed (return_ needed unix (MkSession (s_term s) (s_once s) o i (s_eof s) (s_ctx s) (s_main s)) e).
Proof.
  intros Hi Hm Hr. unfold return_.
  set (s1 := MkSession _ _ _ _ _ _ _).
  destruct (restoreInput_fields needed unix s1) as (F1 & F2 & F3 & F4 & F5).
  destruct Hi as (H1 & H2 & H3 & H4 & H5 & H6).
  assert (restored (s_term (restoreInput needed unix s1)) = if needed && s_once (restoreInput needed unix s1) then 1 else 0) as R1.
  { unfold restoreInput. destruct needed; [|by cbn in *]. cbn. destruct (s_once s) eqn:E; cbn in *; by rewrite ?E, H1. }
  assert (in_raw (s_term (restoreInput needed unix s1)) = false ∧ out_raw (s_term (restoreInput needed unix s1)) = false) as R2.
  { unfold restoreInput. destruct needed; [|by apply H2]. cbn. destruct (s_once s) eqn:E; cbn; [by apply H3|done]. }
  unfold inv. cbn. rewrite F1, F2, F3. split_and!; try done; [|by eauto].
  intros e' [= <-]. split; [done|]. cbn. destruct Hr as [-> |[-> [?|[->|?]]]]; auto.
Qed.

Lemma return_same h needed unix s e :
  inv h needed s → (∀ e, s_main s ≠ Returned e) →
  s_ctx s = e ∧ is_Some e ∨ (h_output h || h_error h) = false → inv h needed (return_ needed unix s e).
Proof.
  intros Hi Hm Hr. destruct s as [t o out i eof ctx m].
  apply (return_inv h needed unix (MkSession t o out i eof ctx m) out i e); [done|done|]. naive_solver.
Qed.

Lemma hstep_inv h needed unix ev s s' : inv h needed s → hstep h needed unix ev s = Some s' → inv h needed s'.
Proof.
  intros Hi E. pose proof (restoreInput_inv h needed unix s Hi) as Hr.
  destruct (restoreInput_fields needed unix s) as (F1 & F2 & _).
  destruct ev as [d|e|e| | | |]; cbn [hstep] in E.
  - destruct (s_in s) eqn:Es; try done.
    destruct (h_input h), d; simplify_eq; apply with_in_inv; by rewrite ?F2.
  - destruct (s_out s) eqn:Es; try done. simplify_eq.
    destruct (_ && _); apply with_out_inv; by rewrite ?F1.
  - destruct (s_ctx s) eqn:Es; simplify_eq.
    destruct Hi as (H1 & H2 & H3 & H4 & H5 & H6). unfold inv. cbn. split_and!; try done.
    intros e' He. destruct (H4 e' He) as [? [?|[[? Hn]|[?|?]]]]; auto.
    rewrite Es in *. subst. by destruct Hn.
  - destruct (s_out s) eqn:Es; try done. destruct (s_main s) eqn:Em; simplify_eq;
      (apply (return_inv h needed unix s OGone (s_in s)); [done|by rewrite Em|by left]).
  - destruct (s_in s) eqn:Es; try done. destruct (s_main s) eqn:Em; try done.
    destruct (h_output h || h_error h) eqn:Eo; simplify_eq.
    + destruct Hi as (H1 & H2 & H3 & H4 & H5 & H6). unfold inv. cbn. split_and!; try done.
      intros Hg. destruct (H6 Hg) as [e He]. congruence.
    + apply return_same; [done|by rewrite Em|by right].
  - destruct (s_in s) eqn:Es; try done. destruct (s_main s) eqn:Em; simplify_eq.
    apply (return_inv h needed unix s (s_out s) IGone); [done|by rewrite Em|auto].
  - destruct (s_ctx s) as [e|] eqn:Es; try done. destruct (s_main s) eqn:Em; simplify_eq;
      (apply return_same; [done|by rewrite Em|]; left; by split; [|eexists]).
Qed.

(** An attached terminal: in every session the terminal is restored at most once, and it
    is restored when [stream] returns, on every path; and [stream] returns only when all
    output has been copied, when the user detached, when the context was cancelled, or
    when there is no output to copy. *)
Lemma stream_restores h in_err out_err unix evs s :
  attach_stream h in_err out_err unix evs = inl (Some s) →
  restored (s_term s) ≤ 1 ∧
  ∀ e, s_main s = Returned e →
    (in_raw (s_term s) = false ∧ out_raw (s_term s) = false) ∧
    (s_out s = OGone ∨ s_ctx s = e ∧ is_Some e ∨ s_in s = IGone ∨ (h_output h || h_error h) = false).
Proof.
  unfold attach_stream. destruct (setupInput h in_err out_err) as [t [needed| |]] eqn:Es; try done. intros [= E].
  assert (inv h needed (begin_streams h t)) as H0.
  { unfold inv, setupInput, setRawTerminal in *. repeat case_match; simplify_eq; cbn; split_and!; try done;
      destruct (h_output h || h_error h); naive_solver. }
  assert (inv h needed s) as (H1 & H2 & H3 & H4 & _).
  { revert H0 E. generalize (begin_streams h t). induction evs as [|ev evs IH]; intros s0 Hi E.
    - unfold hrun in E. by simplify_eq.
    - cbn in E. apply bind_Some in E as (s1 & E1 & E). eauto using hstep_inv. }
  split; [rewrite H1; destruct (_ && _); lia|]. intros e He. destruct (H4 e He) as [Ho Hr].
  split; [|done]. destruct needed; [by apply H3, Ho|by apply H2].
Qed.

(** When only the output cannot be made raw, [stream] fails and leaves the input raw. *)
Lemma setup_leaves_raw h e :
  h_input h = true → h_tty h = true →
  ∃ t, attach_stream h None (Some e) true [] = inr (t, ErrorfV "unable to setup input stream"
    (ErrorfV "unable to set IO streams as raw terminal" e)) ∧ in_raw t = true ∧ restored t = 0.
Proof. intros Hi Ht. unfold attach_stream, setupInput. rewrite Hi, Ht. cbn. by eexists. Qed.

End Hijack.
