(* ===== verification/DevWait.v ===== *)
(** * Waiting for containers in development mode

    [pkg/dev/utils.go] and the rest of [pkg/dev/main.go], [dockerrun.go] and
    [dockercreate.go]: the goroutine that turns the end of a container into an exit code,
    for current and for old daemons; [parallelOperation], which runs an operation on many
    containers at a time and reports the results in order, and [runKill], which uses it;
    following the logs of the container that connects until it says it has; attaching
    the terminal; the small helpers around them. *)
From Stdlib Require Import ZArith Lia Ascii.
From stdpp Require Import base gmap strings relations numbers list.
From S2P Require Import Prelude GoStrings GoNet Relay Streams.

(** ** The exit code of a container *)

(** What [ContainerWait] delivers: a result with its error message or its code, or an
    error of the call. *)
Inductive wait_result := Result (error : option string) (code : Z) | WaitError (e : error).

Definition wait_status (r : wait_result) : Z :=
  match r with
  | Result (Some _) _ => 125
  | Result None code => code
  | WaitError _ => 125
  end.

Definition wait_condition (waitRemove : bool) : string := if waitRemove then "removed" else "next-exit".

(** An event of the container ([Status], and the exit code of its attributes), the end of
    the events, or the cancelled context. *)
Inductive cevent := Die (exitCode : option string) | Detach | Destroy | OtherEvent | EventError (e : error)
  | RemoveFailed   (* client-side removal failed and cancelled the events *)
  | CtxDone.

Record legacy := MkLegacy { l_code : Z; l_removeErr : bool }.

(** One turn of the loop: the state, and whether it ends (and sends the code). *)
Definition legacy_step (waitRemove : bool) (ev : cevent) (l : legacy) : legacy * bool :=
  match ev with
  | Die v =>
      let code := match v with
                  | Some v => match Atoi v with Some code => code | None => l_code l end
                  | None => l_code l
                  end in
      (MkLegacy code (l_removeErr l), negb waitRemove)
  | Detach => (MkLegacy 0 (l_removeErr l), true)
  | Destroy => (l, true)
  | OtherEvent => (l, false)
  | EventError _ => (l, true)
  | RemoveFailed => (MkLegacy (l_code l) true, false)
  | CtxDone => (l, l_removeErr l)
  end.

(** [legacyWaitExitOrRemoved]: the code it sends, [None] while it waits. *)
Fixpoint legacy_loop (waitRemove : bool) (evs : list cevent) (l : legacy) : option Z :=
  match evs with
  | [] => None
  | ev :: evs => let '(l, stop) := legacy_step waitRemove ev l in
                 if stop then Some (l_code l) else legacy_loop waitRemove evs l
  end.
Definition legacyWaitExitOrRemoved (waitRemove : bool) (evs : list cevent) : option Z :=
  legacy_loop waitRemove evs (MkLegacy 125 false).

(** [waitExitOrRemoved]; [old]: the client's API version is less than 1.30. *)
Definition waitExitOrRemoved (old : bool) (containerID : string) (waitRemove : bool)
    (wait : string → option wait_result) (evs : list cevent) : outcome (option Z) :=
  if bool_decide (containerID = EmptyString) then Panic
  else if old then Ret (legacyWaitExitOrRemoved waitRemove evs)
  else Ret (wait_status <$> wait (wait_condition waitRemove)).

(** Events that do not end the waiting; the code of a death. *)
Definition quiet (ev : cevent) : Prop := ev = OtherEvent ∨ ev = CtxDone.
Definition death_code (v : option string) : Z := default 125%Z (v ≫= Atoi).

Lemma legacy_quiet wr pre evs l :
  Forall quiet pre → l_removeErr l = false → legacy_loop wr (pre ++ evs) l = legacy_loop wr evs l.
Proof.
  intros Hp Hl. induction Hp as [|ev pre [-> | ->] Hp IH]; [done|..]; cbn; rewrite ?Hl; exact IH.
Qed.

(** An old daemon: the code is that of the container's death, sent at once, or, when the
    removal is waited for, when the container is destroyed. *)
Lemma legacy_exit_code pre v mid post :
  Forall quiet pre → Forall quiet mid →
  legacyWaitExitOrRemoved false (pre ++ Die v :: post) = Some (death_code v) ∧
  legacyWaitExitOrRemoved true (pre ++ Die v :: mid ++ Destroy :: post) = Some (death_code v).
Proof.
  intros Hp Hm. unfold legacyWaitExitOrRemoved.
  rewrite !legacy_quiet by done. cbn. rewrite legacy_quiet by done. cbn.
  destruct v as [v|]; [|done]. cbn. by destruct (Atoi v).
Qed.

(** ** [parallelOperation] *)

Definition defaultParallel : nat := 50.

(** [next]: how many goroutines were started; [active]: those that hold the semaphore;
    [output]: the buffered channel of each container; [taken]: how many results the
    collector has taken; [received]: what came out of the result channel. *)
Record pool := MkPool {
  po_next : nat; po_active : list string; po_output : gmap string (option error);
  po_received : list (option error) }.

Definition pool0 : pool := MkPool 0 [] ∅ [].

Section Parallel.
Context (op : string → option error) (containers : list string).

(** [sem <- struct{}{}] and the goroutine; the result to the container's channel, which
    holds one, and [<-sem]; the collector, which hands the result of the next container in
    order to the caller. *)
Inductive pool_step : pool → pool → Prop :=
  | Launch p c :
      containers !! po_next p = Some c → length (po_active p) < defaultParallel →
      pool_step p (MkPool (S (po_next p)) (po_active p ++ [c]) (po_output p) (po_received p))
  | Operate p l1 c l2 :
      po_active p = l1 ++ c :: l2 → po_output p !! c = None →
      pool_step p (MkPool (po_next p) (l1 ++ l2) (<[c := op c]> (po_output p)) (po_received p))
  | Collect p c e :
      containers !! length (po_received p) = Some c → po_output p !! c = Some e →
      pool_step p (MkPool (po_next p) (po_active p) (delete c (po_output p)) (po_received p ++ [e])).

(** Every result of a container is with its goroutine, in its channel or collected. *)
Definition buffered (p : pool) (c : string) : nat := match po_output p !! c with Some _ => 1 | None => 0 end.
Definition count (c : string) (l : list string) : nat := length (filter (c =.) l).

Definition pool_inv (p : pool) : Prop :=
  po_next p ≤ length containers ∧ length (po_active p) ≤ defaultParallel ∧
  po_received p = op <$> take (length (po_received p)) containers ∧
  (∀ c e, po_output p !! c = Some e → e = op c) ∧
  ∀ c, count c (take (po_next p) containers) =
       count c (po_active p) + buffered p c + count c (take (length (po_received p)) containers).

Lemma count_app c l k : count c (l ++ k) = count c l + count c k.
Proof. unfold count. by rewrite filter_app, length_app. Qed.
Lemma count_cons c d l : count c (d :: l) = (if decide (c = d) then 1 else 0) + count c l.
Proof.
  unfold count. destruct (decide (c = d)) as [->|H]; [by rewrite filter_cons_True|].
  by rewrite filter_cons_False.
Qed.

Lemma take_next (n : nat) c : containers !! n = Some c → take (S n) containers = take n containers ++ [c].
Proof. apply take_S_r. Qed.

Lemma pool_step_inv p p' : pool_inv p → pool_step p p' → pool_inv p'.
Proof.
  intros (Hn & Ha & Hr & Ho & Hc) Hs.
  destruct Hs as [p c Hl Hlt|p l1 c l2 Hact Hout|p c e Hl Hout]; unfold pool_inv, buffered in *;
    cbn [po_next po_active po_output po_received].
  - rewrite length_app. cbn [length]. pose proof (lookup_lt_Some _ _ _ Hl). split_and!; [lia|lia|done|done|].
    intros d. rewrite (take_next _ _ Hl), !count_app, Hc. lia.
  - split_and!; [done| |done| |].
    + rewrite Hact, length_app in Ha. cbn in Ha. rewrite length_app. lia.
    + intros d e. destruct (decide (c = d)) as [->|Hd]; [rewrite lookup_insert_eq; naive_solver|].
      rewrite lookup_insert_ne by done. apply Ho.
    + intros d. rewrite Hc, Hact, !count_app, count_cons. destruct (decide (d = c)) as [->|Hd].
      * rewrite Hout, lookup_insert_eq. lia.
      * rewrite lookup_insert_ne by done. lia.
  - apply Ho in Hout as He. subst e. rewrite length_app. cbn [length]. rewrite Nat.add_1_r.
    rewrite (take_next _ _ Hl), fmap_app, <-Hr. split_and!; [done|done|done| |].
    + intros d e. destruct (decide (c = d)) as [->|Hd]; [by rewrite lookup_delete_eq|].
      rewrite lookup_delete_ne by done. apply Ho.
    + intros d. rewrite Hc, count_app, count_cons. change (count d []) with 0. destruct (decide (d = c)) as [->|Hd].
      * rewrite Hout, lookup_delete_eq. lia.
      * rewrite lookup_delete_ne by done. lia.
Qed.

Lemma pool_start_inv : pool_inv pool0.
Proof. unfold pool_inv, pool0, buffered, count. cbn. split_and!; try done; unfold defaultParallel; lia. Qed.

(** The steps that are left. *)
Definition pool_work (p : pool) : nat :=
  3 * (length containers - po_next p) + 2 * length (po_active p) + (length containers - length (po_received p)).

Lemma received_le p : pool_inv p → length (po_received p) ≤ length containers.
Proof.
  intros (_ & _ & Hr & _). apply (f_equal length) in Hr. rewrite length_fmap, length_take in Hr. lia.
Qed.

Lemma pool_step_work p p' : pool_inv p → pool_step p p' → pool_work p' < pool_work p.
Proof.
  intros Hi Hs. pose proof (received_le p Hi) as Hr.
  pose proof (received_le p' (pool_step_inv _ _ Hi Hs)) as Hr'. destruct Hi as (Hn & _).
  unfold pool_work. destruct Hs as [p c Hl Hlt|p l1 c l2 Hact Hout|p c e Hl Hout]; cbn [po_next po_active po_received] in *.
  - apply lookup_lt_Some in Hl. rewrite length_app. cbn [length]. lia.
  - rewrite Hact, !length_app. cbn [length]. lia.
  - rewrite length_app in *. cbn [length] in *. lia.
Qed.

(** While a result is missing some goroutine can go on. *)
Lemma pool_progress p :
  pool_inv p → length (po_received p) < length containers → ∃ p', pool_step p p'.
Proof.
  intros (Hn & Ha & Hr & Ho & Hc) Hlt.
  destruct (lookup_lt_is_Some_2 containers (length (po_received p)) Hlt) as [c Hl].
  destruct (po_output p !! c) as [e|] eqn:Eo; [eexists; by eapply Collect|].
  destruct (decide (c ∈ po_active p)) as [(l1 & l2 & Hact)%list_elem_of_split|Hna].
  { eexists. by eapply Operate. }
  assert (count c (po_active p) = 0) as H0.
  { unfold count. destruct (filter (c =.) (po_active p)) as [|d l] eqn:Ef; [done|].
    assert (d ∈ filter (c =.) (po_active p)) as [Hd Hin]%list_elem_of_filter by (rewrite Ef; set_solver).
    by rewrite <-Hd in Hin. }
  (* its goroutine was not started, so none of a later one was, and all have ended *)
  assert (po_next p ≤ length (po_received p)) as Hle.
  { destruct (decide (po_next p ≤ length (po_received p))) as [|Hgt]; [done|exfalso].
    specialize (Hc c). unfold buffered in Hc. rewrite Eo, H0 in Hc.
    rewrite <-(take_drop (S (length (po_received p))) (take (po_next p) containers)) in Hc.
    rewrite take_take, Nat.min_l, (take_next _ _ Hl), !count_app, count_cons, decide_True in Hc by (done || lia). lia. }
  assert (po_active p = []) as Hact.
  { destruct (po_active p) as [|d l] eqn:Ea; [done|exfalso].
    specialize (Hc d). rewrite count_cons, decide_True in Hc by done.
    rewrite <-(take_drop (po_next p) (take (length (po_received p)) containers)) in Hc.
    rewrite take_take, Nat.min_l, count_app in Hc by lia. lia. }
  destruct (lookup_lt_is_Some_2 containers (po_next p)) as [d Hd]; [lia|].
  eexists. eapply Launch; [done|]. rewrite Hact. unfold defaultParallel. cbn. lia.
Qed.

(** [parallelOperation]: in every interleaving of its goroutines at most fifty operations
    run at a time and the results received so far are those of the first containers, in
    their order (also when a container is named twice); every run is finite, and one that
    cannot go on has delivered every result. *)
Lemma parallelOperation_ordered n p :
  nsteps pool_step n pool0 p →
  length (po_active p) ≤ defaultParallel ∧ po_received p `prefix_of` (op <$> containers) ∧
  n ≤ 4 * length containers ∧ ((∀ p', ¬ pool_step p p') → po_received p = op <$> containers).
Proof.
  intros Hn.
  assert (∀ p0, pool_inv p0 → nsteps pool_step n p0 p → pool_inv p ∧ n + pool_work p ≤ pool_work p0) as H.
  { clear Hn. induction n as [|n IH]; intros p0 Hi Hs; inversion Hs; subst; [split; [done|lia]|].
    destruct (IH _ (pool_step_inv _ _ Hi H0) H1) as [? ?]. split; [done|].
    pose proof (pool_step_work _ _ Hi H0). lia. }
  destruct (H _ pool_start_inv Hn) as [Hi Hw]. pose proof Hi as (_ & Ha & Hr & _).
  split_and!; [done| | |].
  - rewrite Hr. exists (op <$> drop (length (po_received p)) containers). by rewrite <-fmap_app, take_drop.
  - unfold pool_work in Hw. cbn in Hw. lia.
  - intros Hstuck. pose proof (received_le p Hi).
    destruct (decide (length (po_received p) < length containers)) as [Hlt|Hge].
    + destruct (pool_progress p Hi Hlt) as [p' Hp]. by destruct (Hstuck p').
    + rewrite Hr, take_ge by lia. done.
Qed.

End Parallel.

(** [runKill]: the error of each container that could not be killed, the names of the
    others; [results] is what comes out of [parallelOperation]'s channel. *)
Fixpoint kill_results (containers : list string) (results : list (option error)) (text : error → string)
  : list string * list string :=
  match containers, results with
  | name :: containers, r :: results =>
      let '(errs, out) := kill_results containers results text in
      match r with
      | Some e => (text e :: errs, out)
      | None => (errs, name :: out)
      end
  | _, _ => ([], [])
  end.

Definition runKill (text : error → string) (containers : list string) (results : list (option error))
  : list string * option error :=
  let '(errs, out) := kill_results containers results text in
  (out, match errs with [] => None | _ => Some (Errorf (GoStrings.Join (String "010" EmptyString) errs)) end).

(** With the results of [parallelOperation], [runKill] names exactly the containers that
    were killed, and fails iff one was not. *)
Lemma runKill_exact text op containers :
  let '(out, err) := runKill text containers (op <$> containers) in
  out = filter (λ c, op c = None) containers ∧ (err = None ↔ Forall (λ c, op c = None) containers).
Proof.
  unfold runKill.
  assert (kill_results containers (op <$> containers) text =
    (text <$> omap op containers, filter (λ c, op c = None) containers)) as ->.
  { induction containers as [|c l IH]; [done|]. rewrite fmap_cons. cbn [kill_results]. rewrite IH.
    destruct (op c) as [e|] eqn:E.
    - rewrite filter_cons_False by (by rewrite E). cbn. by rewrite E.
    - rewrite filter_cons_True by done. cbn. by rewrite E. }
  split; [done|]. induction containers as [|c l IH]; [done|]. cbn. rewrite Forall_cons.
  destruct (op c); cbn; naive_solver.
Qed.

(** ** Following the logs of the container that connects *)

(** [runLogsWaitRunning]: the goroutine that copies the logs (its error is reported, the
    end of the logs is not), the ticker that looks for the key word, and the select. *)
Inductive copying_logs := LCopying | LSending (e : error) | LEnded.
Record logs_state := MkLogs { lg_text : string; lg_copy : copying_logs; lg_cancelled : bool; lg_main : option (option error) }.
Definition logs0 : logs_state := MkLogs "" LCopying false None.

Inductive logs_event := LogLine (s : string) | LogEnd (e : option error) | Tick | ParentDone | LogSelect.

Definition logs_step (ev : logs_event) (l : logs_state) : option logs_state :=
  match ev with
  | LogLine s => match lg_copy l with
                 | LCopying => Some (MkLogs (lg_text l +:+ s) LCopying (lg_cancelled l) (lg_main l))
                 | _ => None
                 end
  | LogEnd e => match lg_copy l with
                | LCopying => Some (MkLogs (lg_text l) (match e with Some e => LSending e | None => LEnded end) (lg_cancelled l) (lg_main l))
                | _ => None
                end
  | Tick => Some (if Contains (lg_text l) "enjoy it" then MkLogs (lg_text l) (lg_copy l) true (lg_main l) else l)
  | ParentDone => Some (MkLogs (lg_text l) (lg_copy l) true (lg_main l))
  | LogSelect =>
      match lg_main l with
      | Some _ => None
      | None => match lg_copy l with
                | LSending e => Some (MkLogs (lg_text l) LEnded (lg_cancelled l) (Some (Some e)))
                | _ => if lg_cancelled l then Some (MkLogs (lg_text l) (lg_copy l) true (Some None)) else None
                end
      end
  end.

Fixpoint logs_run (evs : list logs_event) (l : logs_state) : option logs_state :=
  match evs with [] => Some l | ev :: evs => l ← logs_step ev l; logs_run evs l end.

(** A container whose logs end before the key word leaves the command waiting: whatever
    ticks follow, until the caller's own context is done. *)
Lemma logs_end_unnoticed text evs l :
  Contains text "enjoy it" = false → Forall (λ ev, ev = Tick ∨ ev = LogSelect) evs →
  logs_run ([LogLine text; LogEnd None] ++ evs) logs0 = Some l → lg_main l = None.
Proof.
  intros Ht Hevs. cbn.
  assert (∀ l0 : logs_state, lg_text l0 = text → lg_copy l0 = LEnded → lg_cancelled l0 = false → lg_main l0 = None →
    logs_run evs l0 = Some l → lg_main l = None) as H; [|by apply H].
  induction evs as [|ev evs IH]; intros l0 H1 H2 H3 H4 E; [by unfold logs_run in E; simplify_eq|].
  apply Forall_cons_1 in Hevs as [[-> | ->] Hevs]; cbn in E.
  - rewrite H1, Ht in E. cbn in E. by eapply IH.
  - by rewrite H4, H2, H3 in E.
Qed.

Lemma logs_run_app evs evs' l : logs_run (evs ++ evs') l = logs_run evs l ≫= logs_run evs'.
Proof. revert l; induction evs as [|ev evs IH]; intros l; [done|]. cbn. by destruct (logs_step ev l); cbn. Qed.

(** It returns [nil] only when a tick found the key word in the logs, or the caller's
    context was done. *)
Lemma logs_ready evs l :
  logs_run evs logs0 = Some l → lg_main l = Some None →
  ParentDone ∈ evs ∨
  ∃ evs1 evs2 l1, evs = (evs1 ++ Tick :: evs2)%list ∧ logs_run evs1 logs0 = Some l1 ∧ Contains (lg_text l1) "enjoy it" = true.
Proof.
  assert (Hk : ∀ evs l, logs_run evs logs0 = Some l → lg_cancelled l = true ∨ lg_main l = Some None →
    ParentDone ∈ evs ∨
    ∃ evs1 evs2 l1, evs = (evs1 ++ Tick :: evs2)%list ∧ logs_run evs1 logs0 = Some l1 ∧ Contains (lg_text l1) "enjoy it" = true).
  { clear. induction evs as [|ev evs IH] using rev_ind; intros l E Hl.
    { unfold logs_run in E. simplify_eq. cbn in Hl. naive_solver. }
    rewrite logs_run_app in E. apply bind_Some in E as (l0 & E0 & E). cbn in E. apply bind_Some in E as (l' & E & [= ->]).
    assert (lg_cancelled l0 = true ∨ lg_main l0 = Some None → ParentDone ∈ evs ++ [ev] ∨
      ∃ evs1 evs2 l1, (evs ++ [ev] = evs1 ++ Tick :: evs2)%list ∧ logs_run evs1 logs0 = Some l1 ∧ Contains (lg_text l1) "enjoy it" = true) as Hold.
    { intros [?|(e1 & e2 & l1 & -> & ? & ?)]%IH; [left; set_solver| |done]. right.
      exists e1, (e2 ++ [ev])%list, l1. by rewrite <-app_assoc. }
    destruct ev as [s|e| | |]; cbn in E.
    - destruct (lg_copy l0); simplify_eq. by apply Hold.
    - destruct (lg_copy l0); simplify_eq. by apply Hold.
    - simplify_eq. destruct (Contains (lg_text l0) "enjoy it") eqn:Ec; [|by apply Hold].
      right. by exists evs, [], l0.
    - left. set_solver.
    - destruct (lg_main l0) eqn:Em; [done|]. destruct (lg_copy l0) eqn:Ecp.
      + destruct (lg_cancelled l0) eqn:Ec; [|done]. apply Hold. by left.
      + simplify_eq. cbn in Hl. destruct Hl as [Hl|Hl]; [|done]. apply Hold. by left.
      + destruct (lg_cancelled l0) eqn:Ec; [|done]. apply Hold. by left. }
  intros E Hm. apply (Hk evs l E). by right.
Qed.

(** [runLogsSinceNow]: what reaches the terminal; a terminal container has one stream. *)
Definition runLogsSinceNow (inspect : outcome bool) (logs : outcome unit) (copied : bool → option error) : option error :=
  match inspect with
  | Ret tty => match logs with Ret _ => copied tty | Fail e => Some e | Panic => None end
  | Fail e => Some e
  | Panic => None
  end.

(** ** Attaching the terminal *)

Record attach_config := MkAttach { AttachStdin : bool; AttachStdout : bool; AttachStderr : bool; Tty : bool }.

(** Where the container's error stream goes. *)
Inductive err_target := ToOut | ToErr.

(** [attachContainer]: the streamer it starts and where the errors go. *)
Definition attachContainer (c : attach_config) (detachKeys : string) (attach : option error)
  : outcome (Hijack.streamer * option err_target) :=
  match attach with
  | Some e => Fail (ErrorfV "failed to attach to container" e)
  | None =>
      let cerr := if AttachStderr c then Some (if Tty c then ToOut else ToErr) else None in
      Ret (Hijack.MkStreamer (AttachStdin c) (AttachStdout c) (AttachStderr c) (Tty c) detachKeys, cerr)
  end.

(** A detached terminal is restored: the session [attachContainer] starts for a terminal
    with input, ended by the escape keys. *)
Lemma attach_detached_restored c keys st tgt e s :
  attachContainer c keys None = Ret (st, tgt) →
  Hijack.attach_stream st None None true [Hijack.InputEnd (Some e); Hijack.TakeDetached] = inl (Some s) →
  Hijack.s_main s = Hijack.Returned (Some e) ∧
  Hijack.in_raw (Hijack.s_term s) = false ∧ Hijack.out_raw (Hijack.s_term s) = false.
Proof.
  intros [= <- <-]. destruct c as [i o er t]. cbn.
  destruct i, t; cbn; intros; simplify_eq; cbn; done.
Qed.

(** ** Small helpers *)

(** [reportError]. *)
Definition reportError (name str : string) (withHelp : bool) : string :=
  let str := TrimSuffix str "." +:+ "." in
  let str := if withHelp then str +:+ String "010" ("See 'docker " +:+ name +:+ " --help'.") else str in
  "docker: " +:+ str.

(** [cidFile.Write]: the file's content and whether the identifier was written. *)
Definition cidFile_Write (file : option string) (id : string) (err : option error) : option string * bool * option error :=
  match file with
  | None => (None, false, None)
  | Some content => match err with
                    | Some e => (file, false, Some (ErrorfV "failed to write the container ID to the file" e))
                    | None => (Some (content +:+ id), true, None)
                    end
  end.

(** [warnOnOomKillDisable]. *)
Definition warnOnOomKillDisable (oomKillDisable : option bool) (memory : Z) : bool :=
  match oomKillDisable with Some true => (memory =? 0)%Z | _ => false end.

(** [[0-9]]. *)
Definition digit_char (c : ascii) : bool :=
  ((48 <=? N_of_ascii c) && (N_of_ascii c <=? 57))%N.

(** The regular expression [((127\.([0-9]{1,3}\.){2}[0-9]{1,3})|(::1)$)], searched for
    anywhere in the text: [octet] is one to three digits and a dot. *)
Fixpoint octet (n : nat) (s : string) : option string :=
  match n, s with
  | S n, String c s => if digit_char c then
                         match s with
                         | String "." rest => Some rest
                         | _ => octet n s
                         end
                       else None
  | _, _ => None
  end.
Definition starts_digit (s : string) : bool := match s with String c _ => digit_char c | _ => false end.
Definition loopback_here (s : string) : bool :=
  (HasPrefix s "127." &&
   match octet 3 (TrimPrefix s "127.") with
   | Some s => match octet 3 s with Some s => starts_digit s | None => false end
   | None => false
   end) || String.eqb s "::1".
Fixpoint isLocalhost (s : string) : bool :=
  loopback_here s || match s with String _ s => isLocalhost s | EmptyString => false end.

(** [warnOnLocalhostDNS]: the server it warns about. *)
Definition warnOnLocalhostDNS (dns : list string) : option string := List.find isLocalhost dns.

(** Every loopback address of IPv4 is recognised; but so is an IPv6 address that merely
    ends like the loopback one, and text with a number before the address. *)
Lemma isLocalhost_examples :
  isLocalhost "127.0.0.1" = true ∧ isLocalhost "127.10.200.3" = true ∧ isLocalhost "::1" = true ∧
  isLocalhost "10.96.0.10" = false ∧ isLocalhost "127.0.1" = false ∧ isLocalhost "127.1234.0.1" = false ∧
  isLocalhost "2001:db8::1" = true ∧ isLocalhost "4127.0.0.1" = true.
Proof. vm_compute. done. Qed.

(** [disconnect]: the messages printed until the stream ends or fails. *)
Fixpoint disconnect_messages (recv : list (outcome string)) : list string * option error :=
  match recv with
  | Ret msg :: rest => let '(l, e) := disconnect_messages rest in (msg :: l, e)
  | Fail EOF :: _ => ([], None)
  | Fail e :: _ => ([], Some e)
  | _ => ([], None)
  end.
