(* ===== verification/SshServer.v ===== *)
(** * Tunnels over SSH, and the resources of a cluster

    [pkg/daemon/handler/ssh.go], [pkg/daemon/action/sshdaemon.go] and [get.go],
    [util.GetIPBaseNic]: a client of an SSH server derives its address from those of its
    machine, starts the tunnel's server through SSH and routes networks into the tunnel; the
    root daemon of the server serves all clients with one device.  [Server.Get] lists resources
    through informers. *)
From Stdlib Require Import ZArith Lia.
From Stdlib Require Import Strings.Byte.
From stdpp Require Import base gmap strings numbers list.
From S2P Require Import Prelude GoStrings IPText GoNet Config Allocator Url Heartbeat Node.
From stdpp Require Import list.

Local Open Scope string_scope.

(** ** The address of a client *)

Definition DockerRouterIP : list byte := Eval vm_compute in fst (parse_pool "223.255.0.100/16").
Definition DockerCIDR : IPNet := Eval vm_compute in snd (parse_pool "223.255.0.100/16").

(** The sum of the bytes of the machine's addresses; texts that do not parse count nothing. *)
Definition nic_sum (addrs : list string) : Z :=
  foldl (λ sum a, match ParseCIDR a with
                  | Some (ip, _) => foldl (λ s b, s + b2z b) sum ip
                  | None => sum end)%Z 0%Z addrs.

(** The loop calls [AllocateNext] and keeps the last address and error. *)
Fixpoint nic_loop (n : nat) (r : Range) (next : outcome (list byte)) : outcome (list byte) :=
  match n with
  | 0 => next
  | S n => let '(r, o) := AllocateNext r in nic_loop n r o
  end.

Definition GetIPBaseNic (addrs : list string) : outcome IPNet :=
  next ← nic_loop (Z.to_nat (nic_sum addrs `mod` 255)) (NewAllocatorCIDRRange DockerCIDR) (Ret []);
  Ret (MkIPNet next (CIDRMask 32 32)).

(** All addresses the loop can reach, in one pass. *)
Fixpoint alloc_trace (n : nat) (r : Range) : list (outcome (list byte)) :=
  match n with
  | 0 => []
  | S n => let '(r, o) := AllocateNext r in o :: alloc_trace n r
  end.

Lemma alloc_trace_nic N n r o : n < N → alloc_trace N r !! n = Some (nic_loop (S n) r o).
Proof.
  revert n r o. induction N as [|N IH]; intros n r o H; [lia|]. cbn [alloc_trace nic_loop].
  destruct (AllocateNext r) as [r' o']. destruct n as [|n]; [done|].
  apply (IH n r' o'). lia.
Qed.

Definition nic_ip (n : nat) : list byte := IPv4 xdf xff x00 (z2b (Z.of_nat n)).

Lemma docker_trace : alloc_trace 254 (NewAllocatorCIDRRange DockerCIDR) = (λ n, Ret (nic_ip n)) <$> seq 1 254.
Proof. vm_compute. reflexivity. Qed.

Lemma nic_sum_range addrs : (0 ≤ nic_sum addrs `mod` 255 < 255)%Z.
Proof. apply Z.mod_pos_bound. lia. Qed.

(** The client has the address whose last byte is the remainder, and none when it is zero. *)
Lemma GetIPBaseNic_spec addrs :
  let n := Z.to_nat (nic_sum addrs `mod` 255) in
  GetIPBaseNic addrs = Ret (MkIPNet (if n =? 0 then [] else nic_ip n)%nat (CIDRMask 32 32)).
Proof.
  cbn zeta. unfold GetIPBaseNic. pose proof (nic_sum_range addrs) as Hr.
  destruct (Z.to_nat (nic_sum addrs `mod` 255)) as [|n] eqn:E; [done|].
  assert (Hn : n < 254) by lia.
  pose proof (alloc_trace_nic 254 n (NewAllocatorCIDRRange DockerCIDR) (Ret []) Hn) as H.
  rewrite docker_trace, list_lookup_fmap, lookup_seq_lt in H by done. cbn [fmap option_fmap option_map] in H.
  apply (inj Some) in H. rewrite <-H. done.
Qed.

(** ** The tunnel of a client *)

Definition EnvStartSudo : string := "DEPTH_SIGNED_BY_NAISON".

Definition ssh_node (clientIP : IPNet) (cidr : list string) : string :=
  ("tun:/127.0.0.1:8422?net=" +:+ IPNet_String clientIP +:+ "&route=" +:+ GoStrings.Join "," cidr)%string.

(** [wsHandler.handle] up to the terminal: kubevpn is installed, the port of the server is mapped
    to a local one, the server is started, the tunnel is made and its device found. *)
Definition ssh_handle (install : outcome unit) (addrs : list string) (portMap : outcome Z) (RemoteRun : string → outcome string)
    (p : Process) (ifs : Interfaces) (cidr : list string) : outcome (list Server * string) :=
  _ ← install;
  clientIP ← GetIPBaseNic addrs;
  local ← portMap;
  serverIP ← RemoteRun ("export " +:+ EnvStartSudo +:+ "=true && kubevpn ssh-daemon --client-ip " +:+ IPNet_String clientIP)%string;
  match ParseCIDR serverIP with
  | None => Fail (Errorf "invalid CIDR address")
  | Some _ =>
      let r := MkRoute [ssh_node clientIP (cidr ++ [serverIP])%list] ("tcp://127.0.0.1:" +:+ Itoa local)%string 5 in
      servers ← ParseRoute p r;
      tun ← GetTunDevice ifs [net_IP clientIP];
      Ret (servers, tun)
  end.

Lemma ssh_node_query clientIP cidr : ssh_node clientIP cidr =
  ("tun:/127.0.0.1:8422?" +:+ write_query [("net", IPNet_String clientIP); ("route", GoStrings.Join "," cidr)])%string.
Proof. unfold ssh_node, write_query. cbn [fmap list_fmap fst snd GoStrings.Join]. by rewrite !str_app_assoc. Qed.

Lemma ParseNode_ssh clientIP cidr : plain_string (IPNet_String clientIP) → plain_string (GoStrings.Join "," cidr) →
  ∃ node, ParseNode (ssh_node clientIP cidr) = Ret node ∧ n_Protocol node = "tun" ∧ n_Remote node = "127.0.0.1:8422" ∧
    Node.Get node "net" = IPNet_String clientIP ∧ Node.Get node "route" = GoStrings.Join "," cidr ∧ GetInt node "mtu" = 0%Z.
Proof.
  intros HA HR. eexists. rewrite ssh_node_query. split; [apply ParseNode_query; [done|by repeat constructor]|].
  rewrite parseQuery_write by (by repeat constructor). unfold GetInt, Node.Get. cbn [fold_left fst snd n_Values].
  set (A := IPNet_String clientIP). set (R := GoStrings.Join "," cidr).
  repeat split; simplify_map_eq; exact (Get_single _).
Qed.

Lemma nic_text n : n < 255 →
  IPNet_String (MkIPNet (nic_ip n) (CIDRMask 32 32)) = ("223.255.0." +:+ Itoa (Z.of_nat n) +:+ "/32")%string ∧
  ParseCIDR (IPNet_String (MkIPNet (nic_ip n) (CIDRMask 32 32))) =
    Some (nic_ip n, MkIPNet [xdf; xff; x00; z2b (Z.of_nat n)] (CIDRMask 32 32)).
Proof.
  intros Hn. assert (Hall : Forall (λ n, IPNet_String (MkIPNet (nic_ip n) (CIDRMask 32 32)) = ("223.255.0." +:+ Itoa (Z.of_nat n) +:+ "/32")%string ∧
    ParseCIDR (IPNet_String (MkIPNet (nic_ip n) (CIDRMask 32 32))) = Some (nic_ip n, MkIPNet [xdf; xff; x00; z2b (Z.of_nat n)] (CIDRMask 32 32))) (seq 0 255)).
  { apply (bool_decide_unpack _). vm_compute. exact I. }
  rewrite Forall_forall in Hall. apply Hall. apply elem_of_seq. lia.
Qed.

(** Addresses of a device, from the environment where it has one. *)
Definition env_addrs (p : Process) : list (list byte * IPNet) :=
  match ParseCIDR (Getenv (p_env p) EnvInboundPodTunIPv6) with Some r => [r] | None => [] end.

Lemma createTun_addrs cfg r4 :
  ParseCIDR (t_Addr cfg) = Some r4 → t_MTU cfg = 0%Z → (t_Addr6 cfg = "" ∨ is_Some (ParseCIDR (t_Addr6 cfg))) →
  createTun working_os cfg = Ret (MkDevice DefaultMTU (r4 :: match ParseCIDR (t_Addr6 cfg) with Some r => [r] | None => [] end)
    (IPNet_String <$> t_Routes cfg) (Some (fst r4))).
Proof.
  intros H4 Hm [H6|[r6 H6]].
  - unfold createTun, addTunAddr. assert (t_Addr cfg ≠ EmptyString) by (intros E; rewrite E in H4; discriminate).
    rewrite H6, bool_decide_false, bool_decide_true by done. rewrite H4, Hm. destruct r4. cbn -[addTunRoutes].
    rewrite addTunRoutes_working. reflexivity.
  - rewrite H6. by rewrite (createTun_working cfg r4 r6).
Qed.

(** C37.  The tunnel of an SSH client has the address 223.255.0.n/32, where n is the sum of the
    bytes of the machine's addresses modulo 255 (none is made when n is zero), it goes to the
    mapped port, and exactly the extra networks and the server's address are routed into it; the
    IPv6 address is the one an earlier connection of the daemon left in the environment. *)
Theorem ssh_tunnel addrs port RemoteRun p ifs cidr serverIP tun r n
    (Hn : Z.to_nat (nic_sum addrs `mod` 255) = n) (Hne : n ≠ 0)
    (Hos : p_os p = working_os) (Hport : (0 ≤ port)%Z)
    (Henv : Getenv (p_env p) EnvInboundPodTunIPv6 = "" ∨ is_Some (ParseCIDR (Getenv (p_env p) EnvInboundPodTunIPv6)))
    (Hrun : RemoteRun ("export DEPTH_SIGNED_BY_NAISON=true && kubevpn ssh-daemon --client-ip 223.255.0." +:+ Itoa (Z.of_nat n) +:+ "/32")%string
      = Ret serverIP) (Hs : ParseCIDR serverIP = Some r)
    (Hcidr : Forall (λ s, is_Some (ParseCIDR s)) cidr)
    (Htun : GetTunDevice ifs [nic_ip n] = Ret tun) :
  ∃ cfg dev chain node,
    ssh_handle (Ret tt) addrs (Ret port) RemoteRun p ifs cidr =
      Ret ([MkServer (TunListener cfg dev) (TunHandler (Some (MkChain 5 (Some chain))) node)], tun) ∧
    n_Addr chain = ("127.0.0.1:" +:+ Itoa port)%string ∧ n_Remote node = "127.0.0.1:8422" ∧
    d_addrs dev = (nic_ip n, MkIPNet [xdf; xff; x00; z2b (Z.of_nat n)] (CIDRMask 32 32)) :: env_addrs p ∧
    t_Routes cfg = (omap (λ s, snd <$> ParseCIDR s) cidr ++ [snd r])%list.
Proof.
  assert (Hlt : n < 255) by (pose proof (nic_sum_range addrs); lia).
  pose proof (GetIPBaseNic_spec addrs) as Hip. cbn zeta in Hip. rewrite Hn in Hip.
  rewrite (proj2 (Nat.eqb_neq _ _) Hne) in Hip. destruct (nic_text n Hlt) as [Ht Hp].
  set (client := MkIPNet (nic_ip n) (CIDRMask 32 32)) in *.
  assert (Hr : Forall (λ s, is_Some (ParseCIDR s)) (cidr ++ [serverIP])%list).
  { apply Forall_app. split; [done|]. apply Forall_singleton. by exists r. }
  destruct (ParseNode_ssh client (cidr ++ [serverIP])%list) as (node & Hnode & Hpr & Hrem & Hnet & Hrt & Hmtu);
    [by eapply ParseCIDR_plain|by apply routes_plain|].
  destruct (ParseNode_chain (Itoa port) (all_chars_Itoa _ Hport)) as (ch & Hch & Hca & _).
  set (cfg := tun_config p node).
  assert (Hdev : createTun working_os cfg = Ret (MkDevice DefaultMTU
    ((nic_ip n, MkIPNet [xdf; xff; x00; z2b (Z.of_nat n)] (CIDRMask 32 32)) :: env_addrs p) (IPNet_String <$> t_Routes cfg) (Some (nic_ip n)))).
  { apply createTun_addrs; [|exact Hmtu|exact Henv]. unfold cfg, tun_config. cbn [t_Addr]. by rewrite Hnet. }
  eexists cfg, _, _, node. split_and!.
  - unfold ssh_handle. cbn [mbind outcome_bind]. rewrite Hip. cbn [mbind outcome_bind].
    change ("export " +:+ _)%string with ("export DEPTH_SIGNED_BY_NAISON=true && kubevpn ssh-daemon --client-ip " +:+ IPNet_String client)%string.
    rewrite Ht. change (_ +:+ "223.255.0." +:+ _)%string with
      ("export DEPTH_SIGNED_BY_NAISON=true && kubevpn ssh-daemon --client-ip 223.255.0." +:+ Itoa (Z.of_nat n) +:+ "/32")%string.
    rewrite Hrun. cbn [mbind outcome_bind]. rewrite Hs.
    unfold ParseRoute, GenerateServers, parseChain, parseChainNode. cbn [r_ChainNode r_ServeNodes r_Retries].
    rewrite Hch. cbn [mbind outcome_bind make_servers]. unfold make_server. rewrite Hnode. cbn [mbind outcome_bind].
    rewrite Hpr, bool_decide_true by done. fold cfg. rewrite Hos, Hdev. cbn [mbind outcome_bind length]. rewrite bool_decide_false by done.
    cbn [mbind outcome_bind]. change (net_IP client) with (nic_ip n). rewrite Htun. reflexivity.
  - exact Hca.
  - exact Hrem.
  - reflexivity.
  - unfold cfg, tun_config. cbn [t_Routes]. rewrite Hrt, parseIPRoutes_Join by done. rewrite omap_app. cbn [omap list_omap].
    by rewrite Hs.
Qed.

Definition example_addrs : list string := ["127.0.0.1/8"; "192.168.1.17/24"].
Definition example_ifs : Interfaces := [("lo", ["127.0.0.1/8"]); ("utun3", ["223.255.0.251/32"])].

Lemma ssh_tunnel_witness :
  ∃ cfg dev chain node,
    ssh_handle (Ret tt) example_addrs (Ret 40001%Z) (λ _, Ret "223.255.0.100/32") (MkProcess ∅ working_os (λ _, None)) example_ifs ["10.0.0.0/8"] =
      Ret ([MkServer (TunListener cfg dev) (TunHandler (Some (MkChain 5 (Some chain))) node)], "utun3") ∧
    IPNet_String <$> t_Routes cfg = ["10.0.0.0/8"; "223.255.0.100/32"].
Proof.
  destruct (ssh_tunnel example_addrs 40001 (λ _, Ret "223.255.0.100/32") (MkProcess ∅ working_os (λ _, None)) example_ifs ["10.0.0.0/8"]
    "223.255.0.100/32" "utun3" (default (([] : list byte), MkIPNet [] []) (ParseCIDR "223.255.0.100/32")) 251)
    as (cfg & dev & chain & node & E & _ & _ & _ & Hr).
  - vm_compute. reflexivity.
  - discriminate.
  - reflexivity.
  - lia.
  - by left.
  - reflexivity.
  - vm_compute. reflexivity.
  - repeat constructor; vm_compute; by eexists.
  - vm_compute. reflexivity.
  - exists cfg, dev, chain, node. split; [exact E|]. rewrite Hr. vm_compute. reflexivity.
Defined.

(** A machine whose bytes sum to a multiple of 255 gets no address. *)
Example no_client_address : GetIPBaseNic ["0.0.0.0/0"; "::/0"; "10.0.0.245/8"] = Ret (MkIPNet [] (CIDRMask 32 32)).
Proof. vm_compute. reflexivity. Qed.

(** A client can get the address of the server. *)
Example client_address_of_server : GetIPBaseNic ["10.0.0.90/8"] = Ret (MkIPNet DockerRouterIP (CIDRMask 32 32)).
Proof. vm_compute. reflexivity. Qed.

(** ** The tunnel's server *)

Definition DefaultServerIP : string := Eval vm_compute in IPNet_String (MkIPNet DockerRouterIP (CIDRMask 32 32)).
Definition sshd_route : Route := MkRoute [("tun://127.0.0.1:8422?net=" +:+ DefaultServerIP)%string; "tcp://:10800"] "" 5.

(** The variables of the package: [serverIP], whether [sshCancelFunc] is set, and whether the
    servers it cancels run. *)
Record sshd := MkSshd { serverIP : string; cancelable : bool; sshd_up : bool }.
Definition sshd0 : sshd := MkSshd "" false false.

(** The interfaces of the machine; the device of the server exists while it runs. *)
Definition sshd_ifs (base : Interfaces) (st : sshd) : Interfaces :=
  (base ++ if sshd_up st then [("utun", [DefaultServerIP])] else [])%list.

(** [SshStart]; [routeErr] is the error of adding the client's route. *)
Definition SshStart (p : Process) (base : Interfaces) (routeErr : option error) (clientIP : string) (st : sshd)
  : sshd * outcome string :=
  match ParseCIDR clientIP with
  | None => (st, Fail (Errorf "invalid CIDR address"))
  | Some _ =>
      match (if String.eqb (serverIP st) ""
             then _ ← ParseRoute p sshd_route; Ret (MkSshd DefaultServerIP true true)
             else Ret st) with
      | Ret st =>
          match ParseCIDR (serverIP st) with
          | None => (st, Fail (Errorf "invalid CIDR address"))
          | Some (serverip, _) =>
              match GetTunDevice (sshd_ifs base st) [serverip] with
              | Ret _ => (st, match routeErr with Some e => Fail e | None => Ret (serverIP st) end)
              | Fail e => (st, Fail e)
              | Panic => (st, Panic)
              end
          end
      | Fail e => (st, Fail e)
      | Panic => (st, Panic)
      end
  end.

Definition SshStop (st : sshd) : sshd := MkSshd (serverIP st) (cancelable st) (if cancelable st then false else sshd_up st).

(** No other interface has an address whose text contains the server's. *)
Definition no_other (base : Interfaces) : Prop := GetTunDevice base [DockerRouterIP] = Fail (Errorf "can not found any interface").

(** The server routes packets of the device to its clients, and takes their connections on the port
    they map. *)
Example sshd_route_serves :
  match ParseRoute (MkProcess ∅ working_os (λ _, None)) sshd_route with
  | Ret [MkServer (TunListener cfg _) (TunHandler None node); MkServer (TCPListener addr) TCPHandler] =>
      t_Addr cfg = DefaultServerIP ∧ n_Remote node = "" ∧ addr = ":10800"
  | _ => False
  end.
Proof. vm_compute. done. Qed.

Lemma find_app_r {A} (f : A → bool) l k : List.find f l = None → List.find f (l ++ k)%list = List.find f k.
Proof. induction l as [|y l IH]; [done|]. cbn. by destruct (f y). Qed.

Lemma sshd_device base : no_other base → GetTunDevice (base ++ [("utun", [DefaultServerIP])])%list [DockerRouterIP] = Ret "utun".
Proof.
  unfold no_other, GetTunDevice. set (f := λ i : string * list string, _).
  destruct (List.find f base) eqn:E; [done|]. intros _. by rewrite (find_app_r _ _ _ E).
Qed.

Lemma ParseCIDR_DefaultServerIP : fst <$> ParseCIDR DefaultServerIP = Some DockerRouterIP.
Proof. vm_compute. reflexivity. Qed.

(** The device of a server that runs is found. *)
Lemma SshStart_up p base routeErr clientIP st : is_Some (ParseCIDR clientIP) → no_other base →
  serverIP st = DefaultServerIP → sshd_up st = true →
  SshStart p base routeErr clientIP st = (st, match routeErr with Some e => Fail e | None => Ret DefaultServerIP end).
Proof.
  intros [r Hr] Hb Hs Hu. unfold SshStart. rewrite Hr, Hs. change (String.eqb DefaultServerIP "") with false. cbv iota. rewrite Hs.
  pose proof ParseCIDR_DefaultServerIP as Hp. destruct (ParseCIDR DefaultServerIP) as [[ip ?]|]; [|done]. cbn in Hp. injection Hp as ->.
  unfold sshd_ifs. rewrite Hu. by rewrite sshd_device.
Qed.

(** The first client starts the server, and later ones use it. *)
Lemma SshStart_serves p base routeErr clientIP servers : is_Some (ParseCIDR clientIP) → no_other base →
  ParseRoute p sshd_route = Ret servers →
  SshStart p base routeErr clientIP sshd0 =
    (MkSshd DefaultServerIP true true, match routeErr with Some e => Fail e | None => Ret DefaultServerIP end).
Proof.
  intros Hc Hb Hp. rewrite <-(SshStart_up p base routeErr clientIP (MkSshd DefaultServerIP true true)) by done.
  unfold SshStart. destruct (ParseCIDR clientIP); [|done]. cbn [serverIP sshd0 String.eqb]. by rewrite Hp.
Qed.

(** After [SshStop] the server is not started again: every later client fails. *)
Lemma SshStart_after_stop p base routeErr clientIP : is_Some (ParseCIDR clientIP) → no_other base →
  SshStart p base routeErr clientIP (SshStop (MkSshd DefaultServerIP true true)) =
    (MkSshd DefaultServerIP true false, Fail (Errorf "can not found any interface")).
Proof.
  intros [r Hr] Hb. unfold SshStart, SshStop. cbn [serverIP cancelable sshd_up]. rewrite Hr.
  change (String.eqb DefaultServerIP "") with false. cbv iota. cbn [serverIP].
  pose proof ParseCIDR_DefaultServerIP as Hp. destruct (ParseCIDR DefaultServerIP) as [[ip ?]|]; [|done]. cbn in Hp. injection Hp as ->.
  unfold sshd_ifs. cbn [sshd_up]. rewrite app_nil_r. by rewrite Hb.
Qed.

(** ** Resources *)

(** A resource of the API: its names, and the group, version and resource its informer has. *)
Record Resource := MkResource { re_names : list string; re_gvr : string }.

(** [gr], and the informers that exist and that have been started. *)
Record getter := MkGetter { gr : option (list Resource); informers : gset string; running : gset string }.

Definition has (req : string) (r : Resource) : bool := bool_decide (req ∈ re_names r).

(** [getInformer]: the first resource with the name; its informer is made where there is none. *)
Definition getInformer (req : string) (g : getter) : option (Resource * getter) :=
  r ← List.find (has req) (default [] (gr g));
  Some (r, MkGetter (gr g) ({[re_gvr r]} ∪ informers g) (running g)).

(** [Get], with the resources listed in the order the maps give; [store] has the objects of the
    informers that run and have been synchronised. *)
Definition Server_Get (connected : bool) (discover : outcome (list Resource)) (store : string → list string) (req : string) (g : getter)
  : getter * outcome (list string) :=
  if negb connected then (g, Fail (Errorf "not connected"))
  else
    match (match gr g with
           | Some _ => Ret g
           | None =>
               resources ← discover;
               let informers := list_to_set (re_gvr <$> filter (λ r, has req r = true) resources) in
               Ret (MkGetter (Some resources) informers informers)
           end) with
    | Ret g =>
        match getInformer req g with
        | None => (g, Fail (Errorf "ErrResourceNotFound"))
        | Some (r, g) => (g, Ret (if bool_decide (re_gvr r ∈ running g) then store (re_gvr r) else []))
        end
    | Fail e => (g, Fail e)
    | Panic => (g, Panic)
    end.

(** Once the resources are known no informer is started any more. *)
Lemma Server_Get_running connected discover store req g : is_Some (gr g) → running (fst (Server_Get connected discover store req g)) = running g.
Proof.
  intros [resources E]. unfold Server_Get, getInformer. destruct connected; [|done]. rewrite E. cbn [negb].
  by destruct (List.find _ _).
Qed.

(** So a kind of object that was not asked for first is listed as empty, for ever and in any
    cluster the daemon connects to. *)
Lemma Server_Get_other_kind discover store req g r resources : gr g = Some resources → List.find (has req) resources = Some r →
  re_gvr r ∉ running g → snd (Server_Get true discover store req g) = Ret [].
Proof. intros E Hf Hr. unfold Server_Get, getInformer. rewrite E. cbn. rewrite E. cbn. rewrite Hf. cbn. by rewrite bool_decide_false. Qed.

Example second_kind_is_empty :
  let resources := [MkResource ["pods"; "pod"; "po"] "v1/pods"; MkResource ["services"; "service"; "svc"] "v1/services"] in
  let g := fst (Server_Get true (Ret resources) (λ _, ["a"]) "pods" (MkGetter None ∅ ∅)) in
  snd (Server_Get true (Ret resources) (λ _, ["a"]) "pods" g) = Ret ["a"] ∧ snd (Server_Get true (Ret resources) (λ _, ["a"]) "svc" g) = Ret [].
Proof. vm_compute. done. Qed.
