(* ===== verification/RemoteInstall.v ===== *)
(** * Installing kubevpn on an SSH server

    [pkg/util/scp.go], [util.RemoteRun] of [pkg/util/ssh.go], and the parts of
    [pkg/daemon/handler/ssh.go] before and after the tunnel ([SshServer]): the request of
    the command [kubevpn ssh], the check for an installed kubevpn and its installation
    over SCP, the mapped port, the terminal.  The SSH library, the archive and the machine
    at the other end ([RemoteHost], with the laws of its programs) are parameters. *)
From Stdlib Require Import ZArith Lia Ascii.
From stdpp Require Import base gmap strings numbers list.
From S2P Require Import Prelude GoStrings GoNet Docker Ssh Upgrade.
From stdpp Require Import list.

Local Open Scope string_scope.

(** ** The request of the command *)

(** [CmdSSH]: the headers of the websocket; [Header.Set] of the six keys. *)
Definition ssh_headers (conf : SshConfig) (extraCIDR : list string) : gmap string string :=
  <["ssh-addr" := Addr conf]> (<["ssh-username" := User conf]> (<["ssh-password" := Password conf]>
  (<["ssh-keyfile" := Keyfile conf]> (<["ssh-alias" := ConfigAlias conf]>
  (<["extra-cidr" := GoStrings.Join "," extraCIDR]> ∅))))).

(** The websocket handler of the daemon; [Header.Get] of a missing key is empty. *)
Definition header_get (h : gmap string string) (k : string) : string := default "" (h !! k).
Definition ws_config (h : gmap string string) : SshConfig * list string :=
  (MkSsh (header_get h "ssh-addr") (header_get h "ssh-username") (header_get h "ssh-password")
     (header_get h "ssh-keyfile") (header_get h "ssh-alias") "",
   let v := header_get h "extra-cidr" in if bool_decide (v = "") then [] else Split "," v).

(** The daemon reads back the configuration (but the remote kubeconfig, which [ssh] does
    not use) and the networks. *)
Lemma ssh_request_roundtrip conf extraCIDR :
  Forall (λ c, c ≠ "" ∧ Count "," c = 0%nat) extraCIDR →
  ws_config (ssh_headers conf extraCIDR) =
    (MkSsh (Addr conf) (User conf) (Password conf) (Keyfile conf) (ConfigAlias conf) "", extraCIDR).
Proof.
  intros Hf. unfold ws_config, ssh_headers, header_get. simplify_map_eq. f_equal.
  destruct extraCIDR as [|c l]; [done|]. apply Forall_cons_1 in Hf as Hc. destruct Hc as [[Hc _] _].
  rewrite bool_decide_false.
  - apply Split_Join; [done|]. eapply Forall_impl; [done|]. by intros ? [].
  - destruct l; cbn; [done|]. intros E. by destruct c.
Qed.

(** ** Transfer *)

Definition newline : string := String "010" "".
Definition NUL : string := String "000" "".

(** [fmt.Fprintln] of three words. *)
Definition println (a b c : string) : string := a +:+ " " +:+ b +:+ " " +:+ c +:+ newline.

(** [sCopy]: what reaches the other side of the content, and its error; [broken] is a
    write that fails after some bytes.  A wrong length is only logged. *)
Definition sCopy (content : string) (size : Z) (broken : option (nat * error)) : string * option error :=
  match broken with
  | Some (n, e) => (String.substring 0 n content, Some e)
  | None => (content, None)
  end.

(** The goroutine of [main]: the bytes that reach the session's input, for a file that
    [Stat] says has [size] bytes and that holds [content].  The errors of writing the
    header and the zero byte are ignored; once the input is gone it takes none of the later
    bytes, so [cut] is where all of it ends. *)
Definition cut_off (cut : option nat) (s : string) : string :=
  match cut with Some n => String.substring 0 n s | None => s end.

Definition scp_header_lines (dir : string) (size : Z) (to : string) : string :=
  println "D0755" "0" dir +:+ println "C0644" (Itoa size) to.

Definition scp_wire (size : Z) (content to : string) (broken : option (nat * error)) (cut : option nat) : string :=
  let header := scp_header_lines ".kubevpn" size to in
  match sCopy content size broken with
  | (sent, Some _) => cut_off cut (header +:+ sent)
  | (sent, None) => cut_off cut (header +:+ sent +:+ NUL)
  end.

(** The machine at the other end: what the shell command [scp -tr ./] makes of its input,
    what other commands do, and what a path (as the user's shell reads it) names. *)
Inductive node := RFile (data : string) (exec : bool) | RDir.
Class RemoteHost (H : Type) := {
  scp_sink : H → string → H * option error;
  sh : H → string → H * option error;
  node_at : H → string → option node }.

(** The local side of a session: opening the file, its size, whether the goroutine takes
    the pipe before [Run] starts the command, a copy that breaks after some bytes, an input
    that is gone after some bytes. *)
Record transfer := MkTransfer {
  tr_open : option error; tr_stat : Z + error; tr_pipe_first : bool; tr_broken : option (nat * error); tr_cut : option nat }.

(** Dialling, and [NewSession] for each call. *)
Record ssh_server := MkSshServer { sv_dial : option error; sv_session : nat → option error }.

Definition result (e : option error) : outcome unit := match e with Some e => Fail e | None => Ret tt end.

Section session.
Context {H : Type} `{RemoteHost H}.

(** [main].  After [Run] has started the command there is no pipe to take: the command has
    an empty input, and the goroutine panics on the missing writer. *)
Definition scp_main (t : transfer) (h : H) (content to : string) : H * outcome unit :=
  match tr_open t with
  | Some e => (h, Fail e)
  | None => match tr_stat t with
            | inr e => (h, Fail e)
            | inl size =>
                if tr_pipe_first t
                then let '(h, e) := scp_sink h (scp_wire size content to (tr_broken t) (tr_cut t)) in (h, result e)
                else (fst (scp_sink h ""), Panic)
            end
  end.

(** The commands, until one fails. *)
Fixpoint scp_commands (sv : ssh_server) (i : nat) (h : H) (commands : list string) : H * outcome unit :=
  match commands with
  | [] => (h, Ret tt)
  | c :: commands =>
      match sv_session sv i with
      | Some e => (h, Fail e)
      | None => match sh h c with
                | (h, Some e) => (h, Fail e)
                | (h, None) => scp_commands sv (S i) h commands
                end
      end
  end.

Definition SCP (sv : ssh_server) (t : transfer) (h : H) (content to : string) (commands : list string) : H * outcome unit :=
  match sv_dial sv with
  | Some e => (h, Fail e)
  | None =>
      match sv_session sv 0 with
      | Some e => (h, Fail e)
      | None => match scp_main t h content to with
                | (h, Ret _) => scp_commands sv 1 h commands
                | r => r
                end
      end
  end.
End session.

(** [RemoteRun]: the output of a command; variables that cannot be set are skipped. *)
Definition RemoteRun (dial session : option error) (run : string → outcome string) (cmd : string) : outcome string :=
  match dial with
  | Some e => Fail e
  | None => match session with Some e => Fail e | None => run cmd end
  end.

(** *** The protocol *)

(** The messages of the protocol the comment of [main] links to: a directory, and a file
    with its length in bytes, its content and a zero byte. *)
Inductive scp_msg := Dir (mode name : string) | File (mode name content : string).

Fixpoint take_str (n : nat) (s : string) : option (string * string) :=
  match n, s with
  | O, s => Some ("", s)
  | S n, String a s => '(l, r) ← take_str n s; Some (String a l, r)
  | S _, EmptyString => None
  end.

(** A line: its letter and mode, a number, a name. *)
Definition scp_header (line : string) : option (string * Z * string) :=
  match Split " " line with
  | [mode; n; name] => z ← ParseUint 63 n; Some (mode, z, name)
  | _ => None
  end.

(** What a receiver makes of the bytes; the fuel is the number of messages. *)
Fixpoint scp_receive (fuel : nat) (s : string) : option (list scp_msg) :=
  match fuel, s with
  | _, EmptyString => Some []
  | O, _ => None
  | S fuel, _ =>
      '(line, rest) ← Docker.Cut "010" s;
      '(mode, n, name) ← scp_header line;
      if HasPrefix mode "D" then l ← scp_receive fuel rest; Some (Dir mode name :: l)
      else if HasPrefix mode "C" then
        '(content, rest) ← take_str (Z.to_nat n) rest;
        match rest with
        | String "000" rest => l ← scp_receive fuel rest; Some (File mode name content :: l)
        | _ => None
        end
      else None
  end.

Lemma take_str_app l r : take_str (String.length l) (l +:+ r) = Some (l, r).
Proof.
  induction l as [|a l IH]; [done|].
  change (String a l +:+ r) with (String a (l +:+ r)). cbn [String.length take_str]. by rewrite IH.
Qed.

Lemma scp_line mode n name rest :
  Count " " mode = 0%nat → Count " " name = 0%nat → Count "010" mode = 0%nat → Count "010" name = 0%nat → (0 ≤ n < 2 ^ 63)%Z →
  Docker.Cut "010" (println mode (Itoa n) name +:+ rest) = Some (mode +:+ " " +:+ Itoa n +:+ " " +:+ name, rest) ∧
  scp_header (mode +:+ " " +:+ Itoa n +:+ " " +:+ name) = Some (mode, n, name).
Proof.
  intros Hm Hn Hm' Hn' Hz. split.
  - unfold println, newline. rewrite !str_app_assoc.
    replace (mode +:+ " " +:+ Itoa n +:+ " " +:+ name +:+ String "010" "" +:+ rest)
      with ((mode +:+ " " +:+ Itoa n +:+ " " +:+ name) +:+ String "010" rest) by (by rewrite !str_app_assoc).
    apply Docker.Cut_split. rewrite !Count_app, Hm', Hn', Count_Itoa by (done || lia). done.
  - unfold scp_header.
    change (mode +:+ " " +:+ Itoa n +:+ " " +:+ name) with (mode +:+ String " " (Itoa n +:+ String " " name)).
    rewrite (Split_app " " mode), (Split_app " " (Itoa n)), Split_word by (done || by rewrite ?Count_Itoa by (done || lia)).
    by rewrite ParseUint_Itoa.
Qed.

(** What a receiver makes of the two lines and anything after them. *)
Lemma scp_receive_header dir size to rest :
  Count " " dir = 0%nat → Count "010" dir = 0%nat → Count " " to = 0%nat → Count "010" to = 0%nat → (0 ≤ size < 2 ^ 63)%Z →
  scp_receive 2 (scp_header_lines dir size to +:+ rest) =
    '(content, rest) ← take_str (Z.to_nat size) rest;
    match rest with
    | String "000" rest => l ← scp_receive 0 rest; Some [Dir "D0755" dir; File "C0644" to content] ≫= λ k, Some (k ++ l)%list
    | _ => None
    end.
Proof.
  intros Hds Hdn Hs Hn Hl. unfold scp_header_lines. rewrite str_app_assoc. set (rest' := println "C0644" _ _ +:+ _).
  destruct (scp_line "D0755" 0 dir rest') as [E1 E2]; [done..|lia|].
  change (Itoa 0) with "0" in E1, E2.
  destruct (println "D0755" "0" dir +:+ rest') eqn:E; [done|]. rewrite <-E in *. clear E.
  cbn [scp_receive]. rewrite E1. cbn [mbind option_bind]. rewrite E2. cbn [mbind option_bind].
  change (HasPrefix "D0755" "D") with true. cbn iota. subst rest'.
  destruct (scp_line "C0644" size to rest) as [E3 E4]; [done..|].
  destruct (println "C0644" _ to +:+ _) eqn:E; [done|]. rewrite <-E in *. clear E.
  rewrite E3. cbn [mbind option_bind]. rewrite E4. cbn [mbind option_bind].
  change (HasPrefix "C0644" "D") with false. change (HasPrefix "C0644" "C") with true. cbn iota.
  destruct (take_str (Z.to_nat size) rest) as [[content r]|]; [|done]. cbn [mbind option_bind].
  destruct r as [|[[] [] [] [] [] [] [] []] r]; try done. by destruct r.
Qed.

(** The transfer of a file of any content: a receiver of the protocol gets the directory
    and the file, with exactly its bytes. *)
Lemma scp_roundtrip content to :
  Count " " to = 0%nat → Count "010" to = 0%nat → (Z.of_nat (String.length content) < 2 ^ 63)%Z →
  scp_receive 2 (scp_wire (Z.of_nat (String.length content)) content to None None) =
    Some [Dir "D0755" ".kubevpn"; File "C0644" to content].
Proof.
  intros Hs Hn Hl. unfold scp_wire, sCopy, cut_off. rewrite scp_receive_header by (done || lia).
  by rewrite Nat2Z.id, take_str_app.
Qed.

(** *** What is cut off *)

Lemma substring_prefix n s : ∃ more, String.substring 0 n s +:+ more = s.
Proof.
  revert n. induction s as [|a s IH]; intros [|n]; [by exists ""..|by exists (String a s)|].
  destruct (IH n) as [more E]. exists more. cbn [String.substring].
  change (String a (String.substring 0 n s +:+ more) = String a s). by rewrite E.
Qed.

Lemma str_app_inj_length a b c d : a +:+ b = c +:+ d → String.length a = String.length c → a = c ∧ b = d.
Proof.
  revert c. induction a as [|x a IH]; intros [|y c] E L; try discriminate L; [done|].
  change (String x (a +:+ b) = String y (c +:+ d)) in E. injection E as -> E. injection L as L.
  destruct (IH c E L) as [-> ->]. done.
Qed.

(** Of two ways to split a text, the shorter front is a front of the longer one. *)
Lemma str_app_split a b c d :
  a +:+ b = c +:+ d → (∃ m, m ≠ "" ∧ a +:+ m = c) ∨ (∃ m, a = c +:+ m ∧ m +:+ b = d).
Proof.
  revert c. induction a as [|x a IH]; intros [|y c] E.
  - right. by exists "".
  - left. by exists (String y c).
  - right. by exists (String x a).
  - change (String x (a +:+ b) = String y (c +:+ d)) in E. injection E as -> E.
    destruct (IH c E) as [(m & Hm & <-)|(m & -> & <-)]; [left; by exists m|right; by exists m].
Qed.

(** Whatever breaks, the bytes sent are a front of the whole transfer. *)
Lemma scp_wire_prefix size content to broken cut :
  ∃ more, scp_wire size content to broken cut +:+ more = scp_header_lines ".kubevpn" size to +:+ content +:+ NUL.
Proof.
  assert (∃ m, match sCopy content size broken with
    | (sent, Some _) => scp_header_lines ".kubevpn" size to +:+ sent
    | (sent, None) => scp_header_lines ".kubevpn" size to +:+ sent +:+ NUL end +:+ m =
    scp_header_lines ".kubevpn" size to +:+ content +:+ NUL) as [m Em].
  { unfold sCopy. destruct broken as [[n e]|].
    - destruct (substring_prefix n content) as [m E]. exists (m +:+ NUL). rewrite str_app_assoc. f_equal.
      rewrite <-str_app_assoc. by rewrite E.
    - exists "". by rewrite !str_app_assoc. }
  unfold scp_wire. destruct (sCopy content size broken) as [sent [e|]]; rewrite <-Em; unfold cut_off; destruct cut as [n|];
    try (by exists m);
    match goal with |- context [String.substring 0 n ?w] => destruct (substring_prefix n w) as [m2 E2]; exists (m2 +:+ m) end;
    rewrite <-str_app_assoc; by rewrite E2.
Qed.

(** ** The server's side *)

Definition plain (name : string) : Prop := Count " " name = 0%nat ∧ Count "010" name = 0%nat.

Definition executable (n : node) : node := match n with RFile data _ => RFile data true | RDir => RDir end.

(** The programs of the server, of which only successes are told: [scp] reads the lines of
    a directory and a file, takes as many bytes as the line announces and then a zero byte,
    and fails when the input ends before; it writes no file before the line of one has come;
    what follows the zero byte is left open.  [chmod +x] and [mv] fail on a path that names
    nothing; [mv] to a directory moves into it. *)
Class RemoteLaws (H : Type) `{RemoteHost H} := {
  sink_file h dir to n rest h' : plain dir → plain to → (0 ≤ n < 2 ^ 63)%Z →
    scp_sink h (scp_header_lines dir n to +:+ rest) = (h', None) →
    ∃ content more, rest = content +:+ NUL +:+ more ∧ Z.of_nat (String.length content) = n ∧
      (more = "" → ∃ x, node_at h' ("~/" +:+ dir +:+ "/" +:+ to) = Some (RFile content x));
  sink_short h dir to n wire more h' e data x p : plain dir → plain to → (0 ≤ n < 2 ^ 63)%Z →
    wire +:+ more = scp_header_lines dir n to → more ≠ "" → scp_sink h wire = (h', e) →
    node_at h' p = Some (RFile data x) → node_at h p = Some (RFile data x);
  chmod_x h p h' : plain p → sh h ("chmod +x " +:+ p) = (h', None) →
    ∃ n, node_at h p = Some n ∧ node_at h' p = Some (executable n);
  mv h a b h' : plain a → plain b → sh h ("mv " +:+ a +:+ " " +:+ b) = (h', None) →
    ∃ n, node_at h a = Some n ∧ (node_at h' b = Some n ∨ node_at h' b = Some RDir) }.

Section delivery.
Context {H : Type} `{RemoteLaws H}.

(** The commands ran one after the other and none failed. *)
Fixpoint ran (h : H) (commands : list string) (h' : H) : Prop :=
  match commands with
  | [] => h' = h
  | c :: commands => ∃ h1, sh h c = (h1, None) ∧ ran h1 commands h'
  end.

Lemma scp_commands_ran sv i h commands h' : scp_commands sv i h commands = (h', Ret tt) → ran h commands h'.
Proof.
  revert i h; induction commands as [|c commands IH]; intros i h E; cbn in *; [by simplify_eq|].
  destruct (sv_session sv i); [done|]. destruct (sh h c) as [h1 [e|]] eqn:E1; [done|]. eauto.
Qed.

(** The file as [Stat] saw it is the file that is sent. *)
Definition unchanged (t : transfer) (content : string) : Prop :=
  ∀ size, tr_stat t = inl size → size = Z.of_nat (String.length content) ∧ (size < 2 ^ 63)%Z.

(** A copy without an error: the file is there with exactly its bytes, or the input was
    gone before its line was complete and no file was written; then the commands ran. *)
Lemma SCP_delivers sv t h content to commands h' :
  plain to → unchanged t content → SCP sv t h content to commands = (h', Ret tt) →
  ∃ h1, ran h1 commands h' ∧
    ((∃ x, node_at h1 ("~/.kubevpn/" +:+ to) = Some (RFile content x)) ∨
     tr_cut t ≠ None ∧ ∀ p data x, node_at h1 p = Some (RFile data x) → node_at h p = Some (RFile data x)).
Proof.
  intros Hto Hun E. unfold SCP in E. destruct (sv_dial sv); [discriminate E|]. destruct (sv_session sv 0); [discriminate E|].
  unfold scp_main in E. destruct (tr_open t); [discriminate E|]. destruct (tr_stat t) as [size|] eqn:Es; [|discriminate E].
  destruct (Hun size Es) as [Hsize Hlt]. destruct (tr_pipe_first t); [|discriminate E].
  destruct (scp_sink h _) as [h1 [e|]] eqn:Ek; [discriminate E|]. cbn in E. apply scp_commands_ran in E.
  exists h1. split; [exact E|]. assert (plain ".kubevpn") as Hdir by done. assert (0 ≤ size < 2 ^ 63)%Z as Hn by lia.
  destruct (scp_wire_prefix size content to (tr_broken t) (tr_cut t)) as [more Em].
  destruct (str_app_split _ _ _ _ Em) as [(m & Hm & Ew)|(rest & Ew & Er)].
  - right. split; [|intros p data x; by apply (sink_short h ".kubevpn" to size _ m h1 None data x p Hdir Hto Hn Ew Hm Ek)].
    intros Hc. rewrite Hc in Ew. revert Ew. unfold scp_wire, sCopy, cut_off.
    destruct (tr_broken t) as [[k e]|]; intros Ew; apply (f_equal String.length) in Ew; rewrite !length_str_app in Ew;
      (destruct m; [done|]); cbn [String.length] in Ew; lia.
  - left. rewrite Ew in Ek. destruct (sink_file h _ _ _ _ _ Hdir Hto Hn Ek) as (c & more' & -> & Hc & Hfile).
    rewrite str_app_assoc in Er. destruct (str_app_inj_length _ _ _ _ Er) as [-> E2]; [lia|].
    destruct more' as [|a more']; [by apply Hfile|]. discriminate E2.
Qed.
End delivery.

(** ** Installation *)

(** Calls in order: the first error ends them. *)
Definition first_error (l : list (option error)) : option error := List.fold_right (λ o r, match o with Some e => Some e | None => r end) None l.

(** What the installation meets: the check for the command, the release, temporary files
    (made and closed), the downloaded archive, opening and extracting it, [Chmod], [Remove], dialling
    and the transfer of a file. *)
Record install_env := MkInstall {
  in_probe : string + error; in_manifest : string * string * string + error;
  in_temp : string + error; in_close : option error; in_download : string → list (string * string) + error;
  in_tempBin : string + error; in_closeBin : option error; in_open : option error; in_extract : option error;
  in_chmod : option error; in_remove : option error;
  in_server : ssh_server; in_transfer : string → transfer }.

Definition probe_command : string := "hash kubevpn || type kubevpn || which kubevpn || command -v kubevpn".
Definition install_commands : list string :=
  ["chmod +x ~/.kubevpn/kubevpn"; "mv ~/.kubevpn/kubevpn /usr/local/bin/kubevpn"].

Section install.
Context {H : Type} `{RemoteHost H}.

(** The temporary files left behind, the server afterwards, the result. *)
Record installed := MkInstalled { is_left : list string; is_host : H; is_result : outcome unit }.

(** [UnzipKubeVPNIntoFile]: opening the archive may fail, it may have no kubevpn, and
    writing the file may fail. *)
Definition UnzipKubeVPNIntoFile (archive : list (string * string)) (opening writing : option error) : outcome string :=
  match opening with
  | Some e => Fail e
  | None => match unzip archive with
            | None => Fail (Errorf "can not found kubevpn")
            | Some bin => match writing with Some e => Fail e | None => Ret bin end
            end
  end.

(** The part after the download.  The server is as [SCP] leaves it; the daemon is started
    there afterwards, in the background. *)
Definition install_downloaded (env : install_env) (h : H) (temp : string) (archive : list (string * string)) : installed :=
  match in_tempBin env with
  | inr e => MkInstalled [temp] h (Fail e)
  | inl tempBin =>
      match in_closeBin env with
      | Some e => MkInstalled [temp; tempBin] h (Fail e)
      | None =>
          match UnzipKubeVPNIntoFile archive (in_open env) (in_extract env) with
          | Fail e => MkInstalled [temp; tempBin] h (Fail e)
          | Panic => MkInstalled [temp; tempBin] h Panic
          | Ret bin =>
              match first_error [in_chmod env; in_remove env] with
              | Some e => MkInstalled [temp; tempBin] h (Fail e)
              | None =>
                  let '(h, r) := SCP (in_server env) (in_transfer env bin) h bin "kubevpn" install_commands in
                  MkInstalled [tempBin] h r
              end
          end
      end
  end.

Definition remoteInstallKubevpnIfCommandNotFound (env : install_env) (h : H) : installed :=
  match in_probe env with
  | inl _ => MkInstalled [] h (Ret tt)
  | inr _ =>
      match in_manifest env with
      | inr e => MkInstalled [] h (Fail e)
      | inl (_, _, url) =>
          match in_temp env with
          | inr e => MkInstalled [] h (Fail e)
          | inl temp =>
              match in_close env with
              | Some e => MkInstalled [temp] h (Fail e)
              | None =>
                  match in_download env url with
                  | inr e => MkInstalled [temp] h (Fail e)
                  | inl archive => install_downloaded env h temp archive
                  end
              end
          end
      end
  end.
End install.
Arguments installed : clear implicits.

Section installs.
Context {H : Type} `{RemoteLaws H}.

(** The steps of an installation that succeeded. *)
Lemma install_inv env (h : H) :
  (∀ out, in_probe env ≠ inl out) → is_result (remoteInstallKubevpnIfCommandNotFound env h) = Ret tt →
  ∃ v c url archive bin tempBin h',
    in_manifest env = inl (v, c, url) ∧ in_download env url = inl archive ∧ unzip archive = Some bin ∧
    in_tempBin env = inl tempBin ∧
    SCP (in_server env) (in_transfer env bin) h bin "kubevpn" install_commands = (h', Ret tt) ∧
    remoteInstallKubevpnIfCommandNotFound env h = MkInstalled [tempBin] h' (Ret tt).
Proof.
  intros Hp. unfold remoteInstallKubevpnIfCommandNotFound, install_downloaded, UnzipKubeVPNIntoFile.
  destruct (in_probe env) as [out|e]; [by destruct (Hp out)|].
  destruct (in_manifest env) as [[[v c] url]|]; [|done]. destruct (in_temp env) as [temp|]; [|done].
  destruct (in_close env); [done|]. destruct (in_download env url) as [archive|] eqn:Ed; [|done].
  destruct (in_tempBin env) as [tempBin|]; [|done]. destruct (in_closeBin env); [done|].
  destruct (in_open env); [done|].
  destruct (unzip archive) as [bin|] eqn:Eu; [|done]. destruct (in_extract env); [done|].
  destruct (first_error _); [done|].
  destruct (SCP _ _ _ _ _ _) as [h' r] eqn:Es. cbn. intros ->. by eexists _, _, _, _, _, _, _.
Qed.

(** [chmod] and [mv] of the file. *)
Lemma install_commands_ran (h h' : H) :
  ran h install_commands h' →
  ∃ n, node_at h "~/.kubevpn/kubevpn" = Some n ∧
    (node_at h' "/usr/local/bin/kubevpn" = Some (executable n) ∨ node_at h' "/usr/local/bin/kubevpn" = Some RDir).
Proof.
  intros (h1 & E1 & h2 & E2 & ->).
  destruct (chmod_x h "~/.kubevpn/kubevpn" h1 ltac:(done) E1) as (n & Hn & Hn1).
  destruct (mv h1 "~/.kubevpn/kubevpn" "/usr/local/bin/kubevpn" h2 ltac:(done) ltac:(done) E2) as (n' & Hn' & Hmv).
  exists n. split; [done|]. assert (n' = executable n) as <- by congruence. exact Hmv.
Qed.

End installs.

(** *** A server *)

(** Every message has a line of its own. *)
Lemma Cut_Count c s line rest : Docker.Cut c s = Some (line, rest) → (S (Count c rest) ≤ Count c s)%nat.
Proof.
  revert line. induction s as [|a s IH]; intros line E; [discriminate E|]. cbn [Docker.Cut] in E. cbn [Count].
  destruct (Ascii.eqb a c) eqn:Ea; [injection E as <- <-; lia|].
  destruct (Docker.Cut c s) as [[l r]|]; [|discriminate E]. injection E as <- <-. specialize (IH l eq_refl). lia.
Qed.

Lemma take_str_Count n c s l r : take_str n s = Some (l, r) → (Count c r ≤ Count c s)%nat.
Proof.
  revert s l. induction n as [|n IH]; intros s l E; [by injection E as <- <-|].
  destruct s as [|a s]; [discriminate E|]. cbn [take_str] in E.
  apply bind_Some in E as ([l' r'] & E & [= <- <-]). specialize (IH _ _ E). cbn [Count]. destruct (Ascii.eqb a c); lia.
Qed.

Lemma scp_receive_lines fuel s l : scp_receive fuel s = Some l → (length l ≤ Count "010" s)%nat.
Proof.
  revert s l. induction fuel as [|fuel IH]; intros s l E; [destruct s; [by injection E as <-|discriminate E]|].
  destruct s as [|a s]; [by injection E as <-|]. remember (String a s) as w. cbn [scp_receive] in E. rewrite Heqw in E.
  rewrite <-Heqw in E. apply bind_Some in E as ([line rest] & Ec%Cut_Count & E).
  apply bind_Some in E as ([[mode n] name] & _ & E). destruct (HasPrefix mode "D").
  - apply bind_Some in E as (l' & E%IH & [= <-]). cbn. lia.
  - destruct (HasPrefix mode "C"); [|discriminate E].
    apply bind_Some in E as ([content rest'] & Et%(take_str_Count _ "010") & E).
    destruct rest' as [|b rest']; [discriminate E|]. assert (∃ l', scp_receive fuel rest' = Some l' ∧ l = File mode name content :: l') as (l' & E'%IH & ->).
    { destruct b as [[] [] [] [] [] [] [] []]; try discriminate E. apply bind_Some in E as (l' & E & [= <-]). eauto. }
    cbn [Count] in Et. cbn [length]. destruct (Ascii.eqb b "010"); lia.
Qed.

(** What is missing of the two lines has the end of a line. *)
Lemma missing_newline x m y : x +:+ m = y +:+ newline → m ≠ "" → (1 ≤ Count "010" m)%nat.
Proof.
  intros E Hm. destruct (str_app_split _ _ _ _ E) as [(k & Hk & <-)|(k & -> & E2)].
  - rewrite str_app_assoc in E. apply str_app_inj_length in E as [_ ->]; [|done]. rewrite Count_app. cbn. lia.
  - destruct k as [|a k]; [change (m = newline) in E2; by rewrite E2|]. change (String a (k +:+ m) = newline) in E2. injection E2 as -> E2.
    destruct k; [|discriminate E2]. by destruct Hm.
Qed.

Lemma short_header_lines dir to n wire more :
  plain dir → plain to → (0 ≤ n)%Z → wire +:+ more = scp_header_lines dir n to → more ≠ "" → (Count "010" wire ≤ 1)%nat.
Proof.
  intros [_ Hd] [_ Ht] Hn E Hm. unfold scp_header_lines in E.
  assert (1 ≤ Count "010" more)%nat as H1.
  { apply (missing_newline wire more (println "D0755" "0" dir +:+ "C0644" +:+ " " +:+ Itoa n +:+ " " +:+ to)); [|done].
    rewrite E. unfold println. by rewrite !str_app_assoc. }
  apply (f_equal (Count "010")) in E. unfold println, newline in E. rewrite !Count_app, Hd, Ht, Count_Itoa in E by (done || lia).
  cbn in E. lia.
Qed.

#[export] Instance map_host : RemoteHost (gmap string node) := {|
  scp_sink h wire :=
    match scp_receive 2 wire with
    | Some [Dir _ d; File _ f c] => (<["~/" +:+ d +:+ "/" +:+ f := RFile c false]> h, None)
    | Some _ => (h, None)
    | None => (h, Some (Errorf "exit status 1"))
    end;
  sh h cmd :=
    match Split " " cmd with
    | ["chmod"; "+x"; p] =>
        match h !! p with Some n => (<[p := executable n]> h, None) | None => (h, Some (Errorf "exit status 1")) end
    | ["mv"; a; b] =>
        match h !! a, h !! b with
        | None, _ => (h, Some (Errorf "exit status 1"))
        | Some n, Some RDir => (h, Some (Errorf "exit status 1"))
        | Some n, _ => (<[b := n]> (delete a h), None)
        end
    | _ => (h, Some (Errorf "exit status 127"))
    end;
  node_at h p := h !! p |}.

#[export] Instance map_laws : RemoteLaws (gmap string node).
Proof.
  split.
  - intros h dir to n rest h' [Hd Hd'] [Ht Ht'] Hn E. cbn -[scp_receive] in E.
    rewrite scp_receive_header in E by done.
    destruct (take_str (Z.to_nat n) rest) as [[content r]|] eqn:Et; [|discriminate E]. cbn -[scp_receive] in E.
    assert (∀ k s l r, take_str k s = Some (l, r) → s = l +:+ r ∧ String.length l = k) as Htake.
    { clear. induction k as [|k IH]; intros s l r E; [by injection E as <- <-|]. destruct s as [|a s]; [discriminate E|].
      cbn in E. apply bind_Some in E as ([l' r'] & E & [= <- <-]). apply IH in E as [-> <-]. done. }
    apply Htake in Et as [-> Hl]. destruct r as [|b r]; [discriminate E|].
    assert (b = "000"%char) as -> by (by destruct b as [[] [] [] [] [] [] [] []]).
    destruct r as [|c r]; [|discriminate E]. cbn in E. injection E as <-.
    exists content, "". split; [done|]. split; [lia|]. intros _. exists false. cbn. by rewrite lookup_insert_eq.
  - intros h dir to n wire more h' e data x p Hd Ht Hn E Hm Es. cbn -[scp_receive] in Es.
    pose proof (short_header_lines _ _ _ _ _ Hd Ht (proj1 Hn) E Hm) as Hc.
    destruct (scp_receive 2 wire) as [l|] eqn:El; [|by injection Es as <- <-].
    apply scp_receive_lines in El. destruct l as [|? [|? l]]; [| |cbn in El; lia].
    + by injection Es as <- <-.
    + destruct s; by injection Es as <- <-.
  - intros h p h' [Hp _] E. cbn -[Split] in E.
    change ("chmod +x " +:+ p) with ("chmod" +:+ String " " ("+x" +:+ String " " p)) in E.
    rewrite (Split_app " " "chmod"), (Split_app " " "+x"), Split_word in E by done.
    destruct (h !! p) as [n|] eqn:En; [|discriminate E]. injection E as <-. exists n. split; [done|].
    cbn. by rewrite lookup_insert_eq.
  - intros h a b h' [Ha _] [Hb _] E. cbn -[Split] in E.
    change ("mv " +:+ a +:+ " " +:+ b) with ("mv" +:+ String " " (a +:+ String " " b)) in E.
    rewrite (Split_app " " "mv"), (Split_app " " a), Split_word in E by done.
    destruct (h !! a) as [n|] eqn:En; [|discriminate E]. exists n. split; [done|]. left.
    assert (h' = <[b := n]> (delete a h)) as -> by (destruct (h !! b) as [[]|]; try discriminate E; by injection E as <-).
    cbn. by rewrite lookup_insert_eq.
Qed.

Definition example_transfer (bin : string) : transfer :=
  MkTransfer None (if (Z.of_nat (String.length bin) <? 2 ^ 63)%Z then inl (Z.of_nat (String.length bin)) else inr EOF) true None None.

Definition example_install (t : string → transfer) : install_env :=
  MkInstall (inr (Errorf "exit status 1")) (inl ("v2.2.3", "abc", "https://github.com/kubevpn.zip"))
    (inl "/tmp/1") None (λ _, inl [("LICENSE", "MIT"); ("bin/kubevpn", "ELF binary")]) (inl "/tmp/kubevpn2") None None None None None
    (MkSshServer None (λ _, None)) t.


(** An input that is gone before the line of the file: an old file is installed as the new
    one, and no error is reported. *)
Example stale_file_installed :
  let env := example_install (λ bin, MkTransfer None (tr_stat (example_transfer bin)) true None (Some 17%nat)) in
  let r := remoteInstallKubevpnIfCommandNotFound env ({["~/.kubevpn/kubevpn" := RFile "old" false]} : gmap string node) in
  is_result r = Ret tt ∧ node_at (is_host r) "/usr/local/bin/kubevpn" = Some (RFile "old" true).
Proof. vm_compute. done. Qed.

(** The check of the length is lost: whatever [Stat] said, a copy without a write error
    counts as complete, and the receiver is sent a message it cannot accept. *)
Lemma sCopy_ignores_length content size : sCopy content size None = (content, None).
Proof. done. Qed.
Lemma grown_file_refused : scp_receive 2 (scp_wire 3 "abcd" "kubevpn" None None) = None.
Proof. vm_compute. done. Qed.

(** ** The mapped port *)

(** [portMap]: the goroutine starts the tunnel ([util.Main]) again and again; its [ready]
    signal and its first error are kept by channels that hold one value, and whichever the
    [select] takes first decides. *)
Record port_map := MkPortMap { pm_ready : bool; pm_err : option error; pm_result : option (outcome Z); pm_stopped : bool }.
Definition pm0 : port_map := MkPortMap false None None false.

Inductive map_event := TunnelReady | TunnelFailed (e : error) | SelectReady | SelectErr | MapCancelled.

Definition map_step (localPort : Z) (ev : map_event) (m : port_map) : option port_map :=
  match ev with
  | TunnelReady => if pm_stopped m then None else Some (MkPortMap true (pm_err m) (pm_result m) false)
  | TunnelFailed e => if pm_stopped m then None
                      else Some (MkPortMap (pm_ready m) (Some (default e (pm_err m))) (pm_result m) false)
  | SelectReady => match pm_result m with
                   | None => if pm_ready m then Some (MkPortMap false (pm_err m) (Some (Ret localPort)) (pm_stopped m)) else None
                   | Some _ => None
                   end
  | SelectErr => match pm_result m, pm_err m with
                 | None, Some e => Some (MkPortMap (pm_ready m) None (Some (Fail e)) (pm_stopped m))
                 | _, _ => None
                 end
  | MapCancelled => Some (MkPortMap (pm_ready m) (pm_err m) (pm_result m) true)
  end.

Fixpoint map_run (localPort : Z) (evs : list map_event) (m : port_map) : option port_map :=
  match evs with [] => Some m | ev :: evs => m ← map_step localPort ev m; map_run localPort evs m end.

(** Before that: a free port, and an SSH connection made and closed as a check. *)
Definition portMap_prepare (port : outcome Z) (dial : outcome unit) : outcome Z := p ← port; _ ← dial; Ret p.

(** The same loop and the same [select] at the end of [SshJump]. *)
Definition jump_step (localPort : Z) (ev : map_event) (m : port_map) : option port_map := map_step localPort ev m.

(** What the channels and the answer say about the events so far. *)
Definition map_answer (localPort : Z) (evs : list map_event) (r : option (outcome Z)) : Prop :=
  match r with
  | Some (Ret p) => p = localPort ∧ TunnelReady ∈ evs
  | Some (Fail e) => TunnelFailed e ∈ evs
  | Some Panic => False
  | None => True
  end.
Definition map_ok (localPort : Z) (evs : list map_event) (m : port_map) : Prop :=
  (pm_ready m = true → TunnelReady ∈ evs) ∧ (∀ e, pm_err m = Some e → TunnelFailed e ∈ evs) ∧
  map_answer localPort evs (pm_result m).

Lemma map_ok_later localPort evs ev m : map_ok localPort evs m → map_ok localPort (evs ++ [ev])%list m.
Proof.
  intros (H1 & H2 & H3). split_and!.
  - intros Hr. apply elem_of_app. auto.
  - intros e He. apply elem_of_app. auto.
  - destruct (pm_result m) as [[]|]; cbn in *; rewrite ?elem_of_app; intuition.
Qed.

Lemma map_step_ok localPort evs ev m m' :
  map_ok localPort evs m → map_step localPort ev m = Some m' → map_ok localPort (evs ++ [ev])%list m'.
Proof.
  intros H%(map_ok_later _ _ ev) E. destruct H as (H1 & H2 & H3). destruct m as [rd er res st].
  assert (ev ∈ (evs ++ [ev])%list) as Hev by (apply elem_of_app; right; by apply list_elem_of_singleton).
  cbn in *. destruct ev; cbn in E.
  - destruct st; simplify_eq. by split_and!.
  - destruct st; simplify_eq. split_and!; [done| |done]. cbn. intros e' [= <-]. destruct er; cbn; auto.
  - destruct res; [done|]. destruct rd; simplify_eq. split_and!; [done|done|]. cbn. auto.
  - destruct res; [done|]. destruct er as [e|]; simplify_eq. split_and!; [done|done|]. cbn. auto.
  - simplify_eq. by split_and!.
Qed.

(** [portMap] answers with the port only when a tunnel was ready, and with an error only
    when a tunnel had failed with it. *)
Lemma portMap_answers localPort evs m :
  map_run localPort evs pm0 = Some m → map_answer localPort evs (pm_result m).
Proof.
  assert (∀ evs2 evs1 m0, map_ok localPort evs1 m0 → map_run localPort evs2 m0 = Some m → map_ok localPort (evs1 ++ evs2)%list m) as H.
  { induction evs2 as [|ev evs2 IH]; intros evs1 m0 HQ E.
    { unfold map_run in E. simplify_eq. by rewrite app_nil_r. }
    cbn in E. apply bind_Some in E as (m1 & E1 & E). rewrite cons_middle, app_assoc. eauto using map_step_ok. }
  intros E. apply (H evs [] pm0); [|done]. split_and!; done.
Qed.

(** ** The terminal *)

(** [enterTerminal]: the calls in order with their errors; the result is whether the
    terminal was made raw, whether it was restored, and the error. *)
Record terminal_calls := MkTerminalCalls {
  tc_dial : option error; tc_session : option error; tc_raw : option error; tc_size : option error;
  tc_pty : option error; tc_shell : option error; tc_wait : option error }.

Definition enterTerminal (c : terminal_calls) : bool * bool * option error :=
  match first_error [tc_dial c; tc_session c] with
  | Some e => (false, false, Some e)
  | None => match tc_raw c with
            | Some e => (false, false, Some (ErrorfV "terminal make raw" e))
            | None => (true, true, match tc_size c with
                                   | Some e => Some (ErrorfV "terminal get size" e)
                                   | None => first_error [tc_pty c; tc_shell c; tc_wait c]
                                   end)
            end
  end.

(** [Log]: a message with its line end; [PrintLine] frames a message, and panics for one
    of fewer than two bytes ([strings.Repeat] of a negative count). *)
Definition Log (msg : string) : string := msg +:+ newline.
Definition PrintLine (msg : string) : outcome string :=
  if (String.length msg <? 2)%nat then Panic
  else let line := "+" +:+ String.concat "" (replicate (String.length msg - 2) "-") +:+ "+" in
       Ret (Log line +:+ Log msg +:+ Log line).
