(* ===== verification/ImageTransfer.v ===== *)
(** * Copying an image to another registry

    [pkg/util/image.go]: [TransferImage] pulls and tags an image and either pushes it from
    this machine, or saves it to a file, copies the file to an SSH server ([RemoteInstall])
    and loads and pushes it there.  The Docker daemon is a parameter. *)
From Stdlib Require Import ZArith Lia Ascii.
From stdpp Require Import base strings numbers list.
From S2P Require Import Prelude GoStrings GoPath Ssh RemoteInstall.
From stdpp Require Import list.

Local Open Scope string_scope.

(** What pulling an image meets: the name, the credentials and their encoding, the request
    and the display of its progress. *)
Record image_request := MkImageRequest {
  ir_parse : string → option error; ir_auth : string → option error; ir_encode : option error;
  ir_request : string → option error; ir_display : option error }.

(** The steps [PullImage] and the pushing half of [TransferImage] share. *)
Definition image_steps (r : image_request) (img : string) : option error :=
  first_error [ir_parse r img; ir_auth r img; ir_encode r; ir_request r img; ir_display r].

Definition PullImage (r : image_request) (img : string) : option error := image_steps r img.

(** The rest of the Docker daemon and the temporary file of a saved image. *)
Record docker := MkDocker {
  dk_client : option error; dk_pull : image_request; dk_tag : string → string → option error; dk_push : image_request;
  dk_save : string → string + error; dk_temp : string + error; dk_copy : option error; dk_close : option error }.

(** The command on the server. *)
Definition load_command (filename imageTarget : string) : string :=
  "(docker load image -i ~/.kubevpn/" +:+ filename +:+ " && docker push " +:+ imageTarget +:+ ") || (nerdctl image load -i ~/.kubevpn/" +:+
  filename +:+ " && nerdctl image push " +:+ imageTarget +:+ ")".

Section transfer.
Context {H : Type} `{RemoteHost H}.

(** What a transfer left behind: the image that was pushed from here, the server
    afterwards, temporary files, the result. *)
Record transferred := MkTransferred {
  ti_pushed : option string; ti_host : H; ti_left : list string; ti_result : outcome unit }.

Definition failed (h : H) (e : error) : transferred := MkTransferred None h [] (Fail e).

(** The server half: save, copy, load.  A panic of the goroutine ends the process before
    the temporary file is removed. *)
Definition transfer_over_ssh (d : docker) (sv : ssh_server) (t : string → transfer) (h : H) (imageTarget : string) : transferred :=
  match dk_save d imageTarget with
  | inr e => failed h e
  | inl content =>
      match dk_temp d with
      | inr e => failed h e
      | inl file =>
          match first_error [dk_copy d; dk_close d] with
          | Some e => MkTransferred None h [file] (Fail e)
          | None =>
              let filename := Base file in
              let '(h, r) := SCP sv (t content) h content filename [load_command filename imageTarget] in
              MkTransferred None h (match r with Panic => [file] | _ => [] end) r
          end
      end
  end.

Definition TransferImage (d : docker) (sv : ssh_server) (t : string → transfer) (h : H)
    (conf : SshConfig) (imageSource imageTarget : string) : transferred :=
  match first_error [dk_client d; PullImage (dk_pull d) imageSource; dk_tag d imageSource imageTarget] with
  | Some e => failed h e
  | None =>
      if String.eqb (ConfigAlias conf) "" && String.eqb (Addr conf) "" then
        match image_steps (dk_push d) imageTarget with
        | Some e => failed h e
        | None => MkTransferred (Some imageTarget) h [] (Ret tt)
        end
      else transfer_over_ssh d sv t h imageTarget
  end.
End transfer.

Lemma first_error_none l : first_error l = None → Forall (λ o, o = None) l.
Proof. induction l as [|[e|] l IH]; cbn; [done|done|]. intros H. by constructor; [|apply IH]. Qed.

(** A transfer over SSH that reports no error: the server had the file that its command
    reads, with exactly the saved image (unless the input of the transfer was gone before
    the line of the file), then the command ran and did not fail, and no temporary file is
    left. *)
Lemma transfer_image_delivered {H} `{RemoteLaws H} d sv t (h : H) conf source target :
  (∀ content, unchanged (t content) content) →
  (∀ file, dk_temp d = inl file → plain (Base file)) →
  (ConfigAlias conf ≠ "" ∨ Addr conf ≠ "") →
  ti_result (TransferImage d sv t h conf source target) = Ret tt →
  ∃ file content h1, dk_temp d = inl file ∧ dk_save d target = inl content ∧
    ((∃ x, node_at h1 ("~/.kubevpn/" +:+ Base file) = Some (RFile content x)) ∨ tr_cut (t content) ≠ None) ∧
    sh h1 (load_command (Base file) target) = (ti_host (TransferImage d sv t h conf source target), None) ∧
    ti_left (TransferImage d sv t h conf source target) = [].
Proof.
  intros Hun Hname Hconf. unfold TransferImage, transfer_over_ssh.
  destruct (first_error _); [done|].
  assert (String.eqb (ConfigAlias conf) "" && String.eqb (Addr conf) "" = false) as ->.
  { destruct Hconf as [Hc|Hc]; apply String.eqb_neq in Hc as ->; [done|]. by destruct (String.eqb _ _). }
  destruct (dk_save d target) as [content|]; [|done]. destruct (dk_temp d) as [file|]; [|done].
  destruct (first_error _); [done|]. specialize (Hname file eq_refl).
  destruct (SCP _ _ _ _ _ _) as [h' r] eqn:Es. cbn [ti_result ti_host ti_left]. intros ->.
  apply SCP_delivers in Es as (h1 & (h2 & E2 & ->) & Hsent); [|done|by apply Hun].
  exists file, content, h1. split_and!; [done|done| |done|done]. destruct Hsent as [?|[? _]]; auto.
Qed.
