(* ===== verification/Utils.v ===== *)
(** * Servers, permissions and helpers

    The parts of [pkg/handler/connect.go], [pkg/util/util.go], [pod.go] and [getcidr.go]
    that serve several components: the accept loop of the servers ([Run]), the check of a
    service account's permissions ([CanI]), the pod that reads the cluster's network
    configuration ([createCIDRPod]), commands in a pod ([Shell]), the kubeconfig files of a
    connection, the wait for a port, the commands whose output is watched, and the driver
    file of Windows ([pkg/driver]). *)
From Stdlib Require Import ZArith Lia Ascii.
From Stdlib Require Import Strings.Byte.
From stdpp Require Import base gmap strings numbers list.
From S2P Require Import Prelude GoStrings GoNet Config Heartbeat Cleaner Ssh Rollout.
From stdpp Require Import list.

Local Open Scope string_scope.

(** ** The servers *)

(** One server of [handler.Run]: its accepted connections handed to the handler, whether
    its listener is closed, and the error it returned.  [looking]: before the look at the
    context; otherwise it waits in [Accept]. *)
Record accepting := MkServing { sv_looking : bool; sv_handled : list nat; sv_errors : nat; sv_closed : bool; sv_returned : option error }.
Definition accepting0 : accepting := MkServing true [] 0 false None.

Inductive serve_event := LookCtx | Accepted (conn : nat) | AcceptError (e : error).

Definition serve_step (cancelled : option error) (ev : serve_event) (s : accepting) : option accepting :=
  match sv_returned s with
  | Some _ => None
  | None =>
      match ev, sv_looking s with
      | LookCtx, true =>
          Some (match cancelled with
                | Some e => MkServing false (sv_handled s) (sv_errors s) true (Some e)
                | None => MkServing false (sv_handled s) (sv_errors s) false None
                end)
      | Accepted conn, false => Some (MkServing true (sv_handled s ++ [conn])%list (sv_errors s) false None)
      | AcceptError _, false => Some (MkServing true (sv_handled s) (S (sv_errors s)) false None)
      | _, _ => None
      end
  end.

(** Events with the state of the context at each. *)
Fixpoint serve_run (evs : list (option error * serve_event)) (s : accepting) : option accepting :=
  match evs with [] => Some s | (c, ev) :: evs => s ← serve_step c ev s; serve_run evs s end.

Definition accepted (evs : list (option error * serve_event)) : list nat :=
  omap (λ ev, match snd ev with Accepted c => Some c | _ => None end) evs.

(** A server hands every connection it accepts to its handler, in order; it never returns
    because of [Accept], and it returns the context's error, with the listener closed. *)
Lemma serve_run_handles evs s :
  serve_run evs accepting0 = Some s →
  sv_handled s = accepted evs ∧ (∀ e, sv_returned s = Some e → sv_closed s = true ∧ ∃ ev, (Some e, ev) ∈ evs).
Proof.
  assert (∀ s0, (∀ e, sv_returned s0 = Some e → sv_closed s0 = true ∧ False) → serve_run evs s0 = Some s →
    sv_handled s = (sv_handled s0 ++ accepted evs)%list ∧
    (∀ e, sv_returned s = Some e → sv_closed s = true ∧ ∃ ev, (Some e, ev) ∈ evs)) as H; [|by apply H].
  induction evs as [|[c ev] evs IH]; intros s0 H0 E.
  { unfold serve_run in E. simplify_eq. rewrite app_nil_r. split; [done|]. intros e He. by destruct (H0 e He). }
  cbn in E. apply bind_Some in E as (s1 & E1 & E). unfold serve_step in E1.
  destruct (sv_returned s0) eqn:Er; [done|].
  destruct ev as [|conn|e]; destruct (sv_looking s0); simplify_eq.
  - destruct c as [e|].
    + destruct evs as [|[c' ev'] evs]; [|by cbn in E; destruct ev'].
      unfold serve_run in E. simplify_eq. cbn. rewrite app_nil_r. split; [done|]. intros ? [= <-].
      split; [done|]. exists LookCtx. by apply list_elem_of_singleton.
    + apply IH in E as [H1 H2]; [|done]. split; [done|]. intros e He. destruct (H2 e He) as [? [ev ?]].
      split; [done|]. exists ev. by right.
  - apply IH in E as [H1 H2]; [|done]. split; [by rewrite H1; cbn; rewrite <-app_assoc|].
    intros e He. destruct (H2 e He) as [? [ev ?]]. split; [done|]. exists ev. by right.
  - apply IH in E as [H1 H2]; [|done]. split; [done|].
    intros e' He. destruct (H2 e' He) as [? [ev ?]]. split; [done|]. exists ev. by right.
Qed.

(** A listener whose [Accept] keeps failing is asked again and again, without a pause and
    without an error to the caller. *)
Lemma broken_listener_spins n e :
  ∃ s, serve_run (concat (replicate n [(None, LookCtx); (None, AcceptError e)])) accepting0 = Some s ∧
    sv_errors s = n ∧ sv_returned s = None.
Proof.
  assert (∀ s0, sv_returned s0 = None → sv_looking s0 = true →
    ∃ s, serve_run (concat (replicate n [(None, LookCtx); (None, AcceptError e)])) s0 = Some s ∧
      sv_errors s = sv_errors s0 + n ∧ sv_returned s = None)%nat as H; [|by apply H].
  induction n as [|n IH]; intros s0 Hr Hl; [exists s0; cbn; split_and!; [done|lia|done]|].
  destruct s0 as [l h k c r]. cbn in Hr, Hl. subst l r. cbn.
  destruct (IH (MkServing true h (S k) false None) eq_refl eq_refl) as (s & E & H1 & H2).
  exists s. split_and!; [done|cbn in H1; lia|done].
Qed.

(** ** Permissions *)

Record PolicyRule := MkRule { pr_Resources : list string; pr_Verbs : list string; pr_ResourceNames : list string }.
Record Subject := MkSubject { sb_Kind : string; sb_Name : string }.
Record RoleBinding := MkRoleBinding { rb_Subjects : list Subject; rb_RoleRef : string }.

(** [sets.HasAll]. *)
Definition HasAll (l k : list string) : bool := forallb (λ x, bool_decide (x ∈ l)) k.

(** Whether a rule of a role is enough. *)
Definition rule_allows (resource rule : PolicyRule) : bool :=
  HasAll (pr_Resources rule) (pr_Resources resource) && HasAll (pr_Verbs rule) (pr_Verbs resource) &&
  (match pr_ResourceNames rule with [] => true | _ => false end || HasAll (pr_ResourceNames rule) (pr_ResourceNames resource)).

Definition is_account (sa : string) (s : Subject) : bool := String.eqb (sb_Name s) sa && String.eqb (sb_Kind s) "ServiceAccount".

(** The loops over bindings and subjects, with the early returns: [Ret true] when allowed. *)
Fixpoint subject_loop (role : outcome (list PolicyRule)) (sa : string) (resource : PolicyRule) (subjects : list Subject) : outcome bool :=
  match subjects with
  | [] => Ret false
  | s :: subjects =>
      if is_account sa s then
        rules ← role; if existsb (rule_allows resource) rules then Ret true else subject_loop role sa resource subjects
      else subject_loop role sa resource subjects
  end.

Fixpoint binding_loop (roles : string → outcome (list PolicyRule)) (sa : string) (resource : PolicyRule) (bindings : list RoleBinding) : outcome bool :=
  match bindings with
  | [] => Ret false
  | b :: bindings =>
      found ← subject_loop (roles (rb_RoleRef b)) sa resource (rb_Subjects b);
      if (found : bool) then Ret true else binding_loop roles sa resource bindings
  end.

(** [CanI]; the error of listing the cluster's bindings is dropped. *)
Definition CanI (roleBindings : outcome (list RoleBinding)) (roles : string → outcome (list PolicyRule))
    (clusterRoleBindings : list RoleBinding) (clusterRoles : string → outcome (list PolicyRule))
    (sa : string) (resource : PolicyRule) : outcome bool :=
  l ← roleBindings;
  found ← binding_loop roles sa resource l;
  if (found : bool) then Ret true else binding_loop clusterRoles sa resource clusterRoleBindings.

(** The permission to do one thing, as Kubernetes documents the rules of a role (without
    wild cards). *)
Definition covers (rule : PolicyRule) (res verb name : string) : Prop :=
  res ∈ pr_Resources rule ∧ verb ∈ pr_Verbs rule ∧ (pr_ResourceNames rule = [] ∨ name ∈ pr_ResourceNames rule).

Lemma HasAll_spec l k : HasAll l k = true ↔ ∀ x, x ∈ k → x ∈ l.
Proof.
  unfold HasAll. rewrite forallb_forall. setoid_rewrite bool_decide_eq_true.
  setoid_rewrite <-list_elem_of_In. done.
Qed.

Lemma rule_allows_covers resource rule :
  rule_allows resource rule = true →
  ∀ res verb name, res ∈ pr_Resources resource → verb ∈ pr_Verbs resource → name ∈ pr_ResourceNames resource →
    covers rule res verb name.
Proof.
  unfold rule_allows, covers. intros [[H1 H2]%andb_true_iff H3]%andb_true_iff res verb name Hr Hv Hn.
  rewrite HasAll_spec in H1, H2. split_and!; [by apply H1|by apply H2|].
  destruct (pr_ResourceNames rule) eqn:E; [by left|right]. cbn in H3. rewrite HasAll_spec in H3. by apply H3.
Qed.

Definition bound (sa : string) (roles : string → outcome (list PolicyRule)) (l : list RoleBinding) (rule : PolicyRule) : Prop :=
  ∃ b rules, b ∈ l ∧ MkSubject "ServiceAccount" sa ∈ rb_Subjects b ∧ roles (rb_RoleRef b) = Ret rules ∧ rule ∈ rules.

Lemma subject_loop_true role sa resource subjects :
  subject_loop role sa resource subjects = Ret true →
  MkSubject "ServiceAccount" sa ∈ subjects ∧ ∃ rules rule, role = Ret rules ∧ rule ∈ rules ∧ rule_allows resource rule = true.
Proof.
  induction subjects as [|[k n] subjects IH]; [done|]. cbn. unfold is_account. cbn.
  destruct (String.eqb_spec n sa) as [->|Hn]; cbn [andb]; [|intros [? ?]%IH; split; [by right|done]].
  destruct (String.eqb_spec k "ServiceAccount") as [->|Hk]; [|intros [? ?]%IH; split; [by right|done]].
  destruct role as [rules| |]; [|done..]. cbn.
  destruct (existsb (rule_allows resource) rules) eqn:E; [|intros [? ?]%IH; split; [by right|done]].
  intros _. split; [by left|]. apply existsb_exists in E as (rule & Hin%list_elem_of_In & Hr). eauto.
Qed.

Lemma binding_loop_true roles sa resource l :
  binding_loop roles sa resource l = Ret true → ∃ rule, bound sa roles l rule ∧ rule_allows resource rule = true.
Proof.
  induction l as [|b l IH]; [done|]. cbn. intros E. apply outcome_bind_Ret in E as ([] & E1 & E).
  - apply subject_loop_true in E1 as (Hs & rules & rule & Hr & Hin & Ha). exists rule. split; [|done].
    exists b, rules. split_and!; [by left|done..].
  - destruct (IH E) as (rule & (b' & rules & Hb & ?) & Ha). exists rule. split; [|done].
    exists b', rules. split; [by right|done].
Qed.

(** [CanI] is sound: when it says yes, one rule of a role bound to the service account
    covers every asked resource with every asked verb and every asked name. *)
Lemma CanI_sound roleBindings roles clusterRoleBindings clusterRoles sa resource :
  CanI roleBindings roles clusterRoleBindings clusterRoles sa resource = Ret true →
  ∃ rule, ((∃ l, roleBindings = Ret l ∧ bound sa roles l rule) ∨ bound sa clusterRoles clusterRoleBindings rule) ∧
    ∀ res verb name, res ∈ pr_Resources resource → verb ∈ pr_Verbs resource → name ∈ pr_ResourceNames resource →
      covers rule res verb name.
Proof.
  unfold CanI. intros E. apply outcome_bind_Ret in E as (l & -> & E). apply outcome_bind_Ret in E as ([] & E1 & E).
  - apply binding_loop_true in E1 as (rule & Hb & Ha). exists rule. split; [left; eauto|]. by apply rule_allows_covers.
  - apply binding_loop_true in E as (rule & Hb & Ha). exists rule. split; [by right|]. by apply rule_allows_covers.
Qed.

(** Asked without a name, it says yes to a rule that is limited to some names. *)
Lemma CanI_ignores_names :
  CanI (Ret [MkRoleBinding [MkSubject "ServiceAccount" "default"] "r"]) (λ _, Ret [MkRule ["configmaps"] ["get"] ["one"]]) []
    (λ _, Fail NotFound) "default" (MkRule ["configmaps"] ["get"] []) = Ret true ∧
  ¬ covers (MkRule ["configmaps"] ["get"] ["one"]) "configmaps" "get" "other".
Proof.
  split; [vm_compute; done|]. unfold covers. cbn. intros (_ & _ & [H|H]); [done|].
  apply list_elem_of_singleton in H. done.
Qed.

(** A binding of the namespace that refers to a cluster role is looked up as a role. *)
Lemma CanI_cluster_role_ref b l roles crb cr sa resource :
  MkSubject "ServiceAccount" sa ∈ rb_Subjects b → roles (rb_RoleRef b) = Fail NotFound →
  CanI (Ret (b :: l)) roles crb cr sa resource = Fail NotFound.
Proof.
  intros Hin Hr. unfold CanI. cbn. rewrite Hr.
  assert (subject_loop (Fail NotFound) sa resource (rb_Subjects b) = Fail NotFound) as ->; [|done].
  induction (rb_Subjects b) as [|s ss IH]; [by apply not_elem_of_nil in Hin|]. cbn.
  destruct (is_account sa s) eqn:E; [done|]. apply elem_of_cons in Hin as [<-|Hin]; [|by apply IH].
  unfold is_account in E. cbn in E. by rewrite !String.eqb_refl in E.
Qed.

(** ** The pod that reads the network configuration *)

Record HostVolume := MkHostVolume { hv_Name : string; hv_Path : string; hv_Type : string }.
Record Mount := MkMount { mt_Name : string; mt_ReadOnly : bool; mt_MountPath : string }.
Record Toleration := MkToleration { tl_Key : string; tl_Operator : string; tl_Value : string; tl_Effect : string }.

(** The pod: one container with the same requests and limits; the scheduling preference is
    a weight and labels that must exist, the spread a skew, a label and the policy. *)
Record cidr_pod := MkCidrPod {
  cp_Name : string; cp_Namespace : string; cp_Volumes : list HostVolume; cp_Container : string; cp_Image : string;
  cp_Command : list string; cp_Resources : list (string * string); cp_Mounts : list Mount; cp_PullPolicy : string;
  cp_Preferred : Z * list string; cp_Tolerations : list Toleration; cp_Spread : Z * string * string }.

Definition DefaultNetDir : string := "/etc/cni/net.d".
Definition Proc : string := "/proc".
Definition procName : string := "proc-dir-kubevpn".

Definition cidrPod (image namespace : string) : cidr_pod := {|
  cp_Name := Cleaner.CniNetName; cp_Namespace := namespace;
  cp_Volumes := [MkHostVolume Cleaner.CniNetName DefaultNetDir "DirectoryOrCreate"; MkHostVolume procName Proc "DirectoryOrCreate"];
  cp_Container := Cleaner.CniNetName; cp_Image := image; cp_Command := ["tail"; "-f"; "/dev/null"];
  cp_Resources := [("cpu", "16m"); ("memory", "16Mi")];
  cp_Mounts := [MkMount Cleaner.CniNetName true DefaultNetDir; MkMount procName true ("/etc/cni" +:+ Proc)];
  cp_PullPolicy := "IfNotPresent";
  cp_Preferred := (50%Z, ["node-role.kubernetes.io/master"; "node-role.kubernetes.io/control-plane"]);
  cp_Tolerations := [MkToleration "node-role.kubernetes.io/master" "Equal" "" "NoSchedule";
                     MkToleration "node-role.kubernetes.io/control-plane" "Equal" "" "NoSchedule"];
  cp_Spread := (1%Z, "kubernetes.io/hostname", "ScheduleAnyway") |}.

(** The calls of the pod API. *)
Inductive pod_call := GetPod (name : string) | DeletePod (name : string) | CreatePod (pod : cidr_pod) | WatchPod (name : string).

Definition isRunning (pod : Pod) : bool := String.eqb (p_Phase pod) "Running".

(** The phase of what [Get] returns: on an error it is an empty object. *)
Definition got_phase (get : outcome string) : string := match get with Ret phase => phase | _ => "" end.

(** [createCIDRPod]: the calls, and the pod; [None]: still waiting.  [create] is the API
    server, [watch] the watch of the pods of a name. *)
Definition createCIDRPod (image namespace : string) (get : outcome string) (create : cidr_pod → outcome cidr_pod)
    (watch : string → outcome (list watched)) : list pod_call * option (outcome cidr_pod) :=
  let pod := cidrPod image namespace in
  let notFound := match get with Fail e => Cleaner.IsNotFound e | _ => false end in
  let running := String.eqb (got_phase get) "Running" in
  if notFound || negb running then
    let deleted := if negb running then [DeletePod (cp_Name pod)] else [] in
    match create pod with
    | Ret pod' =>
        ([GetPod (cp_Name pod)] ++ deleted ++ [CreatePod pod; WatchPod (cp_Name pod')],
         match watch (cp_Name pod') with
         | Ret ws => match WaitPod isRunning ws with
                     | Some (Ret _) => Some (Ret pod')
                     | Some (Fail e) => Some (Fail e)
                     | Some Panic => Some Panic
                     | None => None
                     end
         | Fail e => Some (Fail e)
         | Panic => Some Panic
         end)%list
    | Fail e => ([GetPod (cp_Name pod)] ++ deleted ++ [CreatePod pod], Some (Fail e))%list
    | Panic => ([GetPod (cp_Name pod)] ++ deleted ++ [CreatePod pod], Some Panic)%list
    end
  else ([GetPod (cp_Name pod)], Some (Ret pod)).

Lemma WaitPod_checked checker ws :
  WaitPod checker ws = Some (Ret tt) → ∃ pod, PodEvent (Some pod) ∈ ws ∧ checker pod = true.
Proof.
  induction ws as [|[[pod|]| |] ws IH]; cbn; [done|..|done].
  - destruct (checker pod) eqn:E; [intros _; exists pod; split; [by left|done]|].
    intros (p & ? & ?)%IH. exists p. split; [by right|done].
  - intros (p & ? & ?)%IH. exists p. split; [by right|done].
  - intros (p & ? & ?)%IH. exists p. split; [by right|done].
Qed.

(** When it returns a pod, a pod of its name was running: the one that was there, or the
    one it created and watched.  A pod that is not running is deleted before the creation. *)
Lemma createCIDRPod_running image namespace get create watch calls pod :
  createCIDRPod image namespace get create watch = (calls, Some (Ret pod)) →
  (get = Ret "Running" ∧ pod = cidrPod image namespace ∧ calls = [GetPod Cleaner.CniNetName]) ∨
  (create (cidrPod image namespace) = Ret pod ∧
   (∃ ws p, watch (cp_Name pod) = Ret ws ∧ PodEvent (Some p) ∈ ws ∧ p_Phase p = "Running") ∧
   calls = [GetPod Cleaner.CniNetName; DeletePod Cleaner.CniNetName; CreatePod (cidrPod image namespace); WatchPod (cp_Name pod)]).
Proof.
  unfold createCIDRPod. change (cp_Name (cidrPod image namespace)) with Cleaner.CniNetName.
  destruct (String.eqb_spec (got_phase get) "Running") as [Hr|Hr]; cbn [negb].
  - destruct get as [phase| |]; [|done..]. cbn in Hr. subst phase. cbn. intros [= <- <-]. by left.
  - rewrite orb_true_r. cbn [app]. destruct (create _) as [pod'| |] eqn:Ec; [|done..].
    destruct (watch _) as [ws| |] eqn:Ew; [|done..]. destruct (WaitPod isRunning ws) as [[[]| |]|] eqn:E; [|done..].
    intros [= <- <-]. right. split; [done|]. split; [|done].
    apply WaitPod_checked in E as (p & Hin & Hp). exists ws, p. split; [done|]. split; [done|].
    unfold isRunning in Hp. by apply String.eqb_eq in Hp.
Qed.

(** Every mount of the pod is of one of its volumes, and read only. *)
Lemma cidrPod_mounts image namespace :
  Forall (λ m, mt_Name m ∈ hv_Name <$> cp_Volumes (cidrPod image namespace) ∧ mt_ReadOnly m = true) (cp_Mounts (cidrPod image namespace)).
Proof. repeat constructor; cbn; set_solver. Qed.

(** A pod that cannot be read, for whatever reason, is deleted and created again, although
    it may be running. *)
Lemma createCIDRPod_unreadable image namespace e create watch :
  DeletePod Cleaner.CniNetName ∈ fst (createCIDRPod image namespace (Fail e) create watch).
Proof.
  unfold createCIDRPod. change (cp_Name (cidrPod image namespace)) with Cleaner.CniNetName. cbn [got_phase].
  change (String.eqb "" "Running") with false. cbn [negb]. rewrite orb_true_r. cbn [app].
  destruct (create _); set_solver.
Qed.

(** The preference of a node: all the labels of a term must exist, so that a node of the
    control plane without the old label is not preferred. *)
Definition prefers (labels : list string) (term : Z * list string) : bool := forallb (λ k, bool_decide (k ∈ labels)) (snd term).
Lemma control_plane_not_preferred image namespace :
  prefers ["node-role.kubernetes.io/control-plane"] (cp_Preferred (cidrPod image namespace)) = false.
Proof. reflexivity. Qed.

(** ** Commands in a pod *)

Record exec_options := MkExec { ex_Container : string; ex_Command : list string; ex_Stdin : bool; ex_Stdout : bool; ex_Stderr : bool; ex_TTY : bool }.

(** [Shell]: the pod's phase and the names of its containers, and the command, which gives
    its output and maybe an error; [raw]: the terminal's mode. *)
Definition Shell (get : outcome (string * list string)) (raw : bool) (execute : exec_options → string * option error)
    (containerName : string) (cmd : list string) : outcome (string * option error) :=
  match get with
  | Fail e => Ret ("", Some e)
  | Panic => Panic
  | Ret (phase, containers) =>
      if String.eqb phase "Succeeded" || String.eqb phase "Failed" then
        Ret ("", Some (Errorf ("cannot exec into a container in a completed pod; current phase is " +:+ phase)))
      else
        container ← (if String.eqb containerName "" then (match containers with c :: _ => Ret c | [] => Panic end) else Ret containerName);
        let '(out, err) := execute (MkExec container cmd false true false raw) in
        Ret (TrimRightFunc (Ascii.eqb "010"%char) out, err)
  end.

(** The command is run only in a pod that is not completed, in the named container or the
    first; the output comes without the last line ends. *)
Lemma Shell_ok get raw execute containerName cmd out :
  Shell get raw execute containerName cmd = Ret (out, None) →
  ∃ phase containers container text, get = Ret (phase, containers) ∧ (phase ≠ "Succeeded" ∧ phase ≠ "Failed") ∧
    (container = containerName ∨ containerName = "" ∧ head containers = Some container) ∧
    execute (MkExec container cmd false true false raw) = (text, None) ∧ out = TrimRightFunc (Ascii.eqb "010"%char) text.
Proof.
  unfold Shell. destruct get as [[phase containers]| |]; [|done..].
  destruct (String.eqb_spec phase "Succeeded") as [|H1]; [done|].
  destruct (String.eqb_spec phase "Failed") as [|H2]; [done|]. cbn [orb].
  intros E. apply outcome_bind_Ret in E as (container & Hc & E).
  destruct (execute (MkExec container cmd false true false raw)) as [text err] eqn:Ee. simplify_eq.
  exists phase, containers, container, text. split_and!; try done.

  - destruct (String.eqb_spec containerName "") as [->|]; [right; destruct containers; by simplify_eq|left; by simplify_eq].
Qed.

(** [getCIDRFromCNI] up to the text it parses: the pod, then the command in its first
    container. *)
Definition quote : string := String "034" EmptyString.
Definition cidr_command : list string :=
  ["sh"; "-c"; "grep -a -R " +:+ quote +:+ "service-cluster-ip-range\|cluster-cidr" +:+ quote +:+
   " /etc/cni/proc/*/cmdline | grep -a -v grep | tr " +:+ quote +:+ "\0" +:+ quote +:+ " " +:+ quote +:+ "\n" +:+ quote].

Definition cmdline_text (image namespace : string) (get : outcome string) (create : cidr_pod → outcome cidr_pod)
    (watch : string → outcome (list watched)) (shell : string → string → list string → outcome (string * option error))
    : option (outcome string) :=
  o ← snd (createCIDRPod image namespace get create watch);
  Some (pod ← o;
        '(content, err) ← shell (cp_Name pod) (cp_Namespace pod) cidr_command;
        match err with Some e => Fail e | None => Ret content end).

(** The command looks below the directory where the pod mounts the processes of its node. *)
Lemma cidr_command_mounted image namespace :
  ∃ m v, m ∈ cp_Mounts (cidrPod image namespace) ∧ v ∈ cp_Volumes (cidrPod image namespace) ∧ mt_Name m = hv_Name v ∧
    hv_Path v = "/proc" ∧ existsb (λ s, Contains s (" " +:+ mt_MountPath m +:+ "/*/cmdline ")) cidr_command = true.
Proof.
  exists (MkMount procName true "/etc/cni/proc"), (MkHostVolume procName Proc "DirectoryOrCreate").
  cbn [cidrPod cp_Mounts cp_Volumes]. split_and!; [set_solver|set_solver|done|done|vm_compute; done].
Qed.

(** ** The kubeconfig files *)

(** Files of the host, with their permissions. *)
Abbreviation disk := (gmap string (string * Z)).

(** The configuration loader and its serializer, and the operations on files that may fail;
    [cf_temp] is the name of a new file. *)
Record config_files (C : Type) := MkConfigFiles {
  cf_Raw : outcome C; cf_Flatten : C → outcome C; cf_Marshal : C → outcome string;
  cf_CreateTemp : disk → outcome string; cf_Close : option error; cf_Write : option error; cf_Chmod : option error }.
Arguments MkConfigFiles {C}.
Arguments cf_Raw {C}.
Arguments cf_Flatten {C}.
Arguments cf_Marshal {C}.
Arguments cf_CreateTemp {C}.
Arguments cf_Close {C}.
Arguments cf_Write {C}.
Arguments cf_Chmod {C}.

(** 0600, the mode of a temporary file, and 0644. *)
Definition mode_temp : Z := 384.
Definition mode_config : Z := 420.

(** The temporary file: created, closed ([checked]: the error of [Close] is looked at),
    written and made readable. *)
Definition save_config {C} (f : config_files C) (checked : bool) (text : string) (d : disk) : disk * outcome string :=
  match cf_CreateTemp f d with
  | Fail e => (d, Fail e)
  | Panic => (d, Panic)
  | Ret name =>
      let d := <[name := ("", mode_temp)]> d in
      match (if checked then cf_Close f else None) with
      | Some e => (d, Fail e)
      | None =>
          match cf_Write f with
          | Some e => (d, Fail e)
          | None =>
              let d := <[name := (text, mode_temp)]> d in
              match cf_Chmod f with
              | Some e => (d, Fail e)
              | None => (<[name := (text, mode_config)]> d, Ret name)
              end
          end
      end
  end.

(** [ConnectOptions.GetKubeconfigPath]. *)
Definition connect_GetKubeconfigPath {C} (f : config_files C) (d : disk) : disk * outcome string :=
  match (c ← cf_Raw f; c ← cf_Flatten f c; cf_Marshal f c) with
  | Ret text => save_config f false text d
  | Fail e => (d, Fail e)
  | Panic => (d, Panic)
  end.

(** The end of [SshJump]: the rewritten configuration is saved. *)
Definition save_jump {C} (f : config_files C) (rawConfig : C) (d : disk) : disk * outcome string :=
  match cf_Marshal f rawConfig with
  | Ret text => save_config f true text d
  | Fail e => (d, Fail e)
  | Panic => (d, Panic)
  end.

(** [os.CreateTemp] never returns the name of a file that is there. *)
Definition fresh_names {C} (f : config_files C) : Prop := ∀ d name, cf_CreateTemp f d = Ret name → d !! name = None.

(** A path that is returned names a new file with the text, and nothing else changed; an
    error leaves the files there were as they are. *)
Lemma save_config_spec {C} (f : config_files C) checked text d d' o :
  fresh_names f → save_config f checked text d = (d', o) →
  (∀ p, p ∈ dom d → d' !! p = d !! p) ∧
  (∀ name, o = Ret name → d !! name = None ∧ d' = <[name := (text, mode_config)]> d).
Proof.
  intros Hf. unfold save_config. destruct (cf_CreateTemp f d) as [name| |] eqn:E; [|naive_solver..].
  pose proof (Hf _ _ E) as Hn.
  assert (∀ x p, p ∈ dom d → <[name := x]> d !! p = d !! p) as Hp.
  { intros x p [y Hy]%elem_of_dom. rewrite lookup_insert_ne; [done|]. intros ->. by rewrite Hn in Hy. }
  destruct (if checked then cf_Close f else None); [intros [= <- <-]; split; [by apply Hp|done]|].
  destruct (cf_Write f); [intros [= <- <-]; split; [by apply Hp|done]|].
  rewrite insert_insert_eq. destruct (cf_Chmod f); intros [= <- <-]; (split; [by intros; rewrite ?insert_insert_eq; apply Hp|done || idtac]).
  intros ? [= <-]. split; [done|]. by rewrite insert_insert_eq.
Qed.

(** What is written can be read back as the flattened configuration, when the serializer
    has a parser. *)
Lemma connect_GetKubeconfigPath_roundtrip {C} (f : config_files C) (parse : string → option C) d d' name :
  fresh_names f → (∀ c text, cf_Marshal f c = Ret text → parse text = Some c) →
  connect_GetKubeconfigPath f d = (d', Ret name) →
  ∃ raw c text, cf_Raw f = Ret raw ∧ cf_Flatten f raw = Ret c ∧ d' !! name = Some (text, mode_config) ∧ parse text = Some c ∧
    ∀ p, p ∈ dom d → d' !! p = d !! p.
Proof.
  intros Hf Hp. unfold connect_GetKubeconfigPath.
  destruct (cf_Raw f) as [raw| |] eqn:Er; [|done..]. cbn.
  destruct (cf_Flatten f raw) as [c| |] eqn:Ec; [|done..]. cbn.
  destruct (cf_Marshal f c) as [text| |] eqn:Em; [|done..].
  intros [H1 H2]%save_config_spec; [|done]. destruct (H2 name eq_refl) as [_ ->].
  exists raw, c, text. split_and!; [done|done|by rewrite lookup_insert_eq|by apply Hp|done].
Qed.

(** A failure after the creation leaves the temporary file behind. *)
Lemma save_config_leftover {C} (f : config_files C) checked text d name e :
  cf_CreateTemp f d = Ret name → cf_Close f = None → cf_Write f = None → cf_Chmod f = Some e →
  save_config f checked text d = (<[name := (text, mode_temp)]> d, Fail e).
Proof. intros H1 H2 H3 H4. unfold save_config. rewrite H1, H2, H3, H4, insert_insert_eq. by destruct checked. Qed.

(** [GetKubeconfigCluster]: the cluster of the current context. *)
Definition GetKubeconfigCluster (raw : outcome (string * gmap string string)) : string :=
  match raw with Ret (current, contexts) => default "" (contexts !! current) | _ => "" end.

(** [GetTunDeviceName] and [GetLocalTunIPv4]. *)
Definition GetTunDeviceName (ifs : Interfaces) (v4 v6 : option IPNet) : outcome string :=
  GetTunDevice ifs (option_list (net_IP <$> v4) ++ option_list (net_IP <$> v6))%list.
Definition GetLocalTunIPv4 (v4 : option IPNet) : string := match v4 with Some n => IP_String (net_IP n) | None => "" end.

(** Without an address no device is found. *)
Lemma GetTunDeviceName_none ifs : GetTunDeviceName ifs None None = Fail (Errorf "can not found any interface").
Proof.
  unfold GetTunDeviceName, GetTunDevice. cbn.
  assert (∀ l : list string, existsb (λ _, false) l = false) as H; [by induction l|].
  assert (List.find (λ i : string * list string, existsb (λ _, false) i.2) ifs = None) as ->; [|done].
  induction ifs as [|[n l] ifs IH]; [done|]. cbn. by rewrite H.
Qed.

(** [InitClient]: the three clients and the namespace, in order. *)
Definition InitClient {R L K : Type} (rest : outcome R) (restclient : outcome L) (clientset : outcome K) (ns : outcome string)
    : outcome (R * L * K * string) :=
  r ← rest; l ← restclient; k ← clientset; n ← ns; Ret (r, l, k, n).
