(* ===== verification/Host.v ===== *)
(** * The host: commands, ports, downloads and driver files

    What the program does on the machine it runs on:
    - [elevatecheck_others.go], [elevate_others.go], [elevate_windows.go]: commands with the
      rights of an administrator;
    - [networkpolicy_windows.go] and [deleteFirewallRule] of [connect.go]: the firewall of
      Windows;
    - [driver.go], [wintun/func.go], and [CleanExtensionLib] with [MoveToTemp] of [util.go]:
      the driver file of Windows;
    - [Download] of [upgarde.go], the temporary kubeconfig of [ns.go];
    - of [util.go], the wait for a free port, the commands whose output is watched and the
      boxed message; [tryToCreateStream] of [portforward.go]. *)
From Stdlib Require Import ZArith Lia Ascii.
From Stdlib Require Import Strings.Byte.
From stdpp Require Import base gmap strings numbers list.
From S2P Require Import Prelude GoStrings GoNet Config Cleaner Rollout Utils.
From stdpp Require Import list.

Local Open Scope string_scope.

(** ** Commands with other rights *)

Record host := MkHost {
  h_linux : bool; h_kubeconfig_flag : bool; h_home_config : option string; (* when the file is there *)
  h_Args : list string; h_Environ : list string }.

Record command := MkCommand { cm_path : string; cm_args : list string; cm_env : list string }.

Definition envStartSudoKubeVPNByKubeVPN : string := "DEPTH_SIGNED_BY_NAISON".

(** The first lines of the three functions: [os.Args] with the flag for the user's
    kubeconfig. *)
Definition keep_kubeconfig (h : host) : list string :=
  if h_linux h && negb (h_kubeconfig_flag h) then
    match h_home_config h with Some p => (h_Args h ++ ["--kubeconfig"; p])%list | None => h_Args h end
  else h_Args h.

Definition sudo_env (h : host) : list string := (h_Environ h ++ [envStartSudoKubeVPNByKubeVPN +:+ "=1"])%list.

(** The command, and [os.Args] afterwards. *)
Definition RunWithElevated (h : host) : command * list string :=
  let args := keep_kubeconfig h in (MkCommand "sudo" ("--preserve-env" :: args) (sudo_env h), args).
Definition RunCmdWithElevated (h : host) (exe : string) (args : list string) : command * list string :=
  (MkCommand "sudo" ("--preserve-env" :: exe :: args) (sudo_env h), keep_kubeconfig h).
Definition RunCmd (h : host) (exe : string) (args : list string) : command * list string :=
  (MkCommand exe args (sudo_env h), keep_kubeconfig h).

Definition IsAdmin (uid : Z) : bool := Z.eqb uid 0.

(** The re-run of the whole program gets the kubeconfig of the user. *)
Lemma RunWithElevated_kubeconfig h p :
  h_linux h = true → h_kubeconfig_flag h = false → h_home_config h = Some p →
  ∃ l, cm_args (fst (RunWithElevated h)) = (l ++ ["--kubeconfig"; p])%list.
Proof. intros H1 H2 H3. exists ("--preserve-env" :: h_Args h). cbn. unfold keep_kubeconfig. by rewrite H1, H2, H3. Qed.

(** A command that is started with given arguments does not: the flag is added to
    [os.Args], which the command does not use. *)
Lemma RunCmdWithElevated_ignores_kubeconfig h h' exe args :
  h_Environ h = h_Environ h' → fst (RunCmdWithElevated h exe args) = fst (RunCmdWithElevated h' exe args).
Proof. unfold RunCmdWithElevated, sudo_env. cbn. by intros ->. Qed.

(** On Windows the arguments are one string. *)
Definition RunCmd_windows (verb cwd exe : string) (arg : list string) : string * string * string * string :=
  (verb, exe, GoStrings.Join " " arg, cwd).
Definition RunWithElevated_windows (cwd exe : string) (Args : list string) : string * string * string * string :=
  ("runas", exe, GoStrings.Join " " (tail Args), cwd).
Definition Kill_windows (pid : Z) : command := MkCommand "TASKKILL" ["/T"; "/F"; "/PID"; Itoa pid] [].

Lemma RunCmd_windows_spaces verb cwd exe :
  RunCmd_windows verb cwd exe ["--kubeconfig"; "C:\My Files\config"] =
  RunCmd_windows verb cwd exe ["--kubeconfig"; "C:\My"; "Files\config"].
Proof. reflexivity. Qed.

(** ** The firewall of Windows *)

Definition netsh (op : string) (more : list string) : list string :=
  (["netsh"; "advfirewall"; "firewall"; op; "rule"; "name=" +:+ ConfigMapPodTrafficManager] ++ more)%list.
Definition AddAllowFirewallRule : list string :=
  netsh "add" ["dir=in"; "action=allow"; "enable=yes"; "remoteip=" +:+ IPNet_String CIDR +:+ ",LocalSubnet"].
Definition DeleteAllowFirewallRule : list string := netsh "delete" [].
Definition FindAllowFirewallRule : list string := netsh "show" [].

(** [DeleteBlockFirewallRule]: one command per tick until the context ends. *)
Fixpoint DeleteBlockFirewallRule (ticks : list bool) : list (list string) :=
  match ticks with
  | true :: ticks => ["PowerShell"; "Remove-NetFirewallRule"; "-Action"; "Block"] :: DeleteBlockFirewallRule ticks
  | _ => []
  end.

Section firewall.
(** [netsh]: the number of rules with the program's name after a command, and whether it
    succeeded. *)
Context (netsh_run : list string → nat → nat * bool).

(** [deleteFirewallRule] without its last line: the rules, and the function the connection
    runs at its end. *)
Definition deleteFirewallRule (rules : nat) : nat * list (list string) :=
  let '(rules, found) := netsh_run FindAllowFirewallRule rules in
  let rules := if found then rules else fst (netsh_run AddAllowFirewallRule rules) in
  (rules, [DeleteAllowFirewallRule]).

(** The documented behaviour: [show] fails without a rule, [add] adds one, [delete] removes
    all of the name. *)
Hypothesis netsh_show : ∀ r, netsh_run FindAllowFirewallRule r = (r, bool_decide (0 < r)%nat).
Hypothesis netsh_add : ∀ r, netsh_run AddAllowFirewallRule r = (S r, true).
Hypothesis netsh_delete : ∀ r, fst (netsh_run DeleteAllowFirewallRule r) = 0.

(** However many connections are made, the rule is there and there once; the clean-up of
    one of them removes it for all. *)
Lemma deleteFirewallRule_once n :
  Nat.iter (S n) (deleteFirewallRule ∘ fst) (0, []) = (1, [DeleteAllowFirewallRule]) ∧
  fst (netsh_run DeleteAllowFirewallRule 1) = 0.
Proof.
  assert (∀ r, (r ≤ 1)%nat → deleteFirewallRule r = (1, [DeleteAllowFirewallRule])) as H.
  { intros r Hr. unfold deleteFirewallRule. rewrite netsh_show, netsh_add. destruct r as [|[|r]]; [done|done|lia]. }
  split; [|done]. induction n as [|n IH]; [by apply H; cbn; lia|].
  change (deleteFirewallRule (fst (Nat.iter (S n) (deleteFirewallRule ∘ fst) (0, []))) = (1, [DeleteAllowFirewallRule])).
  rewrite IH. by apply H.
Qed.
End firewall.

(** ** The driver file *)

(** The directory of the executable; [None]: it cannot be found.  A file is its content and
    the mode it was written with. *)
Definition dll (dir : string) : string := dir +:+ "/wintun.dll".

(** [copyDriver]; the files that cannot be written or removed are [locked].  The mode is
    the decimal number 644. *)
Definition copyDriver (locked : string → bool) (dir : option string) (b : string) (d : disk) : disk * outcome unit :=
  match dir with
  | None => (d, Fail (Errorf "executable"))
  | Some dir =>
      let write d := if locked (dll dir) then (d, Fail (Errorf "access denied")) else (<[dll dir := (b, 644%Z)]> d, Ret tt) in
      match d !! dll dir with
      | Some (content, _) =>
          if String.eqb content b then (d, Ret tt) else write (if locked (dll dir) then d else delete (dll dir) d)
      | None => write d
      end
  end.

Definition InstallWireGuardTunDriver (locked : string → bool) (dir : option string) (b : string) (d : disk) : disk * outcome unit :=
  OnError DefaultRetry (λ _, true) (copyDriver locked dir b) d.

Definition UninstallWireGuardTunDriver (locked : string → bool) (dir : option string) (d : disk) : disk * option error :=
  match dir with
  | None => (d, Some (Errorf "executable"))
  | Some dir => match d !! dll dir with
                | None => (d, Some NotFound)
                | Some _ => if locked (dll dir) then (d, Some (Errorf "access denied")) else (delete (dll dir) d, None)
                end
  end.

(** [getDiskName]: the first drive that can be opened. *)
Definition getDiskName (opens : string → bool) : string :=
  default "" (List.find opens ["A"; "B"; "C"; "D"; "E"; "F"; "G"; "H"; "I"; "J"; "K"; "L"; "M"; "N"; "O"; "P"; "Q"; "R"; "S"; "T"; "U"; "V"; "W"; "X"; "Y"; "Z"]).

Lemma copyDriver_ok locked dir b d d' :
  copyDriver locked (Some dir) b d = (d', Ret tt) → ∃ mode, d' !! dll dir = Some (b, mode).
Proof.
  unfold copyDriver. destruct (d !! dll dir) as [[content mode]|] eqn:E.
  - destruct (String.eqb_spec content b) as [->|]; [intros [= <-]; eauto|].
    destruct (locked (dll dir)); intros [= <-]. exists 644%Z. by rewrite lookup_insert_eq.
  - destruct (locked (dll dir)); intros [= <-]. exists 644%Z. by rewrite lookup_insert_eq.
Qed.

(** The file is replaced only when its content differs. *)
Lemma copyDriver_same locked dir b mode d :
  d !! dll dir = Some (b, mode) → copyDriver locked (Some dir) b d = (d, Ret tt).
Proof. intros E. unfold copyDriver. rewrite E. by rewrite String.eqb_refl. Qed.

Lemma OnError_Ret {S} n retriable (fn : S → S * outcome unit) s s' :
  OnError (Datatypes.S n) retriable fn s = (s', Ret tt) → ∃ s0, fn s0 = (s', Ret tt).
Proof.
  revert s. induction n as [|n IH]; intros s; cbn; destruct (fn s) as [s1 [[]|e|]] eqn:E; intros H; simplify_eq; eauto.
  - by destruct (retriable e).
  - destruct (retriable e); [|done]. by apply (IH s1).
Qed.

Lemma InstallWireGuardTunDriver_ok locked dir b d d' :
  InstallWireGuardTunDriver locked (Some dir) b d = (d', Ret tt) → ∃ mode, d' !! dll dir = Some (b, mode).
Proof. intros [d0 H]%OnError_Ret. by eapply copyDriver_ok. Qed.

(** Decimal 644 is not octal 0644, which is 420. *)
Lemma copyDriver_mode : 644%Z ≠ mode_config ∧ Z.land 644 256 = 0%Z ∧ Z.land mode_config 256 = 256%Z.
Proof. vm_compute. done. Qed.

(** The retries of [CleanExtensionLib]: the function that is retried always returns an
    error, and is tried again while the file is there; [locks] says for each attempt whether
    the file can be removed. *)
Fixpoint uninstall_loop (locks : list bool) (dir : option string) (filename : string) (d : disk) : disk :=
  match locks with
  | [] => d
  | locked :: locks =>
      let d := fst (UninstallWireGuardTunDriver (λ _, locked) dir d) in
      match d !! filename with Some _ => uninstall_loop locks dir filename d | None => d end
  end.

(** [MoveToTemp]: the name of a new temporary file, whether it can be removed again, and
    whether the file can be moved. *)
Definition MoveToTemp (dir : option string) (temp : disk → outcome string) (removable movable : bool) (d : disk) : disk :=
  match dir with
  | None => d
  | Some dir =>
      match d !! dll dir with
      | None => d
      | Some f =>
          match temp d with
          | Ret name =>
              let d := <[name := ("", mode_temp)]> d in
              if removable then
                let d := delete name d in
                if movable then <[name := f]> (delete (dll dir) d) else d
              else d
          | _ => d
          end
      end
  end.

Definition CleanExtensionLib (windows : bool) (locks : list bool) (dir : option string) (temp : disk → outcome string)
    (removable movable : bool) (d : disk) : disk :=
  if negb windows then d
  else match dir with
       | None => d
       | Some p =>
           let d := uninstall_loop (take DefaultRetry locks) dir (dll p) d in
           match d !! dll p with Some _ => MoveToTemp dir temp removable movable d | None => d end
       end.

Lemma uninstall_loop_spec locks dir d :
  uninstall_loop locks (Some dir) (dll dir) d = d ∨ uninstall_loop locks (Some dir) (dll dir) d = delete (dll dir) d.
Proof.
  induction locks as [|locked locks IH]; [by left|]. cbn.
  destruct (d !! dll dir) as [f|] eqn:E; cbn; [|rewrite E; by left].
  destruct locked; cbn; [by rewrite E|]. rewrite lookup_delete_eq. by right.
Qed.

(** On Windows the driver file is gone from the directory of the program when an attempt
    can remove it, or when it can be moved; the other files are as they were. *)
Lemma CleanExtensionLib_gone locks dir temp removable movable d :
  (∀ d name, temp d = Ret name → d !! name = None) →
  let d' := CleanExtensionLib true locks (Some dir) temp removable movable d in
  (∀ p, p ∈ dom d → p ≠ dll dir → d' !! p = d !! p) ∧
  ((∃ name, temp d = Ret name) → removable = true → movable = true → d' !! dll dir = None).
Proof.
  intros Hf. unfold CleanExtensionLib. cbn [negb].
  destruct (uninstall_loop_spec (take DefaultRetry locks) dir d) as [-> | ->]; [|rewrite lookup_delete_eq; split; intros; [by rewrite lookup_delete_ne|apply lookup_delete_eq]].
  destruct (d !! dll dir) as [f|] eqn:E; [|by rewrite E]. unfold MoveToTemp. rewrite E.
  destruct (temp d) as [name| |] eqn:Et; [|split; [done|by intros [? [=]]]..].
  pose proof (Hf _ _ Et) as Hn.
  assert (name ≠ dll dir) as Hne; [intros ->; by rewrite Hn in E|].
  split.
  - intros p [x Hx]%elem_of_dom Hp. assert (name ≠ p) as Hnp; [intros ->; by rewrite Hn in Hx|].
    destruct removable, movable; repeat (rewrite lookup_insert_ne || rewrite lookup_delete_ne); done.
  - intros _ -> ->. rewrite lookup_insert_ne by done. by rewrite lookup_delete_eq.
Qed.

(** ** Downloads and kubeconfig files *)

(** [Download]: the status of the answer is not looked at; [copied] is how much of the body
    arrives, with the error. *)
Definition Download (get : outcome (Z * string)) (open : option error) (copied : string → string * option error)
    (filename : string) (d : disk) : disk * outcome unit :=
  match get with
  | Fail e => (d, Fail e)
  | Panic => (d, Panic)
  | Ret (_, body) =>
      match open with
      | Some e => (d, Fail e)
      | None => let '(text, err) := copied body in
                (<[filename := (text, 493%Z)]> d, match err with Some e => Fail e | None => Ret tt end)
      end
  end.

Lemma Download_saves get open copied filename d d' :
  (∀ s t, copied s = (t, None) → t = s) → Download get open copied filename d = (d', Ret tt) →
  ∃ status body, get = Ret (status, body) ∧ d' = <[filename := (body, 493%Z)]> d.
Proof.
  intros Hc. unfold Download. destruct get as [[status body]| |]; [|done..]. destruct open; [done|].
  destruct (copied body) as [t [e|]] eqn:E; intros [= <-]. exists status, body. by rewrite (Hc _ _ E).
Qed.

(** The page of an error is saved as the download. *)
Lemma Download_error_page body filename d :
  Download (Ret (404%Z, body)) None (λ s, (s, None)) filename d = (<[filename := (body, 493%Z)]> d, Ret tt).
Proof. reflexivity. Qed.

(** [ConvertToKubeconfigBytes]: the error of the loader is overwritten by the next call. *)
Definition ConvertToKubeconfigBytes {C} (namespace : outcome string) (raw : C * option error) (f : config_files C) : outcome (string * string) :=
  ns ← namespace; c ← cf_Flatten f (fst raw); text ← cf_Marshal f c; Ret (text, ns).

(** [ConvertToTempKubeconfigFile]: the file keeps the mode it was created with. *)
Definition ConvertToTempKubeconfigFile {C} (f : config_files C) (text : string) (d : disk) : disk * outcome string :=
  match cf_CreateTemp f d with
  | Fail e => (d, Fail e)
  | Panic => (d, Panic)
  | Ret name =>
      let d := <[name := ("", mode_temp)]> d in
      match cf_Close f with
      | Some e => (d, Fail e)
      | None => match cf_Write f with
                | Some e => (d, Fail e)
                | None => (<[name := (text, mode_temp)]> d, Ret name)
                end
      end
  end.

Lemma ConvertToKubeconfigBytes_ignores_error {C} (c : C) e ns f :
  ConvertToKubeconfigBytes ns (c, Some e) f = ConvertToKubeconfigBytes ns (c, None) f.
Proof. reflexivity. Qed.

Lemma ConvertToTempKubeconfigFile_ok {C} (f : config_files C) text d d' name :
  fresh_names f → ConvertToTempKubeconfigFile f text d = (d', Ret name) →
  d !! name = None ∧ d' = <[name := (text, mode_temp)]> d.
Proof.
  intros Hf. unfold ConvertToTempKubeconfigFile. destruct (cf_CreateTemp f d) as [n| |] eqn:E; [|done..].
  destruct (cf_Close f); [done|]. destruct (cf_Write f); [done|]. intros [= <- <-].
  split; [by apply Hf|]. by rewrite insert_insert_eq.
Qed.

(** ** Ports *)

(** [IsPortListening] is the failure of a listen on the port. *)
Definition IsPortListening (listen : outcome unit) : bool := match listen with Ret _ => false | _ => true end.

(** [WaitPortToBeFree]: a tick every two seconds ([Some]: what the listen gives) or the end
    of the context; [None]: still waiting. *)
Fixpoint WaitPortToBeFree (port : Z) (evs : list (option (outcome unit))) : option (outcome unit) :=
  match evs with
  | [] => None
  | None :: _ => Some (Fail (Errorf ("wait port " +:+ Itoa port +:+ " to be free timeout")))
  | Some listen :: evs => if IsPortListening listen then WaitPortToBeFree port evs else Some (Ret tt)
  end.

(** [GetAvailableTCPPortOrDie] and [GetAvailableUDPPortOrDie]: the port of a listener on
    port 0, closed at once. *)
Definition GetAvailablePortOrDie (resolve : outcome unit) (listen : outcome Z) : outcome Z := _ ← resolve; listen.

(** It returns without an error exactly when a listen succeeded before the context ended. *)
Lemma WaitPortToBeFree_free port evs :
  WaitPortToBeFree port evs = Some (Ret tt) ↔
  ∃ pre post, evs = (pre ++ Some (Ret tt) :: post)%list ∧ Forall (λ ev, ∃ l, ev = Some l ∧ l ≠ Ret tt) pre.
Proof.
  induction evs as [|[[[]|e|]|] evs IH]; cbn.
  - split; [done|]. by intros ([] & ? & ? & _).
  - split; [|done]. intros _. by exists [], evs.
  - rewrite IH. split.
    + intros (pre & post & -> & H). exists (Some (Fail e) :: pre), post. split; [done|]. constructor; [by eexists|done].
    + intros ([|x pre] & post & Heq & H); simplify_list_eq. inversion H; subst. eauto.
  - rewrite IH. split.
    + intros (pre & post & -> & H). exists (Some Panic :: pre), post. split; [done|]. constructor; [by eexists|done].
    + intros ([|x pre] & post & Heq & H); simplify_list_eq. inversion H; subst. eauto.
  - split; [done|]. intros ([|x pre] & post & Heq & H); simplify_list_eq. by inversion H as [|?? (l & ? & _)].
Qed.

(** ** Commands whose output is watched *)

(** [proxyWriter.Write]: the buffer, and what the checker is called with. *)
Definition proxy_write (w : string * list string) (b : string) : string * list string :=
  let buffer := fst w +:+ b in (buffer, (snd w ++ [buffer])%list).

Definition proxy_writes (chunks : list string) : string * list string := fold_left proxy_write chunks ("", []).

(** [RunWithRollingOutWithChecker]: what was read of the two pipes when the command ended,
    and the results of [Start] and [Wait]. *)
Definition RunWithRollingOutWithChecker (out err : list string) (start wait : option error) (success : bool)
    : string * string * option error :=
  match start with
  | Some e => (fst (proxy_writes out), fst (proxy_writes err), Some e)
  | None =>
      match wait with
      | Some e => ("", "", Some e)
      | None => (TrimSpace (fst (proxy_writes out)), TrimSpace (fst (proxy_writes err)),
                 if success then None else Some (Errorf "exit code is not 0"))
      end
  end.

(** The checker sees every prefix of the output that ends with a chunk, the last one being
    all of it. *)
Lemma proxy_writes_snoc chunks b :
  proxy_writes (chunks ++ [b])%list = proxy_write (proxy_writes chunks) b.
Proof. unfold proxy_writes. by rewrite fold_left_app. Qed.

Lemma proxy_writes_spec chunks :
  fst (proxy_writes chunks) = GoStrings.Join "" chunks ∧
  ∀ k, (k < length chunks)%nat → snd (proxy_writes chunks) !! k = Some (GoStrings.Join "" (take (S k) chunks)).
Proof.
  assert (∀ l b, GoStrings.Join "" (l ++ [b])%list = GoStrings.Join "" l +:+ b) as HJ.
  { intros [|a l] b; [done|]. revert a. induction l as [|a' l IH]; intros a; [done|].
    change ((a :: a' :: l) ++ [b])%list with (a :: ((a' :: l) ++ [b]))%list.
    rewrite !Join_cons by (by destruct l). rewrite IH, !str_app_assoc. done. }
  induction chunks as [|b chunks [IH1 IH2]] using rev_ind; [split; [done|cbn; lia]|].
  rewrite proxy_writes_snoc, HJ. unfold proxy_write. cbn [fst snd]. rewrite IH1. split; [done|].
  assert (length (snd (proxy_writes chunks)) = length chunks) as Hl.
  { clear. induction chunks as [|b chunks IH] using rev_ind; [done|].
    rewrite proxy_writes_snoc. cbn [snd proxy_write]. by rewrite !length_app, IH. }
  intros k. rewrite length_app. cbn. intros Hk. destruct (decide (k < length chunks)%nat) as [H|H].
  - rewrite lookup_app_l by lia. rewrite IH2 by done. by rewrite take_app_le by lia.
  - replace k with (length chunks) by lia. rewrite lookup_app_r by lia. rewrite Hl, Nat.sub_diag. cbn.
    rewrite take_ge by (rewrite length_app; cbn; lia). by rewrite HJ.
Qed.

(** [Wait] returns an error for every exit code but 0: the last check never fires, and the
    output of a command that failed is lost. *)
Lemma exit_code_check_dead out err start wait success :
  (wait = None → success = true) →
  snd (RunWithRollingOutWithChecker out err start wait success) ≠ Some (Errorf "exit code is not 0") ∨
  start = Some (Errorf "exit code is not 0") ∨ wait = Some (Errorf "exit code is not 0").
Proof.
  intros H. destruct start as [e|]; cbn; [|destruct wait as [e|]; cbn; [|rewrite H by done; by left]].
  all: destruct (decide (e = Errorf "exit code is not 0")) as [->|Hne]; [eauto|left; congruence].
Qed.

(** ** The boxed message *)

Fixpoint Repeat (s : string) (n : nat) : string := match n with O => "" | S n => s +:+ Repeat s n end.

Definition Print_lines (slogan : string) : list string :=
  let length := String.length slogan + 4 + 4 in
  ["+" +:+ Repeat "-" length +:+ "+"; "|" +:+ Repeat " " 4 +:+ slogan +:+ Repeat " " 4 +:+ "|"; "+" +:+ Repeat "-" length +:+ "+"]%nat.
Definition Print (slogan : string) : string := GoStrings.Join "" ((λ l, l +:+ String "010" "") <$> Print_lines slogan).

Lemma length_Repeat s n : String.length (Repeat s n) = (n * String.length s)%nat.
Proof. induction n as [|n IH]; [done|]. cbn. by rewrite length_str_app, IH. Qed.

(** The three lines are equally long. *)
Lemma Print_box slogan : Forall (λ l, String.length l = String.length slogan + 10)%nat (Print_lines slogan).
Proof. unfold Print_lines. repeat constructor; rewrite !length_str_app, ?length_Repeat; cbn; lia. Qed.

(** ** A stream of the connection to a pod *)

(** [tryToCreateStream]: the goroutine that creates the stream sends nil on the channel and
    only then stores the stream; a timer sends after one second. *)
Inductive maker := Making | Sent (stream : nat) | Over.
Record try_state := MkTry { ts_maker : maker; ts_chan : list (option error); ts_result : option nat }.
Definition try0 : try_state := MkTry Making [] None.

Inductive try_event := CreateStream (r : option nat) | Store | Timer.

Definition try_step (ev : try_event) (s : try_state) : option try_state :=
  match ev, ts_maker s with
  | CreateStream (Some n), Making => Some (MkTry (Sent n) (ts_chan s ++ [None])%list (ts_result s))
  | CreateStream None, Making => Some (MkTry Over (ts_chan s ++ [Some (Errorf "")])%list (ts_result s))
  | Store, Sent n => Some (MkTry Over (ts_chan s) (Some n))
  | Timer, _ => Some (MkTry (ts_maker s) (ts_chan s ++ [Some (Errorf "timeout")])%list (ts_result s))
  | _, _ => None
  end.
Fixpoint try_run (evs : list try_event) (s : try_state) : option try_state :=
  match evs with [] => Some s | ev :: evs => s ← try_step ev s; try_run evs s end.

(** What the receiver does once the channel has a value: the stored stream, or the
    connection is closed and dialled again, and a stream of the new one is made under the
    next request number.  The result: whether the old connection was closed, the error sent
    to [pf.errChan] (the pod is gone), the request number, and the stream. *)
Definition redial (dial : outcome unit) (again : Z → outcome nat) (requestID : Z) : bool * option error * Z * outcome nat :=
  match dial with
  | Ret _ => (true, None, (requestID + 1)%Z, again requestID)
  | Fail e => (true, if IsNotFound e then Some e else None, requestID, Fail e)
  | Panic => (true, None, requestID, Panic)
  end.
Definition try_receive (dial : outcome unit) (again : Z → outcome nat) (requestID : Z) (s : try_state)
    : option (bool * option error * Z * outcome nat) :=
  match ts_chan s with
  | [] => None
  | None :: _ => match ts_result s with
                 | Some n => Some (false, None, requestID, Ret n)
                 | None => Some (redial dial again requestID)
                 end
  | Some _ :: _ => Some (redial dial again requestID)
  end.

Lemma redial_closes dial again id : fst (fst (fst (redial dial again id))) = true.
Proof. by destruct dial. Qed.

Lemma try_run_result evs s n :
  try_run evs try0 = Some s → (ts_result s = Some n ∨ ts_maker s = Sent n) → CreateStream (Some n) ∈ evs.
Proof.
  assert (∀ s0, (∀ m, ts_result s0 = Some m ∨ ts_maker s0 = Sent m → m ≠ n) → try_run evs s0 = Some s →
    (ts_result s = Some n ∨ ts_maker s = Sent n) → CreateStream (Some n) ∈ evs) as H.
  { induction evs as [|ev evs IH]; intros s0 H0 E Hs.
    - unfold try_run in E. simplify_eq. by destruct (H0 n).
    - cbn in E. apply bind_Some in E as (s1 & E1 & E).
      destruct ev as [[m|]| |]; destruct s0 as [[|k|] c r]; cbn in E1; simplify_eq; try (right; eapply IH; [|exact E|exact Hs]; exact H0).
      + destruct (decide (m = n)) as [->|Hm]; [by left|]. right. eapply IH; [|exact E|exact Hs].
        cbn. intros m' [Hm'|[= <-]]; [|done]. apply H0. by left.
      + right. eapply IH; [|exact E|exact Hs]. cbn. intros m [?|?]; [|done]. apply H0. by left.
      + right. eapply IH; [|exact E|exact Hs]. cbn. intros m [[= <-]|?]; [|done]. apply H0. by right. }
  apply H. intros m [?|?]; done.
Qed.

(** A stream that is returned without a new connection was created on the old one. *)
Lemma try_receive_stream evs s dial again id r n :
  try_run evs try0 = Some s → try_receive dial again id s = Some (false, r, id, Ret n) → CreateStream (Some n) ∈ evs.
Proof.
  intros E. pose proof (redial_closes dial again id) as Hc. unfold try_receive.
  destruct (ts_chan s) as [|[e|] c]; [done|intros [= Hr]; by rewrite Hr in Hc|].
  destruct (ts_result s) as [m|] eqn:Er; [|intros [= Hr]; by rewrite Hr in Hc].
  intros [= _ ->]. eapply try_run_result; [exact E|by left].
Qed.

(** The receiver may come between the send and the store: the connection, on which the
    stream was just made, is closed. *)
Lemma try_race n dial again id :
  ∃ s, try_run [CreateStream (Some n)] try0 = Some s ∧ try_receive dial again id s = Some (redial dial again id).
Proof. by eexists. Qed.

(** Stored in time, the stream is returned. *)
Lemma try_in_time n dial again id evs s :
  try_run ([CreateStream (Some n); Store] ++ evs)%list try0 = Some s → try_receive dial again id s = Some (false, None, id, Ret n).
Proof.
  cbn. assert (∀ s0, ts_maker s0 = Over → ts_result s0 = Some n → head (ts_chan s0) = Some None → try_run evs s0 = Some s →
    try_receive dial again id s = Some (false, None, id, Ret n)) as H; [|by apply H].
  induction evs as [|ev evs IH]; intros [mk c r] H1 H2 H3 E; cbn in H1, H2, H3; subst mk r.
  - unfold try_run in E. simplify_eq. unfold try_receive. cbn. destruct c as [|[] c]; done.
  - cbn in E. apply bind_Some in E as (s1 & E1 & E). destruct ev as [[m|]| |]; cbn in E1; simplify_eq.
    eapply IH; [..|exact E]; [done..|]. cbn. by destruct c as [|? c].
Qed.

(** ** Heartbeats of Windows *)

(** [ConnectOptions.heartbeats]: before each turn the look at the context; the addresses
    of the allocator are pinged. *)
Fixpoint windows_heartbeats (windows : bool) (turns : list (bool * outcome (list (list byte)))) : list string :=
  match turns with
  | (false, ips) :: turns =>
      if negb windows then [] else ((match ips with Ret l => IP_String <$> l | _ => [] end) ++ windows_heartbeats windows turns)%list
  | _ => []
  end.

(** [Heartbeats] of [pod.go]: one turn. *)
Definition Heartbeats_turn : list string := IP_String <$> [RouterIP; RouterIP6].
