(* ===== verification/Platforms.v ===== *)
(** * The other platforms: tun devices, DNS of Windows, logs

    [pkg/tun/tun_darwin.go] and [tun_windows.go], compared with the device [Node] makes on
    Linux; the listener of the device ([pkg/tun/tun.go]); [pkg/dns/dns_windows.go]; and the
    handler of the daemon's log ([pkg/daemon/action/logs.go]) with its command
    ([cmds/logs.go]). *)
From Stdlib Require Import ZArith Lia Ascii.
From Stdlib Require Import Strings.Byte.
From stdpp Require Import base gmap strings numbers list.
From S2P Require Import Prelude GoStrings GoNet Config Url Cidr Node Hosts Resolv.
From stdpp Require Import list.

Local Open Scope string_scope.

(** ** macOS *)

(** The calls that may fail: the device and its name, a command (its words), the interface. *)
Record Darwin := MkDarwin { dw_create : option error; dw_Name : outcome string; dw_run : list string → option error; dw_interface : option error }.

(** A command line: split at blanks and run, the commands so far with it; [what] begins the
    error. *)
Definition run_line (os : Darwin) (what line : string) (ran : list (list string)) : outcome (list (list string)) :=
  match dw_run os (Split " " line) with
  | Some e => Fail (ErrorfV (what +:+ line) e)
  | None => Ret (ran ++ [Split " " line])%list
  end.

Definition route_line (name : string) (dst : IPNet) : string :=
  "route add " +:+ (match To4 (net_IP dst) with Some _ => "-net " | None => "-inet6 " end) +:+ IPNet_String dst +:+ " -interface " +:+ name.

Fixpoint addTunRoutes_darwin (os : Darwin) (name : string) (routes : list IPNet) (ran : list (list string)) : outcome (list (list string)) :=
  match routes with
  | [] => Ret ran
  | dst :: routes =>
      if String.eqb (IPNet_String dst) "" then addTunRoutes_darwin os name routes ran
      else ran ← run_line os "run cmd " (route_line name dst) ran; addTunRoutes_darwin os name routes ran
  end.

Definition inet_line (name addr : string) (ip : list byte) (mtu : Z) : string :=
  "ifconfig " +:+ name +:+ " inet " +:+ addr +:+ " " +:+ IP_String ip +:+ " mtu " +:+ Itoa mtu +:+ " up".
Definition inet6_line (name : string) (ip : list byte) (net : IPNet) : string :=
  "ifconfig " +:+ name +:+ " inet6 " +:+ IP_String ip +:+ " prefixlen " +:+ Itoa (Z.of_nat (fst (MaskSize (net_Mask net)))) +:+ " alias".

(** [createTun]: the commands that were run and the address of the connection. *)
Definition createTun_darwin (os : Darwin) (cfg : TunConfig) : outcome (list (list string) * list byte) :=
  let mtu := if (t_MTU cfg <=? 0)%Z then DefaultMTU else t_MTU cfg in
  _ ← call (dw_create os);
  name ← dw_Name os;
  '(ipv4, _) ← of_option (Errorf "invalid CIDR address") (ParseCIDR (t_Addr cfg));
  ran ← run_line os "" (inet_line name (t_Addr cfg) ipv4 mtu) [];
  ran ← (if String.eqb (t_Addr6 cfg) "" then Ret ran
         else '(ipv6, net) ← of_option (Errorf "invalid CIDR address") (ParseCIDR (t_Addr6 cfg));
              run_line os "" (inet6_line name ipv6 net) ran);
  ran ← addTunRoutes_darwin os name (t_Routes cfg) ran;
  _ ← call (dw_interface os);
  Ret (ran, ipv4).

(** ** Windows *)

(** [netip.ParsePrefix]: [ParseCIDR] without leading zeros in the length. *)
Definition ParsePrefix (s : string) : option (list byte * IPNet) :=
  r ← ParseCIDR s;
  match snd <$> cut_slash s with
  | Some (String "0" (String _ _)) => None
  | Some _ => Some r
  | None => None
  end.

Record Windows := MkWindows {
  ww_create : option error; ww_addr : string → option error; ww_name : option error;
  ww_luid : option error; ww_route : string → list byte → option error; ww_interface : option error }.

Definition add_ip (os : Windows) (addr : string) (addrs : list (list byte * IPNet)) : outcome (option (list byte) * list (list byte * IPNet)) :=
  if String.eqb addr "" then Ret (None, addrs)
  else '(ip, _) ← of_option (Errorf "invalid CIDR address") (ParseCIDR addr);
       prefix ← of_option (Errorf "netip.ParsePrefix") (ParsePrefix addr);
       match ww_addr os addr with Some e => Fail e | None => Ret (Some ip, (addrs ++ [prefix])%list) end.

Definition gateway_zero (dst : IPNet) : list byte := match To4 (net_IP dst) with Some _ => IPv4 x00 x00 x00 x00 | None => replicate 16 x00 end.

Fixpoint addTunRoutes_windows (os : Windows) (routes : list IPNet) (done : list string) : outcome (list string) :=
  match routes with
  | [] => Ret done
  | dst :: routes =>
      let text := IPNet_String dst in
      if String.eqb text "" then addTunRoutes_windows os routes done
      else _ ← of_option (Errorf "netip.ParsePrefix") (ParsePrefix text);
           match ww_route os text (gateway_zero dst) with
           | None | Some AlreadyExists => addTunRoutes_windows os routes (done ++ [text])%list
           | Some e => Fail e
           end
  end.

(** [createTun]; the interface's routes, flushed before the new ones are added, are those the
    system made for it. *)
Definition createTun_windows (os : Windows) (cfg : TunConfig) : outcome Device :=
  if String.eqb (t_Addr cfg) "" && String.eqb (t_Addr6 cfg) "" then
    Fail (Errorf "ipv4 address and ipv6 address can not be empty at same time")
  else
    _ ← call (ErrorfV "failed to create TUN device" <$> ww_create os);
    '(ipv4, addrs) ← add_ip os (t_Addr cfg) [];
    '(_, addrs) ← add_ip os (t_Addr6 cfg) addrs;
    _ ← call (ww_name os);
    _ ← call (ww_luid os);
    routes ← addTunRoutes_windows os (t_Routes cfg) [];
    _ ← call (ww_interface os);
    Ret (MkDevice (t_MTU cfg) addrs routes ipv4).

(** ** The platforms agree *)

(** The commands that make the device that Linux makes. *)
Definition device_lines (name addr : string) (routes : list IPNet) (dev : Device) : list string :=
  (match d_addrs dev with
   | (ip4, _) :: (ip6, net6) :: _ => [inet_line name addr ip4 (d_mtu dev); inet6_line name ip6 net6]
   | _ => []
   end ++ (route_line name <$> routes))%list.

Definition working_darwin (name : string) : Darwin := MkDarwin None (Ret name) (λ _, None) None.
Definition working_windows : Windows := MkWindows None (λ _, None) None None (λ _ _, None) None.

Lemma addTunRoutes_darwin_working name routes ran :
  addTunRoutes_darwin (working_darwin name) name routes ran = Ret (ran ++ ((λ n, Split " " (route_line name n)) <$> routes))%list.
Proof.
  revert ran. induction routes as [|n routes IH]; intros ran; cbn; [by rewrite app_nil_r|].
  destruct (String.eqb_spec (IPNet_String n) "") as [E|_]; [by apply IPNet_String_nonempty in E|].
  rewrite IH, <-app_assoc. reflexivity.
Qed.

Lemma addTunRoutes_windows_working routes done :
  Forall (λ n, is_Some (ParsePrefix (IPNet_String n))) routes →
  addTunRoutes_windows working_windows routes done = Ret (done ++ (IPNet_String <$> routes))%list.
Proof.
  intros Hr. revert done. induction Hr as [|n routes [p Hp] Hr IH]; intros done; cbn; [by rewrite app_nil_r|].
  destruct (String.eqb_spec (IPNet_String n) "") as [E|_]; [by apply IPNet_String_nonempty in E|].
  rewrite Hp. cbn. rewrite IH, <-app_assoc. reflexivity.
Qed.

(** On machines where nothing fails, the three platforms give the device the same addresses
    and routes; on Windows the MTU is the configured one, also when that is 0. *)
Lemma platforms_agree name cfg r4 r6 :
  ParsePrefix (t_Addr cfg) = Some r4 → ParsePrefix (t_Addr6 cfg) = Some r6 → t_MTU cfg = 0%Z →
  Forall (λ n, is_Some (ParsePrefix (IPNet_String n))) (t_Routes cfg) →
  ∃ dev, createTun working_os cfg = Ret dev ∧ d_addrs dev = [r4; r6] ∧
    createTun_darwin (working_darwin name) cfg = Ret (Split " " <$> device_lines name (t_Addr cfg) (t_Routes cfg) dev, fst r4) ∧
    createTun_windows working_windows cfg = Ret (MkDevice 0 (d_addrs dev) (d_routes dev) (d_local dev)).
Proof.
  intros P4 P6 Hm Hr.
  assert (∀ s r, ParsePrefix s = Some r → ParseCIDR s = Some r ∧ s ≠ "") as HP.
  { intros s r. unfold ParsePrefix. destruct (ParseCIDR s) as [r'|] eqn:E; [|done]. cbn.
    destruct (snd <$> cut_slash s) as [[|[[] [] [] [] [] [] [] []] [|]]|]; intros [= <-]; split; try done; intros ->; by vm_compute in E. }
  destruct (HP _ _ P4) as [H4 N4], (HP _ _ P6) as [H6 N6]. eexists. split; [by apply createTun_working|]. split; [done|].
  destruct r4 as [ip4 n4], r6 as [ip6 n6]. split.
  - unfold createTun_darwin. rewrite H4. cbn -[addTunRoutes_darwin]. rewrite H6, Hm.
    destruct (String.eqb_spec (t_Addr6 cfg) "") as [|_]; [done|]. cbn -[addTunRoutes_darwin].
    rewrite addTunRoutes_darwin_working. cbn. unfold device_lines. cbn. by rewrite <-list_fmap_compose.
  - unfold createTun_windows, add_ip. destruct (String.eqb_spec (t_Addr cfg) "") as [|_]; [done|].
    destruct (String.eqb_spec (t_Addr6 cfg) "") as [|_]; [done|]. rewrite H4, H6, P4, P6, Hm. cbn -[addTunRoutes_windows].
    by rewrite addTunRoutes_windows_working.
Qed.

(** On macOS an IPv4 address is needed: a configuration with an IPv6 address only, which
    the others accept, fails after the device was created. *)
Lemma darwin_needs_ipv4 name cfg :
  t_Addr cfg = "" → createTun_darwin (working_darwin name) cfg = Fail (Errorf "invalid CIDR address").
Proof. intros E. unfold createTun_darwin. by rewrite E. Qed.

(** ** The listener of the device *)

(** [tunListener]: the connection in the channel, and whether the listener is closed. *)
Record tun_listener := MkTunListener { tn_conns : option nat; tn_closed : bool }.
Definition tun_Listener (conn : outcome nat) : outcome tun_listener := c ← conn; Ret (MkTunListener (Some c) false).

Inductive tun_op := AcceptConn (c : nat) | AcceptClosed | CloseListener (e : option error).

(** An operation with its result; no result while [Accept] blocks.  [Accept] may take either
    case when both are ready. *)
Definition tun_listen_step (op : tun_op) (l : tun_listener) : option tun_listener :=
  match op with
  | AcceptConn c => if bool_decide (tn_conns l = Some c) then Some (MkTunListener None (tn_closed l)) else None
  | AcceptClosed => if tn_closed l then Some l else None
  | CloseListener (Some e) =>
      if tn_closed l && bool_decide (e = Errorf "listener has been closed") then Some l else None
  | CloseListener None => if tn_closed l then None else Some (MkTunListener (tn_conns l) true)
  end.
Fixpoint tun_listen_run (ops : list tun_op) (l : tun_listener) : option tun_listener :=
  match ops with [] => Some l | op :: ops => l ← tun_listen_step op l; tun_listen_run ops l end.

Definition accepts (ops : list tun_op) : list nat := omap (λ op, match op with AcceptConn c => Some c | _ => None end) ops.
Definition closes (ops : list tun_op) : nat := length (List.filter (λ op, match op with CloseListener None => true | _ => false end) ops).

(** The connection of the device is handed out at most once, the listener is closed at most
    once, and an accept fails only after that. *)
Lemma tun_listener_once c ops l :
  tun_listen_run ops (MkTunListener (Some c) false) = Some l →
  (accepts ops = [] ∨ accepts ops = [c]) ∧ (closes ops ≤ 1)%nat ∧
  (AcceptClosed ∈ ops → closes ops = 1).
Proof.
  assert (∀ l0, tun_listen_run ops l0 = Some l →
    (accepts ops = [] ∨ ∃ c', tn_conns l0 = Some c' ∧ accepts ops = [c']) ∧
    (closes ops + (if tn_closed l0 then 1 else 0) ≤ 1)%nat ∧
    (AcceptClosed ∈ ops → closes ops + (if tn_closed l0 then 1 else 0) = 1)%nat) as H.
  { induction ops as [|op ops IH]; intros l0 E.
    { split; [by left|]. cbn. split; [destruct (tn_closed l0); lia|]. intros H. by apply not_elem_of_nil in H. }
    cbn in E. apply bind_Some in E as (l1 & E1 & E). destruct (IH l1 E) as (HA & HC & HI). destruct l0 as [cn cl].
    destruct op as [c'| |[e|]]; cbn in E1.
    - case_bool_decide as Hc; simplify_eq. cbn in *. split; [right; exists c'; split; [done|]|split; [done|]].
      + destruct HA as [HA|(? & [=] & _)]. unfold accepts in *. cbn. by rewrite HA.
      + intros [[=]|Hin]%elem_of_cons. by apply HI.
    - destruct cl; simplify_eq. cbn in *. split; [done|]. split; [done|]. intros _. unfold closes in *. cbn. lia.
    - destruct cl; [|done]. cbn in E1. case_bool_decide; simplify_eq. cbn in *. split; [done|]. split; [done|].
      intros [[=]|Hin]%elem_of_cons. by apply HI.
    - destruct cl; simplify_eq. cbn in *. split; [done|]. unfold closes in *. cbn. split; [lia|].
      intros [[=]|Hin]%elem_of_cons. specialize (HI Hin). lia. }
  intros E. destruct (H _ E) as (HA & HC & HI). cbn in *. rewrite Nat.add_0_r in *. split_and!; [|done|done].
  destruct HA as [?|(c' & [= <-] & ?)]; [by left|by right].
Qed.

(** ** DNS of Windows *)

(** The settings of an interface and the search list of the machine. *)
Record win_dns := MkWinDns { wd_servers : list (list byte); wd_search : list string; wd_suffixes : list string }.

(** The calls: the interface and its LUID, the settings, PowerShell. *)
Record win_calls := MkWinCalls { wc_interface : option error; wc_luid : option error; wc_SetDNS : option error; wc_powershell : option error }.

(** [addNicSuffixSearchList] indexes the first three domains. *)
Definition addNicSuffixSearchList (calls : win_calls) (search : list string) (d : win_dns) : outcome win_dns :=
  match search with
  | a :: b :: c :: _ =>
      Ret (match wc_powershell calls with None => MkWinDns (wd_servers d) (wd_search d) [a; b; c] | Some _ => d end)
  | _ => Panic
  end.

(** [SetupDNS] of Windows: the settings afterwards; addresses have no zones. *)
Definition SetupDNS_windows (calls : win_calls) (config : ClientConfig) (d : win_dns) : outcome win_dns :=
  _ ← call (wc_interface calls);
  _ ← call (wc_luid calls);
  servers ← of_option (Errorf "ParseAddr") (mapM ParseIP (Servers config));
  _ ← call (wc_SetDNS calls);
  addNicSuffixSearchList calls (Search config) (MkWinDns servers (Search config) (wd_suffixes d)).

(** [CancelDNS] of Windows, after the hosts file: the interface is flushed. *)
Definition CancelDNS_windows (calls : win_calls) (d : win_dns) : win_dns :=
  match wc_interface calls, wc_luid calls with
  | None, None => MkWinDns [] [] (wd_suffixes d)
  | _, _ => d
  end.

(** The interface gets the servers and the domains of the cluster, the machine the first
    three domains; cancelling clears the interface but leaves the machine's list. *)
Lemma SetupDNS_windows_ok calls config d d' :
  SetupDNS_windows calls config d = Ret d' →
  mapM ParseIP (Servers config) = Some (wd_servers d') ∧ wd_search d' = Search config ∧
  (wc_powershell calls = None → wd_suffixes d' = take 3 (Search config)) ∧
  CancelDNS_windows calls d' = MkWinDns [] [] (wd_suffixes d').
Proof.
  unfold SetupDNS_windows, CancelDNS_windows.
  destruct (wc_interface calls); [done|]. destruct (wc_luid calls); [done|]. cbn.
  destruct (mapM ParseIP (Servers config)) as [servers|]; [|done]. cbn. destruct (wc_SetDNS calls); [done|]. cbn.
  unfold addNicSuffixSearchList. destruct (Search config) as [|a [|b [|c l]]]; [done..|].
  destruct (wc_powershell calls); intros [= <-]; cbn; by split_and!.
Qed.

Lemma SetupDNS_windows_panics calls config d servers :
  wc_interface calls = None → wc_luid calls = None → wc_SetDNS calls = None → mapM ParseIP (Servers config) = Some servers →
  SetupDNS_windows calls config d = Panic ↔ (length (Search config) < 3)%nat.
Proof.
  intros H1 H2 H3 H4. unfold SetupDNS_windows. rewrite H1, H2, H3, H4. cbn. unfold addNicSuffixSearchList.
  destruct (Search config) as [|a [|b [|c l]]]; cbn; split; intros; done || lia.
Qed.

(** ** The log of the daemon *)

(** What the loop of [Server.Logs] gets: the end of the stream's context, the end of the
    lines, a line, or a line with an error; a line is sent, which may fail. *)
Inductive log_event := LogDone | LogEnd | LogLine (text : string) (send : option error) | LogError (e : error).

(** The lines sent, and the answer; [None]: still waiting. *)
Fixpoint logs_loop (evs : list log_event) : list string * option (outcome unit) :=
  match evs with
  | [] => ([], None)
  | LogDone :: _ | LogEnd :: _ => ([], Some (Ret tt))
  | LogError _ :: _ => ([], Some (Ret tt))  (* the error of [TailFile] is returned, which is nil *)
  | LogLine text None :: evs => let '(l, r) := logs_loop evs in (text :: l, r)
  | LogLine _ (Some e) :: _ => ([], Some (Fail e))
  end.

Record tail_config := MkTail { tf_Follow : bool; tf_ReOpen : bool; tf_MustExist : bool }.
Definition logs_config (follow : bool) : tail_config := MkTail follow follow true.

Definition Server_Logs (follow : bool) (TailFile : tail_config → option error) (evs : list log_event) : list string * option (outcome unit) :=
  match TailFile (logs_config follow) with Some e => ([], Some (Fail e)) | None => logs_loop evs end.

(** The command: the messages printed, and its error. *)
Inductive log_recv := RecvEOF | RecvMsg (text : string) | RecvCanceled | RecvErr (e : error).
Fixpoint logs_print (evs : list log_recv) : list string * option (outcome unit) :=
  match evs with
  | [] => ([], None)
  | RecvEOF :: _ | RecvCanceled :: _ => ([], Some (Ret tt))
  | RecvMsg text :: evs => let '(l, r) := logs_print evs in (text :: l, r)
  | RecvErr e :: _ => ([], Some (Fail e))
  end.

(** What the command sees of a call. *)
Definition received (r : list string * option (outcome unit)) : list log_recv :=
  ((RecvMsg <$> fst r) ++ match snd r with Some (Ret _) => [RecvEOF] | Some (Fail e) => [RecvErr e] | _ => [] end)%list.

(** The command prints exactly the lines the daemon sent, in order, and ends as it did. *)
Lemma logs_printed follow TailFile evs :
  (∀ l, snd (Server_Logs follow TailFile evs) ≠ Some l ∨ l ≠ Panic) →
  logs_print (received (Server_Logs follow TailFile evs)) = Server_Logs follow TailFile evs.
Proof.
  destruct (Server_Logs follow TailFile evs) as [l r]. cbn. intros H. unfold received. cbn.
  induction l as [|t l IH]; cbn; [|by rewrite IH].
  destruct r as [[[]| |]|]; try done. by destruct (H Panic).
Qed.

(** [tail] cannot reopen a file that it does not follow. *)
Lemma logs_config_ok follow : tf_ReOpen (logs_config follow) = true → tf_Follow (logs_config follow) = true.
Proof. by destruct follow. Qed.

(** An error while reading the file ends the call without an error. *)
Lemma logs_error_lost e evs : logs_loop (LogError e :: evs) = ([], Some (Ret tt)).
Proof. reflexivity. Qed.
