(* ===== verification/Commands.v ===== *)
(** * Commands of the user

    [cmd/kubevpn/cmds]: a command builds a request, sends it to the user daemon and copies the
    messages of the answer to its output until the stream ends; [serve] is the command of the
    containers. *)
From Stdlib Require Import ZArith Lia.
From Stdlib Require Import Ascii.
From stdpp Require Import base gmap strings numbers list.
From S2P Require Import Prelude GoStrings Config Url Daemon Node.
From stdpp Require Import list.

Local Open Scope string_scope.

(** ** Streams *)

(** How a stream ends: [io.EOF], a status of cancellation or of an exceeded deadline, another
    error. *)
Inductive ending := AtEOF | Cancelled | Broken (e : error).
Record stream := MkStream { messages : list string; ends : ending }.

(** The loop over [Recv]: what is printed, and whether the command goes on ([None]), or returns. *)
Definition recv_all (s : stream) : list string * option (outcome unit) :=
  (messages s, match ends s with AtEOF => None | Cancelled => Some (Ret tt) | Broken e => Some (Fail e) end).

(** A command that sends one request and prints [slogan] at the end. *)
Definition stream_command (answer : outcome stream) (slogan : list string) : list string * outcome unit :=
  match answer with
  | Ret s => match recv_all s with
             | (out, None) => ((out ++ slogan)%list, Ret tt)
             | (out, Some o) => (out, o)
             end
  | Fail e => ([], Fail e)
  | Panic => ([], Panic)
  end.

Definition connected_slogan : string := "Now you can access resources in the kubernetes cluster, enjoy it :)".

(** ** Connecting, proxying, cloning *)

Section commands.
Context {Req : Type} (EngineGvisor : string).

(** [CmdConnect]; the daemons have been started by [PreRunE]. *)
Definition connect_RunE (kubeconfig : outcome string) (build : string → Req) (foreground lite : bool)
    (Connect ConnectFork : Req → outcome stream) : list string * outcome unit :=
  match kubeconfig with
  | Ret bytes =>
      stream_command ((if lite then ConnectFork else Connect) (build bytes)) (if foreground then [] else [connected_slogan])
  | Fail e => ([], Fail e)
  | Panic => ([], Panic)
  end.

(** [CmdProxy] and [CmdClone] refuse the engine "gvisor", the first after the daemons were
    started. *)
Definition check_engine (engine : string) : outcome unit :=
  if String.eqb engine EngineGvisor then Fail (Errorf ("not support type engine: " +:+ engine)%string) else Ret tt.
Definition proxy_PreRunE (startup : outcome unit) (engine : string) : outcome unit := _ ← startup; check_engine engine.
Definition clone_PreRunE (startup : outcome unit) (engine : string) : outcome unit := _ ← check_engine engine; startup.

(** [CmdLeave] and [CmdRemove]. *)
Definition leave_RunE (answer : outcome stream) : list string * outcome unit := stream_command answer [].

(** [CmdProxy]; in the foreground it leaves the workloads when its context ends, and does not look
    at the error of that request: the stream is nil then. *)
Definition proxy_RunE (args : list string) (kubeconfig : outcome string) (build : string → list string → Req) (foreground : bool)
    (Proxy : Req → outcome stream) (Leave : list string → outcome stream) : list string * outcome unit :=
  match args with
  | [] => ([], Fail (Errorf "Required resource not specified."))
  | _ :: _ =>
      match kubeconfig with
      | Ret bytes =>
          match Proxy (build bytes args) with
          | Ret s =>
              match recv_all s with
              | (out, Some o) => (out, o)
              | (out, None) =>
                  let out := (out ++ [connected_slogan])%list in
                  if foreground then
                    match Leave args with
                    | Ret l => let '(out', o) := leave_RunE (Ret l) in ((out ++ out')%list, o)
                    | _ => (out, Panic)
                    end
                  else (out, Ret tt)
              end
          | Fail e => ([], Fail e)
          | Panic => ([], Panic)
          end
      | Fail e => ([], Fail e)
      | Panic => ([], Panic)
      end
  end.

(** A foreground proxy whose stream ends at its end always asks to leave its workloads. *)
Lemma proxy_foreground_leaves a args bytes build Proxy Leave s :
  Proxy (build bytes (a :: args)) = Ret s → ends s = AtEOF →
  proxy_RunE (a :: args) (Ret bytes) build true Proxy Leave =
    match Leave (a :: args) with
    | Ret l => ((messages s ++ [connected_slogan]) ++ messages l,
                match ends l with Broken e => Fail e | _ => Ret tt end)%list
    | _ => ((messages s ++ [connected_slogan])%list, Panic)
    end.
Proof.
  intros H1 H2. unfold proxy_RunE. rewrite H1. unfold recv_all. rewrite H2.
  destruct (Leave (a :: args)) as [l| |]; [|done..]. unfold leave_RunE, stream_command, recv_all.
  destruct (ends l); by rewrite ?app_nil_r.
Qed.
End commands.

(** ** Disconnecting *)

(** The request of [CmdDisconnect]; the number is converted to 32 bits. *)
Definition disconnect_request (args : list string) (all : bool) : outcome DisconnectRequest :=
  if (0 <? length args)%nat && all then Fail (Errorf "either specify --all or specific ID, not both")
  else if (length args =? 0)%nat && negb all then Fail (Errorf "either specify --all or specific ID")
  else match args with
  | [] => Ret (MkDisconnect all None)
  | a :: _ =>
      match Atoi a with
      | None => Fail (Errorf ("invalid ID: " +:+ a)%string)
      | Some z => Ret (MkDisconnect all (Some (wrap32 z)))
      end
  end.

(** A cancelled stream counts as a success; the error of the call is not looked at, and the stream
    is nil then. *)
Definition disconnect_RunE (args : list string) (all : bool) (call : DisconnectRequest → outcome stream)
  : list string * outcome unit :=
  match disconnect_request args all with
  | Ret req =>
      match call req with
      | Ret s => match ends s with
                 | Broken e => (messages s, Fail e)
                 | _ => ((messages s ++ ["disconnect successfully"])%list, Ret tt)
                 end
      | _ => ([], Panic)
      end
  | Fail e => ([], Fail e)
  | Panic => ([], Panic)
  end.

(** The command with the number that [status] shows for a lite connection removes that connection
    from both daemons, and no other. *)
Lemma disconnect_command eu i d c :
  e_client eu = true → e_send eu = None → secondary (user d) = secondary (sudo d) →
  secondary (user d) !! i = Some c → (Z.of_nat (length (secondary (user d))) < 2 ^ 31)%Z →
  ∃ req, disconnect_request [Itoa (Z.of_nat (S i))] false = Ret req ∧
    r_cleaned (Disconnect eu req d) = [c; c] ∧
    secondary (user (r_state (Disconnect eu req d))) = remove_at i (secondary (user d)).
Proof.
  intros Hc Hs Hsync Hi Hlen. pose proof (lookup_lt_Some _ _ _ Hi).
  exists (MkDisconnect false (Some (Z.of_nat (S i)))). split.
  - unfold disconnect_request. cbn [length Nat.ltb Nat.leb Nat.eqb andb]. rewrite Atoi_Itoa by lia. by rewrite wrap32_small by lia.
  - destruct (Disconnect_lite eu (S i) d) as [-> ->]; [done..|lia|lia|]. rewrite Nat.sub_succ, Nat.sub_0_r, Hi. done.
Qed.

(** A number of more than 32 bits means another connection. *)
Example disconnect_large_id : disconnect_request ["4294967296"] false = Ret (MkDisconnect false (Some 0%Z)).
Proof. vm_compute. reflexivity. Qed.

(** ** Serving *)

(** [CmdServe]: the requests it makes of the webhook, and its result; [run] is [handler.Run].  The
    addresses are released when it ends, if renting did not fail. *)
Definition serve_RunE (env : gmap string string) (do : Request → outcome string) (p : gmap string string → Process)
    (run : list Server → outcome unit) (r : Route) : list Request * outcome unit :=
  match RentIPIfNeeded env do r with
  | (env, Ret r) =>
      let o := servers ← ParseRoute (p env) r; run servers in
      (match Url.Parse (api_url (Getenv env EnvPodNamespace) APIReleaseIP) with Ret url => [release_request env url] | _ => [] end, o)
  | (_, Fail e) => ([], Fail e)
  | (_, Panic) => ([], Panic)
  end.

Section serving.
Context (env : gmap string string) (do : Request → outcome string) (p : gmap string string → Process)
  (run : list Server → outcome unit) (r : Route) (ip4 ip6 ns : string) (url : URL).

(** A pod without addresses of its own rents the pair [ip4,ip6]. *)
Definition rents : Prop :=
  env !! EnvInboundPodTunIPv4 = Some "" ∧ Getenv env EnvPodNamespace = ns ∧ ns ≠ "" ∧
  Url.Parse (api_url ns APIRentIP) = Ret url ∧ Count ","%char ip4 = 0 ∧ Count ","%char ip6 = 0 ∧
  do (MkRequest "GET" url (<[HeaderPodNamespace := ns]> (<[HeaderPodName := Getenv env EnvPodName]> ∅))) = Ret (ip4 +:+ "," +:+ ip6)%string.

Lemma RentIPIfNeeded_rents : rents →
  RentIPIfNeeded env do r = (<[EnvInboundPodTunIPv6 := ip6]> (<[EnvInboundPodTunIPv4 := ip4]> env),
    nodes ← complete_nodes (ip4 +:+ "," +:+ ip6)%string (r_ServeNodes r); Ret (MkRoute nodes (r_ChainNode r) (r_Retries r))).
Proof.
  intros (He & Hns & Hne & Hu & H4 & H6 & Hdo). unfold RentIPIfNeeded. rewrite He, bool_decide_true by done.
  rewrite Hns, bool_decide_false, Hu, Hdo by done.
  change (ip4 +:+ "," +:+ ip6)%string with (ip4 +:+ String "," ip6)%string in *. by rewrite Split_sep, !Split_word by done.
Qed.

(** Whatever ends the server, the addresses it rented are released. *)
Lemma serve_releases url' nodes : rents → Url.Parse (api_url ns APIReleaseIP) = Ret url' →
  complete_nodes (ip4 +:+ "," +:+ ip6)%string (r_ServeNodes r) = Ret nodes →
  ∃ q o, serve_RunE env do p run r = ([q], o) ∧ q_Method q = "DELETE" ∧ q_URL q = url' ∧
    q_Header q !! HeaderIPv4 = Some ip4 ∧ q_Header q !! HeaderIPv6 = Some ip6.
Proof.
  intros H Hu' Hc. unfold serve_RunE. rewrite RentIPIfNeeded_rents, Hc by done. cbn [mbind outcome_bind].
  destruct H as (_ & Hns & _).
  assert (Hn : Getenv (<[EnvInboundPodTunIPv6 := ip6]> (<[EnvInboundPodTunIPv4 := ip4]> env)) EnvPodNamespace = ns).
  { unfold Getenv. rewrite !lookup_insert_ne by done. exact Hns. }
  rewrite Hn, Hu'. eexists _, _. split; [reflexivity|]. split_and!; [done..| |].
  - unfold release_request, Getenv. cbn [q_Header]. rewrite lookup_insert_ne by done. rewrite lookup_insert_eq.
    rewrite lookup_insert_ne by done. by rewrite lookup_insert_eq.
  - unfold release_request, Getenv. cbn [q_Header]. rewrite lookup_insert_eq. by rewrite lookup_insert_eq.
Qed.

(** Addresses that were rented are kept when a node of the route cannot be parsed. *)
Lemma serve_leaks e : rents → complete_nodes (ip4 +:+ "," +:+ ip6)%string (r_ServeNodes r) = Fail e →
  serve_RunE env do p run r = ([], Fail e).
Proof. intros H Hc. unfold serve_RunE. by rewrite RentIPIfNeeded_rents, Hc by done. Qed.
End serving.

(** ** Commands with one answer *)

(** Send a request and print a part of the answer. *)
Definition print_command {A} (answer : outcome A) (show : A → string) : list string * outcome unit :=
  match answer with
  | Ret a => ([show a], Ret tt)
  | Fail e => ([], Fail e)
  | Panic => ([], Panic)
  end.

(** [CmdStatus], [CmdList] and [CmdSSHDaemon] print a field of the answer. *)
Definition message_RunE (answer : outcome string) : list string * outcome unit := print_command answer id.

(** [cmdConfigAdd] and [cmdConfigRemove]; cobra has checked that there is one argument. *)
Definition config_add_RunE {R} (kubeconfig : outcome (string * string)) (build : string → string → R) (ConfigAdd : R → outcome string)
    : list string * outcome unit :=
  print_command ('(bytes, ns) ← kubeconfig; ConfigAdd (build bytes ns)) id.
Definition ExactArgs (n : nat) (args : list string) : bool := Nat.eqb (length args) n.
Definition config_remove_RunE (ConfigRemove : string → outcome unit) (args : list string) : outcome unit :=
  if ExactArgs 1 args then match args with id :: _ => ConfigRemove id | [] => Panic end else Fail (Errorf "accepts 1 arg(s)").

(** [CmdGet]: the arguments are not checked before the first is taken. *)
Definition get_RunE {M} (namespace : outcome string) (Get : string → string → outcome M) (marshal : M → outcome string) (args : list string)
    : list string * outcome unit :=
  print_command (ns ← namespace; resource ← (match args with r :: _ => Ret r | [] => Panic end); m ← Get ns resource; marshal m) id.

(** The example of [config remove] in its help gives no argument but a flag: it is refused. *)
Lemma config_remove_example ConfigRemove : config_remove_RunE ConfigRemove [] = Fail (Errorf "accepts 1 arg(s)").
Proof. reflexivity. Qed.

Lemma get_without_argument {M} ns (Get : string → string → outcome M) marshal : get_RunE (Ret ns) Get marshal [] = ([], Panic).
Proof. reflexivity. Qed.

(** [CmdReset]: errors end the process; "done" is printed at the end. *)
Definition reset_Run (init reset : outcome unit) : list string * outcome unit := print_command (_ ← init; reset) (λ _, "done").

(** [CmdDev], before it runs, and the arguments of the container after "--". *)
Definition dev_PreRunE (args : list string) (parse : list string → outcome unit) (engine : outcome unit) (startup jump : outcome unit) : outcome unit :=
  match args with
  | [] => Fail (Errorf "Required resource not specified.")
  | _ :: flags => _ ← parse flags; _ ← engine; _ ← startup; jump
  end.
Fixpoint dev_args (args : list string) : option (list string) :=
  match args with
  | [] => None
  | a :: rest => if String.eqb a "--" && negb (Nat.eqb (length rest) 0) then Some rest else dev_args rest
  end.

(** The arguments are what follows the first "--" that is not last. *)
Lemma dev_args_spec args rest :
  dev_args args = Some rest ↔ rest ≠ [] ∧ ∃ pre, args = (pre ++ "--" :: rest)%list ∧ "--" ∉ pre.
Proof.
  induction args as [|a args IH]; cbn.
  { split; [done|]. intros (_ & [] & ? & _); done. }
  destruct (String.eqb_spec a "--") as [->|Ha]; cbn [andb].
  - destruct args as [|b args]; cbn [length Nat.eqb negb].
    + split; [done|]. intros (Hr & [|x [|y pre]] & E & _); simplify_list_eq; done.
    + split.
      * intros [= <-]. split; [done|]. exists []. split; [done|]. apply not_elem_of_nil.
      * intros (_ & [|x pre] & E & Hn); simplify_list_eq; [done|]. by rewrite not_elem_of_cons in Hn; destruct Hn.
  - rewrite IH. split; intros (Hr & pre & E & Hn); (split; [done|]).
    + exists (a :: pre). split; [by rewrite E|]. rewrite not_elem_of_cons. split; [congruence|done].
    + destruct pre as [|x pre]; simplify_list_eq. exists pre. split; [done|]. by rewrite not_elem_of_cons in Hn; destruct Hn.
Qed.

(** ** The server of the daemon *)

(** [CreateDowngradingHandler]: which of the two handlers gets a request. *)
Definition downgrading_grpc (ProtoMajor : Z) (ContentType : string) : bool := Z.eqb ProtoMajor 2 && HasPrefix ContentType "application/grpc".

(** [SvrOption.Start]: the calls in order; what was opened before a failure is closed. *)
Inductive opened := LogFile | Socket | Admin | Http.
Definition daemon_Serve (log listen chmod admin configure : option error) (serve : error) : list opened * error :=
  match log with
  | Some e => ([], e)
  | None =>
      match listen with
      | Some e => ([LogFile], e)
      | None =>
          match chmod with
          | Some e => ([Socket; LogFile], e)
          | None =>
              match admin with
              | Some e => ([Socket; LogFile], e)
              | None =>
                  match configure with
                  | Some e => ([Http; Admin; Socket; LogFile], e)
                  | None => ([Http; Admin; Socket; LogFile], serve)
                  end
              end
          end
      end
  end.

(** The log file is closed last, and a socket that was made is closed, whatever fails. *)
Lemma daemon_Serve_closes log listen chmod admin configure serve :
  let '(closed, _) := daemon_Serve log listen chmod admin configure serve in
  (log = None → ∃ l, closed = (l ++ [LogFile])%list) ∧ (log = None → listen = None → Socket ∈ closed).
Proof.
  unfold daemon_Serve. destruct log; [by split|]. destruct listen; [split; [intros _; by exists []|done]|].
  destruct chmod; [split; [intros _; by exists [Socket]|set_solver]|]. destruct admin; [split; [intros _; by exists [Socket]|set_solver]|].
  destruct configure; (split; [intros _; by exists [Http; Admin; Socket]|set_solver]).
Qed.
